(* ===== verification/_CoqProject ===== *)
-Q . S2P
Prelude.v
CString.v
Keeps.v
Spinlock.v
Layout.v
Dll.v
Blocks.v
Printf.v
PrintfSpec.v
Http.v
HttpSpec.v
User.v
Umalloc.v
UmallocSpec.v
Grep.v
GrepSpec.v
Sh.v
ShSpec.v
Kalloc.v
Vm.v
VmTable.v
VmMap.v
VmUser.v
VmBytes.v
VmAlloc.v
VmCopy.v
VmFree.v
Proc.v
ProcVm.v
ProcSpec.v
Quiet.v
Console.v
Buddy.v
BuddySpec.v
Pipe.v
PipeSpec.v
Sleeplock.v
Bio.v
Virtio.v
VirtioSpec.v
BioSpec.v
BioInit.v
Log.v
LogDisk.v
LogSpec.v
LogOps.v
LogCrash.v
Fs.v
FsPath.v
FsTyped.v
FsBlocks.v
FsSpec.v
InodeSpec.v
FileSpec.v
DirSpec.v
TruncSpec.v
File.v
ProcLife.v
Exec.v
Sysproc.v
Sysfile.v
SysfileSpec.v
Trap.v
Asm.v
AsmSpec.v
Riscv.v
Main.v
Utils.v
UtilsSpec.v
Grind.v
GrindSpec.v
Tests.v
DumpTests.v
UsertestsMem.v
UsertestsFs.v
Usertests.v
UsertestsSpec.v
Mkfs.v
LogSpace.v
