(* ===== verification/Prelude.v ===== *)
(** * Verification of xv6-os and the vtfs HTTP client

    The program is a RISC-V teaching operating system ([src/xv6-os]): a kernel
    written in C, the user programs that run on it, the host tool [mkfs] that
    builds its disk image, and a Linux module ([src/vfs-kernel-module]) with a
    small HTTP client. This library is a shallow embedding of it: C functions
    are Rocq functions with the names of the source, on explicit states, and
    the theorems are about these functions.

    ** How the code is modelled

    Kernel code is in a state monad with errors, [M S A := S -> res S A] (this
    file): a routine returns ([Ok]), panics ([Panic]), spins for ever
    ([Spin]), gives up the processor ([Yield], with the state it leaves and
    the continuation that runs on the state it finds), or exhausts the bound
    on a loop ([OutOfFuel]). The states are nested as the components use each
    other: [hart] (locks and interrupt state), [mm] (memory and free list),
    [pst] (process table), [slst] (sleep locks), [bst] (buffers and disk),
    [lst] (log), [fsst] (inodes), [kst] (files, pipes, console, devices) and
    [boot]; the class [Sub] lifts a routine from a part to the whole. Integers
    are [Z] with the wrap-around of their C types ([u8], [u32], [s32], ...);
    memory is a map from addresses to bytes; blocks are lists of bytes.

    User programs, the tests among them, are trees of system calls ([prog] of
    User.v), run against a handler of the calls. Programs that
    work on strings in memory (User.v, Umalloc.v) have the memory of the
    process as their state. Assembly is a list of instructions, run on a
    machine with registers and memory behind a page table (Asm.v); the inline
    assembly of riscv.h runs on the same machine (Riscv.v).

    Several processes at once: LogSpace.v is a step relation in which each
    process is at a place of a transaction, with the continuation of its last
    yield, and any of them may go on; Keeps.v has the rules that carry an
    invariant through such a system.

    Loops that C bounds by data run on that bound; the others have fuel. In
    [fuel] arguments of kernel routines it bounds the wakeups of
    [acquiresleep]; theorems hold for every fuel, also 0, when the locks are
    free. [readi], [writei], [balloc], the parser of the shell and [firstk]
    compute their own fuel, and the theorems on them show that it is enough.
    For [malloc] any fuel above twice the number of free blocks is enough, for
    [free] their number.
    In the test programs fuel bounds the loops that never end and those that
    end with the memory, the disk or a file; [usertests_verdict] and
    [pipe1_reader_correct] hold for every fuel above the number of rounds.

    ** The files

    - Prelude, Keeps, Blocks, Dll, Layout: the monad, invariants and
      rely-guarantee rules for routines that yield, byte arrays, linked lists, memory layout (memlayout.h,
      param.h, riscv.h).
    - CString (kernel/string.c), Spinlock (spinlock.c), Printf and PrintfSpec
      (printf.c), Kalloc (kalloc.c).
    - Vm, VmTable, VmMap, VmUser, VmBytes, VmAlloc, VmCopy, VmFree (vm.c):
      page tables in memory, and what mapping, unmapping, growing, copying and
      freeing do to them.
    - Proc, ProcVm, ProcSpec, Quiet, ProcLife (proc.c): the page table of a
      process, scheduling, sleep and wakeup, fork, exit, wait.
    - Console (console.c, uart.c), Pipe and PipeSpec (pipe.c), Buddy and
      BuddySpec (buddy.c, list.c).
    - Sleeplock (sleeplock.c), Bio, BioSpec, BioInit (bio.c), Virtio and
      VirtioSpec (virtio_disk.c).
    - Log, LogDisk, LogSpec, LogOps, LogCrash, LogSpace (log.c):
      transactions, crashes, and the space that processes share.
    - Fs, FsPath (fs.c); FsTyped, FsBlocks, FsSpec, InodeSpec, FileSpec,
      DirSpec, TruncSpec: the types, the bitmap, inodes on disk, file
      contents, directories and truncation.
    - File (file.c), Exec (exec.c), Sysproc and Sysfile (syscall.c, sysproc.c,
      sysfile.c), SysfileSpec, Trap (trap.c, plic.c), Main (main.c).
    - Asm and AsmSpec (trampoline.S, swtch.S, kernelvec.S, entry.S, initcode.S,
      usys.pl), Riscv (the inline assembly of riscv.h, start.c).
    - User (ulib.c, printf.c), Umalloc and UmallocSpec (umalloc.c), Grep
      and GrepSpec (grep.c), Sh and ShSpec (sh.c), Utils and UtilsSpec (cat, wc, ls, echo,
      rm, mkdir, ln, kill, zombie, init).
    - Grind and GrindSpec (grind.c), Tests (forktest, stressfs, alloctest,
      cowtest, lazytests), DumpTests (dumptests, dump2tests, in C and
      assembly), UsertestsMem, UsertestsFs, Usertests and UsertestsSpec
      (usertests.c).
    - Mkfs (mkfs.c), Http and HttpSpec (vtfs http.c, vtfs.c).

    ** What the theorems show

    - Concurrency: spin locks exclude each other for every interleaving of
      harts ([spinlock_mutual_exclusion]); critical sections restore the
      interrupt state; sleep locks, sleep, wakeup, kill and a round of the
      scheduler do what their callers rely on.
    - Memory: the free list refines a set of pages; page tables are changed
      exactly as asked, also when memory runs out: growing, copying for fork
      ([uvmcopy_correct]), the table of a new process and freeing lose no page
      and free none twice; the kernel touches user memory only through pages
      the user may access.
    - Control: a trap and its return keep every register of the user
      ([trap_roundtrip]), on the page table that [proc_pagetable] makes; swtch
      resumes a process where it gave up the processor; interrupts in the
      kernel are transparent; a hart boots into main in supervisor mode with
      its number in tp ([boot_correct]); initcode.S assembles to the bytes in
      proc.c.
    - Storage: the driver performs the transfers of the buffer cache, and the
      cache refines the disk; a commit is atomic under a
      crash at any point ([commit_crash_atomic]); whatever the interleaving
      of processes, the log never overflows and a commit excludes them
      ([log_reservation]); [balloc] and [bfree] keep the bitmap exact;
      [itrunc] frees the blocks of a file and no other; [iupdate] stores what [ilock] loads; [readi] and
      [writei] implement a file as a sequence of bytes; [dirlookup] and
      [dirlink] implement a directory as a map of names; all of fs.c keeps the
      ranges of the C types, also while other processes run in between.
    - System calls refuse descriptors that are not open; a pipe is a queue.
    - Programs: grep's matcher decides the language of its pattern and grep
      prints the right lines; the parser of the shell ends and finds the words
      of the line; malloc and free keep the heap well formed and blocks apart;
      wc counts right; the HTTP client parses complete responses
      and frees what it takes.
    - Tests: the generator of grind has full period; the pipe test of usertests
      accepts exactly what was sent; usertests passes exactly when every test
      it ran exits with 0 and no page is lost; forktest passes on every kernel
      with fewer than 1000 processes; the dump tests expect the values that
      their assembly sets.
    - Limits that the proofs brought out: the buffer of the kernel's
      [printint], the loop of [firstk], the byte that [piperead] loses, long
      lines in grep, truncated HTTP responses, requests of 2 GB to malloc, and
      the log of mkfs, which is one block too small for what [begin_op] admits
      ([log_one_short]).

    ** Assumptions

    A read or write of a block through [bread] and [bwrite] is a transfer
    between a buffer and a block of the disk ([disk_rw] of Bio.v). The driver
    itself is in Virtio.v; [virtio_disk_rw_correct] shows that it performs
    such a transfer when the device serves requests as virtio says and one
    request is in flight at a time. The theorems on the file system are about one process in a
    transaction, with its locks free: between two of its steps no other
    process changes the blocks it uses. [fs_types_kept] has no such
    restriction, and [log_reservation] is about all interleavings at the
    yields of the log, for operations of fewer than MAXOPBLOCKS blocks.
    [itrunc_correct] is about disks with one block of bitmap, as mkfs makes
    them. [readi_correct] and [writei_correct] are about transfers with
    kernel memory and files whose blocks are allocated. A crash loses the
    memory and keeps a prefix of the block writes, each of them whole.
    Addresses of symbols and the code of [initcode] are arguments ([Symbols],
    [Layout]); the system calls dump and dump2, which the kernel does not
    have, are arguments of their tests; the functions of Linux that the module calls ([kstrtoint],
    sockets) are arguments of its definitions.

    ** Not modelled

    - Instruction fetch, privilege modes and the TLB: the machine of Asm.v runs
      the instructions of a routine in order, and its control registers are
      independent of each other. In the C model swtch is the
      [Yield] of the monad, and usertrapret ends with what it hands to userret.
    - The link scripts, which are commands for the linker, and the prototypes
      of defs.h and user.h, which declare what is modelled elsewhere.
    - The Python test runner and the build files, which start an emulator and
      compare its output.
    - The devices behind the registers of the UART, the PLIC and the disk:
      what they answer is part of the state. *)
From stdpp Require Export base tactics numbers option list gmap strings fin_maps.
From Stdlib Require Export ZArith Lia.
From Stdlib Require Import FunctionalExtensionality.

#[global] Open Scope Z_scope.

(** ** Machine integers

    An integer of the C code is a [Z]; the wrap-around of a type is written
    out with one of the functions below at the places where the code
    computes at that width. *)
Definition u8 (x : Z) : Z := x mod 2 ^ 8.
Definition u16 (x : Z) : Z := x mod 2 ^ 16.
Definition u32 (x : Z) : Z := x mod 2 ^ 32.
Definition u64 (x : Z) : Z := x mod 2 ^ 64.
Definition s16 (x : Z) : Z := (x + 2 ^ 15) mod 2 ^ 16 - 2 ^ 15.
Definition s32 (x : Z) : Z := (x + 2 ^ 31) mod 2 ^ 32 - 2 ^ 31.

(** The value of a C comparison. *)
Definition b2z (b : bool) : Z := if b then 1 else 0.

(** ** A state and error monad

    A routine of the kernel is a function from a state to a result: it
    returns a value with the new state, it calls [panic] with a message, it
    never returns, either because it spins on a lock that stays taken or
    because a loop of the model used up its fuel, or it gives up the processor
    ([Yield]), to go on from the state in which it is scheduled again. *)
Inductive res (S A : Type) : Type :=
| Ok (a : A) (s : S)
| Panic (msg : string)
| Spin
| OutOfFuel
| Yield (s : S) (k : S -> res S A).
Arguments Ok {S A} a s.
Arguments Panic {S A} msg.
Arguments Spin {S A}.
Arguments OutOfFuel {S A}.
Arguments Yield {S A} s k.

Definition M (S A : Type) : Type := S -> res S A.

Fixpoint res_bind {S A B} (r : res S A) (k : A -> M S B) : res S B :=
  match r with
  | Ok a s' => k a s'
  | Panic msg => Panic msg
  | Spin => Spin
  | OutOfFuel => OutOfFuel
  | Yield s' r' => Yield s' (fun s => res_bind (r' s) k)
  end.

Declare Scope kernel_scope.
Delimit Scope kernel_scope with K.
#[global] Open Scope kernel_scope.

Definition mret' {S A} (a : A) : M S A := fun s => Ok a s.

Definition mbind' {S A B} (m : M S A) (k : A -> M S B) : M S B := fun s => res_bind (m s) k.

Notation "'let!' x ':=' m 'in' k" := (mbind' m (fun x => k))
  (at level 10, x pattern, m at level 100, k at level 200,
   format "'[v' 'let!'  x  ':='  m  'in' '/' k ']'") : kernel_scope.
Notation "m ';;;' k" := (mbind' m (fun _ => k))
  (at level 100, k at level 200, right associativity,
   format "'[v' m  ';;;' '/' k ']'") : kernel_scope.

Definition get {S} : M S S := fun s => Ok s s.
Definition gets {S A} (f : S -> A) : M S A := fun s => Ok (f s) s.
Definition put {S} (s' : S) : M S unit := fun _ => Ok tt s'.
Definition modify {S} (f : S -> S) : M S unit := fun s => Ok tt (f s).
Definition panic {S A} (msg : string) : M S A := fun _ => Panic msg.
Definition spin {S A} : M S A := fun _ => Spin.
Definition out_of_fuel {S A} : M S A := fun _ => OutOfFuel.
Definition yield_cpu {S} : M S unit := fun s => Yield s (fun s' => Ok tt s').
Definition when {S} (b : bool) (m : M S unit) : M S unit :=
  if b then m else mret' tt.

(** A component whose state [T] contains the state [S] of another one calls
    the routines of that one through [lift]. *)
Class Sub (S T : Type) : Type := {
  sub_get : T -> S;
  sub_put : S -> T -> T;
}.

Class SubLaws (S T : Type) `{Sub S T} : Prop := {
  sub_get_put : forall s t, sub_get (sub_put s t) = s;
  sub_put_get : forall t, sub_put (sub_get t) t = t;
  sub_put_put : forall s s' t, sub_put s (sub_put s' t) = sub_put s t;
}.

Fixpoint res_lift {S T A} `{Sub S T} (t : T) (r : res S A) : res T A :=
  match r with
  | Ok a s' => Ok a (sub_put s' t)
  | Panic msg => Panic msg
  | Spin => Spin
  | OutOfFuel => OutOfFuel
  | Yield s' k => Yield (sub_put s' t) (fun t' => res_lift t' (k (sub_get t')))
  end.

Definition lift {S T A} `{Sub S T} (m : M S A) : M T A := fun t => res_lift t (m (sub_get t)).

#[global] Arguments lift : simpl never.
#[global] Arguments mbind' : simpl never.
#[global] Arguments mret' : simpl never.
#[global] Arguments get : simpl never.
#[global] Arguments gets : simpl never.
#[global] Arguments put : simpl never.
#[global] Arguments modify : simpl never.
#[global] Arguments panic : simpl never.
#[global] Arguments when : simpl never.

(** ** Postconditions

    [wp m s Q]: started in [s], [m] returns a value and a state that satisfy
    [Q]; in particular it does not panic, spin, run out of fuel or give up
    the processor. *)
Definition wp {S A} (m : M S A) (s : S) (Q : A -> S -> Prop) : Prop :=
  match m s with
  | Ok a s' => Q a s'
  | _ => False
  end.

Lemma wp_ok {S A} (m : M S A) s Q :
  wp m s Q <-> exists a s', m s = Ok a s' /\ Q a s'.
Proof. unfold wp. destruct (m s); naive_solver. Qed.

Lemma wp_bind {S A B} (m : M S A) (k : A -> M S B) s Q :
  wp m s (fun a s' => wp (k a) s' Q) -> wp (mbind' m k) s Q.
Proof. unfold wp, mbind'. by destruct (m s). Qed.

Lemma wp_mono {S A} (m : M S A) s (P Q : A -> S -> Prop) :
  wp m s P -> (forall a s', P a s' -> Q a s') -> wp m s Q.
Proof. unfold wp. destruct (m s); naive_solver. Qed.

Lemma wp_seq {S A B} (m : M S A) (k : A -> M S B) s P Q :
  wp m s P -> (forall a s', P a s' -> wp (k a) s' Q) -> wp (mbind' m k) s Q.
Proof. intros Hm Hk. apply wp_bind. eapply wp_mono; eauto. Qed.

Lemma wp_conj {S A} (m : M S A) s (P Q : A -> S -> Prop) :
  wp m s P -> wp m s Q -> wp m s (fun a s' => P a s' /\ Q a s').
Proof. unfold wp. destruct (m s); naive_solver. Qed.

Lemma wp_ret {S A} (a : A) (s : S) (Q : A -> S -> Prop) : Q a s -> wp (mret' a) s Q.
Proof. done. Qed.

Lemma wp_lift {S T A} `{Sub S T} (m : M S A) (t : T) Q :
  wp m (sub_get t) (fun a s' => Q a (sub_put s' t)) -> wp (lift m) t Q.
Proof. unfold wp, lift. by destruct (m (sub_get t)). Qed.

Lemma bind_ok {S A B} (m : M S A) (k : A -> M S B) s a s' :
  m s = Ok a s' -> mbind' m k s = k a s'.
Proof. unfold mbind'. by intros ->. Qed.

Lemma bind_ok_inv {S A B} (m : M S A) (k : A -> M S B) s b s'' :
  mbind' m k s = Ok b s'' -> exists a s', m s = Ok a s' /\ k a s' = Ok b s''.
Proof. unfold mbind'. destruct (m s); naive_solver. Qed.

Lemma lift_ok {S T A} `{Sub S T} (m : M S A) (t : T) a s' :
  m (sub_get t) = Ok a s' -> lift m t = Ok a (sub_put s' t).
Proof. unfold lift. by intros ->. Qed.

Lemma bind_lift {S T A B} `{Sub S T} (m : M S A) (k : A -> M T B) (t : T) a s' :
  m (sub_get t) = Ok a s' -> mbind' (lift m) k t = k a (sub_put s' t).
Proof. intros E. apply bind_ok, lift_ok, E. Qed.

(** A lifted routine that gives up the processor, and its continuation. *)
Lemma bind_lift_yield {S T A B} `{Sub S T} (m : M S A) (f : A -> M T B) (t : T) s1 k :
  m (sub_get t) = Yield s1 k ->
  mbind' (lift m) f t =
  Yield (sub_put s1 t) (fun t' => res_bind (res_lift t' (k (sub_get t'))) f).
Proof. unfold mbind', lift. by intros ->. Qed.

Lemma resume_lift {S T A B} `{Sub S T} (r : res S A) (f : A -> M T B) (t : T) a s' :
  r = Ok a s' -> res_bind (res_lift t r) f = f a (sub_put s' t).
Proof. by intros ->. Qed.

Lemma bind_ret {S A B} (a : A) (k : A -> M S B) s : mbind' (mret' a) k s = k a s.
Proof. done. Qed.
Lemma bind_get {S B} (k : S -> M S B) s : mbind' get k s = k s s.
Proof. done. Qed.
Lemma bind_gets {S A B} (f : S -> A) (k : A -> M S B) s : mbind' (gets f) k s = k (f s) s.
Proof. done. Qed.
Lemma bind_put {S B} (s' : S) (k : unit -> M S B) s : mbind' (put s') k s = k tt s'.
Proof. done. Qed.
Lemma bind_modify {S B} (f : S -> S) (k : unit -> M S B) s :
  mbind' (modify f) k s = k tt (f s).
Proof. done. Qed.
Lemma bind_panic {S A B} msg (k : A -> M S B) s : mbind' (panic msg) k s = Panic msg.
Proof. done. Qed.
Lemma bind_assoc {S A B C} (m : M S A) (k : A -> M S B) (k' : B -> M S C) s :
  mbind' (mbind' m k) k' s = mbind' m (fun a => mbind' (k a) k') s.
Proof.
  unfold mbind'. induction (m s) as [| | | |s' r IH]; cbn; [done..|]. f_equal.
  apply functional_extensionality. intros s0. apply IH.
Qed.
Lemma when_true {S} (m : M S unit) : when true m = m.
Proof. done. Qed.
Lemma when_false {S} (m : M S unit) : when false m = mret' tt.
Proof. done. Qed.

Create Rewrite HintDb mdb.
#[export] Hint Rewrite @bind_ret @bind_get @bind_gets @bind_put @bind_modify @bind_panic
  @bind_assoc @when_true @when_false : mdb.

(** One more step of a routine on a known state. *)
Ltac msimpl := repeat (progress (autorewrite with mdb; cbn)).

#[global] Instance wp_proper {S A} :
  Proper (pointwise_relation S eq ==> eq ==>
          pointwise_relation A (pointwise_relation S iff) ==> iff) (@wp S A).
Proof.
  intros m m' Hm s s' <- P Q HPQ. unfold wp. rewrite (Hm s).
  destruct (m' s); [apply HPQ|done..].
Qed.

(** ** Tactics *)

(** Splits the test of a boolean [if] of the goal and turns it into a
    proposition about the compared integers. *)
Ltac ztest b :=
  match b with
  | (?x =? ?y) => destruct (Z.eqb_spec x y)
  | (?x <? ?y) => destruct (Z.ltb_spec x y)
  | (?x <=? ?y) => destruct (Z.leb_spec x y)
  | negb ?c => ztest c
  | ?c && _ => ztest c
  | ?c || _ => ztest c
  | bool_decide ?P => destruct (bool_decide_reflect P)
  | _ => let E := fresh "E" in destruct b eqn:E
  end.
Ltac case_ztest :=
  match goal with
  | |- context [if ?b then _ else _] => ztest b
  end; cbn [negb andb orb].

(** Unfolds the operations of the monad. *)
Ltac mred :=
  unfold mbind', mret', gets, get, put, modify, when, panic, spin, out_of_fuel; cbn.

(** ** Lists *)

Lemma elem_of_rev {A} (l : list A) x : x ∈ rev l <-> x ∈ l.
Proof. by rewrite !list_elem_of_In, <- in_rev. Qed.

(** ** Integer lemmas *)

Create HintDb zdb.
Create Rewrite HintDb zdb.

Lemma u8_small x : 0 <= x < 2 ^ 8 -> u8 x = x.
Proof. apply Z.mod_small. Qed.
Lemma u16_small x : 0 <= x < 2 ^ 16 -> u16 x = x.
Proof. apply Z.mod_small. Qed.
Lemma u32_small x : 0 <= x < 2 ^ 32 -> u32 x = x.
Proof. apply Z.mod_small. Qed.
Lemma u64_small x : 0 <= x < 2 ^ 64 -> u64 x = x.
Proof. apply Z.mod_small. Qed.
Lemma s16_small x : - 2 ^ 15 <= x < 2 ^ 15 -> s16 x = x.
Proof. intros. unfold s16. rewrite Z.mod_small; lia. Qed.
Lemma s32_small x : - 2 ^ 31 <= x < 2 ^ 31 -> s32 x = x.
Proof. intros. unfold s32. rewrite Z.mod_small; lia. Qed.

Lemma u8_range x : 0 <= u8 x < 2 ^ 8.
Proof. apply Z.mod_pos_bound. lia. Qed.
Lemma u16_range x : 0 <= u16 x < 2 ^ 16.
Proof. apply Z.mod_pos_bound. lia. Qed.
Lemma u32_range x : 0 <= u32 x < 2 ^ 32.
Proof. apply Z.mod_pos_bound. lia. Qed.
Lemma u64_range x : 0 <= u64 x < 2 ^ 64.
Proof. apply Z.mod_pos_bound. lia. Qed.
Lemma s32_range x : - 2 ^ 31 <= s32 x < 2 ^ 31.
Proof. unfold s32. pose proof (Z.mod_pos_bound (x + 2 ^ 31) (2 ^ 32)). lia. Qed.

#[export] Hint Resolve u8_range u16_range u32_range u64_range s32_range : zdb.
#[export] Hint Rewrite u8_small u16_small u32_small u64_small s16_small s32_small
  using lia : zdb.

Lemma testbit_small x k n : 0 <= x < 2 ^ k -> 0 <= k <= n -> Z.testbit x n = false.
Proof.
  intros Hx Hn. destruct (Z.eq_dec x 0) as [->|Hx0]; [apply Z.bits_0|].
  apply Z.bits_above_log2; [lia|]. apply Z.log2_lt_pow2; [lia|].
  eapply Z.lt_le_trans; [apply Hx|]. apply Z.pow_le_mono_r; lia.
Qed.

Lemma land_lnot_ones x k : 0 <= k -> Z.land x (Z.lnot (2 ^ k - 1)) = x - x mod 2 ^ k.
Proof.
  intros Hk. replace (2 ^ k - 1) with (Z.ones k)
    by (rewrite Z.ones_equiv; lia).
  rewrite <- Z.ldiff_land, Z.ldiff_ones_r, Z.shiftl_mul_pow2, Z.shiftr_div_pow2 by done.
  pose proof (Z.div_mod x (2 ^ k)). lia.
Qed.

(** Linear arithmetic with division and remainder by constants. *)
Ltac divlia := Z.div_mod_to_equations; lia.

Lemma lor_range x y k :
  0 <= k -> 0 <= x < 2 ^ k -> 0 <= y < 2 ^ k -> 0 <= Z.lor x y < 2 ^ k.
Proof.
  intros Hk Hx Hy. split; [apply Z.lor_nonneg; lia|].
  rewrite <- (Z.mod_small x (2 ^ k)), <- (Z.mod_small y (2 ^ k)) by done.
  rewrite <- !Z.land_ones, <- Z.land_lor_distr_l, Z.land_ones by done.
  apply Z.mod_pos_bound. lia.
Qed.

Lemma lor_add x y k : 0 <= k -> x mod 2 ^ k = 0 -> 0 <= y < 2 ^ k -> Z.lor x y = x + y.
Proof.
  intros Hk Hx Hy. symmetry. rewrite <- Z.lxor_lor.
  - apply Z.add_nocarry_lxor. apply Z.bits_inj'. intros n Hn.
    rewrite Z.land_spec, Z.bits_0. destruct (Z.lt_ge_cases n k).
    + rewrite <- (Z.mod_pow2_bits_low x k n), Hx, Z.bits_0 by lia. done.
    + rewrite (testbit_small y k n) by lia. apply andb_false_r.
  - apply Z.bits_inj'. intros n Hn.
    rewrite Z.land_spec, Z.bits_0. destruct (Z.lt_ge_cases n k).
    + rewrite <- (Z.mod_pow2_bits_low x k n), Hx, Z.bits_0 by lia. done.
    + rewrite (testbit_small y k n) by lia. apply andb_false_r.
Qed.
