(* ===== verification/CString.v ===== *)
(** * Byte memory and the string routines of the kernel

    The physical memory as a map from addresses to bytes, little-endian
    loads and stores of wider integers, and the routines of
    [src/xv6-os/kernel/string.c] as functions on it. *)
From S2P Require Import Prelude.

(** ** Byte memory

    An address that was never written holds 0, as the memory of a program
    image does. [char] is unsigned on RISC-V. *)
Notation mem := (gmap Z Z).

Definition rd (m : mem) (a : Z) : Z := u8 (default 0 (m !! a)).
Definition wr (m : mem) (a v : Z) : mem := <[a := u8 v]> m.

Fixpoint ldn (m : mem) (a : Z) (n : nat) : Z :=
  match n with
  | O => 0
  | S n => rd m a + 256 * ldn m (a + 1) n
  end.

Fixpoint stn (m : mem) (a : Z) (n : nat) (v : Z) : mem :=
  match n with
  | O => m
  | S n => stn (wr m a v) (a + 1) n (v / 256)
  end.

Definition ld64 (m : mem) (a : Z) : Z := ldn m a 8.
Definition st64 (m : mem) (a v : Z) : mem := stn m a 8 v.

(** [bytes m a n]: the [n] bytes from [a] on. *)
Definition bytes (m : mem) (a : Z) (n : nat) : list Z :=
  (fun i => rd m (a + Z.of_nat i)) <$> seq 0 n.

(** ** string.c *)

Fixpoint memset_loop (k : nat) (m : mem) (cdst c i : Z) : mem :=
  match k with
  | O => m
  | S k => memset_loop k (wr m (cdst + i) c) cdst c (i + 1)
  end.

(** [memset] returns [dst], which no caller uses. *)
Definition memset (m : mem) (dst c n : Z) : mem :=
  memset_loop (Z.to_nat n) m dst c 0.

Fixpoint memcmp_loop (n : nat) (m : mem) (s1 s2 : Z) : Z :=
  match n with
  | O => 0
  | S n => if negb (rd m s1 =? rd m s2) then rd m s1 - rd m s2
           else memcmp_loop n m (s1 + 1) (s2 + 1)
  end.

Definition memcmp (m : mem) (v1 v2 n : Z) : Z := memcmp_loop (Z.to_nat n) m v1 v2.

(** The backward and the forward copy loop of [memmove]. *)
Fixpoint move_down (n : nat) (m : mem) (d s : Z) : mem :=
  match n with
  | O => m
  | S n => move_down n (wr m (d - 1) (rd m (s - 1))) (d - 1) (s - 1)
  end.

Fixpoint move_up (n : nat) (m : mem) (d s : Z) : mem :=
  match n with
  | O => m
  | S n => move_up n (wr m d (rd m s)) (d + 1) (s + 1)
  end.

Definition memmove (m : mem) (dst src n : Z) : mem :=
  if n =? 0 then m
  else if (src <? dst) && (dst <? src + n)
  then move_down (Z.to_nat n) m (dst + n) (src + n)
  else move_up (Z.to_nat n) m dst src.

Definition memcpy (m : mem) (dst src n : Z) : mem := memmove m dst src n.

Fixpoint strncmp_loop (n : nat) (m : mem) (p q : Z) : Z :=
  match n with
  | O => 0
  | S n => if negb (rd m p =? 0) && (rd m p =? rd m q)
           then strncmp_loop n m (p + 1) (q + 1)
           else rd m p - rd m q
  end.

Definition strncmp (m : mem) (p q n : Z) : Z := strncmp_loop (Z.to_nat n) m p q.

(** The padding and the copying loop of [strncpy]. *)
Fixpoint strncpy_pad (n : nat) (m : mem) (s : Z) : mem :=
  match n with
  | O => m
  | S n => strncpy_pad n (wr m s 0) (s + 1)
  end.

Fixpoint strncpy_loop (n : nat) (m : mem) (s t : Z) : mem :=
  match n with
  | O => m
  | S n => let c := rd m t in
           let m := wr m s c in
           if negb (c =? 0) then strncpy_loop n m (s + 1) (t + 1)
           else strncpy_pad n m (s + 1)
  end.

Definition strncpy (m : mem) (s t n : Z) : mem := strncpy_loop (Z.to_nat n) m s t.

Fixpoint safestrcpy_loop (n : nat) (m : mem) (s t : Z) : mem :=
  match n with
  | O => wr m s 0
  | S n => let c := rd m t in
           let m := wr m s c in
           if negb (c =? 0) then safestrcpy_loop n m (s + 1) (t + 1)
           else wr m (s + 1) 0
  end.

Definition safestrcpy (m : mem) (s t n : Z) : mem :=
  if n <=? 0 then m else safestrcpy_loop (Z.to_nat (n - 1)) m s t.

(** [strlen] looks for the NUL without a bound; the model looks at [fuel]
    bytes and gives up with [None]. *)
Fixpoint strlen_loop (fuel : nat) (m : mem) (s n : Z) : option Z :=
  match fuel with
  | O => None
  | S fuel => if negb (rd m (s + n) =? 0) then strlen_loop fuel m s (n + 1)
              else Some n
  end.

Definition strlen (fuel : nat) (m : mem) (s : Z) : option Z := strlen_loop fuel m s 0.

#[global] Arguments rd : simpl never.
#[global] Arguments wr : simpl never.
#[global] Arguments ld64 : simpl never.
#[global] Arguments st64 : simpl never.
#[global] Arguments memset : simpl never.
#[global] Arguments memmove : simpl never.

(** ** Laws of the memory *)

Lemma rd_range m a : 0 <= rd m a < 256.
Proof. apply u8_range. Qed.

Lemma rd_wr m a v b : rd (wr m a v) b = if decide (a = b) then u8 v else rd m b.
Proof.
  unfold rd, wr. rewrite lookup_insert. case_decide; [|done]. cbn.
  apply u8_small. apply u8_range.
Qed.

Lemma rd_wr_eq m a v : rd (wr m a v) a = u8 v.
Proof. rewrite rd_wr. by rewrite decide_True. Qed.

Lemma rd_wr_ne m a v b : a <> b -> rd (wr m a v) b = rd m b.
Proof. intros. rewrite rd_wr. by rewrite decide_False. Qed.

Lemma u8_rd m a : u8 (rd m a) = rd m a.
Proof. apply u8_small, rd_range. Qed.

#[export] Hint Resolve rd_range : zdb.

Lemma ldn_range m a n : 0 <= ldn m a n < 2 ^ (8 * Z.of_nat n).
Proof.
  revert a. induction n as [|n IH]; intros a; cbn [ldn]; [lia|].
  specialize (IH (a + 1)). pose proof (rd_range m a).
  replace (8 * Z.of_nat (S n)) with (8 + 8 * Z.of_nat n) by lia.
  rewrite Z.pow_add_r by lia. lia.
Qed.

Lemma ldn_ext m m' a a' n :
  (forall i, 0 <= i < Z.of_nat n -> rd m (a + i) = rd m' (a' + i)) ->
  ldn m a n = ldn m' a' n.
Proof.
  revert a a'. induction n as [|n IH]; intros a a' H; cbn [ldn]; [done|].
  f_equal.
  - specialize (H 0). rewrite !Z.add_0_r in H. apply H. lia.
  - f_equal. apply IH. intros i Hi. specialize (H (1 + i)).
    rewrite !Z.add_assoc in H. apply H. lia.
Qed.

Lemma rd_stn m a n v b :
  rd (stn m a n v) b =
  if decide (a <= b < a + Z.of_nat n) then u8 (v / 256 ^ (b - a)) else rd m b.
Proof.
  revert m a v. induction n as [|n IH]; intros m a v; cbn [stn].
  { rewrite decide_False by lia. done. }
  rewrite IH. destruct (decide (b = a)) as [->|Hne].
  - rewrite decide_False, decide_True by lia.
    rewrite rd_wr_eq, Z.sub_diag, Z.pow_0_r, Z.div_1_r. done.
  - destruct (decide (a + 1 <= b < a + 1 + Z.of_nat n)).
    + rewrite decide_True by lia. f_equal.
      rewrite Z.div_div by lia. f_equal.
      replace (b - a) with (1 + (b - (a + 1))) by lia.
      rewrite Z.pow_add_r by lia. done.
    + rewrite decide_False by lia. by rewrite rd_wr_ne.
Qed.

Lemma rd_stn_out m a n v b :
  b < a \/ a + Z.of_nat n <= b -> rd (stn m a n v) b = rd m b.
Proof. intros. rewrite rd_stn, decide_False by lia. done. Qed.

Lemma ldn_stn_out m a n v b k :
  b + Z.of_nat k <= a \/ a + Z.of_nat n <= b -> ldn (stn m a n v) b k = ldn m b k.
Proof. intros. apply ldn_ext. intros. apply rd_stn_out. lia. Qed.

Lemma ldn_wr_out m a v b k :
  b + Z.of_nat k <= a \/ a < b -> ldn (wr m a v) b k = ldn m b k.
Proof. intros. apply ldn_ext. intros. apply rd_wr_ne. lia. Qed.

Lemma ldn_stn m a n v : ldn (stn m a n v) a n = v mod 2 ^ (8 * Z.of_nat n).
Proof.
  revert m a v. induction n as [|n IH]; intros m a v; cbn [ldn stn].
  { by rewrite Z.mod_1_r. }
  rewrite IH, rd_stn_out, rd_wr_eq by lia.
  replace (8 * Z.of_nat (S n)) with (8 + 8 * Z.of_nat n) by lia.
  rewrite Z.pow_add_r by lia. change (2 ^ 8) with 256.
  rewrite Z.rem_mul_r by lia. done.
Qed.

Lemma ld64_range m a : 0 <= ld64 m a < 2 ^ 64.
Proof. apply (ldn_range m a 8). Qed.

Lemma ld64_st64_eq m a v : ld64 (st64 m a v) a = u64 v.
Proof. apply (ldn_stn m a 8). Qed.

Lemma ld64_st64_ne m a v b : 8 <= Z.abs (a - b) -> ld64 (st64 m a v) b = ld64 m b.
Proof. intros. apply ldn_stn_out. lia. Qed.

Lemma rd_st64_ne m a v b : b < a \/ a + 8 <= b -> rd (st64 m a v) b = rd m b.
Proof. intros. apply rd_stn_out. lia. Qed.

Lemma ld64_ext m m' a :
  (forall i, 0 <= i < 8 -> rd m (a + i) = rd m' (a + i)) -> ld64 m a = ld64 m' a.
Proof. intros. by apply ldn_ext. Qed.

#[export] Hint Resolve ld64_range : zdb.

(** ** Correctness of the string routines *)

Lemma rd_memset_loop k m d c i b :
  rd (memset_loop k m d c i) b =
  if decide (d + i <= b < d + i + Z.of_nat k) then u8 c else rd m b.
Proof.
  revert m i. induction k as [|k IH]; intros m i; cbn [memset_loop].
  { rewrite decide_False by lia. done. }
  rewrite IH, rd_wr. repeat case_decide; (done || lia).
Qed.

Lemma rd_memset m d c n b :
  rd (memset m d c n) b = if decide (d <= b < d + n) then u8 c else rd m b.
Proof.
  unfold memset. rewrite rd_memset_loop. repeat case_decide; (done || lia).
Qed.

Lemma rd_memset_out m d c n b : b < d \/ d + n <= b -> rd (memset m d c n) b = rd m b.
Proof. intros. rewrite rd_memset, decide_False by lia. done. Qed.

Lemma ld64_memset_out m d c n b :
  b + 8 <= d \/ d + n <= b -> ld64 (memset m d c n) b = ld64 m b.
Proof. intros. apply ld64_ext. intros. apply rd_memset_out. lia. Qed.

Lemma ld64_memset_zero m d n b :
  d <= b -> b + 8 <= d + n -> ld64 (memset m d 0 n) b = 0.
Proof.
  intros. unfold ld64. cbn [ldn]. rewrite !rd_memset, !decide_True by lia.
  reflexivity.
Qed.

Lemma rd_move_down n m d s b :
  s <= d ->
  rd (move_down n m d s) b =
  if decide (d - Z.of_nat n <= b < d) then rd m (b - d + s) else rd m b.
Proof.
  revert m d s. induction n as [|n IH]; intros m d s Hsd; cbn [move_down].
  { rewrite decide_False by lia. done. }
  rewrite IH by lia. destruct (decide (b = d - 1)) as [->|Hb].
  - rewrite decide_False, decide_True, rd_wr_eq, u8_rd by lia. f_equal. lia.
  - destruct (decide (d - 1 - Z.of_nat n <= b < d - 1)).
    + rewrite decide_True, rd_wr_ne by lia. f_equal. lia.
    + rewrite decide_False, rd_wr_ne by lia. done.
Qed.

Lemma rd_move_up n m d s b :
  d <= s \/ s + Z.of_nat n <= d ->
  rd (move_up n m d s) b =
  if decide (d <= b < d + Z.of_nat n) then rd m (b - d + s) else rd m b.
Proof.
  revert m d s. induction n as [|n IH]; intros m d s Hsd; cbn [move_up].
  { rewrite decide_False by lia. done. }
  rewrite IH by lia. destruct (decide (b = d)) as [->|Hb].
  - rewrite decide_False, decide_True, rd_wr_eq, u8_rd by lia. f_equal. lia.
  - destruct (decide (d + 1 <= b < d + 1 + Z.of_nat n)).
    + rewrite decide_True, rd_wr_ne by lia. f_equal. lia.
    + rewrite decide_False, rd_wr_ne by lia. done.
Qed.

Lemma rd_memmove m dst src n b :
  0 <= n ->
  rd (memmove m dst src n) b =
  if decide (dst <= b < dst + n) then rd m (src + (b - dst)) else rd m b.
Proof.
  intros Hn. unfold memmove. case_ztest.
  { rewrite decide_False by lia. done. }
  destruct (Z.ltb_spec src dst), (Z.ltb_spec dst (src + n)); cbn [andb].
  all: rewrite ?rd_move_down, ?rd_move_up by lia.
  all: repeat case_decide; (lia || done || (f_equal; lia)).
Qed.

(** [cstr m a l]: at [a] there is the NUL-terminated string [l]. *)
Fixpoint cstr (m : mem) (a : Z) (l : list Z) : Prop :=
  match l with
  | [] => rd m a = 0
  | c :: l => rd m a = c /\ c <> 0 /\ cstr m (a + 1) l
  end.

Lemma cstr_ext m m' a l :
  (forall i, 0 <= i <= Z.of_nat (length l) -> rd m' (a + i) = rd m (a + i)) ->
  cstr m a l -> cstr m' a l.
Proof.
  revert a. induction l as [|c l IH]; intros a H; cbn [cstr length] in *.
  - specialize (H 0). rewrite Z.add_0_r in H. rewrite H by lia. done.
  - intros (Hc & Hc0 & Hl). split_and!; [|done|].
    + specialize (H 0). rewrite Z.add_0_r in H. rewrite H by lia. done.
    + apply IH; [|done]. intros i Hi. specialize (H (1 + i)).
      rewrite !Z.add_assoc in H. apply H. lia.
Qed.

(** Two memories that differ only in [[s, s + n)]. *)
Definition same_outside (m m' : mem) (s n : Z) : Prop :=
  forall b, b < s \/ s + n <= b -> rd m' b = rd m b.

Lemma strncmp_loop_spec n m p q lp lq :
  cstr m p lp -> cstr m q lq ->
  strncmp_loop n m p q = 0 <-> take n lp = take n lq.
Proof.
  revert p q lp lq. induction n as [|n IH]; intros p q lp lq Hp Hq; [done|].
  cbn [strncmp_loop]. destruct lp as [|c lp], lq as [|d lq]; cbn [cstr] in *; cbn [take].
  - rewrite Hp, Hq. done.
  - destruct Hq as (Hd & Hd0 & _). rewrite Hp, Hd. cbn.
    split; [lia|discriminate].
  - destruct Hp as (Hc & Hc0 & _). rewrite Hc, Hq.
    destruct (Z.eqb_spec c 0); [done|]. cbn.
    split; [lia|discriminate].
  - destruct Hp as (Hc & Hc0 & Hp), Hq as (Hd & Hd0 & Hq). rewrite Hc, Hd.
    destruct (Z.eqb_spec c 0); [done|]. destruct (Z.eqb_spec c d) as [<-|]; cbn.
    + rewrite IH by done. split; [by intros ->|by intros [= ->]].
    + split; [lia|]. intros [= -> _]. done.
Qed.

Lemma strncpy_pad_spec n m s :
  (forall i, 0 <= i < Z.of_nat n -> rd (strncpy_pad n m s) (s + i) = 0) /\
  same_outside m (strncpy_pad n m s) s (Z.of_nat n).
Proof.
  revert m s. induction n as [|n IH]; intros m s; cbn [strncpy_pad].
  { split; [lia|]. by intros b _. }
  destruct (IH (wr m s 0) (s + 1)) as [H1 H2]. split.
  - intros i Hi. destruct (decide (i = 0)) as [->|].
    + rewrite H2, Z.add_0_r, rd_wr_eq by lia. done.
    + replace (s + i) with (s + 1 + (i - 1)) by lia. apply H1. lia.
  - intros b Hb. rewrite H2, rd_wr_ne by lia. done.
Qed.

(** What [strncpy] leaves in the destination: the first [n] characters of
    the source, padded with NULs. *)
Lemma strncpy_loop_spec n m s t l :
  cstr m t l -> s + Z.of_nat n <= t \/ t + Z.of_nat (length l) < s ->
  (forall i : nat, (i < n)%nat ->
     rd (strncpy_loop n m s t) (s + Z.of_nat i) = default 0 (l !! i)) /\
  same_outside m (strncpy_loop n m s t) s (Z.of_nat n).
Proof.
  revert m s t l. induction n as [|n IH]; intros m s t l Ht Hd; cbn [strncpy_loop].
  { split; [lia|]. by intros b _. }
  destruct l as [|c l]; cbn [cstr length] in *.
  - rewrite Ht. cbn. destruct (strncpy_pad_spec n (wr m s 0) (s + 1)) as [H1 H2]. split.
    + intros [|i] Hi.
      * rewrite H2, Z.add_0_r, rd_wr_eq by lia. done.
      * replace (s + Z.of_nat (S i)) with (s + 1 + Z.of_nat i) by lia.
        rewrite H1 by lia. done.
    + intros b Hb. rewrite H2, rd_wr_ne by lia. done.
  - destruct Ht as (Hc & Hc0 & Ht). rewrite Hc.
    destruct (Z.eqb_spec c 0); [done|]. cbn [negb].
    pose proof (rd_range m t).
    destruct (IH (wr m s c) (s + 1) (t + 1) l) as [H1 H2]; [|lia|].
    + eapply cstr_ext; [|done]. intros i Hi. apply rd_wr_ne. lia.
    + split.
      * intros [|i] Hi.
        -- rewrite H2, Z.add_0_r, rd_wr_eq by lia. cbn. apply u8_small. lia.
        -- replace (s + Z.of_nat (S i)) with (s + 1 + Z.of_nat i) by lia.
           apply H1. lia.
      * intros b Hb. rewrite H2, rd_wr_ne by lia. done.
Qed.

Lemma safestrcpy_loop_spec n m s t l :
  cstr m t l -> s + Z.of_nat n < t \/ t + Z.of_nat (length l) < s ->
  cstr (safestrcpy_loop n m s t) s (take n l) /\
  same_outside m (safestrcpy_loop n m s t) s (Z.of_nat n + 1).
Proof.
  revert m s t l. induction n as [|n IH]; intros m s t l Ht Hd; cbn [safestrcpy_loop].
  { split; [apply rd_wr_eq|]. intros b Hb. apply rd_wr_ne. lia. }
  destruct l as [|c l]; cbn [cstr length] in *.
  - rewrite Ht. cbn. split.
    + rewrite rd_wr_ne, rd_wr_eq by lia. done.
    + intros b Hb. rewrite !rd_wr_ne by lia. done.
  - destruct Ht as (Hc & Hc0 & Ht). rewrite Hc.
    destruct (Z.eqb_spec c 0); [done|]. cbn [negb take cstr].
    pose proof (rd_range m t).
    destruct (IH (wr m s c) (s + 1) (t + 1) l) as [H1 H2]; [|lia|].
    + eapply cstr_ext; [|done]. intros i Hi. apply rd_wr_ne. lia.
    + split_and!; [|done|done|].
      * rewrite H2, rd_wr_eq by lia. apply u8_small. lia.
      * intros b Hb. rewrite H2, rd_wr_ne by lia. done.
Qed.

Lemma strlen_loop_spec fuel m s n l :
  cstr m (s + n) l -> (length l < fuel)%nat ->
  strlen_loop fuel m s n = Some (n + Z.of_nat (length l)).
Proof.
  revert n l. induction fuel as [|fuel IH]; intros n l Hl Hf; [lia|].
  cbn [strlen_loop]. destruct l as [|c l]; cbn [cstr length] in *.
  - rewrite Hl. cbn. f_equal. lia.
  - destruct Hl as (Hc & Hc0 & Hl). rewrite Hc.
    destruct (Z.eqb_spec c 0); [done|]. cbn [negb].
    rewrite (IH (n + 1) l); [f_equal; lia| |lia]. by rewrite Z.add_assoc.
Qed.

Lemma memcmp_loop_spec n m s1 s2 :
  memcmp_loop n m s1 s2 = 0 <-> bytes m s1 n = bytes m s2 n.
Proof.
  unfold bytes. revert s1 s2. induction n as [|n IH]; intros s1 s2; [done|].
  cbn [memcmp_loop seq fmap list_fmap].
  rewrite <- !fmap_S_seq, <- !list_fmap_compose, !Z.add_0_r.
  destruct (Z.eqb_spec (rd m s1) (rd m s2)) as [E|E]; cbn [negb].
  - rewrite IH, E. split; intros H.
    + f_equal. etransitivity; [|etransitivity; [apply H|]];
        apply list_fmap_ext; intros; cbn; f_equal; lia.
    + injection H as H. etransitivity; [|etransitivity; [apply H|]];
        apply list_fmap_ext; intros; cbn; f_equal; lia.
  - split; [lia|]. intros [= ? _]. done.
Qed.

(** A string equals, for [strncmp], the padded copy of it. *)
Lemma strncmp_loop_padded k m s t l :
  cstr m t l ->
  (forall i : nat, (i < k)%nat -> rd m (s + Z.of_nat i) = default 0 (l !! i)) ->
  strncmp_loop k m s t = 0.
Proof.
  revert s t l. induction k as [|k IH]; intros s t l Ht H1; [done|].
  cbn [strncmp_loop]. pose proof (H1 0%nat ltac:(lia)) as H0.
  rewrite Z.add_0_r in H0. destruct l as [|c l]; cbn in H0, Ht.
  - by rewrite H0, Ht.
  - destruct Ht as (Hc & Hc0 & Ht). rewrite H0, Hc, Z.eqb_refl.
    destruct (Z.eqb_spec c 0); [done|]. cbn. apply (IH _ _ l); [done|].
    intros i Hi. rewrite <- Z.add_assoc.
    replace (1 + Z.of_nat i) with (Z.of_nat (S i)) by lia. apply (H1 (S i)). lia.
Qed.

(** [put_bytes m a l]: the memory [m] with the bytes [l] from [a] on. *)
Fixpoint put_bytes (m : mem) (a : Z) (l : list Z) : mem :=
  match l with
  | [] => m
  | c :: l => put_bytes (wr m a c) (a + 1) l
  end.

Lemma rd_put_bytes m a l b :
  rd (put_bytes m a l) b =
  if decide (a <= b < a + Z.of_nat (length l))
  then u8 (default 0 (l !! Z.to_nat (b - a))) else rd m b.
Proof.
  revert m a. induction l as [|c l IH]; intros m a; cbn [put_bytes length].
  { rewrite decide_False by lia. done. }
  rewrite IH. destruct (decide (b = a)) as [->|].
  - rewrite decide_False, decide_True, rd_wr_eq, Z.sub_diag by lia. done.
  - destruct (decide (a + 1 <= b < a + 1 + Z.of_nat (length l))).
    + rewrite decide_True by lia.
      replace (Z.to_nat (b - a)) with (S (Z.to_nat (b - (a + 1)))) by lia. done.
    + rewrite decide_False, rd_wr_ne by lia. done.
Qed.

(** ** Properties *)

(** [memmove] copies correctly whatever the overlap of source and
    destination: every byte of the destination range is the byte the source
    had before the call, and no other byte changes. *)
Theorem memmove_correct (m : mem) (dst src n b : Z) (Hn : 0 <= n) :
  rd (memmove m dst src n) b =
  if decide (dst <= b < dst + n) then rd m (src + (b - dst)) else rd m b.
Proof. by apply rd_memmove. Qed.

(** [safestrcpy] with a positive size always leaves a NUL-terminated
    string, the longest prefix of the source that fits, and writes nothing
    outside the [n] bytes of the destination. *)
Theorem safestrcpy_correct (m : mem) (s t n : Z) (l : list Z)
  (Hn : 0 < n) (Hsrc : cstr m t l)
  (Hdisj : s + n <= t \/ t + Z.of_nat (length l) < s) :
  cstr (safestrcpy m s t n) s (take (Z.to_nat (n - 1)) l) /\
  same_outside m (safestrcpy m s t n) s n.
Proof.
  unfold safestrcpy. destruct (Z.leb_spec n 0); [lia|].
  replace n with (Z.of_nat (Z.to_nat (n - 1)) + 1) at 4 by lia.
  apply safestrcpy_loop_spec; [done|lia].
Qed.

(** [strncpy] fills exactly the [n] bytes of the destination with the
    characters of the source and then NULs, and comparing the copy with the
    source by [strncmp] over the same length gives 0. *)
Theorem strncpy_strncmp_roundtrip (m : mem) (s t n : Z) (l : list Z)
  (Hn : 0 <= n) (Hsrc : cstr m t l)
  (Hdisj : s + n <= t \/ t + Z.of_nat (length l) < s) :
  (forall i : nat, Z.of_nat i < n ->
     rd (strncpy m s t n) (s + Z.of_nat i) = default 0 (l !! i)) /\
  same_outside m (strncpy m s t n) s n /\
  strncmp (strncpy m s t n) s t n = 0.
Proof.
  unfold strncpy, strncmp.
  destruct (strncpy_loop_spec (Z.to_nat n) m s t l) as [H1 H2]; [done|lia|].
  rewrite Z2Nat.id in H2 by done.
  split_and!; [intros i Hi; apply H1; lia|done|].
  apply (strncmp_loop_padded _ _ _ _ l); [|done].
  eapply cstr_ext; [|done]. intros i Hi. apply H2. lia.
Qed.

Lemma memmove_correct_witness :
  rd (memmove (put_bytes ∅ 100 [1; 2; 3; 4]) 101 100 3) 103 = 3.
Proof. rewrite (memmove_correct _ 101 100 3 103); [reflexivity|lia]. Defined.

Lemma safestrcpy_correct_witness :
  cstr (safestrcpy (put_bytes ∅ 100 [105; 110; 105; 116]) 200 100 4) 200 [105; 110; 105].
Proof.
  apply (safestrcpy_correct (put_bytes ∅ 100 [105; 110; 105; 116]) 200 100 4
           [105; 110; 105; 116]); [lia| |cbn; lia].
  vm_compute. split_and!; try done.
Defined.

Lemma strncpy_strncmp_roundtrip_witness :
  strncmp (strncpy (put_bytes ∅ 100 [115; 104]) 200 100 14) 200 100 14 = 0.
Proof.
  apply (strncpy_strncmp_roundtrip (put_bytes ∅ 100 [115; 104]) 200 100 14 [115; 104]);
    [lia| |cbn; lia].
  vm_compute. split_and!; done.
Defined.

(** From here on the memory is used through its laws. *)
Lemma ld64_empty a : ld64 ∅ a = 0.
Proof. reflexivity. Qed.

#[global] Opaque rd wr ld64 st64 memset memmove.
