(* ===== verification/Keeps.v ===== *)
(** * Invariants of routines that give up the processor

    [keeps P R m]: started in a state of [P], the routine [m] returns, if it
    does, in a state of [P] with a value of [R], and it also leaves the state
    in [P] whenever it gives up the processor, provided that the other
    processes do. *)
From S2P Require Import Prelude.

Fixpoint res_keeps {S A} (P : S -> Prop) (R : A -> Prop) (r : res S A) : Prop :=
  match r with
  | Ok a s => P s /\ R a
  | Yield s k => P s /\ forall s', P s' -> res_keeps P R (k s')
  | _ => True
  end.

Definition keeps {S A} (P : S -> Prop) (R : A -> Prop) (m : M S A) : Prop :=
  forall s, P s -> res_keeps P R (m s).

Definition any {A} : A -> Prop := fun _ => True.

Section Rules.
Context {S A B : Type} (P : S -> Prop).

Lemma keeps_bind (R : A -> Prop) (Q : B -> Prop) (m : M S A) (k : A -> M S B) :
  keeps P R m -> (forall a, R a -> keeps P Q (k a)) -> keeps P Q (mbind' m k).
Proof.
  intros Hm Hk s Hs. unfold mbind'. specialize (Hm s Hs). revert Hm.
  induction (m s) as [a s'|msg| | |s' r IH]; cbn; try done.
  - intros [H1 H2]. by apply Hk.
  - intros [H1 H2]. split; [done|]. auto.
Qed.

Lemma keeps_weaken (R Q : A -> Prop) (m : M S A) : keeps P R m -> (forall a, R a -> Q a) -> keeps P Q m.
Proof.
  intros Hm HQ s Hs. specialize (Hm s Hs). revert Hm.
  induction (m s) as [a s'|msg| | |s' r IH]; cbn; try done.
  - intros [H1 H2]. auto.
  - intros [H1 H2]. split; [done|]. auto.
Qed.

Lemma keeps_any (R : A -> Prop) (m : M S A) : keeps P R m -> keeps P any m.
Proof. intros H. by apply (keeps_weaken R). Qed.

Lemma keeps_ret (R : A -> Prop) a : R a -> keeps P R (mret' a).
Proof. by intros H s Hs. Qed.
Lemma keeps_panic (R : A -> Prop) msg : keeps P R (panic msg).
Proof. done. Qed.
Lemma keeps_fuel (R : A -> Prop) : keeps P R out_of_fuel.
Proof. done. Qed.
Lemma keeps_gets (R : A -> Prop) f : (forall s, P s -> R (f s)) -> keeps P R (gets f).
Proof. intros H s Hs. split; [done|]. by apply H. Qed.
Lemma keeps_gets_any (f : S -> A) : keeps P any (gets f).
Proof. by apply keeps_gets. Qed.
Lemma keeps_modify f : (forall s, P s -> P (f s)) -> keeps P any (modify f).
Proof. intros H s Hs. split; [|done]. by apply H. Qed.
End Rules.

(** A routine on a part of the state. *)
Lemma keeps_lift {S T A} `{Sub S T} (P : T -> Prop) (Q : S -> Prop) (R : A -> Prop) (m : M S A) :
  (forall t, P t -> Q (sub_get t)) -> (forall t s, P t -> Q s -> P (sub_put s t)) ->
  keeps Q R m -> keeps P R (lift m).
Proof.
  intros Hget Hput Hm t Ht. unfold lift. specialize (Hm (sub_get t) (Hget t Ht)).
  revert Hm. generalize (m (sub_get t)) as r0. intros r0. revert t Ht.
  induction r0 as [a s'|msg| | |s' r IH]; intros t Ht; cbn; try done.
  - intros [H1 H2]. split; [|done]. by apply Hput.
  - intros [H1 H2]. split; [by apply Hput|]. intros t1 Ht1. apply IH; [done|]. apply H2. by apply Hget.
Qed.

(** Every routine keeps nothing. *)
Lemma keeps_trivial {S A} (m : M S A) : keeps any any m.
Proof. intros s _. induction (m s) as [a s'|msg| | |s' r IH]; cbn; unfold any; auto. Qed.

Lemma keeps_lift_any {S T A} `{Sub S T} (P : T -> Prop) (R : A -> Prop) (m : M S A) :
  (forall t s, P t -> P (sub_put s t)) -> keeps any R m -> keeps P R (lift m).
Proof. intros Hput. apply keeps_lift; [done|auto]. Qed.

Create HintDb keeps.
#[export] Hint Resolve keeps_panic keeps_fuel keeps_trivial : keeps.
#[export] Hint Resolve keeps_gets_any | 10 : keeps.

(** Goes through a routine, up to the calls that the database [keeps] does
    not know and the claims on values. *)
Ltac keeps_step :=
  match goal with
  | |- keeps ?P _ (mbind' (if _ then _ else _) _) => apply (keeps_bind P any); [|intros ? ?]
  | |- keeps _ _ (mbind' _ _) => eapply keeps_bind; [|intros ? ?]
  | |- keeps _ _ (mret' _) => apply keeps_ret
  | |- keeps _ _ (if ?b then _ else _) => let E := fresh "E" in destruct b eqn:E
  | |- keeps _ _ (match ?x with _ => _ end) => let E := fresh "E" in destruct x eqn:E
  | |- keeps _ _ _ => solve [eauto with keeps nocore | eapply keeps_any; eauto with keeps nocore]
  end.
Ltac keeps_run := repeat keeps_step; try exact I.

(** * Rely and guarantee for routines that give up the processor

    [runs R G Pm P m Q]: a stretch of the routine [m] that started in [s0] and
    is now in a state of [P s0] ends in one of three ways. It returns in a
    state of [Q s0]; it panics with a message of [Pm]; or it gives up the
    processor in a state that [G] relates to [s0], and goes on in the same way
    from any state that [R] allows the other processes to reach. [Keeps.v] is
    the case of one invariant without a start of the stretch.

    [says Pm Y m]: all messages of [m] are in [Pm], and it gives up the
    processor only if [Y]. *)

Fixpoint res_runs {S A} (R G : S -> S -> Prop) (Pm : string -> Prop) (Q : S -> A -> S -> Prop)
    (s0 : S) (r : res S A) : Prop :=
  match r with
  | Ok a s => Q s0 a s
  | Panic msg => Pm msg
  | Yield s k => G s0 s /\ forall s', R s s' -> res_runs R G Pm Q s' (k s')
  | Spin | OutOfFuel => True
  end.

Definition runs {S A} (R G : S -> S -> Prop) (Pm : string -> Prop) (P : S -> S -> Prop)
    (m : M S A) (Q : S -> A -> S -> Prop) : Prop :=
  forall s0 s, P s0 s -> res_runs R G Pm Q s0 (m s).

Fixpoint res_says {S A} (Pm : string -> Prop) (Y : Prop) (r : res S A) : Prop :=
  match r with
  | Panic msg => Pm msg
  | Yield s k => Y /\ forall s', res_says Pm Y (k s')
  | _ => True
  end.

Definition says {S A} (Pm : string -> Prop) (Y : Prop) (m : M S A) : Prop := forall s, res_says Pm Y (m s).

(** ** Rules *)

Section Runs.
Context {S : Type} (R G : S -> S -> Prop) (Pm : string -> Prop).

Lemma runs_bind {A B} P (Q : S -> A -> S -> Prop) (Q' : S -> B -> S -> Prop) m k :
  runs R G Pm P m Q -> (forall a, runs R G Pm (fun s0 => Q s0 a) (k a) Q') -> runs R G Pm P (mbind' m k) Q'.
Proof.
  intros Hm Hk s0 s Hs. unfold mbind'. specialize (Hm s0 s Hs). clear Hs. revert s0 Hm.
  induction (m s) as [a s'|msg| | |s' r IH]; cbn; intros s0; try done.
  - apply Hk.
  - intros [H1 H2]. split; [done|]. intros s1 H. by apply IH, H2.
Qed.

Lemma runs_post {A} P (Q Q' : S -> A -> S -> Prop) m :
  runs R G Pm P m Q -> (forall s0 a s, Q s0 a s -> Q' s0 a s) -> runs R G Pm P m Q'.
Proof.
  intros Hm HQ s0 s Hs. specialize (Hm s0 s Hs). clear Hs. revert s0 Hm.
  induction (m s) as [a s'|msg| | |s' r IH]; cbn; intros s0; try done; [apply HQ|].
  intros [H1 H2]. split; [done|]. intros s1 H. apply IH. by apply H2.
Qed.

Lemma runs_pre {A} (P P' : S -> S -> Prop) (Q : S -> A -> S -> Prop) m :
  (forall s0 s, P' s0 s -> P s0 s) -> runs R G Pm P m Q -> runs R G Pm P' m Q.
Proof. intros HP Hm s0 s Hs. by apply Hm, HP. Qed.

Lemma runs_ret {A} (P : S -> S -> Prop) (Q : S -> A -> S -> Prop) a :
  (forall s0 s, P s0 s -> Q s0 a s) -> runs R G Pm P (mret' a) Q.
Proof. intros H s0 s Hs. by apply H. Qed.

Lemma runs_gets {A} (P : S -> S -> Prop) (Q : S -> A -> S -> Prop) f :
  (forall s0 s, P s0 s -> Q s0 (f s) s) -> runs R G Pm P (gets f) Q.
Proof. intros H s0 s Hs. by apply H. Qed.

Lemma runs_modify (P : S -> S -> Prop) (Q : S -> unit -> S -> Prop) f :
  (forall s0 s, P s0 s -> Q s0 tt (f s)) -> runs R G Pm P (modify f) Q.
Proof. intros H s0 s Hs. by apply H. Qed.

Lemma runs_panic {A} (P : S -> S -> Prop) (Q : S -> A -> S -> Prop) msg :
  (forall s0 s, P s0 s -> Pm msg) -> runs R G Pm P (panic msg) Q.
Proof. intros H s0 s Hs. exact (H s0 s Hs). Qed.

Lemma runs_fuel {A} (P : S -> S -> Prop) (Q : S -> A -> S -> Prop) : runs R G Pm P out_of_fuel Q.
Proof. done. Qed.

Lemma runs_if {A} (b : bool) (P : S -> S -> Prop) (Q : S -> A -> S -> Prop) m1 m2 :
  (b = true -> runs R G Pm P m1 Q) -> (b = false -> runs R G Pm P m2 Q) ->
  runs R G Pm P (if b then m1 else m2) Q.
Proof. destruct b; auto. Qed.

(** A routine on a part of the state that [P] does not look at. If it may give
    up the processor, then [P] must give the guarantee and outlast the other
    processes. *)
Lemma runs_lift {S' A} `{Sub S' S} (Y : Prop) (P : S -> S -> Prop) (m : M S' A) :
  says Pm Y m -> (forall s0 t x, P s0 t -> P s0 (sub_put x t)) ->
  (Y -> forall s0 t, P s0 t -> G s0 t) -> (Y -> forall s0 t t', P s0 t -> R t t' -> P t' t') ->
  runs R G Pm P (lift m) (fun s0 _ s => P s0 s).
Proof.
  intros Hm Hput HG HR s0 t Ht.
  assert (Hr : forall r s0 t, P s0 t -> res_says Pm Y r ->
    res_runs R G Pm (fun s0 (_ : A) s => P s0 s) s0 (res_lift t r)).
  { clear s0 t Ht. induction r as [a s'|msg| | |s' r IH]; cbn; intros s0 t Ht Hr; try done.
    - by apply Hput.
    - destruct Hr as [HY Hr]. split; [apply HG; auto|]. intros t' Ht'. apply IH; [|apply Hr].
      eapply HR; [exact HY|apply Hput, Ht|exact Ht']. }
  by apply Hr.
Qed.

(** One that does not give up the processor. *)
Lemma runs_call {S' A} `{Sub S' S} (P : S -> S -> Prop) (Q : S -> A -> S -> Prop) (m : M S' A) :
  says Pm False m -> (forall s0 t x, P s0 t -> P s0 (sub_put x t)) ->
  (forall s0 a s, P s0 s -> Q s0 a s) -> runs R G Pm P (lift m) Q.
Proof. intros Hm Hput HQ. eapply runs_post; [by apply (runs_lift False P)|done]. Qed.
End Runs.

Section Says.
Context {S : Type} (Pm : string -> Prop) (Y : Prop).

Lemma says_bind {A B} (m : M S A) (k : A -> M S B) :
  says Pm Y m -> (forall a, says Pm Y (k a)) -> says Pm Y (mbind' m k).
Proof.
  intros Hm Hk s. unfold mbind'. specialize (Hm s). induction (m s) as [a s'|msg| | |s' r IH]; cbn; try done.
  - apply Hk.
  - destruct Hm as [H1 H2]. split; [done|]. auto.
Qed.
Lemma says_ret {A} (a : A) : says (S:=S) Pm Y (mret' a).
Proof. done. Qed.
Lemma says_gets {A} (f : S -> A) : says Pm Y (gets f).
Proof. done. Qed.
Lemma says_modify (f : S -> S) : says Pm Y (modify f).
Proof. done. Qed.
Lemma says_fuel {A} : says (S:=S) (A:=A) Pm Y out_of_fuel.
Proof. done. Qed.
Lemma says_spin {A} : says (S:=S) (A:=A) Pm Y spin.
Proof. done. Qed.
Lemma says_panic {A} msg : Pm msg -> says (S:=S) (A:=A) Pm Y (panic msg).
Proof. intros H s. exact H. Qed.
Lemma says_yield : Y -> says (S:=S) Pm Y yield_cpu.
Proof. intros HY s. by split. Qed.
Lemma says_when b (m : M S unit) : says Pm Y m -> says Pm Y (when b m).
Proof. by destruct b. Qed.
Lemma says_lift {S' A} `{Sub S' S} (m : M S' A) : says Pm Y m -> says Pm Y (lift m).
Proof.
  intros Hm t. assert (Hl : forall r t, res_says Pm Y r -> res_says (A:=A) Pm Y (res_lift t r)).
  { induction r as [a s'|msg| | |s' r IH]; cbn; intros t' Hr; try done.
    destruct Hr as [H1 H2]. split; [done|]. intros t''. apply IH, H2. }
  apply Hl, Hm.
Qed.
End Says.

Create HintDb says.
#[export] Hint Resolve says_ret says_gets says_modify says_fuel says_spin : says.

(** Goes through a routine; the messages are left when they are not decided
    by computation. *)
Ltac says_step :=
  match goal with
  | |- says _ _ (mbind' _ _) => apply says_bind; [|intros ?]
  | |- says _ _ (when _ _) => apply says_when
  | |- says _ _ (if ?b then _ else _) => destruct b
  | |- says _ _ (match ?x with _ => _ end) => destruct x
  | |- says _ _ (panic _) => apply says_panic; try reflexivity
  | |- says _ _ _ => solve [eauto with says nocore]
  | |- says _ _ (lift _) => apply says_lift
  end.
Ltac says_run := repeat says_step.
