(* ===== verification/Spinlock.v ===== *)
(** * Harts, interrupts and spin locks

    Models [src/xv6-os/kernel/spinlock.c], the interrupt-enable routines of
    [riscv.h] and the per-CPU part of [proc.c] and [proc.h]. The state is the
    one a hart sees: its [tp] and [sstatus] registers, the array [cpus] and
    the locks of the kernel. Section [Mutex] runs the pieces of [acquire] and
    [release] of several harts in any interleaving. *)
From S2P Require Import Prelude.

(** ** Data *)

(** [struct cpu]: the process running on the CPU, as an index of [proc[]],
    the nesting depth of [push_off] and the interrupt state before the
    outermost one. The saved [context] belongs to [swtch.S]. *)
Record cpu := mkcpu {
  c_proc : option nat;
  c_noff : Z;
  c_intena : Z;
}.

(** [struct spinlock]; the holding CPU is an index of [cpus[]]. *)
Record spinlock := mkspinlock {
  locked : Z;
  lk_name : string;
  lk_cpu : option nat;
}.

(** A lock of the kernel: the name of the variable, and an index or address
    when there are several of them. *)
Notation lockid := (string * Z)%type.

Record hart := mkhart {
  tp : nat;
  sstatus : Z;
  cpus : gmap nat cpu;
  locks : gmap lockid spinlock;
}.

Definition set_sstatus (x : Z) (h : hart) : hart :=
  mkhart (tp h) x (cpus h) (locks h).
Definition set_cpus (x : gmap nat cpu) (h : hart) : hart :=
  mkhart (tp h) (sstatus h) x (locks h).
Definition set_locks (x : gmap lockid spinlock) (h : hart) : hart :=
  mkhart (tp h) (sstatus h) (cpus h) x.

(** Global variables start as zero bytes. *)
Definition cpu0 : cpu := mkcpu None 0 0.
Definition spinlock0 : spinlock := mkspinlock 0 EmptyString None.

(** ** riscv.h: device interrupts *)

Definition SSTATUS_SPP : Z := Z.shiftl 1 8.
Definition SSTATUS_SPIE : Z := Z.shiftl 1 5.
Definition SSTATUS_SIE : Z := Z.shiftl 1 1.
#[global] Arguments SSTATUS_SIE : simpl never.
#[global] Arguments Z.land : simpl never.
#[global] Arguments Z.lor : simpl never.
#[global] Arguments Z.lnot : simpl never.

Definition intr_on : M hart unit :=
  modify (fun h => set_sstatus (Z.lor (sstatus h) SSTATUS_SIE) h).

Definition intr_off : M hart unit :=
  modify (fun h => set_sstatus (Z.land (sstatus h) (Z.lnot SSTATUS_SIE)) h).

Definition intr_get : M hart bool :=
  gets (fun h => negb (Z.land (sstatus h) SSTATUS_SIE =? 0)).

(** ** proc.c: the current CPU and process *)

Definition cpuid : M hart nat := gets tp.

Definition this_cpu (h : hart) : cpu := default cpu0 (cpus h !! tp h).

Definition mycpu : M hart cpu := gets this_cpu.

Definition set_mycpu (c : cpu) : M hart unit :=
  modify (fun h => set_cpus (<[tp h := c]> (cpus h)) h).

(** ** spinlock.c *)

Definition push_off : M hart unit :=
  let! old := intr_get in
  intr_off ;;;
  let! c := mycpu in
  when (c_noff c =? 0) (set_mycpu (mkcpu (c_proc c) (c_noff c) (b2z old))) ;;;
  let! c := mycpu in
  set_mycpu (mkcpu (c_proc c) (c_noff c + 1) (c_intena c)).

Definition pop_off : M hart unit :=
  let! c := mycpu in
  let! on := intr_get in
  if on then panic "pop_off - interruptible"
  else if c_noff c <? 1 then panic "pop_off"
  else
    set_mycpu (mkcpu (c_proc c) (c_noff c - 1) (c_intena c)) ;;;
    let! c := mycpu in
    when ((c_noff c =? 0) && negb (c_intena c =? 0)) intr_on.

Definition lock_of (l : lockid) (h : hart) : spinlock :=
  default spinlock0 (locks h !! l).

Definition set_lock (l : lockid) (lk : spinlock) : M hart unit :=
  modify (fun h => set_locks (<[l := lk]> (locks h)) h).

Definition initlock (l : lockid) (name : string) : M hart unit :=
  set_lock l (mkspinlock 0 name None).

Definition holding (l : lockid) : M hart bool :=
  let! c := cpuid in
  let! lk := gets (lock_of l) in
  mret' (negb (locked lk =? 0) && bool_decide (lk_cpu lk = Some c)).

(** [acquire] in three pieces: up to the check, one round of the
    test-and-set, which gives the old value, and the record of the holder. *)
Definition acquire_enter (l : lockid) : M hart unit :=
  push_off ;;;
  let! r := holding l in
  if r then panic "acquire" else mret' tt.

Definition test_and_set (l : lockid) : M hart Z :=
  let! lk := gets (lock_of l) in
  set_lock l (mkspinlock 1 (lk_name lk) (lk_cpu lk)) ;;;
  mret' (locked lk).

Definition record_holder (l : lockid) : M hart unit :=
  let! lk := gets (lock_of l) in
  let! c := cpuid in
  set_lock l (mkspinlock (locked lk) (lk_name lk) (Some c)).

(** On its own, a hart whose test-and-set fails spins for ever: only another
    hart can release the lock. *)
Definition acquire (l : lockid) : M hart unit :=
  acquire_enter l ;;;
  let! old := test_and_set l in
  if old =? 0 then record_holder l else spin.

(** [release] in the same way: the check, the two stores and [pop_off]. *)
Definition release_enter (l : lockid) : M hart unit :=
  let! r := holding l in
  if r then mret' tt else panic "release".

Definition clear_holder (l : lockid) : M hart unit :=
  let! lk := gets (lock_of l) in
  set_lock l (mkspinlock (locked lk) (lk_name lk) None).

Definition lock_release (l : lockid) : M hart unit :=
  let! lk := gets (lock_of l) in
  set_lock l (mkspinlock 0 (lk_name lk) (lk_cpu lk)).

Definition release (l : lockid) : M hart unit :=
  release_enter l ;;;
  clear_holder l ;;;
  lock_release l ;;;
  pop_off.

(** proc.c: the process of this CPU. *)
Definition myproc : M hart (option nat) :=
  push_off ;;;
  let! c := mycpu in
  let p := c_proc c in
  pop_off ;;;
  mret' p.

#[global] Arguments push_off : simpl never.
#[global] Arguments pop_off : simpl never.
#[global] Arguments acquire : simpl never.
#[global] Arguments release : simpl never.
#[global] Arguments myproc : simpl never.
#[global] Strategy 1000 [push_off pop_off acquire release myproc holding].

(** ** Invariant and critical sections *)

(** Interrupts are off while a [push_off] is pending. *)
Definition intr_enabled (h : hart) : bool := negb (Z.land (sstatus h) SSTATUS_SIE =? 0).

Definition hart_ok (h : hart) : Prop :=
  0 <= c_noff (this_cpu h) /\ (0 < c_noff (this_cpu h) -> intr_enabled h = false).

Definition lock_free (l : lockid) (h : hart) : Prop :=
  exists name, locks h !! l = Some (mkspinlock 0 name None).

(** What a balanced [push_off] and [pop_off] leave: the same state, with the
    interrupt flag recorded in [intena] when they are the outermost pair. *)
Definition settle (h : hart) : hart :=
  let c := this_cpu h in
  set_cpus (<[tp h := mkcpu (c_proc c) (c_noff c)
              (if c_noff c =? 0 then b2z (intr_enabled h) else c_intena c)]> (cpus h)) h.

(** The state inside the critical section of [l]. *)
Definition pushed (h : hart) : hart :=
  let c := this_cpu h in
  mkhart (tp h) (Z.land (sstatus h) (Z.lnot SSTATUS_SIE))
    (<[tp h := mkcpu (c_proc c) (c_noff c + 1)
        (if c_noff c =? 0 then b2z (intr_enabled h) else c_intena c)]> (cpus h))
    (locks h).

Definition take_lock (l : lockid) (h : hart) : gmap lockid spinlock :=
  <[l := mkspinlock 1 (lk_name (lock_of l h)) (Some (tp h))]> (locks h).

Definition acquired (l : lockid) (h : hart) : hart := set_locks (take_lock l h) (pushed h).

Lemma this_cpu_set h c x :
  this_cpu (mkhart (tp h) x (<[tp h := c]> (cpus h)) (locks h)) = c.
Proof. unfold this_cpu; cbn. by rewrite lookup_insert_eq. Qed.

Lemma push_off_eq h : push_off h = Ok tt (pushed h).
Proof.
  unfold push_off, pushed, intr_get, intr_off, mycpu, set_mycpu, mbind', gets, modify,
    when, mret', set_sstatus, set_cpus; cbn.
  unfold this_cpu at 1; cbn. fold (this_cpu h).
  destruct (Z.eqb_spec (c_noff (this_cpu h)) 0); cbn.
  - rewrite this_cpu_set. cbn. by rewrite insert_insert_eq.
  - unfold this_cpu; cbn. done.
Qed.

Lemma sie_off_on x :
  Z.land x SSTATUS_SIE <> 0 ->
  Z.lor (Z.land x (Z.lnot SSTATUS_SIE)) SSTATUS_SIE = x.
Proof.
  intros Hx. assert (Hb : Z.testbit x 1 = true).
  { apply not_false_iff_true. intros Hb. apply Hx. apply Z.bits_inj'. intros n Hn.
    rewrite Z.land_spec, Z.bits_0. change SSTATUS_SIE with (2 ^ 1).
    rewrite Z.pow2_bits_eqb by lia. destruct (Z.eqb_spec 1 n) as [<-|];
      [by rewrite Hb|apply andb_false_r]. }
  apply Z.bits_inj'. intros n Hn. rewrite Z.lor_spec, Z.land_spec, Z.lnot_spec by done.
  change SSTATUS_SIE with (2 ^ 1). rewrite Z.pow2_bits_eqb by lia.
  destruct (Z.eqb_spec 1 n) as [<-|]; cbn [negb]; [by rewrite Hb|].
  by rewrite orb_false_r, andb_true_r.
Qed.

Lemma sie_off_id x : Z.land x SSTATUS_SIE = 0 -> Z.land x (Z.lnot SSTATUS_SIE) = x.
Proof.
  intros Hx. rewrite <- Z.ldiff_land. apply Z.bits_inj'. intros n Hn.
  rewrite Z.ldiff_spec. destruct (Z.testbit x n) eqn:E; [|done]. cbn.
  apply (f_equal (fun y => Z.testbit y n)) in Hx.
  rewrite Z.land_spec, E, Z.bits_0 in Hx. cbn in Hx. by rewrite Hx.
Qed.

Lemma sie_off_get x : Z.land (Z.land x (Z.lnot SSTATUS_SIE)) SSTATUS_SIE = 0.
Proof.
  rewrite <- Z.land_assoc. apply Z.bits_inj'. intros n Hn.
  rewrite !Z.land_spec, Z.bits_0, Z.lnot_spec by done.
  destruct (Z.testbit SSTATUS_SIE n); cbn; by rewrite ?andb_false_r.
Qed.

Definition popped (h : hart) : hart :=
  let c := this_cpu h in
  mkhart (tp h)
    (if (c_noff c - 1 =? 0) && negb (c_intena c =? 0)
     then Z.lor (sstatus h) SSTATUS_SIE else sstatus h)
    (<[tp h := mkcpu (c_proc c) (c_noff c - 1) (c_intena c)]> (cpus h))
    (locks h).

Lemma pop_off_eq h :
  intr_enabled h = false -> 1 <= c_noff (this_cpu h) -> pop_off h = Ok tt (popped h).
Proof.
  intros Hi Hn. unfold pop_off, mycpu, intr_get, set_mycpu, intr_on. mred.
  fold (intr_enabled h). rewrite Hi. destruct (Z.ltb_spec (c_noff (this_cpu h)) 1); [lia|].
  unfold set_cpus. mred. rewrite this_cpu_set. cbn.
  unfold popped, set_sstatus. by destruct (_ && _).
Qed.

(** [pop_off] undoes [push_off], whatever happened to the locks between. *)
Lemma pop_off_pushed h lks :
  hart_ok h -> pop_off (set_locks lks (pushed h)) = Ok tt (set_locks lks (settle h)).
Proof.
  intros [Hn Hi].
  assert (Hc : this_cpu (set_locks lks (pushed h)) =
    mkcpu (c_proc (this_cpu h)) (c_noff (this_cpu h) + 1)
      (if c_noff (this_cpu h) =? 0 then b2z (intr_enabled h) else c_intena (this_cpu h))).
  { exact (this_cpu_set h _ 0). }
  rewrite pop_off_eq.
  - unfold popped. rewrite Hc. unfold settle, set_locks, set_cpus; cbn.
    replace (c_noff (this_cpu h) + 1 - 1) with (c_noff (this_cpu h)) by lia.
    rewrite insert_insert_eq. do 2 f_equal. unfold intr_enabled in *.
    destruct (Z.eqb_spec (Z.land (sstatus h) SSTATUS_SIE) 0); cbn.
    + rewrite sie_off_id by done. by destruct (c_noff (this_cpu h) =? 0).
    + destruct (Z.eqb_spec (c_noff (this_cpu h)) 0); cbn; [by apply sie_off_on|].
      specialize (Hi ltac:(lia)). done.
  - unfold intr_enabled; cbn. by rewrite sie_off_get.
  - rewrite Hc; cbn. lia.
Qed.

Lemma acquire_eq l h : lock_free l h -> acquire l h = Ok tt (acquired l h).
Proof.
  intros [name Hl]. unfold acquire, acquire_enter, mbind'. rewrite push_off_eq.
  unfold holding, test_and_set, record_holder, set_lock, cpuid. mred.
  unfold lock_of, acquired, take_lock, set_locks; cbn. rewrite Hl; cbn.
  mred. unfold lock_of. rewrite Hl; cbn. by rewrite lookup_insert_eq, insert_insert_eq.
Qed.

Lemma release_eq l h lks :
  hart_ok h ->
  (exists name, lks !! l = Some (mkspinlock 1 name (Some (tp h)))) ->
  release l (set_locks lks (pushed h)) =
  Ok tt (set_locks (<[l := mkspinlock 0 (lk_name (default spinlock0 (lks !! l))) None]> lks)
           (settle h)).
Proof.
  intros Hh [name Hl]. unfold release, release_enter, holding, clear_holder, lock_release,
    set_lock, cpuid, gets, modify, mret', mbind', lock_of; cbn.
  rewrite !Hl; cbn. rewrite bool_decide_true by done; cbn.
  rewrite Hl, lookup_insert_eq; cbn. rewrite insert_insert_eq.
  apply (pop_off_pushed h); done.
Qed.

(** A critical section leaves the locks as they were. *)
Lemma release_acquired l h :
  hart_ok h -> lock_free l h -> release l (acquired l h) = Ok tt (settle h).
Proof.
  intros Hh [name Hl]. unfold acquired. rewrite release_eq; [|done|].
  - unfold take_lock. rewrite lookup_insert_eq, insert_insert_eq. cbn.
    unfold lock_of. rewrite Hl. cbn. rewrite insert_id by done.
    by destruct h.
  - unfold take_lock. rewrite lookup_insert_eq. eauto.
Qed.

Lemma this_cpu_settle h :
  this_cpu (settle h) =
  mkcpu (c_proc (this_cpu h)) (c_noff (this_cpu h))
    (if c_noff (this_cpu h) =? 0 then b2z (intr_enabled h) else c_intena (this_cpu h)).
Proof. unfold settle, this_cpu; cbn. by rewrite lookup_insert_eq. Qed.

Lemma settle_ok h : hart_ok h -> hart_ok (settle h).
Proof. unfold hart_ok. by rewrite this_cpu_settle. Qed.

Lemma settle_idem h : settle (settle h) = settle h.
Proof.
  unfold settle at 1. rewrite this_cpu_settle. cbn. unfold settle, set_cpus; cbn.
  rewrite insert_insert_eq. unfold intr_enabled; cbn.
  by destruct (c_noff (this_cpu h) =? 0).
Qed.

Lemma lock_free_settle l h : lock_free l h -> lock_free l (settle h).
Proof. done. Qed.

Lemma myproc_eq h : hart_ok h -> myproc h = Ok (c_proc (this_cpu h)) (settle h).
Proof.
  intros Hh. unfold myproc, mbind'. rewrite push_off_eq. unfold mycpu, gets, mret'; cbn.
  pose proof (pop_off_pushed h (locks h) Hh) as E.
  change (set_locks (locks h) (pushed h)) with (pushed h) in E. rewrite E.
  unfold pushed. by rewrite this_cpu_set.
Qed.

#[export] Hint Resolve settle_ok lock_free_settle : core.

(** ** Mutual exclusion

    Several harts run [acquire] and [release] of one lock in any
    interleaving. A step of a hart is one piece of these routines: the check
    that follows [push_off], one test-and-set, one store, or [pop_off]. *)
Inductive pc := Idle | Trying | Taken | Critical | Leaving | Clearing | Popping | Panicked.

#[export] Instance pc_eq_dec : EqDecision pc.
Proof. solve_decision. Defined.

Record sys := mksys {
  y_sstatus : gmap nat Z;
  y_cpus : gmap nat cpu;
  y_locks : gmap lockid spinlock;
  y_pc : gmap nat pc;
}.

Definition view (i : nat) (y : sys) : hart :=
  mkhart i (default 0 (y_sstatus y !! i)) (y_cpus y) (y_locks y).

Section Mutex.
Variable l : lockid.

Definition piece (p : pc) : M hart pc :=
  match p with
  | Idle => acquire_enter l ;;; mret' Trying
  | Trying => let! old := test_and_set l in
              mret' (if old =? 0 then Taken else Trying)
  | Taken => record_holder l ;;; mret' Critical
  | Critical => release_enter l ;;; mret' Leaving
  | Leaving => clear_holder l ;;; mret' Clearing
  | Clearing => lock_release l ;;; mret' Popping
  | Popping => pop_off ;;; mret' Idle
  | Panicked => mret' Panicked
  end.

Definition lock_step (i : nat) (y : sys) : sys :=
  match y_pc y !! i with
  | None => y
  | Some p =>
      match piece p (view i y) with
      | Ok p' h => mksys (<[i := sstatus h]> (y_sstatus y)) (cpus h) (locks h)
                     (<[i := p']> (y_pc y))
      | _ => mksys (y_sstatus y) (y_cpus y) (y_locks y) (<[i := Panicked]> (y_pc y))
      end
  end.

(** The lock was initialised and no hart uses it or has interrupts
    disabled by [push_off]. *)
Definition mutex_init (y : sys) : Prop :=
  (exists name, y_locks y !! l = Some (mkspinlock 0 name None)) /\
  (forall i p, y_pc y !! i = Some p -> p = Idle) /\
  (forall i, c_noff (this_cpu (view i y)) = 0).

Inductive mutex_reach : sys -> Prop :=
| mutex_start y : mutex_init y -> mutex_reach y
| mutex_next i y : mutex_reach y -> mutex_reach (lock_step i y).

(** The hart owns the lock: from the successful test-and-set to the store
    of 0. *)
Definition owns (p : pc) : bool :=
  match p with Taken | Critical | Leaving | Clearing => true | _ => false end.

Definition recorded (p : pc) : bool :=
  match p with Critical | Leaving => true | _ => false end.

Definition idle (p : pc) : bool := match p with Idle => true | _ => false end.

Definition hart_inv (i : nat) (p : pc) (y : sys) : Prop :=
  p <> Panicked /\
  c_noff (this_cpu (view i y)) = (if idle p then 0 else 1) /\
  (p <> Idle -> intr_enabled (view i y) = false).

Definition lock_inv (lk : spinlock) (pcs : gmap nat pc) : Prop :=
  (locked lk = 0 /\ lk_cpu lk = None /\ map_Forall (fun _ p => owns p = false) pcs) \/
  (exists i p, locked lk = 1 /\ pcs !! i = Some p /\ owns p = true /\
     lk_cpu lk = (if recorded p then Some i else None) /\
     forall j q, pcs !! j = Some q -> owns q = true -> j = i).

Definition mutex_inv (y : sys) : Prop :=
  (exists lk, y_locks y !! l = Some lk /\ lock_inv lk (y_pc y)) /\
  map_Forall (fun i p => hart_inv i p y) (y_pc y).

Lemma holding_eq h :
  holding l h =
  Ok (negb (locked (lock_of l h) =? 0) && bool_decide (lk_cpu (lock_of l h) = Some (tp h))) h.
Proof. done. Qed.

(** A step that keeps the lock and goes from a state that does not own it
    to another such state keeps the lock invariant. *)
Lemma lock_inv_same lk pcs i p p' :
  pcs !! i = Some p -> owns p = false -> owns p' = false ->
  lock_inv lk pcs -> lock_inv lk (<[i := p']> pcs).
Proof.
  intros Hi Hp Hp' [(H0 & Hc & Hall)|(j & q & H1 & Hj & Hq & Hc & Hu)].
  - left. split_and!; [done..|]. intros k q'. rewrite lookup_insert.
    case_decide; [by intros [= <-]|apply Hall].
  - right. exists j, q. assert (i <> j) by congruence.
    rewrite lookup_insert_ne by done. split_and!; [done..|].
    intros k q'. rewrite lookup_insert. case_decide; [intros [= <-]; congruence|apply Hu].
Qed.

(** The owner moves on. *)
Lemma lock_inv_owner lk lk' pcs i p p' :
  pcs !! i = Some p -> owns p = true -> owns p' = true ->
  locked lk' = locked lk -> lk_cpu lk' = (if recorded p' then Some i else None) ->
  lock_inv lk pcs -> lock_inv lk' (<[i := p']> pcs).
Proof.
  intros Hi Hp Hp' Hlk Hc' [(H0 & Hc & Hall)|(j & q & H1 & Hj & Hq & Hc & Hu)].
  - specialize (Hall _ _ Hi). cbn in Hall. congruence.
  - assert (i = j) as <- by eauto. right. exists i, p'.
    rewrite lookup_insert_eq. split_and!; [congruence|done..|].
    intros k q'. rewrite lookup_insert. case_decide; [done|apply Hu].
Qed.

Lemma lock_inv_owned lk pcs i p :
  pcs !! i = Some p -> owns p = true -> lock_inv lk pcs ->
  locked lk = 1 /\ lk_cpu lk = (if recorded p then Some i else None) /\
  forall j q, pcs !! j = Some q -> owns q = true -> j = i.
Proof.
  intros Hi Hp [(H0 & Hc & Hall)|(j & q & H1 & Hj & Hq & Hc & Hu)].
  - specialize (Hall _ _ Hi). cbn in Hall. congruence.
  - assert (i = j) as <- by eauto. simplify_eq. done.
Qed.

(** Steps of hart [i] leave what the others see of their CPU alone. *)
Lemma harts_frame i p' y ss cs lks :
  (forall j, j <> i -> cs !! j = y_cpus y !! j) ->
  map_Forall (fun i p => hart_inv i p y) (y_pc y) ->
  let y' := mksys (<[i := ss]> (y_sstatus y)) cs lks (<[i := p']> (y_pc y)) in
  hart_inv i p' y' -> map_Forall (fun i p => hart_inv i p y') (y_pc y').
Proof.
  intros Hcs Hall y' Hi j q. unfold y' at 1; cbn. rewrite lookup_insert.
  case_decide as Hij; [subst j; by intros [= <-]|].
  intros Hj. specialize (Hall _ _ Hj). unfold hart_inv, this_cpu, intr_enabled, view in *.
  cbn in *. by rewrite Hcs, lookup_insert_ne by done.
Qed.

(** A hart that keeps its CPU and status register keeps its invariant. *)
Lemma hart_inv_move i p p' y lks pcs :
  idle p = false -> idle p' = false -> p' <> Panicked -> hart_inv i p y ->
  hart_inv i p' (mksys (<[i := default 0 (y_sstatus y !! i)]> (y_sstatus y)) (y_cpus y) lks pcs).
Proof.
  intros Hp Hp' Hpan (_ & Hn & Hi). split_and!; [done|by rewrite Hp, Hp' in *|].
  intros _. unfold intr_enabled in *; cbn in *. rewrite lookup_insert_eq. apply Hi.
  by intros ->.
Qed.

Lemma mutex_step i y : mutex_inv y -> mutex_inv (lock_step i y).
Proof.
  intros [(lk & Hl & Hlk) Hall]. unfold lock_step.
  destruct (y_pc y !! i) as [p|] eqn:Hi; [|split; eauto].
  pose proof (Hall _ _ Hi) as (Hnp & Hnoff & Hintr).
  destruct p; cbn [piece]; [..|done].
  - (* Idle: push_off and the check *)
    unfold acquire_enter, mbind'. rewrite push_off_eq. cbn [res_bind]. rewrite holding_eq. cbn [res_bind].
    unfold lock_of; cbn. rewrite Hl; cbn.
    destruct (bool_decide_reflect (lk_cpu lk = Some i)) as [Hc|_].
    { exfalso. destruct Hlk as [(_ & ? & _)|(j & q & _ & Hj & Ho & Hcj & _)]; [congruence|].
      destruct q; cbn in *; simplify_eq. }
    rewrite andb_false_r. mred. split.
    + exists lk. split; [done|]. by eapply lock_inv_same.
    + apply harts_frame; [cbn; intros; by rewrite lookup_insert_ne|done|].
      split_and!; [done|..].
      * unfold this_cpu in *; cbn in *. rewrite lookup_insert_eq; cbn. lia.
      * intros _. unfold intr_enabled; cbn. rewrite lookup_insert_eq; cbn.
        by rewrite sie_off_get.
  - (* Trying: test-and-set *)
    unfold test_and_set, set_lock. mred. unfold lock_of; cbn. rewrite Hl; cbn.
    split; cbn.
    + rewrite lookup_insert_eq. eexists; split; [done|].
      destruct Hlk as [(H0 & Hc & Hf)|Hlk].
      * rewrite H0; cbn. right. exists i, Taken. rewrite lookup_insert_eq.
        split_and!; [done..|]. intros j q. rewrite lookup_insert.
        case_decide; [done|]. intros Hj Ho. specialize (Hf _ _ Hj). cbn in Hf. congruence.
      * destruct Hlk as (j & q & H1 & Hlk). rewrite H1; cbn.
        rewrite insert_id by done. right. exists j, q. done.
    + apply harts_frame; [done..|].
      destruct Hlk as [(H0 & Hc & Hf)|(j & q & H1 & _)];
        [rewrite H0|rewrite H1]; by eapply hart_inv_move; [..|apply (Hall _ _ Hi)].
  - (* Taken: the holder is recorded *)
    pose proof (lock_inv_owned _ _ _ _ Hi eq_refl Hlk) as (H1 & _ & _).
    unfold record_holder, set_lock, cpuid. mred. unfold lock_of; cbn. rewrite Hl; cbn. split; cbn.
    + rewrite lookup_insert_eq. eexists; split; [done|].
      by eapply (lock_inv_owner lk).
    + apply harts_frame; [done..|]. by eapply hart_inv_move; [..|apply (Hall _ _ Hi)].
  - (* Critical: the check of release *)
    pose proof (lock_inv_owned _ _ _ _ Hi eq_refl Hlk) as (H1 & Hc & _).
    unfold release_enter, mbind'. rewrite holding_eq. unfold lock_of; cbn.
    rewrite Hl; cbn. rewrite H1, Hc, bool_decide_true by done. mred. split; cbn.
    + eexists; split; [done|]. by eapply (lock_inv_owner lk).
    + apply harts_frame; [done..|]. by eapply hart_inv_move; [..|apply (Hall _ _ Hi)].
  - (* Leaving: the holder is cleared *)
    unfold clear_holder, set_lock. mred. unfold lock_of; cbn. rewrite Hl; cbn. split; cbn.
    + rewrite lookup_insert_eq. eexists; split; [done|].
      by eapply (lock_inv_owner lk).
    + apply harts_frame; [done..|]. by eapply hart_inv_move; [..|apply (Hall _ _ Hi)].
  - (* Clearing: the lock is released *)
    pose proof (lock_inv_owned _ _ _ _ Hi eq_refl Hlk) as (H1 & Hc & Hu).
    unfold lock_release, set_lock. mred. unfold lock_of; cbn. rewrite Hl; cbn. split; cbn.
    + rewrite lookup_insert_eq. eexists; split; [done|]. left. split_and!; [done..|].
      intros j q. rewrite lookup_insert. case_decide; [by intros [= <-]|].
      intros Hj. destruct (owns q) eqn:Ho; [|done]. destruct (H (eq_sym (Hu _ _ Hj Ho))).
    + apply harts_frame; [done..|]. by eapply hart_inv_move; [..|apply (Hall _ _ Hi)].
  - (* Popping: pop_off *)
    cbn in Hnoff. unfold mbind'. rewrite pop_off_eq by (rewrite ?Hnoff; auto; lia).
    mred. split; cbn.
    + exists lk. split; [done|]. by eapply lock_inv_same.
    + apply harts_frame; [cbn; intros; by rewrite lookup_insert_ne|done|].
      split_and!; [done|..|done].
      unfold this_cpu in *; cbn in *. rewrite lookup_insert_eq; cbn. lia.
Qed.

Lemma mutex_inv_reach y : mutex_reach y -> mutex_inv y.
Proof.
  induction 1 as [y ([name Hl] & Hpc & Hn)|]; [|by apply mutex_step]. split.
  - eexists; split; [done|]. left. split_and!; [done..|].
    intros i p Hi. by rewrite (Hpc _ _ Hi).
  - intros i p Hi. rewrite (Hpc _ _ Hi). split_and!; [done| |done].
    apply Hn.
Qed.

(** C3. Mutual exclusion of spin locks. Whatever the interleaving of the
    test-and-set instructions, stores and checks of the harts, at most one
    hart at a time is between a successful [acquire] and the end of its
    [release], interrupts are off on a hart that is, and none of the checks
    of [acquire], [release] and [pop_off] panics. *)
Theorem spinlock_mutual_exclusion (y : sys) (Hreach : mutex_reach y) :
  (forall i j p q, y_pc y !! i = Some p -> y_pc y !! j = Some q ->
     owns p = true -> owns q = true -> i = j) /\
  (forall i p, y_pc y !! i = Some p -> owns p = true -> intr_enabled (view i y) = false) /\
  (forall i, y_pc y !! i <> Some Panicked).
Proof.
  apply mutex_inv_reach in Hreach as [(lk & _ & Hlk) Hall]. split_and!.
  - intros i j p q Hi Hj Hp Hq.
    destruct (lock_inv_owned _ _ _ _ Hi Hp Hlk) as (_ & _ & Hu). symmetry. eauto.
  - intros i p Hi Hp. apply (Hall _ _ Hi). by intros ->.
  - intros i Hi. by apply (Hall _ _ Hi).
Qed.
End Mutex.

(** Two harts that both try: the second one's test-and-set fails. *)
Definition two_harts : sys :=
  mksys ∅ ∅ {[("kmem"%string, 0) := mkspinlock 0 "kmem" None]} {[0%nat := Idle; 1%nat := Idle]}.

Lemma spinlock_mutual_exclusion_witness :
  let l := ("kmem"%string, 0) in
  let y := lock_step l 1 (lock_step l 1 (lock_step l 0 (lock_step l 0 two_harts))) in
  y_pc y !! 0%nat = Some Taken /\ y_pc y !! 1%nat = Some Trying /\
  (forall i, y_pc y !! i <> Some Panicked).
Proof.
  split_and!; [vm_compute; reflexivity..|].
  apply (spinlock_mutual_exclusion ("kmem"%string, 0)).
  do 4 apply mutex_next. apply mutex_start. split_and!.
  - exists "kmem"%string. reflexivity.
  - intros i p. unfold two_harts; cbn. rewrite lookup_insert.
    case_decide; [by intros [= <-]|]. by intros [_ <-]%lookup_singleton_Some.
  - intros i. reflexivity.
Defined.

(** [push_off] and [pop_off] nest: a critical section that starts with a
    free lock returns without panic, gives the lock back, and restores the
    interrupt flag and the nesting depth. *)
Theorem critical_section_balanced (l : lockid) (h : hart)
  (Hok : hart_ok h) (Hfree : lock_free l h) :
  exists h', (acquire l ;;; release l) h = Ok tt h' /\
    lock_free l h' /\ hart_ok h' /\
    sstatus h' = sstatus h /\ locks h' = locks h /\ tp h' = tp h /\
    c_noff (this_cpu h') = c_noff (this_cpu h) /\
    c_proc (this_cpu h') = c_proc (this_cpu h).
Proof.
  exists (settle h). rewrite (bind_ok _ _ _ _ _ (acquire_eq _ _ Hfree)), release_acquired by done.
  rewrite this_cpu_settle. split_and!; auto.
Qed.

Lemma critical_section_balanced_witness :
  exists h', (acquire ("kmem"%string, 0) ;;; release ("kmem"%string, 0))
    (mkhart 0 SSTATUS_SIE ∅ {[("kmem"%string, 0) := mkspinlock 0 "kmem" None]}) = Ok tt h' /\
    sstatus h' = SSTATUS_SIE.
Proof.
  destruct (critical_section_balanced ("kmem"%string, 0)
    (mkhart 0 SSTATUS_SIE ∅ {[("kmem"%string, 0) := mkspinlock 0 "kmem" None]}))
    as (h' & H1 & _ & _ & H2 & _).
  - split; [vm_compute; discriminate|intros H; exfalso; vm_compute in H; discriminate].
  - exists "kmem"%string. reflexivity.
  - exists h'. split; [exact H1|exact H2].
Defined.
