(* ===== verification/Layout.v ===== *)
(** * Pages, page-table entries and the memory layout

    The constants and macros of [src/xv6-os/kernel/riscv.h] (page size, Sv39
    page-table entries and indices), [memlayout.h] and [param.h], and their
    arithmetic. *)
From S2P Require Import Prelude.

(** ** riscv.h *)

Notation PGSIZE := 4096 (only parsing).
Definition PGSHIFT : Z := 12.

(** The macros are used on [uint64] values. *)
Definition PGROUNDUP (sz : Z) : Z := Z.land (u64 (sz + PGSIZE - 1)) (Z.lnot (PGSIZE - 1)).
Definition PGROUNDDOWN (a : Z) : Z := Z.land a (Z.lnot (PGSIZE - 1)).

Definition PTE_V : Z := Z.shiftl 1 0.
Definition PTE_R : Z := Z.shiftl 1 1.
Definition PTE_W : Z := Z.shiftl 1 2.
Definition PTE_X : Z := Z.shiftl 1 3.
Definition PTE_U : Z := Z.shiftl 1 4.

Definition PA2PTE (pa : Z) : Z := u64 (Z.shiftl (Z.shiftr pa 12) 10).
Definition PTE2PA (pte : Z) : Z := u64 (Z.shiftl (Z.shiftr pte 10) 12).
Definition PTE_FLAGS (pte : Z) : Z := Z.land pte 0x3FF.

Definition PXMASK : Z := 0x1FF.
Definition PXSHIFT (level : Z) : Z := PGSHIFT + 9 * level.
Definition PX (level va : Z) : Z := Z.land (Z.shiftr va (PXSHIFT level)) PXMASK.

Definition MAXVA : Z := Z.shiftl 1 (9 + 9 + 9 + 12 - 1).

Definition SATP_SV39 : Z := Z.shiftl 8 60.
Definition MAKE_SATP (pagetable : Z) : Z := Z.lor SATP_SV39 (Z.shiftr pagetable 12).

(** ** memlayout.h *)

Definition UART0 : Z := 0x10000000.
Definition UART0_IRQ : Z := 10.
Definition VIRTIO0 : Z := 0x10001000.
Definition VIRTIO0_IRQ : Z := 1.
Definition PLIC : Z := 0x0c000000.
Definition KERNBASE : Z := 0x80000000.
Definition PHYSTOP : Z := KERNBASE + 128 * 1024 * 1024.
Definition TRAMPOLINE : Z := MAXVA - PGSIZE.
Definition KSTACK (p : Z) : Z := TRAMPOLINE - (p + 1) * 2 * PGSIZE.
Definition TRAPFRAME : Z := TRAMPOLINE - PGSIZE.

(** ** param.h *)

Definition NPROC : nat := 64.
Definition NCPU : nat := 8.
Definition NOFILE : nat := 16.
Definition NFILE : nat := 100.
Definition NINODE : nat := 50.
Definition NDEV : Z := 10.
Definition ROOTDEV : Z := 1.
Definition MAXARG : nat := 32.
Definition MAXOPBLOCKS : Z := 10.
Definition LOGSIZE : Z := MAXOPBLOCKS * 3.
Definition NBUF : nat := 30.
Definition FSSIZE : Z := 2000.
Definition MAXPATH : Z := 128.
Definition USERSTACK : Z := 1.

(** ** What the linker decides

    [end], [etext] and [trampoline] are symbols of [kernel.ld] and
    [trampoline.S]. The linker script starts the image at [KERNBASE], aligns
    the trampoline and [etext] to pages, and the image is smaller than the
    RAM. *)
Class Layout : Type := {
  kend : Z;
  etext : Z;
  trampoline : Z;
}.

Class LayoutOk `{!Layout} : Prop := {
  layout_order : KERNBASE <= trampoline /\ trampoline + PGSIZE <= etext /\
                 etext <= kend /\ kend <= PHYSTOP;
  layout_trampoline : trampoline mod PGSIZE = 0;
  layout_etext : etext mod PGSIZE = 0;
}.

(** A small kernel image, for examples. *)
Definition small_layout : Layout := {|
  kend := KERNBASE + 0x7ffe123;
  etext := KERNBASE + 0x8000;
  trampoline := KERNBASE + 0x7000;
|}.

Lemma small_layout_ok : @LayoutOk small_layout.
Proof. constructor; [|reflexivity..]. split_and!; vm_compute; discriminate. Qed.

(** A kernel of the size of the one the sources build. *)
Definition kernel_layout : Layout := {|
  kend := KERNBASE + 0x21a28;
  etext := KERNBASE + 0x8000;
  trampoline := KERNBASE + 0x7000;
|}.

Lemma kernel_layout_ok : @LayoutOk kernel_layout.
Proof. constructor; [|reflexivity..]. split_and!; vm_compute; discriminate. Qed.

(** ** Page arithmetic *)

Lemma PGROUNDDOWN_eq a : PGROUNDDOWN a = a - a mod 4096.
Proof. apply (land_lnot_ones a 12). lia. Qed.

Lemma PGROUNDUP_eq sz : PGROUNDUP sz = u64 (sz + 4095) - u64 (sz + 4095) mod 4096.
Proof.
  unfold PGROUNDUP. replace (sz + 4096 - 1) with (sz + 4095) by lia.
  apply (land_lnot_ones _ 12). lia.
Qed.

Lemma PGROUNDUP_small sz :
  0 <= sz <= 2 ^ 64 - 4096 -> PGROUNDUP sz = (sz + 4095) / 4096 * 4096.
Proof.
  intros. rewrite PGROUNDUP_eq, u64_small by lia.
  pose proof (Z.div_mod (sz + 4095) 4096). lia.
Qed.

Lemma PGROUNDUP_bounds sz :
  0 <= sz <= 2 ^ 64 - 4096 ->
  sz <= PGROUNDUP sz < sz + 4096 /\ PGROUNDUP sz mod 4096 = 0.
Proof.
  intros. rewrite PGROUNDUP_small by done. split; [|apply Z.mod_mul; lia].
  pose proof (Z.div_mod (sz + 4095) 4096). pose proof (Z.mod_pos_bound (sz + 4095) 4096). lia.
Qed.

Lemma PGROUNDUP_aligned sz :
  0 <= sz <= 2 ^ 64 - 4096 -> sz mod 4096 = 0 -> PGROUNDUP sz = sz.
Proof.
  intros H Ha. pose proof (PGROUNDUP_bounds sz H) as [Hb Hm].
  apply Z.mod_divide in Ha as [x ->]; [|lia]. apply Z.mod_divide in Hm as [y Hy]; [|lia].
  rewrite Hy in *. lia.
Qed.

(** ** Page-table entries *)

Lemma PTE2PA_PA2PTE pa perm :
  0 <= pa < 2 ^ 56 -> pa mod 4096 = 0 -> 0 <= perm < 1024 ->
  PTE2PA (Z.lor (PA2PTE pa) perm) = pa.
Proof.
  intros Hpa Ha Hp. apply Z.mod_divide in Ha as [q ->]; [|lia].
  unfold PTE2PA, PA2PTE.
  replace (Z.shiftr (q * 4096) 12) with q
    by (rewrite Z.shiftr_div_pow2 by lia; symmetry; apply Z.div_mul; lia).
  rewrite !Z.shiftl_mul_pow2, Z.shiftr_div_pow2 by lia.
  rewrite (u64_small (q * 2 ^ 10)) by lia.
  rewrite (lor_add _ _ 10), Z.div_add_l, Z.div_small
    by (try apply Z.mod_mul; lia).
  rewrite Z.add_0_r. apply u64_small. lia.
Qed.

Lemma PTE2PA_aligned pte : 0 <= pte < 2 ^ 54 -> PTE2PA pte mod 4096 = 0.
Proof.
  intros. unfold PTE2PA. rewrite Z.shiftl_mul_pow2, Z.shiftr_div_pow2 by lia.
  pose proof (Z.div_le_upper_bound pte (2 ^ 10) (2 ^ 44)).
  pose proof (Z.div_pos pte (2 ^ 10)).
  rewrite u64_small by lia. apply Z.mod_mul. lia.
Qed.

Lemma PTE_FLAGS_eq pte : PTE_FLAGS pte = pte mod 1024.
Proof. apply (Z.land_ones pte 10). lia. Qed.

Lemma PTE_FLAGS_PA2PTE pa perm :
  0 <= pa < 2 ^ 56 -> 0 <= perm < 1024 -> PTE_FLAGS (Z.lor (PA2PTE pa) perm) = perm.
Proof.
  intros Hpa Hp. unfold PA2PTE. rewrite PTE_FLAGS_eq, Z.shiftl_mul_pow2 by lia.
  pose proof (Z.shiftr_div_pow2 pa 12). pose proof (Z.div_pos pa (2 ^ 12)).
  pose proof (Z.div_lt_upper_bound pa (2 ^ 12) (2 ^ 44)).
  rewrite u64_small by lia. change 1024 with (2 ^ 10).
  rewrite (lor_add _ _ 10) by (try apply Z.mod_mul; lia).
  rewrite Z.add_comm, Z.mod_add by lia. apply Z.mod_small. lia.
Qed.

(** ** Page-table indices *)

Lemma PX_eq level va : 0 <= level -> PX level va = va / 2 ^ (12 + 9 * level) mod 512.
Proof.
  intros. unfold PX, PXMASK, PXSHIFT, PGSHIFT. change 0x1FF with (Z.ones 9).
  rewrite Z.land_ones, Z.shiftr_div_pow2 by lia. done.
Qed.

Lemma PX_range level va : 0 <= level -> 0 <= PX level va < 512.
Proof. intros. rewrite PX_eq by done. apply Z.mod_pos_bound. lia. Qed.

Lemma MAXVA_val : MAXVA = 274877906944.
Proof. reflexivity. Qed.

(** Below [MAXVA], the three indices determine the page. *)
Lemma PX_inj va va' :
  0 <= va < MAXVA -> 0 <= va' < MAXVA ->
  PX 2 va = PX 2 va' -> PX 1 va = PX 1 va' -> PX 0 va = PX 0 va' ->
  va / 4096 = va' / 4096.
Proof.
  unfold MAXVA. rewrite !PX_eq, Z.shiftl_mul_pow2 by lia. intros. Z.to_euclidean_division_equations. lia.
Qed.

#[global] Strategy 1000 [PTE2PA PA2PTE PTE_FLAGS].
