(* ===== verification/Dll.v ===== *)
(** * Circular doubly linked lists

    The buffer cache ([bio.c]) and the free lists of the buddy allocator
    ([list.c]) link their elements in circular doubly linked lists with a
    head. The links are two functions here, [nx] and [pv]; the components
    instantiate them with the fields of their nodes. *)
From S2P Require Import Prelude.

Section Dll.
Implicit Types (nx pv : Z -> Z) (l : list Z).

(** From node [x] the nodes [l] and then [y] follow. *)
Fixpoint seg nx pv (x : Z) l (y : Z) : Prop :=
  match l with
  | [] => nx x = y /\ pv y = x
  | z :: l => nx x = z /\ pv z = x /\ seg nx pv z l y
  end.

(** The list [l] with head [h]. *)
Definition ring nx pv (h : Z) l : Prop := seg nx pv h l h /\ NoDup (h :: l).

Lemma seg_ext nx pv nx' pv' x l y :
  (forall u, u ∈ x :: l -> nx' u = nx u) -> (forall u, u ∈ l ++ [y] -> pv' u = pv u) ->
  seg nx pv x l y -> seg nx' pv' x l y.
Proof.
  revert x. induction l as [|z l IH]; intros x Hn Hp; cbn [seg].
  - intros [H1 H2]. rewrite Hn, Hp by (by left). auto.
  - intros (H1 & H2 & Hs). rewrite Hn, Hp by (by left). split_and!; [done..|].
    apply IH; [|..|done].
    + intros u Hu. apply Hn. by right.
    + intros u Hu. apply Hp. by right.
Qed.

Lemma seg_app nx pv x l1 z l2 y :
  seg nx pv x (l1 ++ z :: l2) y <-> seg nx pv x l1 z /\ seg nx pv z l2 y.
Proof.
  revert x. induction l1 as [|u l1 IH]; intros x; cbn [app seg]; [tauto|].
  rewrite IH. tauto.
Qed.

Lemma seg_first nx pv x l y : seg nx pv x l y -> nx x = hd y l.
Proof. destruct l; cbn; tauto. Qed.

(** The last element of [x :: l]. *)
Fixpoint lastd l (x : Z) : Z := match l with [] => x | z :: l => lastd l z end.

Lemma lastd_elem l x : lastd l x ∈ x :: l.
Proof. revert x. induction l as [|u l IH]; intros x; [by left|]. right. apply (IH u). Qed.

Lemma seg_last nx pv x l y : seg nx pv x l y -> pv y = lastd l x.
Proof.
  revert x. induction l as [|z l IH]; intros x; [cbn; tauto|].
  intros (_ & _ & Hs). apply (IH _ Hs).
Qed.

(** The function [f] with another value at [a]. *)
Definition upd (f : Z -> Z) (a v : Z) : Z -> Z := fun u => if decide (u = a) then v else f u.

Lemma upd_eq f a v : upd f a v a = v.
Proof. unfold upd. by rewrite decide_True. Qed.
Lemma upd_ne f a v u : u <> a -> upd f a v u = f u.
Proof. intros. unfold upd. by rewrite decide_False. Qed.

(** Taking out [e]: its neighbours are linked to each other. *)
Lemma seg_remove nx pv x l1 e l2 y :
  NoDup (x :: l1 ++ e :: l2) -> y ∉ l1 ++ e :: l2 ->
  seg nx pv x (l1 ++ e :: l2) y ->
  seg (upd nx (pv e) (nx e)) (upd pv (nx e) (pv e)) x (l1 ++ l2) y.
Proof.
  revert x. induction l1 as [|z l1 IH]; intros x Hnd Hy; cbn [app seg].
  - intros (Hx & Hp & Hs). rewrite Hp. apply NoDup_cons in Hnd as [Hx0 Hnd].
    apply NoDup_cons in Hnd as [He Hnd]. pose proof (seg_first _ _ _ _ _ Hs) as Hf.
    destruct l2 as [|z l2]; cbn [seg hd] in *.
    + by rewrite Hf, !upd_eq.
    + destruct Hs as (_ & Hz & Hs). rewrite Hf, !upd_eq. split_and!; [done..|].
      apply NoDup_cons in Hnd as [Hz2 Hnd].
      eapply seg_ext; [..|exact Hs].
      * intros u Hu. apply upd_ne. intros ->. apply Hx0. by right.
      * intros u Hu. apply upd_ne. intros ->.
        apply elem_of_app in Hu as [Hu|Hu%list_elem_of_singleton]; [done|]. subst z. set_solver.
  - intros (Hx & Hz & Hs). apply NoDup_cons in Hnd as [Hx0 Hnd].
    pose proof Hs as Hs'. apply seg_app in Hs' as [Hs1 Hs2].
    pose proof (seg_last _ _ _ _ _ Hs1) as Hl. pose proof (seg_first _ _ _ _ _ Hs2) as Hf.
    split_and!.
    + rewrite upd_ne; [done|]. rewrite Hl. intros ->. apply Hx0.
      pose proof (lastd_elem l1 z). set_solver.
    + rewrite upd_ne; [done|]. rewrite Hf. apply NoDup_cons in Hnd as [Hz0 Hnd].
      destruct l2 as [|u l2]; cbn [hd]; set_solver.
    + apply IH; [done|set_solver|done].
Qed.

Lemma ring_remove nx pv h l1 e l2 :
  ring nx pv h (l1 ++ e :: l2) ->
  ring (upd nx (pv e) (nx e)) (upd pv (nx e) (pv e)) h (l1 ++ l2).
Proof.
  intros [Hs Hnd]. pose proof Hnd as [Hh Hnd']%NoDup_cons. split.
  - by apply seg_remove.
  - apply NoDup_cons. apply NoDup_app in Hnd' as (H1 & H2 & H3).
    apply NoDup_cons in H3 as [H3 H4]. split; [set_solver|].
    apply NoDup_app. split_and!; [done| |done]. intros u Hu. specialize (H2 u Hu). set_solver.
Qed.

(** Putting [e] in front. *)
Lemma ring_push nx pv h l e :
  ring nx pv h l -> e ∉ h :: l ->
  ring (upd (upd nx e (nx h)) h e) (upd (upd pv e h) (nx h) e) h (e :: l).
Proof.
  intros [Hs Hnd] He. pose proof (seg_first _ _ _ _ _ Hs) as Hf. rewrite Hf.
  pose proof Hnd as [Hh Hnd']%NoDup_cons. assert (e <> h) by set_solver. split.
  - assert (hd h l <> e) by (destruct l; cbn; set_solver).
    cbn [seg]. rewrite upd_eq. rewrite (upd_ne _ (hd h l)) by done. rewrite upd_eq.
    split_and!; [done..|]. destruct l as [|z l]; cbn [hd seg] in *.
    + rewrite upd_ne, upd_eq by done. by rewrite upd_eq.
    + destruct Hs as (_ & Hz & Hs). rewrite upd_ne, upd_eq by done. rewrite upd_eq.
      split_and!; [done..|]. apply NoDup_cons in Hnd' as [Hz2 _]. eapply seg_ext; [..|exact Hs].
      * intros u Hu. rewrite !upd_ne; [done|set_solver..].
      * intros u Hu. rewrite !upd_ne; [done| |].
        -- intros ->. set_solver.
        -- intros ->. set_solver.
  - apply NoDup_cons. split; [set_solver|]. apply NoDup_cons. split; [set_solver|done].
Qed.

Lemma ring_ext nx pv nx' pv' h l :
  (forall u, u ∈ h :: l -> nx' u = nx u) -> (forall u, u ∈ h :: l -> pv' u = pv u) ->
  ring nx pv h l -> ring nx' pv' h l.
Proof.
  intros Hn Hp [Hs Hnd]. split; [|done]. eapply seg_ext; [exact Hn| |exact Hs].
  intros u Hu. apply Hp. set_solver.
Qed.

(** Following the links from the head visits the list, in both directions. *)
Lemma ring_nx nx pv h l1 e l2 :
  ring nx pv h (l1 ++ e :: l2) -> nx e = hd h l2 /\ pv e = lastd l1 h.
Proof.
  intros [Hs _]. apply seg_app in Hs as [H1 H2].
  split; [by eapply seg_first|by eapply seg_last].
Qed.

Lemma ring_head nx pv h l : ring nx pv h l -> nx h = hd h l /\ pv h = lastd l h.
Proof. intros [Hs _]. split; [by eapply seg_first|by eapply seg_last]. Qed.
End Dll.
