(* ===== verification/Blocks.v ===== *)
(** * Byte arrays

    The contents of a disk block (or a [struct] in it) as a list of bytes:
    little-endian fields, slices and patches, and how they interact. *)
From S2P Require Import Prelude.

Definition get8 (d : list Z) (o : Z) : Z := nth (Z.to_nat o) d 0.

(** The [n]-byte field at offset [o]. *)
Fixpoint getn (n : nat) (d : list Z) (o : Z) : Z :=
  match n with O => 0 | S n => get8 d o + 2 ^ 8 * getn n d (o + 1) end.

Definition get16 := getn 2.
Definition get32 := getn 4.

Fixpoint le (n : nat) (v : Z) : list Z :=
  match n with O => [] | S n => u8 v :: le n (v / 2 ^ 8) end.

(** The [n] bytes at offset [o]. *)
Definition slice (d : list Z) (o n : Z) : list Z := take (Z.to_nat n) (drop (Z.to_nat o) d).

(** The array [d] with the bytes [l] at offset [o]. *)
Definition patch (d : list Z) (o : Z) (l : list Z) : list Z :=
  take (Z.to_nat o) d ++ l ++ drop (Z.to_nat o + length l) d.

Definition put16 (d : list Z) (o v : Z) : list Z := patch d o (le 2 v).
Definition put32 (d : list Z) (o v : Z) : list Z := patch d o (le 4 v).

Definition zlen (d : list Z) : Z := Z.of_nat (length d).

Lemma zlen_app (a b : list Z) : zlen (a ++ b) = zlen a + zlen b.
Proof. unfold zlen. rewrite length_app. lia. Qed.
Lemma zlen_cons (x : Z) l : zlen (x :: l) = 1 + zlen l.
Proof. unfold zlen. cbn [length]. lia. Qed.

Lemma length_le n v : length (le n v) = n.
Proof. revert v. induction n; intros; cbn; auto. Qed.

Lemma length_patch d o l :
  0 <= o -> o + zlen l <= zlen d -> length (patch d o l) = length d.
Proof. unfold patch, zlen. rewrite !length_app, length_take, length_drop. lia. Qed.

Lemma length_slice d o n : 0 <= o -> 0 <= n -> o + n <= zlen d -> length (slice d o n) = Z.to_nat n.
Proof. unfold slice, zlen. rewrite length_take, length_drop. lia. Qed.

Lemma get8_lookup d o : get8 d o = default 0 (d !! Z.to_nat o).
Proof. unfold get8. by rewrite nth_lookup. Qed.

Lemma lookup_patch d o l i :
  0 <= o -> o + zlen l <= zlen d ->
  patch d o l !! i =
  if decide (o <= Z.of_nat i < o + zlen l) then l !! (i - Z.to_nat o)%nat else d !! i.
Proof.
  intros Ho Hl. unfold patch, zlen in *. destruct (decide (i < Z.to_nat o)%nat).
  - rewrite lookup_app_l by (rewrite length_take; lia). rewrite lookup_take_lt, decide_False by lia. done.
  - rewrite lookup_app_r by (rewrite length_take; lia). rewrite length_take, min_l by lia.
    case_decide.
    + rewrite lookup_app_l by lia. done.
    + rewrite lookup_app_r by lia. rewrite lookup_drop. f_equal. lia.
Qed.

Lemma get8_patch d o l i :
  0 <= o -> o + zlen l <= zlen d -> 0 <= i ->
  get8 (patch d o l) i = if decide (o <= i < o + zlen l) then get8 l (i - o) else get8 d i.
Proof.
  intros Ho Hl Hi. rewrite !get8_lookup, lookup_patch, Z2Nat.id by lia.
  case_decide; [|done]. do 2 f_equal. lia.
Qed.

Lemma getn_ext n d d' o o' :
  (forall i, 0 <= i < Z.of_nat n -> get8 d (o + i) = get8 d' (o' + i)) -> getn n d o = getn n d' o'.
Proof.
  revert o o'. induction n as [|n IH]; intros o o' H; [done|]. cbn [getn].
  pose proof (H 0 ltac:(lia)) as H0. rewrite !Z.add_0_r in H0. rewrite H0. do 2 f_equal.
  apply IH. intros i Hi. rewrite <- !Z.add_assoc. apply H. lia.
Qed.

Lemma getn_cons n x d o : 0 < o -> getn n (x :: d) o = getn n d (o - 1).
Proof.
  intros Ho. apply getn_ext. intros i Hi. unfold get8.
  replace (Z.to_nat (o + i)) with (S (Z.to_nat (o - 1 + i))) by lia. done.
Qed.

Lemma getn_le n v : getn n (le n v) 0 = v mod 2 ^ (8 * Z.of_nat n).
Proof.
  revert v. induction n as [|n IH]; intros v; [by rewrite Z.mod_1_r|].
  cbn [getn le]. rewrite getn_cons by lia. rewrite IH. unfold get8, u8. cbn [nth Z.to_nat].
  replace (8 * Z.of_nat (S n)) with (8 + 8 * Z.of_nat n) by lia.
  pose proof (Z.pow_pos_nonneg 2 (8 * Z.of_nat n)) as Hp.
  rewrite Z.pow_add_r, Z.rem_mul_r by lia. reflexivity.
Qed.

Lemma getn_patch_same n d o v :
  0 <= o -> o + Z.of_nat n <= zlen d ->
  getn n (patch d o (le n v)) o = v mod 2 ^ (8 * Z.of_nat n).
Proof.
  intros Ho Hl. rewrite <- getn_le. apply getn_ext. intros i Hi.
  rewrite get8_patch, decide_True by (unfold zlen in *; rewrite ?length_le; lia).
  f_equal. lia.
Qed.

Lemma getn_patch_other n d o l o' :
  0 <= o -> o + zlen l <= zlen d -> 0 <= o' -> o' + Z.of_nat n <= o \/ o + zlen l <= o' ->
  getn n (patch d o l) o' = getn n d o'.
Proof.
  intros. apply getn_ext. intros i Hi. rewrite get8_patch, decide_False by lia. done.
Qed.

Lemma getn_range n d o :
  Forall (fun c => 0 <= c < 2 ^ 8) d -> 0 <= getn n d o < 2 ^ (8 * Z.of_nat n).
Proof.
  intros Hd. revert o. induction n as [|n IH]; intros o; [cbn; lia|]. cbn [getn].
  replace (8 * Z.of_nat (S n)) with (8 + 8 * Z.of_nat n) by lia. rewrite Z.pow_add_r by lia.
  specialize (IH (o + 1)). assert (0 <= get8 d o < 2 ^ 8); [|nia].
  rewrite get8_lookup. destruct (d !! _) as [c|] eqn:E; cbn; [|lia].
  rewrite Forall_lookup in Hd. by apply Hd in E.
Qed.

Lemma slice_patch_same d o l : 0 <= o -> o + zlen l <= zlen d -> slice (patch d o l) o (zlen l) = l.
Proof.
  intros Ho Hl. unfold slice, patch, zlen in *.
  rewrite drop_app_length' by (rewrite length_take; lia). rewrite Nat2Z.id. apply take_app_length.
Qed.

Lemma lookup_slice d o n i :
  0 <= o -> slice d o n !! i = if decide (Z.of_nat i < n) then d !! (Z.to_nat o + i)%nat else None.
Proof.
  intros Ho. unfold slice. case_decide.
  - rewrite lookup_take_lt, lookup_drop by lia. done.
  - rewrite lookup_take_ge by lia. done.
Qed.

Lemma slice_patch_other d o l o' n :
  0 <= o -> o + zlen l <= zlen d -> 0 <= o' -> o' + n <= o \/ o + zlen l <= o' ->
  slice (patch d o l) o' n = slice d o' n.
Proof.
  intros. apply list_eq. intros i. rewrite !lookup_slice by lia. case_decide; [|done].
  rewrite lookup_patch, decide_False by lia. done.
Qed.

Lemma getn_slice n d o m i :
  0 <= o -> 0 <= i -> i + Z.of_nat n <= m -> getn n (slice d o m) i = getn n d (o + i).
Proof.
  intros. apply getn_ext. intros j Hj. rewrite !get8_lookup, lookup_slice, decide_True by lia.
  do 2 f_equal. lia.
Qed.

Lemma slice_full d : slice d 0 (zlen d) = d.
Proof. unfold slice, zlen. rewrite Nat2Z.id, drop_0, take_ge; lia||done. Qed.

Lemma patch_full d l : length l = length d -> patch d 0 l = l.
Proof.
  intros H. unfold patch. cbn [Z.to_nat take Nat.add]. rewrite drop_ge by lia. by rewrite take_0, app_nil_r.
Qed.
