(* ===== verification/Printf.v ===== *)
(** * Formatted output

    The characters that [printf] of [src/xv6-os/kernel/printf.c] sends to
    the console, as a function of the format and the arguments. A call with a
    missing argument, or with one of another type than the format asks for, is
    undefined in C and gives [None]; so does a number that does not fit in the
    16 bytes of [printint]'s buffer. *)
From S2P Require Import Prelude CString Blocks.

(** The arguments of a variadic call: a number, or a string (or a null one). *)
Inductive parg := PNum (x : Z) | PStr (s : option (list Z)).

Definition ch (c : string) : Z :=
  match c with String a _ => Z.of_N (Ascii.N_of_ascii a) | EmptyString => 0 end.

Fixpoint str (s : string) : list Z :=
  match s with
  | EmptyString => []
  | String a s => Z.of_N (Ascii.N_of_ascii a) :: str s
  end.

Definition digits : list Z := str "0123456789abcdef".
Definition digit (d : Z) : Z := nth (Z.to_nat d) digits 0.

(** The [do] loop: the digits of [x], the last one first. A 64-bit number has
    at most 64 digits. *)
Fixpoint int_digits (k : nat) (x base : Z) : list Z :=
  match k with
  | O => []
  | S k => digit (x mod base) :: (if x / base =? 0 then [] else int_digits k (x / base) base)
  end.

Definition PRINTINT_BUF : Z := 16.

(** [xx] is a [long long]; [sign] a flag. *)
Definition printint (xx base : Z) (sign : bool) : option (list Z) :=
  let neg := sign && (xx <? 0) in
  let x := if neg then u64 (- xx) else u64 xx in
  let buf := int_digits 64 x base ++ (if neg then [ch "-"] else []) in
  if zlen buf <=? PRINTINT_BUF then Some (rev buf) else None.

Fixpoint ptr_digits (k : nat) (x : Z) : list Z :=
  match k with
  | O => []
  | S k => digit (Z.shiftr x 60) :: ptr_digits k (u64 (Z.shiftl x 4))
  end.

Definition printptr (x : Z) : list Z := [ch "0"; ch "x"] ++ ptr_digits 16 x.

(** The conversions of [long long] and [int] arguments. *)
Definition va_int (x : Z) : Z := s32 x.
Definition s64 (x : Z) : Z := (x + 2 ^ 63) mod 2 ^ 64 - 2 ^ 63.

(** What a conversion at [c0 c1 c2] prints: the characters, the arguments left
    and the number of further characters of the format it takes. [None] stops
    the loop at the end of the format. *)
Definition nul_or (s : option (list Z)) : list Z := match s with Some s => s | None => str "(null)" end.

Definition conv_num (f : Z -> option (list Z)) (args : list parg) : option (list Z * list parg) :=
  match args with
  | PNum x :: args => match f x with Some l => Some (l, args) | None => None end
  | _ => None
  end.

Definition conv_str (args : list parg) : option (list Z * list parg) :=
  match args with PStr s :: args => Some (nul_or s, args) | _ => None end.

Definition skip1 (r : option (list Z * list parg)) (i : nat) : option (list Z * list parg * nat) :=
  match r with Some (l, args) => Some (l, args, i) | None => None end.

Definition conversion (c0 c1 c2 : Z) (args : list parg) : option (list Z * list parg * nat) :=
  if c0 =? ch "d" then skip1 (conv_num (fun x => printint (va_int x) 10 true) args) 0
  else if (c0 =? ch "l") && (c1 =? ch "d") then skip1 (conv_num (fun x => printint (s64 x) 10 true) args) 1
  else if (c0 =? ch "l") && (c1 =? ch "l") && (c2 =? ch "d") then
    skip1 (conv_num (fun x => printint (s64 x) 10 true) args) 2
  else if c0 =? ch "u" then skip1 (conv_num (fun x => printint (va_int x) 10 false) args) 0
  else if (c0 =? ch "l") && (c1 =? ch "u") then skip1 (conv_num (fun x => printint (s64 x) 10 false) args) 1
  else if (c0 =? ch "l") && (c1 =? ch "l") && (c2 =? ch "u") then
    skip1 (conv_num (fun x => printint (s64 x) 10 false) args) 2
  else if c0 =? ch "x" then skip1 (conv_num (fun x => printint (va_int x) 16 false) args) 0
  else if (c0 =? ch "l") && (c1 =? ch "x") then skip1 (conv_num (fun x => printint (s64 x) 16 false) args) 1
  else if (c0 =? ch "l") && (c1 =? ch "l") && (c2 =? ch "x") then
    skip1 (conv_num (fun x => printint (s64 x) 16 false) args) 2
  else if c0 =? ch "p" then skip1 (conv_num (fun x => Some (printptr (u64 x))) args) 0
  else if c0 =? ch "s" then skip1 (conv_str args) 0
  else if c0 =? ch "%" then Some ([ch "%"], args, 0%nat)
  else Some ([ch "%"; c0], args, 0%nat).

(** The loop of [printf] over the format, which ends at a NUL. *)
Fixpoint format_loop (k : nat) (fmt : list Z) (args : list parg) : option (list Z) :=
  match k, fmt with
  | O, _ => Some []
  | S k, [] => Some []
  | S k, cx :: fmt =>
      if negb (cx =? ch "%") then option_map (cons cx) (format_loop k fmt args)
      else
        match fmt with
        | [] => Some []
        | c0 :: fmt =>
            let c1 := hd 0 fmt in
            let c2 := hd 0 (tl fmt) in
            match conversion c0 c1 c2 args with
            | None => None
            | Some (l, args, i) => option_map (app l) (format_loop k (drop i fmt) args)
            end
        end
  end.

Definition format (fmt : list Z) (args : list parg) : option (list Z) :=
  format_loop (S (length fmt)) fmt args.
