(* ===== verification/PrintfSpec.v ===== *)
(** * Correctness of printint

    The digits that the kernel's [printint] puts into its buffer are those of
    the number, and the 16 bytes of the buffer are enough exactly for numbers
    below [base ^ 16], or [base ^ 15] with a sign. *)
From S2P Require Import Prelude CString Blocks Printf.

(** The value of a digit and of a string of digits. *)
Definition digit_value (c : Z) : Z := if c <? 58 then c - 48 else c - 87.
Definition digits_value (base : Z) (l : list Z) : Z := foldl (fun a c => a * base + digit_value c) 0 l.

(** The number that a string stands for. *)
Definition number_value (base : Z) (l : list Z) : Z :=
  match l with
  | c :: l' => if c =? ch "-" then - digits_value base l' else digits_value base l
  | [] => 0
  end.

Lemma digit_value_digit d : 0 <= d < 16 -> digit_value (digit d) = d /\ digit d <> ch "-".
Proof.
  intros Hd. assert (Hn : (Z.to_nat d < 16)%nat) by lia. rewrite <-(Z2Nat.id d) at 2 by lia.
  unfold digit. revert Hn. generalize (Z.to_nat d). intros n Hn.
  do 16 (destruct n as [|n]; [by vm_compute|]). lia.
Qed.

Lemma digits_value_snoc base l c : digits_value base (l ++ [c]) = digits_value base l * base + digit_value c.
Proof. unfold digits_value. by rewrite foldl_app. Qed.

Section Digits.
Context (base : Z) (Hb : 2 <= base <= 16).

Lemma int_digits_value k x :
  0 <= x < base ^ Z.of_nat k -> (0 < k)%nat -> digits_value base (rev (int_digits k x base)) = x.
Proof.
  revert x. induction k as [|k IH]; intros x Hx Hk; [lia|]. cbn [int_digits rev].
  pose proof (Z.mod_pos_bound x base ltac:(lia)) as Hm.
  pose proof (Z.div_mod x base ltac:(lia)) as Hdm.
  rewrite digits_value_snoc, (proj1 (digit_value_digit (x mod base) ltac:(lia))).
  destruct (x / base =? 0) eqn:H0.
  - apply Z.eqb_eq in H0. cbn. lia.
  - assert (Hdiv : 0 <= x / base < base ^ Z.of_nat k).
    { split; [apply Z.div_pos; lia|]. apply Z.div_lt_upper_bound; [lia|].
      rewrite Nat2Z.inj_succ, Z.pow_succ_r in Hx by lia. lia. }
    destruct k as [|k]; [cbn in Hdiv; lia|]. rewrite IH by lia. lia.
Qed.

(** A number has at most [n] digits when it is below [base ^ n]. *)
Lemma int_digits_length k x n :
  0 <= x < base ^ Z.of_nat k -> (0 < k)%nat -> (0 < n)%nat ->
  (length (int_digits k x base) <= n)%nat <-> x < base ^ Z.of_nat n.
Proof.
  revert x n. induction k as [|k IH]; intros x n Hx Hk Hn; [lia|]. cbn [int_digits length].
  destruct (x / base =? 0) eqn:H0; cbn [length].
  - apply Z.eqb_eq, Z.div_small_iff in H0; [|lia]. split; [|lia]. intros _.
    apply Z.lt_le_trans with (base ^ 1); [lia|]. apply Z.pow_le_mono_r; lia.
  - apply Z.eqb_neq in H0.
    assert (Hdiv : 0 <= x / base < base ^ Z.of_nat k).
    { split; [apply Z.div_pos; lia|]. apply Z.div_lt_upper_bound; [lia|].
      rewrite Nat2Z.inj_succ, Z.pow_succ_r in Hx by lia. lia. }
    destruct k as [|k]; [cbn in Hdiv; lia|].
    destruct n as [|[|n]]; [lia| |].
    + change (base ^ Z.of_nat 1) with (base ^ 1). rewrite Z.pow_1_r. split.
      * cbn [int_digits length]. lia.
      * intros Hlt. exfalso. apply H0. apply Z.div_small. lia.
    + rewrite (Nat2Z.inj_succ (S n)), Z.pow_succ_r by lia.
      rewrite <-Nat.succ_le_mono, (IH (x / base) (S n)) by lia. split.
      * intros Hlt. pose proof (Z.div_mod x base ltac:(lia)). pose proof (Z.mod_pos_bound x base ltac:(lia)). nia.
      * intros Hlt. apply Z.div_lt_upper_bound; lia.
Qed.

Lemma int_digits_first k x : 0 <= x -> (0 < k)%nat -> hd 0 (rev (int_digits k x base)) <> ch "-" /\ int_digits k x base <> [].
Proof.
  intros Hx Hk. split; [|destruct k; [lia|done]].
  assert (Hall : forall k x, 0 <= x -> Forall (fun c => c <> ch "-") (int_digits k x base)).
  { clear x Hx k Hk. induction k as [|k IH]; intros x Hx; [constructor|]. cbn [int_digits]. constructor.
    - apply digit_value_digit. pose proof (Z.mod_pos_bound x base ltac:(lia)). lia.
    - destruct (_ =? 0); [constructor|]. apply IH, Z.div_pos; lia. }
  specialize (Hall k x Hx). apply Forall_rev in Hall. destruct (rev (int_digits k x base)); [done|].
  cbn. by inversion Hall.
Qed.
End Digits.

(** The magnitude that [printint] prints. *)
Definition magnitude (xx : Z) (sign : bool) : Z := if sign && (xx <? 0) then - xx else u64 xx.

(** C40. [printint] prints numbers right when they fit its buffer, and says
    when they do not: in base 10 or 16 the string stands for the number (its
    value modulo [2 ^ 64] when the conversion is unsigned), and the digits
    with the sign overrun the 16 bytes of [buf] exactly when the magnitude is
    at least [base ^ 16], or [base ^ 15] for a negative number. *)
Theorem printint_correct (xx base : Z) (sign : bool) :
  - 2 ^ 63 <= xx < 2 ^ 63 -> base = 10 \/ base = 16 ->
  (printint xx base sign = None <->
     base ^ (if sign && (xx <? 0) then 15 else 16) <= magnitude xx sign) /\
  (forall l, printint xx base sign = Some l -> number_value base l = if sign then xx else u64 xx).
Proof.
  intros Hxx Hbase. assert (Hb : 2 <= base <= 16) by lia.
  assert (Hm : 0 <= magnitude xx sign < base ^ Z.of_nat 64).
  { split; [unfold magnitude; destruct (sign && (xx <? 0)) eqn:?; [lia|apply u64_range]|].
    apply Z.lt_le_trans with (2 ^ 64).
    - unfold magnitude. destruct (sign && (xx <? 0)); [lia|apply u64_range].
    - apply Z.pow_le_mono_l. lia. }
  unfold printint. set (neg := sign && (xx <? 0)).
  replace (if neg then u64 (- xx) else u64 xx) with (magnitude xx sign)
    by (unfold magnitude, neg; destruct (sign && (xx <? 0)) eqn:?; [rewrite u64_small; lia|done]).
  pose proof (int_digits_value base Hb 64 _ Hm ltac:(lia)) as Hv.
  pose proof (int_digits_first base Hb 64 _ (proj1 Hm) ltac:(lia)) as [Hh Hne].
  pose proof (int_digits_length base Hb 64 _ (if neg then 15 else 16) Hm ltac:(lia) ltac:(destruct neg; lia)) as Hl.
  replace (Z.of_nat (if neg then 15 else 16)) with (if neg then 15 else 16) in Hl by (by destruct neg).
  set (ds := int_digits 64 (magnitude xx sign) base) in *. clearbody ds.
  assert (Hlen : zlen (ds ++ (if neg then [ch "-"] else [])) <= PRINTINT_BUF <->
    magnitude xx sign < base ^ (if neg then 15 else 16)).
  { rewrite <-Hl. unfold zlen, PRINTINT_BUF. rewrite length_app. destruct neg; cbn [length]; lia. }
  split.
  - destruct (Z.leb_spec (zlen (ds ++ (if neg then [ch "-"] else []))) PRINTINT_BUF) as [H|H].
    + apply Hlen in H. split; [done|]. lia.
    + split; [|done]. intros _. apply Z.nlt_ge. intros Hc. apply Hlen in Hc. lia.
  - intros l. destruct (_ <=? _); [|done]. intros [= <-]. rewrite rev_app_distr. destruct neg eqn:Hneg; cbn [rev app].
    + unfold number_value. rewrite Z.eqb_refl, Hv. unfold magnitude. subst neg. rewrite Hneg. destruct sign; [lia|done].
    + unfold number_value. destruct (rev ds) as [|c l] eqn:Hr.
      { apply (f_equal (@rev Z)) in Hr. rewrite rev_involutive in Hr. done. }
      cbn in Hh. destruct (c =? ch "-") eqn:Hc; [apply Z.eqb_eq in Hc; done|]. rewrite Hv.
      unfold magnitude. subst neg. rewrite Hneg. destruct sign; [|done]. cbn in Hneg. apply u64_small. lia.
Qed.

Lemma printint_correct_witness :
  (printint (10 ^ 16) 10 true = None <-> 10 ^ 16 <= magnitude (10 ^ 16) true) /\
  (forall l, printint (10 ^ 16) 10 true = Some l -> number_value 10 l = 10 ^ 16).
Proof. apply (printint_correct (10 ^ 16) 10 true); [lia|by left]. Defined.

(** The overrun of the buffer, for its use in [format]. *)
Lemma printint_overrun xx : - 2 ^ 63 <= xx < 2 ^ 63 -> 10 ^ 16 <= u64 xx -> printint xx 10 false = None.
Proof.
  intros Hxx Hu. unfold printint. cbn [andb]. pose proof (u64_range xx) as Hr.
  assert (Hm : 0 <= u64 xx < 10 ^ Z.of_nat 64) by (change (10 ^ Z.of_nat 64) with (10 ^ 64); lia).
  pose proof (int_digits_length 10 ltac:(lia) 64 (u64 xx) 16 Hm ltac:(lia) ltac:(lia)) as Hl.
  generalize dependent (int_digits 64 (u64 xx) 10). intros ds Hl. rewrite app_nil_r.
  destruct (Z.leb_spec (zlen ds) PRINTINT_BUF) as [H|H]; [|done].
  unfold zlen, PRINTINT_BUF in H. assert (Hc : (length ds <= 16)%nat) by lia. apply Hl in Hc.
  change (Z.of_nat 16) with 16 in Hc. lia.
Qed.

(** [%u] fetches an [int], so that an unsigned number from [2 ^ 31] on is
    extended with its sign: its 20 digits overrun the buffer. *)
Lemma percent_u_overruns x rest :
  2 ^ 31 <= x < 2 ^ 32 -> format (str "%u") (PNum x :: rest) = None.
Proof.
  intros Hx. assert (Hs : va_int x = x - 2 ^ 32) by (unfold va_int, s32; divlia).
  assert (Hn : printint (va_int x) 10 false = None).
  { apply printint_overrun; [rewrite Hs; lia|]. rewrite Hs. unfold u64. divlia. }
  change (format (str "%u") (PNum x :: rest)) with
    (match skip1 (conv_num (fun x => printint (va_int x) 10 false) (PNum x :: rest)) 0 with
     | None => None
     | Some (l, args, i) => option_map (app l) (format_loop 2 (drop i []) args)
     end).
  cbn [conv_num]. by rewrite Hn.
Qed.
