(* ===== verification/Http.v ===== *)
(** * The HTTP client of the vtfs kernel module

    Models [src/vfs-kernel-module/source/http.c], and the entry points of the
    module in [vtfs.c], which only write to the kernel log. The response buffer is a
    block of kernel memory at [raw_addr]; a read or write outside of it is an
    error of the kernel ([None]). [kstrtoint] of the Linux kernel is a
    parameter, and so are the results of the socket calls and of the memory
    allocations. *)
From S2P Require Import Prelude CString Blocks Printf.

Definition ENOMEM : Z := 12.
Definition ENOSPC : Z := 28.
Definition SERVER_IP : list Z := str "0.0.0.0".
Definition cr : Z := 13.
Definition lf : Z := 10.
Definition crlf : list Z := [cr; lf].

(** ** Requests *)

Definition REQUEST_BUF : Z := 2048 + 64.

(** [strcat] into the request buffer; [None] when it does not fit with the
    NUL. *)
Definition strcat (dst : option (list Z)) (s : list Z) : option (list Z) :=
  match dst with
  | None => None
  | Some dst => if zlen (dst ++ s) <? REQUEST_BUF then Some (dst ++ s) else None
  end.

Fixpoint fill_args (dst : option (list Z)) (args : list (list Z * list Z)) : option (list Z) :=
  match args with
  | [] => dst
  | (name, value) :: args =>
      let dst := strcat dst (str "&") in
      let dst := strcat dst name in
      let dst := strcat dst (str "=") in
      let dst := strcat dst value in
      fill_args dst args
  end.

(** The bytes that go into the [kvec]. *)
Definition fill_request (token method : list Z) (args : list (list Z * list Z)) : option (list Z) :=
  let dst := strcat (Some []) (str "GET /api/") in
  let dst := strcat dst method in
  let dst := strcat dst (str "?token=") in
  let dst := strcat dst token in
  let dst := fill_args dst args in
  let dst := strcat dst (str " HTTP/1.1" ++ crlf ++ str "Host:") in
  let dst := strcat dst SERVER_IP in
  strcat dst (crlf ++ str "Connection: close" ++ crlf ++ crlf).

(** ** The response *)

(** What a [kernel_recvmsg] does: an error, or the bytes it stores; no bytes
    when the connection is closed. *)
Inductive recv := RErr | RBytes (l : list Z).

(** The bytes received: at most [size]. The calls after the end of the list
    return 0. *)
Fixpoint receive_loop (l : list recv) (size : Z) (acc : list Z) : option (list Z) :=
  if zlen acc <? size then
    match l with
    | [] => Some acc
    | RErr :: _ => None
    | RBytes bs :: l =>
        let bs := take (Z.to_nat (size - zlen acc)) bs in
        match bs with
        | [] => Some acc
        | _ => receive_loop l size (acc ++ bs)
        end
    end
  else Some acc.

(** [None] is the result -4. *)
Definition receive_all (l : list recv) (size : Z) : option (list Z) := receive_loop l size [].

Section Parse.
Context (raw_addr : Z) (kstrtoint : list Z -> option Z).

Definition rdb (buf : list Z) (a : Z) : option Z :=
  if raw_addr <=? a then buf !! Z.to_nat (a - raw_addr) else None.
Definition wrb (buf : list Z) (a v : Z) : list Z := <[Z.to_nat (a - raw_addr) := v]> buf.

(** The address of the first [d] or NUL from [a] on, and whether it is [d]. *)
Fixpoint find_sep (k : nat) (buf : list Z) (a d : Z) : option (Z * bool) :=
  match rdb buf a with
  | None => None
  | Some c =>
      if c =? 0 then Some (a, false)
      else if c =? d then Some (a, true)
      else match k with O => None | S k => find_sep k buf (a + 1) d end
  end.

(** [strsep(&s, d)] for a pointer [s] that is not null: the new [s] and the
    buffer; the token is at the old [s]. *)
Definition strsep (buf : list Z) (s d : Z) : option (Z * list Z) :=
  match find_sep (length buf) buf s d with
  | None => None
  | Some (a, true) => Some (a + 1, wrb buf a 0)
  | Some (_, false) => Some (0, buf)
  end.

(** [strncmp] of the string at [a] with [lit] on at most [length lit]
    characters; with its NUL in [lit] it is [strcmp]. *)
Fixpoint eq_at (buf : list Z) (a : Z) (lit : list Z) : option bool :=
  match lit with
  | [] => Some true
  | c :: lit =>
      match rdb buf a with
      | None => None
      | Some x => if negb (x =? c) then Some false else eq_at buf (a + 1) lit
      end
  end.

(** The string at [a]. *)
Fixpoint string_at (k : nat) (buf : list Z) (a : Z) : option (list Z) :=
  match rdb buf a with
  | None => None
  | Some c =>
      if c =? 0 then Some []
      else match k with
           | O => None
           | S k => option_map (cons c) (string_at k buf (a + 1))
           end
  end.

(** [n] bytes from [a] on. *)
Fixpoint read_bytes (n : nat) (buf : list Z) (a : Z) : option (list Z) :=
  match n with
  | O => Some []
  | S n =>
      match rdb buf a with
      | None => None
      | Some c => option_map (cons c) (read_bytes n buf (a + 1))
      end
  end.

Definition content_length : list Z := str "Content-Length: ".

(** The loop over the headers: [inl] the value returned, or [buffer], the
    buffer and [length]. Each round takes a character at least. *)
Fixpoint headers (k : nat) (buf : list Z) (buffer length : Z) : option (Z + Z * list Z * Z) :=
  if buffer =? 0 then Some (inl (-6))
  else
    match k with
    | O => None
    | S k =>
        match strsep buf buffer cr with
        | None => None
        | Some (buffer', buf) =>
            let header := buffer + 1 in
            match eq_at buf header [0] with
            | None => None
            | Some true => Some (inr (buffer', buf, length))
            | Some false =>
                match eq_at buf header content_length with
                | None => None
                | Some false => headers k buf buffer' length
                | Some true =>
                    match string_at (List.length buf) buf (header + 16) with
                    | None => None
                    | Some digits =>
                        match kstrtoint digits with
                        | None => Some (inl (-6))
                        | Some n => headers k buf buffer' n
                        end
                    end
                end
            end
        end
    end.

(** After the headers: the value returned and the bytes put into [response]. *)
Definition response_body (buf : list Z) (buffer length raw_size response_size : Z)
    : option (Z * list Z) :=
  if length =? -1 then Some (-6, [])
  else if raw_addr + raw_size <? buffer + length then Some (-6, [])
  else if u64 length <? 8 then Some (-7, [])
  else
    let length := s32 (length - 8) in
    if response_size <? u64 length then Some (- ENOSPC, [])
    else
      match read_bytes 8 buf buffer with
      | None => None
      | Some v =>
          match read_bytes (Z.to_nat length) buf (buffer + 8) with
          | None => None
          | Some bytes => Some (s64 (getn 8 v 0), bytes)
          end
      end.

(** The first line: [inl] the value returned, or [buffer] and the buffer. *)
Definition status_line (buf : list Z) : option (Z + Z * list Z) :=
  match strsep buf raw_addr cr with
  | None => None
  | Some (buffer, buf) =>
      match strsep buf raw_addr 32 with
      | None => None
      | Some (line, buf) =>
          if line =? 0 then Some (inl (-6))
          else
            match strsep buf line 32 with
            | None => None
            | Some (_, buf) =>
                match eq_at buf line (str "200" ++ [0]) with
                | None => None
                | Some false => Some (inl (-5))
                | Some true => Some (inr (buffer, buf))
                end
            end
      end
  end.

(** [buf] is the memory of the response, of which [raw_size] bytes were
    received. *)
Definition parse_http_response (buf : list Z) (raw_size response_size : Z) : option (Z * list Z) :=
  match status_line buf with
  | None => None
  | Some (inl v) => Some (v, [])
  | Some (inr (buffer, buf)) =>
      match headers (S (List.length buf)) buf buffer (-1) with
      | None => None
      | Some (inl v) => Some (v, [])
      | Some (inr (buffer, buf, length)) =>
          response_body buf (buffer + 1) length raw_size response_size
      end
  end.

(** ** The call *)

(** The results of the kernel routines that a call uses, and what the memory
    of the response buffer holds before. *)
Record net := mknet {
  n_create : Z;
  n_connect : Z;
  n_kzalloc : bool;
  n_send : Z;
  n_kmalloc : bool;
  n_recv : list recv;
  n_memory : list Z;
}.

(** What a call does to the resources. *)
Inductive hev := Create | Release | Shutdown | Send (l : list Z) | AllocReq | FreeReq | AllocRaw | FreeRaw.

#[export] Instance hev_eq_dec : EqDecision hev.
Proof. solve_decision. Defined.

(** The value, the bytes of the response and the events; [None] when the
    kernel's memory is accessed outside of a buffer. *)
Definition vtfs_http_call (w : net) (token method : list Z) (buffer_size : Z)
    (args : list (list Z * list Z)) : option (Z * list Z * list hev) :=
  if n_create w <? 0 then Some (-1, [], [])
  else if negb (n_connect w =? 0) then Some (-2, [], [Create; Release])
  else if negb (n_kzalloc w) then Some (- ENOMEM, [], [Create; Shutdown; Release])
  else
    match fill_request token method args with
    | None => None
    | Some req =>
        let ev := [Create; AllocReq; Send req; FreeReq] in
        if n_send w <? 0 then Some (-3, [], ev ++ [Shutdown; Release])
        else
          let raw_buffer_size := buffer_size + 1024 in
          if negb (n_kmalloc w) then Some (- ENOMEM, [], ev ++ [Shutdown; Release])
          else
            match receive_all (n_recv w) raw_buffer_size with
            | None => Some (-4, [], ev ++ [AllocRaw; Shutdown; Release; FreeRaw])
            | Some bytes =>
                let buf := bytes ++ drop (length bytes) (n_memory w) in
                match parse_http_response buf (zlen bytes) buffer_size with
                | None => None
                | Some (v, resp) => Some (v, resp, ev ++ [AllocRaw; Shutdown; Release; FreeRaw])
                end
            end
    end.
End Parse.

(** ** Percent encoding *)

Definition is_alnum (c : Z) : bool :=
  ((ch "0" <=? c) && (c <=? ch "9")) || ((ch "a" <=? c) && (c <=? ch "z")) ||
  ((ch "A" <=? c) && (c <=? ch "Z")).

Definition hex_upper : list Z := str "0123456789ABCDEF".
Definition hex_digit (d : Z) : Z := nth (Z.to_nat d) hex_upper 0.

(** The bytes are unsigned here; [%02X] prints two digits. *)
Fixpoint encode (src : list Z) : list Z :=
  match src with
  | [] => []
  | c :: src =>
      if is_alnum c then c :: encode src
      else ch "%" :: hex_digit (c / 16) :: hex_digit (c mod 16) :: encode src
  end.

(** ** The module *)

(** [pr_info] with the name of the module; the log is a list of messages. *)
Definition LOG (msg : list Z) (log : list (list Z)) : list (list Z) := log ++ [str "[vtfs]: " ++ msg].

Definition vtfs_init (log : list (list Z)) : Z * list (list Z) := (0, LOG (str "VTFS joined the kernel" ++ [lf]) log).
Definition vtfs_exit (log : list (list Z)) : list (list Z) := LOG (str "VTFS left the kernel" ++ [lf]) log.
