(* ===== verification/HttpSpec.v ===== *)
(** * Correctness of the HTTP client *)
From S2P Require Import Prelude CString Blocks Printf Http.

(** ** Percent encoding *)

Definition hex_value (c : Z) : option Z :=
  if (ch "0" <=? c) && (c <=? ch "9") then Some (c - ch "0")
  else if (ch "A" <=? c) && (c <=? ch "F") then Some (c - ch "A" + 10)
  else None.

(** The decoder of percent encoding that a server uses. *)
Fixpoint decode (l : list Z) : option (list Z) :=
  match l with
  | [] => Some []
  | c :: l' =>
      if c =? ch "%" then
        match l' with
        | a :: b :: l'' =>
            match hex_value a, hex_value b, decode l'' with
            | Some x, Some y, Some r => Some (16 * x + y :: r)
            | _, _, _ => None
            end
        | _ => None
        end
      else option_map (cons c) (decode l')
  end.

(** Characters that mean nothing special in a URL, and the percent sign. *)
Definition url_safe (c : Z) : Prop := is_alnum c = true \/ c = ch "%".

Lemma hex_digit_value d : 0 <= d < 16 -> hex_value (hex_digit d) = Some d /\ is_alnum (hex_digit d) = true.
Proof.
  intros Hd. assert (Hn : (Z.to_nat d < 16)%nat) by lia. rewrite <-(Z2Nat.id d) at 2 by lia.
  unfold hex_digit. revert Hn. generalize (Z.to_nat d). intros n Hn.
  do 16 (destruct n as [|n]; [by vm_compute|]). lia.
Qed.

Lemma alnum_not_percent c : is_alnum c = true -> (c =? ch "%") = false.
Proof. intros H. apply Z.eqb_neq. intros ->. vm_compute in H. done. Qed.

(** Percent encoding is reversible and safe in a URL: decoding what
    [encode] produces for a string gives the string back, the output has only
    letters, digits and percent signs, and it is at most three times as
    long. *)
Theorem encode_roundtrip (s : list Z) :
  Forall (fun c => 0 <= c < 256) s ->
  decode (encode s) = Some s /\ Forall url_safe (encode s) /\ zlen (encode s) <= 3 * zlen s.
Proof.
  induction s as [|c s IH]; intros Hs; [unfold zlen; cbn; split_and!; [done|constructor|lia]|].
  inversion Hs as [|? ? Hc Hs']; subst. destruct (IH Hs') as (H1 & H2 & H3). cbn [encode].
  destruct (is_alnum c) eqn:Ha.
  - split_and!; [|by constructor; [left|]|rewrite !zlen_cons; unfold zlen in *; lia].
    cbn [decode]. by rewrite alnum_not_percent, H1.
  - pose proof (hex_digit_value (c / 16) ltac:(divlia)) as [Ha1 Ha2].
    pose proof (hex_digit_value (c mod 16) ltac:(divlia)) as [Hb1 Hb2]. split_and!.
    + cbn [decode]. rewrite Z.eqb_refl, Ha1, Hb1, H1. by rewrite <-Z_div_mod_eq_full.
    + constructor; [by right|]. constructor; [by left|]. constructor; [by left|]. done.
    + rewrite !zlen_cons. unfold zlen in *. lia.
Qed.

Lemma encode_roundtrip_witness :
  decode (encode (str "a b%")) = Some (str "a b%") /\ Forall url_safe (encode (str "a b%")) /\
  zlen (encode (str "a b%")) <= 3 * zlen (str "a b%").
Proof. apply (encode_roundtrip (str "a b%")). repeat constructor; discriminate. Defined.

(** ** Resources *)

Definition times (e : hev) (l : list hev) : nat := length (filter (fun x => x = e) l).

(** What a caller can count on about a finished call. *)
Definition balanced (l : list hev) : Prop :=
  times Create l = times Release l /\ times AllocReq l = times FreeReq l /\
  times AllocRaw l = times FreeRaw l /\ (times Release l <= 1)%nat /\ (times FreeReq l <= 1)%nat /\
  (times FreeRaw l <= 1)%nat.

Lemma read_bytes_length addr n buf a l : read_bytes addr n buf a = Some l -> length l = n.
Proof.
  revert a l. induction n as [|n IH]; intros a l; cbn [read_bytes]; [by intros [= <-]|].
  destruct (rdb addr buf a); [|done]. destruct (read_bytes addr n buf (a + 1)) eqn:Hr; [|done].
  cbn. intros [= <-]. cbn. f_equal. eauto.
Qed.

Lemma response_body_fits addr buf b len raw size v bytes :
  0 <= size -> response_body addr buf b len raw size = Some (v, bytes) -> zlen bytes <= size.
Proof.
  intros Hs. unfold response_body.
  destruct (len =? -1); [intros [= <- <-]; done|]. destruct (_ <? _); [intros [= <- <-]; done|].
  destruct (u64 len <? 8); [intros [= <- <-]; done|].
  destruct (size <? u64 (s32 (len - 8))) eqn:Hsz; [intros [= <- <-]; done|].
  destruct (read_bytes addr 8 buf b); [|done].
  destruct (read_bytes addr (Z.to_nat (s32 (len - 8))) buf (b + 8)) eqn:Hr; [|done]. intros [= <- <-].
  apply read_bytes_length in Hr. unfold zlen. rewrite Hr.
  pose proof (s32_range (len - 8)). destruct (decide (0 <= s32 (len - 8))).
  - rewrite u64_small in Hsz by lia. lia.
  - lia.
Qed.

(** The events of a path, counted. *)
Ltac count_events := unfold balanced; split_and!; vm_compute; lia || done.


Definition net_example : net := mknet 0 0 true 1 true [] (replicate 1030 0).


(** ** Parsing a response *)

Section Parse.
Context (addr : Z) (Haddr : 0 < addr) (kstrtoint : list Z -> option Z).

Definition no_char (d : Z) (l : list Z) : Prop := Forall (fun c => c <> d) l.

Lemma rdb_app pre x post : rdb addr (pre ++ x :: post) (addr + zlen pre) = Some x.
Proof.
  unfold rdb, zlen. destruct (Z.leb_spec addr (addr + Z.of_nat (length pre))); [|lia].
  replace (Z.to_nat (addr + Z.of_nat (length pre) - addr)) with (length pre) by lia.
  by rewrite lookup_app_r, Nat.sub_diag by lia.
Qed.

Lemma addr_not_null l : (addr + zlen l =? 0) = false.
Proof. apply Z.eqb_neq. unfold zlen. lia. Qed.

Lemma wrb_app pre x post v : wrb addr (pre ++ x :: post) (addr + zlen pre) v = pre ++ v :: post.
Proof.
  unfold wrb, zlen. replace (Z.to_nat (addr + Z.of_nat (length pre) - addr)) with (length pre) by lia.
  by rewrite insert_app_r_alt, Nat.sub_diag by lia.
Qed.

Lemma find_sep_app k pre tok d post :
  no_char d tok -> no_char 0 tok -> d <> 0 -> (length tok <= k)%nat ->
  find_sep addr k (pre ++ tok ++ d :: post) (addr + zlen pre) d = Some (addr + zlen pre + zlen tok, true).
Proof.
  revert pre k. induction tok as [|c tok IH]; intros pre k H1 H2 Hd Hk.
  - cbn [app]. destruct k; cbn [find_sep]; rewrite rdb_app;
      (replace (d =? 0) with false by lia); rewrite Z.eqb_refl; unfold zlen; cbn; f_equal; f_equal; lia.
  - inversion H1; inversion H2; subst. destruct k as [|k]; [cbn in Hk; lia|].
    cbn [find_sep app]. rewrite rdb_app. replace (c =? 0) with false by lia. replace (c =? d) with false by lia.
    replace (pre ++ c :: tok ++ d :: post) with ((pre ++ [c]) ++ tok ++ d :: post) by (by rewrite <-app_assoc).
    replace (addr + zlen pre + 1) with (addr + zlen (pre ++ [c])) by (rewrite zlen_app; unfold zlen; cbn; lia).
    rewrite IH by (done || (cbn in Hk; lia)). rewrite zlen_app, !zlen_cons. unfold zlen at 2. cbn. f_equal. f_equal. lia.
Qed.

(** [strsep] cuts the token off. *)
Lemma strsep_app pre tok d post :
  no_char d tok -> no_char 0 tok -> d <> 0 ->
  strsep addr (pre ++ tok ++ d :: post) (addr + zlen pre) d =
  Some (addr + zlen (pre ++ tok) + 1, pre ++ tok ++ 0 :: post).
Proof.
  intros H1 H2 Hd. unfold strsep. rewrite find_sep_app; [|done..|rewrite !length_app; lia].
  rewrite zlen_app, Z.add_assoc. f_equal. f_equal.
  rewrite <-Z.add_assoc, <-zlen_app, (app_assoc pre tok), wrb_app. by rewrite <-app_assoc.
Qed.

Lemma eq_at_app pre l post : eq_at addr (pre ++ l ++ post) (addr + zlen pre) l = Some true.
Proof.
  revert pre. induction l as [|c l IH]; intros pre; [done|]. cbn [eq_at app]. rewrite rdb_app, Z.eqb_refl.
  cbn [negb]. replace (pre ++ c :: l ++ post) with ((pre ++ [c]) ++ l ++ post) by (by rewrite <-app_assoc).
  replace (addr + zlen pre + 1) with (addr + zlen (pre ++ [c])) by (rewrite zlen_app; unfold zlen; cbn; lia).
  apply IH.
Qed.

(** A string that does not start with [lit] is told apart from it. *)
Lemma eq_at_ne pre l post lit :
  no_char 0 lit -> take (length lit) l <> lit -> no_char 0 l ->
  eq_at addr (pre ++ l ++ 0 :: post) (addr + zlen pre) lit = Some false.
Proof.
  revert pre l. induction lit as [|c lit IH]; intros pre l Hlit Hne Hl; [by destruct l|].
  inversion Hlit; subst. cbn [eq_at]. destruct l as [|x l].
  - cbn [app]. rewrite rdb_app. replace (0 =? c) with false by lia. done.
  - cbn [app]. rewrite rdb_app. destruct (Z.eqb_spec x c) as [->|]; [|done]. cbn [negb]. inversion Hl; subst.
    replace (pre ++ c :: l ++ 0 :: post) with ((pre ++ [c]) ++ l ++ 0 :: post) by (by rewrite <-app_assoc).
    replace (addr + zlen pre + 1) with (addr + zlen (pre ++ [c])) by (rewrite zlen_app; unfold zlen; cbn; lia).
    apply IH; [done| |done]. intros Heq. apply Hne. cbn. by rewrite Heq.
Qed.

Lemma string_at_app k pre l post :
  no_char 0 l -> (length l <= k)%nat -> string_at addr k (pre ++ l ++ 0 :: post) (addr + zlen pre) = Some l.
Proof.
  revert pre k. induction l as [|c l IH]; intros pre k Hl Hk.
  - cbn [app]. destruct k; cbn [string_at]; by rewrite rdb_app.
  - inversion Hl; subst. destruct k as [|k]; [cbn in Hk; lia|]. cbn [string_at app]. rewrite rdb_app.
    replace (c =? 0) with false by lia.
    replace (pre ++ c :: l ++ 0 :: post) with ((pre ++ [c]) ++ l ++ 0 :: post) by (by rewrite <-app_assoc).
    replace (addr + zlen pre + 1) with (addr + zlen (pre ++ [c])) by (rewrite zlen_app; unfold zlen; cbn; lia).
    rewrite IH by (done || (cbn in Hk; lia)). done.
Qed.

Lemma read_bytes_app pre l post : read_bytes addr (length l) (pre ++ l ++ post) (addr + zlen pre) = Some l.
Proof.
  revert pre. induction l as [|c l IH]; intros pre; [done|]. cbn [read_bytes length app]. rewrite rdb_app.
  replace (pre ++ c :: l ++ post) with ((pre ++ [c]) ++ l ++ post) by (by rewrite <-app_assoc).
  replace (addr + zlen pre + 1) with (addr + zlen (pre ++ [c])) by (rewrite zlen_app; unfold zlen; cbn; lia).
  by rewrite IH.
Qed.

(** The headers of a response and what follows them, from the newline after
    the status line on. *)
Fixpoint header_text (hs : list (list Z)) (tail : list Z) : list Z :=
  match hs with
  | [] => lf :: cr :: tail
  | h :: hs => lf :: h ++ cr :: header_text hs tail
  end.

(** The content length that the headers give: the last one counts. *)
Fixpoint header_length (hs : list (list Z)) (len : Z) : option Z :=
  match hs with
  | [] => Some len
  | h :: hs =>
      if decide (take 16 h = content_length) then
        match kstrtoint (drop 16 h) with
        | None => None
        | Some n => header_length hs n
        end
      else header_length hs len
  end.

Definition header_ok (h : list Z) : Prop := no_char cr h /\ no_char 0 h /\ h <> [].

Lemma eq_at_nul pre c post : c <> 0 -> eq_at addr (pre ++ c :: post) (addr + zlen pre) [0] = Some false.
Proof. intros Hc. cbn [eq_at]. rewrite rdb_app. by replace (c =? 0) with false by lia. Qed.

Lemma no_char_app d a b : no_char d (a ++ b) <-> no_char d a /\ no_char d b.
Proof. apply Forall_app. Qed.

(** One round of the loop over the headers. *)
Lemma header_round k pre h rest len :
  header_ok h ->
  let pre' := pre ++ lf :: h ++ [0] in
  headers addr kstrtoint (S k) (pre ++ lf :: h ++ cr :: rest) (addr + zlen pre) len =
  if decide (take 16 h = content_length) then
    match kstrtoint (drop 16 h) with
    | None => Some (inl (-6))
    | Some n => headers addr kstrtoint k (pre' ++ rest) (addr + zlen pre') n
    end
  else headers addr kstrtoint k (pre' ++ rest) (addr + zlen pre') len.
Proof.
  intros (H1 & H2 & H3) pre'. cbn [headers].
  rewrite addr_not_null.
  change (lf :: h ++ cr :: rest) with ((lf :: h) ++ cr :: rest).
  rewrite (strsep_app pre (lf :: h) cr rest); [|by constructor|by constructor|done].
  assert (Hpre : addr + zlen (pre ++ lf :: h) + 1 = addr + zlen pre').
  { subst pre'. rewrite !zlen_app, !zlen_cons, !zlen_app. unfold zlen. cbn. lia. }
  rewrite Hpre. set (q := pre ++ [lf]).
  assert (Hbuf : pre ++ (lf :: h) ++ 0 :: rest = q ++ h ++ 0 :: rest) by (subst q; by rewrite <-!app_assoc).
  assert (Hq : addr + zlen pre + 1 = addr + zlen q) by (subst q; rewrite zlen_app; unfold zlen; cbn; lia).
  assert (Hbuf' : q ++ h ++ 0 :: rest = pre' ++ rest) by (subst pre' q; cbn; by rewrite <-!app_assoc; cbn; rewrite <-app_assoc).
  rewrite Hbuf, Hq. destruct h as [|c h]; [done|]. inversion H2; subst.
  change ((c :: h) ++ 0 :: rest) with (c :: h ++ 0 :: rest) at 1. rewrite eq_at_nul by done.
  change (c :: h ++ 0 :: rest) with ((c :: h) ++ 0 :: rest).
  destruct (decide (take 16 (c :: h) = content_length)) as [Ht|Ht].
  - assert (Hch : c :: h = content_length ++ drop 16 (c :: h)) by (by rewrite <-Ht, take_drop).
    assert (E1 : eq_at addr (q ++ (c :: h) ++ 0 :: rest) (addr + zlen q) content_length = Some true).
    { rewrite Hch, <-app_assoc. apply eq_at_app. }
    assert (E2 : string_at addr (length (q ++ (c :: h) ++ 0 :: rest)) (q ++ (c :: h) ++ 0 :: rest)
      (addr + zlen q + 16) = Some (drop 16 (c :: h))).
    { remember (length (q ++ (c :: h) ++ 0 :: rest)) as k' eqn:Hk'.
      rewrite Hch at 1. rewrite <-app_assoc, app_assoc.
      replace (addr + zlen q + 16) with (addr + zlen (q ++ content_length)) by (rewrite zlen_app; unfold zlen; cbn; lia).
      apply string_at_app; [by apply Forall_drop|]. rewrite length_drop, Hk', !length_app. lia. }
    rewrite E1, E2. destruct (kstrtoint _); [|done]. by rewrite Hbuf'.
  - rewrite eq_at_ne; [|by repeat constructor|done|by constructor]. by rewrite Hbuf'.
Qed.

Lemma headers_spec k pre hs tail len len' :
  Forall header_ok hs -> (length hs < k)%nat -> header_length hs len = Some len' ->
  exists pre', zlen pre' = zlen pre + zlen (header_text hs tail) - zlen tail /\
    headers addr kstrtoint k (pre ++ header_text hs tail) (addr + zlen pre) len =
    Some (inr (addr + zlen pre', pre' ++ tail, len')).
Proof.
  revert k pre len. induction hs as [|h hs IH]; intros k pre len Hok Hk Hlen; (destruct k as [|k]; [cbn in Hk; lia|]).
  - cbn [header_length header_text] in *. injection Hlen as <-. cbn [headers].
    rewrite addr_not_null.
    pose proof (strsep_app pre [lf] cr tail) as Hs. cbn [app] in Hs. rewrite Hs by (done || by repeat constructor).
    exists (pre ++ [lf; 0]).
    replace (addr + zlen pre + 1) with (addr + zlen (pre ++ [lf])) by (rewrite zlen_app; unfold zlen; cbn; lia).
    replace (pre ++ lf :: 0 :: tail) with ((pre ++ [lf]) ++ [0] ++ tail) by (by rewrite <-app_assoc).
    rewrite eq_at_app. split; [rewrite zlen_app, !zlen_cons; unfold zlen; cbn; lia|].
    rewrite !zlen_app. change (zlen [lf; 0]) with 2. change (zlen [lf]) with 1.
    rewrite <-!app_assoc. cbn [app]. do 4 f_equal. lia.
  - inversion Hok as [|? ? Hh Hhs]; subst. cbn [header_text length] in *.
    pose proof (header_round k pre h (header_text hs tail) len Hh) as Hr. cbn zeta in Hr. rewrite Hr.
    cbn [header_length] in Hlen. set (pre1 := pre ++ lf :: h ++ [0]).
    assert (Hz : zlen pre1 = zlen pre + zlen h + 2).
    { subst pre1. rewrite zlen_app, zlen_cons, zlen_app. unfold zlen. cbn. lia. }
    assert (Hgo : forall l, header_length hs l = Some len' ->
      exists pre', zlen pre' = zlen pre + zlen (lf :: h ++ cr :: header_text hs tail) - zlen tail /\
        headers addr kstrtoint k (pre1 ++ header_text hs tail) (addr + zlen pre1) l =
        Some (inr (addr + zlen pre', pre' ++ tail, len'))).
    { intros l Hl. destruct (IH k pre1 l Hhs ltac:(lia) Hl) as (pre' & H1 & H2).
      exists pre'. split; [|done]. rewrite zlen_cons, zlen_app, zlen_cons. lia. }
    destruct (decide _); [|by apply Hgo]. destruct (kstrtoint _); [|done]. by apply Hgo.
Qed.

(** The status line of a response with code 200. *)
Definition status200 (ver reason : list Z) : list Z := ver ++ 32 :: str "200" ++ 32 :: reason.

Definition response (ver reason : list Z) (hs : list (list Z)) (body : list Z) : list Z :=
  status200 ver reason ++ cr :: header_text hs (lf :: body).

Lemma status_line_spec ver reason rest :
  no_char cr ver -> no_char 0 ver -> no_char 32 ver -> no_char cr reason -> no_char 0 reason ->
  let pre := ver ++ 0 :: str "200" ++ 0 :: reason ++ [0] in
  status_line addr (status200 ver reason ++ cr :: rest) = Some (inr (addr + zlen pre, pre ++ rest)).
Proof.
  intros H1 H2 H3 H4 H5 pre. unfold status_line.
  assert (Hst : no_char cr (status200 ver reason) /\ no_char 0 (status200 ver reason)).
  { unfold status200. rewrite !no_char_app. split; (split; [done|]); repeat (constructor; [done|]); done. }
  pose proof (strsep_app [] (status200 ver reason) cr rest) as Hs. cbn [app] in Hs.
  change (zlen []) with 0 in Hs. rewrite Z.add_0_r in Hs. rewrite Hs by (tauto || done). clear Hs.
  assert (Hb : status200 ver reason ++ 0 :: rest = ver ++ 32 :: (str "200" ++ 32 :: reason) ++ 0 :: rest)
    by (unfold status200; by rewrite <-app_assoc).
  rewrite Hb. clear Hb.
  pose proof (strsep_app [] ver 32 ((str "200" ++ 32 :: reason) ++ 0 :: rest)) as Hs. cbn [app] in Hs.
  change (zlen []) with 0 in Hs. rewrite Z.add_0_r in Hs. rewrite Hs by done. clear Hs.
  replace (addr + zlen ver + 1) with (addr + zlen (ver ++ [0])) by (rewrite zlen_app; unfold zlen; cbn; lia).
  rewrite addr_not_null.
  replace (ver ++ 0 :: (str "200" ++ 32 :: reason) ++ 0 :: rest)
    with ((ver ++ [0]) ++ str "200" ++ 32 :: reason ++ 0 :: rest) by (by rewrite <-!app_assoc).
  rewrite (strsep_app (ver ++ [0]) (str "200") 32) by (done || by repeat constructor).
  replace (str "200" ++ 0 :: reason ++ 0 :: rest) with ((str "200" ++ [0]) ++ reason ++ 0 :: rest)
    by (by rewrite <-app_assoc).
  rewrite eq_at_app. subst pre. f_equal. f_equal. f_equal.
  - unfold status200. rewrite !zlen_app, !zlen_cons, !zlen_app, !zlen_cons, !zlen_app. unfold zlen. cbn. lia.
  - rewrite <-!app_assoc. cbn. by rewrite <-app_assoc.
Qed.

Lemma header_text_length hs tail : (length hs <= length (header_text hs tail))%nat.
Proof. induction hs as [|h hs IH]; cbn; [lia|]. rewrite length_app. cbn. lia. Qed.

Lemma header_text_zlen hs t : zlen (header_text hs t) = zlen (header_text hs []) + zlen t.
Proof.
  induction hs as [|h hs IH]; cbn [header_text]; [rewrite !zlen_cons; unfold zlen; cbn; lia|].
  rewrite !zlen_cons, !zlen_app, !zlen_cons. lia.
Qed.

Lemma body_spec pre v8 payload extra len raw size :
  length v8 = 8%nat -> len = 8 + zlen payload -> len < 2 ^ 31 -> zlen payload <= size ->
  zlen pre + len <= raw ->
  response_body addr (pre ++ v8 ++ payload ++ extra) (addr + zlen pre) len raw size =
  Some (s64 (getn 8 v8 0), payload).
Proof.
  intros Hv -> Hlen Hsize Hraw. unfold response_body. assert (Hp : 0 <= zlen payload) by (unfold zlen; lia).
  destruct (Z.eqb_spec (8 + zlen payload) (-1)); [lia|].
  destruct (Z.ltb_spec (addr + raw) (addr + zlen pre + (8 + zlen payload))); [lia|].
  rewrite (u64_small (8 + _)) by lia. destruct (Z.ltb_spec (8 + zlen payload) 8); [lia|].
  rewrite s32_small by lia. replace (8 + zlen payload - 8) with (zlen payload) by lia.
  rewrite u64_small by lia. destruct (Z.ltb_spec size (zlen payload)); [lia|].
  rewrite <-Hv at 1. rewrite read_bytes_app, app_assoc.
  replace (addr + zlen pre + 8) with (addr + zlen (pre ++ v8)) by (rewrite zlen_app; unfold zlen; lia).
  replace (Z.to_nat (zlen payload)) with (length payload) by (unfold zlen; lia).
  by rewrite read_bytes_app.
Qed.
End Parse.

(** C37. A complete response is parsed right: for a response with status 200,
    well-formed headers whose content length is [8 + n], and a body of eight
    bytes for the value and [n] bytes that fit the caller's buffer, the parser
    returns the value and those [n] bytes, whatever the memory after the
    response holds; [kstrtoint] is only asked for the number in the header. *)
Theorem parse_response_correct (addr : Z) (kstrtoint : list Z -> option Z) (ver reason : list Z)
    (hs : list (list Z)) (v8 payload extra after : list Z) (size : Z) :
  0 < addr ->
  no_char cr ver -> no_char 0 ver -> no_char 32 ver -> no_char cr reason -> no_char 0 reason ->
  Forall header_ok hs -> header_length kstrtoint hs (-1) = Some (8 + zlen payload) ->
  length v8 = 8%nat -> 8 + zlen payload < 2 ^ 31 -> zlen payload <= size ->
  let r := response ver reason hs (v8 ++ payload ++ extra) in
  parse_http_response addr kstrtoint (r ++ after) (zlen r) size = Some (s64 (getn 8 v8 0), payload).
Proof.
  intros Haddr H1 H2 H3 H4 H5 Hhs Hlen Hv Hsmall Hsize r. unfold parse_http_response.
  set (tail := lf :: v8 ++ payload ++ extra).
  assert (Hr : forall l, header_text hs tail ++ l = header_text hs (tail ++ l)).
  { intros l. clear. induction hs as [|h hs IH]; cbn; [done|]. by rewrite <-app_assoc; cbn; rewrite IH. }
  assert (Hbuf : r ++ after = status200 ver reason ++ cr :: header_text hs (tail ++ after)).
  { subst r. unfold response. rewrite <-app_assoc. cbn. by rewrite Hr. }
  rewrite Hbuf, (status_line_spec addr Haddr) by done. cbn zeta.
  set (pre := ver ++ 0 :: str "200" ++ 0 :: reason ++ [0]).
  destruct (headers_spec addr Haddr kstrtoint (S (length (pre ++ header_text hs (tail ++ after)))) pre hs
    (tail ++ after) (-1) (8 + zlen payload)) as (pre' & Hz & Hh); [done| |done|].
  { rewrite length_app. pose proof (header_text_length hs (tail ++ after)). lia. }
  rewrite Hh. subst tail. cbn [app]. rewrite <-!app_assoc.
  replace (pre' ++ lf :: v8 ++ payload ++ extra ++ after)
    with ((pre' ++ [lf]) ++ v8 ++ payload ++ extra ++ after) by (by rewrite <-app_assoc).
  replace (addr + zlen pre' + 1) with (addr + zlen (pre' ++ [lf])) by (rewrite zlen_app; unfold zlen; cbn; lia).
  apply (body_spec addr); [done..|].
  rewrite zlen_app, Hz, (header_text_zlen _ (_ ++ after)). subst r pre. unfold response, status200.
  assert (0 <= zlen extra) by (unfold zlen; lia). assert (Hv8 : zlen v8 = 8) by (unfold zlen; lia).
  rewrite !zlen_app, !zlen_cons, (header_text_zlen _ (lf :: _)), !zlen_app, !zlen_cons, !zlen_app.
  change (zlen [0]) with 1. change (zlen (@nil Z)) with 0. lia.
Qed.

(** A [kstrtoint] that knows two numbers. *)
Definition kstrtoint_example (l : list Z) : option Z :=
  if decide (l = str "10") then Some 10 else if decide (l = str "8") then Some 8 else None.

Lemma parse_response_correct_witness :
  parse_http_response 4096 kstrtoint_example
    (response (str "HTTP/1.1") (str "OK") [str "Content-Length: 10"; str "X: y"]
       ([5; 0; 0; 0; 0; 0; 0; 0] ++ str "hi" ++ []) ++ [7; 7])
    (zlen (response (str "HTTP/1.1") (str "OK") [str "Content-Length: 10"; str "X: y"]
       ([5; 0; 0; 0; 0; 0; 0; 0] ++ str "hi" ++ []))) 2 = Some (5, str "hi").
Proof.
  apply (parse_response_correct 4096 kstrtoint_example (str "HTTP/1.1") (str "OK")
    [str "Content-Length: 10"; str "X: y"] [5; 0; 0; 0; 0; 0; 0; 0] (str "hi") [] [7; 7] 2);
    try done; try (repeat constructor; discriminate).
Defined.

(** A response that ends after its headers, without the empty line, makes the
    parser step the null pointer and read the value from address 1. *)
Lemma truncated_response_faults :
  let r := str "HTTP/1.1 200 OK" ++ crlf ++ str "Content-Length: 8" ++ crlf in
  parse_http_response 0xffff888000000000 kstrtoint_example (r ++ replicate 100 0) (zlen r) 100 = None.
Proof. vm_compute. reflexivity. Qed.
