(* ===== verification/User.v ===== *)
(** * User programs and their library

    Models [src/xv6-os/user/ulib.c] and [user/printf.c]. A program is a tree
    of system calls: it returns, calls the kernel and goes on with the answer,
    exits, does something that is undefined in C, or runs out of the model's
    fuel. The system calls are those of [user.h]. *)
From S2P Require Import Prelude CString Blocks Printf.

(** ** Programs *)

(** [struct stat] as a program sees it. *)
Record ustat := mkustat {
  us_dev : Z;
  us_ino : Z;
  us_type : Z;
  us_nlink : Z;
  us_size : Z;
}.

(** [Sread] gives the result and the bytes that were stored; [Sfstat] and
    [Spipe] the result and what was stored. [Swait] is [wait(0)]; [Swaitst] is
    [wait(&st)], with what [st] has after the call. [Sload] and [Sstore] are
    accesses of [n] bytes to memory the program got from [sbrk], or to an
    address it made up: the kernel may end the process there. The calls with
    [_at] get such an address, where the others get what is at an address of a
    variable of the program; an argument that can be of both kinds is a sum.
    [Ssp] reads the stack pointer and [Sarray] is what a variable of [n] bytes
    has before the program stores to it. *)
Inductive sys : Type -> Type :=
| Sread (fd n : Z) : sys (Z * list Z)
| Swrite (fd : Z) (l : list Z) : sys Z
| Sopen (path : list Z) (mode : Z) : sys Z
| Sclose (fd : Z) : sys Z
| Sfstat (fd : Z) : sys (Z * ustat)
| Sdup (fd : Z) : sys Z
| Spipe : sys (Z * (Z * Z))
| Sfork : sys Z
| Swait : sys Z
| Sexec (path : list Z) (argv : list (list Z)) : sys Z
| Schdir (path : list Z) : sys Z
| Smknod (path : list Z) (major minor : Z) : sys Z
| Smkdir (path : list Z) : sys Z
| Sunlink (path : list Z) : sys Z
| Slink (old new : list Z) : sys Z
| Skill (pid : Z) : sys Z
| Ssleep (n : Z) : sys Z
| Ssbrk (n : Z) : sys Z
| Swaitst : sys (Z * Z)
| Sgetpid : sys Z
| Suptime : sys Z
| Sload (a n : Z) : sys Z
| Sstore (a n v : Z) : sys unit
| Sread_at (fd a n : Z) : sys Z
| Swrite_at (fd a n : Z) : sys Z
| Sopen_at (a mode : Z) : sys Z
| Sunlink_at (a : Z) : sys Z
| Slink_at (old new : list Z + Z) : sys Z
| Sexec_at (path : list Z + Z) (argv : list (list Z + Z)) : sys Z
| Spipe_at (a : Z) : sys Z
| Ssp : sys Z
| Sarray (name : string) (n : Z) : sys (list Z).

Inductive prog (A : Type) : Type :=
| Ret (a : A)
| Call {X : Type} (e : sys X) (k : X -> prog A)
| Exit (status : Z)
| Undef
| NoFuel.
Arguments Ret {A} a.
Arguments Call {A X} e k.
Arguments Exit {A} status.
Arguments Undef {A}.
Arguments NoFuel {A}.

Fixpoint pbind {A B} (m : prog A) (f : A -> prog B) : prog B :=
  match m with
  | Ret a => f a
  | Call e k => Call e (fun x => pbind (k x) f)
  | Exit st => Exit st
  | Undef => Undef
  | NoFuel => NoFuel
  end.

Definition call {X} (e : sys X) : prog X := Call e Ret.

Declare Scope prog_scope.
Delimit Scope prog_scope with P.
Notation "'do' x '<-' m ; k" := (pbind m (fun x => k))
  (at level 100, x pattern, m at level 100, k at level 200, right associativity) : prog_scope.
Notation "m ',,' k" := (pbind m (fun _ => k))
  (at level 100, k at level 200, right associativity) : prog_scope.
#[global] Open Scope prog_scope.

(** ** Strings

    The routines of ulib.c that work on the memory of the process. A string
    without a NUL is walked over until [fuel] is used up. *)

Fixpoint u_strcpy_loop (fuel : nat) (m : mem) (s t : Z) : option mem :=
  match fuel with
  | O => None
  | S fuel =>
      let c := rd m t in
      let m := wr m s c in
      if c =? 0 then Some m else u_strcpy_loop fuel m (s + 1) (t + 1)
  end.

Definition u_strcpy := u_strcpy_loop.

Fixpoint u_strcmp (fuel : nat) (m : mem) (p q : Z) : option Z :=
  match fuel with
  | O => None
  | S fuel =>
      if negb (rd m p =? 0) && (rd m p =? rd m q) then u_strcmp fuel m (p + 1) (q + 1)
      else Some (rd m p - rd m q)
  end.

Fixpoint u_strlen_loop (fuel : nat) (m : mem) (s n : Z) : option Z :=
  match fuel with
  | O => None
  | S fuel => if rd m (s + n) =? 0 then Some n else u_strlen_loop fuel m s (n + 1)
  end.

Definition u_strlen (fuel : nat) (m : mem) (s : Z) : option Z := u_strlen_loop fuel m s 0.

Fixpoint u_memset_loop (k : nat) (m : mem) (cdst c i : Z) : mem :=
  match k with
  | O => m
  | S k => u_memset_loop k (wr m (cdst + i) c) cdst c (i + 1)
  end.

Definition u_memset (m : mem) (dst c n : Z) : mem := u_memset_loop (Z.to_nat n) m dst c 0.

Fixpoint u_strchr (fuel : nat) (m : mem) (s c : Z) : option Z :=
  match fuel with
  | O => None
  | S fuel =>
      if rd m s =? 0 then Some 0
      else if rd m s =? c then Some s
      else u_strchr fuel m (s + 1) c
  end.

(** [atoi] at [int]. *)
Fixpoint u_atoi_loop (fuel : nat) (m : mem) (s n : Z) : option Z :=
  match fuel with
  | O => None
  | S fuel =>
      let c := rd m s in
      if (48 <=? c) && (c <=? 57) then u_atoi_loop fuel m (s + 1) (s32 (n * 10 + c - 48))
      else Some n
  end.

Definition u_atoi (fuel : nat) (m : mem) (s : Z) : option Z := u_atoi_loop fuel m s 0.

Fixpoint u_move_up (n : nat) (m : mem) (dst src : Z) : mem :=
  match n with
  | O => m
  | S n => u_move_up n (wr m dst (rd m src)) (dst + 1) (src + 1)
  end.

Fixpoint u_move_down (n : nat) (m : mem) (dst src : Z) : mem :=
  match n with
  | O => m
  | S n => u_move_down n (wr m (dst - 1) (rd m (src - 1))) (dst - 1) (src - 1)
  end.

Definition u_memmove (m : mem) (vdst vsrc n : Z) : mem :=
  if vdst <? vsrc then u_move_up (Z.to_nat n) m vdst vsrc
  else u_move_down (Z.to_nat n) m (vdst + n) (vsrc + n).

Fixpoint u_memcmp_loop (n : nat) (m : mem) (p1 p2 : Z) : Z :=
  match n with
  | O => 0
  | S n =>
      if negb (rd m p1 =? rd m p2) then rd m p1 - rd m p2
      else u_memcmp_loop n m (p1 + 1) (p2 + 1)
  end.

Definition u_memcmp (m : mem) (s1 s2 n : Z) : Z := u_memcmp_loop (Z.to_nat n) m s1 s2.

Definition u_memcpy (m : mem) (dst src n : Z) : mem := u_memmove m dst src (s32 n).

(** ** System call wrappers *)

(** [gets]: the string that is stored in [buf]. *)
Fixpoint u_gets_loop (k : nat) (acc : list Z) : prog (list Z) :=
  match k with
  | O => Ret acc
  | S k =>
      do r <- call (Sread 0 1);
      if r.1 <? 1 then Ret acc
      else
        let c := hd 0 r.2 in
        if (c =? 10) || (c =? 13) then Ret (acc ++ [c])
        else u_gets_loop k (acc ++ [c])
  end.

Definition u_gets (max : Z) : prog (list Z) := u_gets_loop (Z.to_nat (max - 1)) [].

Definition ustat0 : ustat := mkustat 0 0 0 0 0.

Definition u_stat (n : list Z) : prog (Z * ustat) :=
  do fd <- call (Sopen n 0);
  if fd <? 0 then Ret (-1, ustat0)
  else
    do r <- call (Sfstat fd);
    call (Sclose fd) ,,
    Ret r.

(** ** printf.c *)

Definition u_digits : list Z := str "0123456789ABCDEF".
Definition u_digit (d : Z) : Z := nth (Z.to_nat d) u_digits 0.

Definition u_putc (fd c : Z) : prog unit :=
  call (Swrite fd [u8 c]) ,,
  Ret tt.

Fixpoint u_puts (fd : Z) (l : list Z) : prog unit :=
  match l with
  | [] => Ret tt
  | c :: l => u_putc fd c ,, u_puts fd l
  end.

(** The digits, the last one first. A 32-bit number has at most 32. *)
Fixpoint u_int_digits (k : nat) (x base : Z) : list Z :=
  match k with
  | O => []
  | S k => u_digit (x mod base) :: (if x / base =? 0 then [] else u_int_digits k (x / base) base)
  end.

(** The characters that [printint] puts out; [xx] is an [int]. *)
Definition u_printint_chars (xx base : Z) (sgn : bool) : list Z :=
  let neg := sgn && (xx <? 0) in
  let x := if neg then u32 (- xx) else u32 xx in
  rev (u_int_digits 32 x base ++ (if neg then [ch "-"] else [])).

Definition u_printint (fd xx base : Z) (sgn : bool) : prog unit :=
  u_puts fd (u_printint_chars xx base sgn).

Fixpoint u_ptr_digits (k : nat) (x : Z) : list Z :=
  match k with
  | O => []
  | S k => u_digit (Z.shiftr x 60) :: u_ptr_digits k (u64 (Z.shiftl x 4))
  end.

Definition u_printptr (fd x : Z) : prog unit :=
  u_puts fd ([ch "0"; ch "x"] ++ u_ptr_digits 16 x).

(** A conversion at [c0 c1 c2]: what is printed, the arguments left and the
    further characters of the format it takes. An argument of another type than the
    format asks for is undefined. A [uint64] argument is passed to
    [printint] as an [int]. *)
Definition u_num (fd base : Z) (sgn : bool) (i : nat) (args : list parg)
    : prog (list parg * nat) :=
  match args with
  | PNum x :: args => u_printint fd (s32 x) base sgn ,, Ret (args, i)
  | _ => Undef
  end.

Definition u_conversion (fd c0 c1 c2 : Z) (args : list parg) : prog (list parg * nat) :=
  if c0 =? ch "d" then u_num fd 10 true 0 args
  else if (c0 =? ch "l") && (c1 =? ch "d") then u_num fd 10 true 1 args
  else if (c0 =? ch "l") && (c1 =? ch "l") && (c2 =? ch "d") then u_num fd 10 true 2 args
  else if c0 =? ch "u" then u_num fd 10 false 0 args
  else if (c0 =? ch "l") && (c1 =? ch "u") then u_num fd 10 false 1 args
  else if (c0 =? ch "l") && (c1 =? ch "l") && (c2 =? ch "u") then u_num fd 10 false 2 args
  else if c0 =? ch "x" then u_num fd 16 false 0 args
  else if (c0 =? ch "l") && (c1 =? ch "x") then u_num fd 16 false 1 args
  else if (c0 =? ch "l") && (c1 =? ch "l") && (c2 =? ch "x") then u_num fd 16 false 2 args
  else if c0 =? ch "p" then
    match args with
    | PNum x :: args => u_printptr fd (u64 x) ,, Ret (args, 0%nat)
    | _ => Undef
    end
  else if c0 =? ch "s" then
    match args with
    | PStr s :: args => u_puts fd (nul_or s) ,, Ret (args, 0%nat)
    | _ => Undef
    end
  else if c0 =? ch "%" then u_putc fd (ch "%") ,, Ret (args, 0%nat)
  else u_putc fd (ch "%") ,, u_putc fd c0 ,, Ret (args, 0%nat).

(** The loop over the format; [state] is whether the last character was a
    [%]. Each round takes one character or more. *)
Fixpoint u_vprintf_loop (k : nat) (fd : Z) (fmt : list Z) (state : bool) (args : list parg) : prog unit :=
  match k, fmt with
  | O, _ => Ret tt
  | S k, [] => Ret tt
  | S k, c0 :: fmt =>
      if negb state then
        if c0 =? ch "%" then u_vprintf_loop k fd fmt true args
        else u_putc fd c0 ,, u_vprintf_loop k fd fmt false args
      else
        let c1 := hd 0 fmt in
        let c2 := if c1 =? 0 then 0 else hd 0 (tl fmt) in
        do r <- u_conversion fd c0 c1 c2 args;
        u_vprintf_loop k fd (drop r.2 fmt) false r.1
  end.

Definition u_vprintf (fd : Z) (fmt : list Z) (args : list parg) : prog unit :=
  u_vprintf_loop (S (length fmt)) fd fmt false args.

Definition u_fprintf (fd : Z) (fmt : list Z) (args : list parg) : prog unit := u_vprintf fd fmt args.
Definition u_printf (fmt : list Z) (args : list parg) : prog unit := u_vprintf 1 fmt args.

(** * Running user programs

    A program is run against a handler of its system calls. The handler
    below serves programs that filter a stream: each [read] returns the next
    bytes of the input, as many as a given schedule allows but at least one,
    and 0 at the end; a [write] is recorded and always complete. *)

Definition handler (W : Type) : Type := forall X : Type, sys X -> W -> X * W.

Inductive outcome (A : Type) := Returned (a : A) | Exited (status : Z) | Undefined | Unfinished.
Arguments Returned {A} a.
Arguments Exited {A} status.
Arguments Undefined {A}.
Arguments Unfinished {A}.

Fixpoint run {W A} (h : handler W) (p : prog A) (w : W) : outcome A * W :=
  match p with
  | Ret a => (Returned a, w)
  | Call e k => let r := h _ e w in run h (k r.1) r.2
  | Exit st => (Exited st, w)
  | Undef => (Undefined, w)
  | NoFuel => (Unfinished, w)
  end.

Lemma run_bind {W A B} (h : handler W) (m : prog A) (f : A -> prog B) w :
  run h (pbind m f) w =
  match run h m w with
  | (Returned a, w') => run h (f a) w'
  | (Exited st, w') => (Exited st, w')
  | (Undefined, w') => (Undefined, w')
  | (Unfinished, w') => (Unfinished, w')
  end.
Proof. revert w. induction m; intros w; cbn; auto. Qed.

Lemma run_call {W X A} (h : handler W) (e : sys X) (f : X -> prog A) w :
  run h (pbind (call e) f) w = let r := h _ e w in run h (f r.1) r.2.
Proof. done. Qed.

Record stream := mkstream {
  st_in : list Z;
  st_sizes : list Z;
  st_out : list (Z * list Z);
}.

(** The number of bytes of the next read. *)
Definition read_size (s : stream) (n : Z) : Z :=
  Z.max 0 (Z.min n (Z.min (zlen (st_in s)) (Z.max 1 (hd n (st_sizes s))))).

(** The answer of a kernel that refuses the call. *)
Definition refused {X} (e : sys X) : X :=
  match e in sys Y return Y with
  | Sread _ _ => (-1, [])
  | Sfstat _ => (-1, ustat0)
  | Spipe => (-1, (0, 0))
  | Swaitst => (-1, 0)
  | Sstore _ _ _ => tt
  | Sload _ _ | Ssp | Suptime | Ssleep _ => 0
  | Sgetpid => 1
  | Sarray _ n => replicate (Z.to_nat n) 0
  | Swrite _ _ | Sopen _ _ | Sclose _ | Sdup _ | Sfork | Swait | Sexec _ _ | Schdir _
  | Smknod _ _ _ | Smkdir _ | Sunlink _ | Slink _ _ | Skill _ | Ssbrk _
  | Sread_at _ _ _ | Swrite_at _ _ _ | Sopen_at _ _ | Sunlink_at _ | Slink_at _ _
  | Sexec_at _ _ | Spipe_at _ => -1
  end.

Definition stream_handler : handler stream := fun X e =>
  match e in sys Y return stream -> Y * stream with
  | Sread _ n => fun s =>
      let m := read_size s n in
      ((m, take (Z.to_nat m) (st_in s)),
       mkstream (drop (Z.to_nat m) (st_in s)) (tl (st_sizes s)) (st_out s))
  | Swrite fd l => fun s => (zlen l, mkstream (st_in s) (st_sizes s) (st_out s ++ [(fd, l)]))
  | Sopen _ _ => fun s => (3, s)
  | Sclose _ => fun s => (0, s)
  | e => fun s => (refused e, s)
  end.

Lemma read_size_bounds s n :
  0 <= read_size s n <= zlen (st_in s) /\ read_size s n <= Z.max 0 n.
Proof. unfold read_size, zlen. lia. Qed.

Lemma read_size_pos s n : 0 < n -> st_in s <> [] -> 0 < read_size s n.
Proof. unfold read_size, zlen. destruct (st_in s); cbn [length]; [done|]. lia. Qed.

Lemma zlen_take_read s n : zlen (take (Z.to_nat (read_size s n)) (st_in s)) = read_size s n.
Proof.
  pose proof (read_size_bounds s n) as [? ?]. unfold zlen in *. rewrite length_take. lia.
Qed.
