(* ===== verification/Umalloc.v ===== *)
(** * The memory allocator of user programs

    Models [src/xv6-os/user/umalloc.c]. The free blocks are in the memory of
    the process: a header has the pointer to the next block and the size of
    its own in units of a header. [base_addr] is the address of the
    variable [base]. *)
From S2P Require Import Prelude CString Blocks Printf User.

Definition sizeof_Header : Z := 16.

(** The memory and the variable [freep]. *)
Record heap := mkheap {
  h_mem : mem;
  freep : Z;
}.

Definition h_ptr (m : mem) (p : Z) : Z := ld64 m p.
Definition h_size (m : mem) (p : Z) : Z := ldn m (p + 8) 4.
Definition set_ptr (p x : Z) (m : mem) : mem := st64 m p x.
Definition set_size (p x : Z) (m : mem) : mem := stn m (p + 8) 4 x.

(** [p + n] for a pointer to a header. *)
Definition hplus (p n : Z) : Z := p + sizeof_Header * n.

(** The search of [free] for the block after which [bp] goes. *)
Fixpoint free_find (fuel : nat) (m : mem) (bp p : Z) : option Z :=
  let nxt := h_ptr m p in
  if (p <? bp) && (bp <? nxt) then Some p
  else if (nxt <=? p) && ((p <? bp) || (bp <? nxt)) then Some p
  else match fuel with
       | O => None
       | S fuel => free_find fuel m bp nxt
       end.

(** The two joins of [free], after block [p]. *)
Definition free_join (m : mem) (bp p : Z) : mem :=
  let m :=
    if hplus bp (h_size m bp) =? h_ptr m p then
      let m := set_size bp (u32 (h_size m bp + h_size m (h_ptr m p))) m in
      set_ptr bp (h_ptr m (h_ptr m p)) m
    else set_ptr bp (h_ptr m p) m in
  if hplus p (h_size m p) =? bp then
    let m := set_size p (u32 (h_size m p + h_size m bp)) m in
    set_ptr p (h_ptr m bp) m
  else set_ptr p bp m.

(** [None] when the search does not end within [fuel] blocks. *)
Definition u_free (fuel : nat) (h : heap) (ap : Z) : option heap :=
  let bp := ap - sizeof_Header in
  match free_find fuel (h_mem h) bp (freep h) with
  | None => None
  | Some p => Some (mkheap (free_join (h_mem h) bp p) p)
  end.

(** [sbrk] takes an [int]. The new [freep], or 0. *)
Definition morecore (fuel : nat) (h : heap) (nu : Z) : prog (Z * heap) :=
  let nu := if nu <? 4096 then 4096 else nu in
  do p <- call (Ssbrk (s32 (nu * sizeof_Header)));
  if p =? -1 then Ret (0, h)
  else
    match u_free fuel (mkheap (set_size p nu (h_mem h)) (freep h)) (hplus p 1) with
    | None => NoFuel
    | Some h => Ret (freep h, h)
    end.

Definition nunits_of (nbytes : Z) : Z := u32 ((nbytes + sizeof_Header - 1) / sizeof_Header + 1).

(** The block taken out at [p]: all of it, or its tail. *)
Definition take_block (m : mem) (prevp p nunits : Z) : Z * mem :=
  if h_size m p =? nunits then (p, set_ptr prevp (h_ptr m p) m)
  else
    let m := set_size p (u32 (h_size m p - nunits)) m in
    let p := hplus p (h_size m p) in
    (p, set_size p nunits m).

(** The loop of [malloc]. *)
Fixpoint malloc_loop (fuel : nat) (h : heap) (prevp p nunits : Z) : prog (Z * heap) :=
  match fuel with
  | O => NoFuel
  | S fuel =>
      if nunits <=? h_size (h_mem h) p then
        let '(p, m) := take_block (h_mem h) prevp p nunits in
        Ret (hplus p 1, mkheap m prevp)
      else if p =? freep h then
        do r <- morecore fuel h nunits;
        let '(p, h) := r in
        if p =? 0 then Ret (0, h)
        else malloc_loop fuel h p (h_ptr (h_mem h) p) nunits
      else malloc_loop fuel h p (h_ptr (h_mem h) p) nunits
  end.

Definition u_malloc (fuel : nat) (base_addr : Z) (h : heap) (nbytes : Z) : prog (Z * heap) :=
  let nunits := nunits_of nbytes in
  let h := if freep h =? 0 then mkheap (set_size base_addr 0 (set_ptr base_addr base_addr (h_mem h))) base_addr
           else h in
  malloc_loop fuel h (freep h) (h_ptr (h_mem h) (freep h)) nunits.
