(* ===== verification/UmallocSpec.v ===== *)
(** * The heap of a user program

    The blocks of [umalloc.c] as two maps from addresses to sizes in units of
    a header: the free ones, which the circular list links in the order of
    their addresses, and those the program has. [malloc] and [free] keep them
    apart, and keep free blocks that touch joined. *)
From S2P Require Import Prelude CString Blocks Printf User Umalloc.

(** ** Headers in memory *)

Definition far (p q : Z) : Prop := sizeof_Header <= Z.abs (p - q).

Ltac hfar := unfold far, sizeof_Header in *; lia.

Lemma ptr_set_ptr p x m : 0 <= x < 2 ^ 64 -> h_ptr (set_ptr p x m) p = x.
Proof. intros Hx. unfold h_ptr, set_ptr. rewrite ld64_st64_eq. by apply u64_small. Qed.
Lemma ptr_set_ptr_far p x m q : far p q -> h_ptr (set_ptr p x m) q = h_ptr m q.
Proof. intros H. unfold h_ptr, set_ptr. apply ld64_st64_ne. hfar. Qed.
Lemma ptr_set_size p x m q : p = q \/ far p q -> h_ptr (set_size p x m) q = h_ptr m q.
Proof.
  intros H. unfold h_ptr, set_size. apply ld64_ext. intros i Hi. apply rd_stn_out. destruct H as [->|H]; hfar.
Qed.
Lemma size_set_size p x m : 0 <= x < 2 ^ 32 -> h_size (set_size p x m) p = x.
Proof. intros Hx. unfold h_size, set_size. rewrite ldn_stn. by apply Z.mod_small. Qed.
Lemma size_set_size_far p x m q : far p q -> h_size (set_size p x m) q = h_size m q.
Proof. intros H. unfold h_size, set_size. apply ldn_stn_out. hfar. Qed.
Lemma size_set_ptr p x m q : p = q \/ far p q -> h_size (set_ptr p x m) q = h_size m q.
Proof.
  intros H. unfold h_size, set_ptr. apply ldn_ext. intros i Hi. apply rd_st64_ne. destruct H as [->|H]; hfar.
Qed.

(** Memory outside of the header at [p]. *)
Definition same_but (p : Z) (m m' : mem) : Prop :=
  forall x, x < p \/ p + sizeof_Header <= x -> rd m' x = rd m x.

Lemma same_set_ptr p x m : same_but p m (set_ptr p x m).
Proof. intros y Hy. unfold set_ptr. apply rd_st64_ne. hfar. Qed.
Lemma same_set_size p x m : same_but p m (set_size p x m).
Proof. intros y Hy. unfold set_size. apply rd_stn_out. hfar. Qed.

(** ** The circular order *)

Section Order.
Context (free : gmap Z Z).

(** [b] follows [a]: the next address, or the lowest one after the highest. *)
Definition follows (a b : Z) : Prop :=
  is_Some (free !! b) /\
  ((a < b /\ forall c, is_Some (free !! c) -> c <= a \/ b <= c) \/
   ((forall c, is_Some (free !! c) -> c <= a) /\ forall c, is_Some (free !! c) -> b <= c)).

(** The addresses from [p] on to [t]. *)
Definition ahead (p t c : Z) : Prop := if decide (p <= t) then p <= c <= t else p <= c \/ c <= t.

#[export] Instance ahead_dec p t c : Decision (ahead p t c).
Proof. unfold ahead. destruct (decide (p <= t)); apply _. Defined.

Definition walk (p t : Z) : gmap Z Z := filter (fun kv => ahead p t kv.1) free.

Lemma walk_lookup p t c s : walk p t !! c = Some s <-> free !! c = Some s /\ ahead p t c.
Proof. unfold walk. by rewrite map_lookup_filter_Some. Qed.

Lemma walk_size p t : (size (walk p t) <= size free)%nat.
Proof. apply map_subseteq_size, map_filter_subseteq. Qed.

Lemma follows_unique a b b' : follows a b -> follows a b' -> b = b'.
Proof.
  intros [Hb H] [Hb' H'].
  destruct H as [[H1 H2]|[H1 H2]], H' as [[H1' H2']|[H1' H2']]; pose proof (H2 b' Hb'); pose proof (H2' b Hb);
    try pose proof (H1 b' Hb'); try pose proof (H1' b Hb); lia.
Qed.

Lemma follows_inj a a' b : is_Some (free !! a) -> is_Some (free !! a') -> follows a b -> follows a' b -> a = a'.
Proof.
  intros Ha Ha' [Hb H] [_ H'].
  destruct H as [[H1 H2]|[H1 H2]], H' as [[H1' H2']|[H1' H2']];
    pose proof (H2 a Ha); pose proof (H2 a' Ha'); pose proof (H2' a Ha); pose proof (H2' a' Ha');
    try pose proof (H1 a Ha); try pose proof (H1' a Ha); try pose proof (H1 a' Ha'); try pose proof (H1' a' Ha'); lia.
Qed.

(** One step of a walk to [t]. *)
Lemma ahead_follows p q t c :
  is_Some (free !! p) -> is_Some (free !! t) -> p <> t -> follows p q -> is_Some (free !! c) ->
  ahead p t c <-> c = p \/ ahead q t c.
Proof.
  intros Hp Ht Hne [Hq H] Hc. unfold ahead.
  destruct H as [[H1 H2]|[H1 H2]]; pose proof (H2 c Hc); pose proof (H2 t Ht); pose proof (H2 p Hp);
    try pose proof (H1 c Hc); try pose proof (H1 t Ht); repeat case_decide; lia.
Qed.

Lemma ahead_self p t : ahead p t p.
Proof. unfold ahead. case_decide; lia. Qed.

Lemma ahead_past p q t : is_Some (free !! p) -> is_Some (free !! t) -> p <> t -> follows p q -> ~ ahead q t p.
Proof.
  intros Hp Ht Hne [Hq H]. unfold ahead.
  destruct H as [[H1 H2]|[H1 H2]]; pose proof (H2 t Ht); pose proof (H2 p Hp);
    try pose proof (H1 t Ht); repeat case_decide; lia.
Qed.

Lemma walk_follows p q t :
  is_Some (free !! p) -> is_Some (free !! t) -> p <> t -> follows p q ->
  size (walk p t) = S (size (walk q t)).
Proof.
  intros Hp Ht Hne Hf. pose proof Hp as [s Hs].
  assert (E : walk p t = <[p := s]> (walk q t)).
  { apply map_eq. intros c. destruct (decide (c = p)) as [->|Hc].
    - rewrite lookup_insert_eq. apply walk_lookup. split; [done|apply ahead_self].
    - rewrite lookup_insert_ne by done. apply option_eq. intros x. rewrite !walk_lookup.
      split; intros [H1 H2]; (split; [done|]).
      + destruct (proj1 (ahead_follows p q t c Hp Ht Hne Hf (mk_is_Some _ _ H1)) H2); done.
      + apply (ahead_follows p q t c Hp Ht Hne Hf (mk_is_Some _ _ H1)). by right. }
  rewrite E, map_size_insert_None; [done|]. destruct (walk q t !! p) as [x|] eqn:Ex; [|done].
  apply walk_lookup in Ex as [_ Ex]. exfalso. exact (ahead_past p q t Hp Ht Hne Hf Ex).
Qed.

(** The whole circle. *)
Lemma ahead_all t q c : is_Some (free !! t) -> follows t q -> is_Some (free !! c) -> ahead q t c.
Proof.
  intros Ht [Hq H] Hc. unfold ahead.
  destruct H as [[H1 H2]|[H1 H2]]; pose proof (H2 c Hc); pose proof (H2 t Ht);
    try pose proof (H1 c Hc); case_decide; lia.
Qed.
End Order.

(** The free block before an address. *)
Definition precedes (free : gmap Z Z) (p bp : Z) : Prop :=
  is_Some (free !! p) /\ p < bp /\ forall c, is_Some (free !! c) -> c <= p \/ bp < c.

Lemma last_below (l : list Z) bp : bp ∉ l -> Exists (fun c => c < bp) l ->
  exists p, p ∈ l /\ p < bp /\ forall c, c ∈ l -> c <= p \/ bp < c.
Proof.
  induction l as [|x l IH]; intros Hn He; [by apply Exists_nil in He|].
  apply not_elem_of_cons in Hn as [Hx Hn].
  destruct (decide (Exists (fun c => c < bp) l)) as [Hl|Hl].
  - destruct (IH Hn Hl) as (p & Hp & Hpb & Hmax). destruct (decide (p < x < bp)).
    + exists x. split_and!; [by left|lia|]. intros c [->|Hc]%elem_of_cons; [lia|]. specialize (Hmax c Hc). lia.
    + exists p. split_and!; [by right|lia|]. intros c [->|Hc]%elem_of_cons; [lia|]. auto.
  - apply Exists_cons in He as [He|He]; [|done].
    exists x. split_and!; [by left|lia|]. intros c [->|Hc]%elem_of_cons; [lia|]. right.
    destruct (decide (c = bp)) as [->|]; [done|]. destruct (decide (c < bp)); [|lia]. exfalso. apply Hl, Exists_exists. eauto.
Qed.

Lemma precedes_exists free base bp :
  is_Some (free !! base) -> base < bp -> free !! bp = None -> exists p, precedes free p bp.
Proof.
  intros Hb Hlt Hn. assert (Hd : forall c, c ∈ elements (dom free) <-> is_Some (free !! c)).
  { intros c. by rewrite elem_of_elements, elem_of_dom. }
  destruct (last_below (elements (dom free)) bp) as (p & Hp & Hpb & Hmax).
  - rewrite Hd, Hn. by intros [? ?].
  - apply Exists_exists. exists base. split; [by apply Hd|done].
  - exists p. split_and!; [by apply Hd|done|]. intros c Hc. by apply Hmax, Hd.
Qed.

(** ** Memory and layout *)

(** The list in memory. *)
Record linked (m : mem) (free : gmap Z Z) : Prop := {
  lk_size : forall a s, free !! a = Some s -> h_size m a = s;
  lk_next : forall a, is_Some (free !! a) -> follows free a (h_ptr m a);
}.

(** One round of the search of [free]: it stops at the block before [bp]. *)
Lemma free_find_stop free base bp p x nxt :
  is_Some (free !! base) -> base < bp -> precedes free p bp -> is_Some (free !! x) -> follows free x nxt ->
  (x = p /\ ((x < bp /\ bp < nxt) \/ (nxt <= x /\ x < bp))) \/
  (x <> p /\ ~ (x < bp /\ bp < nxt) /\ ~ (nxt <= x /\ (x < bp \/ bp < nxt))).
Proof.
  intros Hb Hlt (Hp & Hpb & Hmax) Hx [Hn Hf]. pose proof (Hmax x Hx). pose proof (Hmax nxt Hn).
  destruct Hf as [[H1 H2]|[H1 H2]]; pose proof (H2 p Hp); pose proof (H2 base Hb); try pose proof (H1 p Hp); lia.
Qed.

Lemma free_find_spec m free base bp p :
  linked m free -> is_Some (free !! base) -> base < bp -> precedes free p bp ->
  forall fuel x, is_Some (free !! x) -> (size (walk free x p) <= S fuel)%nat -> free_find fuel m bp x = Some p.
Proof.
  intros Hl Hb Hlt Hpre.
  induction fuel as [|fuel IH]; intros x Hx Hs; cbn [free_find];
    pose proof (lk_next _ _ Hl x Hx) as Hf; set (nxt := h_ptr m x) in *;
    destruct (free_find_stop free base bp p x nxt Hb Hlt Hpre Hx Hf) as [(-> & H)|(Hne & H1 & H2)].
  1,3: destruct (Z.ltb_spec p bp), (Z.ltb_spec bp nxt), (Z.leb_spec nxt p); cbn; try done; lia.
  all: assert (size (walk free x p) = S (size (walk free nxt p))) as E
    by (apply walk_follows; [done|apply Hpre|done|done]).
  - exfalso. assert (Hz : size (walk free nxt p) = 0%nat) by lia. apply map_size_empty_inv in Hz.
    destruct Hpre as ([s Hs'] & _). assert (Hw : walk free nxt p !! p = Some s).
    { apply walk_lookup. split; [done|]. unfold ahead. case_decide; lia. }
    by rewrite Hz in Hw.
  - destruct (Z.ltb_spec x bp), (Z.ltb_spec bp nxt), (Z.leb_spec nxt x); cbn; try lia;
      apply IH; (apply Hf || lia).
Qed.

(** How the order changes with a block. *)
Section Changes.
Context (free : gmap Z Z).

Lemma follows_dom free' a b :
  (forall c, is_Some (free' !! c) <-> is_Some (free !! c)) -> follows free a b -> follows free' a b.
Proof. intros Hd. unfold follows. setoid_rewrite Hd. done. Qed.

Lemma dom_insert_iff a x c : is_Some ((<[a := x]> free : gmap Z Z) !! c) <-> c = a \/ is_Some (free !! c).
Proof. rewrite lookup_insert_is_Some. destruct (decide (c = a)); naive_solver. Qed.

Lemma dom_delete_iff a c : is_Some (delete a free !! c) <-> c <> a /\ is_Some (free !! c).
Proof. rewrite lookup_delete_is_Some. naive_solver. Qed.

Lemma follows_insert_other p bp x a b :
  precedes free p bp -> is_Some (free !! a) -> a <> p -> follows free a b -> follows (<[bp := x]> free) a b.
Proof.
  intros (Hp & Hpb & Hmax) Ha Hne [Hb Hf]. split; [apply dom_insert_iff; by right|].
  setoid_rewrite dom_insert_iff. pose proof (Hmax a Ha). pose proof (Hmax b Hb).
  destruct Hf as [[H1 H2]|[H1 H2]]; pose proof (H2 p Hp); [left|right]; split; try done.
  - intros c [->|Hc]; [lia|auto].
  - pose proof (H1 p Hp). intros c [->|Hc]; [lia|auto].
  - intros c [->|Hc]; [lia|auto].
Qed.

Lemma follows_insert_at p bp x : precedes free p bp -> follows (<[bp := x]> free) p bp.
Proof.
  intros (Hp & Hpb & Hmax). split; [apply dom_insert_iff; by left|]. left. split; [done|].
  intros c [->|Hc]%dom_insert_iff; [lia|]. specialize (Hmax c Hc). lia.
Qed.

Lemma follows_insert_new p bp x n :
  precedes free p bp -> follows free p n -> follows (<[bp := x]> free) bp n.
Proof.
  intros (Hp & Hpb & Hmax) [Hn Hf]. split; [apply dom_insert_iff; by right|].
  setoid_rewrite dom_insert_iff. pose proof (Hmax n Hn).
  destruct Hf as [[H1 H2]|[H1 H2]]; [left|right]; split.
  - lia.
  - intros c [->|Hc]; [lia|]. specialize (H2 c Hc). lia.
  - intros c [->|Hc]; [lia|]. specialize (H1 c Hc). lia.
  - pose proof (H2 p Hp). intros c [->|Hc]; [lia|auto].
Qed.

Lemma follows_delete_other p d a b :
  is_Some (free !! p) -> is_Some (free !! a) -> follows free p d -> a <> p -> follows free a b ->
  follows (delete d free) a b.
Proof.
  intros Hp Ha Hd Hne Hb. assert (b <> d) by (intros ->; by apply Hne, (follows_inj free a p d)).
  destruct Hb as [Hb Hf]. split; [by apply dom_delete_iff|]. setoid_rewrite dom_delete_iff.
  destruct Hf as [[H1 H2]|[H1 H2]]; [left|right]; naive_solver.
Qed.

Lemma follows_delete p d n :
  is_Some (free !! p) -> p <> d -> follows free p d -> follows free d n -> follows (delete d free) p n.
Proof.
  intros Hp Hne [Hd Hf] [Hn Hg].
  assert (n <> d).
  { intros ->. destruct Hg as [[? ?]|[H1 H2]]; [lia|]. pose proof (H1 p Hp). pose proof (H2 p Hp). lia. }
  split; [by apply dom_delete_iff|]. setoid_rewrite dom_delete_iff.
  destruct Hf as [[H1 H2]|[H1 H2]], Hg as [[H3 H4]|[H3 H4]].
  - left. split; [lia|]. intros c [Hc Hs]. specialize (H2 c Hs). specialize (H4 c Hs). lia.
  - right. split; [|naive_solver]. intros c [Hc Hs]. specialize (H2 c Hs). specialize (H3 c Hs). lia.
  - right. split; [naive_solver|]. intros c [Hc Hs]. specialize (H2 c Hs). specialize (H4 c Hs). lia.
  - pose proof (H1 d Hd). pose proof (H2 p Hp). pose proof (H3 p Hp). pose proof (H4 p Hp). lia.
Qed.

Lemma precedes_delete p bp d : p <> d -> precedes free p bp -> precedes (delete d free) p bp.
Proof.
  intros Hne (H1 & H2 & H3). split_and!; [by apply dom_delete_iff|done|].
  intros c [_ Hc]%dom_delete_iff. auto.
Qed.
End Changes.

(** ** The layout *)

Definition span (s : Z) : Z := sizeof_Header * Z.max 1 s.

Definition owned (free al : gmap Z Z) (a s : Z) : Prop := free !! a = Some s \/ al !! a = Some s.

(** The variable [base] at address [base] is a free block of size 0; the
    others are between it and [lim]. *)
Record blocks_ok (base lim : Z) (free al : gmap Z Z) : Prop := {
  ly_base : free !! base = Some 0;
  ly_free : forall a s, free !! a = Some s -> a = base \/ 1 <= s;
  ly_al : forall a s, al !! a = Some s -> 1 <= s;
  ly_disj : forall a, is_Some (free !! a) -> is_Some (al !! a) -> False;
  ly_apart : forall a s b t, owned free al a s -> owned free al b t -> a < b -> a + span s <= b;
  ly_range : forall a s, owned free al a s -> base <= a /\ a + span s <= lim;
  ly_joined : forall a s, free !! a = Some s -> 1 <= s -> free !! (a + sizeof_Header * s) = None;
  ly_lim : 0 < base /\ lim <= 2 ^ 35;
}.

Section Layout.
Context (base lim : Z) (free al : gmap Z Z) (H : blocks_ok base lim free al).

Lemma own_free a s : free !! a = Some s -> owned free al a s.
Proof. by left. Qed.
Lemma own_al a s : al !! a = Some s -> owned free al a s.
Proof. by right. Qed.

Lemma apart2 a s b t : owned free al a s -> owned free al b t -> a = b \/ a + span s <= b \/ b + span t <= a.
Proof.
  intros Ha Hb. destruct (Z.lt_trichotomy a b) as [Hl|[->|Hl]]; [|by left|].
  - right; left. by apply (ly_apart _ _ _ _ H a s b t).
  - right; right. by apply (ly_apart _ _ _ _ H b t a s).
Qed.

Lemma apart_other a s b t : free !! a = Some s -> al !! b = Some t -> a + span s <= b \/ b + span t <= a.
Proof.
  intros Ha Hb. destruct (apart2 a s b t (own_free _ _ Ha) (own_al _ _ Hb)) as [->|?]; [|done].
  exfalso. eapply (ly_disj _ _ _ _ H b); eauto.
Qed.

(** Marks of what the tactic [pairs] has used. *)
Let seen (a : Z) : Prop := True.
Let paired (a b : Z) : Prop := True.

(** Splits the ways in which a changed map has a block. *)
Ltac cases :=
  repeat match goal with
  | H : owned _ _ _ _ |- _ => destruct H as [H|H]
  | H : is_Some _ |- _ => destruct H as [? H]
  | H : (<[_ := _]> _ : gmap Z Z) !! _ = Some _ |- _ => apply lookup_insert_Some in H as [[? ?]|[? H]]
  | H : delete _ _ !! _ = Some _ |- _ => apply lookup_delete_Some in H as [? H]
  end; subst.

(** All that the layout says about two blocks. *)
Ltac pair Ha Hb :=
  match type of Ha with
  | free !! _ = Some _ =>
      match type of Hb with
      | free !! _ = Some _ => pose proof (apart2 _ _ _ _ (own_free _ _ Ha) (own_free _ _ Hb))
      | al !! _ = Some _ => pose proof (apart_other _ _ _ _ Ha Hb)
      end
  | al !! _ = Some _ =>
      match type of Hb with
      | free !! _ = Some _ => pose proof (apart_other _ _ _ _ Hb Ha)
      | al !! _ = Some _ => pose proof (apart2 _ _ _ _ (own_al _ _ Ha) (own_al _ _ Hb))
      end
  end.
Ltac one Ha :=
  match type of Ha with
  | free !! ?a = Some ?s => pose proof (ly_range _ _ _ _ H a s (or_introl Ha)); pose proof (ly_free _ _ _ _ H a s Ha)
  | al !! ?a = Some ?s => pose proof (ly_range _ _ _ _ H a s (or_intror Ha)); pose proof (ly_al _ _ _ _ H a s Ha)
  end.
Ltac pairs :=
  repeat match goal with
  | Ha : free !! ?a = Some _ |- _ =>
      assert_fails (idtac; match goal with _ : seen a |- _ => idtac end);
      one Ha; pose proof (I : seen a)
  | Ha : al !! ?a = Some _ |- _ =>
      assert_fails (idtac; match goal with _ : seen a |- _ => idtac end);
      one Ha; pose proof (I : seen a)
  end;
  repeat match goal with
  | Ha : _ !! ?a = Some _, Hb : _ !! ?b = Some _ |- _ =>
      assert_fails (constr_eq a b);
      assert_fails (idtac; match goal with _ : paired a b |- _ => idtac end);
      pair Ha Hb; pose proof (I : paired a b); pose proof (I : paired b a)
  end.
Ltac arith := unfold span, sizeof_Header in *; lia.

Lemma span_pos s : 16 <= span s.
Proof. arith. Qed.

Lemma same_block a s t : owned free al a s -> owned free al a t -> s = t.
Proof.
  intros [H1|H1] [H2|H2]; try congruence; exfalso; eapply (ly_disj _ _ _ _ H a); eauto.
Qed.

(** [bp] takes over the free block after it. *)
Lemma absorb_next bp s t :
  al !! bp = Some s -> free !! (bp + sizeof_Header * s) = Some t -> 1 <= t ->
  blocks_ok base lim (delete (bp + sizeof_Header * s) free) (<[bp := s + t]> al).
Proof.
  intros Hbp Hn Ht. constructor.
  - rewrite lookup_delete_ne; [apply H|]. one Hbp. arith.
  - intros a u Ha. cases. by apply (ly_free _ _ _ _ H).
  - intros a u Ha. cases; pairs; arith.
  - intros a Ha Ha'. cases; eapply (ly_disj _ _ _ _ H); eauto.
  - intros a u c v Ha Hc Hlt. cases; try (by eapply (ly_apart _ _ _ _ H); eauto using own_free, own_al); pairs; arith.
  - intros a u Ha. cases; pairs; arith.
  - intros a u Ha Hu. cases. rewrite lookup_delete_None. right. by apply (ly_joined _ _ _ _ H).
  - apply H.
Qed.

Ltac apart_tac :=
  cases; try (by eapply (ly_apart _ _ _ _ H); eauto using own_free, own_al); pairs; arith.

(** [bp] becomes a free block of its own. *)
Lemma give_block bp s :
  al !! bp = Some s -> free !! (bp + sizeof_Header * s) = None ->
  (forall a t, free !! a = Some t -> 1 <= t -> a + sizeof_Header * t <> bp) ->
  blocks_ok base lim (<[bp := s]> free) (delete bp al).
Proof.
  intros Hbp Hn Hp. constructor.
  - rewrite lookup_insert_ne; [apply H|]. intros ->. eapply (ly_disj _ _ _ _ H base); [rewrite (ly_base _ _ _ _ H)|]; eauto.
  - intros a u Ha. cases; pairs; arith.
  - intros a u Ha. cases; pairs; arith.
  - intros a Ha Ha'. cases; [done|]. eapply (ly_disj _ _ _ _ H); eauto.
  - intros a u c v Ha Hc Hlt. apart_tac.
  - intros a u Ha. cases; pairs; arith.
  - intros a u Ha Hu. cases.
    + rewrite lookup_insert_ne; [done|]. one Hbp. arith.
    + rewrite lookup_insert_ne; [by apply (ly_joined _ _ _ _ H)|]. intros E. by apply (Hp a u).
  - apply H.
Qed.

Lemma joined_ne a u p t : free !! a = Some u -> 1 <= u -> free !! p = Some t -> p <> a + sizeof_Header * u.
Proof. intros Ha Hu Hp ->. by rewrite (ly_joined _ _ _ _ H a u Ha Hu) in Hp. Qed.

(** [bp] joins the free block before it. *)
Lemma absorb_prev bp s p t :
  al !! bp = Some s -> free !! (bp + sizeof_Header * s) = None ->
  free !! p = Some t -> 1 <= t -> p + sizeof_Header * t = bp ->
  blocks_ok base lim (<[p := t + s]> free) (delete bp al).
Proof.
  intros Hbp Hn Hp Ht E. constructor.
  - rewrite lookup_insert_ne; [apply H|]. intros ->. rewrite (ly_base _ _ _ _ H) in Hp. injection Hp. lia.
  - intros a u Ha. cases; pairs; arith.
  - intros a u Ha. cases; pairs; arith.
  - intros a Ha Ha'. cases; eapply (ly_disj _ _ _ _ H); eauto.
  - intros a u c v Ha Hc Hlt. apart_tac.
  - intros a u Ha. cases; pairs; arith.
  - intros a u Ha Hu. cases.
    + rewrite lookup_insert_ne by (one Hbp; arith). rewrite <- Hn. f_equal. arith.
    + by rewrite lookup_insert_ne; [apply (ly_joined _ _ _ _ H)|eapply joined_ne].
  - apply H.
Qed.

(** The program gets all of the free block [p]. *)
Lemma take_all p s : free !! p = Some s -> p <> base -> blocks_ok base lim (delete p free) (<[p := s]> al).
Proof.
  intros Hp Hne. constructor.
  - by rewrite lookup_delete_ne; [apply H|].
  - intros a u Ha. cases; pairs; arith.
  - intros a u Ha. cases; pairs; arith.
  - intros a Ha Ha'. cases; [done|]. eapply (ly_disj _ _ _ _ H); eauto.
  - intros a u c v Ha Hc Hlt. apart_tac.
  - intros a u Ha. cases; pairs; arith.
  - intros a u Ha Hu. cases. rewrite lookup_delete_None. right. by apply (ly_joined _ _ _ _ H).
  - apply H.
Qed.

(** It gets the last [n] units of [p]. *)
Lemma take_tail p s n : free !! p = Some s -> 1 <= n < s ->
  blocks_ok base lim (<[p := s - n]> free) (<[p + sizeof_Header * (s - n) := n]> al).
Proof.
  intros Hp Hn. assert (Hb : p <> base) by (intros ->; rewrite (ly_base _ _ _ _ H) in Hp; injection Hp; lia).
  assert (Hfresh : forall a u, owned free al a u -> a <> p + sizeof_Header * (s - n)).
  { intros a u Ha ->. destruct (apart2 _ _ _ _ (own_free _ _ Hp) Ha); arith. }
  constructor.
  - by rewrite lookup_insert_ne; [apply H|].
  - intros a u Ha. cases; pairs; arith.
  - intros a u Ha. cases; pairs; arith.
  - intros a Ha Ha'. cases; try (by eapply Hfresh; eauto using own_free); try arith; eapply (ly_disj _ _ _ _ H); eauto.
  - intros a u c v Ha Hc Hlt. apart_tac.
  - intros a u Ha. cases; pairs; arith.
  - intros a u Ha Hu. cases.
    + rewrite lookup_insert_ne by arith. apply eq_None_not_Some. intros [v Hv]. eapply Hfresh; eauto using own_free.
    + by rewrite lookup_insert_ne; [apply (ly_joined _ _ _ _ H)|eapply joined_ne].
  - apply H.
Qed.

(** The kernel gives [n] more units at [q]. *)
Lemma grow_heap q n lim' : lim <= q -> 1 <= n -> q + sizeof_Header * n <= lim' -> lim' <= 2 ^ 35 ->
  blocks_ok base lim' free (<[q := n]> al).
Proof.
  intros Hq Hn Hl Hl'. constructor.
  - apply H.
  - apply H.
  - intros a u Ha. cases; pairs; arith.
  - intros a Ha Ha'. cases; [pairs; arith|]. eapply (ly_disj _ _ _ _ H); eauto.
  - intros a u c v Ha Hc Hlt. apart_tac.
  - intros a u Ha. pose proof (ly_base _ _ _ _ H). cases; pairs; arith.
  - apply H.
  - split; [apply H|done].
Qed.
End Layout.

(** The units in a set of blocks. *)
Definition units (l : gmap Z Z) : Z := map_fold (fun _ s t => s + t) 0 l.

Lemma units_insert l a s : l !! a = None -> units (<[a := s]> l) = units l + s.
Proof. intros H. unfold units. rewrite map_fold_insert_L; [lia|intros; lia|done]. Qed.

Lemma units_delete l a s : l !! a = Some s -> units (delete a l) = units l - s.
Proof.
  intros H. rewrite <- (insert_delete_id l a s H) at 2. rewrite units_insert by apply lookup_delete_eq. lia.
Qed.

Lemma units_update l a s t : l !! a = Some s -> units (<[a := t]> l) = units l - s + t.
Proof.
  intros H. rewrite <- insert_delete_eq, units_insert by apply lookup_delete_eq. by rewrite (units_delete _ _ s).
Qed.

(** A header that is not written keeps its fields. *)
Lemma ptr_same p m m' q : same_but p m m' -> far p q -> h_ptr m' q = h_ptr m q.
Proof. intros H Hf. unfold h_ptr. apply ld64_ext. intros i Hi. apply H. hfar. Qed.
Lemma size_same p m m' q : same_but p m m' -> far p q -> h_size m' q = h_size m q.
Proof. intros H Hf. unfold h_size. apply ldn_ext. intros i Hi. apply H. hfar. Qed.

Lemma same_trans p m1 m2 m3 : same_but p m1 m2 -> same_but p m2 m3 -> same_but p m1 m3.
Proof. intros H1 H2 x Hx. by rewrite H2, H1. Qed.

#[local] Hint Resolve same_set_ptr same_set_size same_trans : core.

Lemma blocks_far base lim free al a s b t :
  blocks_ok base lim free al -> owned free al a s -> owned free al b t -> a <> b -> far a b.
Proof.
  intros H Ha Hb Hne. destruct (apart2 _ _ _ _ H a s b t Ha Hb) as [|]; [done|]. unfold span in *. hfar.
Qed.

Lemma block_range base lim free al a s :
  blocks_ok base lim free al -> owned free al a s -> 0 < a /\ a < 2 ^ 35 /\ s < 2 ^ 31.
Proof.
  intros H Ha. pose proof (ly_range _ _ _ _ H a s Ha). pose proof (ly_lim _ _ _ _ H).
  unfold span, sizeof_Header in *. lia.
Qed.

(** ** free *)

Section Free.
Context (base lim : Z) (free al : gmap Z Z) (m : mem) (bp s p : Z).
Context (H : blocks_ok base lim free al) (Hl : linked m free).
Context (Hbp : al !! bp = Some s) (Hs : h_size m bp = s) (Hp : precedes free p bp).

(** The first [if] of [free]. *)
Definition join_next : mem :=
  if hplus bp (h_size m bp) =? h_ptr m p then
    let m := set_size bp (u32 (h_size m bp + h_size m (h_ptr m p))) m in
    set_ptr bp (h_ptr m (h_ptr m p)) m
  else set_ptr bp (h_ptr m p) m.

(** After it: [bp] is in its place but for the pointer to it. *)
Record joined_next (free1 : gmap Z Z) (s1 : Z) (m1 : mem) : Prop := {
  jn_blocks : blocks_ok base lim free1 (<[bp := s1]> al);
  jn_end : free1 !! (bp + sizeof_Header * s1) = None;
  jn_prev : precedes free1 p bp;
  jn_prev_size : free1 !! p = free !! p;
  jn_size : h_size m1 bp = s1;
  jn_next : follows free1 p (h_ptr m1 bp);
  jn_sizes : forall a t, free1 !! a = Some t -> h_size m1 a = t;
  jn_others : forall a, is_Some (free1 !! a) -> a <> p -> follows free1 a (h_ptr m1 a);
  jn_same : same_but bp m m1;
  jn_units : units free1 + s1 = units free + s;
  jn_grows : s <= s1;
  jn_count : (size free1 <= size free)%nat;
}.

Lemma free_far a t : free !! a = Some t -> far bp a.
Proof.
  intros Ha. eapply (blocks_far base lim free al bp s a t); [exact H|by right|by left|].
  intros ->. eapply (ly_disj _ _ _ _ H a); eauto.
Qed.

Lemma join_next_spec : exists free1 s1, joined_next free1 s1 join_next.
Proof.
  pose proof Hp as ([sp Hsp] & Hpb & Hmax). pose proof (lk_next _ _ Hl p (mk_is_Some _ _ Hsp)) as Hn.
  set (nxt := h_ptr m p) in *. pose proof Hn as [[sn Hsn] _].
  pose proof (block_range _ _ _ _ _ _ H (or_introl Hsn)) as Hrn.
  pose proof (block_range _ _ _ _ _ _ H (or_intror Hbp)) as Hrb. pose proof (ly_al _ _ _ _ H bp s Hbp) as H1s.
  pose proof (lk_size _ _ Hl nxt sn Hsn) as Hzn.
  unfold join_next. fold nxt. rewrite Hs, Hzn. unfold hplus.
  destruct (Z.eqb_spec (bp + sizeof_Header * s) nxt) as [E|E].
  - assert (Hne : p <> nxt) by (unfold sizeof_Header in *; lia).
    assert (H1n : 1 <= sn).
    { pose proof (ly_range _ _ _ _ H bp s (or_intror Hbp)).
      destruct (ly_free _ _ _ _ H nxt sn Hsn); [unfold sizeof_Header in *; lia|done]. }
    cbv zeta. rewrite (ptr_set_size bp _ m p) by (right; by eapply free_far). fold nxt.
    rewrite (ptr_set_size bp _ m nxt) by (right; by eapply free_far).
    set (m1 := set_ptr bp (h_ptr m nxt) _). assert (S1 : same_but bp m m1) by (unfold m1; eauto).
    exists (delete nxt free), (s + sn). constructor; [| | | | | | | |exact S1| |lia|apply map_subseteq_size, delete_subseteq].
    + rewrite <- E. apply absorb_next; [done|done|by rewrite E|done].
    + rewrite lookup_delete_None. right. rewrite <- (ly_joined _ _ _ _ H nxt sn Hsn H1n). f_equal. lia.
    + by apply precedes_delete.
    + by rewrite lookup_delete_ne.
    + unfold m1. rewrite size_set_ptr by (by left). rewrite u32_small by lia. apply size_set_size. lia.
    + unfold m1. rewrite ptr_set_ptr by apply ld64_range. eapply follows_delete; [eauto|done|exact Hn|].
      apply (lk_next _ _ Hl); eauto.
    + intros a t [Ha Hat]%lookup_delete_Some. rewrite (size_same bp m m1 a S1); [by apply (lk_size _ _ Hl)|by eapply free_far].
    + intros a [Ha [t Hat]]%dom_delete_iff Hap. rewrite (ptr_same bp m m1 a S1) by (by eapply free_far).
      eapply follows_delete_other; [..|exact Hn|done|apply (lk_next _ _ Hl)]; eauto.
    + rewrite (units_delete _ _ _ Hsn). lia.
  - set (m1 := set_ptr bp nxt m). assert (S1 : same_but bp m m1) by (unfold m1; eauto).
    exists free, s. constructor; [| |exact Hp|done| | | | |exact S1|done|done|done].
    + by rewrite (insert_id al bp s Hbp).
    + apply eq_None_not_Some. intros Hx. destruct Hn as [_ Hn]. specialize (Hmax _ Hx) as Hc.
      pose proof (Hmax nxt (mk_is_Some _ _ Hsn)). destruct Hx as [t Ht]. pose proof (apart_other _ _ _ _ H nxt sn bp s Hsn Hbp) as Hap. unfold span, sizeof_Header in *.
      destruct Hn as [[N1 N2]|[N1 N2]]; [pose proof (N2 _ (mk_is_Some _ _ Ht))|pose proof (N1 _ (mk_is_Some _ _ Ht))]; lia.
    + unfold m1. rewrite size_set_ptr by (by left). done.
    + unfold m1. rewrite ptr_set_ptr by lia. done.
    + intros a t Ha. rewrite (size_same bp m m1 a S1); [by apply (lk_size _ _ Hl)|by eapply free_far].
    + intros a [t Ha] Hap. rewrite (ptr_same bp m m1 a S1) by (by eapply free_far). apply (lk_next _ _ Hl). eauto.
Qed.

(** The block is freed: in its place, or joined with the block before it. *)
Record freed (free' : gmap Z Z) (m' : mem) : Prop := {
  fr_blocks : blocks_ok base lim free' (delete bp al);
  fr_linked : linked m' free';
  fr_prev : is_Some (free' !! p);
  fr_same : forall x, (x < p \/ p + sizeof_Header <= x) -> (x < bp \/ bp + sizeof_Header <= x) -> rd m' x = rd m x;
  fr_units : units free' = units free + s;
  fr_fits : exists a t, free' !! a = Some t /\ s <= t;
  fr_count : (size free' <= S (size free))%nat;
}.

Lemma free_join_spec : exists free', freed free' (free_join m bp p).
Proof.
  destruct join_next_spec as (free1 & s1 & J). change (free_join m bp p) with
    (let m := join_next in
     if hplus p (h_size m p) =? bp then
       let m := set_size p (u32 (h_size m p + h_size m bp)) m in set_ptr p (h_ptr m bp) m
     else set_ptr p bp m).
  cbv zeta. set (m1 := join_next) in *. pose proof J as [J1 J2 J3 J4 J5 J6 J7 J8 J9 J10 J11 J12].
  pose proof J3 as ([sp Hsp] & Hpb & Hmax). pose proof (J7 p sp Hsp) as Hzp.
  assert (Hb1 : <[bp := s1]> al !! bp = Some s1) by apply lookup_insert_eq.
  assert (Hfar : far p bp).
  { eapply (blocks_far base lim free1); [exact J1|by left|by right|lia]. }
  assert (Hfp : forall a t, free1 !! a = Some t -> a <> p -> far p a).
  { intros a t Ha Hne. eapply (blocks_far base lim free1); [exact J1|by left|by left|done]. }
  pose proof (block_range _ _ _ _ _ _ J1 (or_introl Hsp)) as Hrp.
  pose proof (block_range _ _ _ _ _ _ J1 (or_intror Hb1)) as Hrb. pose proof (ly_al _ _ _ _ J1 bp s1 Hb1) as H1s.
  assert (Hdel : delete bp al = delete bp (<[bp := s1]> al)) by (by rewrite delete_insert_eq).
  rewrite Hzp, J5. unfold hplus. destruct (Z.eqb_spec (p + sizeof_Header * sp) bp) as [E|E].
  - assert (H1p : 1 <= sp) by (destruct (ly_free _ _ _ _ J1 p sp Hsp); unfold sizeof_Header in *; lia).
    rewrite (ptr_set_size p _ m1 bp) by (by right).
    set (m2 := set_ptr p (h_ptr m1 bp) _). assert (S2 : same_but p m1 m2) by (unfold m2; eauto).
    exists (<[p := sp + s1]> free1). constructor.
    + rewrite Hdel. by apply absorb_prev.
    + constructor.
      * intros a t [[<- <-]|[Hne Ha]]%lookup_insert_Some.
        -- unfold m2. rewrite size_set_ptr, u32_small by (by left || lia). apply size_set_size. lia.
        -- rewrite (size_same p m1 m2 a S2); [by apply J7|]. by eapply Hfp.
      * intros a Ha. apply (follows_dom free1).
        { intros c. rewrite dom_insert_iff. split; [intros [->|]; eauto|by right]. }
        apply dom_insert_iff in Ha. destruct (decide (a = p)) as [->|Hne].
        -- unfold m2. by rewrite ptr_set_ptr by apply ld64_range.
        -- destruct Ha as [|[t Ha]]; [done|]. rewrite (ptr_same p m1 m2 a S2); [apply J8; eauto|]. by eapply Hfp.
    + rewrite lookup_insert_eq. eauto.
    + intros x Hx Hx'. by rewrite S2, J9.
    + rewrite (units_update _ _ _ _ Hsp). lia.
    + exists p, (sp + s1). rewrite lookup_insert_eq. split; [done|lia].
    + rewrite map_size_insert_Some by eauto. lia.
  - set (m2 := set_ptr p bp m1). assert (S2 : same_but p m1 m2) by (unfold m2; eauto).
    assert (Hnb : free1 !! bp = None).
    { apply eq_None_not_Some. intros Hx. by eapply (ly_disj _ _ _ _ J1 bp); eauto. }
    exists (<[bp := s1]> free1). constructor.
    + rewrite Hdel. apply give_block; [done|done|done|]. intros a t Ha Ht Ea.
      assert (a = p) as ->; [|congruence]. specialize (Hmax a (mk_is_Some _ _ Ha)).
      destruct (apart2 _ _ _ _ J1 a t p sp (or_introl Ha) (or_introl Hsp)) as [|Hap]; [done|].
      unfold span, sizeof_Header in *. lia.
    + constructor.
      * intros a t [[<- <-]|[Hne Ha]]%lookup_insert_Some.
        -- by rewrite (size_same p m1 m2 bp S2).
        -- destruct (decide (a = p)) as [->|Hap]; [unfold m2; rewrite size_set_ptr by (by left); by apply J7|].
           rewrite (size_same p m1 m2 a S2); [by apply J7|]. by eapply Hfp.
      * intros a [->|[t Ha]]%dom_insert_iff; [rewrite (ptr_same p m1 m2 bp S2) by done; by eapply follows_insert_new|].
        destruct (decide (a = p)) as [->|Hap].
        -- unfold m2. rewrite ptr_set_ptr by lia. by apply follows_insert_at.
        -- rewrite (ptr_same p m1 m2 a S2) by (by eapply Hfp). eapply follows_insert_other; eauto.
    + apply dom_insert_iff. eauto.
    + intros x Hx Hx'. by rewrite S2, J9.
    + rewrite units_insert by done. lia.
    + exists bp, s1. by rewrite lookup_insert_eq.
    + rewrite map_size_insert_None by done. lia.
Qed.
End Free.

(** ** The heap *)

Record heap_ok (base lim : Z) (h : heap) (free al : gmap Z Z) : Prop := {
  hk_blocks : blocks_ok base lim free al;
  hk_linked : linked (h_mem h) free;
  hk_freep : is_Some (free !! freep h);
  hk_sizes : forall a s, al !! a = Some s -> h_size (h_mem h) a = s;
}.

(** The blocks of the program, with their headers, are not written. *)
Definition untouched (al : gmap Z Z) (m m' : mem) : Prop :=
  forall a s x, al !! a = Some s -> a <= x < a + sizeof_Header * s -> rd m' x = rd m x.

Lemma untouched_size al m m' a s :
  untouched al m m' -> al !! a = Some s -> 1 <= s -> h_size m' a = h_size m a.
Proof.
  intros H Ha Hs. unfold h_size. apply ldn_ext. intros i Hi. apply (H a s); [done|]. unfold sizeof_Header. lia.
Qed.

Lemma heap_freep base lim h free al : heap_ok base lim h free al -> freep h <> 0.
Proof.
  intros H. destruct (hk_freep _ _ _ _ _ H) as [s Hs].
  pose proof (block_range _ _ _ _ _ _ (hk_blocks _ _ _ _ _ H) (or_introl Hs)). lia.
Qed.

Record free_result (base lim : Z) (h h' : heap) (free free' al : gmap Z Z) (bp s : Z) : Prop := {
  frr_heap : heap_ok base lim h' free' (delete bp al);
  frr_units : units free' = units free + s;
  frr_same : untouched (delete bp al) (h_mem h) (h_mem h');
  frr_fits : exists a t, free' !! a = Some t /\ s <= t;
  frr_count : (size free' <= S (size free))%nat;
}.

Lemma u_free_ok base lim h free al bp s fuel :
  heap_ok base lim h free al -> al !! bp = Some s -> (size free <= S fuel)%nat ->
  exists h' free', u_free fuel h (bp + sizeof_Header) = Some h' /\ free_result base lim h h' free free' al bp s.
Proof.
  intros [H1 H2 H3 H4] Hbp Hf.
  assert (Hlt : base < bp).
  { pose proof (ly_range _ _ _ _ H1 bp s (or_intror Hbp)). destruct (decide (bp = base)) as [->|]; [|lia].
    exfalso. eapply (ly_disj _ _ _ _ H1 base); [rewrite (ly_base _ _ _ _ H1)|]; eauto. }
  assert (Hb : is_Some (free !! base)) by (rewrite (ly_base _ _ _ _ H1); eauto).
  destruct (precedes_exists free base bp Hb Hlt) as [p Hp].
  { apply eq_None_not_Some. intros Hx. by eapply (ly_disj _ _ _ _ H1 bp); eauto. }
  unfold u_free. replace (bp + sizeof_Header - sizeof_Header) with bp by lia.
  rewrite (free_find_spec (h_mem h) free base bp p H2 Hb Hlt Hp fuel (freep h) H3)
    by (pose proof (walk_size free (freep h) p); lia).
  destruct (free_join_spec base lim free al (h_mem h) bp s p H1 H2 Hbp (H4 _ _ Hbp) Hp) as (free' & F).
  assert (Hsame : untouched (delete bp al) (h_mem h) (free_join (h_mem h) bp p)).
  { intros a t x [Hne Ha]%lookup_delete_Some Hx. pose proof (ly_al _ _ _ _ H1 a t Ha). destruct Hp as ([sp Hsp] & _).
    pose proof (apart_other _ _ _ _ H1 p sp a t Hsp Ha) as A1.
    pose proof (apart2 _ _ _ _ H1 a t bp s (or_intror Ha) (or_intror Hbp)) as A2. unfold span, sizeof_Header in *.
    apply (fr_same _ _ _ _ _ _ _ _ _ _ F); unfold sizeof_Header; lia. }
  do 2 eexists. split; [reflexivity|]. destruct F as [F1 F2 F3 F4 F5 F6 F7]. constructor; try done.
  constructor; try done. intros a t Ha. cbn [h_mem]. rewrite (untouched_size _ _ _ a t Hsame Ha).
  - apply H4. by apply lookup_delete_Some in Ha as [_ ?].
  - by apply (ly_al _ _ _ _ F1 a).
Qed.

(** ** malloc *)

Record malloc_result (base lim : Z) (h h' : heap) (free free' al : gmap Z Z) (q n : Z) : Prop := {
  mr_heap : heap_ok base lim h' free' (<[q := n]> al);
  mr_fresh : al !! q = None;
  mr_same : untouched al (h_mem h) (h_mem h');
  mr_units : units free' = units free - n;
}.

Section Take.
Context (base lim : Z) (h : heap) (free al : gmap Z Z) (prevp p s n : Z).
Context (Hk : heap_ok base lim h free al) (Hv : is_Some (free !! prevp)) (Hnext : h_ptr (h_mem h) prevp = p).
Context (Hp : free !! p = Some s) (Hn : 1 <= n <= s).

Let H1 := hk_blocks _ _ _ _ _ Hk.
Let H2 := hk_linked _ _ _ _ _ Hk.

Lemma take_not_base : p <> base.
Proof. intros E. pose proof Hp as Hx. rewrite E, (ly_base _ _ _ _ H1) in Hx. injection Hx. lia. Qed.

Lemma take_follows : follows free prevp p.
Proof. rewrite <- Hnext. by apply (lk_next _ _ H2). Qed.

Lemma take_prev_ne : prevp <> p.
Proof.
  intros E. pose proof take_not_base. destruct take_follows as [_ [[? ?]|[F1 F2]]]; [lia|].
  pose proof (F1 _ (mk_is_Some _ _ (ly_base _ _ _ _ H1))). pose proof (F2 _ (mk_is_Some _ _ (ly_base _ _ _ _ H1))). lia.
Qed.

Lemma taken_apart a t b u : al !! a = Some t -> free !! b = Some u -> a + sizeof_Header * t <= b \/ b + span u <= a.
Proof. intros Ha Hb. pose proof (apart_other _ _ _ _ H1 b u a t Hb Ha). unfold span, sizeof_Header in *. lia. Qed.

Lemma free_far_free a t b u : free !! a = Some t -> free !! b = Some u -> a <> b -> far a b.
Proof. intros Ha Hb. eapply (blocks_far base lim free al); [exact H1|by left|by left]. Qed.

(** All of block [p]. *)
Lemma take_exact : s = n ->
  malloc_result base lim h (mkheap (set_ptr prevp (h_ptr (h_mem h) p) (h_mem h)) prevp) free (delete p free) al p n.
Proof.
  pose proof Hv as [sv Hsv]. pose proof take_prev_ne as Hne. pose proof take_follows as Hf.
  pose proof take_not_base as Hnb. pose proof taken_apart as Hal. pose proof free_far_free as Hff. intros <-.
  pose proof (lk_next _ _ H2 p (mk_is_Some _ _ Hp)) as Hg.
  set (m' := set_ptr prevp (h_ptr (h_mem h) p) (h_mem h)).
  assert (S1 : same_but prevp (h_mem h) m') by (unfold m'; eauto).
  assert (Hz : forall a t, free !! a = Some t -> h_size m' a = t).
  { intros a t Ha. unfold m'. rewrite size_set_ptr; [by apply (lk_size _ _ H2)|].
    destruct (decide (prevp = a)) as [|Hx]; [by left|right]. by eapply Hff. }
  assert (Hu : untouched al (h_mem h) m').
  { intros a t x Ha Hx. apply S1. pose proof (Hal a t prevp sv Ha Hsv). unfold span, sizeof_Header in *. lia. }
  constructor; [constructor| |done|by apply units_delete].
  - apply take_all; [exact H1|done|exact Hnb].
  - constructor; cbn [h_mem]; [intros a t [_ Ha]%lookup_delete_Some; auto|]. intros a [Ha [t Hat]]%dom_delete_iff.
    destruct (decide (a = prevp)) as [->|Hav].
    + unfold m'. rewrite ptr_set_ptr by apply ld64_range. eapply follows_delete; eauto.
    + rewrite (ptr_same prevp (h_mem h) m' a S1) by (by eapply Hff).
      eapply follows_delete_other; [..|exact Hf|done|apply (lk_next _ _ H2)]; eauto.
  - cbn [freep]. apply dom_delete_iff. eauto.
  - cbn [h_mem]. intros a t [[<- <-]|[Hx Ha]]%lookup_insert_Some; [auto|].
    rewrite (untouched_size _ _ _ a t Hu Ha); [by apply (hk_sizes _ _ _ _ _ Hk)|]. by apply (ly_al _ _ _ _ H1 a).
  - apply eq_None_not_Some. intros Hx. by eapply (ly_disj _ _ _ _ H1 p); eauto.
Qed.

(** Its last [n] units. *)
Lemma take_split : s <> n ->
  let q := p + sizeof_Header * (s - n) in
  malloc_result base lim h (mkheap (set_size q n (set_size p (s - n) (h_mem h))) prevp) free (<[p := s - n]> free) al q n.
Proof.
  intros Hsn q. pose proof (block_range _ _ _ _ _ _ H1 (or_introl Hp)) as Hr. pose proof taken_apart as Hal.
  set (m1 := set_size p (s - n) (h_mem h)). set (m' := set_size q n m1).
  assert (Hq : forall a t, owned free al a t -> a = p \/ far q a).
  { intros a t Ha. destruct (apart2 _ _ _ _ H1 a t p s Ha (or_introl Hp)) as [|Hx]; [by left|].
    right. subst q. unfold span in *. hfar. }
  assert (Hqp : far q p) by (subst q; hfar).
  assert (Hz : forall a t, owned free al a t -> h_size m' a = if decide (a = p) then s - n else h_size (h_mem h) a).
  { intros a t Ha. unfold m', m1. case_decide as Hd; [subst a|].
    - rewrite size_set_size_far by done. apply size_set_size. lia.
    - rewrite !size_set_size_far; [done|by eapply (blocks_far base lim free al); [exact H1|left|exact Ha|]|].
      by destruct (Hq a t Ha). }
  assert (Hu : untouched al (h_mem h) m').
  { intros a t x Ha Hx. specialize (Hal a t p s Ha Hp). unfold m', m1, set_size.
    rewrite !rd_stn_out; [done|..]; subst q; unfold span, sizeof_Header in *; lia. }
  assert (Hqn : al !! q = None).
  { apply eq_None_not_Some. intros [t Ht]. destruct (Hq q t (or_intror Ht)) as [E|E]; [|hfar].
    subst q. unfold sizeof_Header in *. lia. }
  constructor; [constructor|done|done|].
  - apply take_tail; [exact H1|done|lia].
  - constructor; cbn [h_mem].
    + intros a t [[<- <-]|[Hx Ha]]%lookup_insert_Some.
      * rewrite (Hz p s (or_introl Hp)). by rewrite decide_True.
      * rewrite (Hz a t (or_introl Ha)), decide_False by done. by apply (lk_size _ _ H2).
    + intros a Ha. assert (Hfa : is_Some (free !! a)) by (apply dom_insert_iff in Ha as [->|]; eauto).
      apply (follows_dom free). { intros c. rewrite dom_insert_iff. split; [intros [->|]; eauto|by right]. }
      destruct Hfa as [t Hat]. unfold m', m1. rewrite !ptr_set_size.
      * apply (lk_next _ _ H2). eauto.
      * destruct (decide (p = a)) as [|Hx]; [by left|right]. by eapply free_far_free.
      * destruct (Hq a t (or_introl Hat)) as [->|]; by right.
  - cbn [freep]. apply dom_insert_iff. eauto.
  - cbn [h_mem]. intros a t [[<- <-]|[Hx Ha]]%lookup_insert_Some.
    + unfold m'. apply size_set_size. lia.
    + rewrite (untouched_size _ _ _ a t Hu Ha); [by apply (hk_sizes _ _ _ _ _ Hk)|]. by apply (ly_al _ _ _ _ H1 a).
  - rewrite (units_update _ _ _ _ Hp). lia.
Qed.

Lemma take_block_ok : exists q m' free', take_block (h_mem h) prevp p n = (q, m') /\
  malloc_result base lim h (mkheap m' prevp) free free' al q n.
Proof.
  pose proof (block_range _ _ _ _ _ _ H1 (or_introl Hp)) as Hr.
  unfold take_block. rewrite (lk_size _ _ H2 p s Hp). destruct (Z.eqb_spec s n) as [E|E].
  - do 3 eexists. split; [done|]. by apply take_exact.
  - rewrite u32_small, size_set_size by lia. do 3 eexists. split; [done|]. by apply take_split.
Qed.
End Take.

(** What [malloc] does when it is back at [freep]. *)
Definition ask_more (fuel : nat) (h : heap) (nunits : Z) : prog (Z * heap) :=
  do r <- morecore fuel h nunits;
  let '(p, h) := r in
  if p =? 0 then Ret (0, h) else malloc_loop fuel h p (h_ptr (h_mem h) p) nunits.

(** A walk of [malloc]: it takes a block, or comes back to [freep] and has
    seen that no block is large enough. *)
Lemma malloc_walk base lim h free al n :
  heap_ok base lim h free al -> 1 <= n ->
  forall fuel prevp p, is_Some (free !! prevp) -> h_ptr (h_mem h) prevp = p ->
  (size (walk free p (freep h)) <= fuel)%nat ->
  (exists q h' free', malloc_loop fuel h prevp p n = Ret (hplus q 1, h') /\
     malloc_result base lim h h' free free' al q n) \/
  (exists fuel', (fuel <= fuel' + size (walk free p (freep h)))%nat /\
     malloc_loop fuel h prevp p n = ask_more fuel' h n /\
     forall c s, free !! c = Some s -> ahead p (freep h) c -> s < n).
Proof.
  intros Hk Hn. pose proof Hk as [H1 H2 H3 H4].
  induction fuel as [|fuel IH]; intros prevp p Hv Hnext Hsz.
  { exfalso. pose proof (lk_next _ _ H2 prevp Hv) as [[s Hp] _]. rewrite Hnext in Hp.
    assert (E : walk free p (freep h) = ∅) by (apply map_size_empty_inv; lia).
    assert (Hw : walk free p (freep h) !! p = Some s) by (apply walk_lookup; split; [done|apply ahead_self]).
    by rewrite E in Hw. }
  pose proof (lk_next _ _ H2 prevp Hv) as [[s Hp] _]. rewrite Hnext in Hp.
  cbn [malloc_loop]. rewrite (lk_size _ _ H2 p s Hp). destruct (Z.leb_spec n s) as [Hle|Hlt].
  { left. destruct (take_block_ok base lim h free al prevp p s n Hk Hv Hnext Hp) as (q & m' & free' & E & R); [lia|].
    rewrite E. eauto. }
  destruct (Z.eqb_spec p (freep h)) as [->|Hne].
  { right. exists fuel. assert (Hw : (0 < size (walk free (freep h) (freep h)))%nat).
    { apply Nat.neq_0_lt_0. rewrite map_size_non_empty_iff. intros E.
      assert (X : walk free (freep h) (freep h) !! freep h = Some s) by (apply walk_lookup; split; [done|apply ahead_self]).
      by rewrite E in X. }
    split_and!; [lia|done|]. intros c t Hc Ha. unfold ahead in Ha. rewrite decide_True in Ha by lia.
    assert (c = freep h) as -> by lia. congruence. }
  pose proof (lk_next _ _ H2 p (mk_is_Some _ _ Hp)) as Hf.
  pose proof (walk_follows free p _ (freep h) (mk_is_Some _ _ Hp) H3 Hne Hf) as Hw.
  destruct (IH p _ (mk_is_Some _ _ Hp) eq_refl) as [R|(fuel' & Hfu & E & Hall)]; [lia|by left|].
  right. exists fuel'. split_and!; [lia|done|]. intros c t Hc Ha.
  apply (ahead_follows free p _ (freep h) c (mk_is_Some _ _ Hp) H3 Hne Hf (mk_is_Some _ _ Hc)) in Ha as [->|Ha].
  - congruence.
  - by apply (Hall c).
Qed.

(** The same for a walk from [freep] on, which sees every block. *)
Lemma malloc_round base lim h free al n fuel :
  heap_ok base lim h free al -> 1 <= n -> (size free <= fuel)%nat ->
  (exists q h' free', malloc_loop fuel h (freep h) (h_ptr (h_mem h) (freep h)) n = Ret (hplus q 1, h') /\
     malloc_result base lim h h' free free' al q n) \/
  (exists fuel', (fuel <= fuel' + size free)%nat /\
     malloc_loop fuel h (freep h) (h_ptr (h_mem h) (freep h)) n = ask_more fuel' h n /\
     forall c s, free !! c = Some s -> s < n).
Proof.
  intros Hk Hn Hf. pose proof (walk_size free (h_ptr (h_mem h) (freep h)) (freep h)) as Hw.
  destruct (malloc_walk base lim h free al n Hk Hn fuel (freep h) _ (hk_freep _ _ _ _ _ Hk) eq_refl) as [R|(fuel' & H1 & H2 & H3)];
    [lia|by left|]. right. exists fuel'. split_and!; [lia|done|]. intros c s Hc. apply (H3 c s Hc).
  eapply ahead_all; [apply Hk|apply (lk_next _ _ (hk_linked _ _ _ _ _ Hk)), Hk|eauto].
Qed.

(** The units that [malloc] asks the kernel for. *)
Definition more_units (n : Z) : Z := Z.max 4096 n.

Lemma grow_ok base lim h free al q n :
  heap_ok base lim h free al -> lim <= q -> 1 <= n < 2 ^ 32 -> q + sizeof_Header * n <= 2 ^ 35 ->
  heap_ok base (q + sizeof_Header * n) (mkheap (set_size q n (h_mem h)) (freep h)) free (<[q := n]> al) /\
  al !! q = None /\ untouched al (h_mem h) (set_size q n (h_mem h)).
Proof.
  intros [H1 H2 H3 H4] Hq Hn Hl.
  assert (Hfar : forall a s, owned free al a s -> far q a).
  { intros a s Ha. pose proof (ly_range _ _ _ _ H1 a s Ha). unfold span in *. hfar. }
  split_and!.
  - constructor; cbn [h_mem freep]; [eapply grow_heap; [exact H1|lia..]|constructor|done|].
    + intros a s Ha. rewrite size_set_size_far by (by eapply Hfar; left). by apply (lk_size _ _ H2).
    + intros a Ha. rewrite ptr_set_size by (right; destruct Ha; by eapply Hfar; left). by apply (lk_next _ _ H2).
    + intros a s [[<- <-]|[Hne Ha]]%lookup_insert_Some; [apply size_set_size; lia|].
      rewrite size_set_size_far by (by eapply Hfar; right). auto.
  - apply eq_None_not_Some. intros [s Hs]. specialize (Hfar q s (or_intror Hs)). hfar.
  - intros a s x Ha Hx. pose proof (ly_range _ _ _ _ H1 a s (or_intror Ha)). pose proof (ly_al _ _ _ _ H1 a s Ha).
    unfold set_size. apply rd_stn_out. unfold span, sizeof_Header in *. lia.
Qed.

(** ** The theorems *)

(** A kernel that answers [sbrk] with [q], and the sizes it was asked for. *)
Definition sbrk_handler (q : Z) : handler (list Z) := fun X e =>
  match e in sys Y return list Z -> Y * list Z with
  | Ssbrk n => fun w => (q, w ++ [n])
  | e => fun w => (refused e, w)
  end.

(** The heap after the first lines of [malloc], which make the list. *)
Definition started (base : Z) (h : heap) : heap :=
  if freep h =? 0 then mkheap (set_size base 0 (set_ptr base base (h_mem h))) base else h.

Lemma started_ok base h : freep h = 0 -> 0 < base < 2 ^ 34 ->
  heap_ok base (base + sizeof_Header) (started base h) {[base := 0]} ∅.
Proof.
  intros Hz Hb. unfold started. rewrite Hz. cbn [Z.eqb].
  assert (Hs : forall a s, ({[base := 0]} : gmap Z Z) !! a = Some s -> a = base /\ s = 0).
  { by intros a s [-> ->]%lookup_singleton_Some. }
  assert (Hi : forall a, is_Some (({[base := 0]} : gmap Z Z) !! a) -> a = base).
  { intros a [s Ha]. by apply Hs in Ha as [-> _]. }
  assert (Hb0 : ({[base := 0]} : gmap Z Z) !! base = Some 0) by apply lookup_singleton_eq.
  assert (Ho : forall a s, owned {[base := 0]} ∅ a s -> a = base /\ s = 0).
  { intros a s [Ha|Ha]; [by apply Hs|]. by rewrite lookup_empty in Ha. }
  constructor; cbn [h_mem freep].
  - constructor; try done.
    + intros a s Ha. left. by apply Hs in Ha as [? _].
    + intros a _ [s Hx]. by rewrite lookup_empty in Hx.
    + intros a s b t [-> ->]%Ho [-> ->]%Ho. lia.
    + intros a s [-> ->]%Ho. unfold span, sizeof_Header. lia.
    + intros a s [-> ->]%Hs. lia.
    + unfold sizeof_Header. lia.
  - constructor.
    + intros a s [-> ->]%Hs. apply size_set_size. lia.
    + intros a ->%Hi. rewrite ptr_set_size by (by left). rewrite ptr_set_ptr by lia. split; [eauto|].
      right. split; intros c ->%Hi; lia.
  - eauto.
  - intros a s Ha. by rewrite lookup_empty in Ha.
Qed.

(** The request to the kernel, and what follows when it is granted. *)
Lemma ask_more_run base lim h free al n q fuel w :
  heap_ok base lim h free al -> 1 <= n -> sizeof_Header * more_units n < 2 ^ 31 ->
  lim <= q -> q + sizeof_Header * more_units n <= 2 ^ 35 -> (size free < fuel)%nat ->
  exists p h' free', run (sbrk_handler q) (ask_more fuel h n) w =
      (Returned (hplus p 1, h'), w ++ [sizeof_Header * more_units n]) /\
    heap_ok base (q + sizeof_Header * more_units n) h' free' (<[p := n]> al) /\ al !! p = None /\
    untouched al (h_mem h) (h_mem h') /\ units free' = units free + more_units n - n.
Proof.
  intros Hk Hn Hm Hq Hl Hf. set (nu := more_units n) in *.
  assert (Hnu : 1 <= nu < 2 ^ 32 /\ n <= nu) by (unfold nu, more_units, sizeof_Header in *; lia).
  destruct (grow_ok base lim h free al q nu Hk Hq (proj1 Hnu) Hl) as (G1 & G2 & G3).
  destruct (u_free_ok _ _ _ _ _ q nu fuel G1) as (h2 & free2 & E & [F1 F2 F3 F4 F5]); [apply lookup_insert_eq|lia|].
  rewrite delete_insert_id in F1, F3 by done. cbn [h_mem] in F3.
  destruct (malloc_round _ _ h2 free2 al n fuel F1 Hn) as [(p & h' & free' & E' & [R1 R2 R3 R4])|(f' & _ & _ & Hall)]; [lia| |].
  - exists p, h', free'. split_and!; [|done|done| |lia].
    + unfold ask_more, morecore. rewrite run_bind.
      replace (if n <? 4096 then 4096 else n) with nu by (unfold nu, more_units; case_ztest; lia).
      rewrite run_bind. cbn [run call sbrk_handler fst snd].
      replace (s32 (nu * sizeof_Header)) with (sizeof_Header * nu)
        by (rewrite s32_small; unfold nu, more_units, sizeof_Header in *; lia).
      pose proof (ly_range _ _ _ _ (hk_blocks _ _ _ _ _ Hk) base 0 (or_introl (ly_base _ _ _ _ (hk_blocks _ _ _ _ _ Hk)))) as Hb.
      pose proof (ly_lim _ _ _ _ (hk_blocks _ _ _ _ _ Hk)) as Hb'.
      destruct (Z.eqb_spec q (-1)); [unfold span, sizeof_Header in *; lia|].
      unfold hplus. rewrite Z.mul_1_r, E. cbn [run].
      destruct (Z.eqb_spec (freep h2) 0) as [E0|]; [by apply heap_freep in F1|]. by rewrite E'.
    + intros a s x Ha Hx. by rewrite (R3 a s x Ha Hx), (F3 a s x Ha Hx), (G3 a s x Ha Hx).
  - exfalso. destruct F4 as (a & t & Ha & Ht). specialize (Hall a t Ha). lia.
Qed.

Lemma nunits_bounds nbytes : 0 <= nbytes < 2 ^ 31 - 32 ->
  1 <= nunits_of nbytes /\ nbytes <= sizeof_Header * (nunits_of nbytes - 1) /\
  sizeof_Header * more_units (nunits_of nbytes) < 2 ^ 31.
Proof.
  intros Hb. unfold nunits_of, more_units, sizeof_Header.
  assert (E : u32 ((nbytes + 16 - 1) / 16 + 1) = (nbytes + 16 - 1) / 16 + 1) by (apply u32_small; divlia).
  rewrite E. split_and!; divlia.
Qed.


(** C31. [free] of a block that [malloc] gave puts its units back into the free
    list, keeps the list ordered, linked and joined, and writes to no other
    block of the program. *)
Theorem u_free_correct (base lim : Z) (h : heap) (free al : gmap Z Z) (p s : Z) (fuel : nat) :
  heap_ok base lim h free al -> al !! p = Some s -> (size free <= fuel)%nat ->
  exists h' free', u_free fuel h (p + sizeof_Header) = Some h' /\
    heap_ok base lim h' free' (delete p al) /\ units free' = units free + s /\
    untouched (delete p al) (h_mem h) (h_mem h').
Proof.
  intros Hk Hp Hf. destruct (u_free_ok base lim h free al p s fuel Hk Hp) as (h' & free' & E & [F1 F2 F3 _ _]); [lia|].
  by exists h', free'.
Qed.

(** ** Examples *)

Definition heap0 : heap := mkheap ∅ 0.

Lemma heap0_ok : heap_ok 4096 (4096 + sizeof_Header) (started 4096 heap0) {[4096 := 0]} ∅.
Proof. apply started_ok; [done|lia]. Qed.


(** The whole of the memory that the kernel gave, freed again. *)
Lemma u_free_correct_witness :
  exists h' free', u_free 1 (mkheap (set_size 8192 4096 (h_mem (started 4096 heap0))) 4096) (8192 + 16) = Some h' /\
    heap_ok 4096 (8192 + 16 * 4096) h' free' (delete 8192 {[8192 := 4096]}) /\ units free' = 4096.
Proof.
  destruct (grow_ok 4096 _ (started 4096 heap0) _ ∅ 8192 4096 heap0_ok) as (G & _); [by vm_compute|lia|by vm_compute|].
  destruct (u_free_correct 4096 (8192 + sizeof_Header * 4096)
    (mkheap (set_size 8192 4096 (h_mem (started 4096 heap0))) 4096) {[4096 := 0]} {[8192 := 4096]} 8192 4096 1)
    as (h' & free' & E & H1 & H2 & _).
  - exact G.
  - reflexivity.
  - rewrite map_size_singleton. lia.
  - exists h', free'. split_and!; [exact E|exact H1|exact H2].
Defined.

(** A request of nearly 4 GB wraps around in the [int] that [sbrk] takes: the
    kernel is asked for one header, and the block is entered with all the
    units of the request. *)
Lemma u_malloc_wraps :
  let r := run (sbrk_handler 8192) (u_malloc 3 4096 heap0 (2 ^ 32 - 1)) [] in
  match r with
  | (Returned (ap, h), w) => ap = 8192 + 16 /\ w = [16] /\ h_size (h_mem h) 8192 = 2 ^ 28 + 1
  | _ => False
  end.
Proof. vm_compute. by split_and!. Qed.
