(* ===== verification/Grep.v ===== *)
(** * grep

    Models [src/xv6-os/user/grep.c]. A string is the list of its bytes before
    the NUL. *)
From S2P Require Import Prelude CString Blocks Printf User.

Definition nl : Z := 10.

(** The loop of [matchstar]; [f] is [matchhere] at the rest of the pattern. *)
Fixpoint star_loop (f : list Z -> bool) (c : Z) (text : list Z) : bool :=
  if f text then true
  else match text with
       | [] => false
       | t :: text => if (t =? c) || (c =? ch ".") then star_loop f c text else false
       end.

Fixpoint matchhere (re text : list Z) : bool :=
  match re with
  | [] => true
  | c :: re1 =>
      let one : bool :=
        match text with
        | [] => false
        | t :: text => if (c =? ch ".") || (c =? t) then matchhere re1 text else false
        end in
      match re1 with
      | d :: re2 => if d =? ch "*" then star_loop (matchhere re2) c text else one
      | [] => if c =? ch "$" then (match text with [] => true | _ => false end) else one
      end
  end.

Definition matchstar (c : Z) (re text : list Z) : bool := star_loop (matchhere re) c text.

(** The loop of [match], over the suffixes of the text. *)
Fixpoint match_loop (re text : list Z) : bool :=
  if matchhere re text then true
  else match text with [] => false | _ :: text => match_loop re text end.

Definition match_re (re text : list Z) : bool :=
  match re with
  | c :: re1 => if c =? ch "^" then matchhere re1 text else match_loop re text
  | [] => match_loop re text
  end.

(** [strchr(p, '\n')] as an index; it stops at a NUL. *)
Fixpoint strchr_nl (p : list Z) : option nat :=
  match p with
  | [] => None
  | c :: p => if c =? 0 then None else if c =? nl then Some O else option_map S (strchr_nl p)
  end.

(** The lines of the buffer from [p] on; what is left of it. *)
Fixpoint grep_lines (k : nat) (pattern p : list Z) : prog (list Z) :=
  match strchr_nl p with
  | None => Ret p
  | Some q =>
      match k with
      | O => NoFuel
      | S k =>
          (if match_re pattern (take q p) then call (Swrite 1 (take (S q) p)) ,, Ret tt else Ret tt) ,,
          grep_lines k pattern (drop (S q) p)
      end
  end.

Definition GREP_BUF : Z := 1024.

(** [buf] holds the [m] bytes that are kept from one read to the next. *)
Fixpoint grep (fuel : nat) (pattern : list Z) (fd : Z) (buf : list Z) : prog unit :=
  match fuel with
  | O => NoFuel
  | S fuel =>
      do r <- call (Sread fd (GREP_BUF - zlen buf - 1));
      if r.1 <=? 0 then Ret tt
      else
        let buf := buf ++ r.2 in
        do p <- grep_lines (length buf) pattern buf;
        grep fuel pattern fd p
  end.

Fixpoint grep_files (fuel : nat) (pattern : list Z) (files : list (list Z)) : prog unit :=
  match files with
  | [] => Exit 0
  | f :: files =>
      do fd <- call (Sopen f 0);
      if fd <? 0 then
        u_printf (str "grep: cannot open %s" ++ [nl]) [PStr (Some f)] ,,
        Exit 1
      else
        grep fuel pattern fd [] ,,
        call (Sclose fd) ,,
        grep_files fuel pattern files
  end.

(** [main] of grep.c; [argv] includes the name of the program. *)
Definition grep_main (fuel : nat) (argv : list (list Z)) : prog unit :=
  match argv with
  | [] | [_] =>
      u_fprintf 2 (str "usage: grep pattern [file ...]" ++ [nl]) [] ,,
      Exit 1
  | [_; pattern] => grep fuel pattern 0 [] ,, Exit 0
  | _ :: pattern :: files => grep_files fuel pattern files
  end.
