(* ===== verification/GrepSpec.v ===== *)
(** * Correctness of grep

    The matcher is equivalent to a reference semantics of its patterns as
    languages, and the program prints the lines that match. *)
From S2P Require Import Prelude CString Blocks Printf User Grep.

(** ** The language of a pattern *)

(** A pattern is a sequence of items, a character or [.], alone or starred,
    and may end in [$]. *)
Inductive item := One (c : Z) | Star (c : Z).

Fixpoint items (re : list Z) : list item * bool :=
  match re with
  | [] => ([], false)
  | c :: re1 =>
      match re1 with
      | [] => if c =? ch "$" then ([], true) else ([One c], false)
      | d :: re2 =>
          if d =? ch "*" then let r := items re2 in (Star c :: r.1, r.2)
          else let r := items re1 in (One c :: r.1, r.2)
      end
  end.

Definition fits (c t : Z) : Prop := c = ch "." \/ t = c.

(** The words of an item and of a sequence of items. *)
Definition lang (i : item) (w : list Z) : Prop :=
  match i with
  | One c => exists t, w = [t] /\ fits c t
  | Star c => Forall (fits c) w
  end.

Fixpoint langs (l : list item) (w : list Z) : Prop :=
  match l with
  | [] => w = []
  | i :: l => exists u v, w = u ++ v /\ lang i u /\ langs l v
  end.

(** The text has a word of the items at its beginning, and nothing after it
    when the pattern ends in [$]. *)
Definition prefix_of (p : list item * bool) (text : list Z) : Prop :=
  exists w rest, text = w ++ rest /\ langs p.1 w /\ (p.2 = true -> rest = []).

(** What grep's patterns mean: a pattern that starts with a caret matches at the
    beginning of the text, and another one anywhere. *)
Definition denotes (re text : list Z) : Prop :=
  match re with
  | c :: re1 =>
      if c =? ch "^" then prefix_of (items re1) text
      else exists before text', text = before ++ text' /\ prefix_of (items re) text'
  | [] => True
  end.

Lemma fits_iff c t : (c =? ch ".") || (c =? t) = true <-> fits c t.
Proof. unfold fits. rewrite orb_true_iff, !Z.eqb_eq. naive_solver. Qed.

Lemma fits_iff' c t : (t =? c) || (c =? ch ".") = true <-> fits c t.
Proof. unfold fits. rewrite orb_true_iff, !Z.eqb_eq. naive_solver. Qed.

Lemma star_loop_spec f c text :
  star_loop f c text = true <-> exists u v, text = u ++ v /\ Forall (fits c) u /\ f v = true.
Proof.
  induction text as [|t text IH]; cbn [star_loop].
  - destruct (f []) eqn:Hf.
    + split; [|done]. intros _. by exists [], [].
    + split; [done|]. intros (u & v & Huv & _ & Hv). symmetry in Huv.
      apply app_nil in Huv as [-> ->]. congruence.
  - destruct (f (t :: text)) eqn:Hf.
    + split; [|done]. intros _. by exists [], (t :: text).
    + destruct ((t =? c) || (c =? ch ".")) eqn:Ht.
      * rewrite IH. apply fits_iff' in Ht. split.
        -- intros (u & v & -> & Hu & Hv). exists (t :: u), v. split_and!; auto.
        -- intros (u & v & Huv & Hu & Hv). destruct u as [|t' u]; cbn in Huv; [congruence|].
           injection Huv as -> ->. inversion Hu; subst. eauto.
      * split; [done|]. intros (u & v & Huv & Hu & Hv). destruct u as [|t' u]; cbn in Huv; [congruence|].
        injection Huv as -> ->. inversion Hu as [|? ? Hft]; subst.
        apply fits_iff' in Hft. congruence.
Qed.

Lemma prefix_star c l b text :
  prefix_of (Star c :: l, b) text <-> exists u v, text = u ++ v /\ Forall (fits c) u /\ prefix_of (l, b) v.
Proof.
  unfold prefix_of; cbn. split.
  - intros (w & rest & -> & (u & v & -> & Hu & Hv) & Hb).
    exists u, (v ++ rest). rewrite app_assoc. eauto 7.
  - intros (u & v & -> & Hu & (w & rest & -> & Hw & Hb)).
    exists (u ++ w), rest. rewrite app_assoc. eauto 8.
Qed.

Lemma prefix_one c l b text :
  prefix_of (One c :: l, b) text <-> exists t v, text = t :: v /\ fits c t /\ prefix_of (l, b) v.
Proof.
  unfold prefix_of; cbn. split.
  - intros (w & rest & -> & (u & v & -> & (t & -> & Ht) & Hv) & Hb).
    exists t, (v ++ rest). eauto 7.
  - intros (t & v & -> & Ht & (w & rest & -> & Hw & Hb)).
    exists (t :: w), rest. split; [done|]. split; [|done]. exists [t], w. eauto 6.
Qed.

Lemma prefix_nil b text : prefix_of ([], b) text <-> (b = true -> text = []).
Proof.
  unfold prefix_of; cbn. split.
  - intros (w & rest & -> & -> & Hb). done.
  - intros Hb. by exists [], text.
Qed.

(** One character at the beginning. *)
Lemma one_step c re1 text (IH : forall t, matchhere re1 t = true <-> prefix_of (items re1) t) :
  match text with
  | [] => false
  | t :: text => if (c =? ch ".") || (c =? t) then matchhere re1 text else false
  end = true <-> prefix_of (One c :: (items re1).1, (items re1).2) text.
Proof.
  rewrite prefix_one, <-surjective_pairing. destruct text as [|t text].
  - split; [done|]. intros (? & ? & ? & _). done.
  - destruct ((c =? ch ".") || (c =? t)) eqn:Hc.
    + apply fits_iff in Hc. rewrite IH. split; [eauto 6|].
      intros (? & ? & [= -> ->] & _ & ?). done.
    + split; [done|]. intros (? & ? & [= -> ->] & Hf & _).
      apply fits_iff in Hf. congruence.
Qed.

Lemma matchhere_spec re text : matchhere re text = true <-> prefix_of (items re) text.
Proof.
  revert text. remember (length re) as n eqn:Hn. revert re Hn.
  induction n as [n IH] using lt_wf_ind. intros re -> text.
  destruct re as [|c re1]; [cbn; rewrite prefix_nil; naive_solver|].
  assert (H1 : forall t, matchhere re1 t = true <-> prefix_of (items re1) t)
    by (intros t; apply (IH (length re1)); cbn; lia).
  destruct re1 as [|d re2].
  - cbn [matchhere items]. destruct (c =? ch "$") eqn:Hd.
    + rewrite prefix_nil. destruct text; naive_solver.
    + apply (one_step c []). done.
  - change (matchhere (c :: d :: re2) text) with
      (if d =? ch "*" then star_loop (matchhere re2) c text
       else match text with
            | [] => false
            | t :: text => if (c =? ch ".") || (c =? t) then matchhere (d :: re2) text else false
            end).
    change (items (c :: d :: re2)) with
      (if d =? ch "*" then (Star c :: (items re2).1, (items re2).2)
       else (One c :: (items (d :: re2)).1, (items (d :: re2)).2)).
    destruct (d =? ch "*") eqn:Hd; [|by apply one_step].
    rewrite star_loop_spec, prefix_star, <-surjective_pairing.
    assert (H2 : forall t, matchhere re2 t = true <-> prefix_of (items re2) t)
      by (intros t; apply (IH (length re2)); cbn; lia).
    split; intros (u & v & Huv & Hu & Hv); exists u, v; (split_and!; [done..|by apply H2]).
Qed.

Lemma match_loop_spec re text :
  match_loop re text = true <-> exists before text', text = before ++ text' /\ prefix_of (items re) text'.
Proof.
  induction text as [|t text IH]; cbn [match_loop]; (destruct (matchhere re _) eqn:Hm;
    [split; [|done]; intros _; apply matchhere_spec in Hm; eexists [], _; eauto|]).
  - split; [done|]. intros (u & v & Huv & Hv). symmetry in Huv. apply app_nil in Huv as [-> ->].
    apply matchhere_spec in Hv. congruence.
  - rewrite IH. split.
    + intros (u & v & -> & Hv). by exists (t :: u), v.
    + intros (u & v & Huv & Hv). destruct u as [|t' u]; cbn in Huv.
      * subst. apply matchhere_spec in Hv. congruence.
      * injection Huv as -> ->. eauto.
Qed.

(** C28. The matcher of grep decides the language of its pattern: [match]
    returns true exactly when the text contains (or, after a caret, begins
    with) a word of the sequence of characters, dots and starred characters
    that the pattern stands for, up to the end of the text when the pattern
    ends in a dollar. *)
Theorem match_re_correct (re text : list Z) : match_re re text = true <-> denotes re text.
Proof.
  unfold match_re, denotes. destruct re as [|c re1].
  - rewrite match_loop_spec. cbn. split; [done|]. intros _. exists [], text. split; [done|].
    by apply prefix_nil.
  - destruct (c =? ch "^"); [apply matchhere_spec|apply match_loop_spec].
Qed.

(** ** The lines *)

(** The lines of a text without their newlines, and what follows the last
    newline. *)
Fixpoint split_lines (l : list Z) : list (list Z) * list Z :=
  match l with
  | [] => ([], [])
  | c :: l =>
      let r := split_lines l in
      if c =? nl then ([] :: r.1, r.2)
      else match r.1 with
           | [] => ([], c :: r.2)
           | x :: ls => ((c :: x) :: ls, r.2)
           end
  end.

(** What grep writes for a list of lines. *)
Definition grep_output (pattern : list Z) (ls : list (list Z)) : list (Z * list Z) :=
  map (fun l => (1, l ++ [nl])) (List.filter (match_re pattern) ls).

Definition no_nul (l : list Z) : Prop := Forall (fun c => c <> 0) l.

Lemma strchr_none p : no_nul p -> strchr_nl p = None -> split_lines p = ([], p).
Proof.
  induction p as [|c p IH]; [done|]. intros Hn. inversion Hn as [|? ? Hc Hp]; subst.
  cbn [strchr_nl split_lines]. destruct (c =? 0) eqn:H0; [lia|].
  destruct (c =? nl); [done|]. destruct (strchr_nl p); [done|]. intros _.
  by rewrite IH.
Qed.

Lemma strchr_some p q : strchr_nl p = Some q ->
  p = take q p ++ nl :: drop (S q) p /\ (q < length p)%nat /\
  split_lines p = (take q p :: (split_lines (drop (S q) p)).1, (split_lines (drop (S q) p)).2).
Proof.
  revert q. induction p as [|c p IH]; [done|]. intros q. cbn [strchr_nl split_lines].
  destruct (c =? 0) eqn:H0; [done|]. destruct (c =? nl) eqn:Hc.
  - intros [= <-]. apply Z.eqb_eq in Hc. subst. cbn. rewrite drop_0. split_and!; [done|lia|done].
  - destruct (strchr_nl p) as [q'|]; [|done]. cbn. intros [= <-].
    destruct (IH q' eq_refl) as (H1 & H2 & H3).
    change (drop (S (S q')) (c :: p)) with (drop (S q') p).
    change (take (S q') (c :: p)) with (c :: take q' p).
    split_and!; [cbn [app]; by f_equal|cbn; lia|]. by rewrite H3.
Qed.

Lemma split_lines_app p l :
  split_lines (p ++ l) =
  ((split_lines p).1 ++ (split_lines ((split_lines p).2 ++ l)).1, (split_lines ((split_lines p).2 ++ l)).2).
Proof.
  induction p as [|c p IH]; cbn; [by destruct (split_lines l)|].
  rewrite IH. destruct (c =? nl) eqn:Hc; [done|].
  destruct (split_lines p).1 as [|x ls]; [|done]. cbn. rewrite Hc.
  destruct (split_lines ((split_lines p).2 ++ l)).1; done.
Qed.

Lemma split_rest_sub p : no_nul p -> no_nul (split_lines p).2.
Proof.
  induction p as [|c p IH]; [done|]. intros Hn. inversion Hn as [|? ? Hc Hp]; subst. cbn.
  specialize (IH Hp). destruct (c =? nl); [done|]. destruct (split_lines p).1; [by constructor|done].
Qed.

(** What is left has no newline. *)
Lemma split_rest p : split_lines (split_lines p).2 = ([], (split_lines p).2).
Proof.
  induction p as [|c p IH]; [done|]. cbn. destruct (c =? nl) eqn:Hc; [done|].
  destruct (split_lines p).1; [|done]. cbn. by rewrite IH, Hc.
Qed.

Lemma grep_lines_spec k pattern p s :
  no_nul p -> (length p <= k)%nat ->
  run stream_handler (grep_lines k pattern p) s =
  (Returned (split_lines p).2,
   mkstream (st_in s) (st_sizes s) (st_out s ++ grep_output pattern (split_lines p).1)).
Proof.
  revert p s. induction k as [|k IH]; intros p s Hn Hk.
  - destruct p; cbn in Hk; [|lia]. cbn. unfold grep_output. cbn. rewrite app_nil_r. by destruct s.
  - cbn [grep_lines]. destruct (strchr_nl p) as [q|] eqn:Hq.
    + destruct (strchr_some p q Hq) as (Hp & Hlen & Hs).
      assert (Hn' : no_nul (drop (S q) p)) by (apply Forall_drop, Hn).
      assert (Hk' : (length (drop (S q) p) <= k)%nat) by (rewrite length_drop; lia).
      rewrite Hs. unfold grep_output. cbn [fst snd List.filter map].
      assert (Ht : take (S q) p = take q p ++ [nl]).
      { rewrite Hp at 1. rewrite take_app_ge by (rewrite length_take; lia).
        rewrite length_take. replace (S q - q `min` length p)%nat with 1%nat by lia. done. }
      destruct (match_re pattern (take q p)); rewrite run_bind; cbn [pbind call run stream_handler fst snd];
        rewrite IH by done; cbn [st_in st_sizes st_out]; [|done].
      by rewrite Ht, <-app_assoc.
    + rewrite (strchr_none p Hn Hq). unfold grep_output. cbn. rewrite app_nil_r. by destruct s.
Qed.

(** The longest line, without its newline, that fits in the buffer. *)
Definition GREP_LINE : Z := GREP_BUF - 2.

(** A text without a newline is the beginning of the first line. *)
Lemma split_first p l x ls :
  split_lines p = ([], p) -> (split_lines (p ++ l)).1 = x :: ls -> zlen p <= zlen x.
Proof.
  revert x ls. induction p as [|c p IHp]; intros x ls Hp Hs; [unfold zlen; cbn; lia|].
  cbn in Hp, Hs. destruct (c =? nl); [done|].
  destruct (split_lines p).1 as [|y ys] eqn:Hy; [|done]. injection Hp as Hp2.
  assert (Hsp : split_lines p = ([], p)) by (rewrite (surjective_pairing (split_lines p)), Hy; congruence).
  destruct (split_lines (p ++ l)).1 as [|z zs] eqn:Hz; [done|]. injection Hs as <- <-.
  specialize (IHp z zs Hsp eq_refl). unfold zlen in *. cbn [length]. lia.
Qed.

Lemma grep_loop_spec pattern fd fuel p s :
  no_nul (p ++ st_in s) -> split_lines p = ([], p) ->
  Forall (fun l => zlen l <= GREP_LINE) (split_lines (p ++ st_in s)).1 ->
  (length (st_in s) < fuel)%nat ->
  exists s', run stream_handler (grep fuel pattern fd p) s = (Returned tt, s') /\
    st_out s' = st_out s ++ grep_output pattern (split_lines (p ++ st_in s)).1.
Proof.
  revert p s. induction fuel as [|fuel IH]; intros p s Hn Hp Hl Hf; [lia|].
  cbn [grep]. rewrite run_call. cbn [stream_handler fst snd].
  set (n := GREP_BUF - zlen p - 1). set (m := read_size s n).
  pose proof (read_size_bounds s n) as [Hm1 Hm2]. fold m in Hm1, Hm2.
  destruct (m <=? 0) eqn:Hm0.
  - eexists. split; [done|]. cbn [st_out].
    enough (Hnil : (split_lines (p ++ st_in s)).1 = []) by (rewrite Hnil; unfold grep_output; cbn; by rewrite app_nil_r).
    destruct (decide (0 < n)) as [Hpos|Hneg].
    + destruct (st_in s) as [|c l] eqn:Hin; [by rewrite app_nil_r, Hp|].
      pose proof (read_size_pos s n Hpos) as Hr. rewrite Hin in Hr. specialize (Hr ltac:(done)). lia.
    + destruct (split_lines (p ++ st_in s)).1 as [|x ls] eqn:Hs; [done|exfalso].
      pose proof (split_first p (st_in s) x ls Hp Hs) as Hx.
      inversion Hl as [|? ? Hxl]; subst. unfold GREP_LINE, n, zlen in *. lia.
  - set (bs := take (Z.to_nat m) (st_in s)). set (rest := drop (Z.to_nat m) (st_in s)).
    assert (Hin : st_in s = bs ++ rest) by (symmetry; apply take_drop).
    rewrite Hin, app_assoc in Hn, Hl. apply Forall_app in Hn as [Hn1 Hn2].
    rewrite run_bind, (grep_lines_spec _ _ _ _ Hn1) by done. cbn [st_in st_sizes st_out].
    rewrite split_lines_app in Hl. cbn in Hl. apply Forall_app in Hl as [Hl1 Hl2].
    edestruct (IH (split_lines (p ++ bs)).2 (mkstream rest (tl (st_sizes s))
        (st_out s ++ grep_output pattern (split_lines (p ++ bs)).1))) as (s' & Hrun & Hout).
    + apply Forall_app. split; [by apply split_rest_sub|done].
    + apply split_rest.
    + done.
    + cbn. subst rest. rewrite length_drop. unfold zlen in *. lia.
    + exists s'. split; [exact Hrun|]. rewrite Hout. cbn [st_out st_in].
      rewrite Hin, app_assoc, (split_lines_app (p ++ bs) rest). cbn.
      unfold grep_output. by rewrite List.filter_app, map_app, app_assoc.
Qed.


Definition grep_example : stream := mkstream (str "abc" ++ [nl] ++ str "xyz" ++ [nl] ++ str "cab") [2; 1; 5] [].


(** A line that fills the buffer ends the search: grep reads 0 bytes into the
    full buffer and returns, so that no later line is found. *)
Lemma grep_long_line pattern fd fuel s :
  no_nul (st_in s) -> zlen (st_in s) >= GREP_BUF - 1 -> (forall n, hd n (st_sizes s) = n) ->
  strchr_nl (take 1023 (st_in s)) = None ->
  exists s', run stream_handler (grep (S (S fuel)) pattern fd []) s = (Returned tt, s') /\ st_out s' = st_out s.
Proof.
  intros Hn Hlen Hsz Hno. cbn [grep]. rewrite run_call. cbn [stream_handler fst snd].
  assert (Hr : read_size s (GREP_BUF - zlen [] - 1) = 1023).
  { unfold read_size. rewrite Hsz. unfold zlen, GREP_BUF in *. cbn [length]. lia. }
  rewrite Hr. change (1023 <=? 0) with false. cbv iota. change (Z.to_nat 1023) with 1023%nat.
  rewrite run_bind, app_nil_l, grep_lines_spec by (done || by apply Forall_take).
  rewrite (strchr_none _ (Forall_take _ _ _ Hn) Hno). cbn [fst snd]. rewrite run_call.
  cbn [stream_handler fst snd st_in st_sizes st_out].
  assert (Hz : read_size (mkstream (drop 1023 (st_in s)) (tl (st_sizes s)) (st_out s ++ grep_output pattern []))
    (GREP_BUF - zlen (take 1023 (st_in s)) - 1) = 0).
  { unfold read_size. cbn [st_in st_sizes]. unfold zlen, GREP_BUF in *. rewrite length_take. lia. }
  rewrite Hz. eexists. split; [done|]. cbn. by rewrite app_nil_r.
Qed.
