(* ===== verification/Sh.v ===== *)
(** * The shell

    Models [src/xv6-os/user/sh.c]. A pointer into the command line is an index
    of it; the line is the list of its bytes before the NUL, so that [es] is
    its length and the character there is 0. A command is a tree; [malloc] is
    taken to succeed, as the code does. *)
From S2P Require Import Prelude CString Blocks Printf User Grep.

(** The modes of fcntl.h. *)
Definition SH_RDONLY : Z := 0.
Definition SH_OUT : Z := Z.lor (Z.lor 1 0x200) 0x400.
Definition SH_APPEND : Z := Z.lor 1 0x200.
Definition SH_RDWR : Z := 2.

Definition MAXARGS : nat := 10.

(** An argument is the place of its first character and that after its last. *)
Inductive cmd :=
| EXEC (argv : list (nat * nat))
| REDIR (c : cmd) (file efile : nat) (mode fd : Z)
| PIPE (l r : cmd)
| LIST (l r : cmd)
| BACK (c : cmd).

(** ** Tokens *)

Definition whitespace : list Z := [32; 9; 13; 10; 11].
Definition symbols : list Z := str "<|>&;()".

(** [strchr(l, c) != 0] *)
Definition in_str (l : list Z) (c : Z) : bool := existsb (Z.eqb c) l && negb (c =? 0).

Definition is_ws (c : Z) : bool := in_str whitespace c.
Definition is_word (c : Z) : bool := negb (in_str whitespace c) && negb (in_str symbols c).

(** The length of the longest prefix of characters that satisfy [p]. *)
Fixpoint span (p : Z -> bool) (l : list Z) : nat :=
  match l with
  | [] => O
  | c :: l => if p c then S (span p l) else O
  end.

Definition at_ (s : list Z) (i : nat) : Z := nth i s 0.

Definition skip (p : Z -> bool) (s : list Z) (i : nat) : nat := (i + span p (drop i s))%nat.

(** The token from [i] on: its kind, its place [q], [eq], and the new [ps]. *)
Definition gettoken (s : list Z) (i : nat) : Z * nat * nat * nat :=
  let q := skip is_ws s i in
  let c := at_ s q in
  let r : Z * nat :=
    if c =? 0 then (0, q)
    else if in_str (str "|();&<") c then (c, S q)
    else if c =? ch ">" then
      if at_ s (S q) =? ch ">" then (ch "+", S (S q)) else (c, S q)
    else (ch "a", skip is_word s q) in
  (r.1, q, r.2, skip is_ws s r.2).

Definition peek (s : list Z) (i : nat) (toks : list Z) : bool * nat :=
  let i := skip is_ws s i in
  (negb (at_ s i =? 0) && in_str toks (at_ s i), i).

(** ** The parser

    A routine returns a value and the new [ps], or panics. *)
Inductive pres (A : Type) :=
| POk (a : A) (ps : nat)
| PPanic (msg : string)
| PFuel.
Arguments POk {A} a ps.
Arguments PPanic {A} msg.
Arguments PFuel {A}.

Definition pthen {A B} (r : pres A) (k : A -> nat -> pres B) : pres B :=
  match r with
  | POk a ps => k a ps
  | PPanic msg => PPanic msg
  | PFuel => PFuel
  end.

(** A redirection that is put around a command. *)
Definition redir : Type := nat * nat * Z * Z.
Definition redircmd (c : cmd) (r : redir) : cmd :=
  let '(q, eq, mode, fd) := r in REDIR c q eq mode fd.

(** The redirections that [parseredirs] reads, the innermost first. *)
Fixpoint parseredirs (k : nat) (s : list Z) (rs : list redir) (i : nat) : pres (list redir) :=
  let '(b, i) := peek s i (str "<>") in
  if b then
    match k with
    | O => PFuel
    | S k =>
        let '(tok, _, _, i) := gettoken s i in
        let '(t2, q, eq, i) := gettoken s i in
        if negb (t2 =? ch "a") then PPanic "missing file for redirection"
        else
          let rs :=
            if tok =? ch "<" then rs ++ [(q, eq, SH_RDONLY, 0)]
            else if tok =? ch ">" then rs ++ [(q, eq, SH_OUT, 1)]
            else if tok =? ch "+" then rs ++ [(q, eq, SH_APPEND, 1)]
            else rs in
          parseredirs k s rs i
    end
  else POk rs i.

(** The arguments of a command. The node of the command is shared by the
    redirections around it, so that it gets the arguments that follow them. *)
Fixpoint parseargs (k : nat) (s : list Z) (argv : list (nat * nat)) (rs : list redir) (i : nat)
    : pres (list (nat * nat) * list redir) :=
  let '(b, i) := peek s i (str "|)&;") in
  if b then POk (argv, rs) i
  else
    match k with
    | O => PFuel
    | S k =>
        let '(tok, q, eq, i) := gettoken s i in
        if tok =? 0 then POk (argv, rs) i
        else if negb (tok =? ch "a") then PPanic "syntax"
        else
          let argv := argv ++ [(q, eq)] in
          if bool_decide (MAXARGS <= length argv)%nat then PPanic "too many args"
          else pthen (parseredirs (length s) s rs i) (fun rs i => parseargs k s argv rs i)
    end.

(** The loop of [parseline] over the ampersands. *)
Fixpoint parseback (k : nat) (s : list Z) (c : cmd) (i : nat) : pres cmd :=
  let '(b, i) := peek s i (str "&") in
  if b then
    match k with
    | O => PFuel
    | S k => let '(_, _, _, i) := gettoken s i in parseback k s (BACK c) i
    end
  else POk c i.

Fixpoint parseline (fuel : nat) (s : list Z) (i : nat) : pres cmd :=
  match fuel with
  | O => PFuel
  | S fuel =>
      pthen (parsepipe fuel s i) (fun c i =>
      pthen (parseback (length s) s c i) (fun c i =>
      let '(b, i) := peek s i (str ";") in
      if b then
        let '(_, _, _, i) := gettoken s i in
        pthen (parseline fuel s i) (fun r i => POk (LIST c r) i)
      else POk c i))
  end
with parsepipe (fuel : nat) (s : list Z) (i : nat) : pres cmd :=
  match fuel with
  | O => PFuel
  | S fuel =>
      pthen (parseexec fuel s i) (fun c i =>
      let '(b, i) := peek s i (str "|") in
      if b then
        let '(_, _, _, i) := gettoken s i in
        pthen (parsepipe fuel s i) (fun r i => POk (PIPE c r) i)
      else POk c i)
  end
with parseexec (fuel : nat) (s : list Z) (i : nat) : pres cmd :=
  match fuel with
  | O => PFuel
  | S fuel =>
      let '(b, i) := peek s i (str "(") in
      if b then parseblock fuel s i
      else
        pthen (parseredirs (length s) s [] i) (fun rs i =>
        pthen (parseargs (S (length s)) s [] rs i) (fun r i =>
        POk (foldl redircmd (EXEC r.1) r.2) i))
  end
with parseblock (fuel : nat) (s : list Z) (i : nat) : pres cmd :=
  match fuel with
  | O => PFuel
  | S fuel =>
      let '(b, i) := peek s i (str "(") in
      if negb b then PPanic "parseblock"
      else
        let '(_, _, _, i) := gettoken s i in
        pthen (parseline fuel s i) (fun c i =>
        let '(b, i) := peek s i (str ")") in
        if negb b then PPanic "syntax - missing )"
        else
          let '(_, _, _, i) := gettoken s i in
          pthen (parseredirs (length s) s [] i) (fun rs i => POk (foldl redircmd c rs) i))
  end.

(** The writes of [nulterminate]; one at [es] finds the NUL of the line. *)
Fixpoint nulterminate (c : cmd) (s : list Z) : list Z :=
  match c with
  | EXEC argv => foldl (fun s a => <[a.2 := 0]> s) s argv
  | REDIR c _ efile _ _ => <[efile := 0]> (nulterminate c s)
  | PIPE l r | LIST l r => nulterminate r (nulterminate l s)
  | BACK c => nulterminate c s
  end.

(** [panic] of sh.c *)
Definition sh_panic {A} (msg : string) : prog A :=
  u_fprintf 2 (str "%s" ++ [nl]) [PStr (Some (str msg))] ,,
  Exit 1.

(** The routines call each other at most four deep for each character. *)
Definition parse_fuel (s : list Z) : nat := (4 * length s + 4)%nat.

Definition parse (s : list Z) : pres cmd := parseline (parse_fuel s) s 0.

(** The command and the line with its NULs. *)
Definition parsecmd (s : list Z) : prog (cmd * list Z) :=
  match parse s with
  | POk c i =>
      let i := (peek s i []).2 in
      if bool_decide (i <> length s) then
        u_fprintf 2 (str "leftovers: %s" ++ [nl]) [PStr (Some (drop i s))] ,,
        sh_panic "syntax"
      else Ret (c, nulterminate c s)
  | PPanic msg => sh_panic msg
  | PFuel => NoFuel
  end.

(** ** Running commands *)

(** The string at [q] in the line. *)
Fixpoint cstr_list (l : list Z) : list Z :=
  match l with
  | [] => []
  | c :: l => if c =? 0 then [] else c :: cstr_list l
  end.
Definition str_at (s : list Z) (q : nat) : list Z := cstr_list (drop q s).

Definition fork1 : prog Z :=
  do pid <- call Sfork;
  if pid =? -1 then sh_panic "fork" else Ret pid.

(** [runcmd] does not return. *)
Fixpoint runcmd {A} (s : list Z) (c : cmd) : prog A :=
  match c with
  | EXEC argv =>
      match argv with
      | [] => Exit 1
      | a :: _ =>
          call (Sexec (str_at s a.1) (map (fun a => str_at s a.1) argv)) ,,
          u_fprintf 2 (str "exec %s failed" ++ [nl]) [PStr (Some (str_at s a.1))] ,,
          Exit 0
      end
  | REDIR c file _ mode fd =>
      call (Sclose fd) ,,
      do r <- call (Sopen (str_at s file) mode);
      if r <? 0 then
        u_fprintf 2 (str "open %s failed" ++ [nl]) [PStr (Some (str_at s file))] ,,
        Exit 1
      else runcmd s c
  | LIST l r =>
      do pid <- fork1;
      if pid =? 0 then runcmd s l
      else
        call Swait ,,
        runcmd s r
  | PIPE l r =>
      do p <- call Spipe;
      if p.1 <? 0 then sh_panic "pipe"
      else
        let p0 := p.2.1 in
        let p1 := p.2.2 in
        do pid <- fork1;
        if pid =? 0 then
          call (Sclose 1) ,,
          call (Sdup p1) ,,
          call (Sclose p0) ,,
          call (Sclose p1) ,,
          runcmd s l
        else
          do pid <- fork1;
          if pid =? 0 then
            call (Sclose 0) ,,
            call (Sdup p0) ,,
            call (Sclose p0) ,,
            call (Sclose p1) ,,
            runcmd s r
          else
            call (Sclose p0) ,,
            call (Sclose p1) ,,
            call Swait ,,
            call Swait ,,
            Exit 0
  | BACK c =>
      do pid <- fork1;
      if pid =? 0 then runcmd s c else Exit 0
  end.

(** ** The main loop *)

Definition SH_BUF : Z := 100.

(** The line, or [None] at the end of the input. [gets] reads no more than
    fits; a line that starts with a NUL ends the input. *)
Definition getcmd : prog (option (list Z)) :=
  call (Swrite 2 (str "$ ")) ,,
  do buf <- u_gets SH_BUF;
  if hd 0 buf =? 0 then Ret None else Ret (Some (cstr_list buf)).

Fixpoint open_console (fuel : nat) : prog unit :=
  match fuel with
  | O => NoFuel
  | S fuel =>
      do fd <- call (Sopen (str "console") SH_RDWR);
      if 0 <=? fd then
        if 3 <=? fd then call (Sclose fd) ,, Ret tt
        else open_console fuel
      else Ret tt
  end.

Definition is_cd (buf : list Z) : bool :=
  (at_ buf 0 =? ch "c") && (at_ buf 1 =? ch "d") && (at_ buf 2 =? ch " ").

(** [fuel] bounds the number of commands. *)
Fixpoint sh_loop (fuel : nat) : prog unit :=
  match fuel with
  | O => NoFuel
  | S fuel =>
      do r <- getcmd;
      match r with
      | None => Exit 0
      | Some buf =>
          if is_cd buf then
            let buf := take (length buf - 1) buf in
            do r <- call (Schdir (drop 3 buf));
            (if r <? 0 then u_fprintf 2 (str "cannot cd %s" ++ [nl]) [PStr (Some (drop 3 buf))]
             else Ret tt) ,,
            sh_loop fuel
          else
            do pid <- fork1;
            if pid =? 0 then
              do c <- parsecmd buf;
              runcmd c.2 c.1
            else
              call Swait ,,
              sh_loop fuel
      end
  end.

Definition sh_main (fuel : nat) : prog unit :=
  open_console fuel ,,
  sh_loop fuel.
