(* ===== verification/ShSpec.v ===== *)
(** * Correctness of the shell's parser

    The recursive descent ends on every line, and the strings that the
    commands run with are the words of the line. *)
From S2P Require Import Prelude CString Blocks Printf User Grep GrepSpec Sh.

(** ** Positions *)

Lemma span_le p l : (span p l <= length l)%nat.
Proof. induction l as [|c l IH]; cbn; [lia|]. destruct (p c); lia. Qed.

Lemma skip_bounds p s i : (i <= length s)%nat -> (i <= skip p s i <= length s)%nat.
Proof. unfold skip. intros Hi. pose proof (span_le p (drop i s)). rewrite length_drop in *. lia. Qed.

Lemma at_lookup s i c : at_ s i = c -> c <> 0 -> s !! i = Some c.
Proof. unfold at_. rewrite nth_lookup. intros <-. by destruct (s !! i). Qed.

Lemma at_lt s i : at_ s i <> 0 -> (i < length s)%nat.
Proof. intros H. by eapply lookup_lt_Some, (at_lookup s i). Qed.

Lemma lookup_at s i c : s !! i = Some c -> at_ s i = c.
Proof. unfold at_. rewrite nth_lookup. by intros ->. Qed.

(** The characters [skip] goes over, and the one it stops at. *)
Lemma span_spec p l :
  Forall (fun c => p c = true) (take (span p l) l) /\
  (forall c, l !! span p l = Some c -> p c = false).
Proof.
  induction l as [|c l [IH1 IH2]]; cbn; [done|]. destruct (p c) eqn:Hc; cbn.
  - split; [by constructor|done].
  - split; [done|]. by intros ? [= <-].
Qed.

Lemma skip_in p s i j c : (i <= j < skip p s i)%nat -> s !! j = Some c -> p c = true.
Proof.
  unfold skip. intros Hj Hl. destruct (span_spec p (drop i s)) as [H _].
  rewrite Forall_lookup in H. apply (H (j - i)%nat). rewrite lookup_take_lt by lia.
  rewrite lookup_drop. by replace (i + (j - i))%nat with j by lia.
Qed.

Lemma skip_stop p s i c : s !! skip p s i = Some c -> p c = false.
Proof. unfold skip. intros Hl. apply (span_spec p (drop i s)). by rewrite lookup_drop. Qed.

Lemma skip_start p s i c : s !! i = Some c -> p c = true -> (i < skip p s i)%nat.
Proof.
  intros Hl Hc. unfold skip. rewrite (drop_S s c i Hl). cbn. rewrite Hc. lia.
Qed.

(** ** Tokens *)

(** A word of the line: it starts at [q] and ends before [e]. *)
Definition word_at (s : list Z) (a : nat * nat) : Prop :=
  (a.1 < a.2 <= length s)%nat /\
  (forall j c, (a.1 <= j < a.2)%nat -> s !! j = Some c -> is_word c = true) /\
  (forall c, s !! a.2 = Some c -> is_word c = false).

Lemma in_str_app l1 l2 c : in_str (l1 ++ l2) c = in_str l1 c || in_str l2 c.
Proof. unfold in_str. rewrite existsb_app. by destruct (existsb _ l1), (existsb _ l2), (c =? 0). Qed.

(** A character that is not a space and starts no symbol is a word's. *)
Lemma word_char c :
  is_ws c = false -> in_str (str "|();&<") c = false -> (c =? ch ">") = false -> is_word c = true.
Proof.
  unfold is_ws, is_word, in_str. intros -> H1 H2. cbn in *.
  rewrite !orb_false_r in *. destruct (c =? 0) eqn:H0; [by rewrite andb_false_r|].
  rewrite !andb_true_r in *. repeat (apply orb_false_iff in H1 as [? H1]).
  apply Z.eqb_neq in H2. repeat match goal with H : (c =? _) = false |- _ => rewrite H end.
  apply Z.eqb_neq in H2. by rewrite H2.
Qed.

Lemma gettoken_spec s i t q e i' :
  (i <= length s)%nat -> gettoken s i = (t, q, e, i') ->
  (i <= q <= e)%nat /\ (e <= i' <= length s)%nat /\ (at_ s q <> 0 -> (q < e)%nat) /\
  (t = ch "a" -> word_at s (q, e)) /\ q = skip is_ws s i /\ (t <> 0 -> at_ s q <> 0).
Proof.
  intros Hi. unfold gettoken. pose proof (skip_bounds is_ws s i Hi) as Hq0.
  set (q0 := skip is_ws s i) in *. set (c := at_ s q0).
  set (r := if c =? 0 then _ else _). intros [= <- <- <- <-].
  assert (Hr : (q0 <= r.2 <= length s)%nat /\ (c <> 0 -> (q0 < r.2)%nat) /\
    (r.1 = ch "a" -> word_at s (q0, r.2)) /\ (r.1 <> 0 -> c <> 0)).
  { subst r. destruct (c =? 0) eqn:H0.
    { cbn. split_and!; [lia..|done|lia]. }
    assert (Hc : c <> 0) by lia. pose proof (at_lt s q0 Hc) as Hlt.
    destruct (in_str (str "|();&<") c) eqn:H1.
    { cbn [fst snd]. split_and!; [lia..| |done]. intros ->. done. }
    destruct (c =? ch ">") eqn:H2.
    { destruct (at_ s (S q0) =? ch ">") eqn:H3; cbn [fst snd].
      - assert (at_ s (S q0) <> 0) by (intros Ha; rewrite Ha in H3; done).
        pose proof (at_lt s (S q0) ltac:(done)). split_and!; [lia..|done|done].
      - split_and!; [lia..| |done]. intros ->. done. }
    pose proof (at_lookup s q0 c eq_refl Hc) as Hl.
    pose proof (word_char c (skip_stop _ _ _ _ Hl) H1 H2) as Hw.
    pose proof (skip_start is_word s q0 c Hl Hw) as Hs. pose proof (skip_bounds is_word s q0 ltac:(lia)).
    cbn [fst snd]. split_and!; [lia..| |done]. intros _. split; [cbn; lia|]. cbn [fst snd]. split.
    - intros j d Hj Hd. by apply (skip_in is_word s q0 j d).
    - intros d Hd. by apply (skip_stop is_word s q0 d). }
  destruct Hr as (Hr1 & Hr2 & Hr3 & Hr4). pose proof (skip_bounds is_ws s r.2 ltac:(lia)).
  split_and!; auto; lia.
Qed.

Lemma peek_spec s i toks b i' :
  (i <= length s)%nat -> peek s i toks = (b, i') ->
  (i <= i' <= length s)%nat /\ (b = true -> at_ s i' <> 0).
Proof.
  intros Hi. unfold peek. intros [= <- <-]. split; [by apply skip_bounds|].
  intros [H _]%andb_true_iff. lia.
Qed.

(** [skip] does not move from where it stopped. *)
Lemma skip_idem p s i : skip p s (skip p s i) = skip p s i.
Proof.
  unfold skip at 1. destruct (s !! skip p s i) as [c|] eqn:Hc.
  - rewrite (drop_S _ _ _ Hc). cbn. rewrite (skip_stop _ _ _ _ Hc). lia.
  - rewrite drop_ge by (by apply lookup_ge_None). cbn. lia.
Qed.

(** The token after a successful [peek] takes at least a character. *)
Lemma peek_gettoken s i toks i' t q e i'' :
  (i <= length s)%nat -> peek s i toks = (true, i') -> gettoken s i' = (t, q, e, i'') ->
  (i < i'' <= length s)%nat.
Proof.
  intros Hi Hp Hg. pose proof (peek_spec _ _ _ _ _ Hi Hp) as [H1 H2].
  pose proof (gettoken_spec _ _ _ _ _ _ (proj2 H1) Hg) as (H3 & H4 & H5 & _ & Hq & _).
  assert (q = i') as ->.
  { rewrite Hq. unfold peek in Hp. injection Hp as _ <-. apply skip_idem. }
  specialize (H5 (H2 eq_refl)). lia.
Qed.

(** ** The parser *)

(** The words of a command. *)
Fixpoint tokens (c : cmd) : list (nat * nat) :=
  match c with
  | EXEC argv => argv
  | REDIR c file efile _ _ => (file, efile) :: tokens c
  | PIPE l r | LIST l r => tokens l ++ tokens r
  | BACK c => tokens c
  end.

Definition redir_token (r : redir) : nat * nat := let '(q, e, _, _) := r in (q, e).

(** A routine that started at [i] ends, with a value that satisfies [P] and a
    position between [i] and the end of the line, or panics. *)
Definition ends {A} (P : A -> Prop) (s : list Z) (i : nat) (r : pres A) : Prop :=
  match r with
  | POk a ps => P a /\ (i <= ps <= length s)%nat
  | PPanic _ => True
  | PFuel => False
  end.

Definition words_ok (s : list Z) (c : cmd) : Prop := Forall (word_at s) (tokens c).
Definition redirs_ok (s : list Z) (rs : list redir) : Prop := Forall (word_at s) (map redir_token rs).

Lemma ends_from {A} (P : A -> Prop) s i i' r : ends P s i' r -> (i <= i')%nat -> ends P s i r.
Proof. destruct r; cbn; [|done..]. intros [? ?] ?. split; [done|lia]. Qed.

Lemma ends_then {A B} (P : A -> Prop) (Q : B -> Prop) s i r (k : A -> nat -> pres B) :
  ends P s i r -> (forall a ps, P a -> (i <= ps <= length s)%nat -> ends Q s i (k a ps)) ->
  ends Q s i (pthen r k).
Proof. destruct r; cbn; [|done..]. intros [? ?] Hk. by apply Hk. Qed.

Lemma redirs_snoc s rs r : redirs_ok s rs -> word_at s (redir_token r) -> redirs_ok s (rs ++ [r]).
Proof. unfold redirs_ok. rewrite map_app. intros ? ?. apply Forall_app. split; [done|]. by apply Forall_singleton. Qed.

Lemma parseredirs_ends k s rs i :
  (length s - i <= k)%nat -> (i <= length s)%nat -> redirs_ok s rs ->
  ends (redirs_ok s) s i (parseredirs k s rs i).
Proof.
  revert rs i. induction k as [|k IH]; intros rs i Hk Hi Hrs; cbn [parseredirs];
    destruct (peek s i (str "<>")) as [b i1] eqn:Hp; pose proof (peek_spec _ _ _ _ _ Hi Hp) as [H1 H2].
  - destruct b; [|by cbn]. specialize (H2 eq_refl). apply at_lt in H2. lia.
  - destruct b; [|by cbn]. destruct (gettoken s i1) as [[[t q] e] i2] eqn:Hg.
    pose proof (peek_gettoken _ _ _ _ _ _ _ _ Hi Hp Hg) as H3.
    destruct (gettoken s i2) as [[[t2 q2] e2] i3] eqn:Hg2.
    pose proof (gettoken_spec _ _ _ _ _ _ (proj2 H3) Hg2) as (H4 & H5 & _ & Hw & _).
    destruct (t2 =? ch "a") eqn:Ht2; cbn [negb]; [|done]. apply Z.eqb_eq in Ht2. specialize (Hw Ht2).
    apply ends_from with i3; [|lia]. apply IH; [lia..|].
    destruct (t =? ch "<"); [by apply redirs_snoc|]. destruct (t =? ch ">"); [by apply redirs_snoc|].
    destruct (t =? ch "+"); [by apply redirs_snoc|done].
Qed.

Lemma parseargs_ends k s argv rs i :
  (length s - i < k)%nat -> (i <= length s)%nat -> Forall (word_at s) argv -> redirs_ok s rs ->
  ends (fun r => Forall (word_at s) r.1 /\ redirs_ok s r.2) s i (parseargs k s argv rs i).
Proof.
  revert argv rs i. induction k as [|k IH]; intros argv rs i Hk Hi Ha Hrs; [lia|]. cbn [parseargs].
  destruct (peek s i (str "|)&;")) as [b i1] eqn:Hp. pose proof (peek_spec _ _ _ _ _ Hi Hp) as [H1 _].
  destruct b; [by cbn|]. destruct (gettoken s i1) as [[[t q] e] i2] eqn:Hg.
  pose proof (gettoken_spec _ _ _ _ _ _ (proj2 H1) Hg) as (H4 & H5 & H6 & Hw & _ & H7).
  destruct (t =? 0) eqn:Ht0; [cbn; split_and!; [done..|lia|lia]|].
  destruct (t =? ch "a") eqn:Ht; cbn [negb]; [|done]. apply Z.eqb_eq in Ht. specialize (Hw Ht).
  assert (Hlt : (i < i2)%nat) by (specialize (H6 (H7 ltac:(lia))); lia).
  destruct (bool_decide _); [done|]. apply ends_from with i2; [|lia].
  eapply ends_then; [apply (parseredirs_ends (length s) s rs i2); [lia..|done]|].
  intros rs' i3 Hrs' Hi3. apply ends_from with i3; [|lia]. apply IH; [lia..| |done].
  apply Forall_app. split; [done|]. by constructor.
Qed.

Lemma parseback_ends k s c i :
  (length s - i <= k)%nat -> (i <= length s)%nat -> words_ok s c -> ends (words_ok s) s i (parseback k s c i).
Proof.
  revert c i. induction k as [|k IH]; intros c i Hk Hi Hc; cbn [parseback];
    destruct (peek s i (str "&")) as [b i1] eqn:Hp; pose proof (peek_spec _ _ _ _ _ Hi Hp) as [H1 H2].
  - destruct b; [|by cbn]. specialize (H2 eq_refl). apply at_lt in H2. lia.
  - destruct b; [|by cbn]. destruct (gettoken s i1) as [[[t q] e] i2] eqn:Hg.
    pose proof (peek_gettoken _ _ _ _ _ _ _ _ Hi Hp Hg) as H3.
    apply ends_from with i2; [|lia]. apply IH; [lia..|done].
Qed.

Lemma redircmd_words s c rs : words_ok s c -> redirs_ok s rs -> words_ok s (foldl redircmd c rs).
Proof.
  revert c. induction rs as [|[[[q e] m] fd] rs IH]; intros c Hc Hrs; [done|].
  inversion Hrs; subst. apply IH; [|done]. by constructor.
Qed.

(** What a second operand, after its symbol, gives. *)
Lemma operand_ends {P : cmd -> Prop} s i toks i1 t q e i2 r (f : cmd -> cmd) :
  (i <= length s)%nat -> peek s i toks = (true, i1) -> gettoken s i1 = (t, q, e, i2) ->
  ends P s i2 r -> (forall c, P c -> words_ok s (f c)) ->
  ends (words_ok s) s i (pthen r (fun c i => POk (f c) i)).
Proof.
  intros Hi Hp Hg Hr Hf. pose proof (peek_gettoken _ _ _ _ _ _ _ _ Hi Hp Hg).
  apply ends_from with i2; [|lia]. eapply ends_then; [exact Hr|]. intros c ps Hc Hps. cbn. auto.
Qed.

Lemma parse_ends fuel s :
  (forall i, (i <= length s)%nat -> (4 * (length s - i) + 4 <= fuel)%nat ->
     ends (words_ok s) s i (parseline fuel s i)) /\
  (forall i, (i <= length s)%nat -> (4 * (length s - i) + 3 <= fuel)%nat ->
     ends (words_ok s) s i (parsepipe fuel s i)) /\
  (forall i, (i <= length s)%nat -> (4 * (length s - i) + 2 <= fuel)%nat ->
     ends (words_ok s) s i (parseexec fuel s i)) /\
  (forall i, (i <= length s)%nat -> (4 * (length s - i) + 1 <= fuel)%nat ->
     ends (words_ok s) s i (parseblock fuel s i)).
Proof.
  induction fuel as [|fuel (IHl & IHp & IHe & IHb)]; [split_and!; intros; lia|].
  split_and!; intros i Hi Hf.
  - cbn [parseline]. eapply ends_then; [apply IHp; lia|]. intros c i1 Hc Hi1.
    eapply ends_then; [apply ends_from with i1; [apply (parseback_ends (length s) s c i1); [lia..|done]|lia]|].
    intros c2 i2 Hc2 Hi2. destruct (peek s i2 (str ";")) as [b i3] eqn:Hp3.
    pose proof (peek_spec _ _ _ _ _ (proj2 Hi2) Hp3) as [H3 _].
    destruct b; [|cbn; split; [done|lia]]. destruct (gettoken s i3) as [[[t q] e] i4] eqn:Hg.
    pose proof (peek_gettoken _ _ _ _ _ _ _ _ (proj2 Hi2) Hp3 Hg) as H4.
    apply ends_from with i2; [|lia]. eapply operand_ends; [lia|exact Hp3|exact Hg|apply IHl; lia|].
    intros r Hr. by apply Forall_app.
  - cbn [parsepipe]. eapply ends_then; [apply IHe; lia|]. intros c i1 Hc Hi1.
    destruct (peek s i1 (str "|")) as [b i3] eqn:Hp3.
    pose proof (peek_spec _ _ _ _ _ (proj2 Hi1) Hp3) as [H3 _].
    destruct b; [|cbn; split; [done|lia]]. destruct (gettoken s i3) as [[[t q] e] i4] eqn:Hg.
    pose proof (peek_gettoken _ _ _ _ _ _ _ _ (proj2 Hi1) Hp3 Hg) as H4.
    apply ends_from with i1; [|lia]. eapply operand_ends; [lia|exact Hp3|exact Hg|apply IHp; lia|].
    intros r Hr. by apply Forall_app.
  - cbn [parseexec]. destruct (peek s i (str "(")) as [b i1] eqn:Hp1.
    pose proof (peek_spec _ _ _ _ _ Hi Hp1) as [H1 _].
    apply ends_from with i1; [|lia]. destruct b; [apply IHb; lia|].
    eapply ends_then; [apply parseredirs_ends; [lia..|constructor]|]. intros rs i2 Hrs Hi2.
    eapply ends_then; [apply ends_from with i2; [apply parseargs_ends; [lia..|constructor|done]|lia]|].
    intros [argv rs'] i3 [Ha Hrs'] Hi3. cbn. split; [|lia]. by apply redircmd_words.
  - cbn [parseblock]. destruct (peek s i (str "(")) as [b i1] eqn:Hp1. destruct b; cbn [negb]; [|done].
    destruct (gettoken s i1) as [[[t q] e] i2] eqn:Hg.
    pose proof (peek_gettoken _ _ _ _ _ _ _ _ Hi Hp1 Hg) as H2.
    eapply ends_then; [apply ends_from with i2; [apply IHl; lia|lia]|]. intros c i3 Hc Hi3.
    destruct (peek s i3 (str ")")) as [b i4] eqn:Hp4. destruct b; cbn [negb]; [|done].
    destruct (gettoken s i4) as [[[t' q'] e'] i5] eqn:Hg5.
    pose proof (peek_gettoken _ _ _ _ _ _ _ _ (proj2 Hi3) Hp4 Hg5) as H5.
    apply ends_from with i5; [|lia]. eapply ends_then; [apply parseredirs_ends; [lia..|constructor]|].
    intros rs i6 Hrs Hi6. cbn. split; [by apply redircmd_words|lia].
Qed.

(** C26. The shell's parser ends on every command line: the recursive descent
    of [parseline], [parsepipe], [parseexec] and [parseblock], with the loops
    for redirections, arguments and ampersands, needs no more fuel than the
    model gives it (four calls per character), so that [parsecmd] returns a
    command or prints an error and exits, and never goes on forever. *)
Theorem parse_terminates (s : list Z) :
  (exists c ps, parse s = POk c ps /\ (ps <= length s)%nat) \/ (exists msg, parse s = PPanic msg).
Proof.
  destruct (parse_ends (parse_fuel s) s) as [H _]. unfold parse_fuel in H.
  specialize (H 0%nat ltac:(lia) ltac:(lia)). unfold parse, parse_fuel.
  destruct (parseline _ _ _); cbn in H; [left|right|done]; naive_solver lia.
Qed.

(** ** The strings of a command *)

Fixpoint nuls (c : cmd) : list nat :=
  match c with
  | EXEC argv => map snd argv
  | REDIR c _ efile _ _ => nuls c ++ [efile]
  | PIPE l r | LIST l r => nuls l ++ nuls r
  | BACK c => nuls c
  end.

Definition put_nuls (l : list nat) (s : list Z) : list Z := foldl (fun s e => <[e := 0]> s) s l.

Lemma put_nuls_app l1 l2 s : put_nuls (l1 ++ l2) s = put_nuls l2 (put_nuls l1 s).
Proof. apply foldl_app. Qed.

Lemma nulterminate_nuls c s : nulterminate c s = put_nuls (nuls c) s.
Proof.
  revert s. induction c as [argv|c IH q e m fd|l IHl r IHr|l IHl r IHr|c IH]; intros s; cbn [nulterminate nuls].
  - unfold put_nuls. revert s. induction argv as [|a argv IH]; intros s; [done|]. cbn. apply IH.
  - by rewrite put_nuls_app, IH.
  - by rewrite put_nuls_app, IHl, IHr.
  - by rewrite put_nuls_app, IHl, IHr.
  - apply IH.
Qed.

Lemma lookup_put_nuls l s j :
  put_nuls l s !! j = if decide (j ∈ l) then (fun _ => 0) <$> s !! j else s !! j.
Proof.
  unfold put_nuls. revert s. induction l as [|e l IH]; intros s; [done|]. cbn. rewrite IH.
  destruct (decide (j = e)) as [->|Hne].
  - rewrite (decide_True (P := e ∈ e :: l)) by (by left).
    destruct (decide (e < length s)%nat).
    + rewrite list_lookup_insert_eq by done. destruct (lookup_lt_is_Some_2 s e) as [x ->]; [done|].
      by destruct (decide _).
    + rewrite list_insert_ge by lia. rewrite (lookup_ge_None_2 s e) by lia. by destruct (decide _).
  - rewrite list_lookup_insert_ne by done.
    destruct (decide (j ∈ l)), (decide (j ∈ e :: l)) as [He|He]; try done.
    + exfalso. apply He. by right.
    + apply elem_of_cons in He as [?|?]; done.
Qed.

Lemma tokens_nuls c a : a ∈ tokens c -> a.2 ∈ nuls c.
Proof.
  induction c as [argv|c IH q e m fd|l IHl r IHr|l IHl r IHr|c IH]; cbn; auto.
  - intros H. by apply list_elem_of_fmap_2.
  - rewrite elem_of_cons, elem_of_app, list_elem_of_singleton. intros [->|?]; auto.
  - rewrite !elem_of_app. intros [?|?]; auto.
  - rewrite !elem_of_app. intros [?|?]; auto.
Qed.

Lemma nuls_tokens c e : e ∈ nuls c -> exists q, (q, e) ∈ tokens c.
Proof.
  induction c as [argv|c IH q e' m fd|l IHl r IHr|l IHl r IHr|c IH]; cbn; auto.
  - intros ((q & e') & -> & H)%list_elem_of_fmap. by exists q.
  - rewrite elem_of_app, list_elem_of_singleton. intros [[q' H]%IH| ->]; [exists q'; by right|exists q; by left].
  - rewrite elem_of_app. intros [[q H]%IHl|[q H]%IHr]; exists q; apply elem_of_app; auto.
  - rewrite elem_of_app. intros [[q H]%IHl|[q H]%IHr]; exists q; apply elem_of_app; auto.
Qed.

Lemma cstr_list_app l r : no_nul l -> cstr_list (l ++ 0 :: r) = l.
Proof.
  induction l as [|c l IH]; [done|]. intros H. inversion H; subst. cbn.
  destruct (c =? 0) eqn:?; [lia|]. by rewrite IH.
Qed.

Lemma cstr_list_all l : no_nul l -> cstr_list l = l.
Proof.
  induction l as [|c l IH]; [done|]. intros H. inversion H; subst. cbn.
  destruct (c =? 0) eqn:?; [lia|]. by rewrite IH.
Qed.

(** No NUL goes into a word. *)
Lemma nul_outside s c a e :
  words_ok s c -> a ∈ tokens c -> e ∈ nuls c -> (a.1 <= e < a.2)%nat -> False.
Proof.
  unfold words_ok. rewrite Forall_forall. intros Hw Ha (q & Hq)%nuls_tokens He.
  destruct (Hw a Ha) as (H1 & H2 & _). destruct (Hw _ Hq) as (H3 & _ & H4). cbn in *.
  destruct (lookup_lt_is_Some_2 s e) as [x Hx]; [lia|].
  specialize (H2 e x He Hx). specialize (H4 x Hx). congruence.
Qed.

Lemma string_of_word s c a :
  no_nul s -> words_ok s c -> a ∈ tokens c ->
  str_at (nulterminate c s) a.1 = take (a.2 - a.1) (drop a.1 s).
Proof.
  intros Hn Hw Ha. assert (Hwa : word_at s a) by (unfold words_ok in Hw; rewrite Forall_forall in Hw; auto).
  destruct Hwa as ((Hlt & Hle) & _ & _). rewrite nulterminate_nuls. unfold str_at.
  set (s' := put_nuls (nuls c) s). set (w := take (a.2 - a.1) (drop a.1 s)).
  assert (Hnw : no_nul w) by (apply Forall_take, Forall_drop, Hn).
  assert (Hsame : take (a.2 - a.1) (drop a.1 s') = w).
  { apply list_eq. intros j. subst w s'. destruct (decide (j < a.2 - a.1)%nat) as [Hj|Hj].
    - rewrite !lookup_take_lt, !lookup_drop, lookup_put_nuls by lia.
      destruct (decide _) as [He|]; [|done]. exfalso. apply (nul_outside s c a (a.1 + j)%nat); auto. lia.
    - rewrite !lookup_take_ge by lia. done. }
  rewrite <-(take_drop (a.2 - a.1) (drop a.1 s')), Hsame, drop_drop.
  replace (a.1 + (a.2 - a.1))%nat with a.2 by lia.
  destruct (decide (a.2 < length s)%nat) as [Hend|Hend].
  - destruct (lookup_lt_is_Some_2 s a.2 Hend) as [x Hx].
    assert (Hz : s' !! a.2 = Some 0).
    { subst s'. rewrite lookup_put_nuls, decide_True, Hx by (by apply tokens_nuls). done. }
    rewrite (drop_S s' 0 a.2 Hz). by apply cstr_list_app.
  - rewrite drop_ge, app_nil_r by (subst s'; unfold put_nuls;
      assert (forall l t, length (foldl (fun s e => <[e := 0]> s) t l) = length t) as -> by
        (induction l as [|y l IHl]; intros t; cbn; [done|]; by rewrite IHl, length_insert); lia).
    by apply cstr_list_all.
Qed.


Definition sh_example : list Z := str "cat <in|wc>out" ++ [nl].
Definition sh_example_cmd : cmd :=
  PIPE (REDIR (EXEC [(0, 3)%nat]) 5 7 SH_RDONLY 0) (REDIR (EXEC [(8, 10)%nat]) 11 14 SH_OUT 1).

