(* ===== verification/Kalloc.v ===== *)
(** * The physical page allocator

    Models [src/xv6-os/kernel/kalloc.c]: the free pages form a linked list
    whose links are stored in the pages themselves. *)
From S2P Require Import Prelude CString Spinlock Layout.

(** ** State

    The state of the memory-management code: the hart, the physical memory
    and [kmem.freelist]. [kmem.lock] is among the locks of the hart. *)
Record mm := mkmm {
  m_hart : hart;
  m_mem : mem;
  freelist : Z;
}.

Definition set_mem (m : mem) (s : mm) : mm := mkmm (m_hart s) m (freelist s).
Definition set_freelist (r : Z) (s : mm) : mm := mkmm (m_hart s) (m_mem s) r.

#[global] Arguments set_mem m !s /.
#[global] Arguments set_freelist r !s /.

#[export] Instance sub_hart_mm : Sub hart mm := {|
  sub_get := m_hart;
  sub_put h s := mkmm h (m_mem s) (freelist s);
|}.

#[export] Instance sub_hart_mm_laws : SubLaws hart mm.
Proof. constructor; by intros; destruct t || done. Qed.

Definition upd_mem (f : mem -> mem) : M mm unit := modify (fun s => set_mem (f (m_mem s)) s).

Definition kmem_lock : lockid := ("kmem"%string, 0).

Section Kalloc.
Context {LY : Layout}.

(** ** Operations *)

Definition kfree (pa : Z) : M mm unit :=
  if negb (pa mod PGSIZE =? 0) || (pa <? kend) || (PHYSTOP <=? pa)
  then panic "kfree"
  else
    (* Fill with junk to catch dangling refs. *)
    upd_mem (fun m => memset m pa 1 PGSIZE) ;;;
    let r := pa in
    lift (acquire kmem_lock) ;;;
    let! fl := gets freelist in
    upd_mem (fun m => st64 m r fl) ;;;
    modify (set_freelist r) ;;;
    lift (release kmem_lock).

Definition kalloc : M mm Z :=
  lift (acquire kmem_lock) ;;;
  let! r := gets freelist in
  when (negb (r =? 0)) (modify (fun s => set_freelist (ld64 (m_mem s) r) s)) ;;;
  lift (release kmem_lock) ;;;
  when (negb (r =? 0)) (upd_mem (fun m => memset m r 5 PGSIZE)) ;;;
  mret' r.

(** The loop frees the pages from [p] on while a whole page is left. *)
Fixpoint freerange_loop (fuel : nat) (p pa_end : Z) : M mm unit :=
  if p + PGSIZE <=? pa_end then
    match fuel with
    | O => out_of_fuel
    | S fuel => kfree p ;;; freerange_loop fuel (p + PGSIZE) pa_end
    end
  else mret' tt.

Definition freerange (pa_start pa_end : Z) : M mm unit :=
  let p := PGROUNDUP pa_start in
  freerange_loop (Z.to_nat ((pa_end - p) / PGSIZE)) p pa_end.

Definition kinit : M mm unit :=
  lift (initlock kmem_lock "kmem") ;;;
  freerange kend PHYSTOP.

(** ** Invariant *)

Definition valid_page (p : Z) : Prop := p mod 4096 = 0 /\ kend <= p < PHYSTOP.

(** The list of free pages, from the head. *)
Fixpoint flist (m : mem) (r : Z) (l : list Z) : Prop :=
  match l with
  | [] => r = 0
  | p :: l => r = p /\ flist m (ld64 m p) l
  end.

Definition kmem_inv (s : mm) (l : list Z) : Prop :=
  flist (m_mem s) (freelist s) l /\ NoDup l /\ Forall valid_page l.

(** The allocator can be called: its lock is free. *)
Definition mm_ok (s : mm) : Prop := hart_ok (m_hart s) /\ lock_free kmem_lock (m_hart s).

Context {LYok : LayoutOk}.

Lemma valid_page_range p : valid_page p -> KERNBASE <= p /\ p + 4096 <= PHYSTOP.
Proof.
  intros [Ha Hb]. destruct layout_order as (? & ? & ? & ?). unfold KERNBASE in *.
  unfold PHYSTOP, KERNBASE in *.
  apply Z.mod_divide in Ha as [q ->]; [|lia]. lia.
Qed.

Lemma valid_page_pos p : valid_page p -> 0 < p < 2 ^ 56.
Proof. intros H%valid_page_range. unfold PHYSTOP, KERNBASE in *. lia. Qed.

Lemma valid_page_disjoint p q :
  valid_page p -> valid_page q -> p <> q -> p + 4096 <= q \/ q + 4096 <= p.
Proof.
  intros [Hp _] [Hq _] Hne. apply Z.mod_divide in Hp as [x ->]; [|lia].
  apply Z.mod_divide in Hq as [y ->]; [|lia]. lia.
Qed.

Lemma mm_ok_settle h m r m' r' : mm_ok (mkmm h m r) -> mm_ok (mkmm (settle h) m' r').
Proof. intros [? ?]; split; cbn in *; auto. Qed.

(** The free list only depends on the first words of its pages. *)
Lemma flist_ext m m' r l :
  (forall p, p ∈ l -> ld64 m' p = ld64 m p) -> flist m r l -> flist m' r l.
Proof.
  revert r. induction l as [|p l IH]; intros r H; cbn; [done|].
  intros [-> Hl]. split; [done|]. rewrite H by set_solver.
  apply IH; [set_solver|done].
Qed.

Lemma flist_page_change m m' r l p :
  valid_page p -> Forall valid_page l -> p ∉ l ->
  (forall b, b < p \/ p + 4096 <= b -> rd m' b = rd m b) ->
  flist m r l -> flist m' r l.
Proof.
  intros Hp Hl Hn Hm. apply flist_ext. intros q Hq. apply ld64_ext. intros i Hi.
  apply Hm. rewrite Forall_forall in Hl. specialize (Hl q Hq).
  destruct (valid_page_disjoint p q); [done..|set_solver|lia|lia].
Qed.

(** ** Equations of the operations *)

Lemma release_kmem h m r :
  hart_ok h -> lock_free kmem_lock h ->
  lift (release kmem_lock) (mkmm (acquired kmem_lock h) m r) = Ok tt (mkmm (settle h) m r).
Proof. intros. unfold lift; cbn. by rewrite release_acquired. Qed.

Lemma acquire_kmem h m r :
  lock_free kmem_lock h ->
  lift (acquire kmem_lock) (mkmm h m r) = Ok tt (mkmm (acquired kmem_lock h) m r).
Proof. intros. unfold lift; cbn. by rewrite acquire_eq. Qed.

Lemma kalloc_some h m r :
  mm_ok (mkmm h m r) -> r <> 0 ->
  kalloc (mkmm h m r) = Ok r (mkmm (settle h) (memset m r 5 4096) (ld64 m r)).
Proof.
  intros [Hh Hl] Hr. unfold kalloc. rewrite (bind_ok _ _ _ _ _ (acquire_kmem _ _ _ Hl)).
  msimpl. destruct (Z.eqb_spec r 0); [done|]. msimpl.
  rewrite (bind_ok _ _ _ _ _ (release_kmem _ _ _ Hh Hl)). unfold upd_mem. by msimpl.
Qed.

Lemma kalloc_none h m :
  mm_ok (mkmm h m 0) -> kalloc (mkmm h m 0) = Ok 0 (mkmm (settle h) m 0).
Proof.
  intros [Hh Hl]. unfold kalloc. rewrite (bind_ok _ _ _ _ _ (acquire_kmem _ _ _ Hl)).
  msimpl. by rewrite (bind_ok _ _ _ _ _ (release_kmem _ _ _ Hh Hl)).
Qed.

Lemma kfree_valid h m r p :
  mm_ok (mkmm h m r) -> valid_page p ->
  kfree p (mkmm h m r) = Ok tt (mkmm (settle h) (st64 (memset m p 1 4096) p r) p).
Proof.
  intros [Hh Hl] [Ha [Hp1 Hp2]]. unfold kfree. rewrite Ha.
  destruct (Z.ltb_spec p kend), (Z.leb_spec PHYSTOP p); try lia. cbn.
  unfold upd_mem. msimpl. rewrite (bind_ok _ _ _ _ _ (acquire_kmem _ _ _ Hl)).
  msimpl. apply (release_kmem _ _ _ Hh Hl).
Qed.

Lemma kfree_invalid s p : ~ valid_page p -> kfree p s = Panic "kfree".
Proof.
  intros Hp. unfold kfree, valid_page in *.
  destruct (Z.eqb_spec (p mod 4096) 0), (Z.ltb_spec p kend), (Z.leb_spec PHYSTOP p);
    cbn; try done. exfalso. apply Hp. lia.
Qed.

Lemma kmem_inv_alloc h m r p l :
  kmem_inv (mkmm h m r) (p :: l) ->
  r = p /\ valid_page p /\ p ∉ l /\
  kmem_inv (mkmm (settle h) (memset m p 5 4096) (ld64 m p)) l.
Proof.
  intros (Hf & [Hnp Hnd]%NoDup_cons & [Hp Hv]%Forall_cons); cbn in Hf.
  destruct Hf as [-> Hf].
  split_and!; [done..|]. split_and!; [|done..]; cbn.
  eapply flist_page_change; [done..| |done]. intros. apply rd_memset_out. lia.
Qed.

Lemma kmem_inv_free h m r p l :
  kmem_inv (mkmm h m r) l -> valid_page p -> p ∉ l ->
  kmem_inv (mkmm (settle h) (st64 (memset m p 1 4096) p r) p) (p :: l).
Proof.
  intros (Hf & Hnd & Hv) Hp Hn; cbn in *. split_and!; [|by constructor..].
  cbn. split; [done|]. rewrite ld64_st64_eq.
  assert (u64 r = r) as ->.
  { apply u64_small. destruct l as [|q l]; cbn in Hf; [lia|].
    destruct Hf as [-> _]. apply Forall_cons in Hv as [Hq _].
    apply valid_page_pos in Hq. lia. }
  eapply flist_page_change; [done..| |done]. intros b Hb.
  rewrite rd_st64_ne, rd_memset_out by lia. done.
Qed.

Lemma freerange_loop_spec fuel p e s l :
  mm_ok s -> kmem_inv s l -> p mod 4096 = 0 -> kend <= p -> e <= PHYSTOP ->
  (forall q, q ∈ l -> q < p) -> (e - p) / 4096 <= Z.of_nat fuel ->
  exists s' l', freerange_loop fuel p e s = Ok tt s' /\ mm_ok s' /\ kmem_inv s' l' /\
    forall q, q ∈ l' <-> q ∈ l \/ (p <= q /\ q + 4096 <= e /\ q mod 4096 = 0).
Proof.
  revert p s l. induction fuel as [|fuel IH]; intros p s l Hs Hl Ha Hp He Hlt Hf;
    cbn [freerange_loop]; destruct (Z.leb_spec (p + 4096) e) as [Hpe|Hpe].
  - exfalso. pose proof (Z.div_le_lower_bound (e - p) 4096 1). lia.
  - exists s, l. split_and!; [done..|]. intros q. split; [auto|].
    intros [?|(? & ? & ?)]; [done|lia].
  - destruct s as [h m r]. assert (Hv : valid_page p) by (split; lia).
    rewrite (bind_ok _ _ _ _ _ (kfree_valid _ _ _ _ Hs Hv)).
    destruct (IH (p + 4096) _ (p :: l) (mm_ok_settle _ _ _ _ _ Hs)
      (kmem_inv_free _ _ _ _ _ Hl Hv ltac:(intros H%Hlt; lia)))
      as (s' & l' & H1 & H2 & H3 & H4).
    + rewrite <- Zplus_mod_idemp_l, Ha. done.
    + lia.
    + done.
    + intros q [->|Hq%Hlt]%elem_of_cons; lia.
    + replace (e - (p + 4096)) with (e - p + (-1) * 4096) by lia.
      rewrite Z.div_add by lia. lia.
    + exists s', l'. split_and!; [done..|]. intros q. rewrite H4, elem_of_cons.
      split; intros [H|H]; auto; [destruct H; auto; subst; right; lia|right; lia|].
      destruct (decide (q = p)); [auto|]. right. destruct H as (? & ? & Hq).
      split; [|done]. apply Z.mod_divide in Ha as [x ->]; [|lia].
      apply Z.mod_divide in Hq as [y ->]; lia.
  - exists s, l. split_and!; [done..|]. intros q. split; [auto|].
    intros [?|(? & ? & ?)]; [done|lia].
Qed.

(** ** Properties *)

(** C35. [kalloc] refines taking an element from a set of free pages: it
    returns the first free page, which leaves the free list, filled with
    the byte 5 and with no other byte of memory changed; when no page is
    free it returns 0 and changes nothing. It never panics and gives its
    lock back. *)
Theorem kalloc_correct (s : mm) (l : list Z) (Hok : mm_ok s) (Hinv : kmem_inv s l) :
  exists s', kalloc s = Ok (hd 0 l) s' /\ mm_ok s' /\ kmem_inv s' (tail l) /\
    match l with
    | [] => m_mem s' = m_mem s
    | p :: _ => valid_page p /\
        forall b, rd (m_mem s') b = if decide (p <= b < p + 4096) then 5 else rd (m_mem s) b
    end.
Proof.
  destruct s as [h m r]. destruct l as [|p l].
  - destruct Hinv as [Hr _]. cbn in Hr. subst r. rewrite kalloc_none by done.
    eexists. split_and!; [done|by eapply mm_ok_settle|by split_and!; try constructor|done].
  - destruct (kmem_inv_alloc _ _ _ _ _ Hinv) as (-> & Hp & Hn & Hinv').
    pose proof (valid_page_pos p Hp). rewrite kalloc_some by (done || lia).
    eexists. split_and!; [done|by eapply mm_ok_settle|done|done|].
    intros b. cbn. by rewrite rd_memset.
Qed.

(** [kfree] accepts exactly the aligned pages of the managed range and
    panics on any other address; a page that is not already free becomes
    the head of the free list, and the next [kalloc] returns it and
    restores the list. *)
Theorem kfree_kalloc_roundtrip (s : mm) (l : list Z) (p : Z)
  (Hok : mm_ok s) (Hinv : kmem_inv s l) (Hfresh : p ∉ l) :
  (~ valid_page p -> kfree p s = Panic "kfree") /\
  (valid_page p ->
   exists s1 s2, kfree p s = Ok tt s1 /\ mm_ok s1 /\ kmem_inv s1 (p :: l) /\
     same_outside (m_mem s) (m_mem s1) p 4096 /\
     kalloc s1 = Ok p s2 /\ mm_ok s2 /\ kmem_inv s2 l /\ freelist s2 = freelist s).
Proof.
  split; [apply kfree_invalid|]. intros Hp. destruct s as [h m r].
  pose proof (kmem_inv_free _ _ _ _ _ Hinv Hp Hfresh) as H1.
  pose proof (valid_page_pos p Hp). pose proof (fun m' r' => mm_ok_settle _ _ _ m' r' Hok) as Hok1.
  do 2 eexists. rewrite kfree_valid by done. split_and!; [done|apply Hok1|done| | | | |].
  - intros b Hb. cbn. rewrite rd_st64_ne, rd_memset_out by lia. done.
  - apply kalloc_some; [apply Hok1|lia].
  - eapply mm_ok_settle, (Hok1 ∅ 0).
  - by apply (kmem_inv_alloc _ _ _ _ _ H1).
  - cbn. rewrite ld64_st64_eq. apply u64_small. destruct Hinv as (Hf & _ & Hv).
    destruct l as [|q l]; cbn in Hf; [lia|]. destruct Hf as [-> _].
    apply Forall_cons in Hv as [Hq _]. apply valid_page_pos in Hq. lia.
Qed.

(** [kinit] makes every whole page between the end of the kernel and
    [PHYSTOP] free, each of them once. *)
Theorem kinit_correct (s : mm) (Hok : hart_ok (m_hart s)) (Hzero : freelist s = 0) :
  exists s' l, kinit s = Ok tt s' /\ mm_ok s' /\ kmem_inv s' l /\
    forall p, p ∈ l <-> valid_page p.
Proof.
  destruct layout_order as (? & ? & ? & ?).
  assert (Hb : KERNBASE <= kend <= PHYSTOP) by (unfold KERNBASE, PHYSTOP in *; lia).
  destruct (PGROUNDUP_bounds kend) as [Hr Ha].
  { unfold PHYSTOP, KERNBASE in Hb. lia. }
  destruct s as [h m r]. cbn in Hzero. subst r. unfold kinit.
  set (h' := set_locks (<[kmem_lock := mkspinlock 0 "kmem" None]> (locks h)) h).
  rewrite (bind_ok _ _ _ tt (mkmm h' m 0)) by done.
  destruct (freerange_loop_spec (Z.to_nat ((PHYSTOP - PGROUNDUP kend) / 4096))
    (PGROUNDUP kend) PHYSTOP (mkmm h' m 0) []) as (s' & l & H3 & H4 & H5 & H6).
  - split; [done|]. exists "kmem"%string. apply lookup_insert_eq.
  - split_and!; [done|constructor..].
  - done.
  - lia.
  - lia.
  - set_solver.
  - lia.
  - exists s', l. split_and!; [done..|]. intros p. rewrite H6. split.
    + intros [?%not_elem_of_nil|(Hp & He & Hm)]; [done|]. split; lia.
    + intros Hp. pose proof (valid_page_range p Hp). destruct Hp as [Hm Hp].
      right. split_and!; [|lia|done].
      apply Z.mod_divide in Ha as [x Hx]; [|lia].
      apply Z.mod_divide in Hm as [y Hy]; [|lia]. lia.
Qed.
End Kalloc.

(** ** Examples: one page is left between the small kernel and [PHYSTOP] *)

Definition hart1 : hart := mkhart 0 SSTATUS_SIE ∅ {[kmem_lock := mkspinlock 0 "kmem" None]}.

Lemma hart1_ok : hart_ok hart1.
Proof. split; [vm_compute; discriminate|intros H; exfalso; vm_compute in H; discriminate]. Qed.

Definition page1 : Z := KERNBASE + 0x7fff000.

Definition mm1 : mm := mkmm hart1 ∅ page1.

Lemma mm1_ok : mm_ok mm1.
Proof. split; [apply hart1_ok|]. exists "kmem"%string. reflexivity. Qed.

Lemma page1_valid : @valid_page small_layout page1.
Proof. split; [reflexivity|]. split; vm_compute; [discriminate|reflexivity]. Qed.

Lemma mm1_inv : @kmem_inv small_layout mm1 [page1].
Proof.
  split_and!; [split; reflexivity|apply NoDup_singleton|]. constructor; [apply page1_valid|constructor].
Qed.

Lemma kalloc_correct_witness :
  exists s', kalloc mm1 = Ok page1 s' /\ @kmem_inv small_layout s' [].
Proof.
  destruct (@kalloc_correct small_layout small_layout_ok mm1 [page1] mm1_ok mm1_inv)
    as (s' & H1 & _ & H2 & _). exists s'. split; [exact H1|exact H2].
Defined.

Lemma kfree_kalloc_roundtrip_witness :
  @kfree small_layout 17 (mkmm hart1 ∅ 0) = Panic "kfree" /\
  exists s1 s2, @kfree small_layout page1 (mkmm hart1 ∅ 0) = Ok tt s1 /\ kalloc s1 = Ok page1 s2.
Proof.
  assert (H0 : mm_ok (mkmm hart1 ∅ 0)) by exact mm1_ok.
  assert (Hi : @kmem_inv small_layout (mkmm hart1 ∅ 0) []) by (split_and!; constructor).
  split.
  - apply (@kfree_kalloc_roundtrip small_layout small_layout_ok _ [] 17 H0 Hi); [set_solver|].
    intros [H _]. vm_compute in H. discriminate.
  - destruct (@kfree_kalloc_roundtrip small_layout small_layout_ok _ [] page1 H0 Hi)
      as [_ H]; [set_solver|].
    destruct (H page1_valid) as (s1 & s2 & H1 & _ & _ & _ & H2 & _). exists s1, s2. split; [exact H1|exact H2].
Defined.

Lemma kinit_correct_witness :
  exists s' (l : list Z), @kinit small_layout (mkmm hart1 ∅ 0) = Ok tt s' /\
    forall p, p ∈ l <-> @valid_page small_layout p.
Proof.
  destruct (@kinit_correct small_layout small_layout_ok (mkmm hart1 ∅ 0) hart1_ok eq_refl)
    as (s' & l & H1 & _ & _ & H2). exists s', l. split; [exact H1|exact H2].
Defined.
