(* ===== verification/Vm.v ===== *)
(** * Virtual memory: Sv39 page tables and user memory

    Models [src/xv6-os/kernel/vm.c]. Page tables, user pages and kernel data
    live in one byte memory; an address of the kernel is the physical address
    it is direct-mapped to. The translation look-aside buffer is not modelled:
    [sfence_vma] has no effect on the memory. *)
From S2P Require Import Prelude CString Spinlock Layout Kalloc.

Section Vm.
Context {LY : Layout}.

Definition load64 (a : Z) : M mm Z := gets (fun s => ld64 (m_mem s) a).
Definition store64 (a v : Z) : M mm unit := upd_mem (fun m => st64 m a v).

(** ** Walking a page table *)

(** The loop over the levels, from [level] down to 1, and the final index. *)
Fixpoint walk_loop (level : nat) (pagetable va : Z) (alloc : bool) : M mm Z :=
  match level with
  | O => mret' (pagetable + 8 * PX 0 va)
  | S level' =>
      let pte := pagetable + 8 * PX (Z.of_nat level) va in
      let! v := load64 pte in
      if negb (Z.land v PTE_V =? 0) then walk_loop level' (PTE2PA v) va alloc
      else if negb alloc then mret' 0
      else
        let! pt := kalloc in
        if pt =? 0 then mret' 0
        else
          upd_mem (fun m => memset m pt 0 PGSIZE) ;;;
          store64 pte (Z.lor (PA2PTE pt) PTE_V) ;;;
          walk_loop level' pt va alloc
  end.

Definition walk (pagetable va : Z) (alloc : bool) : M mm Z :=
  if MAXVA <=? va then panic "walk" else walk_loop 2 pagetable va alloc.

Definition walkaddr (pagetable va : Z) : M mm Z :=
  if MAXVA <=? va then mret' 0
  else
    let! pte := walk pagetable va false in
    if pte =? 0 then mret' 0
    else
      let! v := load64 pte in
      if Z.land v PTE_V =? 0 then mret' 0
      else if Z.land v PTE_U =? 0 then mret' 0
      else mret' (PTE2PA v).

(** ** Mapping and unmapping *)

Fixpoint mappages_loop (fuel : nat) (pagetable a last pa perm : Z) : M mm Z :=
  match fuel with
  | O => out_of_fuel
  | S fuel =>
      let! pte := walk pagetable a true in
      if pte =? 0 then mret' (-1)
      else
        let! v := load64 pte in
        if negb (Z.land v PTE_V =? 0) then panic "mappages: remap"
        else
          store64 pte (Z.lor (Z.lor (PA2PTE pa) perm) PTE_V) ;;;
          if a =? last then mret' 0
          else mappages_loop fuel pagetable (u64 (a + PGSIZE)) last (u64 (pa + PGSIZE)) perm
  end.

Definition mappages (pagetable va size pa perm : Z) : M mm Z :=
  if negb (va mod PGSIZE =? 0) then panic "mappages: va not aligned"
  else if negb (size mod PGSIZE =? 0) then panic "mappages: size not aligned"
  else if size =? 0 then panic "mappages: size"
  else
    let a := va in
    let last := u64 (va + size - PGSIZE) in
    mappages_loop (Z.to_nat (size / PGSIZE)) pagetable a last pa perm.

Definition kvmmap (kpgtbl va pa sz perm : Z) : M mm unit :=
  let! r := mappages kpgtbl va sz pa perm in
  if negb (r =? 0) then panic "kvmmap" else mret' tt.

Fixpoint uvmunmap_loop (fuel : nat) (pagetable a last : Z) (do_free : bool) : M mm unit :=
  if a <? last then
    match fuel with
    | O => out_of_fuel
    | S fuel =>
        let! pte := walk pagetable a false in
        if pte =? 0 then panic "uvmunmap: walk"
        else
          let! v := load64 pte in
          if Z.land v PTE_V =? 0 then panic "uvmunmap: not mapped"
          else if PTE_FLAGS v =? PTE_V then panic "uvmunmap: not a leaf"
          else
            when do_free (kfree (PTE2PA v)) ;;;
            store64 pte 0 ;;;
            uvmunmap_loop fuel pagetable (u64 (a + PGSIZE)) last do_free
    end
  else mret' tt.

Definition uvmunmap (pagetable va npages : Z) (do_free : bool) : M mm unit :=
  if negb (va mod PGSIZE =? 0) then panic "uvmunmap: not aligned"
  else uvmunmap_loop (Z.to_nat npages) pagetable va (u64 (va + npages * PGSIZE)) do_free.

Definition uvmcreate : M mm Z :=
  let! pagetable := kalloc in
  if pagetable =? 0 then mret' 0
  else
    upd_mem (fun m => memset m pagetable 0 PGSIZE) ;;;
    mret' pagetable.

(** As in the code, the results of [kalloc] and [mappages] are not checked. *)
Definition uvmfirst (pagetable src sz : Z) : M mm unit :=
  if PGSIZE <=? sz then panic "uvmfirst: more than a page"
  else
    let! mem := kalloc in
    upd_mem (fun m => memset m mem 0 PGSIZE) ;;;
    let! _ := mappages pagetable 0 PGSIZE mem
                (Z.lor (Z.lor (Z.lor PTE_W PTE_R) PTE_X) PTE_U) in
    upd_mem (fun m => memmove m mem src sz).

(** ** Growing and shrinking user memory *)

Definition uvmdealloc (pagetable oldsz newsz : Z) : M mm Z :=
  if oldsz <=? newsz then mret' oldsz
  else
    (if PGROUNDUP newsz <? PGROUNDUP oldsz then
       let npages := s32 ((PGROUNDUP oldsz - PGROUNDUP newsz) / PGSIZE) in
       uvmunmap pagetable (PGROUNDUP newsz) (u64 npages) true
     else mret' tt) ;;;
    mret' newsz.

Fixpoint uvmalloc_loop (fuel : nat) (pagetable oldsz a newsz xperm : Z) : M mm Z :=
  if a <? newsz then
    match fuel with
    | O => out_of_fuel
    | S fuel =>
        let! mem := kalloc in
        if mem =? 0 then
          let! _ := uvmdealloc pagetable a oldsz in
          mret' 0
        else
          upd_mem (fun m => memset m mem 0 PGSIZE) ;;;
          let! r := mappages pagetable a PGSIZE mem (Z.lor (Z.lor PTE_R PTE_U) xperm) in
          if negb (r =? 0) then
            kfree mem ;;;
            let! _ := uvmdealloc pagetable a oldsz in
            mret' 0
          else uvmalloc_loop fuel pagetable oldsz (u64 (a + PGSIZE)) newsz xperm
    end
  else mret' newsz.

Definition uvmalloc (pagetable oldsz newsz xperm : Z) : M mm Z :=
  if newsz <? oldsz then mret' oldsz
  else
    let oldsz := PGROUNDUP oldsz in
    uvmalloc_loop (Z.to_nat ((newsz - oldsz + PGSIZE - 1) / PGSIZE)) pagetable oldsz oldsz newsz xperm.

(** ** Freeing a page table *)

(** The loop over the 512 entries, of which [k] are left; [rec] frees a
    lower-level page table. *)
Fixpoint freewalk_loop (rec : Z -> M mm unit) (k : nat) (pagetable i : Z) : M mm unit :=
  match k with
  | O => mret' tt
  | S k =>
      let! pte := load64 (pagetable + 8 * i) in
      (if negb (Z.land pte PTE_V =? 0) && (Z.land pte (Z.lor (Z.lor PTE_R PTE_W) PTE_X) =? 0)
       then
         let child := PTE2PA pte in
         rec child ;;;
         store64 (pagetable + 8 * i) 0
       else if negb (Z.land pte PTE_V =? 0) then panic "freewalk: leaf"
       else mret' tt) ;;;
      freewalk_loop rec k pagetable (i + 1)
  end.

(** [depth] bounds the recursion; a page table has three levels. *)
Fixpoint freewalk (depth : nat) (pagetable : Z) : M mm unit :=
  match depth with
  | O => out_of_fuel
  | S depth =>
      freewalk_loop (freewalk depth) 512 pagetable 0 ;;;
      kfree pagetable
  end.

Definition uvmfree (pagetable sz : Z) : M mm unit :=
  when (0 <? sz) (uvmunmap pagetable 0 (PGROUNDUP sz / PGSIZE) true) ;;;
  freewalk 3 pagetable.

(** ** Copying user memory *)

Fixpoint uvmcopy_loop (fuel : nat) (old new i sz : Z) : M mm Z :=
  if i <? sz then
    match fuel with
    | O => out_of_fuel
    | S fuel =>
        let! pte := walk old i false in
        if pte =? 0 then panic "uvmcopy: pte should exist"
        else
          let! v := load64 pte in
          if Z.land v PTE_V =? 0 then panic "uvmcopy: page not present"
          else
            let pa := PTE2PA v in
            let flags := PTE_FLAGS v in
            let! mem := kalloc in
            if mem =? 0 then
              uvmunmap new 0 (i / PGSIZE) true ;;;
              mret' (-1)
            else
              upd_mem (fun m => memmove m mem pa PGSIZE) ;;;
              let! r := mappages new i PGSIZE mem flags in
              if negb (r =? 0) then
                kfree mem ;;;
                uvmunmap new 0 (i / PGSIZE) true ;;;
                mret' (-1)
              else uvmcopy_loop fuel old new (u64 (i + PGSIZE)) sz
    end
  else mret' 0.

Definition uvmcopy (old new sz : Z) : M mm Z :=
  uvmcopy_loop (Z.to_nat ((sz + PGSIZE - 1) / PGSIZE)) old new 0 sz.

Definition uvmclear (pagetable va : Z) : M mm unit :=
  let! pte := walk pagetable va false in
  if pte =? 0 then panic "uvmclear"
  else
    let! v := load64 pte in
    store64 pte (Z.land v (Z.lnot PTE_U)).

(** ** Copying between kernel and user memory

    A round copies up to the end of a page, so [len + 1] rounds suffice. *)

Fixpoint copyout_loop (fuel : nat) (pagetable dstva src len : Z) : M mm Z :=
  if 0 <? len then
    match fuel with
    | O => out_of_fuel
    | S fuel =>
        let va0 := PGROUNDDOWN dstva in
        if MAXVA <=? va0 then mret' (-1)
        else
          let! pte := walk pagetable va0 false in
          if pte =? 0 then mret' (-1)
          else
            let! v := load64 pte in
            if (Z.land v PTE_V =? 0) || (Z.land v PTE_U =? 0) || (Z.land v PTE_W =? 0)
            then mret' (-1)
            else
              let pa0 := PTE2PA v in
              let n := PGSIZE - (dstva - va0) in
              let n := if len <? n then len else n in
              upd_mem (fun m => memmove m (pa0 + (dstva - va0)) src n) ;;;
              copyout_loop fuel pagetable (va0 + PGSIZE) (src + n) (len - n)
    end
  else mret' 0.

Definition copyout (pagetable dstva src len : Z) : M mm Z :=
  copyout_loop (Z.to_nat len) pagetable dstva src len.

Fixpoint copyin_loop (fuel : nat) (pagetable dst srcva len : Z) : M mm Z :=
  if 0 <? len then
    match fuel with
    | O => out_of_fuel
    | S fuel =>
        let va0 := PGROUNDDOWN srcva in
        let! pa0 := walkaddr pagetable va0 in
        if pa0 =? 0 then mret' (-1)
        else
          let n := PGSIZE - (srcva - va0) in
          let n := if len <? n then len else n in
          upd_mem (fun m => memmove m dst (pa0 + (srcva - va0)) n) ;;;
          copyin_loop fuel pagetable (dst + n) (va0 + PGSIZE) (len - n)
    end
  else mret' 0.

Definition copyin (pagetable dst srcva len : Z) : M mm Z :=
  copyin_loop (Z.to_nat len) pagetable dst srcva len.

(** The inner loop of [copyinstr] over the [n] bytes left in a page: whether
    the NUL was found, with the new [max] and [dst]. *)
Fixpoint copyinstr_page (n : nat) (p dst max : Z) : M mm (bool * Z * Z) :=
  match n with
  | O => mret' (false, max, dst)
  | S n =>
      let! c := gets (fun s => rd (m_mem s) p) in
      if c =? 0 then
        upd_mem (fun m => wr m dst 0) ;;;
        mret' (true, max, dst)
      else
        upd_mem (fun m => wr m dst c) ;;;
        copyinstr_page n (p + 1) (dst + 1) (max - 1)
  end.

Fixpoint copyinstr_loop (fuel : nat) (pagetable dst srcva max : Z) (got_null : bool) : M mm Z :=
  if negb got_null && (0 <? max) then
    match fuel with
    | O => out_of_fuel
    | S fuel =>
        let va0 := PGROUNDDOWN srcva in
        let! pa0 := walkaddr pagetable va0 in
        if pa0 =? 0 then mret' (-1)
        else
          let n := PGSIZE - (srcva - va0) in
          let n := if max <? n then max else n in
          let p := pa0 + (srcva - va0) in
          let! r := copyinstr_page (Z.to_nat n) p dst max in
          let '(got, max, dst) := r in
          copyinstr_loop fuel pagetable dst (va0 + PGSIZE) max got
    end
  else mret' (if got_null then 0 else -1).

Definition copyinstr (pagetable dst srcva max : Z) : M mm Z :=
  copyinstr_loop (Z.to_nat max) pagetable dst srcva max false.

(** *** Copies from and to kernel data that is not in the byte memory

    Much of the kernel's data (local variables, fields of structures, disk
    buffers) is modelled by records and lists of bytes. The routines below are
    [copyout], [copyin] and [copyinstr] for such data: the source is a list of
    bytes, or the result comes with the bytes that were stored. *)

Fixpoint copyout_bytes_loop (fuel : nat) (pagetable dstva : Z) (src : list Z) : M mm Z :=
  if 0 <? Z.of_nat (length src) then
    match fuel with
    | O => out_of_fuel
    | S fuel =>
        let va0 := PGROUNDDOWN dstva in
        if MAXVA <=? va0 then mret' (-1)
        else
          let! pte := walk pagetable va0 false in
          if pte =? 0 then mret' (-1)
          else
            let! v := load64 pte in
            if (Z.land v PTE_V =? 0) || (Z.land v PTE_U =? 0) || (Z.land v PTE_W =? 0)
            then mret' (-1)
            else
              let pa0 := PTE2PA v in
              let n := PGSIZE - (dstva - va0) in
              let n := if Z.of_nat (length src) <? n then Z.of_nat (length src) else n in
              upd_mem (fun m => put_bytes m (pa0 + (dstva - va0)) (take (Z.to_nat n) src)) ;;;
              copyout_bytes_loop fuel pagetable (va0 + PGSIZE) (drop (Z.to_nat n) src)
    end
  else mret' 0.

Definition copyout_bytes (pagetable dstva : Z) (src : list Z) : M mm Z :=
  copyout_bytes_loop (length src) pagetable dstva src.

Fixpoint copyin_bytes_loop (fuel : nat) (pagetable srcva len : Z) : M mm (Z * list Z) :=
  if 0 <? len then
    match fuel with
    | O => out_of_fuel
    | S fuel =>
        let va0 := PGROUNDDOWN srcva in
        let! pa0 := walkaddr pagetable va0 in
        if pa0 =? 0 then mret' (-1, [])
        else
          let n := PGSIZE - (srcva - va0) in
          let n := if len <? n then len else n in
          let! bs := gets (fun s => bytes (m_mem s) (pa0 + (srcva - va0)) (Z.to_nat n)) in
          let! r := copyin_bytes_loop fuel pagetable (va0 + PGSIZE) (len - n) in
          mret' (r.1, bs ++ r.2)
    end
  else mret' (0, []).

Definition copyin_bytes (pagetable srcva len : Z) : M mm (Z * list Z) :=
  copyin_bytes_loop (Z.to_nat len) pagetable srcva len.

(** The bytes of a page up to a NUL, and whether there is one. *)
Fixpoint cstr_page (m : mem) (p : Z) (n : nat) : bool * list Z :=
  match n with
  | O => (false, [])
  | S n =>
      let c := rd m p in
      if c =? 0 then (true, [])
      else let '(got, bs) := cstr_page m (p + 1) n in (got, c :: bs)
  end.

Fixpoint copyinstr_bytes_loop (fuel : nat) (pagetable srcva max : Z) : M mm (Z * list Z) :=
  if 0 <? max then
    match fuel with
    | O => out_of_fuel
    | S fuel =>
        let va0 := PGROUNDDOWN srcva in
        let! pa0 := walkaddr pagetable va0 in
        if pa0 =? 0 then mret' (-1, [])
        else
          let n := PGSIZE - (srcva - va0) in
          let n := if max <? n then max else n in
          let! p := gets (fun s => cstr_page (m_mem s) (pa0 + (srcva - va0)) (Z.to_nat n)) in
          let '(got, bs) := p in
          if got then mret' (0, bs)
          else
            let! r := copyinstr_bytes_loop fuel pagetable (va0 + PGSIZE) (max - n) in
            mret' (r.1, bs ++ r.2)
    end
  else mret' (-1, []).

(** The string, without the NUL, when the result is 0. *)
Definition copyinstr_bytes (pagetable srcva max : Z) : M mm (Z * list Z) :=
  copyinstr_bytes_loop (Z.to_nat max) pagetable srcva max.

(** ** The kernel's own page table *)

(** [proc_mapstacks] of [proc.c]: a stack page for each of the [k] processes
    from [p] on. *)
Fixpoint proc_mapstacks_loop (k : nat) (kpgtbl p : Z) : M mm unit :=
  match k with
  | O => mret' tt
  | S k =>
      let! pa := kalloc in
      if pa =? 0 then panic "kalloc"
      else
        let va := KSTACK p in
        kvmmap kpgtbl va pa PGSIZE (Z.lor PTE_R PTE_W) ;;;
        proc_mapstacks_loop k kpgtbl (p + 1)
  end.

Definition proc_mapstacks (kpgtbl : Z) : M mm unit := proc_mapstacks_loop NPROC kpgtbl 0.

Definition kvmmake : M mm Z :=
  let! kpgtbl := kalloc in
  upd_mem (fun m => memset m kpgtbl 0 PGSIZE) ;;;
  (* uart registers *)
  kvmmap kpgtbl UART0 UART0 PGSIZE (Z.lor PTE_R PTE_W) ;;;
  (* virtio mmio disk interface *)
  kvmmap kpgtbl VIRTIO0 VIRTIO0 PGSIZE (Z.lor PTE_R PTE_W) ;;;
  (* PLIC *)
  kvmmap kpgtbl PLIC PLIC 0x4000000 (Z.lor PTE_R PTE_W) ;;;
  (* map kernel text executable and read-only. *)
  kvmmap kpgtbl KERNBASE KERNBASE (etext - KERNBASE) (Z.lor PTE_R PTE_X) ;;;
  (* map kernel data and the physical RAM we'll make use of. *)
  kvmmap kpgtbl etext etext (PHYSTOP - etext) (Z.lor PTE_R PTE_W) ;;;
  (* map the trampoline for trap entry/exit to the highest virtual address. *)
  kvmmap kpgtbl TRAMPOLINE trampoline PGSIZE (Z.lor PTE_R PTE_X) ;;;
  (* allocate and map a kernel stack for each process. *)
  proc_mapstacks kpgtbl ;;;
  mret' kpgtbl.

End Vm.
