(* ===== verification/VmTable.v ===== *)
(** * Page tables as maps from virtual pages to entries

    The invariant of a page table stored in memory, the map it represents
    and the effect of [walk], [mappages] and [uvmunmap] of [Vm] on that map. *)
From S2P Require Import Prelude CString Spinlock Layout Kalloc Vm.

(** ** Bits of page-table entries *)

Definition pte_valid (v : Z) : bool := negb (Z.land v PTE_V =? 0).

Lemma land_flags v mask : 0 <= mask < 1024 -> Z.land v mask = Z.land (PTE_FLAGS v) mask.
Proof.
  intros Hm. unfold PTE_FLAGS. rewrite <- Z.land_assoc. f_equal.
  change 0x3FF with (Z.ones 10). rewrite Z.land_comm, Z.land_ones by lia.
  symmetry. apply Z.mod_small. lia.
Qed.

(** An entry for the physical page [pa]. *)
Lemma PA2PTE_range pa : 0 <= pa < 2 ^ 56 -> 0 <= PA2PTE pa < 2 ^ 54 /\ PA2PTE pa mod 2 ^ 10 = 0.
Proof.
  intros Hpa. unfold PA2PTE. rewrite Z.shiftl_mul_pow2, Z.shiftr_div_pow2 by lia.
  pose proof (Z.div_pos pa (2 ^ 12)). pose proof (Z.div_lt_upper_bound pa (2 ^ 12) (2 ^ 44)).
  rewrite u64_small by lia. split; [lia|]. apply Z.mod_mul. lia.
Qed.

Lemma pte_range pa perm :
  0 <= pa < 2 ^ 56 -> 0 <= perm < 1024 -> 0 <= Z.lor (PA2PTE pa) perm < 2 ^ 55.
Proof.
  intros Hpa Hp. destruct (PA2PTE_range pa Hpa). rewrite (lor_add _ _ 10) by lia. lia.
Qed.

Lemma pte_land pa perm mask :
  0 <= pa < 2 ^ 56 -> 0 <= perm < 1024 -> 0 <= mask < 1024 ->
  Z.land (Z.lor (PA2PTE pa) perm) mask = Z.land perm mask.
Proof. intros. rewrite land_flags, PTE_FLAGS_PA2PTE by done. done. Qed.

(** ** The map of a page table *)

(** The level-0 table that [walk] reaches from table [pt] of level [level]. *)
Fixpoint walk_to (level : nat) (m : mem) (pt va : Z) : option Z :=
  match level with
  | O => Some pt
  | S level' =>
      let v := ld64 m (pt + 8 * PX (Z.of_nat level) va) in
      if pte_valid v then walk_to level' m (PTE2PA v) va else None
  end.

(** The entry of [va], or 0 when there is none or it is not valid. *)
Definition pte_from (level : nat) (m : mem) (pt va : Z) : Z :=
  match walk_to level m pt va with
  | Some t0 => let v := ld64 m (t0 + 8 * PX 0 va) in if pte_valid v then v else 0
  | None => 0
  end.

Definition pte_of (m : mem) (root va : Z) : Z := pte_from 2 m root va.

Section VmTable.
Context {LY : Layout} {LYok : LayoutOk}.

(** ** Invariant

    [T] gives the level of each page of the tree: the root has level 2, a
    valid entry of a table of level 1 or 2 points to a table of the level
    below and carries no permissions, every table but the root has exactly
    one such entry pointing to it, and the upper half of the root, which no
    address below [MAXVA] uses, is empty. *)
Definition rwx : Z := Z.lor (Z.lor PTE_R PTE_W) PTE_X.

Record pt_wf (m : mem) (root : Z) (T : gmap Z nat) : Prop := {
  wf_root : T !! root = Some 2%nat;
  wf_page : forall t L, T !! t = Some L -> valid_page t;
  wf_level : forall t L, T !! t = Some L -> (L <= 2)%nat;
  wf_child : forall t L i, T !! t = Some (S L) -> 0 <= i < 512 ->
    pte_valid (ld64 m (t + 8 * i)) = true -> T !! PTE2PA (ld64 m (t + 8 * i)) = Some L;
  wf_inj : forall t t' L L' i i', T !! t = Some (S L) -> T !! t' = Some (S L') ->
    0 <= i < 512 -> 0 <= i' < 512 ->
    pte_valid (ld64 m (t + 8 * i)) = true -> pte_valid (ld64 m (t' + 8 * i')) = true ->
    PTE2PA (ld64 m (t + 8 * i)) = PTE2PA (ld64 m (t' + 8 * i')) -> t = t' /\ i = i';
  wf_perm : forall t L i, T !! t = Some (S L) -> 0 <= i < 512 ->
    pte_valid (ld64 m (t + 8 * i)) = true -> Z.land (ld64 m (t + 8 * i)) rwx = 0;
  wf_parent : forall t L, T !! t = Some L -> t = root \/ exists t' i,
    T !! t' = Some (S L) /\ 0 <= i < 512 /\ pte_valid (ld64 m (t' + 8 * i)) = true /\
    PTE2PA (ld64 m (t' + 8 * i)) = t;
  wf_high : forall i, 256 <= i < 512 -> pte_valid (ld64 m (root + 8 * i)) = false;
}.

(** The page table at [root], with tables [T], and the free pages [l]. *)
Record vm_inv (s : mm) (root : Z) (T : gmap Z nat) (l : list Z) : Prop := {
  vi_ok : mm_ok s;
  vi_kmem : kmem_inv s l;
  vi_wf : pt_wf (m_mem s) root T;
  vi_disj : forall p, p ∈ l -> T !! p = None;
}.

(** A byte is private to the page tables or the allocator. *)
Definition in_pages (b : Z) (P : Z -> Prop) : Prop := exists p, P p /\ p <= b < p + 4096.

(** ** Entries and pages *)

Lemma entry_disjoint t t' i i' :
  valid_page t -> valid_page t' -> 0 <= i < 512 -> 0 <= i' < 512 ->
  t <> t' \/ i <> i' -> 8 <= Z.abs (t + 8 * i - (t' + 8 * i')).
Proof.
  intros Ht Ht' Hi Hi' Hne. destruct (decide (t = t')) as [<-|Hn]; [lia|].
  destruct (valid_page_disjoint t t'); [done..|lia|lia].
Qed.

Lemma ld64_page m m' t i :
  0 <= i < 512 -> (forall b, t <= b < t + 4096 -> rd m' b = rd m b) ->
  ld64 m' (t + 8 * i) = ld64 m (t + 8 * i).
Proof. intros Hi H. apply ld64_ext. intros j Hj. apply H. lia. Qed.

Lemma PX_S_range L va : 0 <= PX (Z.of_nat (S L)) va < 512.
Proof. apply PX_range. lia. Qed.
Lemma PX_0_range va : 0 <= PX 0 va < 512.
Proof. apply PX_range. lia. Qed.
#[local] Hint Resolve PX_S_range PX_0_range : core.

(** [walk_to] stays inside the tree. *)
Lemma walk_to_table m root T L t va t0 :
  pt_wf m root T -> T !! t = Some L -> walk_to L m t va = Some t0 -> T !! t0 = Some 0%nat.
Proof.
  intros Hwf. revert t. induction L as [|L IH]; intros t Ht; cbn; [by intros [= <-]|].
  destruct (pte_valid _) eqn:Hv; [|done]. apply IH. by eapply wf_child.
Qed.

(** Different pages have different level-0 entries. *)
Lemma walk_to_inj m root T L t t' va va' t0 :
  pt_wf m root T -> T !! t = Some L -> T !! t' = Some L ->
  walk_to L m t va = Some t0 -> walk_to L m t' va' = Some t0 ->
  t = t' /\ forall j, (1 <= j <= L)%nat -> PX (Z.of_nat j) va = PX (Z.of_nat j) va'.
Proof.
  intros Hwf. revert t t'. induction L as [|L IH]; intros t t' Ht Ht'; cbn [walk_to].
  { intros [= ->] [= ->]. split; [done|lia]. }
  destruct (pte_valid (ld64 m (t + _))) eqn:Hv; [|done].
  destruct (pte_valid (ld64 m (t' + _))) eqn:Hv'; [|done]. intros H1 H2.
  destruct (IH _ _ (wf_child _ _ _ Hwf _ _ _ Ht (PX_S_range _ _) Hv)
               (wf_child _ _ _ Hwf _ _ _ Ht' (PX_S_range _ _) Hv') H1 H2) as [Heq Hj].
  destruct (wf_inj _ _ _ Hwf _ _ _ _ _ _ Ht Ht' (PX_S_range _ _) (PX_S_range _ _) Hv Hv' Heq)
    as [-> Hi].
  split; [done|]. intros j Hjr. destruct (decide (j = S L)) as [->|]; [done|]. apply Hj. lia.
Qed.

Lemma walk_to_page_inj m root T va va' t0 :
  pt_wf m root T -> 0 <= va < MAXVA -> 0 <= va' < MAXVA ->
  walk_to 2 m root va = Some t0 -> walk_to 2 m root va' = Some t0 ->
  PX 0 va = PX 0 va' -> va / 4096 = va' / 4096.
Proof.
  intros Hwf Hva Hva' H1 H2 H0.
  destruct (walk_to_inj _ _ _ _ _ _ _ _ _ Hwf (wf_root _ _ _ Hwf) (wf_root _ _ _ Hwf) H1 H2)
    as [_ Hj].
  apply PX_inj; [done..| | |done]; [apply (Hj 2%nat)|apply (Hj 1%nat)]; lia.
Qed.

Lemma PX_page level va va' : 0 <= level -> va / 4096 = va' / 4096 -> PX level va = PX level va'.
Proof.
  intros Hl H. rewrite !PX_eq by done. rewrite !Z.pow_add_r by lia.
  rewrite <- !Z.div_div by lia. change (2 ^ 12) with 4096. by rewrite H.
Qed.

Lemma walk_to_same_page L m pt va va' :
  va / 4096 = va' / 4096 -> walk_to L m pt va = walk_to L m pt va'.
Proof.
  intros H. revert pt. induction L as [|L IH]; intros pt; cbn [walk_to]; [done|].
  rewrite (PX_page _ va va') by (lia || done). by rewrite IH.
Qed.

(** A change of memory that keeps the pages of the tree keeps the map. *)
Lemma walk_to_ext m m' root T L t va :
  pt_wf m root T -> T !! t = Some L ->
  (forall t L b, T !! t = Some L -> t <= b < t + 4096 -> rd m' b = rd m b) ->
  walk_to L m' t va = walk_to L m t va.
Proof.
  intros Hwf Ht Hm. revert t Ht. induction L as [|L IH]; intros t Ht; cbn [walk_to]; [done|].
  rewrite (ld64_page m m') by eauto. destruct (pte_valid _) eqn:Hv; [|done].
  apply IH. by eapply wf_child.
Qed.

Lemma pte_of_ext m m' root T va :
  pt_wf m root T ->
  (forall t L b, T !! t = Some L -> t <= b < t + 4096 -> rd m' b = rd m b) ->
  pte_of m' root va = pte_of m root va.
Proof.
  intros Hwf Hm. unfold pte_of, pte_from.
  rewrite (walk_to_ext m m' root T) by eauto using wf_root.
  destruct (walk_to 2 m root va) as [t0|] eqn:E; [|done].
  rewrite (ld64_page m m'); [done|eauto|]. intros b. eapply Hm.
  eapply walk_to_table; eauto using wf_root.
Qed.

(** The invariant depends on the entries of the interior tables only. *)
Lemma pt_wf_entries m m' root T :
  pt_wf m root T ->
  (forall t L i, T !! t = Some (S L) -> 0 <= i < 512 ->
     ld64 m' (t + 8 * i) = ld64 m (t + 8 * i)) ->
  pt_wf m' root T.
Proof.
  intros [H1 H2 H2' H3 H4 H5 H6 H7] He. constructor; [done..| | | | |].
  - intros t L i Ht Hi. rewrite (He t L i) by done. eauto.
  - intros t t' L L' i i' Ht Ht' Hi Hi'. rewrite (He t L i), (He t' L' i') by done. eauto.
  - intros t L i Ht Hi. rewrite (He t L i) by done. eauto.
  - intros t L Ht. destruct (H6 t L Ht) as [?|(t' & i & Ht' & Hi & Hv)]; [by left|right].
    exists t', i. rewrite (He t' L i) by done. done.
  - intros i Hi. rewrite (He root 1%nat i) by (done || lia). auto.
Qed.

Lemma pt_wf_ext m m' root T :
  pt_wf m root T ->
  (forall t L b, T !! t = Some L -> t <= b < t + 4096 -> rd m' b = rd m b) ->
  pt_wf m' root T.
Proof.
  intros Hwf Hm. apply (pt_wf_entries m); [done|]. eauto using ld64_page.
Qed.

(** ** Adding a table *)

(** [m'] is [m] with the zeroed page [p] hung into entry [i] of table [t]. *)
Record hung (m m' : mem) (t i p : Z) : Prop := {
  hung_frame : forall b, ~ (p <= b < p + 4096) -> ~ (t + 8 * i <= b < t + 8 * i + 8) ->
    rd m' b = rd m b;
  hung_entry : ld64 m' (t + 8 * i) = Z.lor (PA2PTE p) PTE_V;
  hung_zero : forall j, 0 <= j < 512 -> ld64 m' (p + 8 * j) = 0;
}.

Lemma hung_store m m1 t i p :
  valid_page t -> valid_page p -> t <> p -> 0 <= i < 512 ->
  same_outside m m1 p 4096 ->
  hung m (st64 (memset m1 p 0 4096) (t + 8 * i) (Z.lor (PA2PTE p) PTE_V)) t i p.
Proof.
  intros Ht Hp Hne Hi Hm1. pose proof (valid_page_pos p Hp).
  destruct (valid_page_disjoint t p) as [Hd|Hd]; [done..| |]; constructor.
  1,4: intros b Hb1 Hb2; rewrite rd_st64_ne, rd_memset_out by lia; apply Hm1; lia.
  1,3: rewrite ld64_st64_eq; apply u64_small; pose proof (pte_range p PTE_V);
    change PTE_V with 1 in *; lia.
  all: intros j Hj; rewrite ld64_st64_ne by lia; apply ld64_memset_zero; lia.
Qed.

Lemma hung_other m m' root T t L i p t' L' j :
  pt_wf m root T -> T !! t = Some L -> valid_page p -> T !! p = None -> hung m m' t i p ->
  0 <= i < 512 -> T !! t' = Some L' -> 0 <= j < 512 -> t' <> t \/ j <> i ->
  ld64 m' (t' + 8 * j) = ld64 m (t' + 8 * j).
Proof.
  intros Hwf Ht Hp HTp Hh Hi Ht' Hj Hne. pose proof (wf_page _ _ _ Hwf _ _ Ht).
  pose proof (wf_page _ _ _ Hwf _ _ Ht').
  apply ld64_ext. intros k Hk. apply (hung_frame _ _ _ _ _ Hh).
  - destruct (valid_page_disjoint t' p); [done..|congruence|lia|lia].
  - pose proof (entry_disjoint t' t j i ltac:(done) ltac:(done) Hj Hi Hne). lia.
Qed.

Lemma hung_valid p :
  valid_page p ->
  pte_valid (Z.lor (PA2PTE p) PTE_V) = true /\ PTE2PA (Z.lor (PA2PTE p) PTE_V) = p.
Proof.
  intros Hp. pose proof (valid_page_pos p Hp). destruct Hp as [Ha _].
  change PTE_V with 1. unfold pte_valid. change PTE_V with 1.
  rewrite pte_land by lia. rewrite PTE2PA_PA2PTE by lia. done.
Qed.

Lemma hung_wf m m' root T t L i p :
  pt_wf m root T -> T !! t = Some (S L) -> 0 <= i < 512 ->
  pte_valid (ld64 m (t + 8 * i)) = false -> valid_page p -> T !! p = None ->
  hung m m' t i p -> (t = root -> i < 256) -> pt_wf m' root (<[p := L]> T).
Proof.
  intros Hwf Ht Hi Hinv Hp HTp Hh Hhigh.
  destruct (hung_valid p Hp) as [Hv Hpa].
  assert (Hold : forall t' L' j, (<[p := L]> T) !! t' = Some (S L') -> 0 <= j < 512 ->
    pte_valid (ld64 m' (t' + 8 * j)) = true ->
    (t' = t /\ j = i /\ PTE2PA (ld64 m' (t' + 8 * j)) = p) \/
    (T !! t' = Some (S L') /\ pte_valid (ld64 m (t' + 8 * j)) = true /\
     ld64 m' (t' + 8 * j) = ld64 m (t' + 8 * j) /\ T !! PTE2PA (ld64 m' (t' + 8 * j)) = Some L')).
  { intros t' L' j. rewrite lookup_insert. case_decide as Hpt; intros Ht' Hj Hvj.
    - subst t'. by rewrite (hung_zero _ _ _ _ _ Hh) in Hvj by done.
    - destruct (decide (t' = t /\ j = i)) as [[-> ->]|Hne].
      + left. by rewrite (hung_entry _ _ _ _ _ Hh).
      + rewrite (hung_other m m' root T t (S L) i p t' (S L') j) in * by (done || lia).
        right. split_and!; [done..|]. by eapply wf_child. }
  constructor.
  - rewrite lookup_insert_ne; [apply (wf_root _ _ _ Hwf)|].
    intros ->. by rewrite (wf_root _ _ _ Hwf) in HTp.
  - intros t' L'. rewrite lookup_insert. case_decide; [by intros _; subst|apply (wf_page _ _ _ Hwf)].
  - intros t' L'. rewrite lookup_insert. case_decide; [|apply (wf_level _ _ _ Hwf)].
    intros [= <-]. pose proof (wf_level _ _ _ Hwf _ _ Ht). lia.
  - intros t' L' j Ht' Hj Hvj.
    destruct (Hold _ _ _ Ht' Hj Hvj) as [(-> & -> & ->)|(_ & _ & _ & Hc)].
    + rewrite lookup_insert_ne in Ht' by congruence. rewrite lookup_insert_eq. congruence.
    + rewrite lookup_insert_ne; [done|]. congruence.
  - intros t1 t2 L1 L2 j1 j2 Ht1 Ht2 Hj1 Hj2 Hv1 Hv2 Heq.
    destruct (Hold _ _ _ Ht1 Hj1 Hv1) as [(-> & -> & E1)|(HT1 & Hv1' & E1 & Hc1)],
      (Hold _ _ _ Ht2 Hj2 Hv2) as [(-> & -> & E2)|(HT2 & Hv2' & E2 & Hc2)]; [done|congruence..|].
    rewrite E1, E2 in Heq. eapply (wf_inj _ _ _ Hwf); done.
  - intros t' L' j Ht' Hj Hvj. destruct (Hold _ _ _ Ht' Hj Hvj) as [(-> & -> & _)|(? & ? & -> & _)].
    + rewrite (hung_entry _ _ _ _ _ Hh). pose proof (valid_page_pos p Hp).
      rewrite pte_land by (done || lia). done.
    + by eapply wf_perm.
  - intros t' L'. rewrite lookup_insert. case_decide as Hpt; intros Ht'.
    + subst t'. injection Ht' as <-. right. exists t, i. rewrite (hung_entry _ _ _ _ _ Hh).
      rewrite lookup_insert_ne by congruence. done.
    + destruct (wf_parent _ _ _ Hwf t' L' Ht') as [?|(t1 & j & Ht1 & Hj & Hvj & Hpa1)]; [by left|].
      right. exists t1, j. rewrite lookup_insert_ne by congruence.
      rewrite (hung_other m m' root T t (S L) i p t1 (S L') j); try done.
      destruct (decide (t1 = t /\ j = i)) as [[-> ->]|]; [congruence|lia].
  - intros j Hj. rewrite (hung_other m m' root T t (S L) i p root 2 j);
      [by eapply wf_high|done..|by eapply wf_root|lia|].
    destruct (decide (t = root)) as [E|]; [|by left]. right. specialize (Hhigh E). lia.
Qed.

(** The new table is empty, so the map does not change. *)
Lemma pte_from_zero L m p va :
  (forall j, 0 <= j < 512 -> ld64 m (p + 8 * j) = 0) -> pte_from L m p va = 0.
Proof.
  intros H. unfold pte_from. destruct L as [|L]; cbn [walk_to].
  - by rewrite H.
  - by rewrite H.
Qed.

Lemma hung_pte_from m m' root T t L i p L0 t0 va :
  pt_wf m root T -> T !! t = Some (S L) -> 0 <= i < 512 ->
  pte_valid (ld64 m (t + 8 * i)) = false -> valid_page p -> T !! p = None ->
  hung m m' t i p -> T !! t0 = Some L0 ->
  pte_from L0 m' t0 va = pte_from L0 m t0 va.
Proof.
  intros Hwf Ht Hi Hinv Hp HTp Hh. destruct (hung_valid p Hp) as [Hv Hpa].
  revert t0. induction L0 as [|L0 IH]; intros t0 Ht0.
  - unfold pte_from; cbn [walk_to].
    rewrite (hung_other m m' root T t (S L) i p t0 0 (PX 0 va) Hwf Ht Hp HTp Hh Hi Ht0
      (PX_0_range _)); [done|]. left. congruence.
  - destruct (decide (t0 = t /\ PX (Z.of_nat (S L0)) va = i)) as [[-> Hi']|Hne].
    + unfold pte_from at 2. cbn [walk_to]. rewrite Hi', Hinv.
      unfold pte_from. cbn [walk_to]. rewrite Hi', (hung_entry _ _ _ _ _ Hh), Hv, Hpa.
      apply (pte_from_zero L0 m' p va), (hung_zero _ _ _ _ _ Hh).
    + pose proof (hung_other m m' root T t (S L) i p t0 (S L0) (PX (Z.of_nat (S L0)) va)
        Hwf Ht Hp HTp Hh Hi Ht0 (PX_S_range _ _) ltac:(lia)) as E.
      unfold pte_from; cbn [walk_to]. rewrite E.
      destruct (pte_valid (ld64 m (t0 + 8 * PX (Z.of_nat (S L0)) va))) eqn:Hvv; [|done].
      apply IH. by eapply wf_child.
Qed.

(** ** walk *)

Lemma walk_loop_noalloc L t va s :
  walk_loop L t va false s =
  Ok (match walk_to L (m_mem s) t va with Some t0 => t0 + 8 * PX 0 va | None => 0 end) s.
Proof.
  revert t. induction L as [|L IH]; intros t; cbn [walk_loop walk_to]; [done|].
  unfold load64. autorewrite with mdb. cbv beta. fold (pte_valid (ld64 (m_mem s)
    (t + 8 * PX (Z.of_nat (S L)) va))). destruct (pte_valid _); [apply IH|done].
Qed.

(** How the state changes when tables are added: free pages become tables of
    the tree, valid entries that point to tables stay, and no byte outside
    the tables and the free pages changes. *)
Record vm_grow (s s' : mm) (T T' : gmap Z nat) (l l' : list Z) : Prop := {
  vg_sub : T ⊆ T';
  vg_new : forall p, is_Some (T' !! p) -> T !! p = None -> p ∈ l;
  vg_free : forall p, p ∈ l' <-> p ∈ l /\ T' !! p = None;
  vg_frame : forall b, ~ in_pages b (fun p => p ∈ l \/ is_Some (T !! p)) ->
    rd (m_mem s') b = rd (m_mem s) b;
  vg_entry : forall t L i, T !! t = Some (S L) -> 0 <= i < 512 ->
    pte_valid (ld64 (m_mem s) (t + 8 * i)) = true ->
    ld64 (m_mem s') (t + 8 * i) = ld64 (m_mem s) (t + 8 * i);
}.

Lemma vm_grow_refl s s' T l :
  m_mem s' = m_mem s -> (forall p, p ∈ l -> T !! p = None) -> vm_grow s s' T T l l.
Proof.
  intros E H. constructor; rewrite ?E; try done.
  - intros p [? ?]. congruence.
  - intros p. split; [eauto|tauto].
Qed.

Lemma vm_grow_trans s1 s2 s3 T1 T2 T3 l1 l2 l3 :
  vm_grow s1 s2 T1 T2 l1 l2 -> vm_grow s2 s3 T2 T3 l2 l3 ->
  vm_grow s1 s3 T1 T3 l1 l3.
Proof.
  intros [A1 A2 A3 A4 A6] [B1 B2 B3 B4 B6]. constructor.
  - by transitivity T2.
  - intros p Hp3 Hp1. destruct (T2 !! p) eqn:E; [eauto|]. apply A3. eauto.
  - intros p. rewrite B3, A3. split; [tauto|]. intros [? H3]. split_and!; [done| |done].
    destruct (T2 !! p) as [x|] eqn:E; [|done].
    by rewrite (lookup_weaken _ _ _ _ E B1) in H3.
  - intros b Hb. rewrite B4, A4; [done|done|]. intros (p & Hp & Hr). apply Hb.
    exists p. split; [|done]. destruct Hp as [Hp|[x Hp]]; [left; by apply A3|].
    destruct (T1 !! p) eqn:E; [right; eauto|left; eauto].
  - intros t L i Ht Hi Hv. rewrite <- (A6 t L i) by done. apply (B6 t L); [|done|].
    + by eapply lookup_weaken.
    + by rewrite (A6 t L i).
Qed.

(** Allocating and hanging in one table. *)
Lemma alloc_table_inv h m r root T l p t L i :
  vm_inv (mkmm h m r) root T (p :: l) -> T !! t = Some (S L) -> 0 <= i < 512 ->
  pte_valid (ld64 m (t + 8 * i)) = false -> (t = root -> i < 256) ->
  let m' := st64 (memset (memset m p 5 4096) p 0 4096) (t + 8 * i) (Z.lor (PA2PTE p) PTE_V) in
  let s' := mkmm (settle h) m' (ld64 m p) in
  r = p /\ valid_page p /\ hung m m' t i p /\
  vm_inv s' root (<[p := L]> T) l /\
  vm_grow (mkmm h m r) s' T (<[p := L]> T) (p :: l) l /\
  (forall va, pte_of m' root va = pte_of m root va).
Proof.
  intros [Hok Hk Hwf Hd] Ht Hi Hinv Hhigh m' s'. cbn [m_mem] in Hwf.
  pose proof (kmem_inv_alloc _ _ _ _ _ Hk) as (-> & Hp & Hn & Hk').
  assert (HTp : T !! p = None) by (apply Hd; set_solver).
  assert (Htp : t <> p) by congruence. pose proof (wf_page _ _ _ Hwf _ _ Ht) as Hvt.
  assert (Hh : hung m m' t i p).
  { apply hung_store; [done..|]. intros b Hb. apply rd_memset_out. lia. }
  split_and!; [done..| | |].
  - constructor.
    + by eapply mm_ok_settle.
    + destruct Hk' as (Hf & Hnd & Hv). split_and!; [|done..]. cbn in *.
      eapply flist_ext; [|apply Hf]. intros q Hq. unfold m'.
      rewrite Forall_forall in Hv. specialize (Hv q Hq).
      assert (p <> q) by set_solver. assert (t <> q) by (intros ->; specialize (Hd q); set_solver).
      rewrite ld64_st64_ne, ld64_memset_out; [done| |].
      * destruct (valid_page_disjoint p q); [done..|lia|lia].
      * pose proof (entry_disjoint t q i 0 ltac:(done) ltac:(done) Hi). lia.
    + by eapply hung_wf.
    + intros q Hq. rewrite lookup_insert_ne by set_solver. apply Hd. set_solver.
  - constructor.
    + by apply insert_subseteq.
    + intros q. rewrite lookup_insert. case_decide; [set_solver|]. intros [? ?]. congruence.
    + intros q. rewrite lookup_insert, elem_of_cons. case_decide as Hpq.
      * subst q. split; [done|]. intros [_ ?]. done.
      * split; [|naive_solver]. intros Hq. split; [by right|]. apply Hd. set_solver.
    + intros b Hb. apply (hung_frame _ _ _ _ _ Hh); intros Hr; apply Hb.
      * exists p. split; [left; set_solver|done].
      * exists t. split; [eauto|lia].
    + intros t' L' j Ht' Hj Hvj. apply (hung_other m m' root T t (S L) i p t' (S L')); eauto.
      cbn [m_mem] in Hvj.
      destruct (decide (t' = t /\ j = i)) as [[-> ->]|]; [congruence|lia].
  - intros va. apply (hung_pte_from m m' root T t L i p); eauto using wf_root.
Qed.

(** An address below [MAXVA] uses the lower half of the root. *)
Lemma root_index s root T l t L va :
  vm_inv s root T l -> T !! t = Some (S L) -> 0 <= va < MAXVA ->
  t = root -> PX (Z.of_nat (S L)) va < 256.
Proof.
  intros Hs Ht Hva ->. rewrite (wf_root _ _ _ (vi_wf _ _ _ _ Hs)) in Ht. injection Ht as <-.
  rewrite PX_eq, MAXVA_val in * by lia. change (2 ^ (12 + 9 * Z.of_nat 2)) with 1073741824. divlia.
Qed.

Lemma walk_loop_alloc root va L t s T l :
  vm_inv s root T l -> T !! t = Some L -> 0 <= va < MAXVA ->
  exists a s' T' l', walk_loop L t va true s = Ok a s' /\
    vm_inv s' root T' l' /\ vm_grow s s' T T' l l' /\
    (forall x, pte_of (m_mem s') root x = pte_of (m_mem s) root x) /\
    ((a = 0 /\ l' = []) \/
     exists t0, walk_to L (m_mem s') t va = Some t0 /\ a = t0 + 8 * PX 0 va).
Proof.
  intros Hs Ht Hva. revert t s T l Hs Ht.
  induction L as [|L IH]; intros t s T l Hs Ht; cbn [walk_loop].
  { exists (t + 8 * PX 0 va), s, T, l.
    split_and!; [done..|by apply vm_grow_refl, Hs|done|]. right. by exists t. }
  unfold load64. autorewrite with mdb. cbv beta. cbn [negb].
  set (i := PX (Z.of_nat (S L)) va).
  fold (pte_valid (ld64 (m_mem s) (t + 8 * i))).
  destruct (pte_valid _) eqn:Hv.
  - destruct (IH (PTE2PA (ld64 (m_mem s) (t + 8 * i))) s T l Hs)
      as (a & s' & T' & l' & H1 & H2 & H3 & H5 & H4).
    { eapply (wf_child _ _ _ (vi_wf _ _ _ _ Hs)); [done|apply PX_S_range|done]. }
    exists a, s', T', l'. split_and!; [done..|]. destruct H4 as [?|(t0 & H4 & ->)]; [by left|].
    right. exists t0. split; [|done]. cbn [walk_to]. fold i.
    rewrite (vg_entry _ _ _ _ _ _ H3 t L i) by (done || apply PX_S_range). by rewrite Hv.
  - destruct s as [h m r]. cbn [m_mem] in Hv. destruct l as [|p l].
    + pose proof (vi_kmem _ _ _ _ Hs) as [Hr _]. cbn in Hr. subst r.
      rewrite (bind_ok _ _ _ _ _ (kalloc_none _ _ (vi_ok _ _ _ _ Hs))). cbn [Z.eqb].
      eexists 0, _, T, []. split_and!; [done| | |done|by left].
      * destruct Hs as [A1 A2 A3 A4]. constructor; [by eapply mm_ok_settle|done..].
      * apply vm_grow_refl; [done|]. by intros ? ?%not_elem_of_nil.
    + destruct (alloc_table_inv _ _ _ _ _ _ _ _ _ i Hs Ht (PX_S_range _ _) Hv
        (root_index _ _ _ _ _ _ _ Hs Ht Hva))
        as (-> & Hp & Hh & Hinv & Hg & Hmap).
      pose proof (valid_page_pos p Hp).
      rewrite (bind_ok _ _ _ _ _ (kalloc_some _ _ _ (vi_ok _ _ _ _ Hs) ltac:(lia))).
      destruct (Z.eqb_spec p 0); [lia|]. unfold store64, upd_mem. msimpl.
      destruct (IH p _ _ _ Hinv (lookup_insert_eq _ _ _)) as (a & s' & T' & l' & H1 & H2 & H3 & H5 & H4).
      exists a, s', T', l'. split_and!;
        [done..|by eapply vm_grow_trans|intros x; rewrite H5; apply Hmap|].
      destruct H4 as [?|(t0 & H4 & ->)]; [by left|]. right. exists t0. split; [|done].
      cbn [walk_to]. fold i. destruct (hung_valid p Hp) as [Hv1 Hv2].
      pose proof (hung_entry _ _ _ _ _ Hh) as He.
      rewrite (vg_entry _ _ _ _ _ _ H3 t L i); cbn [m_mem];
        [by rewrite He, Hv1, Hv2| |apply PX_S_range|by rewrite He].
      rewrite lookup_insert_ne; [done|]. intros ->.
      rewrite (vi_disj _ _ _ _ Hs t) in Ht by left. discriminate Ht.
Qed.

(** ** Storing a level-0 entry *)

Lemma leaf_entry_disjoint m root T t0 t L i j :
  pt_wf m root T -> T !! t0 = Some 0%nat -> T !! t = Some (S L) ->
  0 <= i < 512 -> 0 <= j < 512 -> 8 <= Z.abs (t0 + 8 * i - (t + 8 * j)).
Proof.
  intros Hwf H0 Ht Hi Hj. apply entry_disjoint; eauto using wf_page. left. congruence.
Qed.

Lemma leaf_walk_to m root T t0 i v L t va :
  pt_wf m root T -> T !! t0 = Some 0%nat -> 0 <= i < 512 -> T !! t = Some L ->
  walk_to L (st64 m (t0 + 8 * i) v) t va = walk_to L m t va.
Proof.
  intros Hwf H0 Hi. revert t. induction L as [|L IH]; intros t Ht; cbn [walk_to]; [done|].
  rewrite ld64_st64_ne by (eapply leaf_entry_disjoint; eauto).
  destruct (pte_valid _) eqn:Hv; [|done]. apply IH. by eapply wf_child.
Qed.

Lemma leaf_wf m root T t0 i v :
  pt_wf m root T -> T !! t0 = Some 0%nat -> 0 <= i < 512 ->
  pt_wf (st64 m (t0 + 8 * i) v) root T.
Proof.
  intros Hwf H0 Hi. apply (pt_wf_entries m); [done|].
  intros. apply ld64_st64_ne. eapply leaf_entry_disjoint; eauto.
Qed.

Lemma leaf_pte_of m root T va t0 v x :
  pt_wf m root T -> 0 <= va < MAXVA -> walk_to 2 m root va = Some t0 -> 0 <= v < 2 ^ 64 ->
  0 <= x < MAXVA ->
  pte_of (st64 m (t0 + 8 * PX 0 va) v) root x =
  if decide (x / 4096 = va / 4096) then (if pte_valid v then v else 0) else pte_of m root x.
Proof.
  intros Hwf Hva Hw Hv Hx. unfold pte_of, pte_from.
  pose proof (walk_to_table _ _ _ _ _ _ _ Hwf (wf_root _ _ _ Hwf) Hw) as H0.
  rewrite (leaf_walk_to m root T) by eauto using wf_root. case_decide as Hp.
  - rewrite (walk_to_same_page 2 m root x va), Hw by done.
    rewrite (PX_page 0 x va), ld64_st64_eq, u64_small by (lia || done). done.
  - destruct (walk_to 2 m root x) as [t1|] eqn:E; [|done].
    pose proof (walk_to_table _ _ _ _ _ _ _ Hwf (wf_root _ _ _ Hwf) E) as H1.
    rewrite ld64_st64_ne; [done|]. apply entry_disjoint; eauto using wf_page.
    destruct (decide (t0 = t1)) as [<-|]; [|by left]. right. intros Hi. apply Hp. symmetry.
    by eapply walk_to_page_inj.
Qed.

Lemma leaf_inv h m r root T l t0 i v :
  vm_inv (mkmm h m r) root T l -> T !! t0 = Some 0%nat -> 0 <= i < 512 ->
  vm_inv (mkmm h (st64 m (t0 + 8 * i) v) r) root T l /\
  vm_grow (mkmm h m r) (mkmm h (st64 m (t0 + 8 * i) v) r) T T l l.
Proof.
  intros [Hok (Hf & Hnd & Hvl) Hwf Hd] H0 Hi. cbn [m_mem freelist] in *.
  pose proof (wf_page _ _ _ Hwf _ _ H0) as Ht0. split; constructor; cbn [m_mem].
  - done.
  - split_and!; [|done..]. cbn [m_mem freelist]. eapply flist_ext; [|done].
    intros p Hp. rewrite ld64_st64_ne; [done|].
    rewrite Forall_forall in Hvl. specialize (Hvl p Hp). specialize (Hd p Hp).
    pose proof (entry_disjoint t0 p i 0 Ht0 Hvl Hi). assert (t0 <> p) by congruence. lia.
  - by apply leaf_wf.
  - done.
  - done.
  - intros p [? ?]. congruence.
  - intros p. split; [eauto|tauto].
  - intros b Hb. apply rd_st64_ne. destruct (decide (b < t0 + 8 * i)); [by left|right].
    destruct (decide (t0 + 8 * i + 8 <= b)); [done|]. exfalso. apply Hb.
    exists t0. split; [eauto|lia].
  - intros t L j Ht Hj _. apply ld64_st64_ne. eapply leaf_entry_disjoint; eauto.
Qed.

(** ** Entries through [walk] *)

Lemma walk_noalloc root va s :
  0 <= va < MAXVA ->
  walk root va false s =
  Ok (match walk_to 2 (m_mem s) root va with Some t0 => t0 + 8 * PX 0 va | None => 0 end) s.
Proof.
  intros Hva. unfold walk. destruct (Z.leb_spec MAXVA va); [lia|]. apply walk_loop_noalloc.
Qed.

Lemma pte_address_pos T t0 va m root :
  pt_wf m root T -> T !! t0 = Some 0%nat -> t0 + 8 * PX 0 va <> 0.
Proof.
  intros Hwf H0. pose proof (valid_page_pos t0 (wf_page _ _ _ Hwf _ _ H0)).
  pose proof (PX_0_range va). lia.
Qed.

(** A mapped page: [walk] finds the entry. *)
Lemma pte_of_walk m root T va :
  pt_wf m root T -> pte_of m root va <> 0 ->
  exists t0, walk_to 2 m root va = Some t0 /\ T !! t0 = Some 0%nat /\
    ld64 m (t0 + 8 * PX 0 va) = pte_of m root va /\ pte_valid (pte_of m root va) = true.
Proof.
  intros Hwf. unfold pte_of, pte_from.
  destruct (walk_to 2 m root va) as [t0|] eqn:E; [|done].
  destruct (pte_valid (ld64 m (t0 + 8 * PX 0 va))) eqn:Hv; [|done]. intros _.
  exists t0. split_and!; [done| |done|done]. eapply walk_to_table; eauto using wf_root.
Qed.

(** What the callers of [walk] without allocation find. *)
Lemma walk_entry root va s T :
  pt_wf (m_mem s) root T -> 0 <= va < MAXVA ->
  exists e, walk root va false s = Ok e s /\
    ((e = 0 /\ pte_of (m_mem s) root va = 0) \/
     (e <> 0 /\ pte_of (m_mem s) root va =
        if pte_valid (ld64 (m_mem s) e) then ld64 (m_mem s) e else 0)).
Proof.
  intros Hwf Hva. rewrite walk_noalloc by done. unfold pte_of, pte_from.
  destruct (walk_to 2 (m_mem s) root va) as [t0|] eqn:E; [|eauto].
  eexists. split; [done|]. right. split; [|done].
  eapply pte_address_pos; [done|]. eapply walk_to_table; eauto using wf_root.
Qed.

Lemma pte_of_same_page m root va va' :
  va / 4096 = va' / 4096 -> pte_of m root va = pte_of m root va'.
Proof.
  intros H. unfold pte_of, pte_from. rewrite (walk_to_same_page 2 m root va va') by done.
  by rewrite (PX_page 0 va va').
Qed.

(** A change outside the tables and the free pages keeps the invariant and
    the map. *)
Lemma vm_inv_ext h m m' r root T l :
  vm_inv (mkmm h m r) root T l ->
  (forall b, in_pages b (fun q => is_Some (T !! q) \/ q ∈ l) -> rd m' b = rd m b) ->
  vm_inv (mkmm h m' r) root T l /\ forall va, pte_of m' root va = pte_of m root va.
Proof.
  intros [Hok (Hf & Hnd & Hv) Hwf Hd] Hm. cbn [m_mem freelist] in *.
  assert (Ht : forall t L b, T !! t = Some L -> t <= b < t + 4096 -> rd m' b = rd m b).
  { intros t L b HL Hb. apply Hm. exists t. eauto. }
  split; [constructor|]; cbn [m_mem].
  - done.
  - split_and!; [|done..]. cbn. eapply flist_ext; [|done]. intros p Hp. apply ld64_ext.
    intros i Hi. apply Hm. exists p. split; [by right|lia].
  - by eapply pt_wf_ext.
  - done.
  - intros va. by eapply pte_of_ext.
Qed.

Lemma pte_of_zero_entry m root va t0 :
  walk_to 2 m root va = Some t0 -> pte_of m root va = 0 ->
  pte_valid (ld64 m (t0 + 8 * PX 0 va)) = false.
Proof.
  intros Hw. unfold pte_of, pte_from. rewrite Hw.
  destruct (pte_valid (ld64 _ _)) eqn:E; [|done]. intros Hz. rewrite Hz in E. done.
Qed.
End VmTable.

#[global] Opaque pte_of.
