(* ===== verification/VmMap.v ===== *)
(** * Mapping and unmapping pages

    The specifications of [mappages] and [uvmunmap] (src/xv6-os/kernel/vm.c)
    on a well-formed page table, in terms of the partial map [pte_of] from
    virtual pages to leaf entries. *)
From S2P Require Import Prelude CString Spinlock Layout Kalloc Vm VmTable.

Section VmMap.
Context {LY : Layout} {LYok : LayoutOk}.

(** The entry that maps the page of [x] in a run of pages from [va] to [pa]. *)
Definition run_pte (va pa perm x : Z) : Z :=
  Z.lor (Z.lor (PA2PTE (pa + (x / 4096 * 4096 - va))) perm) PTE_V.

Lemma run_pte_range va pa perm x n :
  0 <= pa -> pa + n * 4096 <= 2 ^ 56 -> 0 <= perm < 1024 -> va mod 4096 = 0 ->
  va <= x < va + n * 4096 ->
  0 <= run_pte va pa perm x < 2 ^ 64 /\ pte_valid (run_pte va pa perm x) = true.
Proof.
  intros Hpa Hn Hperm Ha Hx. unfold run_pte, pte_valid. rewrite <- Z.lor_assoc.
  assert (Hp : 0 <= Z.lor perm PTE_V < 1024).
  { apply (lor_range _ _ 10); change PTE_V with 1; change (2 ^ 10) with 1024; lia. }
  assert (0 <= pa + (x / 4096 * 4096 - va) < 2 ^ 56) by divlia.
  pose proof (pte_range _ _ H Hp). split; [lia|]. rewrite pte_land by (lia || done).
  change PTE_V with 1. rewrite Z.land_lor_distr_l. change (Z.land 1 1) with 1.
  destruct (Z.eqb_spec (Z.lor (Z.land perm 1) 1) 0) as [E|]; [|done].
  apply Z.lor_eq_0_iff in E as [_ E]. done.
Qed.

(** One round of [mappages]: the tables on the way are allocated and the
    entry of the unmapped page [a] is set. *)
Lemma map_one root a v s T l :
  vm_inv s root T l -> 0 <= a < MAXVA -> pte_of (m_mem s) root a = 0 ->
  0 <= v < 2 ^ 64 -> pte_valid v = true ->
  exists e s1 T' l', walk root a true s = Ok e s1 /\
    vm_inv s1 root T' l' /\ vm_grow s s1 T T' l l' /\
    (forall x, pte_of (m_mem s1) root x = pte_of (m_mem s) root x) /\
    ((e = 0 /\ l' = []) \/
     (e <> 0 /\ pte_valid (ld64 (m_mem s1) e) = false /\
      let s2 := set_mem (st64 (m_mem s1) e v) s1 in
      vm_inv s2 root T' l' /\ vm_grow s s2 T T' l l' /\
      forall x, 0 <= x < MAXVA -> pte_of (m_mem s2) root x =
        if decide (x / 4096 = a / 4096) then v else pte_of (m_mem s) root x)).
Proof.
  intros Hs Ha Hz Hv Hvv. unfold walk. destruct (Z.leb_spec MAXVA a); [lia|].
  destruct (walk_loop_alloc root a 2 root s T l Hs (wf_root _ _ _ (vi_wf _ _ _ _ Hs)) Ha)
    as (e & s1 & T' & l' & H1 & H2 & H3 & H4 & H5).
  exists e, s1, T', l'. split_and!; [done..|]. destruct H5 as [?|(t0 & Ht0 & ->)]; [by left|].
  right. pose proof (vi_wf _ _ _ _ H2) as Hwf.
  pose proof (walk_to_table _ _ _ _ _ _ _ Hwf (wf_root _ _ _ Hwf) Ht0) as H0.
  split; [by eapply pte_address_pos|]. split.
  { apply (pte_of_zero_entry _ root); [done|]. by rewrite H4. }
  destruct s1 as [h1 m1 r1]. cbn [m_mem] in *.
  destruct (leaf_inv h1 m1 r1 root T' l' t0 (PX 0 a) v H2 H0 (PX_0_range _)) as [HA HB].
  split_and!; [done|by eapply vm_grow_trans|]. intros x Hx. cbn.
  rewrite (leaf_pte_of m1 root T') by done. by rewrite Hvv, H4.
Qed.

(** The first [k] pages of the run are mapped, the others as before. *)
Definition mapped_run (m m' : mem) (root va pa perm : Z) (k : nat) : Prop :=
  forall x, 0 <= x < MAXVA -> pte_of m' root x =
    if decide (va <= x < va + Z.of_nat k * 4096) then run_pte va pa perm x
    else pte_of m root x.

Lemma mapped_run_S m m1 m2 root va pa perm k :
  mapped_run m m1 root va pa perm 1 ->
  mapped_run m1 m2 root (va + 4096) (pa + 4096) perm k ->
  mapped_run m m2 root va pa perm (S k).
Proof.
  intros H1 H2 x Hx. rewrite H2, H1 by done.
  replace (run_pte (va + 4096) (pa + 4096) perm x) with (run_pte va pa perm x)
    by (unfold run_pte; do 3 f_equal; lia).
  repeat case_decide; (done || lia).
Qed.

Lemma mappages_loop_step fuel root a last pa perm s T l :
  0 <= perm < 1024 -> a mod 4096 = 0 -> 0 <= a < MAXVA -> 0 <= pa -> pa + 4096 <= 2 ^ 56 ->
  vm_inv s root T l -> pte_of (m_mem s) root a = 0 ->
  (exists s1 T1, mappages_loop (S fuel) root a last pa perm s = Ok (-1) s1 /\
     vm_inv s1 root T1 [] /\ vm_grow s s1 T T1 l [] /\
     mapped_run (m_mem s) (m_mem s1) root a pa perm 0) \/
  (exists s1 T1 l1, mappages_loop (S fuel) root a last pa perm s =
     (if a =? last then mret' 0
      else mappages_loop fuel root (u64 (a + PGSIZE)) last (u64 (pa + PGSIZE)) perm) s1 /\
     vm_inv s1 root T1 l1 /\ vm_grow s s1 T T1 l l1 /\
     mapped_run (m_mem s) (m_mem s1) root a pa perm 1).
Proof.
  intros Hperm Hal Ha Hpa Hpe Hs Hz.
  destruct (run_pte_range a pa perm a 1) as [Hr1 Hr2]; [lia..|].
  destruct (map_one root a (run_pte a pa perm a) s T l Hs Ha Hz Hr1 Hr2)
    as (e & s1 & T1 & l1 & H1 & H2 & H3 & H4 & H5).
  cbn [mappages_loop]. rewrite (bind_ok _ _ _ _ _ H1).
  destruct H5 as [(-> & ->)|(He & Hinv & H6 & H7 & H8)].
  - left. exists s1, T1. split_and!; [done..|]. intros x Hx. case_decide; [lia|apply H4].
  - right. eexists _, T1, l1. split_and!; [|exact H6|exact H7|].
    + destruct (Z.eqb_spec e 0); [done|]. unfold load64, store64, upd_mem. msimpl.
      fold (pte_valid (ld64 (m_mem s1) e)). rewrite Hinv. autorewrite with mdb. do 4 f_equal.
      unfold run_pte. do 3 f_equal. divlia.
    + intros x Hx. rewrite H8 by done. destruct (decide (x / 4096 = a / 4096)) as [E|E].
      * rewrite decide_True by divlia. unfold run_pte. by rewrite E.
      * rewrite decide_False by divlia. done.
Qed.

Lemma mappages_loop_spec root perm n va pa s T l :
  0 <= perm < 1024 -> va mod 4096 = 0 -> 0 <= va ->
  va + Z.of_nat (S n) * 4096 <= MAXVA -> 0 <= pa -> pa + Z.of_nat (S n) * 4096 <= 2 ^ 56 ->
  vm_inv s root T l ->
  (forall x, va <= x < va + Z.of_nat (S n) * 4096 -> pte_of (m_mem s) root x = 0) ->
  exists r s' T' l' k,
    mappages_loop (S n) root va (va + Z.of_nat n * 4096) pa perm s = Ok r s' /\
    vm_inv s' root T' l' /\ vm_grow s s' T T' l l' /\
    mapped_run (m_mem s) (m_mem s') root va pa perm k /\
    ((r = 0 /\ k = S n) \/ (r = -1 /\ (k < S n)%nat /\ l' = [])).
Proof.
  intros Hperm. revert va pa s T l.
  induction n as [|n IH]; intros va pa s T l Hal Hva Hend Hpa Hpe Hs Hz.
  all: match goal with |- context [mappages_loop (S ?f) _ _ ?last] =>
    destruct (mappages_loop_step f root va last pa perm s T l)
      as [(s1 & T1 & H1 & H2 & H3 & H4)|(s1 & T1 & l1 & H1 & H2 & H3 & H4)];
      [lia|done|lia..|done|apply Hz; lia| |] end;
    [exists (-1), s1, T1, [], 0%nat; split_and!; [done..|right; split_and!; [done|lia|done]]|].
  - exists 0, s1, T1, l1, 1%nat. split_and!; [|done..|by left].
    rewrite H1. destruct (Z.eqb_spec va (va + Z.of_nat 0 * 4096)); [done|lia].
  - assert (MAXVA < 2 ^ 64) by done. rewrite H1, !u64_small by lia.
    destruct (Z.eqb_spec va (va + Z.of_nat (S n) * 4096)); [lia|].
    destruct (IH (va + 4096) (pa + 4096) s1 T1 l1) as (r & s' & T' & l' & k & E & HA & HB & HC & HD);
      [divlia|lia..|done| |].
    { intros x Hx. rewrite H4 by lia. case_decide; [lia|]. apply Hz. lia. }
    exists r, s', T', l', (S k). split_and!; [|done|by eapply vm_grow_trans| |].
    + replace (va + Z.of_nat (S n) * 4096) with (va + 4096 + Z.of_nat n * 4096) by lia. done.
    + by eapply mapped_run_S.
    + destruct HD as [[-> ->]|(-> & ? & ->)]; [by left|right; split_and!; [done|lia|done]].
Qed.

(** Mapping one page. *)
Lemma mappages_one root a pa perm s T l :
  vm_inv s root T l -> 0 <= perm < 1024 -> a mod 4096 = 0 -> 0 <= a -> a + 4096 <= MAXVA ->
  0 <= pa -> pa + 4096 <= 2 ^ 56 -> pte_of (m_mem s) root a = 0 ->
  exists r s' T' l', mappages root a PGSIZE pa perm s = Ok r s' /\
    vm_inv s' root T' l' /\ vm_grow s s' T T' l l' /\
    ((r = 0 /\ forall x, 0 <= x < MAXVA -> pte_of (m_mem s') root x =
       if decide (x / 4096 = a / 4096) then Z.lor (Z.lor (PA2PTE pa) perm) PTE_V
       else pte_of (m_mem s) root x) \/
     (r = -1 /\ l' = [] /\ forall x, 0 <= x < MAXVA ->
       pte_of (m_mem s') root x = pte_of (m_mem s) root x)).
Proof.
  intros Hs Hperm Hal Ha Hend Hpa Hpe Hz. unfold mappages. rewrite Hal.
  change (4096 mod 4096 =? 0) with true. change (4096 =? 0) with false.
  change (Z.to_nat (4096 / 4096)) with 1%nat. cbn [Z.eqb negb].
  assert (MAXVA < 2 ^ 64) by done. rewrite u64_small by lia.
  destruct (mappages_loop_step 0 root a (a + 4096 - 4096) pa perm s T l)
    as [(s1 & T1 & H1 & H2 & H3 & H4)|(s1 & T1 & l1 & H1 & H2 & H3 & H4)]; [done..|lia|done|lia|done|done| |].
  - exists (-1), s1, T1, []. split_and!; [done..|]. right. split_and!; [done..|].
    intros x Hx. rewrite H4, decide_False by lia. done.
  - exists 0, s1, T1, l1. rewrite H1. destruct (Z.eqb_spec a (a + 4096 - 4096)); [|lia].
    split_and!; [done..|]. left. split; [done|]. intros x Hx. rewrite H4 by done.
    destruct (decide (x / 4096 = a / 4096)) as [E|E].
    + rewrite decide_True by divlia. unfold run_pte. do 3 f_equal. divlia.
    + rewrite decide_False by divlia. done.
Qed.

(** A zeroed page is an empty page table. *)
Lemma pt_wf_empty m root :
  valid_page root -> (forall i, 0 <= i < 512 -> ld64 m (root + 8 * i) = 0) ->
  pt_wf m root {[root := 2%nat]} /\ forall va, pte_of m root va = 0.
Proof.
  intros Hr Hz. split; [constructor|].
  - apply lookup_singleton_eq.
  - intros t L Ht. by apply lookup_singleton_Some in Ht as [<- _].
  - intros t L Ht. by apply lookup_singleton_Some in Ht as [_ <-].
  - intros t L i Ht Hi. apply lookup_singleton_Some in Ht as [<- _]. by rewrite Hz.
  - intros t t' L L' i i' Ht _ Hi _. apply lookup_singleton_Some in Ht as [<- _]. by rewrite Hz.
  - intros t L i Ht Hi. apply lookup_singleton_Some in Ht as [<- _]. by rewrite Hz.
  - intros t L Ht. apply lookup_singleton_Some in Ht as [<- _]. by left.
  - intros i Hi. rewrite Hz by lia. done.
  - intros va. by apply (pte_from_zero 2).
Qed.

(** ** Unmapping *)

Definition page_of (m : mem) (root va : Z) : Z := PTE2PA (pte_of m root va).

(** The physical pages of [n] virtual pages from [va]. *)
Fixpoint run_pages (m : mem) (root va : Z) (n : nat) : list Z :=
  match n with
  | O => []
  | S n => page_of m root va :: run_pages m root (va + 4096) n
  end.

Lemma run_pages_ext m m' root va n :
  (forall x, va <= x < va + Z.of_nat n * 4096 -> pte_of m' root x = pte_of m root x) ->
  run_pages m' root va n = run_pages m root va n.
Proof.
  revert va. induction n as [|n IH]; intros va H; cbn [run_pages]; [done|]. f_equal.
  - unfold page_of. rewrite H by lia. done.
  - apply IH. intros x Hx. apply H. lia.
Qed.

(** The state after the page [p], which is not a table, is freed. *)
Lemma free_data_page h m r root T l p :
  vm_inv (mkmm h m r) root T l -> valid_page p -> T !! p = None -> p ∉ l ->
  let m' := st64 (memset m p 1 4096) p r in
  vm_inv (mkmm (settle h) m' p) root T (p :: l) /\
  same_outside m m' p 4096 /\ (forall va, pte_of m' root va = pte_of m root va) /\
  (forall va, walk_to 2 m' root va = walk_to 2 m root va).
Proof.
  intros [Hok Hk Hwf Hd] Hp HTp Hn m'. cbn [m_mem] in *.
  assert (Hout : same_outside m m' p 4096).
  { intros b Hb. unfold m'. rewrite rd_st64_ne, rd_memset_out by lia. done. }
  assert (Hm : forall t L b, T !! t = Some L -> t <= b < t + 4096 -> rd m' b = rd m b).
  { intros t L b Ht Hb. apply Hout. pose proof (wf_page _ _ _ Hwf _ _ Ht).
    destruct (valid_page_disjoint t p); [done..|congruence|lia|lia]. }
  split_and!; [|done| |].
  - constructor.
    + by eapply mm_ok_settle.
    + by apply kmem_inv_free.
    + by eapply pt_wf_ext.
    + intros q. rewrite elem_of_cons. intros [->|Hq]; eauto.
  - intros va. by eapply pte_of_ext.
  - intros va. eapply walk_to_ext; eauto using wf_root.
Qed.

(** What [uvmunmap] needs of a page it unmaps. *)
Definition unmappable (s : mm) (root : Z) (T : gmap Z nat) (l : list Z) (df : bool)
    (a : Z) : Prop :=
  let v := pte_of (m_mem s) root a in
  v <> 0 /\ PTE_FLAGS v <> PTE_V /\
  (df = true -> valid_page (PTE2PA v) /\ T !! PTE2PA v = None /\ PTE2PA v ∉ l).

Definition freed (df : bool) (ps : list Z) : list Z := if df then rev ps else [].

Lemma uvmunmap_loop_step fuel root a last df s T l :
  vm_inv s root T l -> 0 <= a < MAXVA -> a < last -> unmappable s root T l df a ->
  exists s1,
    uvmunmap_loop (S fuel) root a last df s =
      uvmunmap_loop fuel root (u64 (a + PGSIZE)) last df s1 /\
    vm_inv s1 root T (freed df [page_of (m_mem s) root a] ++ l) /\
    (forall x, 0 <= x < MAXVA -> pte_of (m_mem s1) root x =
      if decide (x / 4096 = a / 4096) then 0 else pte_of (m_mem s) root x) /\
    (forall b, ~ in_pages b (fun q => is_Some (T !! q) \/
        q ∈ freed df [page_of (m_mem s) root a]) -> rd (m_mem s1) b = rd (m_mem s) b).
Proof.
  intros Hs Ha Hlt (Hnz & Hfl & Hdf). pose proof (vi_wf _ _ _ _ Hs) as Hwf.
  destruct (pte_of_walk _ _ _ _ Hwf Hnz) as (t0 & Hw & H0 & Hld & Hv).
  cbn [uvmunmap_loop]. destruct (Z.ltb_spec a last); [|lia].
  rewrite (bind_ok _ _ _ _ _ (walk_noalloc root a s Ha)), Hw.
  set (e := t0 + 8 * PX 0 a) in *.
  destruct (Z.eqb_spec e 0) as [E|_]; [by eapply pte_address_pos in E|].
  unfold load64, store64, upd_mem. autorewrite with mdb. cbv beta. rewrite Hld.
  unfold pte_valid in Hv. destruct (Z.land _ PTE_V =? 0); [done|].
  destruct (Z.eqb_spec (PTE_FLAGS (pte_of (m_mem s) root a)) PTE_V); [done|].
  destruct s as [h m r]. cbn [m_mem] in *. destruct df; cbn [when freed].
  - destruct Hdf as (Hp & HTp & Hn); [done|]. set (p := PTE2PA _) in *.
    rewrite (bind_ok _ _ _ _ _ (kfree_valid h m r p (vi_ok _ _ _ _ Hs) Hp)).
    destruct (free_data_page h m r root T l p Hs Hp HTp Hn) as (Hs1 & Ho & Hpte & Hw1).
    set (m1 := st64 _ p r) in *. autorewrite with mdb. eexists. split; [done|].
    destruct (leaf_inv _ _ _ _ _ _ t0 (PX 0 a) 0 Hs1 H0 (PX_0_range _)) as [HA HB].
    cbn. split_and!; [exact HA| |].
    + intros x Hx. unfold e. rewrite (leaf_pte_of m1 root T a t0 0 x (vi_wf _ _ _ _ Hs1) Ha
        (eq_trans (Hw1 a) Hw)) by lia. rewrite Hpte. reflexivity.
    + intros b Hb. rewrite (rd_st64_ne m1).
      * apply Ho. unfold in_pages in Hb. destruct (decide (p <= b < p + 4096)); [|lia].
        exfalso. apply Hb. exists p. split; [right; by left|done].
      * destruct (decide (e <= b < e + 8)); [|lia]. exfalso. apply Hb. exists t0.
        split; [left; eauto|]. pose proof (PX_0_range a). lia.
  - autorewrite with mdb. eexists. split; [done|].
    destruct (leaf_inv _ _ _ _ _ _ t0 (PX 0 a) 0 Hs H0 (PX_0_range _)) as [HA HB].
    cbn. split_and!; [exact HA| |].
    + intros x Hx. unfold e. by rewrite (leaf_pte_of m root T).
    + intros b Hb. apply (rd_st64_ne m).
      destruct (decide (e <= b < e + 8)); [|lia]. exfalso. apply Hb. exists t0.
      split; [left; eauto|]. pose proof (PX_0_range a). lia.
Qed.

Lemma run_pages_elem m root va n k :
  0 <= k < Z.of_nat n -> page_of m root (va + k * 4096) ∈ run_pages m root va n.
Proof.
  revert va k. induction n as [|n IH]; intros va k Hk; cbn [run_pages]; [lia|].
  destruct (decide (k = 0)) as [->|]; [rewrite Z.mul_0_l, Z.add_0_r; by left|]. right.
  replace (va + k * 4096) with (va + 4096 + (k - 1) * 4096) by lia. apply IH. lia.
Qed.

Lemma freed_cons df p ps l : freed df (p :: ps) ++ l = freed df ps ++ (freed df [p] ++ l).
Proof. destruct df; cbn; [by rewrite <- app_assoc|done]. Qed.

Lemma freed_elem df p ps q : q ∈ freed df (p :: ps) <-> q ∈ freed df [p] \/ q ∈ freed df ps.
Proof.
  destruct df; cbn [freed]; rewrite ?list_elem_of_In, <- ?in_rev; cbn; [|tauto].
  split; [intros [?|?]; auto|intros [[?|[]]|?]; auto].
Qed.

Lemma uvmunmap_loop_spec root df n va s T l :
  va mod 4096 = 0 -> 0 <= va -> va + Z.of_nat n * 4096 <= MAXVA -> vm_inv s root T l ->
  (forall k, 0 <= k < Z.of_nat n -> unmappable s root T l df (va + k * 4096)) ->
  (df = true -> NoDup (run_pages (m_mem s) root va n)) ->
  exists s', uvmunmap_loop n root va (va + Z.of_nat n * 4096) df s = Ok tt s' /\
    vm_inv s' root T (freed df (run_pages (m_mem s) root va n) ++ l) /\
    (forall x, 0 <= x < MAXVA -> pte_of (m_mem s') root x =
      if decide (va <= x < va + Z.of_nat n * 4096) then 0 else pte_of (m_mem s) root x) /\
    (forall b, ~ in_pages b (fun q => is_Some (T !! q) \/
        q ∈ freed df (run_pages (m_mem s) root va n)) -> rd (m_mem s') b = rd (m_mem s) b).
Proof.
  revert va s l. induction n as [|n IH]; intros va s l Hal Hva Hend Hs Hun Hnd.
  { exists s. cbn [uvmunmap_loop]. destruct (Z.ltb_spec va (va + Z.of_nat 0 * 4096)); [lia|].
    split_and!; [done|by destruct df| |done]. intros x Hx. by rewrite decide_False by lia. }
  assert (MAXVA < 2 ^ 64) by done.
  destruct (uvmunmap_loop_step n root va (va + Z.of_nat (S n) * 4096) df s T l Hs)
    as (s1 & H1 & H2 & H3 & H4); [lia..|rewrite <- (Z.add_0_r va); apply (Hun 0); lia|].
  rewrite u64_small in H1 by lia.
  assert (Hsame : forall x, va + 4096 <= x < va + 4096 + Z.of_nat n * 4096 ->
    pte_of (m_mem s1) root x = pte_of (m_mem s) root x).
  { intros x Hx. rewrite H3 by lia. by rewrite decide_False by divlia. }
  assert (Hrest : run_pages (m_mem s1) root (va + 4096) n =
                  run_pages (m_mem s) root (va + 4096) n) by by apply run_pages_ext.
  destruct (IH (va + 4096) s1 _ ltac:(divlia) ltac:(lia) ltac:(lia) H2)
    as (s' & E & HA & HB & HC).
  - intros k Hk. destruct (Hun (k + 1)) as (U1 & U2 & U3); [lia|].
    replace (va + (k + 1) * 4096) with (va + 4096 + k * 4096) in * by lia.
    unfold unmappable. rewrite Hsame by lia. split_and!; [done..|].
    intros ->. destruct U3 as (U3 & U4 & U5); [done|]. split_and!; [done..|]. cbn.
    rewrite elem_of_cons. intros [Heq|?]; [|done]. specialize (Hnd eq_refl).
    cbn [run_pages] in Hnd. apply NoDup_cons in Hnd as [Hnd _]. apply Hnd.
    rewrite <- Heq. by apply (run_pages_elem (m_mem s) root (va + 4096) n k).
  - intros Hd. rewrite Hrest. specialize (Hnd Hd). cbn [run_pages] in Hnd.
    by apply NoDup_cons in Hnd as [_ Hnd].
  - rewrite Hrest in *. exists s'. cbn [run_pages]. split_and!.
    + rewrite H1, <- E. f_equal. lia.
    + by rewrite freed_cons.
    + intros x Hx. rewrite HB, H3 by done.
      repeat case_decide; (done || exfalso; divlia).
    + intros b Hb. rewrite HC, H4; [reflexivity|..]; intros (q & Hq & Hr); apply Hb; exists q;
        (split; [|exact Hr]); rewrite freed_elem; tauto.
Qed.

(** C18. On a well-formed page table whose pages [va, va+size) are unmapped,
    [mappages] maps them in order to the physical pages from [pa] with the
    given permissions: it returns 0 with the whole run mapped, or -1 with the
    free list exhausted and a strict prefix mapped. In both cases no other
    virtual page changes, the tables it adds come from the free list, and no
    byte outside the tables and the former free pages is written. *)
Theorem mappages_correct (root va size pa perm : Z) (s : mm) (T : gmap Z nat) (l : list Z)
    (Hs : vm_inv s root T l) (Hperm : 0 <= perm < 1024)
    (Hva : 0 <= va) (Hal : va mod 4096 = 0) (Hsz : 0 < size) (Hszal : size mod 4096 = 0)
    (Hend : va + size <= MAXVA) (Hpa : 0 <= pa) (Hpe : pa + size <= 2 ^ 56)
    (Hz : forall x, va <= x < va + size -> pte_of (m_mem s) root x = 0) :
  exists r s' T' l' k,
    mappages root va size pa perm s = Ok r s' /\
    vm_inv s' root T' l' /\ vm_grow s s' T T' l l' /\
    mapped_run (m_mem s) (m_mem s') root va pa perm k /\
    ((r = 0 /\ Z.of_nat k = size / 4096) \/ (r = -1 /\ Z.of_nat k < size / 4096 /\ l' = [])).
Proof.
  unfold mappages. rewrite Hal, Hszal. cbn [Z.eqb negb]. destruct (Z.eqb_spec size 0) as [|_]; [lia|].
  assert (MAXVA < 2 ^ 64) by done. rewrite u64_small by divlia.
  destruct (Z.to_nat (size / 4096)) as [|n] eqn:En; [divlia|].
  assert (size = Z.of_nat (S n) * 4096) by divlia.
  destruct (mappages_loop_spec root perm n va pa s T l) as (r & s' & T' & l' & k & E & HA & HB & HC & HD);
    [done..|lia|done|lia|done|intros; apply Hz; lia|].
  exists r, s', T', l', k. split_and!; [|done..|].
  - rewrite <- E. f_equal. lia.
  - destruct HD as [[-> ->]|(-> & ? & ->)]; [left|right; split_and!; [done| |done]]; divlia.
Qed.

(** C19. On a run of mapped leaf pages, [uvmunmap] removes exactly their
    entries; with [do_free] their physical pages go to the free list, in the
    order of the virtual addresses, and otherwise the free list stays; no byte
    outside the tables and the freed pages is written. *)
Theorem uvmunmap_correct (root va npages : Z) (df : bool) (s : mm) (T : gmap Z nat) (l : list Z)
    (Hs : vm_inv s root T l) (Hva : 0 <= va) (Hal : va mod 4096 = 0) (Hn : 0 <= npages)
    (Hend : va + npages * 4096 <= MAXVA)
    (Hun : forall k, 0 <= k < npages -> unmappable s root T l df (va + k * 4096))
    (Hnd : df = true -> NoDup (run_pages (m_mem s) root va (Z.to_nat npages))) :
  exists s', uvmunmap root va npages df s = Ok tt s' /\
    vm_inv s' root T (freed df (run_pages (m_mem s) root va (Z.to_nat npages)) ++ l) /\
    (forall x, 0 <= x < MAXVA -> pte_of (m_mem s') root x =
      if decide (va <= x < va + npages * 4096) then 0 else pte_of (m_mem s) root x) /\
    (forall b, ~ in_pages b (fun q => is_Some (T !! q) \/
        q ∈ freed df (run_pages (m_mem s) root va (Z.to_nat npages))) ->
      rd (m_mem s') b = rd (m_mem s) b).
Proof.
  unfold uvmunmap. rewrite Hal. cbn [Z.eqb negb]. assert (MAXVA < 2 ^ 64) by done.
  rewrite u64_small by lia. destruct (Z_of_nat_complete npages Hn) as [n ->].
  rewrite Nat2Z.id in *. by apply uvmunmap_loop_spec.
Qed.

End VmMap.

(** ** Examples: an empty page table and two free pages *)

#[local] Existing Instances kernel_layout kernel_layout_ok.

Definition vp (i : Z) : Z := KERNBASE + 0x100000 + 4096 * i.

Definition mm2 : mm := mkmm hart1 (st64 ∅ (vp 1) (vp 2)) (vp 1).

Lemma vp_valid i : 0 <= i < 100 -> valid_page (vp i).
Proof. unfold valid_page, vp, kend, kernel_layout, PHYSTOP, KERNBASE. intros. divlia. Qed.

Lemma mm2_empty i : 0 <= i < 512 -> ld64 (m_mem mm2) (vp 0 + 8 * i) = 0.
Proof.
  intros Hi. cbn. rewrite ld64_st64_ne; [apply ld64_empty|]. unfold vp, KERNBASE. lia.
Qed.

Lemma mm2_inv : vm_inv mm2 (vp 0) {[vp 0 := 2%nat]} [vp 1; vp 2].
Proof.
  constructor.
  - split; [apply hart1_ok|]. exists "kmem"%string. reflexivity.
  - split_and!; [vm_compute; split_and!; reflexivity| |].
    + apply (bool_decide_unpack _). reflexivity.
    + repeat constructor; apply vp_valid; lia.
  - apply (pt_wf_empty _ (vp 0)); [apply vp_valid; lia|apply mm2_empty].
  - intros p. rewrite !elem_of_cons. intros [->|[->|[]%not_elem_of_nil]]; reflexivity.
Qed.

Lemma mm2_unmapped va : pte_of (m_mem mm2) (vp 0) va = 0.
Proof. apply (pt_wf_empty _ (vp 0)); [apply vp_valid; lia|apply mm2_empty]. Qed.

Lemma mappages_correct_witness :
  exists s' T' l', mappages (vp 0) 8192 4096 (vp 3) 18 mm2 = Ok 0 s' /\
    vm_inv s' (vp 0) T' l' /\ mapped_run (m_mem mm2) (m_mem s') (vp 0) 8192 (vp 3) 18 1.
Proof.
  destruct (mappages_correct (vp 0) 8192 4096 (vp 3) 18 mm2 _ _ mm2_inv)
    as (r & s' & T' & l' & k & H1 & H2 & H3 & H4 & H5);
    [lia|lia|reflexivity|lia|reflexivity|vm_compute; discriminate..|intros; apply mm2_unmapped|].
  assert (r = 0) as ->.
  { apply (f_equal (fun x => match x with Ok r _ => r | _ => 7 end)) in H1.
    vm_compute in H1. symmetry. exact H1. }
  exists s', T', l'. split_and!; [exact H1|exact H2|].
  destruct H5 as [[_ H5]|[H5 _]]; [|discriminate].
  assert (k = 1%nat) as -> by (change (4096 / 4096) with 1 in H5; lia). exact H4.
Defined.

Lemma vp3_new : vp 3 ∉ [vp 1; vp 2].
Proof. apply (bool_decide_unpack _). reflexivity. Qed.

(** A state in which the page at 8192 is mapped to [vp 3], writable. *)
Lemma mm3_exists :
  exists s T l, vm_inv s (vp 0) T l /\
    (forall x, 0 <= x < MAXVA -> pte_of (m_mem s) (vp 0) x =
       if decide (8192 <= x < 8192 + 4096) then run_pte 8192 (vp 3) 22 x else 0) /\
    T !! vp 3 = None /\ vp 3 ∉ l.
Proof.
  destruct (mappages_loop_spec (vp 0) 22 0 8192 (vp 3) mm2 {[vp 0 := 2%nat]} [vp 1; vp 2]) as
    (r & s & T & l & k & H1 & H2 & H3 & H4 & H5);
    [lia|reflexivity|lia|vm_compute; discriminate..|apply mm2_inv|intros; apply mm2_unmapped|].
  assert (r = 0) as ->.
  { apply (f_equal (fun x => match x with Ok r _ => r | _ => 7 end)) in H1.
    vm_compute in H1. symmetry. exact H1. }
  destruct H5 as [[_ ->]|[H5 _]]; [|discriminate].
  exists s, T, l. split_and!; [exact H2| | |].
  - intros x Hx. rewrite (H4 x Hx), mm2_unmapped. reflexivity.
  - destruct (T !! vp 3) eqn:E; [|reflexivity]. exfalso.
    assert (vp 3 ∈ [vp 1; vp 2]) as H by (apply (vg_new _ _ _ _ _ _ H3); [by rewrite E|reflexivity]).
    revert H. apply vp3_new.
  - rewrite (vg_free _ _ _ _ _ _ H3). intros [H _]. revert H. apply vp3_new.
Qed.

Lemma uvmunmap_correct_witness :
  exists s T l s', vm_inv s (vp 0) T l /\ page_of (m_mem s) (vp 0) 8192 = vp 3 /\
    uvmunmap (vp 0) 8192 1 true s = Ok tt s' /\
    vm_inv s' (vp 0) T (vp 3 :: l) /\ pte_of (m_mem s') (vp 0) 8192 = 0.
Proof.
  destruct mm3_exists as (s & T & l & Hs & Hp0 & HT & Hl).
  assert (Hp : pte_of (m_mem s) (vp 0) 8192 = run_pte 8192 (vp 3) 22 8192)
    by (apply (Hp0 8192); vm_compute; split; congruence).
  assert (Hpg : page_of (m_mem s) (vp 0) 8192 = vp 3)
    by (unfold page_of; rewrite Hp; vm_compute; reflexivity).
  destruct (uvmunmap_correct (vp 0) 8192 1 true s T l Hs) as (s' & H1 & H2 & H3 & _);
    [lia|reflexivity|lia|vm_compute; discriminate| |intros; apply NoDup_singleton|].
  - intros k Hk. replace (8192 + k * 4096) with 8192 by lia. unfold unmappable.
    fold (page_of (m_mem s) (vp 0) 8192). rewrite Hpg, Hp.
    split_and!; [vm_compute; discriminate..|]. intros _.
    split_and!; [apply vp_valid; lia|exact HT|exact Hl].
  - exists s, T, l, s'. change (Z.to_nat 1) with 1%nat in H2. cbn [run_pages] in H2.
    rewrite Hpg in H2.
    split_and!; [exact Hs|exact Hpg|exact H1|exact H2|].
    rewrite H3; [reflexivity|vm_compute; split; congruence].
Defined.
