(* ===== verification/VmUser.v ===== *)
(** * User memory

    The specifications of [copyout], [copyin], [uvmalloc] and [uvmdealloc]
    (src/xv6-os/kernel/vm.c) on the address space of a process: the bytes of
    its pages, seen through the map [pte_of] of its page table. *)
From S2P Require Import Prelude CString Spinlock Layout Kalloc Vm VmTable VmMap.

Section VmUser.
Context {LY : Layout} {LYok : LayoutOk}.

(** ** The address space of a process *)

Definition has (v f : Z) : bool := negb (Z.land v f =? 0).

Definition user_pte (m : mem) (root va : Z) : bool := has (pte_of m root va) PTE_U.

(** The physical address of the user byte at [va]. *)
Definition user_addr (m : mem) (root va : Z) : Z := page_of m root va + va mod 4096.

(** The user's pages are managed pages, neither tables nor free, and no page
    is mapped twice. *)
Record user_wf (m : mem) (root : Z) (T : gmap Z nat) (l : list Z) : Prop := {
  uw_page : forall va, 0 <= va < MAXVA -> user_pte m root va = true ->
    valid_page (page_of m root va) /\ T !! page_of m root va = None /\ page_of m root va ∉ l;
  uw_inj : forall va va', 0 <= va < MAXVA -> 0 <= va' < MAXVA ->
    user_pte m root va = true -> user_pte m root va' = true ->
    page_of m root va = page_of m root va' -> va / 4096 = va' / 4096;
}.

(** [b] is a byte of one of the user's pages. *)
Definition user_byte (m : mem) (root b : Z) : Prop :=
  exists va, 0 <= va < MAXVA /\ user_pte m root va = true /\ user_addr m root va = b.

Lemma page_of_same_page m root va va' :
  va / 4096 = va' / 4096 -> page_of m root va = page_of m root va'.
Proof. intros H. unfold page_of. by rewrite (pte_of_same_page m root va va'). Qed.

Lemma user_pte_same_page m root va va' :
  va / 4096 = va' / 4096 -> user_pte m root va = user_pte m root va'.
Proof. intros H. unfold user_pte. by rewrite (pte_of_same_page m root va va'). Qed.

Lemma user_addr_inj m root T l va va' :
  user_wf m root T l -> 0 <= va < MAXVA -> 0 <= va' < MAXVA ->
  user_pte m root va = true -> user_pte m root va' = true ->
  user_addr m root va = user_addr m root va' -> va = va'.
Proof.
  intros Hw Hva Hva' Hu Hu' Heq. unfold user_addr in Heq.
  destruct (uw_page _ _ _ _ Hw va Hva Hu) as (Hp & _).
  destruct (uw_page _ _ _ _ Hw va' Hva' Hu') as (Hp' & _).
  assert (Hpp : page_of m root va = page_of m root va').
  { destruct (decide (page_of m root va = page_of m root va')); [done|].
    destruct (valid_page_disjoint _ _ Hp Hp'); [done|divlia..]. }
  pose proof (uw_inj _ _ _ _ Hw va va' Hva Hva' Hu Hu' Hpp). divlia.
Qed.

(** Writing user bytes keeps the tables and the free list. *)
Lemma user_write h m m' r root T l :
  vm_inv (mkmm h m r) root T l -> user_wf m root T l ->
  (forall b, ~ user_byte m root b -> rd m' b = rd m b) ->
  vm_inv (mkmm h m' r) root T l /\ user_wf m' root T l /\
  forall va, pte_of m' root va = pte_of m root va.
Proof.
  intros Hs Hw Hm. destruct (vm_inv_ext h m m' r root T l Hs) as [H1 H2].
  - intros b (q & Hq & Hb). apply Hm. intros (va & Hva & Hu & <-).
    destruct (uw_page _ _ _ _ Hw va Hva Hu) as (Hp & HT & Hl). unfold user_addr in Hb.
    assert (Hvq : valid_page q).
    { destruct Hq as [[L Hq]|Hq]; [by eapply wf_page; [apply (vi_wf _ _ _ _ Hs)|]|].
      destruct (vi_kmem _ _ _ _ Hs) as (_ & _ & Hf). by rewrite Forall_forall in Hf; apply Hf. }
    assert (page_of m root va <> q) as Hne.
    { intros <-. destruct Hq as [[L Hq]|Hq]; congruence. }
    destruct (valid_page_disjoint _ _ Hp Hvq Hne); divlia.
  - split_and!; [done| |done]. destruct Hw as [W1 W2].
    constructor; unfold user_pte, page_of in *; setoid_rewrite H2; done.
Qed.

(** ** copyout *)

(** The checks of [copyout] and [copyin] on the entry of a page. *)
Definition writable (m : mem) (root va : Z) : bool :=
  user_pte m root va && has (pte_of m root va) PTE_W.

Lemma has_zero f : has 0 f = false.
Proof. reflexivity. Qed.

Lemma valid_check v :
  ((Z.land v PTE_V =? 0) || (Z.land v PTE_U =? 0) || (Z.land v PTE_W =? 0)) =
  negb (has (if pte_valid v then v else 0) PTE_U && has (if pte_valid v then v else 0) PTE_W).
Proof.
  unfold pte_valid, has. destruct (Z.land v PTE_V =? 0); [done|]. cbn [negb].
  destruct (Z.land v PTE_U =? 0), (Z.land v PTE_W =? 0); done.
Qed.

Lemma PGROUNDDOWN_page a : PGROUNDDOWN a = a / 4096 * 4096.
Proof. rewrite PGROUNDDOWN_eq. divlia. Qed.

(** The bytes of a page that one round copies. *)
Definition chunk (va len : Z) : Z :=
  let n := 4096 - va mod 4096 in if len <? n then len else n.

Lemma chunk_range va len : 0 < len -> 0 < chunk va len <= len /\ va mod 4096 + chunk va len <= 4096.
Proof. unfold chunk. intros. destruct (Z.ltb_spec len (4096 - va mod 4096)); divlia. Qed.

Lemma chunk_page va len i : 0 <= i < chunk va len -> (va + i) / 4096 = va / 4096.
Proof. unfold chunk. destruct (Z.ltb_spec len (4096 - va mod 4096)); intros; divlia. Qed.

Lemma copyout_loop_step fuel root dstva src len s T :
  pt_wf (m_mem s) root T -> 0 <= dstva -> 0 < len ->
  copyout_loop (S fuel) root dstva src len s =
  if (dstva <? MAXVA) && writable (m_mem s) root dstva then
    let n := chunk dstva len in
    copyout_loop fuel root (dstva / 4096 * 4096 + 4096) (src + n) (len - n)
      (set_mem (memmove (m_mem s) (user_addr (m_mem s) root dstva) src n) s)
  else Ok (-1) s.
Proof.
  intros Hwf Hd Hl. cbn [copyout_loop]. destruct (Z.ltb_spec 0 len); [|lia].
  rewrite PGROUNDDOWN_page. set (va0 := dstva / 4096 * 4096).
  assert (Hoff : dstva - va0 = dstva mod 4096) by (unfold va0; divlia).
  assert (Hpg : va0 / 4096 = dstva / 4096) by (unfold va0; divlia).
  assert (Hlt : (MAXVA <=? va0) = negb (dstva <? MAXVA)).
  { unfold va0. rewrite MAXVA_val. destruct (Z.leb_spec 274877906944 (dstva / 4096 * 4096)),
      (Z.ltb_spec dstva 274877906944); cbn; (done || divlia). }
  rewrite Hlt. destruct (Z.ltb_spec dstva MAXVA); cbn [negb andb]; [|done].
  destruct (walk_entry root va0 s T Hwf) as (e & He & Hcase);
    [unfold va0; rewrite MAXVA_val in *; divlia|].
  rewrite (bind_ok _ _ _ _ _ He). unfold writable, user_pte, load64, upd_mem.
  rewrite (pte_of_same_page _ root dstva va0) by done.
  destruct Hcase as [[-> ->]|[Hne Hpte]]; [done|].
  destruct (Z.eqb_spec e 0); [done|]. autorewrite with mdb. cbv beta.
  rewrite valid_check, <- Hpte. destruct (has _ PTE_U && has _ PTE_W) eqn:Hacc; [|done].
  cbn [negb]. autorewrite with mdb. rewrite Hoff. fold (chunk dstva len).
  unfold user_addr, page_of. rewrite (pte_of_same_page _ root dstva va0) by done.
  rewrite Hpte. destruct (pte_valid _); [done|]. rewrite Hpte in Hacc. done.
Qed.

(** [m'] is [m] with the [k] bytes [f] stored at the user's [dstva]. *)
Record stored (m m' : mem) (root dstva : Z) (f : Z -> Z) (k : Z) : Prop := {
  co_acc : forall i, 0 <= i < k -> dstva + i < MAXVA /\ writable m root (dstva + i) = true;
  co_bytes : forall i, 0 <= i < k -> rd m' (user_addr m root (dstva + i)) = f i;
  co_frame : forall b, (forall i, 0 <= i < k -> b <> user_addr m root (dstva + i)) ->
    rd m' b = rd m b;
}.

(** [m'] is [m] with [k] bytes from [src] copied to the user's [dstva]. *)
Definition copied_out (m m' : mem) (root dstva src k : Z) : Prop :=
  stored m m' root dstva (fun i => rd m (src + i)) k.

Lemma writable_user m root va : writable m root va = true -> user_pte m root va = true.
Proof. unfold writable. by intros [? _]%andb_true_iff. Qed.

Lemma writable_same_page m root va va' :
  va / 4096 = va' / 4096 -> writable m root va = writable m root va'.
Proof.
  intros H. unfold writable. rewrite (user_pte_same_page m root va va') by done.
  by rewrite (pte_of_same_page m root va va').
Qed.

Lemma user_addr_chunk m root va len i :
  0 <= i < chunk va len -> user_addr m root (va + i) = user_addr m root va + i.
Proof.
  intros Hi. pose proof (chunk_page va len i Hi) as Hp. unfold user_addr.
  rewrite (page_of_same_page m root (va + i) va) by done. divlia.
Qed.

Section SameMap.
Context (m m' : mem) (root : Z) (Hpte : forall va, pte_of m' root va = pte_of m root va).

Lemma user_addr_ext va : user_addr m' root va = user_addr m root va.
Proof. unfold user_addr, page_of. by rewrite Hpte. Qed.
Lemma user_pte_ext va : user_pte m' root va = user_pte m root va.
Proof. unfold user_pte. by rewrite Hpte. Qed.
Lemma writable_ext va : writable m' root va = writable m root va.
Proof. unfold writable. by rewrite user_pte_ext, Hpte. Qed.
Lemma user_byte_ext b : user_byte m' root b <-> user_byte m root b.
Proof.
  unfold user_byte. split; intros (va & ? & Hu & Ha); exists va;
    rewrite user_pte_ext, user_addr_ext in *; done.
Qed.
End SameMap.

(** One round writes its bytes. *)
Lemma copied_out_chunk m root dstva src len :
  0 < len -> dstva < MAXVA -> writable m root dstva = true -> 0 <= dstva ->
  copied_out m (memmove m (user_addr m root dstva) src (chunk dstva len)) root dstva src
    (chunk dstva len).
Proof.
  intros Hl Hd Hw H0. pose proof (chunk_range dstva len Hl) as [Hc1 Hc2]. constructor.
  - intros i Hi. pose proof (chunk_page _ _ _ Hi). split; [rewrite MAXVA_val in *; divlia|].
    by rewrite (writable_same_page m root _ dstva).
  - intros i Hi. rewrite (user_addr_chunk _ _ _ len) by done.
    rewrite rd_memmove, decide_True by lia. f_equal. lia.
  - intros b Hb. rewrite rd_memmove by lia. case_decide as Hr; [|done]. exfalso.
    apply (Hb (b - user_addr m root dstva)); [lia|].
    rewrite (user_addr_chunk _ _ _ len) by lia. lia.
Qed.

Lemma stored_trans m m1 m2 root T l dstva dstva' f g n k :
  user_wf m root T l -> 0 <= dstva -> 0 <= n -> 0 <= k -> (0 < k -> dstva' = dstva + n) ->
  (forall va, pte_of m1 root va = pte_of m root va) ->
  (forall i, 0 <= i < k -> g i = f (n + i)) ->
  stored m m1 root dstva f n -> stored m1 m2 root dstva' g k ->
  stored m m2 root dstva f (n + k).
Proof.
  intros Hw H0 Hn Hk Hd Hpte Hfg [A1 A2 A3] [B1 B2 B3].
  assert (HB : forall i, n <= i < n + k -> dstva + i < MAXVA /\
    writable m root (dstva + i) = true /\ rd m2 (user_addr m root (dstva + i)) = f i).
  { intros i Hi. specialize (B1 (i - n) ltac:(lia)). specialize (B2 (i - n) ltac:(lia)).
    rewrite Hd in B1, B2 by lia. rewrite (user_addr_ext m m1) in B2 by done.
    rewrite (writable_ext m m1) in B1 by done.
    replace (dstva + n + (i - n)) with (dstva + i) in * by lia.
    rewrite Hfg in B2 by lia. replace (n + (i - n)) with i in B2 by lia. tauto. }
  assert (Hacc : forall i, 0 <= i < n + k -> dstva + i < MAXVA /\ writable m root (dstva + i) = true).
  { intros i Hi. destruct (decide (i < n)); [apply A1; lia|]. destruct (HB i) as (? & ? & _); [lia|done]. }
  constructor; [done|..].
  - intros i Hi. destruct (Hacc i Hi) as [Hi1 Hi2]. destruct (decide (i < n)).
    + rewrite B3; [apply A2; lia|]. intros j Hj. rewrite Hd by lia.
      rewrite (user_addr_ext m m1) by done. intros Heq.
      destruct (Hacc (n + j)) as [Hj1 Hj2]; [lia|]. rewrite Z.add_assoc in Hj1, Hj2.
      apply (user_addr_inj m root T l) in Heq; auto using writable_user; lia.
    + destruct (HB i) as (_ & _ & ?); [lia|done].
  - intros b Hb. rewrite B3, A3; [done| |].
    + intros i Hi. apply Hb. lia.
    + intros i Hi. rewrite Hd by lia. rewrite (user_addr_ext m m1) by done.
      replace (dstva + n + i) with (dstva + (n + i)) by lia. apply Hb. lia.
Qed.

(** The bytes of the kernel buffer stay while user memory is written. *)
Lemma stored_not_user m m1 root dstva f n b :
  0 <= dstva -> stored m m1 root dstva f n -> ~ user_byte m root b -> rd m1 b = rd m b.
Proof.
  intros H0 [A1 A2 A3] Hb. apply A3. intros j Hj ->. apply Hb. exists (dstva + j).
  destruct (A1 j Hj). split_and!; [lia|done|by apply writable_user|done].
Qed.

Lemma stored_inv h m m' r root T l dstva f k :
  vm_inv (mkmm h m r) root T l -> user_wf m root T l -> 0 <= dstva ->
  stored m m' root dstva f k ->
  vm_inv (mkmm h m' r) root T l /\ user_wf m' root T l /\
  forall va, pte_of m' root va = pte_of m root va.
Proof.
  intros Hs Hw Hd [A1 A2 A3]. apply (user_write h m m' r root T l Hs Hw). intros b Hb.
  apply A3. intros i Hi ->. apply Hb. exists (dstva + i). destruct (A1 i Hi).
  split_and!; [lia|done|by apply writable_user|done].
Qed.

Lemma copyout_loop_spec fuel root dstva src len h m r0 T l :
  vm_inv (mkmm h m r0) root T l -> user_wf m root T l -> 0 <= dstva ->
  0 <= len <= Z.of_nat fuel -> (forall i, 0 <= i < len -> ~ user_byte m root (src + i)) ->
  exists r k m', copyout_loop fuel root dstva src len (mkmm h m r0) = Ok r (mkmm h m' r0) /\
    0 <= k <= len /\ copied_out m m' root dstva src k /\
    ((r = 0 /\ k = len) \/
     (r = -1 /\ k < len /\ ~ (dstva + k < MAXVA /\ writable m root (dstva + k) = true))).
Proof.
  revert dstva src len m. induction fuel as [|fuel IH]; intros dstva src len m Hs Hw Hd Hl Hsrc;
    (destruct (decide (len = 0)) as [->|Hne];
      [exists 0, 0, m; split_and!; [done|lia..| |by left]; constructor; (lia || done)|]).
  { lia. }
  rewrite (copyout_loop_step _ _ _ _ _ _ T) by (apply (vi_wf _ _ _ _ Hs) || lia). cbn [m_mem].
  destruct (Z.ltb_spec dstva MAXVA); cbn [andb].
  2:{ exists (-1), 0, m. split_and!; [done|lia..|constructor; (lia || done)|].
      right. split_and!; [done|lia|lia]. }
  destruct (writable m root dstva) eqn:Hwr.
  2:{ exists (-1), 0, m. split_and!; [done|lia..|constructor; (lia || done)|].
      right. split_and!; [done|lia|]. rewrite Z.add_0_r. intros [_ ?]. congruence. }
  pose proof (chunk_range dstva len ltac:(lia)) as [Hc1 Hc2].
  pose proof (copied_out_chunk m root dstva src len ltac:(lia) ltac:(lia) Hwr Hd) as Hco.
  set (n := chunk dstva len) in *. set (m1 := memmove _ _ _ _) in *.
  destruct (stored_inv _ _ _ _ _ _ _ _ _ _ Hs Hw Hd Hco) as (Hs1 & Hw1 & Hpte).
  assert (Hnext : n < len -> dstva / 4096 * 4096 + 4096 = dstva + n).
  { unfold n, chunk. destruct (Z.ltb_spec len (4096 - dstva mod 4096)); intros; divlia. }
  cbv zeta. unfold set_mem; cbn [m_hart freelist].
  destruct (IH (dstva / 4096 * 4096 + 4096) (src + n) (len - n) m1 Hs1 Hw1)
    as (r & k & m' & H1 & H2 & H3 & H4); [divlia|lia| |].
  { intros i Hi. rewrite (user_byte_ext m m1) by done.
    replace (src + n + i) with (src + (n + i)) by lia. apply Hsrc. lia. }
  exists r, (n + k), m'. split_and!; [done|lia|lia| |].
  - eapply (stored_trans m m1 m' root T l); [done|done|lia|lia| |done| |exact Hco|exact H3].
    + intros Hk. apply Hnext. lia.
    + intros i Hi. cbn. rewrite <- Z.add_assoc.
      apply (stored_not_user _ _ _ _ _ _ _ Hd Hco), Hsrc. lia.
  - destruct H4 as [[-> ->]|(-> & Hk & Hf)]; [left; lia|]. right. split_and!; [done|lia|].
    rewrite Hnext in Hf by lia. rewrite (writable_ext m m1) in Hf by done.
    by replace (dstva + (n + k)) with (dstva + n + k) by lia.
Qed.

(** ** copyin *)

Lemma walkaddr_eq root va s T l :
  vm_inv s root T l -> 0 <= va ->
  walkaddr root va s =
  Ok (if (va <? MAXVA) && user_pte (m_mem s) root va then page_of (m_mem s) root va else 0) s.
Proof.
  intros Hs Hva. unfold walkaddr.
  destruct (Z.leb_spec MAXVA va), (Z.ltb_spec va MAXVA); cbn [andb]; [lia|done| |lia].
  destruct (walk_entry root va s T (vi_wf _ _ _ _ Hs)) as (e & He & Hcase); [lia|].
  rewrite (bind_ok _ _ _ _ _ He). unfold user_pte, page_of, load64.
  destruct Hcase as [[-> ->]|[Hne ->]]; [done|].
  destruct (Z.eqb_spec e 0); [done|]. autorewrite with mdb. cbv beta.
  unfold pte_valid, has. destruct (Z.land _ PTE_V =? 0); cbn [negb]; [done|].
  by destruct (Z.land _ PTE_U =? 0).
Qed.

(** The kernel buffer [dst, dst+len) is memory of its own. *)
Definition kernel_buf (m : mem) (root : Z) (T : gmap Z nat) (l : list Z) (dst len : Z) : Prop :=
  forall i, 0 <= i < len -> ~ user_byte m root (dst + i) /\
    ~ in_pages (dst + i) (fun q => is_Some (T !! q) \/ q ∈ l).

Record copied_in (m m' : mem) (root dst srcva k : Z) : Prop := {
  ci_acc : forall i, 0 <= i < k -> srcva + i < MAXVA /\ user_pte m root (srcva + i) = true;
  ci_bytes : forall i, 0 <= i < k -> rd m' (dst + i) = rd m (user_addr m root (srcva + i));
  ci_frame : same_outside m m' dst k;
}.

Lemma copyin_loop_step fuel root dst srcva len s T l :
  vm_inv s root T l -> user_wf (m_mem s) root T l -> 0 <= srcva -> 0 < len ->
  copyin_loop (S fuel) root dst srcva len s =
  if (srcva <? MAXVA) && user_pte (m_mem s) root srcva then
    let n := chunk srcva len in
    copyin_loop fuel root (dst + n) (srcva / 4096 * 4096 + 4096) (len - n)
      (set_mem (memmove (m_mem s) dst (user_addr (m_mem s) root srcva) n) s)
  else Ok (-1) s.
Proof.
  intros Hs Hw Hd Hl. cbn [copyin_loop]. destruct (Z.ltb_spec 0 len); [|lia].
  rewrite PGROUNDDOWN_page. set (va0 := srcva / 4096 * 4096).
  assert (Hoff : srcva - va0 = srcva mod 4096) by (unfold va0; divlia).
  assert (Hpg : va0 / 4096 = srcva / 4096) by (unfold va0; divlia).
  rewrite (bind_ok _ _ _ _ _ (walkaddr_eq root va0 s T l Hs ltac:(unfold va0; divlia))).
  assert (Hlt : (va0 <? MAXVA) = (srcva <? MAXVA)).
  { unfold va0. rewrite MAXVA_val. destruct (Z.ltb_spec (srcva / 4096 * 4096) 274877906944),
      (Z.ltb_spec srcva 274877906944); (done || divlia). }
  rewrite Hlt, (user_pte_same_page _ root va0 srcva), (page_of_same_page _ root va0 srcva) by done.
  destruct (Z.ltb_spec srcva MAXVA); cbn [andb]; [|done].
  destruct (user_pte (m_mem s) root srcva) eqn:Hu; [|done].
  destruct (uw_page _ _ _ _ Hw srcva) as (Hp & _); [lia|done|].
  pose proof (valid_page_pos _ Hp).
  destruct (Z.eqb_spec (page_of (m_mem s) root srcva) 0); [lia|].
  unfold upd_mem. autorewrite with mdb. rewrite Hoff. done.
Qed.

Lemma copied_in_chunk m root dst srcva len :
  0 < len -> srcva < MAXVA -> user_pte m root srcva = true -> 0 <= srcva ->
  copied_in m (memmove m dst (user_addr m root srcva) (chunk srcva len)) root dst srcva
    (chunk srcva len).
Proof.
  intros Hl Hd Hw H0. pose proof (chunk_range srcva len Hl) as [Hc1 Hc2]. constructor.
  - intros i Hi. pose proof (chunk_page _ _ _ Hi). split; [rewrite MAXVA_val in *; divlia|].
    by rewrite (user_pte_same_page m root _ srcva).
  - intros i Hi. rewrite (user_addr_chunk _ _ _ len) by done.
    rewrite rd_memmove, decide_True by lia. f_equal. lia.
  - intros b Hb. rewrite rd_memmove, decide_False by lia. done.
Qed.

Lemma copied_in_trans m m1 m2 root dst srcva srcva' n k :
  0 <= srcva -> 0 <= n -> 0 <= k -> (0 < k -> srcva' = srcva + n) ->
  (forall va, pte_of m1 root va = pte_of m root va) ->
  (forall i, 0 <= i < n + k -> ~ user_byte m root (dst + i)) ->
  copied_in m m1 root dst srcva n -> copied_in m1 m2 root (dst + n) srcva' k ->
  copied_in m m2 root dst srcva (n + k).
Proof.
  intros H0 Hn Hk Hd Hpte Hdst [A1 A2 A3] [B1 B2 B3].
  assert (HB : forall i, n <= i < n + k -> srcva + i < MAXVA /\
    user_pte m root (srcva + i) = true /\
    rd m2 (dst + i) = rd m1 (user_addr m root (srcva + i))).
  { intros i Hi. specialize (B1 (i - n) ltac:(lia)). specialize (B2 (i - n) ltac:(lia)).
    rewrite Hd in B1, B2 by lia. rewrite (user_addr_ext m m1) in B2 by done.
    rewrite (user_pte_ext m m1) in B1 by done.
    replace (srcva + n + (i - n)) with (srcva + i) in * by lia.
    replace (dst + n + (i - n)) with (dst + i) in * by lia. tauto. }
  constructor.
  - intros i Hi. destruct (decide (i < n)); [apply A1; lia|].
    destruct (HB i) as (? & ? & _); [lia|done].
  - intros i Hi. destruct (decide (i < n)).
    + rewrite B3 by lia. apply A2. lia.
    + destruct (HB i) as (Hm & Hu & ->); [lia|]. apply A3.
      destruct (decide (dst <= user_addr m root (srcva + i) < dst + n)); [|lia]. exfalso.
      apply (Hdst (user_addr m root (srcva + i) - dst)); [lia|].
      exists (srcva + i). split_and!; [lia|done|done|lia].
  - intros b Hb. rewrite B3, A3 by lia. done.
Qed.

Lemma copied_in_inv h m m' r root T l dst srcva k len :
  vm_inv (mkmm h m r) root T l -> user_wf m root T l -> k <= len ->
  kernel_buf m root T l dst len -> copied_in m m' root dst srcva k ->
  vm_inv (mkmm h m' r) root T l /\ user_wf m' root T l /\
  forall va, pte_of m' root va = pte_of m root va.
Proof.
  intros Hs Hw Hk Hb [A1 A2 A3]. destruct (vm_inv_ext h m m' r root T l Hs) as [H1 H2].
  - intros b Hin. apply A3. destruct (decide (dst <= b < dst + k)); [|lia]. exfalso.
    destruct (Hb (b - dst)) as [_ Hnot]; [lia|]. apply Hnot.
    by replace (dst + (b - dst)) with b by lia.
  - split_and!; [done| |done]. destruct Hw as [W1 W2].
    constructor; unfold user_pte, page_of in *; setoid_rewrite H2; done.
Qed.

Lemma copyin_loop_spec fuel root dst srcva len h m r0 T l :
  vm_inv (mkmm h m r0) root T l -> user_wf m root T l -> 0 <= srcva ->
  0 <= len <= Z.of_nat fuel -> kernel_buf m root T l dst len ->
  exists r k m', copyin_loop fuel root dst srcva len (mkmm h m r0) = Ok r (mkmm h m' r0) /\
    0 <= k <= len /\ copied_in m m' root dst srcva k /\
    ((r = 0 /\ k = len) \/
     (r = -1 /\ k < len /\ ~ (srcva + k < MAXVA /\ user_pte m root (srcva + k) = true))).
Proof.
  revert dst srcva len m. induction fuel as [|fuel IH]; intros dst srcva len m Hs Hw Hd Hl Hbuf;
    (destruct (decide (len = 0)) as [->|Hne];
      [exists 0, 0, m; split_and!; [done|lia..| |by left]; constructor; (lia || done)|]).
  { lia. }
  rewrite (copyin_loop_step _ _ _ _ _ _ T l) by (done || lia). cbn [m_mem].
  destruct (Z.ltb_spec srcva MAXVA); cbn [andb].
  2:{ exists (-1), 0, m. split_and!; [done|lia..|constructor; (lia || done)|].
      right. split_and!; [done|lia|lia]. }
  destruct (user_pte m root srcva) eqn:Hu.
  2:{ exists (-1), 0, m. split_and!; [done|lia..|constructor; (lia || done)|].
      right. split_and!; [done|lia|]. rewrite Z.add_0_r. intros [_ ?]. congruence. }
  pose proof (chunk_range srcva len ltac:(lia)) as [Hc1 Hc2].
  pose proof (copied_in_chunk m root dst srcva len ltac:(lia) ltac:(lia) Hu Hd) as Hci.
  set (n := chunk srcva len) in *. set (m1 := memmove _ _ _ _) in *.
  destruct (copied_in_inv h m m1 r0 root T l dst srcva n len Hs Hw ltac:(lia) Hbuf Hci) as (Hs1 & Hw1 & Hpte).
  assert (Hnext : n < len -> srcva / 4096 * 4096 + 4096 = srcva + n).
  { unfold n, chunk. destruct (Z.ltb_spec len (4096 - srcva mod 4096)); intros; divlia. }
  cbv zeta. unfold set_mem; cbn [m_hart freelist].
  destruct (IH (dst + n) (srcva / 4096 * 4096 + 4096) (len - n) m1 Hs1 Hw1)
    as (r & k & m' & H1 & H2 & H3 & H4); [divlia|lia| |].
  { intros i Hi. rewrite (user_byte_ext m m1) by done.
    replace (dst + n + i) with (dst + (n + i)) by lia. apply Hbuf. lia. }
  exists r, (n + k), m'. split_and!; [done|lia|lia| |].
  - eapply (copied_in_trans m m1 m' root); [done|lia|lia| |done| |done|done].
    + intros Hk. apply Hnext. lia.
    + intros i Hi. apply Hbuf. lia.
  - destruct H4 as [[-> ->]|(-> & Hk & Hf)]; [left; lia|]. right. split_and!; [done|lia|].
    rewrite Hnext in Hf by lia. rewrite (user_pte_ext m m1) in Hf by done.
    by replace (srcva + (n + k)) with (srcva + n + k) by lia.
Qed.

(** C17. [copyout] never panics: it copies the bytes of the kernel buffer to
    the user's addresses up to the first byte whose page is not mapped
    writable for the user, returns 0 when it copied all [len] bytes and -1
    otherwise, writes no byte outside the user's writable pages, and keeps
    the page table and the free list. *)
Theorem copyout_correct (root dstva src len : Z) (s : mm) (T : gmap Z nat) (l : list Z)
    (Hs : vm_inv s root T l) (Hw : user_wf (m_mem s) root T l)
    (Hd : 0 <= dstva) (Hl : 0 <= len)
    (Hsrc : forall i, 0 <= i < len -> ~ user_byte (m_mem s) root (src + i)) :
  exists r k s', copyout root dstva src len s = Ok r s' /\
    0 <= k <= len /\ copied_out (m_mem s) (m_mem s') root dstva src k /\
    ((r = 0 /\ k = len) \/
     (r = -1 /\ k < len /\
      ~ (dstva + k < MAXVA /\ writable (m_mem s) root (dstva + k) = true))) /\
    vm_inv s' root T l /\ user_wf (m_mem s') root T l /\
    (forall va, pte_of (m_mem s') root va = pte_of (m_mem s) root va).
Proof.
  destruct s as [h m r0]. unfold copyout.
  destruct (copyout_loop_spec (Z.to_nat len) root dstva src len h m r0 T l)
    as (r & k & m' & H1 & H2 & H3 & H4); [done..|lia|done|].
  destruct (stored_inv _ _ _ _ _ _ _ _ _ _ Hs Hw Hd H3) as (Hs1 & Hw1 & Hpte).
  exists r, k, (mkmm h m' r0). split_and!; [done|lia|lia|done..].
Qed.

(** What [copyout] wrote to the user's memory [copyin] reads back: after
    a successful [copyout] of [len] bytes, [copyin] of the same user range
    succeeds and fills the kernel buffer [dst] with the bytes of [src],
    changing nothing else. *)
Theorem copyout_copyin_roundtrip (root va src dst len : Z) (s s1 : mm) (T : gmap Z nat) (l : list Z)
    (Hs : vm_inv s root T l) (Hw : user_wf (m_mem s) root T l) (Hva : 0 <= va) (Hl : 0 <= len)
    (Hsrc : forall i, 0 <= i < len -> ~ user_byte (m_mem s) root (src + i))
    (Hdst : kernel_buf (m_mem s) root T l dst len)
    (Hout : copyout root va src len s = Ok 0 s1) :
  exists s2, copyin root dst va len s1 = Ok 0 s2 /\
    (forall i, 0 <= i < len -> rd (m_mem s2) (dst + i) = rd (m_mem s) (src + i)) /\
    same_outside (m_mem s1) (m_mem s2) dst len.
Proof.
  destruct s as [h m r0]. unfold copyout in Hout.
  destruct (copyout_loop_spec (Z.to_nat len) root va src len h m r0 T l)
    as (r & k & m1 & H1 & H2 & H3 & H4); [done..|lia|done|].
  rewrite H1 in Hout. injection Hout as -> <-. destruct H4 as [[_ ->]|[? _]]; [|done].
  destruct (stored_inv _ _ _ _ _ _ _ _ _ _ Hs Hw Hva H3) as (Hs1 & Hw1 & Hpte).
  unfold copyin. destruct (copyin_loop_spec (Z.to_nat len) root dst va len h m1 r0 T l)
    as (r & k & m2 & E1 & E2 & E3 & E4); [done..|lia| |].
  { intros i Hi. rewrite (user_byte_ext m m1) by done. by apply Hdst. }
  destruct E4 as [[-> ->]|(_ & Hk & Hf)].
  - exists (mkmm h m2 r0). split_and!; [done| |apply (ci_frame _ _ _ _ _ _ E3)].
    intros i Hi. cbn. rewrite (ci_bytes _ _ _ _ _ _ E3) by done.
    rewrite (user_addr_ext m m1) by done. by apply (co_bytes _ _ _ _ _ _ H3).
  - exfalso. apply Hf. rewrite (user_pte_ext m m1) by done.
    destruct (co_acc _ _ _ _ _ _ H3 k) as [? ?]; [lia|]. auto using writable_user.
Qed.

End VmUser.

(** ** Examples: the kernel's buffers at 64 and 128, one user page *)

#[local] Existing Instances kernel_layout kernel_layout_ok.

Lemma mm3_user :
  exists s T l, vm_inv s (vp 0) T l /\ user_wf (m_mem s) (vp 0) T l /\
    writable (m_mem s) (vp 0) 8200 = true /\
    (forall b, 0 <= b < 1000 -> ~ user_byte (m_mem s) (vp 0) b) /\
    kernel_buf (m_mem s) (vp 0) T l 128 4.
Proof.
  destruct mm3_exists as (s & T & l & Hs & Hp & HT & Hl). exists s, T, l.
  assert (Hu : forall va, 0 <= va < MAXVA -> user_pte (m_mem s) (vp 0) va = true ->
    va / 4096 = 2 /\ page_of (m_mem s) (vp 0) va = vp 3).
  { intros va Hva. unfold user_pte, page_of. rewrite (Hp va Hva). case_decide; [|done].
    assert (E : va / 4096 = 2) by divlia. unfold run_pte. rewrite E. auto. }
  assert (Hlow : forall b, 0 <= b < 1000 -> ~ user_byte (m_mem s) (vp 0) b).
  { intros b Hb (va & Hva & Hv & <-). destruct (Hu va Hva Hv) as [_ E]. unfold user_addr in Hb.
    rewrite E in Hb. unfold vp, KERNBASE in Hb. divlia. }
  split_and!; [done|constructor| |done|].
  - intros va Hva Hv. destruct (Hu va Hva Hv) as [_ ->]. split_and!; [apply vp_valid; lia|done..].
  - intros va va' Hva Hva' Hv Hv' _. destruct (Hu va Hva Hv), (Hu va' Hva' Hv'). congruence.
  - unfold writable, user_pte. rewrite (Hp 8200) by (vm_compute; split; congruence). reflexivity.
  - intros i Hi. split; [apply Hlow; lia|]. intros (q & Hq & Hr).
    assert (Hv : valid_page q).
    { destruct Hq as [[L Hq]|Hq]; [by eapply wf_page; [apply (vi_wf _ _ _ _ Hs)|]|].
      destruct (vi_kmem _ _ _ _ Hs) as (_ & _ & Hf). by rewrite Forall_forall in Hf; apply Hf. }
    apply valid_page_range in Hv. unfold KERNBASE in Hv. lia.
Qed.

Lemma copyout_correct_witness :
  exists s s' T l, vm_inv s (vp 0) T l /\ copyout (vp 0) 8200 64 4 s = Ok 0 s' /\
    copied_out (m_mem s) (m_mem s') (vp 0) 8200 64 4.
Proof.
  destruct mm3_user as (s & T & l & Hs & Hw & Hwr & Hlow & _).
  destruct (copyout_correct (vp 0) 8200 64 4 s T l Hs Hw) as (r & k & s' & H1 & H2 & H3 & H4 & _);
    [lia|lia|intros; apply Hlow; lia|].
  destruct H4 as [[-> ->]|(_ & Hk & Hf)].
  - exists s, s', T, l. split_and!; [exact Hs|exact H1|exact H3].
  - exfalso. apply Hf. rewrite MAXVA_val. split; [lia|].
    rewrite (writable_same_page _ _ (8200 + k) 8200); [exact Hwr|]. divlia.
Defined.

Lemma copyout_copyin_roundtrip_witness :
  exists s s1 s2, copyout (vp 0) 8200 64 4 s = Ok 0 s1 /\ copyin (vp 0) 128 8200 4 s1 = Ok 0 s2 /\
    rd (m_mem s2) 129 = rd (m_mem s) 65.
Proof.
  destruct mm3_user as (s & T & l & Hs & Hw & Hwr & Hlow & Hbuf). destruct s as [h m r0].
  destruct (copyout_loop_spec 4 (vp 0) 8200 64 4 h m r0 T l Hs Hw) as (r & k & m' & H1 & H2 & H3 & H4);
    [lia|lia|intros; apply Hlow; lia|].
  destruct H4 as [[-> ->]|(_ & Hk & Hf)].
  - destruct (copyout_copyin_roundtrip (vp 0) 8200 64 128 4 (mkmm h m r0) (mkmm h m' r0) T l Hs Hw)
      as (s2 & E1 & E2 & _); [lia|lia|intros; apply Hlow; lia|exact Hbuf|exact H1|].
    exists (mkmm h m r0), (mkmm h m' r0), s2. split_and!; [exact H1|exact E1|apply (E2 1); lia].
  - exfalso. apply Hf. rewrite MAXVA_val. split; [lia|].
    rewrite (writable_same_page _ _ (8200 + k) 8200); [exact Hwr|]. divlia.
Defined.
