(* ===== verification/VmBytes.v ===== *)
(** * Copies between user memory and kernel data

    The specifications of the variants of [copyout], [copyin] and [copyinstr]
    whose kernel side is a list of bytes, in the terms of [VmUser]. *)
From S2P Require Import Prelude CString Spinlock Layout Kalloc Vm VmTable VmMap VmUser.

Section VmBytes.
Context {LY : Layout} {LYok : LayoutOk}.

(** ** copyout *)

Definition nth_byte (bs : list Z) (i : Z) : Z := u8 (default 0 (bs !! Z.to_nat i)).

Lemma copyout_bytes_step fuel root dstva src s T :
  pt_wf (m_mem s) root T -> 0 <= dstva -> src <> [] ->
  copyout_bytes_loop (S fuel) root dstva src s =
  if (dstva <? MAXVA) && writable (m_mem s) root dstva then
    let n := chunk dstva (Z.of_nat (length src)) in
    copyout_bytes_loop fuel root (dstva / 4096 * 4096 + 4096) (drop (Z.to_nat n) src)
      (set_mem (put_bytes (m_mem s) (user_addr (m_mem s) root dstva) (take (Z.to_nat n) src)) s)
  else Ok (-1) s.
Proof.
  intros Hwf Hd Hl. cbn [copyout_bytes_loop].
  destruct (Z.ltb_spec 0 (Z.of_nat (length src))); [|destruct src; [done|cbn in *; lia]].
  rewrite PGROUNDDOWN_page. set (va0 := dstva / 4096 * 4096).
  assert (Hoff : dstva - va0 = dstva mod 4096) by (unfold va0; divlia).
  assert (Hpg : va0 / 4096 = dstva / 4096) by (unfold va0; divlia).
  assert (Hlt : (MAXVA <=? va0) = negb (dstva <? MAXVA)).
  { unfold va0. rewrite MAXVA_val. destruct (Z.leb_spec 274877906944 (dstva / 4096 * 4096)),
      (Z.ltb_spec dstva 274877906944); cbn; (done || divlia). }
  rewrite Hlt. destruct (Z.ltb_spec dstva MAXVA); cbn [negb andb]; [|done].
  destruct (walk_entry root va0 s T Hwf) as (e & He & Hcase);
    [unfold va0; rewrite MAXVA_val in *; divlia|].
  rewrite (bind_ok _ _ _ _ _ He). unfold writable, user_pte, load64, upd_mem.
  rewrite (pte_of_same_page _ root dstva va0) by done.
  destruct Hcase as [[-> ->]|[Hne Hpte]]; [done|].
  destruct (Z.eqb_spec e 0); [done|]. autorewrite with mdb. cbv beta.
  rewrite valid_check, <- Hpte. destruct (has _ PTE_U && has _ PTE_W) eqn:Hacc; [|done].
  cbn [negb]. autorewrite with mdb. rewrite Hoff. fold (chunk dstva (Z.of_nat (length src))).
  unfold user_addr, page_of. rewrite (pte_of_same_page _ root dstva va0) by done.
  rewrite Hpte. destruct (pte_valid _); [done|]. rewrite Hpte in Hacc. done.
Qed.

Lemma stored_chunk m root dstva bs :
  bs <> [] -> dstva < MAXVA -> writable m root dstva = true -> 0 <= dstva ->
  let n := chunk dstva (Z.of_nat (length bs)) in
  stored m (put_bytes m (user_addr m root dstva) (take (Z.to_nat n) bs)) root dstva
    (nth_byte bs) n.
Proof.
  intros Hne Hd Hw H0 n. assert (Hl : 0 < Z.of_nat (length bs)) by (destruct bs; [done|cbn; lia]).
  pose proof (chunk_range dstva _ Hl) as [Hc1 Hc2]. fold n in Hc1, Hc2.
  assert (Htk : length (take (Z.to_nat n) bs) = Z.to_nat n) by (rewrite length_take; lia).
  constructor.
  - intros i Hi. pose proof (chunk_page _ _ _ Hi). split; [rewrite MAXVA_val in *; divlia|].
    by rewrite (writable_same_page m root _ dstva).
  - intros i Hi. rewrite (user_addr_chunk _ _ _ (Z.of_nat (length bs))) by done.
    rewrite rd_put_bytes, Htk, decide_True by lia. unfold nth_byte. do 2 f_equal.
    replace (user_addr m root dstva + i - user_addr m root dstva) with i by lia.
    rewrite lookup_take_lt by lia. done.
  - intros b Hb. rewrite rd_put_bytes, Htk. case_decide as Hr; [|done]. exfalso.
    apply (Hb (b - user_addr m root dstva)); [lia|].
    rewrite (user_addr_chunk _ _ _ (Z.of_nat (length bs))) by (unfold n in *; lia). lia.
Qed.

Lemma copyout_bytes_loop_spec fuel root dstva bs h m r0 T l :
  vm_inv (mkmm h m r0) root T l -> user_wf m root T l -> 0 <= dstva ->
  (length bs <= fuel)%nat ->
  exists r k m', copyout_bytes_loop fuel root dstva bs (mkmm h m r0) = Ok r (mkmm h m' r0) /\
    0 <= k <= Z.of_nat (length bs) /\ stored m m' root dstva (nth_byte bs) k /\
    ((r = 0 /\ k = Z.of_nat (length bs)) \/
     (r = -1 /\ k < Z.of_nat (length bs) /\
      ~ (dstva + k < MAXVA /\ writable m root (dstva + k) = true))).
Proof.
  revert dstva bs m. induction fuel as [|fuel IH]; intros dstva bs m Hs Hw Hd Hl;
    (destruct (decide (bs = [])) as [->|Hne];
      [exists 0, 0, m; split_and!; [done|cbn; lia..| |by left]; constructor; (lia || done)|]).
  { destruct bs; [done|cbn in Hl; lia]. }
  rewrite (copyout_bytes_step _ _ _ _ _ T) by (done || apply (vi_wf _ _ _ _ Hs)). cbn [m_mem].
  assert (Hlen : 0 < Z.of_nat (length bs)) by (destruct bs; [done|cbn; lia]).
  destruct (Z.ltb_spec dstva MAXVA); cbn [andb].
  2:{ exists (-1), 0, m. split_and!; [done|lia..|constructor; (lia || done)|].
      right. split_and!; [done|lia|lia]. }
  destruct (writable m root dstva) eqn:Hwr.
  2:{ exists (-1), 0, m. split_and!; [done|lia..|constructor; (lia || done)|].
      right. split_and!; [done|lia|]. rewrite Z.add_0_r. intros [_ ?]. congruence. }
  pose proof (chunk_range dstva _ Hlen) as [Hc1 Hc2].
  pose proof (stored_chunk m root dstva bs Hne ltac:(lia) Hwr Hd) as Hco. cbv zeta in *.
  assert (Hnext : chunk dstva (Z.of_nat (length bs)) < Z.of_nat (length bs) ->
    dstva / 4096 * 4096 + 4096 = dstva + chunk dstva (Z.of_nat (length bs))).
  { unfold chunk. destruct (Z.ltb_spec (Z.of_nat (length bs)) (4096 - dstva mod 4096)); intros; divlia. }
  set (n := chunk dstva (Z.of_nat (length bs))) in *. set (m1 := put_bytes _ _ _) in *.
  destruct (stored_inv _ _ _ _ _ _ _ _ _ _ Hs Hw Hd Hco) as (Hs1 & Hw1 & Hpte).
  unfold set_mem; cbn [m_hart freelist].
  destruct (IH (dstva / 4096 * 4096 + 4096) (drop (Z.to_nat n) bs) m1 Hs1 Hw1)
    as (r & k & m' & H1 & H2 & H3 & H4); [divlia|rewrite length_drop; lia|].
  rewrite length_drop in H2, H4.
  exists r, (n + k), m'. split_and!; [done|lia|lia| |].
  - eapply (stored_trans m m1 m' root T l); [done|done|lia|lia| |done| |exact Hco|exact H3].
    + intros Hk. apply Hnext. lia.
    + intros i Hi. unfold nth_byte. rewrite lookup_drop. do 3 f_equal. lia.
  - destruct H4 as [[-> ->]|(-> & Hk & Hf)]; [left; lia|]. right. split_and!; [done|lia|].
    rewrite Hnext in Hf by lia. rewrite (writable_ext m m1) in Hf by done.
    by replace (dstva + (n + k)) with (dstva + n + k) by lia.
Qed.

Lemma copyout_bytes_spec root dstva bs h m r0 T l :
  vm_inv (mkmm h m r0) root T l -> user_wf m root T l -> 0 <= dstva ->
  exists r k m', copyout_bytes root dstva bs (mkmm h m r0) = Ok r (mkmm h m' r0) /\
    0 <= k <= Z.of_nat (length bs) /\ stored m m' root dstva (nth_byte bs) k /\
    ((r = 0 /\ k = Z.of_nat (length bs)) \/
     (r = -1 /\ k < Z.of_nat (length bs) /\
      ~ (dstva + k < MAXVA /\ writable m root (dstva + k) = true))) /\
    vm_inv (mkmm h m' r0) root T l /\ user_wf m' root T l /\
    forall va, pte_of m' root va = pte_of m root va.
Proof.
  intros Hs Hw Hd. unfold copyout_bytes.
  destruct (copyout_bytes_loop_spec (length bs) root dstva bs h m r0 T l Hs Hw Hd (le_n _))
    as (r & k & m' & H1 & H2 & H3 & H4).
  destruct (stored_inv _ _ _ _ _ _ _ _ _ _ Hs Hw Hd H3) as (Hs1 & Hw1 & Hpte).
  exists r, k, m'. split_and!; [done|lia|lia|done..].
Qed.

(** ** copyin *)

Lemma copyin_bytes_step fuel root srcva len s T l :
  vm_inv s root T l -> user_wf (m_mem s) root T l -> 0 <= srcva -> 0 < len ->
  copyin_bytes_loop (S fuel) root srcva len s =
  if (srcva <? MAXVA) && user_pte (m_mem s) root srcva then
    let n := chunk srcva len in
    (let! r := copyin_bytes_loop fuel root (srcva / 4096 * 4096 + 4096) (len - n) in
     mret' (r.1, bytes (m_mem s) (user_addr (m_mem s) root srcva) (Z.to_nat n) ++ r.2)) s
  else Ok (-1, []) s.
Proof.
  intros Hs Hw Hd Hl. cbn [copyin_bytes_loop]. destruct (Z.ltb_spec 0 len); [|lia].
  rewrite PGROUNDDOWN_page. set (va0 := srcva / 4096 * 4096).
  assert (Hoff : srcva - va0 = srcva mod 4096) by (unfold va0; divlia).
  assert (Hpg : va0 / 4096 = srcva / 4096) by (unfold va0; divlia).
  rewrite (bind_ok _ _ _ _ _ (walkaddr_eq root va0 s T l Hs ltac:(unfold va0; divlia))).
  assert (Hlt : (va0 <? MAXVA) = (srcva <? MAXVA)).
  { unfold va0. rewrite MAXVA_val. destruct (Z.ltb_spec (srcva / 4096 * 4096) 274877906944),
      (Z.ltb_spec srcva 274877906944); (done || divlia). }
  rewrite Hlt, (user_pte_same_page _ root va0 srcva), (page_of_same_page _ root va0 srcva) by done.
  destruct (Z.ltb_spec srcva MAXVA); cbn [andb]; [|done].
  destruct (user_pte (m_mem s) root srcva) eqn:Hu; [|done].
  destruct (uw_page _ _ _ _ Hw srcva) as (Hp & _); [lia|done|].
  pose proof (valid_page_pos _ Hp).
  destruct (Z.eqb_spec (page_of (m_mem s) root srcva) 0); [lia|].
  autorewrite with mdb. rewrite Hoff. done.
Qed.

(** The bytes [bs] are the user's from [srcva] on. *)
Definition user_bytes (m : mem) (root srcva : Z) (bs : list Z) : Prop :=
  forall i, 0 <= i < Z.of_nat (length bs) ->
    srcva + i < MAXVA /\ user_pte m root (srcva + i) = true /\
    bs !! Z.to_nat i = Some (rd m (user_addr m root (srcva + i))).

Lemma bytes_lookup m a n i :
  (i < n)%nat -> bytes m a n !! i = Some (rd m (a + Z.of_nat i)).
Proof.
  intros Hi. unfold bytes. rewrite list_lookup_fmap, lookup_seq_lt by done. done.
Qed.

Lemma user_bytes_chunk m root srcva len :
  0 < len -> srcva < MAXVA -> user_pte m root srcva = true -> 0 <= srcva ->
  user_bytes m root srcva (bytes m (user_addr m root srcva) (Z.to_nat (chunk srcva len))).
Proof.
  intros Hl Hd Hw H0. pose proof (chunk_range srcva len Hl) as [Hc1 Hc2]. intros i Hi.
  assert (Hlen : length (bytes m (user_addr m root srcva) (Z.to_nat (chunk srcva len))) =
    Z.to_nat (chunk srcva len)) by (unfold bytes; by rewrite length_fmap, length_seq).
  rewrite Hlen in Hi. assert (Hi' : 0 <= i < chunk srcva len) by lia.
  pose proof (chunk_page _ _ _ Hi'). split_and!; [rewrite MAXVA_val in *; divlia| |].
  - by rewrite (user_pte_same_page m root _ srcva).
  - rewrite bytes_lookup by lia. rewrite (user_addr_chunk _ _ _ len) by done.
    rewrite Z2Nat.id by lia. done.
Qed.

Lemma user_bytes_app m root va va' bs bs' :
  (bs' <> [] -> va' = va + Z.of_nat (length bs)) ->
  user_bytes m root va bs -> user_bytes m root va' bs' -> user_bytes m root va (bs ++ bs').
Proof.
  intros Hva H1 H2 i Hi. rewrite length_app in Hi.
  destruct (decide (i < Z.of_nat (length bs))).
  - destruct (H1 i) as (? & ? & ?); [lia|]. rewrite lookup_app_l by lia. done.
  - destruct bs' as [|c bs']; [cbn in *; lia|]. rewrite Hva in H2 by done.
    destruct (H2 (i - Z.of_nat (length bs))) as (A & B & C); [lia|].
    replace (va + Z.of_nat (length bs) + (i - Z.of_nat (length bs))) with (va + i) in * by lia.
    split_and!; [done..|]. rewrite lookup_app_r by lia. rewrite <- C. f_equal. lia.
Qed.

Lemma copyin_bytes_loop_spec fuel root srcva len s T l :
  vm_inv s root T l -> user_wf (m_mem s) root T l -> 0 <= srcva ->
  0 <= len <= Z.of_nat fuel ->
  exists r bs, copyin_bytes_loop fuel root srcva len s = Ok (r, bs) s /\
    user_bytes (m_mem s) root srcva bs /\
    ((r = 0 /\ Z.of_nat (length bs) = len) \/
     (r = -1 /\ Z.of_nat (length bs) < len /\
      ~ (srcva + Z.of_nat (length bs) < MAXVA /\
         user_pte (m_mem s) root (srcva + Z.of_nat (length bs)) = true))).
Proof.
  intros Hs Hw. revert srcva len. induction fuel as [|fuel IH]; intros srcva len Hd Hl;
    (destruct (decide (len = 0)) as [->|Hne];
      [exists 0, []; split_and!; [done|intros i; cbn; lia|by left]|]).
  { lia. }
  rewrite (copyin_bytes_step _ _ _ _ _ T l) by (done || lia).
  destruct (Z.ltb_spec srcva MAXVA); cbn [andb].
  2:{ exists (-1), []. split_and!; [done|intros i; cbn; lia|].
      right. split_and!; [done|cbn; lia|cbn; lia]. }
  destruct (user_pte (m_mem s) root srcva) eqn:Hu.
  2:{ exists (-1), []. split_and!; [done|intros i; cbn; lia|].
      right. split_and!; [done|cbn; lia|]. cbn. rewrite Z.add_0_r. intros [_ ?]. congruence. }
  pose proof (chunk_range srcva len ltac:(lia)) as [Hc1 Hc2].
  pose proof (user_bytes_chunk (m_mem s) root srcva len ltac:(lia) ltac:(lia) Hu Hd) as Hb.
  assert (Hnext : chunk srcva len < len ->
    srcva / 4096 * 4096 + 4096 = srcva + chunk srcva len).
  { unfold chunk. destruct (Z.ltb_spec len (4096 - srcva mod 4096)); intros; divlia. }
  cbv zeta. set (n := chunk srcva len) in *. set (b1 := bytes _ _ _) in *.
  assert (Hlen : length b1 = Z.to_nat n) by (unfold b1, bytes; by rewrite length_fmap, length_seq).
  destruct (IH (srcva / 4096 * 4096 + 4096) (len - n)) as (r & bs & E & H2 & H3); [divlia|lia|].
  rewrite (bind_ok _ _ _ _ _ E). cbn [fst snd].
  exists r, (b1 ++ bs). split; [done|]. rewrite length_app, Nat2Z.inj_add, Hlen, Z2Nat.id by lia.
  assert (Hn : bs <> [] -> srcva / 4096 * 4096 + 4096 = srcva + n).
  { intros Hbs. apply Hnext. destruct bs; [done|]. cbn in H3. lia. }
  split.
  - eapply user_bytes_app; [|exact Hb|exact H2]. rewrite Hlen, Z2Nat.id by lia. done.
  - destruct H3 as [[-> H3]|(-> & Hk & Hf)]; [left; lia|]. right. split_and!; [done|lia|].
    rewrite Hnext in Hf by lia. by rewrite Z.add_assoc.
Qed.

Lemma copyin_bytes_spec root srcva len s T l :
  vm_inv s root T l -> user_wf (m_mem s) root T l -> 0 <= srcva -> 0 <= len ->
  exists r bs, copyin_bytes root srcva len s = Ok (r, bs) s /\
    user_bytes (m_mem s) root srcva bs /\
    ((r = 0 /\ Z.of_nat (length bs) = len) \/
     (r = -1 /\ Z.of_nat (length bs) < len /\
      ~ (srcva + Z.of_nat (length bs) < MAXVA /\
         user_pte (m_mem s) root (srcva + Z.of_nat (length bs)) = true))).
Proof. intros. apply (copyin_bytes_loop_spec _ _ _ _ _ T l); [done..|lia]. Qed.

End VmBytes.
