(* ===== verification/VmAlloc.v ===== *)
(** * Growing and shrinking user memory

    The specifications of [uvmdealloc] and [uvmalloc] (src/xv6-os/kernel/vm.c),
    with the rollback of [uvmalloc] when memory runs out. *)
From S2P Require Import Prelude CString Spinlock Layout Kalloc Vm VmTable VmMap.

Section VmAlloc.
Context {LY : Layout} {LYok : LayoutOk}.

(** The entry of [x] once the pages [ps] are mapped from [a0] on, the [k]-th
    of them with the permissions [perm k]. *)
Definition grown_pte (a0 : Z) (perm : nat -> Z) (ps : list Z) (x old : Z) : Z :=
  if decide (a0 <= x) then
    let k := Z.to_nat ((x - a0) / 4096) in
    match ps !! k with
    | Some p => Z.lor (Z.lor (PA2PTE p) (perm k)) PTE_V
    | None => old
    end
  else old.

(** From [s] to [s'] the free pages [ps] were mapped from [a0] on, the [k]-th
    of them with the permissions [perm k] and the bytes [fill k]; the free
    pages that are gone are these and the tables of [T'] not in [T]. *)
Record grown (s s' : mm) (root : Z) (T T' : gmap Z nat) (l l' : list Z) (a0 : Z)
    (perm : nat -> Z) (fill : nat -> Z -> Z) (ps : list Z) : Prop := {
  gr_inv : vm_inv s' root T' l';
  gr_sub : T ⊆ T';
  gr_part : forall p, p ∈ l <-> p ∈ l' \/ p ∈ ps \/ (is_Some (T' !! p) /\ T !! p = None);
  gr_nodup : NoDup ps;
  gr_ps : forall p, p ∈ ps -> valid_page p /\ T' !! p = None /\ p ∉ l';
  gr_fill : forall k p o, ps !! k = Some p -> 0 <= o < 4096 -> rd (m_mem s') (p + o) = fill k o;
  gr_map : forall x, 0 <= x < MAXVA ->
    pte_of (m_mem s') root x = grown_pte a0 perm ps x (pte_of (m_mem s) root x);
  gr_frame : forall b, ~ in_pages b (fun q => q ∈ l \/ is_Some (T !! q)) ->
    rd (m_mem s') b = rd (m_mem s) b;
}.

Lemma grown_refl s root T l a0 perm fill :
  vm_inv s root T l -> grown s s root T T l l a0 perm fill [].
Proof.
  intros Hs. constructor; [done..| | |set_solver|done| |done].
  - intros p. split; [auto|]. intros [?|[?%not_elem_of_nil|[[? ?] ?]]]; [done..|congruence].
  - apply NoDup_nil_2.
  - intros x _. unfold grown_pte. by case_decide.
Qed.

Lemma leaf_pte p perm :
  valid_page p -> 0 <= perm < 1024 -> Z.lor perm PTE_V <> PTE_V ->
  let v := Z.lor (Z.lor (PA2PTE p) perm) PTE_V in
  v <> 0 /\ PTE_FLAGS v <> PTE_V /\ PTE2PA v = p.
Proof.
  intros Hp Hperm Hne v. pose proof (valid_page_pos p Hp). destruct Hp as [Ha _].
  assert (Hr : 0 <= Z.lor perm PTE_V < 1024).
  { apply (lor_range _ _ 10); change PTE_V with 1; change (2 ^ 10) with 1024; lia. }
  unfold v. rewrite <- Z.lor_assoc. rewrite PTE_FLAGS_PA2PTE, PTE2PA_PA2PTE by lia.
  split_and!; [|done..]. intros E. apply (f_equal PTE_FLAGS) in E.
  rewrite PTE_FLAGS_PA2PTE in E by lia. change (PTE_FLAGS 0) with 0 in E.
  apply Z.lor_eq_0_iff in E as [_ E]. done.
Qed.

Lemma not_in_pages p b (P : Z -> Prop) :
  valid_page p -> (forall q, P q -> valid_page q /\ q <> p) -> p <= b < p + 4096 ->
  ~ in_pages b P.
Proof.
  intros Hp HP Hb (q & Hq & Hr). destruct (HP q Hq) as [Hv Hne].
  destruct (valid_page_disjoint p q); [done..|congruence|lia|lia].
Qed.

(** The tables and free pages of an invariant are managed pages. *)
Lemma vm_inv_valid s root T l q :
  vm_inv s root T l -> q ∈ l \/ is_Some (T !! q) -> valid_page q.
Proof.
  intros Hs [Hq|[L Hq]].
  - destruct (vi_kmem _ _ _ _ Hs) as (_ & _ & Hf). rewrite Forall_forall in Hf. by apply Hf.
  - by eapply wf_page; [apply (vi_wf _ _ _ _ Hs)|].
Qed.

(** [kalloc], after which the page is filled: [m'] is any memory that differs
    in the page only. *)
Lemma alloc_page h m r root T p l m' :
  vm_inv (mkmm h m r) root T (p :: l) -> same_outside (memset m p 5 4096) m' p 4096 ->
  let s' := mkmm (settle h) m' (ld64 m p) in
  kalloc (mkmm h m r) = Ok p (mkmm (settle h) (memset m p 5 4096) (ld64 m p)) /\
  valid_page p /\ T !! p = None /\ p ∉ l /\
  vm_inv s' root T l /\ (forall x, pte_of m' root x = pte_of m root x) /\
  same_outside m m' p 4096.
Proof.
  intros [Hok Hk Hwf Hd] Hm' s'. cbn [m_mem] in Hwf.
  pose proof (kmem_inv_alloc _ _ _ _ _ Hk) as (-> & Hp & Hn & Hf & Hnd & Hv).
  cbn [m_mem freelist] in *. pose proof (valid_page_pos p Hp).
  assert (HTp : T !! p = None) by (apply Hd; by left).
  assert (Hout : same_outside m m' p 4096).
  { intros b Hb. rewrite Hm', rd_memset_out by lia. done. }
  assert (Htab : forall t L b, T !! t = Some L -> t <= b < t + 4096 -> rd m' b = rd m b).
  { intros t L b Ht Hb. apply Hout. pose proof (wf_page _ _ _ Hwf _ _ Ht).
    destruct (valid_page_disjoint t p); [done..|congruence|lia|lia]. }
  split_and!; [apply kalloc_some; [exact Hok|lia]|done|done|done| | |done].
  - constructor; cbn [m_mem].
    + by eapply mm_ok_settle.
    + split_and!; [|done..]. cbn [m_mem freelist].
      eapply (flist_page_change (memset m p 5 4096)); [done..| |done]. done.
    + by eapply pt_wf_ext.
    + intros q Hq. apply Hd. by right.
  - intros x. by eapply pte_of_ext.
Qed.

(** Mapping the next page of a grown address space. *)
Lemma grown_pte_app a0 perm ps p x old :
  a0 mod 4096 = 0 -> 0 <= a0 ->
  (if decide (x / 4096 = (a0 + Z.of_nat (length ps) * 4096) / 4096)
   then Z.lor (Z.lor (PA2PTE p) (perm (length ps))) PTE_V else grown_pte a0 perm ps x old) =
  grown_pte a0 perm (ps ++ [p]) x old.
Proof.
  intros Hal H0. unfold grown_pte. destruct (decide (a0 <= x)) as [Hx|Hx].
  - case_decide as Hp.
    + replace (Z.to_nat ((x - a0) / 4096)) with (length ps) by divlia.
      by rewrite list_lookup_middle.
    + destruct (decide (Z.to_nat ((x - a0) / 4096) < length ps)%nat).
      * by rewrite lookup_app_l.
      * rewrite (lookup_ge_None_2 ps), (lookup_ge_None_2 (ps ++ [p])); [done|..]; 
          rewrite ?length_app; cbn; divlia.
  - rewrite decide_False by divlia. done.
Qed.

(** One round of [uvmalloc]: [p] was taken off the free list and cleared,
    which gives [sk], and tables were added, which gives [s2]. *)
Section Round.
Context (s sk s2 : mm) (root : Z) (T T1 T2 : gmap Z nat) (l : list Z) (p : Z) (l1 l2 : list Z)
  (a0 : Z) (perm : nat -> Z) (fill : nat -> Z -> Z) (ps : list Z) (h : hart) (m : mem) (r : Z)
  (G : grown s (mkmm h m r) root T T1 l (p :: l1) a0 perm fill ps)
  (Hk0 : vm_inv sk root T1 l1) (Hpte : forall x, pte_of (m_mem sk) root x = pte_of m root x)
  (Hout : same_outside m (m_mem sk) p 4096)
  (Hz : forall o, 0 <= o < 4096 -> rd (m_mem sk) (p + o) = fill (length ps) o)
  (H2 : vm_inv s2 root T2 l2) (Hg : vm_grow sk s2 T1 T2 l1 l2).

Lemma round_page : valid_page p /\ p ∉ l1 /\ T1 !! p = None /\ p ∉ ps.
Proof.
  pose proof (gr_inv _ _ _ _ _ _ _ _ _ _ _ G) as G1.
  destruct (vi_kmem _ _ _ _ G1) as (_ & [Hpl1 Hnd1]%NoDup_cons & _). split_and!; [|done|..].
  - apply (vm_inv_valid _ _ _ _ p G1). left. by left.
  - apply (vi_disj _ _ _ _ G1). by left.
  - intros Hin. destruct (gr_ps _ _ _ _ _ _ _ _ _ _ _ G p Hin) as (_ & _ & Hn). apply Hn. by left.
Qed.

Lemma round_keep q :
  q ∈ ps \/ q = p -> T2 !! q = None /\ q ∉ l2 /\ q ∉ l1 /\ T1 !! q = None.
Proof.
  intros Hq. destruct round_page as (Hp & Hpl & HTp & Hps).
  assert (q ∉ l1 /\ T1 !! q = None) as [Hq1 Hq2].
  { destruct Hq as [Hq| ->]; [|done].
    destruct (gr_ps _ _ _ _ _ _ _ _ _ _ _ G q Hq) as (_ & ? & Hn). split; [|done].
    intros ?. apply Hn. by right. }
  split_and!; [|rewrite (vg_free _ _ _ _ _ _ Hg); tauto|done..].
  destruct (T2 !! q) eqn:E; [|done]. exfalso. apply Hq1, (vg_new _ _ _ _ _ _ Hg); [by eexists|done].
Qed.

Lemma round_bytes k q o :
  (ps ++ [p]) !! k = Some q -> 0 <= o < 4096 -> rd (m_mem s2) (q + o) = fill k o.
Proof.
  intros Hk Ho. destruct round_page as (Hp & _ & _ & Hps).
  assert (Hq : q ∈ ps \/ q = p).
  { apply list_elem_of_lookup_2 in Hk. rewrite elem_of_app, list_elem_of_singleton in Hk. done. }
  assert (Hvq : valid_page q).
  { destruct Hq as [Hq| ->]; [apply (gr_ps _ _ _ _ _ _ _ _ _ _ _ G q Hq)|done]. }
  rewrite (vg_frame _ _ _ _ _ _ Hg).
  - apply lookup_app_Some in Hk as [Hk|[Hlen Hk]].
    + assert (q ∈ ps) by (by eapply list_elem_of_lookup_2).
      rewrite Hout; [by apply (gr_fill _ _ _ _ _ _ _ _ _ _ _ G k q)|].
      destruct (valid_page_disjoint q p); [done..| |lia|lia]. by intros ->.
    + apply list_lookup_singleton_Some in Hk as [Hk <-].
      replace k with (length ps) by lia. by apply Hz.
  - eapply not_in_pages; [exact Hvq| |]; [|lia]. intros q' Hq'.
    split; [exact (vm_inv_valid sk root T1 l1 q' Hk0 Hq')|]. intros ->.
    destruct (round_keep q Hq) as (_ & _ & ? & ?). destruct Hq' as [?|[? ?]]; [done|congruence].
Qed.

Lemma round_part q :
  q ∈ l <-> q ∈ l2 \/ (q ∈ ps \/ q = p) \/ (is_Some (T2 !! q) /\ T !! q = None).
Proof.
  rewrite (gr_part _ _ _ _ _ _ _ _ _ _ _ G), elem_of_cons, (vg_free _ _ _ _ _ _ Hg). split.
  - intros [[->|Hq]|[?|[[L HT] ?]]]; [auto| |auto|].
    + destruct (T2 !! q) eqn:E; [|auto]. right; right. split; [eauto|].
      destruct (T !! q) eqn:E'; [|done]. pose proof (vi_disj _ _ _ _ Hk0 q Hq).
      by rewrite (lookup_weaken _ _ _ _ E' (gr_sub _ _ _ _ _ _ _ _ _ _ _ G)) in *.
    + right; right. split; [|done]. eexists.
      eapply lookup_weaken; [done|apply (vg_sub _ _ _ _ _ _ Hg)].
  - intros [[? _]|[[?| ->]|[HT Hn]]]; [auto..|].
    destruct (T1 !! q) eqn:E; [right; right; eauto|].
    left; right. by apply (vg_new _ _ _ _ _ _ Hg).
Qed.

Lemma round_frame b :
  ~ in_pages b (fun q => q ∈ l \/ is_Some (T !! q)) -> rd (m_mem s2) b = rd (m_mem s) b.
Proof.
  intros Hb. pose proof (gr_part _ _ _ _ _ _ _ _ _ _ _ G) as G3.
  rewrite (vg_frame _ _ _ _ _ _ Hg), Hout.
  - by apply (gr_frame _ _ _ _ _ _ _ _ _ _ _ G).
  - destruct (decide (p <= b < p + 4096)); [|lia]. exfalso. apply Hb. exists p.
    split; [left; apply G3; left; by left|done].
  - intros (q & Hq & Hr). apply Hb. exists q. split; [|done].
    destruct Hq as [Hq|[L Hq]]; [left; apply G3; left; by right|].
    destruct (T !! q) eqn:E; [right; eauto|]. left. apply G3. right; right. eauto.
Qed.

Lemma round_sub : T ⊆ T2.
Proof.
  transitivity T1; [apply (gr_sub _ _ _ _ _ _ _ _ _ _ _ G)|apply (vg_sub _ _ _ _ _ _ Hg)].
Qed.

(** The page is mapped. *)
Lemma grown_mapped :
  a0 mod 4096 = 0 -> 0 <= a0 ->
  (forall x, 0 <= x < MAXVA -> pte_of (m_mem s2) root x =
    if decide (x / 4096 = (a0 + Z.of_nat (length ps) * 4096) / 4096)
    then Z.lor (Z.lor (PA2PTE p) (perm (length ps))) PTE_V else pte_of (m_mem sk) root x) ->
  grown s s2 root T T2 l l2 a0 perm fill (ps ++ [p]).
Proof.
  intros Hal H0 Hmap. destruct round_page as (Hp & Hpl & HTp & Hps).
  constructor; [done|apply round_sub|..|apply round_frame].
  - intros q. rewrite elem_of_app, list_elem_of_singleton. apply round_part.
  - apply NoDup_app. split_and!; [apply (gr_nodup _ _ _ _ _ _ _ _ _ _ _ G)| |apply NoDup_singleton].
    intros q Hq. rewrite list_elem_of_singleton. by intros ->.
  - intros q. rewrite elem_of_app, list_elem_of_singleton. intros Hq.
    destruct (round_keep q Hq) as (? & ? & _). split_and!; [|done..].
    destruct Hq as [Hq| ->]; [apply (gr_ps _ _ _ _ _ _ _ _ _ _ _ G q Hq)|done].
  - apply round_bytes.
  - intros x Hx. rewrite Hmap, Hpte by done.
    rewrite (gr_map _ _ _ _ _ _ _ _ _ _ _ G) by done. by apply grown_pte_app.
Qed.

(** The page could not be mapped and is freed again. *)
Lemma grown_unmapped :
  l2 = [] ->
  (forall x, 0 <= x < MAXVA -> pte_of (m_mem s2) root x = pte_of (m_mem sk) root x) ->
  exists s3, kfree p s2 = Ok tt s3 /\ grown s s3 root T T2 l [p] a0 perm fill ps.
Proof.
  intros El Hmap. destruct round_page as (Hp & Hpl & HTp & Hps).
  destruct (round_keep p) as (HT2p & Hpl2 & _ & _); [by right|].
  assert (Es : s2 = mkmm (m_hart s2) (m_mem s2) (freelist s2)) by (by destruct s2).
  assert (Hi2 : vm_inv (mkmm (m_hart s2) (m_mem s2) (freelist s2)) root T2 l2)
    by (rewrite <- Es; exact H2).
  destruct (free_data_page _ _ _ root T2 l2 p Hi2 Hp HT2p Hpl2) as (Hi & Ho & Hpt & _).
  pose proof (kfree_valid _ _ _ _ (vi_ok _ _ _ _ Hi2) Hp) as Hf. rewrite <- Es in Hf.
  eexists. split; [exact Hf|].
  rewrite El in Hi. constructor; cbn [m_mem].
  - exact Hi.
  - apply round_sub.
  - intros q. rewrite round_part, El, list_elem_of_singleton, elem_of_nil. tauto.
  - apply (gr_nodup _ _ _ _ _ _ _ _ _ _ _ G).
  - intros q Hq. destruct (round_keep q) as (? & _); [by left|]. split_and!; [|done|].
    + apply (gr_ps _ _ _ _ _ _ _ _ _ _ _ G q Hq).
    + rewrite list_elem_of_singleton. by intros ->.
  - intros k q o Hk Hb. assert (Hq : q ∈ ps) by (by eapply list_elem_of_lookup_2).
    rewrite Ho; [apply round_bytes; [by apply lookup_app_l_Some|done]|].
    destruct (gr_ps _ _ _ _ _ _ _ _ _ _ _ G q Hq) as (Hvq & _).
    destruct (valid_page_disjoint q p); [done..| |lia|lia]. by intros ->.
  - intros x Hx. rewrite Hpt. rewrite Hmap, Hpte by done.
    by apply (gr_map _ _ _ _ _ _ _ _ _ _ _ G).
  - intros b Hb. rewrite Ho; [by apply round_frame|].
    destruct (decide (p <= b < p + 4096)); [|lia]. exfalso. apply Hb. exists p.
    split; [left; apply round_part; auto|done].
Qed.
End Round.

(** ** Rollback *)

Lemma grown_lookup s s' root T T' l l' a0 perm fill ps k p :
  grown s s' root T T' l l' a0 perm fill ps -> 0 <= a0 ->
  a0 + Z.of_nat (length ps) * 4096 <= MAXVA -> ps !! k = Some p ->
  pte_of (m_mem s') root (a0 + Z.of_nat k * 4096) = Z.lor (Z.lor (PA2PTE p) (perm k)) PTE_V.
Proof.
  intros G H0 Hend Hk. pose proof (lookup_lt_Some _ _ _ Hk).
  rewrite (gr_map _ _ _ _ _ _ _ _ _ _ _ G) by lia. unfold grown_pte.
  rewrite decide_True by lia. replace (a0 + Z.of_nat k * 4096 - a0) with (Z.of_nat k * 4096) by lia.
  rewrite Z.div_mul, Nat2Z.id by lia. by rewrite Hk.
Qed.

Lemma run_pages_lookup m root ps va :
  (forall k p, ps !! k = Some p -> page_of m root (va + Z.of_nat k * 4096) = p) ->
  run_pages m root va (length ps) = ps.
Proof.
  revert va. induction ps as [|p ps IH]; intros va H; cbn [run_pages length]; [done|]. f_equal.
  - rewrite <- (Z.add_0_r va). apply (H 0%nat). done.
  - apply IH. intros k q Hq. rewrite <- (H (S k) q Hq). f_equal. lia.
Qed.

(** Unmapping the pages of a grown space gives them back. *)
Lemma grown_unmap s s1 root T T1 l l1 a0 perm fill ps :
  grown s s1 root T T1 l l1 a0 perm fill ps ->
  (forall k, (k < length ps)%nat -> 0 <= perm k < 1024 /\ Z.lor (perm k) PTE_V <> PTE_V) ->
  a0 mod 4096 = 0 -> 0 <= a0 -> a0 + Z.of_nat (length ps) * 4096 <= MAXVA ->
  (forall x, a0 <= x < a0 + Z.of_nat (length ps) * 4096 -> pte_of (m_mem s) root x = 0) ->
  exists s', uvmunmap root a0 (Z.of_nat (length ps)) true s1 = Ok tt s' /\
    grown s s' root T T1 l (rev ps ++ l1) a0 perm fill [].
Proof.
  intros G Hperm Hal H0 Hend Hz. unfold uvmunmap. rewrite Hal. cbn [Z.eqb negb].
  set (a := a0 + Z.of_nat (length ps) * 4096) in *. rewrite MAXVA_val in *.
  rewrite u64_small, Nat2Z.id by lia.
  assert (Hpte : forall k p, ps !! k = Some p -> valid_page p /\
    pte_of (m_mem s1) root (a0 + Z.of_nat k * 4096) = Z.lor (Z.lor (PA2PTE p) (perm k)) PTE_V).
  { intros k p Hk. split; [|eapply grown_lookup; eauto].
    eapply (gr_ps _ _ _ _ _ _ _ _ _ _ _ G). by eapply list_elem_of_lookup_2. }
  assert (Hleaf : forall k p, ps !! k = Some p ->
    let v := Z.lor (Z.lor (PA2PTE p) (perm k)) PTE_V in
    v <> 0 /\ PTE_FLAGS v <> PTE_V /\ PTE2PA v = p).
  { intros k p Hk. destruct (Hperm k) as [? ?]; [by eapply lookup_lt_Some|].
    apply leaf_pte; [by apply (Hpte k)|done..]. }
  assert (Hrun : run_pages (m_mem s1) root a0 (length ps) = ps).
  { apply run_pages_lookup. intros k p Hk. destruct (Hpte k p Hk) as [Hv E]. unfold page_of.
    rewrite E. by apply Hleaf. }
  destruct (uvmunmap_loop_spec root true (length ps) a0 s1 T1 l1) as (s' & E & HA & HB & HC);
    [done|done|done|apply (gr_inv _ _ _ _ _ _ _ _ _ _ _ G)| |intros _; rewrite Hrun;
     apply (gr_nodup _ _ _ _ _ _ _ _ _ _ _ G)|].
  { intros k Hk. destruct (lookup_lt_is_Some_2 ps (Z.to_nat k)) as [p Hp]; [lia|].
    destruct (Hpte _ _ Hp) as [Hv Ev]. rewrite Z2Nat.id in Ev by lia. unfold unmappable.
    rewrite Ev. destruct (Hleaf _ _ Hp) as (L1 & L2 & L3). rewrite L3.
    split_and!; [done..|]. intros _. eapply (gr_ps _ _ _ _ _ _ _ _ _ _ _ G).
    by eapply list_elem_of_lookup_2. }
  fold a in E. exists s'. split; [exact E|].
  rewrite Hrun in *. cbn [freed] in *.
  constructor; [done|apply (gr_sub _ _ _ _ _ _ _ _ _ _ _ G)|..|apply NoDup_nil_2|set_solver|done| |].
  - intros q. rewrite (gr_part _ _ _ _ _ _ _ _ _ _ _ G), elem_of_app, elem_of_nil.
    rewrite elem_of_rev. tauto.
  - intros x Hx. rewrite HB by done. rewrite (gr_map _ _ _ _ _ _ _ _ _ _ _ G) by done.
    unfold grown_pte. rewrite lookup_nil. case_decide as Hr.
    + rewrite decide_True by lia. by rewrite Hz.
    + case_decide; [|done]. cbv zeta. rewrite lookup_ge_None_2; [done|]. divlia.
  - intros b Hb. rewrite HC; [by apply (gr_frame _ _ _ _ _ _ _ _ _ _ _ G)|].
    intros (q & Hq & Hr). apply Hb. exists q. split; [|done].
    rewrite (gr_part _ _ _ _ _ _ _ _ _ _ _ G).
    rewrite elem_of_rev in Hq.
    destruct Hq as [Hq|Hq]; [|auto]. destruct (T !! q) eqn:Et; [right; eauto|].
    left. right; right. eauto.
Qed.

Lemma grown_rollback s s1 root T T1 l l1 a0 perm fill ps :
  grown s s1 root T T1 l l1 a0 perm fill ps ->
  (forall k, (k < length ps)%nat -> 0 <= perm k < 1024 /\ Z.lor (perm k) PTE_V <> PTE_V) ->
  a0 mod 4096 = 0 -> 0 <= a0 -> a0 + Z.of_nat (length ps) * 4096 <= MAXVA ->
  (forall x, a0 <= x < a0 + Z.of_nat (length ps) * 4096 -> pte_of (m_mem s) root x = 0) ->
  exists r s', uvmdealloc root (a0 + Z.of_nat (length ps) * 4096) a0 s1 = Ok r s' /\
    grown s s' root T T1 l (rev ps ++ l1) a0 perm fill [].
Proof.
  intros G Hperm Hal H0 Hend Hz. unfold uvmdealloc.
  destruct (decide (length ps = 0)%nat) as [Hlen|Hlen].
  { destruct ps; [|done]. cbn [length]. change (Z.of_nat 0) with 0.
    destruct (Z.leb_spec (a0 + 0 * 4096) a0); [|lia].
    eexists _, s1. split; [reflexivity|exact G]. }
  destruct (grown_unmap s s1 root T T1 l l1 a0 perm fill ps) as (s' & E & G'); [done..|].
  set (a := a0 + Z.of_nat (length ps) * 4096) in *. rewrite MAXVA_val in *.
  assert (Ha : a mod 4096 = 0) by (unfold a; divlia).
  rewrite !PGROUNDUP_aligned by lia.
  destruct (Z.leb_spec a a0), (Z.ltb_spec a0 a); [lia..| |lia].
  replace ((a - a0) / 4096) with (Z.of_nat (length ps)) by (unfold a; divlia).
  rewrite s32_small, u64_small by lia. exists a0, s'. split; [|exact G'].
  by rewrite (bind_ok _ _ _ _ _ E).
Qed.

(** ** One more page *)

Lemma grown_kalloc_none s h m r root T T1 l a0 perm fill ps :
  grown s (mkmm h m r) root T T1 l [] a0 perm fill ps ->
  exists s2, kalloc (mkmm h m r) = Ok 0 s2 /\ grown s s2 root T T1 l [] a0 perm fill ps.
Proof.
  intros G. pose proof (gr_inv _ _ _ _ _ _ _ _ _ _ _ G) as G1.
  destruct (vi_kmem _ _ _ _ G1) as [Hr _]. cbn in Hr. subst r.
  eexists. split; [apply (kalloc_none _ _ (vi_ok _ _ _ _ G1))|].
  destruct G. constructor; [|done..]. destruct G1. constructor; try done. by eapply mm_ok_settle.
Qed.

(** The page [p] is taken off the free list, filled, which gives the memory
    [m'], and mapped, or freed again when there is no page for the tables. *)
Lemma grown_page s h m r root T T1 l p l1 a0 perm fill ps m' :
  let a := a0 + Z.of_nat (length ps) * 4096 in
  grown s (mkmm h m r) root T T1 l (p :: l1) a0 perm fill ps ->
  same_outside (memset m p 5 4096) m' p 4096 ->
  (forall o, 0 <= o < 4096 -> rd m' (p + o) = fill (length ps) o) ->
  0 <= perm (length ps) < 1024 -> a0 mod 4096 = 0 -> 0 <= a0 -> a + 4096 <= MAXVA ->
  pte_of (m_mem s) root a = 0 ->
  kalloc (mkmm h m r) = Ok p (mkmm (settle h) (memset m p 5 4096) (ld64 m p)) /\ p <> 0 /\
  exists r2 s2 T2, mappages root a PGSIZE p (perm (length ps)) (mkmm (settle h) m' (ld64 m p)) =
      Ok r2 s2 /\
    ((r2 = 0 /\ exists l2, grown s s2 root T T2 l l2 a0 perm fill (ps ++ [p])) \/
     (r2 = -1 /\ exists s3, kfree p s2 = Ok tt s3 /\ grown s s3 root T T2 l [p] a0 perm fill ps)).
Proof.
  intros a G Hm' Hfill Hperm Hal H0 Hend Hz. rewrite MAXVA_val in *.
  pose proof (gr_inv _ _ _ _ _ _ _ _ _ _ _ G) as G1.
  destruct (alloc_page h m r root T1 p l1 m' G1 Hm') as (Ek & Hp & HTp & Hpl & Hik & Hpk & Hok).
  pose proof (valid_page_pos p Hp). split; [exact Ek|]. split; [lia|].
  set (sk := mkmm (settle h) m' (ld64 m p)) in *.
  destruct (mappages_one root a p (perm (length ps)) sk T1 l1 Hik Hperm)
    as (r2 & s2 & T2 & l2 & E2 & Hi2 & Hg2 & Hc);
    [unfold a; divlia|unfold a; lia|rewrite MAXVA_val; lia|lia|
     destruct (valid_page_range p Hp); unfold PHYSTOP, KERNBASE in *; lia| |].
  { cbn [m_mem sk]. rewrite Hpk. rewrite (gr_map _ _ _ _ _ _ _ _ _ _ _ G)
      by (rewrite MAXVA_val; unfold a in *; lia).
    unfold grown_pte. rewrite decide_True by (unfold a; lia). cbv zeta.
    rewrite lookup_ge_None_2 by (unfold a; divlia). done. }
  exists r2, s2, T2. split; [exact E2|].
  destruct Hc as [[-> Hmap]|(-> & -> & Hmap)]; [left|right]; (split; [done|]).
  - exists l2. apply (grown_mapped s sk s2 root T T1 T2 l p l1 l2 a0 perm fill ps h m r); done.
  - apply (grown_unmapped s sk s2 root T T1 T2 l p l1 [] a0 perm fill ps h m r); done.
Qed.

(** ** uvmalloc *)

Definition alloc_perm (xperm : Z) : Z := Z.lor (Z.lor PTE_R PTE_U) xperm.

(** Zeroed pages with the permissions of [uvmalloc]. *)
Definition grown_zero (s s' : mm) (root : Z) (T T' : gmap Z nat) (l l' : list Z) (a0 perm : Z)
    (ps : list Z) : Prop :=
  grown s s' root T T' l l' a0 (fun _ => perm) (fun _ _ => 0) ps.

Lemma alloc_perm_ok xperm :
  0 <= xperm < 1024 ->
  0 <= alloc_perm xperm < 1024 /\ Z.lor (alloc_perm xperm) PTE_V <> PTE_V.
Proof.
  intros Hx. unfold alloc_perm. change (Z.lor PTE_R PTE_U) with 18. split.
  - apply (lor_range _ _ 10); lia.
  - intros E. apply (f_equal (fun x => Z.testbit x 1)) in E. by rewrite !Z.lor_spec in E.
Qed.

(** One round of the loop. *)
Lemma uvmalloc_round fuel root a0 newsz xperm s s1 T T1 l l1 ps :
  let a := a0 + Z.of_nat (length ps) * 4096 in
  let perm := alloc_perm xperm in
  grown_zero s s1 root T T1 l l1 a0 perm ps -> 0 <= xperm < 1024 ->
  a0 mod 4096 = 0 -> 0 <= a0 -> a < newsz <= MAXVA ->
  (forall x, a0 <= x < a + 4096 -> pte_of (m_mem s) root x = 0) ->
  exists s2 T2 l2 ps2, grown_zero s s2 root T T2 l l2 a0 perm ps2 /\
    ((uvmalloc_loop (S fuel) root a0 a newsz xperm s1 = Ok 0 s2 /\ ps2 = []) \/
     (uvmalloc_loop (S fuel) root a0 a newsz xperm s1 =
        uvmalloc_loop fuel root a0 (a + 4096) newsz xperm s2 /\
      length ps2 = S (length ps))).
Proof.
  intros a perm G Hx Hal H0 Ha Hz. unfold grown_zero in *.
  destruct (alloc_perm_ok xperm Hx) as [Hperm Hu]. fold perm in Hperm, Hu.
  cbn [uvmalloc_loop]. destruct (Z.ltb_spec a newsz); [|lia]. rewrite MAXVA_val in *.
  assert (Hend : a + 4096 <= 274877906944) by (unfold a in *; divlia).
  assert (Hroll : forall s2 T2 l2, grown_zero s s2 root T T2 l l2 a0 perm ps ->
    exists r s', uvmdealloc root a a0 s2 = Ok r s' /\
      grown_zero s s' root T T2 l (rev ps ++ l2) a0 perm []).
  { intros s2 T2 l2 G2. unfold grown_zero.
    apply (grown_rollback s s2); [done..|fold a; rewrite MAXVA_val; lia|].
    intros x Hr. apply Hz. unfold a. lia. }
  destruct s1 as [h m r]. destruct l1 as [|p l1].
  { destruct (grown_kalloc_none _ _ _ _ _ _ _ _ _ _ _ _ G) as (sk & Ek & Gk).
    rewrite (bind_ok _ _ _ _ _ Ek). cbn [Z.eqb].
    destruct (Hroll _ _ _ Gk) as (r' & s' & E & G2). rewrite (bind_ok _ _ _ _ _ E).
    exists s', T1, (rev ps ++ []), []. split; [done|]. left. done. }
  destruct (grown_page s h m r root T T1 l p l1 a0 (fun _ => perm) (fun _ _ => 0) ps
    (memset (memset m p 5 4096) p 0 4096) G) as (Ek & Hp0 & r2 & s2 & T2 & E2 & Hc);
    [|intros o Ho; rewrite rd_memset, decide_True by lia; by apply u8_small|done|done|done|
     fold a; rewrite MAXVA_val; lia|apply Hz; fold a; unfold a; lia|].
  { intros b Hb. by rewrite (rd_memset_out (memset m p 5 4096)) by lia. }
  rewrite (bind_ok _ _ _ _ _ Ek). destruct (Z.eqb_spec p 0); [done|].
  unfold upd_mem. autorewrite with mdb. unfold set_mem; cbn [m_mem m_hart freelist].
  fold a in E2. rewrite (bind_ok _ _ _ _ _ E2).
  destruct Hc as [[-> [l2 G2]]|(-> & s3 & E3 & G3)]; cbn [Z.eqb negb].
  - exists s2, T2, l2, (ps ++ [p]). split; [exact G2|].
    right. rewrite u64_small by (unfold a in *; lia). rewrite length_app. cbn. split; [done|lia].
  - rewrite (bind_ok _ _ _ _ _ E3). destruct (Hroll _ _ _ G3) as (r' & s' & E & G2).
    rewrite (bind_ok _ _ _ _ _ E). exists s', T2, (rev ps ++ [p]), []. split; [done|]. left. done.
Qed.

(** The end of the last page that holds a byte below [sz]. *)
Definition page_end (sz : Z) : Z := (sz + 4095) / 4096 * 4096.

Lemma uvmalloc_loop_spec fuel root a0 newsz xperm s s1 T T1 l l1 ps :
  let a := a0 + Z.of_nat (length ps) * 4096 in
  let perm := alloc_perm xperm in
  grown_zero s s1 root T T1 l l1 a0 perm ps -> 0 <= xperm < 1024 ->
  a0 mod 4096 = 0 -> 0 <= a0 -> newsz <= MAXVA -> a <= page_end newsz ->
  newsz - a <= Z.of_nat fuel * 4096 ->
  (forall x, a0 <= x < page_end newsz -> pte_of (m_mem s) root x = 0) ->
  exists r s' T' l' ps', uvmalloc_loop fuel root a0 a newsz xperm s1 = Ok r s' /\
    grown_zero s s' root T T' l l' a0 perm ps' /\
    ((r = newsz /\ a0 + Z.of_nat (length ps') * 4096 = page_end newsz) \/ (r = 0 /\ ps' = [])).
Proof.
  intros a perm G Hx Hal H0 Hn. revert s1 T1 l1 ps a G.
  induction fuel as [|fuel IH]; intros s1 T1 l1 ps a G Ha Hf Hz.
  all: destruct (decide (newsz <= a)) as [Hge|Hlt];
    [exists newsz, s1, T1, l1, ps; cbn [uvmalloc_loop]; destruct (Z.ltb_spec a newsz); [lia|];
     split_and!; [done..|]; left; split; [done|]; unfold a, page_end in *; divlia|].
  { lia. }
  destruct (uvmalloc_round fuel root a0 newsz xperm s s1 T T1 l l1 ps) as
    (s2 & T2 & l2 & ps2 & G2 & [[E ->]|[E Hlen]]); [done..|fold a; lia| | |].
  - intros x Hr. fold a in Hr. apply Hz. unfold a, page_end in *. divlia.
  - exists 0, s2, T2, l2, []. auto.
  - fold a in E. replace (a + 4096) with (a0 + Z.of_nat (length ps2) * 4096) in E by (unfold a; lia).
    destruct (IH s2 T2 l2 ps2 G2) as (r & s' & T' & l' & ps' & E' & G' & Hc);
      [unfold a, page_end in *; divlia|unfold a in *; lia|done|].
    exists r, s', T', l', ps'. split_and!; [by rewrite E|done..].
Qed.

(** C14. [uvmalloc] grows an address space or leaves it as it was. When it
    returns [newsz], every page from the end of the old space to [newsz] is
    mapped, readable for the user and with [xperm], to a distinct zeroed page
    taken off the free list. When it returns 0 for lack of memory, every page
    it had allocated for data is free again and the map is the old one. In
    both cases each page that was free is now free, a mapped page or a page
    table, the other entries of the map stay, and no byte outside the tables
    and the former free pages changes. *)
Theorem uvmalloc_correct (root oldsz newsz xperm : Z) (s : mm) (T : gmap Z nat) (l : list Z)
    (Hs : vm_inv s root T l) (Hsz : 0 <= oldsz <= newsz) (Hmax : newsz <= MAXVA)
    (Hx : 0 <= xperm < 1024)
    (Hz : forall x, PGROUNDUP oldsz <= x < PGROUNDUP newsz -> pte_of (m_mem s) root x = 0) :
  exists r s' T' l' ps,
    uvmalloc root oldsz newsz xperm s = Ok r s' /\
    grown_zero s s' root T T' l l' (PGROUNDUP oldsz) (alloc_perm xperm) ps /\
    ((r = newsz /\ PGROUNDUP oldsz + Z.of_nat (length ps) * 4096 = PGROUNDUP newsz) \/
     (r = 0 /\ ps = [])).
Proof.
  assert (MAXVA = 274877906944) by done. unfold uvmalloc.
  destruct (Z.ltb_spec newsz oldsz); [lia|]. rewrite !PGROUNDUP_small in * by lia.
  fold (page_end oldsz) (page_end newsz) in *.
  assert (page_end oldsz mod 4096 = 0) by (unfold page_end; divlia).
  pose proof (grown_refl s root T l (page_end oldsz) (fun _ => alloc_perm xperm) (fun _ _ => 0) Hs) as G.
  pose proof (uvmalloc_loop_spec (Z.to_nat ((newsz - page_end oldsz + 4096 - 1) / 4096)) root
    (page_end oldsz) newsz xperm s s T T l l [] G Hx) as HL.
  cbn [length] in HL. change (Z.of_nat 0) with 0 in HL. rewrite Z.add_0_r in HL.
  apply HL; [done|unfold page_end; divlia|lia|unfold page_end; divlia|unfold page_end; divlia|done].
Qed.

End VmAlloc.

(** ** Example: growing an empty address space of one page *)

#[local] Existing Instances kernel_layout kernel_layout_ok.

Lemma uvmalloc_correct_witness :
  exists r s' T' l' ps, uvmalloc (vp 0) 0 4097 PTE_W mm2 = Ok r s' /\
    grown_zero mm2 s' (vp 0) {[vp 0 := 2%nat]} T' [vp 1; vp 2] l' 0 22 ps /\ r = 0.
Proof.
  destruct (uvmalloc_correct (vp 0) 0 4097 PTE_W mm2 _ _ mm2_inv) as (r & s' & T' & l' & ps & H1 & H2 & H3);
    [lia|vm_compute; discriminate|vm_compute; split; congruence|intros; apply mm2_unmapped|].
  exists r, s', T', l', ps. split_and!; [exact H1|exact H2|].
  apply (f_equal (fun x => match x with Ok r _ => r | _ => 7 end)) in H1.
  vm_compute in H1. symmetry. exact H1.
Defined.
