(* ===== verification/VmCopy.v ===== *)
(** * Copying an address space

    The specification of [uvmcopy] (src/xv6-os/kernel/vm.c), by which [fork]
    gives the child the memory of its parent, with the rollback when memory
    runs out. *)
From S2P Require Import Prelude CString Spinlock Layout Kalloc Vm VmTable VmMap VmUser VmAlloc.

Section VmCopy.
Context {LY : Layout} {LYok : LayoutOk}.

(** What [uvmcopy] needs of the entry of the parent's page [va]: it is a
    leaf, and the page is managed memory that is neither free nor a table of
    the child. *)
Definition copyable (m : mem) (old : Z) (T : gmap Z nat) (l : list Z) (va : Z) : Prop :=
  let v := pte_of m old va in
  v <> 0 /\ PTE_FLAGS v <> PTE_V /\
  valid_page (PTE2PA v) /\ T !! PTE2PA v = None /\ PTE2PA v ∉ l.

(** The [k]-th page of the parent: its flags and its bytes. *)
Definition parent_perm (m : mem) (old : Z) (k : nat) : Z :=
  PTE_FLAGS (pte_of m old (Z.of_nat k * 4096)).
Definition parent_byte (m : mem) (old : Z) (k : nat) (o : Z) : Z :=
  rd m (page_of m old (Z.of_nat k * 4096) + o).

(** From [s] to [s'] copies of the parent's first pages were made in the free
    pages [ps] and mapped in the child. *)
Definition copied (s s' : mm) (old new : Z) (T T' : gmap Z nat) (l l' ps : list Z) : Prop :=
  grown s s' new T T' l l' 0 (parent_perm (m_mem s) old) (parent_byte (m_mem s) old) ps.

Lemma PTE_FLAGS_range v : 0 <= PTE_FLAGS v < 1024.
Proof.
  unfold PTE_FLAGS. change 0x3FF with (Z.ones 10). rewrite Z.land_ones by lia.
  apply Z.mod_pos_bound. lia.
Qed.

(** The flags of a valid entry keep their [PTE_V]. *)
Lemma PTE_FLAGS_valid v : pte_valid v = true -> Z.lor (PTE_FLAGS v) PTE_V = PTE_FLAGS v.
Proof.
  unfold pte_valid. intros Hv. apply Z.bits_inj'. intros n Hn. rewrite Z.lor_spec.
  change PTE_V with (2 ^ 0) at 1. destruct (decide (n = 0)) as [->|].
  - rewrite Z.pow2_bits_true, orb_true_r by lia. unfold PTE_FLAGS. rewrite Z.land_spec.
    change (Z.testbit 0x3FF 0) with true. rewrite andb_true_r. symmetry.
    destruct (Z.testbit v 0) eqn:E; [done|]. exfalso.
    assert (Z.land v PTE_V = 0) as E0; [|rewrite E0 in Hv; done].
    change PTE_V with (Z.ones 1). rewrite Z.land_ones by lia. change (2 ^ 1) with 2.
    rewrite Zmod_odd, <- Z.bit0_odd, E. done.
  - rewrite Z.pow2_bits_false, orb_false_r by lia. done.
Qed.

Section Copy.
Context (s : mm) (old new : Z) (To T : gmap Z nat) (l : list Z) (sz : Z)
  (Hs : vm_inv s new T l) (Ho : pt_wf (m_mem s) old To)
  (Hdis : forall t, is_Some (To !! t) -> T !! t = None /\ t ∉ l)
  (Hsz : 0 <= sz <= MAXVA)
  (Hold : forall va, 0 <= va < sz -> copyable (m_mem s) old T l va)
  (Hnew : forall va, 0 <= va < page_end sz -> pte_of (m_mem s) new va = 0).

(** The pages that were neither free nor tables of the child stay. *)
Lemma copied_same s1 T1 l1 ps q b :
  copied s s1 old new T T1 l l1 ps -> valid_page q -> T !! q = None -> q ∉ l ->
  q <= b < q + 4096 -> rd (m_mem s1) b = rd (m_mem s) b.
Proof.
  intros G Hq HT Hl Hb. apply (gr_frame _ _ _ _ _ _ _ _ _ _ _ G).
  eapply not_in_pages; [exact Hq| |exact Hb]. intros q' Hq'.
  split; [by eapply (vm_inv_valid s)|]. intros ->. destruct Hq' as [?|[? ?]]; [done|congruence].
Qed.

Lemma copied_old s1 T1 l1 ps :
  copied s s1 old new T T1 l l1 ps ->
  pt_wf (m_mem s1) old To /\ forall va, pte_of (m_mem s1) old va = pte_of (m_mem s) old va.
Proof.
  intros G. assert (Hm : forall t L b, To !! t = Some L -> t <= b < t + 4096 ->
    rd (m_mem s1) b = rd (m_mem s) b).
  { intros t L b Ht Hb. destruct (Hdis t) as [? ?]; [eauto|].
    eapply copied_same; [exact G|by eapply wf_page|done..]. }
  split; [by eapply pt_wf_ext|]. intros va. by eapply pte_of_ext.
Qed.

(** The parent's entry, as the loop reads it. *)
Lemma copy_entry s1 T1 l1 ps va :
  copied s s1 old new T T1 l l1 ps -> 0 <= va < sz ->
  exists e, walk old va false s1 = Ok e s1 /\ e <> 0 /\
    ld64 (m_mem s1) e = pte_of (m_mem s) old va /\
    pte_valid (pte_of (m_mem s) old va) = true.
Proof.
  intros G Hva. destruct (copied_old s1 T1 l1 ps G) as [Hwf Hpte].
  destruct (Hold va Hva) as (Hnz & _). rewrite <- Hpte in Hnz.
  destruct (pte_of_walk _ _ _ _ Hwf Hnz) as (t0 & Hw & H0 & Hld & Hv). rewrite Hpte in *.
  eexists. rewrite walk_noalloc, Hw by lia.
  split_and!; [done| |done..]. by eapply pte_address_pos.
Qed.

Lemma parent_perm_ok k :
  Z.of_nat k * 4096 < sz -> 0 <= parent_perm (m_mem s) old k < 1024 /\
    Z.lor (parent_perm (m_mem s) old k) PTE_V <> PTE_V.
Proof.
  intros Hk. split; [apply PTE_FLAGS_range|].
  destruct (copy_entry s T l [] (Z.of_nat k * 4096)) as (e & _ & _ & _ & Hv);
    [by apply grown_refl|lia|].
  unfold parent_perm. rewrite PTE_FLAGS_valid by done. apply Hold. lia.
Qed.

(** Giving the copies back. *)
Lemma copied_rollback s1 T1 l1 ps :
  copied s s1 old new T T1 l l1 ps -> Z.of_nat (length ps) * 4096 < sz + 4096 ->
  exists s', uvmunmap new 0 (Z.of_nat (length ps) * 4096 / PGSIZE) true s1 = Ok tt s' /\
    copied s s' old new T T1 l (rev ps ++ l1) [].
Proof.
  intros G Hlen. rewrite Z.div_mul by lia. assert (HM : MAXVA = 274877906944) by done.
  apply (grown_unmap s s1 new T T1 l l1 0); [exact G| |done|lia|divlia|].
  - intros k Hk. apply parent_perm_ok. lia.
  - intros x Hx. apply Hnew. unfold page_end. divlia.
Qed.

(** One round of the loop. *)
Lemma uvmcopy_round fuel s1 T1 l1 ps :
  let i := Z.of_nat (length ps) * 4096 in
  copied s s1 old new T T1 l l1 ps -> i < sz ->
  exists s2 T2 l2 ps2, copied s s2 old new T T2 l l2 ps2 /\
    ((uvmcopy_loop (S fuel) old new i sz s1 = Ok (-1) s2 /\ ps2 = []) \/
     (uvmcopy_loop (S fuel) old new i sz s1 = uvmcopy_loop fuel old new (i + 4096) sz s2 /\
      length ps2 = S (length ps))).
Proof.
  intros i G Hi. assert (HM : MAXVA = 274877906944) by done.
  destruct (copy_entry s1 T1 l1 ps i G) as (e & Ew & He & Hld & Hv); [lia|].
  cbn [uvmcopy_loop]. destruct (Z.ltb_spec i sz); [|lia].
  rewrite (bind_ok _ _ _ _ _ Ew). destruct (Z.eqb_spec e 0); [done|].
  unfold load64. autorewrite with mdb. cbv beta. rewrite Hld.
  unfold pte_valid in Hv. destruct (Z.land _ PTE_V =? 0); [done|]. clear Hv.
  destruct (Hold i) as (_ & _ & Hpv & HpT & Hpl); [lia|].
  destruct s1 as [h m r]. destruct l1 as [|p l1].
  { destruct (grown_kalloc_none _ _ _ _ _ _ _ _ _ _ _ _ G) as (sk & Ek & Gk).
    rewrite (bind_ok _ _ _ _ _ Ek). cbn [Z.eqb].
    destruct (copied_rollback sk T1 [] ps Gk) as (s' & E & G2); [lia|].
    rewrite (bind_ok _ _ _ _ _ E). exists s', T1, (rev ps ++ []), []. auto. }
  fold (page_of (m_mem s) old i). fold (parent_perm (m_mem s) old (length ps)).
  set (pa := page_of (m_mem s) old i) in *.
  assert (Hne : pa <> p).
  { intros E. apply Hpl. fold (page_of (m_mem s) old i). fold pa. rewrite E.
    apply (gr_part _ _ _ _ _ _ _ _ _ _ _ G). left. by left. }
  destruct (round_page s new T T1 l p l1 0 _ _ ps h m r G) as (Hp & _).
  destruct (grown_page s h m r new T T1 l p l1 0 _ _ ps
    (memmove (memset m p 5 4096) p pa 4096) G) as (Ek & Hp0 & r2 & s2 & T2 & E2 & Hc).
  { intros b Hb. rewrite rd_memmove, decide_False by lia. done. }
  { intros o Ho'. rewrite rd_memmove, decide_True by lia.
    replace (pa + (p + o - p)) with (pa + o) by lia.
    destruct (valid_page_disjoint pa p); [done..| |];
      rewrite rd_memset_out by lia; apply (copied_same _ _ _ _ pa _ G); (done || lia). }
  { apply PTE_FLAGS_range. } { done. } { lia. } { unfold i in *. divlia. }
  { apply Hnew. unfold page_end, i in *. divlia. }
  rewrite (bind_ok _ _ _ _ _ Ek). destruct (Z.eqb_spec p 0); [done|].
  unfold upd_mem. autorewrite with mdb. unfold set_mem; cbn [m_mem m_hart freelist].
  cbn [Z.add] in E2. fold i in E2. rewrite (bind_ok _ _ _ _ _ E2).
  destruct Hc as [[-> [l2 G2]]|(-> & s3 & E3 & G3)]; cbn [Z.eqb negb].
  - exists s2, T2, l2, (ps ++ [p]). split; [exact G2|].
    right. rewrite u64_small by lia. rewrite length_app. cbn. split; [done|lia].
  - rewrite (bind_ok _ _ _ _ _ E3). destruct (copied_rollback s3 T2 [p] ps G3) as (s' & E & G2); [lia|].
    rewrite (bind_ok _ _ _ _ _ E). exists s', T2, (rev ps ++ [p]), []. auto.
Qed.

Lemma uvmcopy_loop_spec fuel s1 T1 l1 ps :
  let i := Z.of_nat (length ps) * 4096 in
  copied s s1 old new T T1 l l1 ps -> i <= page_end sz -> sz - i <= Z.of_nat fuel * 4096 ->
  exists r s' T' l' ps', uvmcopy_loop fuel old new i sz s1 = Ok r s' /\
    copied s s' old new T T' l l' ps' /\
    ((r = 0 /\ Z.of_nat (length ps') * 4096 = page_end sz) \/ (r = -1 /\ ps' = [])).
Proof.
  revert s1 T1 l1 ps. induction fuel as [|fuel IH]; intros s1 T1 l1 ps i G Hi Hf.
  all: destruct (decide (sz <= i)) as [Hge|Hlt];
    [exists 0, s1, T1, l1, ps; cbn [uvmcopy_loop]; destruct (Z.ltb_spec i sz); [lia|];
     split_and!; [done..|]; left; split; [done|]; unfold i, page_end in *; divlia|].
  { lia. }
  destruct (uvmcopy_round fuel s1 T1 l1 ps G) as (s2 & T2 & l2 & ps2 & G2 & [[E ->]|[E Hlen]]);
    [fold i; lia| |].
  - exists (-1), s2, T2, l2, []. auto.
  - fold i in E. replace (i + 4096) with (Z.of_nat (length ps2) * 4096) in E by (unfold i; lia).
    destruct (IH s2 T2 l2 ps2 G2) as (r & s' & T' & l' & ps' & E' & G' & Hc);
      [unfold i, page_end in *; divlia|unfold i in *; lia|].
    exists r, s', T', l', ps'. split_and!; [by rewrite E|done..].
Qed.

(** The child's pages, once all are copied. *)
Lemma copied_page s' T' l' ps va :
  copied s s' old new T T' l l' ps -> Z.of_nat (length ps) * 4096 = page_end sz ->
  0 <= va < page_end sz ->
  page_of (m_mem s') new va ∈ ps /\
  PTE_FLAGS (pte_of (m_mem s') new va) = PTE_FLAGS (pte_of (m_mem s) old va) /\
  rd (m_mem s') (user_addr (m_mem s') new va) = rd (m_mem s) (user_addr (m_mem s) old va).
Proof.
  intros G Hlen Hva. assert (HM : MAXVA = 274877906944) by done.
  set (k := Z.to_nat (va / 4096)). destruct (lookup_lt_is_Some_2 ps k) as [p Hp]; [unfold k, page_end in *; divlia|].
  assert (Hk : (Z.of_nat k * 4096) / 4096 = va / 4096) by (unfold k; divlia).
  assert (Hr : Z.of_nat k * 4096 < sz) by (unfold k, page_end in *; divlia).
  pose proof (grown_lookup s s' new T T' l l' 0 _ _ ps k p G ltac:(lia)
    ltac:(unfold page_end in *; divlia) Hp) as Epte. rewrite Z.add_0_l in Epte.
  rewrite (pte_of_same_page _ _ _ va Hk) in Epte.
  assert (Hpin : p ∈ ps) by (by eapply list_elem_of_lookup_2).
  destruct (gr_ps _ _ _ _ _ _ _ _ _ _ _ G p Hpin) as (Hpv & _).
  destruct (parent_perm_ok k Hr) as [Hpr Hpn].
  destruct (leaf_pte p _ Hpv Hpr Hpn) as (_ & _ & Hpa).
  unfold user_addr, page_of. rewrite Epte, Hpa. split_and!; [done| |].
  - destruct (copy_entry s T l [] (Z.of_nat k * 4096)) as (e & _ & _ & _ & Hv);
      [by apply grown_refl|lia|].
    rewrite <- Z.lor_assoc. pose proof (valid_page_pos p Hpv). destruct Hpv as [Hpal _].
    rewrite PTE_FLAGS_PA2PTE by (unfold parent_perm; rewrite ?PTE_FLAGS_valid by done; done || lia).
    unfold parent_perm. rewrite PTE_FLAGS_valid by done.
    by rewrite (pte_of_same_page _ _ _ va Hk).
  - rewrite (gr_fill _ _ _ _ _ _ _ _ _ _ _ G k p) by (done || divlia).
    unfold parent_byte, page_of. by rewrite (pte_of_same_page _ _ _ va Hk).
Qed.
End Copy.


End VmCopy.

(** ** Example: a parent with one page *)

#[local] Existing Instances kernel_layout kernel_layout_ok.

(** An empty table at [vp 0], five free pages, a byte of data at [vp 3]. *)
Definition mm_parent0 : mm :=
  mkmm hart1
    (wr (st64 (st64 (st64 (st64 ∅ (vp 1) (vp 2)) (vp 2) (vp 5)) (vp 5) (vp 6)) (vp 6) (vp 7))
        (vp 3 + 9) 77)
    (vp 1).

Definition parent0_free : list Z := [vp 1; vp 2; vp 5; vp 6; vp 7].

Lemma parent0_empty i j : i = 0 \/ i = 4 -> 0 <= j < 512 -> ld64 (m_mem mm_parent0) (vp i + 8 * j) = 0.
Proof.
  intros Hi Hj. transitivity (ld64 ∅ (vp i + 8 * j)); [|apply ld64_empty].
  apply ld64_ext. intros k Hk. unfold mm_parent0; cbn [m_mem].
  rewrite rd_wr_ne by (unfold vp, KERNBASE; lia).
  rewrite !rd_st64_ne by (unfold vp, KERNBASE; lia). done.
Qed.

Lemma parent0_inv : vm_inv mm_parent0 (vp 0) {[vp 0 := 2%nat]} parent0_free.
Proof.
  constructor.
  - split; [apply hart1_ok|]. exists "kmem"%string. reflexivity.
  - split_and!; [vm_compute; split_and!; reflexivity| |].
    + apply (bool_decide_unpack _). reflexivity.
    + repeat constructor; apply vp_valid; lia.
  - apply (pt_wf_empty _ (vp 0)); [apply vp_valid; lia|intros; apply parent0_empty; auto].
  - unfold parent0_free. intros p. rewrite !elem_of_cons.
    intros [->|[->|[->|[->|[->|[]%not_elem_of_nil]]]]]; reflexivity.
Qed.

(** The parent's page 0 is mapped to [vp 3]. *)
Definition mm_parent : mm :=
  match mappages (vp 0) 0 PGSIZE (vp 3) 22 mm_parent0 with Ok _ s => s | _ => mm_parent0 end.

Lemma parent_exists :
  exists T l, vm_inv mm_parent (vp 0) T l /\ vm_inv mm_parent (vp 4) {[vp 4 := 2%nat]} l /\
    T !! vp 4 = None /\ T !! vp 3 = None /\ vp 3 ∉ l /\ vp 4 ∉ l /\
    (forall va, 0 <= va < 4096 ->
       pte_of (m_mem mm_parent) (vp 0) va = Z.lor (Z.lor (PA2PTE (vp 3)) 22) PTE_V) /\
    (forall va, pte_of (m_mem mm_parent) (vp 4) va = 0) /\
    (forall va, 4096 <= va < MAXVA -> pte_of (m_mem mm_parent) (vp 0) va = 0).
Proof.
  destruct (mappages_one (vp 0) 0 (vp 3) 22 mm_parent0 _ _ parent0_inv)
    as (r & s & T & l & H1 & H2 & H3 & H4);
    [lia|reflexivity|lia|vm_compute; discriminate..|
     apply (pt_wf_empty _ (vp 0)); [apply vp_valid; lia|intros; apply parent0_empty; auto]|].
  assert (Es : mm_parent = s) by (unfold mm_parent; by rewrite H1).
  assert (r = 0) as ->.
  { apply (f_equal (fun x => match x with Ok r _ => r | _ => 7 end)) in H1.
    vm_compute in H1. symmetry. exact H1. }
  destruct H4 as [[_ Hmap]|[Hr _]]; [|discriminate Hr]. clear H1. rewrite Es. clear Es.
  assert (Hn : forall i, i = 3 \/ i = 4 -> vp i ∉ parent0_free /\ vp i <> vp 0).
  { intros i [->| ->]; (split; [apply (bool_decide_unpack _); reflexivity|discriminate]). }
  assert (HT : forall i, i = 3 \/ i = 4 -> T !! vp i = None /\ vp i ∉ l).
  { intros i Hi. destruct (Hn i Hi) as [Hf H0]. split.
    - destruct (T !! vp i) eqn:E; [|done]. exfalso. apply Hf, (vg_new _ _ _ _ _ _ H3); [eauto|].
      by apply lookup_singleton_ne.
    - rewrite (vg_free _ _ _ _ _ _ H3). tauto. }
  assert (Hz : forall j, 0 <= j < 512 -> ld64 (m_mem s) (vp 4 + 8 * j) = 0).
  { intros j Hj. rewrite <- (parent0_empty 4 j) by auto. apply ld64_ext. intros k Hk.
    apply (vg_frame _ _ _ _ _ _ H3). eapply (not_in_pages (vp 4)); [apply vp_valid; lia| |lia].
    intros q Hq. split; [by eapply (vm_inv_valid mm_parent0), Hq; apply parent0_inv|].
    intros ->. destruct (Hn 4) as [Hf H0]; [auto|]. destruct Hq as [?|[? Hq]]; [done|].
    by rewrite lookup_singleton_ne in Hq. }
  destruct (pt_wf_empty (m_mem s) (vp 4)) as [Hw4 Hp4]; [apply vp_valid; lia|done|].
  exists T, l. destruct (HT 3), (HT 4); [auto..|]. split_and!; [done| |done..| |done|].
  - destruct H2 as [A1 A2 A3 A4]. constructor; [done..|].
    intros q Hq. apply lookup_singleton_ne. by intros <-.
  - intros va Hva. rewrite Hmap by (rewrite MAXVA_val; lia). rewrite decide_True by divlia. done.
  - intros va Hva. rewrite Hmap by lia. rewrite decide_False by divlia.
    apply (pt_wf_empty _ (vp 0)); [apply vp_valid; lia|intros; apply parent0_empty; auto].
Qed.

