(* ===== verification/VmFree.v ===== *)
(** * Freeing an address space

    The specifications of [freewalk] and [uvmfree]
    (src/xv6-os/kernel/vm.c): every page and every table of an address space
    goes back to the free list. *)
From S2P Require Import Prelude CString Spinlock Layout Kalloc Vm VmTable VmMap VmAlloc VmCopy.

Section VmFree.
Context {LY : Layout} {LYok : LayoutOk}.

(** ** The tables of a tree *)

Fixpoint children (f : Z -> list Z) (k : nat) (i : Z) : list Z :=
  match k with
  | O => []
  | S k => f i ++ children f k (i + 1)
  end.

(** The tables of the tree at [t] of level [L], in the order in which
    [freewalk] frees them. *)
Fixpoint table_list (L : nat) (m : mem) (t : Z) : list Z :=
  match L with
  | O => [t]
  | S L =>
      children (fun i => let v := ld64 m (t + 8 * i) in
                         if pte_valid v then table_list L m (PTE2PA v) else []) 512 0 ++ [t]
  end.

Definition subtree (L : nat) (m : mem) (t i : Z) : list Z :=
  let v := ld64 m (t + 8 * i) in
  if pte_valid v then table_list L m (PTE2PA v) else [].

Lemma table_list_S L m t : table_list (S L) m t = children (subtree L m t) 512 0 ++ [t].
Proof. reflexivity. Qed.
#[local] Opaque children.

(** A tree without leaves: the entries of the lowest tables are not valid,
    the valid ones above have no permissions. *)
Fixpoint tree_ok (L : nat) (m : mem) (t : Z) : Prop :=
  valid_page t /\
  forall i, 0 <= i < 512 -> let v := ld64 m (t + 8 * i) in
    match L with
    | O => pte_valid v = false
    | S L => pte_valid v = true -> Z.land v rwx = 0 /\ tree_ok L m (PTE2PA v)
    end.

Lemma children_elem f k i q :
  q ∈ children f k i <-> exists j, i <= j < i + Z.of_nat k /\ q ∈ f j.
Proof.
  #[local] Transparent children.
  revert i. induction k as [|k IH]; intros i; cbn [children].
  - rewrite elem_of_nil. split; [done|]. intros (j & ? & _). lia.
  - rewrite elem_of_app, IH. split.
    + intros [H|(j & ? & H)]; [exists i|exists j]; (split; [lia|done]).
    + intros (j & Hj & H). destruct (decide (j = i)) as [->|]; [by left|right].
      exists j. split; [lia|done].
  #[local] Opaque children.
Qed.

Lemma children_ext f g k i :
  (forall j, i <= j < i + Z.of_nat k -> f j = g j) -> children f k i = children g k i.
Proof.
  #[local] Transparent children.
  revert i. induction k as [|k IH]; intros i H; cbn [children]; [done|].
  rewrite H by lia. f_equal. apply IH. intros j Hj. apply H. lia.
  #[local] Opaque children.
Qed.

Lemma children_NoDup f k i :
  (forall j, i <= j < i + Z.of_nat k -> NoDup (f j)) ->
  (forall j j' q, i <= j < j' -> j' < i + Z.of_nat k -> q ∈ f j -> q ∈ f j' -> False) ->
  NoDup (children f k i).
Proof.
  #[local] Transparent children.
  revert i. induction k as [|k IH]; intros i H1 H2; cbn [children]; [constructor|].
  apply NoDup_app. split_and!; [apply H1; lia| |].
  - intros q Hq (j & Hj & Hq')%children_elem. apply (H2 i j q); (done || lia).
  - apply IH; [intros j Hj; apply H1; lia|]. intros j j' q Hj Hj' Hq Hq'.
    apply (H2 j j' q); (done || lia).
  #[local] Opaque children.
Qed.

Lemma table_list_self L m t : t ∈ table_list L m t.
Proof.
  destruct L; cbn [table_list]; [by left|]. rewrite elem_of_app, list_elem_of_singleton. auto.
Qed.

Lemma subtree_in L m t i q :
  0 <= i < 512 -> q ∈ subtree L m t i -> q ∈ table_list (S L) m t.
Proof.
  intros Hi Hq. rewrite table_list_S, elem_of_app. left. apply children_elem. exists i.
  split; [lia|done].
Qed.

(** The tree depends on the bytes of its tables only. *)
Lemma tree_ext L m m' t :
  (forall q b, q ∈ table_list L m t -> q <= b < q + 4096 -> rd m' b = rd m b) ->
  table_list L m' t = table_list L m t /\ (tree_ok L m t -> tree_ok L m' t).
Proof.
  revert t. induction L as [|L IH]; intros t H.
  - split; [done|]. intros [Hv Ht]. split; [done|]. intros i Hi v. unfold v.
    rewrite (ld64_page m m'); [by apply Ht|done|]. intros b. apply H. by left.
  - assert (He : forall i, 0 <= i < 512 -> ld64 m' (t + 8 * i) = ld64 m (t + 8 * i)).
    { intros i Hi. apply ld64_page; [done|]. intros b. apply H, table_list_self. }
    assert (Hsub : forall i, 0 <= i < 512 -> pte_valid (ld64 m (t + 8 * i)) = true ->
      table_list L m' (PTE2PA (ld64 m (t + 8 * i))) = table_list L m (PTE2PA (ld64 m (t + 8 * i))) /\
      (tree_ok L m (PTE2PA (ld64 m (t + 8 * i))) -> tree_ok L m' (PTE2PA (ld64 m (t + 8 * i))))).
    { intros i Hi Hv. apply IH. intros q b Hq. apply H. apply (subtree_in L m t i); [done|].
      unfold subtree. by rewrite Hv. }
    split.
    + rewrite !table_list_S. f_equal. apply children_ext. intros j Hj. unfold subtree.
      rewrite He by lia. destruct (pte_valid _) eqn:Hv; [|done]. apply Hsub; [lia|done].
    + intros [Hv Ht]. split; [done|]. intros i Hi v. unfold v. rewrite He by done. intros Hvi.
      destruct (Ht i Hi Hvi). split; [done|]. by apply Hsub.
Qed.

(** ** freewalk *)

(** From [s] to [s'] the pages [ps] were freed, in this order. *)
Record gave (s s' : mm) (ps l : list Z) (b0 b1 : Z) : Prop := {
  gv_ok : mm_ok s';
  gv_kmem : kmem_inv s' (rev ps ++ l);
  gv_frame : forall b, ~ in_pages b (fun q => q ∈ ps) -> ~ (b0 <= b < b1) ->
    rd (m_mem s') b = rd (m_mem s) b;
}.

(** What freeing a tree does; [freewalk_spec] below. *)
Definition frees (L : nat) : Prop := forall t s l,
  tree_ok L (m_mem s) t -> NoDup (table_list L (m_mem s) t) ->
  (forall q, q ∈ table_list L (m_mem s) t -> q ∉ l) -> mm_ok s -> kmem_inv s l ->
  exists s', freewalk (S L) t s = Ok tt s' /\ gave s s' (table_list L (m_mem s) t) l 0 0.

Lemma tree_ok_valid L m t q : tree_ok L m t -> q ∈ table_list L m t -> valid_page q.
Proof.
  revert t. induction L as [|L IH]; intros t [Hv Ht] Hq.
  - cbn in Hq. apply list_elem_of_singleton in Hq as ->. done.
  - rewrite table_list_S, elem_of_app, list_elem_of_singleton in Hq.
    destruct Hq as [(j & Hj & Hq)%children_elem| ->]; [|done]. unfold subtree in Hq.
    destruct (pte_valid _) eqn:E; [|by apply not_elem_of_nil in Hq].
    destruct (Ht j) as [_ Hc]; [lia|done|]. by eapply IH.
Qed.

(** Storing into the free pages' complement keeps the free list. *)
Lemma kmem_inv_store h m r l a v :
  kmem_inv (mkmm h m r) l -> (forall q, q ∈ l -> a + 8 <= q \/ q + 8 <= a) ->
  kmem_inv (mkmm h (st64 m a v) r) l.
Proof.
  intros (Hf & Hnd & Hv) Ha. split_and!; [|done..]. cbn in *.
  eapply flist_ext; [|done]. intros p Hp. apply ld64_st64_ne. specialize (Ha p Hp). lia.
Qed.

(** The entries of a table of level [S L] from [i] on point to trees. *)
Definition entries_ok (L : nat) (m : mem) (t i : Z) : Prop :=
  forall j, i <= j < 512 -> pte_valid (ld64 m (t + 8 * j)) = true ->
    Z.land (ld64 m (t + 8 * j)) rwx = 0 /\ tree_ok L m (PTE2PA (ld64 m (t + 8 * j))).

Lemma subtree_valid L m t i j q :
  entries_ok L m t i -> i <= j < 512 -> q ∈ subtree L m t j -> valid_page q.
Proof.
  intros Hok Hj. unfold subtree. destruct (pte_valid _) eqn:E; [|by intros ?%not_elem_of_nil].
  destruct (Hok j Hj E) as [_ Ht]. by apply tree_ok_valid.
Qed.

(** Freeing the tree below entry [i] of [t] and clearing the entry leaves the
    trees below the later entries. *)
Lemma entries_after L m m1 t k i :
  valid_page t -> 0 <= i -> i + 1 + Z.of_nat k = 512 -> entries_ok L m t i ->
  NoDup (subtree L m t i ++ children (subtree L m t) k (i + 1)) ->
  (forall q, q ∈ subtree L m t i ++ children (subtree L m t) k (i + 1) -> q <> t) ->
  (forall b, ~ in_pages b (fun q => q ∈ subtree L m t i) ->
     ~ (t + 8 * i <= b < t + 8 * i + 8) -> rd m1 b = rd m b) ->
  children (subtree L m1 t) k (i + 1) = children (subtree L m t) k (i + 1) /\
  entries_ok L m1 t (i + 1).
Proof.
  intros Hvt Hi Hk Hok (_ & Hdis & _)%NoDup_app Hct Hfr.
  assert (Hsub : forall q, q ∈ subtree L m t i -> valid_page q /\ q <> t).
  { intros q Hq. split; [eapply (subtree_valid L m t i i); (done || lia)|].
    apply Hct. rewrite elem_of_app. auto. }
  assert (He : forall j, i + 1 <= j < 512 -> ld64 m1 (t + 8 * j) = ld64 m (t + 8 * j)).
  { intros j Hj. apply ld64_ext. intros o Ho. apply Hfr; [|lia].
    eapply (not_in_pages t); [done| |lia]. intros q Hq. by apply Hsub. }
  assert (Hx : forall j, i + 1 <= j < 512 -> pte_valid (ld64 m (t + 8 * j)) = true ->
    let c := PTE2PA (ld64 m (t + 8 * j)) in
    table_list L m1 c = table_list L m c /\ (tree_ok L m c -> tree_ok L m1 c)).
  { intros j Hj Hv c. apply tree_ext. intros q b Hq Hb.
    assert (Hqj : q ∈ subtree L m t j) by (unfold subtree; by rewrite Hv).
    assert (Hqc : q ∈ children (subtree L m t) k (i + 1)).
    { apply children_elem. exists j. split; [lia|done]. }
    assert (Hqv : valid_page q) by (eapply (subtree_valid L m t i j); (done || lia)).
    apply Hfr.
    - eapply (not_in_pages q); [done| |done]. intros q' Hq'. split; [by apply Hsub|].
      intros ->. by apply (Hdis q Hq').
    - assert (q <> t) by (apply Hct; rewrite elem_of_app; auto).
      destruct (valid_page_disjoint q t); [done..|lia|lia]. }
  split.
  - apply children_ext. intros j Hj. unfold subtree. rewrite He by lia.
    destruct (pte_valid _) eqn:Hv; [|done]. apply Hx; [lia|done].
  - intros j Hj. rewrite He by done. intros Hv. destruct (Hok j) as [H1 H2]; [lia|done|].
    split; [done|]. by apply Hx.
Qed.

(** One round: the tree below entry [i] is freed. *)
Lemma freewalk_round L t k i s l :
  frees L -> valid_page t -> 0 <= i < 512 -> entries_ok L (m_mem s) t i ->
  let c := subtree L (m_mem s) t i in
  NoDup c -> (forall q, q ∈ c -> q ∉ l /\ q <> t) -> t ∉ l -> mm_ok s -> kmem_inv s l ->
  exists s1, freewalk_loop (freewalk (S L)) (S k) t i s =
      freewalk_loop (freewalk (S L)) k t (i + 1) s1 /\
    gave s s1 c l (t + 8 * i) (t + 8 * i + 8).
Proof.
  intros HL Hvt Hi Hok c Hnd Hc Htl Hmm Hkm. unfold c in *. clear c. unfold subtree in *.
  cbn [freewalk_loop]. unfold load64. rewrite bind_gets.
  set (v := ld64 (m_mem s) (t + 8 * i)) in *. unfold pte_valid in *.
  destruct (Z.land v PTE_V =? 0) eqn:Hv; cbn [negb andb] in *.
  { rewrite bind_ret. exists s. split; [done|]. by constructor. }
  destruct (Hok i) as [Hz Ht]; [lia|unfold pte_valid; fold v; by rewrite Hv|]. fold v in Hz, Ht.
  fold rwx. rewrite Hz. cbn [Z.eqb].
  destruct (HL (PTE2PA v) s l) as (s1 & E1 & [Hok1 Hkm1 Hfr1]); [done..|by apply Hc|done|done|].
  unfold store64, upd_mem. rewrite bind_assoc, (bind_ok _ _ _ _ _ E1). autorewrite with mdb.
  destruct s1 as [h1 m1 r1]. unfold set_mem; cbn [m_mem m_hart freelist] in *.
  eexists. split; [done|]. constructor; [done| |].
  - apply kmem_inv_store; [done|]. intros q Hq.
    destruct Hkm1 as (_ & _ & Hvl). rewrite Forall_forall in Hvl. pose proof (Hvl q Hq).
    assert (q <> t).
    { rewrite elem_of_app, elem_of_rev in Hq. destruct Hq as [Hq|Hq]; [by apply Hc|by intros ->]. }
    destruct (valid_page_disjoint q t); [done..|lia|lia].
  - cbn [m_mem]. intros b Hb Hb'. rewrite (rd_st64_ne m1) by lia. apply Hfr1; [done|lia].
Qed.

(** The loop over a table of level [S L], from entry [i] on. *)
Lemma freewalk_loop_spec L t k i s l :
  frees L -> valid_page t -> 0 <= i -> i + Z.of_nat k = 512 -> entries_ok L (m_mem s) t i ->
  let cs := children (subtree L (m_mem s) t) k i in
  NoDup cs -> (forall q, q ∈ cs -> q ∉ l /\ q <> t) -> t ∉ l -> mm_ok s -> kmem_inv s l ->
  exists s', freewalk_loop (freewalk (S L)) k t i s = Ok tt s' /\
    gave s s' cs l t (t + 4096).
Proof.
  intros HL Hvt. revert i s l.
  induction k as [|k IH]; intros i s l Hi Hk Hok cs Hnd Hcs Htl Hmm Hkm.
  { exists s. split; [done|]. unfold cs. #[local] Transparent children. cbn [children].
    constructor; [done..|]. intros b _ _. done. }
  unfold cs in *. clear cs. cbn [children] in *. #[local] Opaque children.
  set (c := subtree L (m_mem s) t i) in *. pose proof (proj1 (NoDup_app _ _) Hnd) as (Hnd1 & Hdis & Hnd2).
  assert (Hc : forall q, q ∈ c -> q ∉ l /\ q <> t) by (intros q Hq; apply Hcs; rewrite elem_of_app; auto).
  destruct (freewalk_round L t k i s l HL Hvt) as (s1 & E1 & [G1 G2 G3]); [lia|done..|].
  fold c in G2, G3.
  destruct (entries_after L (m_mem s) (m_mem s1) t k i) as [Hce He];
    [done..|lia|done|done|intros q Hq; by apply Hcs|exact G3|].
  destruct (IH (i + 1) s1 (rev c ++ l)) as (s' & E' & [F1 F2 F3]); [lia|lia|done|..].
  - by rewrite Hce.
  - rewrite Hce. intros q Hq. destruct (Hcs q) as [H1 H2]; [rewrite elem_of_app; auto|].
    split; [|done]. rewrite elem_of_app, elem_of_rev. intros [?|?]; [|done]. by apply (Hdis q).
  - rewrite elem_of_app, elem_of_rev. intros [Hq|?]; [|done]. by apply (Hc t Hq).
  - done.
  - done.
  - rewrite Hce in *. exists s'. split; [by rewrite E1|]. constructor; [done| |].
    + rewrite rev_app_distr, <- app_assoc. exact F2.
    + intros b Hb Hb'. rewrite F3, G3; [done|..|done]; [|lia|];
        intros (q & ? & ?); apply Hb; exists q; rewrite elem_of_app; auto.
Qed.

(** A table without valid entries. *)
Lemma freewalk_loop_empty f t k i s :
  0 <= i -> i + Z.of_nat k = 512 ->
  (forall j, 0 <= j < 512 -> pte_valid (ld64 (m_mem s) (t + 8 * j)) = false) ->
  freewalk_loop f k t i s = Ok tt s.
Proof.
  revert i. induction k as [|k IH]; intros i Hi Hk Hz; cbn [freewalk_loop]; [done|].
  unfold load64. rewrite bind_gets. specialize (Hz i ltac:(lia)) as Hzi. unfold pte_valid in Hzi.
  rewrite Hzi. cbn [andb]. rewrite bind_ret. apply IH; [lia..|done].
Qed.

(** [kfree] of the table itself, after the pages below. *)
Lemma gave_self s s1 t cs l :
  gave s s1 cs l t (t + 4096) -> valid_page t -> t ∉ cs -> t ∉ l ->
  exists s', kfree t s1 = Ok tt s' /\ gave s s' (cs ++ [t]) l 0 0.
Proof.
  intros [G1 G2 G3] Hv Hn Hl. destruct s1 as [h m r]. eexists. split; [by apply kfree_valid|].
  constructor.
  - by eapply mm_ok_settle.
  - rewrite rev_app_distr. apply kmem_inv_free; [done..|].
    rewrite elem_of_app, elem_of_rev. tauto.
  - cbn [m_mem] in *. intros b Hb _.
    assert (~ (t <= b < t + 4096)).
    { intros ?. apply Hb. exists t. rewrite elem_of_app, list_elem_of_singleton. auto. }
    rewrite rd_st64_ne, rd_memset_out by lia. apply G3; [|done].
    intros (q & ? & ?). apply Hb. exists q. rewrite elem_of_app. auto.
Qed.

Lemma freewalk_spec L : frees L.
Proof.
  induction L as [|L IH]; intros t s l [Hv Ht] Hnd Hl Hmm Hkm.
  - change (freewalk 1 t) with (freewalk_loop (freewalk 0) 512 t 0 ;;; kfree t).
    rewrite (bind_ok _ _ _ _ _ (freewalk_loop_empty (freewalk 0) t 512 0 s ltac:(lia) eq_refl Ht)).
    apply (gave_self s s t []); [by constructor|done|by apply not_elem_of_nil|].
    apply Hl. by left.
  - change (freewalk (S (S L)) t) with (freewalk_loop (freewalk (S L)) 512 t 0 ;;; kfree t).
    rewrite table_list_S in *. apply NoDup_app in Hnd as (Hnd & Hdis & _).
    assert (Htn : t ∉ children (subtree L (m_mem s) t) 512 0).
    { intros Hin. apply (Hdis t Hin). by left. }
    assert (Htl : t ∉ l) by (apply Hl; rewrite elem_of_app, list_elem_of_singleton; auto).
    destruct (freewalk_loop_spec L t 512 0 s l IH Hv) as (s1 & E1 & G1); [lia|done|exact Ht|done|..].
    { intros q Hq. split; [apply Hl; rewrite elem_of_app; auto|by intros ->]. }
    { done. } { done. } { done. }
    rewrite (bind_ok _ _ _ _ _ E1). by apply (gave_self s s1 t).
Qed.

(** ** Trees of a well-formed page table *)

Lemma wf_tree m root T L t :
  pt_wf m root T ->
  (forall t i, T !! t = Some 0%nat -> 0 <= i < 512 -> pte_valid (ld64 m (t + 8 * i)) = false) ->
  T !! t = Some L -> tree_ok L m t.
Proof.
  intros Hwf Hz. revert t. induction L as [|L IH]; intros t Ht; cbn [tree_ok].
  - split; [by eapply wf_page|]. intros i Hi. by apply Hz.
  - split; [by eapply wf_page|]. intros i Hi Hv. split; [by eapply wf_perm|].
    by apply IH, (wf_child _ _ _ Hwf _ _ _ Ht).
Qed.

(** The tables of a tree are tables of at most its level. *)
Lemma table_list_level m root T L t q :
  pt_wf m root T -> T !! t = Some L -> q ∈ table_list L m t ->
  exists L', T !! q = Some L' /\ (L' <= L)%nat /\ (L' = L -> q = t).
Proof.
  intros Hwf. revert t. induction L as [|L IH]; intros t Ht Hq.
  - cbn in Hq. apply list_elem_of_singleton in Hq as ->. eauto.
  - rewrite table_list_S, elem_of_app, list_elem_of_singleton in Hq.
    destruct Hq as [(j & Hj & Hq)%children_elem| ->]; [|by eauto].
    unfold subtree in Hq. destruct (pte_valid _) eqn:Hv; [|by apply not_elem_of_nil in Hq].
    destruct (IH _ (wf_child _ _ _ Hwf _ _ j Ht ltac:(lia) Hv) Hq) as (L' & ? & ? & _).
    exists L'. split_and!; [done|lia|lia].
Qed.

Lemma table_list_disjoint m root T L t t' q :
  pt_wf m root T -> T !! t = Some L -> T !! t' = Some L ->
  q ∈ table_list L m t -> q ∈ table_list L m t' -> t = t'.
Proof.
  intros Hwf. revert t t'. induction L as [|L IH]; intros t t' Ht Ht' Hq Hq'.
  { apply list_elem_of_singleton in Hq, Hq'. congruence. }
  destruct (table_list_level m root T (S L) t q Hwf Ht Hq) as (Lq & HLq & Hle & Heq).
  destruct (table_list_level m root T (S L) t' q Hwf Ht' Hq') as (Lq' & HLq' & Hle' & Heq').
  replace Lq' with Lq in * by congruence.
  destruct (decide (Lq = S L)) as [E|Hne]; [by rewrite <- (Heq E), <- (Heq' E)|].
  rewrite table_list_S, elem_of_app, list_elem_of_singleton in Hq, Hq'.
  destruct Hq as [(j & Hj & Hq)%children_elem| ->]; [|congruence].
  destruct Hq' as [(j' & Hj' & Hq')%children_elem| ->]; [|congruence].
  unfold subtree in Hq, Hq'.
  destruct (pte_valid (ld64 m (t + 8 * j))) eqn:Hv; [|by apply not_elem_of_nil in Hq].
  destruct (pte_valid (ld64 m (t' + 8 * j'))) eqn:Hv'; [|by apply not_elem_of_nil in Hq'].
  pose proof (IH _ _ (wf_child _ _ _ Hwf _ _ j Ht ltac:(lia) Hv)
    (wf_child _ _ _ Hwf _ _ j' Ht' ltac:(lia) Hv') Hq Hq') as E.
  eapply (wf_inj _ _ _ Hwf _ _ _ _ j j' Ht Ht'); (done || lia).
Qed.

Lemma table_list_NoDup m root T L t :
  pt_wf m root T -> T !! t = Some L -> NoDup (table_list L m t).
Proof.
  intros Hwf. revert t. induction L as [|L IH]; intros t Ht; [apply NoDup_singleton|].
  rewrite table_list_S.
  assert (Hc : forall j, 0 <= j < 512 -> pte_valid (ld64 m (t + 8 * j)) = true ->
    T !! PTE2PA (ld64 m (t + 8 * j)) = Some L) by (intros; by eapply wf_child).
  apply NoDup_app. split_and!; [apply children_NoDup| |apply NoDup_singleton].
  - intros j Hj. unfold subtree. destruct (pte_valid _) eqn:Hv; [|constructor].
    apply IH, Hc; [lia|done].
  - intros j j' q Hj Hj'. unfold subtree.
    destruct (pte_valid (ld64 m (t + 8 * j))) eqn:Hv; [|by intros ?%not_elem_of_nil].
    destruct (pte_valid (ld64 m (t + 8 * j'))) eqn:Hv'; [|by intros _ ?%not_elem_of_nil].
    intros Hq Hq'. pose proof (table_list_disjoint m root T L _ _ q Hwf (Hc j ltac:(lia) Hv)
      (Hc j' ltac:(lia) Hv') Hq Hq') as E.
    destruct (wf_inj _ _ _ Hwf _ _ _ _ j j' Ht Ht) as [_ ?]; (done || lia).
  - intros q (j & Hj & Hq)%children_elem ->%list_elem_of_singleton. unfold subtree in Hq.
    destruct (pte_valid _) eqn:Hv; [|by apply not_elem_of_nil in Hq].
    destruct (table_list_level m root T L _ t Hwf (Hc j ltac:(lia) Hv) Hq) as (L' & ? & ? & _).
    assert (L' = S L) by congruence. lia.
Qed.

(** Every table is reached from the root. *)
Lemma table_root m root T t : pt_wf m root T -> T !! t = Some 2%nat -> t = root.
Proof.
  intros Hwf Ht. destruct (wf_parent _ _ _ Hwf t _ Ht) as [?|(t' & i & Ht' & _)]; [done|].
  pose proof (wf_level _ _ _ Hwf _ _ Ht'). lia.
Qed.

Lemma table_below m root T t L :
  pt_wf m root T -> T !! t = Some L -> (L < 2)%nat -> exists t' i,
    T !! t' = Some (S L) /\ 0 <= i < 512 /\ pte_valid (ld64 m (t' + 8 * i)) = true /\
    PTE2PA (ld64 m (t' + 8 * i)) = t.
Proof.
  intros Hwf Ht HL. destruct (wf_parent _ _ _ Hwf t _ Ht) as [->|?]; [|done].
  rewrite (wf_root _ _ _ Hwf) in Ht. injection Ht as <-. lia.
Qed.

Lemma table_complete m root T t L :
  pt_wf m root T -> T !! t = Some L -> t ∈ table_list 2 m root.
Proof.
  intros Hwf Ht.
  assert (H1 : forall t, T !! t = Some 1%nat -> exists i, 0 <= i < 512 /\
    pte_valid (ld64 m (root + 8 * i)) = true /\ PTE2PA (ld64 m (root + 8 * i)) = t).
  { intros t1 Ht1. destruct (table_below _ _ _ _ _ Hwf Ht1) as (t' & i & Ht' & Hi & Hv & Hpa); [lia|].
    rewrite (table_root _ _ _ _ Hwf Ht') in *. eauto. }
  assert (Hin : forall i q, 0 <= i < 512 -> pte_valid (ld64 m (root + 8 * i)) = true ->
    q ∈ table_list 1 m (PTE2PA (ld64 m (root + 8 * i))) -> q ∈ table_list 2 m root).
  { intros i q Hi Hv Hq. apply (subtree_in 1 m root i); [done|]. unfold subtree. by rewrite Hv. }
  pose proof (wf_level _ _ _ Hwf _ _ Ht). destruct L as [|[|[|L]]]; [| | |lia].
  - destruct (table_below _ _ _ _ _ Hwf Ht) as (t1 & i & Ht1 & Hi & Hv & Hpa); [lia|].
    destruct (H1 t1 Ht1) as (i1 & Hi1 & Hv1 & Hpa1). apply (Hin i1); [done..|]. rewrite Hpa1.
    apply (subtree_in 0 m t1 i); [done|]. unfold subtree. rewrite Hv, Hpa. by left.
  - destruct (H1 t Ht) as (i1 & Hi1 & Hv1 & Hpa1). apply (Hin i1); [done..|]. rewrite Hpa1.
    apply table_list_self.
  - rewrite (table_root _ _ _ _ Hwf Ht). apply table_list_self.
Qed.

(** The addresses whose entries are in the lowest table [t]. *)
Lemma leaf_address m root T t i :
  pt_wf m root T -> T !! t = Some 0%nat -> 0 <= i < 512 ->
  exists va, 0 <= va < MAXVA /\ walk_to 2 m root va = Some t /\ PX 0 va = i.
Proof.
  intros Hwf Ht Hi. rewrite MAXVA_val.
  destruct (table_below _ _ _ _ _ Hwf Ht) as (t1 & i1 & Ht1 & Hi1 & Hv1 & Hpa1); [lia|].
  destruct (table_below _ _ _ _ _ Hwf Ht1) as (t2 & i2 & Ht2 & Hi2 & Hv2 & Hpa2); [lia|].
  rewrite (table_root _ _ _ _ Hwf Ht2) in *.
  assert (i2 < 256).
  { destruct (decide (i2 < 256)); [done|]. rewrite (wf_high _ _ _ Hwf) in Hv2; [done|lia]. }
  set (va := i2 * 1073741824 + i1 * 2097152 + i * 4096). exists va.
  assert (E2 : PX (Z.of_nat 2) va = i2).
  { rewrite PX_eq by lia. change (2 ^ (12 + 9 * Z.of_nat 2)) with 1073741824. unfold va. divlia. }
  assert (E1 : PX (Z.of_nat 1) va = i1).
  { rewrite PX_eq by lia. change (2 ^ (12 + 9 * Z.of_nat 1)) with 2097152. unfold va. divlia. }
  split; [unfold va; lia|]. split.
  - cbn [walk_to]. rewrite E2, E1, Hv2, Hpa2, Hv1, Hpa1. done.
  - rewrite PX_eq by lia. change (2 ^ (12 + 9 * 0)) with 4096. unfold va. divlia.
Qed.

(** Freeing the tables of a page table that maps nothing. *)
Lemma freewalk_all root T s l :
  vm_inv s root T l -> (forall va, 0 <= va < MAXVA -> pte_of (m_mem s) root va = 0) ->
  exists s', freewalk 3 root s = Ok tt s' /\ gave s s' (table_list 2 (m_mem s) root) l 0 0 /\
    forall q, q ∈ table_list 2 (m_mem s) root <-> is_Some (T !! q).
Proof.
  intros [Hok Hk Hwf Hd] Hz.
  assert (Hel : forall q, q ∈ table_list 2 (m_mem s) root <-> is_Some (T !! q)).
  { intros q. split; [|intros [L HL]; by eapply table_complete].
    intros Hq. destruct (table_list_level _ _ _ _ _ _ Hwf (wf_root _ _ _ Hwf) Hq) as (L & ? & _). eauto. }
  destruct (freewalk_spec 2 root s l) as (s' & E & G); [| | |done|done|].
  - eapply wf_tree; [done| |by eapply wf_root]. intros t i Ht Hi.
    destruct (leaf_address _ _ _ t i Hwf Ht Hi) as (va & Hva & Hw & <-).
    apply (pte_of_zero_entry _ root); auto.
  - eapply table_list_NoDup; [done|by eapply wf_root].
  - intros q [L HL]%Hel Hin. rewrite (Hd q Hin) in HL. done.
  - exists s'. auto.
Qed.

(** C11. [uvmfree] gives back a whole address space and nothing else. When
    every page below [sz] is mapped to a page of its own and nothing is mapped
    above, it never panics: each of these pages and each page of the page
    table is put on the free list, exactly once, the pages that were free
    stay free, and no byte outside the freed pages changes. *)
Theorem uvmfree_correct (root sz : Z) (s : mm) (T : gmap Z nat) (l : list Z)
    (Hs : vm_inv s root T l) (Hsz : 0 <= sz <= MAXVA)
    (Hun : forall va, 0 <= va < PGROUNDUP sz -> unmappable s root T l true va)
    (Hnd : NoDup (run_pages (m_mem s) root 0 (Z.to_nat (PGROUNDUP sz / 4096))))
    (Hrest : forall va, PGROUNDUP sz <= va < MAXVA -> pte_of (m_mem s) root va = 0) :
  exists s' ps, uvmfree root sz s = Ok tt s' /\ mm_ok s' /\ kmem_inv s' (ps ++ l) /\
    (forall p, p ∈ ps <->
       p ∈ run_pages (m_mem s) root 0 (Z.to_nat (PGROUNDUP sz / 4096)) \/ is_Some (T !! p)) /\
    (forall b, ~ in_pages b (fun q => q ∈ ps) -> rd (m_mem s') b = rd (m_mem s) b).
Proof.
  assert (HM : MAXVA = 274877906944) by done. rewrite PGROUNDUP_small in * by lia.
  set (e := (sz + 4095) / 4096 * 4096) in *.
  set (n := Z.to_nat (e / 4096)) in *. assert (He : e = Z.of_nat n * 4096) by (unfold n, e; divlia).
  assert (Hn : e / 4096 = Z.of_nat n) by (rewrite He; apply Z.div_mul; lia).
  assert (HeM : e <= MAXVA) by (unfold e; divlia).
  destruct (uvmunmap_loop_spec root true n 0 s T l) as (s1 & E & H1 & H2 & H3);
    [done|lia|lia|done|intros k Hk; apply Hun; lia|done|].
  destruct (freewalk_all root T s1 _ H1) as (s' & E' & [G1 G2 G3] & Hel).
  { intros va Hva. rewrite H2 by done. case_decide; [done|]. apply Hrest. lia. }
  exists s', (rev (table_list 2 (m_mem s1) root) ++ rev (run_pages (m_mem s) root 0 n)).
  split_and!; [|done| | |].
  - unfold uvmfree. rewrite PGROUNDUP_small by lia. fold e. rewrite Hn.
    destruct (Z.ltb_spec 0 sz); cbn [when].
    + rewrite (bind_ok _ _ _ tt s1); [done|]. unfold uvmunmap.
      change (0 mod 4096) with 0. cbn [Z.eqb negb]. rewrite u64_small, Nat2Z.id by lia. done.
    + assert (n = 0%nat) as -> by (unfold n, e; divlia). cbn in E. injection E as <-. done.
  - rewrite <- app_assoc. done.
  - intros p. rewrite elem_of_app, !elem_of_rev, Hel. tauto.
  - intros b Hb. rewrite G3; [apply H3|..|lia]; intros (q & Hq & Hr); apply Hb; exists q;
      (split; [|done]); rewrite elem_of_app, !elem_of_rev, Hel.
    + cbn [freed] in Hq. rewrite elem_of_rev in Hq. tauto.
    + rewrite Hel in Hq. tauto.
Qed.

End VmFree.

(** ** Example: the parent of [VmCopy], with one page and three tables *)

#[local] Existing Instances kernel_layout kernel_layout_ok.

Lemma uvmfree_correct_witness :
  exists s' T l ps, vm_inv mm_parent (vp 0) T l /\ uvmfree (vp 0) 4096 mm_parent = Ok tt s' /\
    kmem_inv s' (ps ++ l) /\ vp 3 ∈ ps /\ vp 0 ∈ ps.
Proof.
  destruct parent_exists as (T & l & Hp & _ & _ & HT3 & Hl3 & _ & Hpte & _ & Hrest).
  assert (Hpa : PTE2PA (Z.lor (Z.lor (PA2PTE (vp 3)) 22) PTE_V) = vp 3) by reflexivity.
  assert (Hr : PGROUNDUP 4096 = 4096) by reflexivity.
  assert (Hrun : run_pages (m_mem mm_parent) (vp 0) 0 1 = [vp 3]).
  { cbn [run_pages]. unfold page_of. rewrite (Hpte 0), Hpa by lia. reflexivity. }
  assert (Hn : Z.to_nat (PGROUNDUP 4096 / 4096) = 1%nat) by reflexivity.
  destruct (uvmfree_correct (vp 0) 4096 mm_parent T l Hp) as (s' & ps & E & _ & Hk & Hps & _).
  - vm_compute. split; discriminate.
  - rewrite Hr. intros va Hva. unfold unmappable. rewrite (Hpte va Hva), Hpa.
    split_and!; [discriminate..|]. intros _. split_and!; [apply vp_valid; lia|exact HT3|exact Hl3].
  - rewrite Hn, Hrun. apply NoDup_singleton.
  - rewrite Hr. exact Hrest.
  - rewrite Hn, Hrun in Hps. exists s', T, l, ps. split_and!; [exact Hp|exact E|exact Hk|..]; apply Hps.
    + left. by left.
    + right. eexists. apply (wf_root _ _ _ (vi_wf _ _ _ _ Hp)).
Defined.
