(* ===== verification/Proc.v ===== *)
(** * Processes

    Models [src/xv6-os/kernel/proc.c] and [struct proc] of [proc.h], except
    the routines that call the file system ([fork], [exit], [userinit] and
    [forkret]). A process is an index of [proc[]]; the address a process
    sleeps on is the name of the variable with an index or address. [swtch] in
    [sched] gives up the processor: the routine goes on from the state in
    which the scheduler runs the process again. *)
From S2P Require Import Prelude CString Spinlock Layout Kalloc Vm.

(** ** Data *)

Inductive procstate := UNUSED | USED | SLEEPING | RUNNABLE | RUNNING | ZOMBIE.

#[export] Instance procstate_eq_dec : EqDecision procstate.
Proof. solve_decision. Defined.

(** An address processes sleep on; [None] is 0. *)
Notation chan := (option (string * Z)).

(** The saved registers that C code sets; the others belong to [swtch.S]. *)
Record context := mkcontext {
  ctx_ra : option string;
  ctx_sp : Z;
}.

Record proc := mkproc {
  p_state : procstate;
  p_chan : chan;
  p_killed : Z;
  p_xstate : Z;
  p_pid : Z;
  p_parent : option nat;
  p_kstack : Z;
  p_sz : Z;
  p_pagetable : Z;
  p_trapframe : Z;
  p_context : context;
  p_ofile : list (option nat);
  p_cwd : option nat;
  p_name : list Z;
}.

Definition proc0 : proc :=
  mkproc UNUSED None 0 0 0 None 0 0 0 0 (mkcontext None 0) (replicate NOFILE None) None [].

Section Setters.
Implicit Types p : proc.
Definition set_state x p := mkproc x (p_chan p) (p_killed p) (p_xstate p) (p_pid p) (p_parent p)
  (p_kstack p) (p_sz p) (p_pagetable p) (p_trapframe p) (p_context p) (p_ofile p) (p_cwd p) (p_name p).
Definition set_chan x p := mkproc (p_state p) x (p_killed p) (p_xstate p) (p_pid p) (p_parent p)
  (p_kstack p) (p_sz p) (p_pagetable p) (p_trapframe p) (p_context p) (p_ofile p) (p_cwd p) (p_name p).
Definition set_killed x p := mkproc (p_state p) (p_chan p) x (p_xstate p) (p_pid p) (p_parent p)
  (p_kstack p) (p_sz p) (p_pagetable p) (p_trapframe p) (p_context p) (p_ofile p) (p_cwd p) (p_name p).
Definition set_xstate x p := mkproc (p_state p) (p_chan p) (p_killed p) x (p_pid p) (p_parent p)
  (p_kstack p) (p_sz p) (p_pagetable p) (p_trapframe p) (p_context p) (p_ofile p) (p_cwd p) (p_name p).
Definition set_pid x p := mkproc (p_state p) (p_chan p) (p_killed p) (p_xstate p) x (p_parent p)
  (p_kstack p) (p_sz p) (p_pagetable p) (p_trapframe p) (p_context p) (p_ofile p) (p_cwd p) (p_name p).
Definition set_parent x p := mkproc (p_state p) (p_chan p) (p_killed p) (p_xstate p) (p_pid p) x
  (p_kstack p) (p_sz p) (p_pagetable p) (p_trapframe p) (p_context p) (p_ofile p) (p_cwd p) (p_name p).
Definition set_kstack x p := mkproc (p_state p) (p_chan p) (p_killed p) (p_xstate p) (p_pid p) (p_parent p)
  x (p_sz p) (p_pagetable p) (p_trapframe p) (p_context p) (p_ofile p) (p_cwd p) (p_name p).
Definition set_sz x p := mkproc (p_state p) (p_chan p) (p_killed p) (p_xstate p) (p_pid p) (p_parent p)
  (p_kstack p) x (p_pagetable p) (p_trapframe p) (p_context p) (p_ofile p) (p_cwd p) (p_name p).
Definition set_pagetable x p := mkproc (p_state p) (p_chan p) (p_killed p) (p_xstate p) (p_pid p) (p_parent p)
  (p_kstack p) (p_sz p) x (p_trapframe p) (p_context p) (p_ofile p) (p_cwd p) (p_name p).
Definition set_trapframe x p := mkproc (p_state p) (p_chan p) (p_killed p) (p_xstate p) (p_pid p) (p_parent p)
  (p_kstack p) (p_sz p) (p_pagetable p) x (p_context p) (p_ofile p) (p_cwd p) (p_name p).
Definition set_context x p := mkproc (p_state p) (p_chan p) (p_killed p) (p_xstate p) (p_pid p) (p_parent p)
  (p_kstack p) (p_sz p) (p_pagetable p) (p_trapframe p) x (p_ofile p) (p_cwd p) (p_name p).
Definition set_ofile x p := mkproc (p_state p) (p_chan p) (p_killed p) (p_xstate p) (p_pid p) (p_parent p)
  (p_kstack p) (p_sz p) (p_pagetable p) (p_trapframe p) (p_context p) x (p_cwd p) (p_name p).
Definition set_cwd x p := mkproc (p_state p) (p_chan p) (p_killed p) (p_xstate p) (p_pid p) (p_parent p)
  (p_kstack p) (p_sz p) (p_pagetable p) (p_trapframe p) (p_context p) (p_ofile p) x (p_name p).
Definition set_name x p := mkproc (p_state p) (p_chan p) (p_killed p) (p_xstate p) (p_pid p) (p_parent p)
  (p_kstack p) (p_sz p) (p_pagetable p) (p_trapframe p) (p_context p) (p_ofile p) (p_cwd p) x.
End Setters.

(** The memory management's state with the process table. *)
Record pst := mkpst {
  p_mm : mm;
  procs : gmap nat proc;
  nextpid : Z;
  initproc : option nat;
}.

#[export] Instance sub_mm_pst : Sub mm pst := {|
  sub_get := p_mm;
  sub_put m s := mkpst m (procs s) (nextpid s) (initproc s);
|}.

#[export] Instance sub_mm_pst_laws : SubLaws mm pst.
Proof. constructor; by intros; destruct t || done. Qed.

#[export] Instance sub_hart_pst : Sub hart pst := {|
  sub_get s := m_hart (p_mm s);
  sub_put h s := mkpst (mkmm h (m_mem (p_mm s)) (freelist (p_mm s)))
                   (procs s) (nextpid s) (initproc s);
|}.

#[export] Instance sub_hart_pst_laws : SubLaws hart pst.
Proof. constructor; intros; destruct t as [[] ? ? ?]; done. Qed.

Definition proc_of (s : pst) (i : nat) : proc := default proc0 (procs s !! i).

Definition getp {A} (i : nat) (f : proc -> A) : M pst A := gets (fun s => f (proc_of s i)).

Definition set_procs (ps : gmap nat proc) (s : pst) : pst :=
  mkpst (p_mm s) ps (nextpid s) (initproc s).

Definition updp (i : nat) (f : proc -> proc) : M pst unit :=
  modify (fun s => set_procs (<[i := f (proc_of s i)]> (procs s)) s).

Definition proc_lock (i : nat) : lockid := ("proc"%string, Z.of_nat i).
Definition pid_lock : lockid := ("pid_lock"%string, 0).
Definition wait_lock : lockid := ("wait_lock"%string, 0).

Definition proc_chan (i : nat) : chan := Some ("proc"%string, Z.of_nat i).

(** A pointer to a process that the code dereferences; a null one faults in
    the kernel, and [kerneltrap] panics. *)
Definition deref {S A} (p : option A) : M S A :=
  match p with Some i => mret' i | None => panic "kerneltrap" end.

Definition cur : M pst nat := let! p := lift (myproc) in deref p.

Section Proc.
Context {LY : Layout}.

Fixpoint procinit_loop (k : nat) (p : nat) : M pst unit :=
  match k with
  | O => mret' tt
  | S k =>
      lift (initlock (proc_lock p) "proc") ;;;
      updp p (set_state UNUSED) ;;;
      updp p (set_kstack (KSTACK (Z.of_nat p))) ;;;
      procinit_loop k (S p)
  end.

Definition procinit : M pst unit :=
  lift (initlock pid_lock "nextpid") ;;;
  lift (initlock wait_lock "wait_lock") ;;;
  procinit_loop NPROC 0.

Definition allocpid : M pst Z :=
  lift (acquire pid_lock) ;;;
  let! pid := gets nextpid in
  modify (fun s => mkpst (p_mm s) (procs s) (s32 (pid + 1)) (initproc s)) ;;;
  lift (release pid_lock) ;;;
  mret' pid.

(** ** The page table of a process *)

Definition proc_pagetable (p : nat) : M pst Z :=
  let! pagetable := lift (S:=mm) uvmcreate in
  if pagetable =? 0 then mret' 0
  else
    let! r := lift (S:=mm) (mappages pagetable TRAMPOLINE PGSIZE trampoline (Z.lor PTE_R PTE_X)) in
    if r <? 0 then
      lift (S:=mm) (uvmfree pagetable 0) ;;;
      mret' 0
    else
      let! tf := getp p p_trapframe in
      let! r := lift (S:=mm) (mappages pagetable TRAPFRAME PGSIZE tf (Z.lor PTE_R PTE_W)) in
      if r <? 0 then
        lift (S:=mm) (uvmunmap pagetable TRAMPOLINE 1 false) ;;;
        lift (S:=mm) (uvmfree pagetable 0) ;;;
        mret' 0
      else mret' pagetable.

Definition proc_freepagetable (pagetable sz : Z) : M pst unit :=
  lift (S:=mm) (uvmunmap pagetable TRAMPOLINE 1 false) ;;;
  lift (S:=mm) (uvmunmap pagetable TRAPFRAME 1 false) ;;;
  lift (S:=mm) (uvmfree pagetable sz).

Definition freeproc (p : nat) : M pst unit :=
  let! tf := getp p p_trapframe in
  when (negb (tf =? 0)) (lift (S:=mm) (kfree tf)) ;;;
  updp p (set_trapframe 0) ;;;
  let! pt := getp p p_pagetable in
  let! sz := getp p p_sz in
  when (negb (pt =? 0)) (proc_freepagetable pt sz) ;;;
  updp p (set_pagetable 0) ;;;
  updp p (set_sz 0) ;;;
  updp p (set_pid 0) ;;;
  updp p (set_parent None) ;;;
  updp p (set_name []) ;;;
  updp p (set_chan None) ;;;
  updp p (set_killed 0) ;;;
  updp p (set_xstate 0) ;;;
  updp p (set_state UNUSED).

(** The search of [allocproc] leaves the lock of the process it found held. *)
Fixpoint allocproc_find (k : nat) (p : nat) : M pst (option nat) :=
  match k with
  | O => mret' None
  | S k =>
      lift (acquire (proc_lock p)) ;;;
      let! st := getp p p_state in
      if decide (st = UNUSED) then mret' (Some p)
      else
        lift (release (proc_lock p)) ;;;
        allocproc_find k (S p)
  end.

Definition allocproc : M pst (option nat) :=
  let! f := allocproc_find NPROC 0 in
  match f with
  | None => mret' None
  | Some p =>
      let! pid := allocpid in
      updp p (set_pid pid) ;;;
      updp p (set_state USED) ;;;
      let! tf := lift (S:=mm) kalloc in
      updp p (set_trapframe tf) ;;;
      if tf =? 0 then
        freeproc p ;;;
        lift (release (proc_lock p)) ;;;
        mret' None
      else
        let! pt := proc_pagetable p in
        updp p (set_pagetable pt) ;;;
        if pt =? 0 then
          freeproc p ;;;
          lift (release (proc_lock p)) ;;;
          mret' None
        else
          let! ks := getp p p_kstack in
          updp p (set_context (mkcontext (Some "forkret"%string) (ks + PGSIZE))) ;;;
          mret' (Some p)
  end.

Definition growproc (n : Z) : M pst Z :=
  let! p := cur in
  let! sz := getp p p_sz in
  let! pt := getp p p_pagetable in
  if 0 <? n then
    let! sz := lift (S:=mm) (uvmalloc pt sz (u64 (sz + n)) PTE_W) in
    if sz =? 0 then mret' (-1)
    else
      updp p (set_sz sz) ;;;
      mret' 0
  else if n <? 0 then
    let! sz := lift (S:=mm) (uvmdealloc pt sz (u64 (sz + n))) in
    updp p (set_sz sz) ;;;
    mret' 0
  else
    updp p (set_sz sz) ;;;
    mret' 0.

(** ** Giving up the processor *)

Definition sched : M pst unit :=
  let! p := cur in
  let! held := lift (holding (proc_lock p)) in
  if negb held then panic "sched p->lock"
  else
    let! c := lift mycpu in
    if negb (c_noff c =? 1) then panic "sched locks"
    else
      let! st := getp p p_state in
      if decide (st = RUNNING) then panic "sched running"
      else
        let! on := lift intr_get in
        if on then panic "sched interruptible"
        else
          let! c := lift mycpu in
          let intena := c_intena c in
          yield_cpu ;;;
          let! c := lift mycpu in
          lift (set_mycpu (mkcpu (c_proc c) (c_noff c) intena)).

Definition yield : M pst unit :=
  let! p := cur in
  lift (acquire (proc_lock p)) ;;;
  updp p (set_state RUNNABLE) ;;;
  sched ;;;
  lift (release (proc_lock p)).

Definition sleep (ch : chan) (lk : lockid) : M pst unit :=
  let! p := cur in
  lift (acquire (proc_lock p)) ;;;
  lift (release lk) ;;;
  updp p (set_chan ch) ;;;
  updp p (set_state SLEEPING) ;;;
  sched ;;;
  updp p (set_chan None) ;;;
  lift (release (proc_lock p)) ;;;
  lift (acquire lk).

Fixpoint wakeup_loop (k : nat) (p : nat) (ch : chan) : M pst unit :=
  match k with
  | O => mret' tt
  | S k =>
      let! me := lift myproc in
      when (negb (bool_decide (Some p = me))) (
        lift (acquire (proc_lock p)) ;;;
        let! st := getp p p_state in
        let! c := getp p p_chan in
        when (bool_decide (st = SLEEPING) && bool_decide (c = ch)) (updp p (set_state RUNNABLE)) ;;;
        lift (release (proc_lock p))) ;;;
      wakeup_loop k (S p) ch
  end.

Definition wakeup (ch : chan) : M pst unit := wakeup_loop NPROC 0 ch.

(** ** Signals *)

Fixpoint kill_loop (k : nat) (p : nat) (pid : Z) : M pst Z :=
  match k with
  | O => mret' (-1)
  | S k =>
      lift (acquire (proc_lock p)) ;;;
      let! ppid := getp p p_pid in
      if ppid =? pid then
        updp p (set_killed 1) ;;;
        let! st := getp p p_state in
        when (bool_decide (st = SLEEPING)) (updp p (set_state RUNNABLE)) ;;;
        lift (release (proc_lock p)) ;;;
        mret' 0
      else
        lift (release (proc_lock p)) ;;;
        kill_loop k (S p) pid
  end.

Definition kill (pid : Z) : M pst Z := kill_loop NPROC 0 pid.

Definition setkilled (p : nat) : M pst unit :=
  lift (acquire (proc_lock p)) ;;;
  updp p (set_killed 1) ;;;
  lift (release (proc_lock p)).

Definition killed (p : nat) : M pst Z :=
  lift (acquire (proc_lock p)) ;;;
  let! k := getp p p_killed in
  lift (release (proc_lock p)) ;;;
  mret' k.

(** ** Parents and children *)

Fixpoint reparent_loop (k : nat) (pp p : nat) : M pst unit :=
  match k with
  | O => mret' tt
  | S k =>
      let! par := getp pp p_parent in
      when (bool_decide (par = Some p)) (
        let! ip := gets initproc in
        updp pp (set_parent ip) ;;;
        wakeup (match ip with Some i => proc_chan i | None => None end)) ;;;
      reparent_loop k (S pp) p
  end.

Definition reparent (p : nat) : M pst unit := reparent_loop NPROC 0 p.

(** The little-endian bytes of an [int] or [uint]. *)
Definition le32 (v : Z) : list Z := [u8 v; u8 (v / 2 ^ 8); u8 (v / 2 ^ 16); u8 (v / 2 ^ 24)].

(** The scan of [wait] over the table: [inl] is the value [wait] returns,
    [inr] whether there are children. *)
Fixpoint wait_scan (k : nat) (pp p : nat) (addr : Z) (havekids : bool) : M pst (Z + bool) :=
  match k with
  | O => mret' (inr havekids)
  | S k =>
      let! par := getp pp p_parent in
      if decide (par = Some p) then
        lift (acquire (proc_lock pp)) ;;;
        let! st := getp pp p_state in
        if decide (st = ZOMBIE) then
          let! pid := getp pp p_pid in
          let! pt := getp p p_pagetable in
          let! xs := getp pp p_xstate in
          let! r := (if negb (addr =? 0) then lift (S:=mm) (copyout_bytes pt addr (le32 xs))
                     else mret' 0) in
          if r <? 0 then
            lift (release (proc_lock pp)) ;;;
            lift (release wait_lock) ;;;
            mret' (inl (-1))
          else
            freeproc pp ;;;
            lift (release (proc_lock pp)) ;;;
            lift (release wait_lock) ;;;
            mret' (inl pid)
        else
          lift (release (proc_lock pp)) ;;;
          wait_scan k (S pp) p addr true
      else wait_scan k (S pp) p addr havekids
  end.

(** [fuel] bounds the number of times the process is woken up. *)
Fixpoint wait_loop (fuel : nat) (p : nat) (addr : Z) : M pst Z :=
  match fuel with
  | O => out_of_fuel
  | S fuel =>
      let! r := wait_scan NPROC 0 p addr false in
      match r with
      | inl v => mret' v
      | inr havekids =>
          let! k := (if havekids then killed p else mret' 0) in
          if negb havekids || negb (k =? 0) then
            lift (release wait_lock) ;;;
            mret' (-1)
          else
            sleep (proc_chan p) wait_lock ;;;
            wait_loop fuel p addr
      end
  end.

Definition wait (fuel : nat) (addr : Z) : M pst Z :=
  let! p := cur in
  lift (acquire wait_lock) ;;;
  wait_loop fuel p addr.

(** ** The scheduler

    [run p] is what happens from [swtch] to process [p] until it switches
    back in [sched]. *)

Fixpoint scheduler_pass (run : nat -> M pst unit) (k : nat) (p : nat) (found : bool) : M pst bool :=
  match k with
  | O => mret' found
  | S k =>
      lift (acquire (proc_lock p)) ;;;
      let! st := getp p p_state in
      if decide (st = RUNNABLE) then
        updp p (set_state RUNNING) ;;;
        let! c := lift mycpu in
        lift (set_mycpu (mkcpu (Some p) (c_noff c) (c_intena c))) ;;;
        run p ;;;
        let! c := lift mycpu in
        lift (set_mycpu (mkcpu None (c_noff c) (c_intena c))) ;;;
        lift (release (proc_lock p)) ;;;
        scheduler_pass run k (S p) true
      else
        lift (release (proc_lock p)) ;;;
        scheduler_pass run k (S p) found
  end.

(** One round of the endless loop; [wfi] only waits. *)
Definition scheduler_round (run : nat -> M pst unit) : M pst unit :=
  lift intr_on ;;;
  let! found := scheduler_pass run NPROC 0 false in
  if found then mret' tt else lift intr_on.

(** [scheduler] never returns; [n] is the number of its rounds that are run. *)
Fixpoint scheduler_rounds (run : nat -> M pst unit) (n : nat) : M pst unit :=
  match n with
  | O => mret' tt
  | S n =>
      scheduler_round run ;;;
      scheduler_rounds run n
  end.

Definition scheduler (run : nat -> M pst unit) (n : nat) : M pst unit :=
  let! c := lift mycpu in
  lift (set_mycpu (mkcpu None (c_noff c) (c_intena c))) ;;;
  scheduler_rounds run n.

(** ** Copying to and from user or kernel addresses *)

Definition either_copyout (user_dst : bool) (dst : Z) (src : list Z) : M pst Z :=
  let! p := lift myproc in
  if user_dst then
    let! p := deref p in
    let! pt := getp p p_pagetable in
    lift (S:=mm) (copyout_bytes pt dst src)
  else
    lift (S:=mm) (upd_mem (fun m => put_bytes m dst src)) ;;;
    mret' 0.

(** The result and the bytes stored at the destination. *)
Definition either_copyin (user_src : bool) (src len : Z) : M pst (Z * list Z) :=
  let! p := lift myproc in
  if user_src then
    let! p := deref p in
    let! pt := getp p p_pagetable in
    lift (S:=mm) (copyin_bytes pt src len)
  else
    let! bs := lift (S:=mm) (gets (fun s => bytes (m_mem s) src (Z.to_nat len))) in
    mret' (0, bs).

End Proc.

#[global] Strategy 1000 [cur wakeup wakeup_loop sleep sched yield kill killed setkilled freeproc allocproc
  proc_pagetable proc_freepagetable].
