(* ===== verification/ProcVm.v ===== *)
(** * The page table of a new process

    [proc_pagetable] (src/xv6-os/kernel/proc.c) maps the trampoline and the
    trapframe in an empty page table, or gives all memory back. *)
From S2P Require Import Prelude CString Spinlock Layout Kalloc Vm VmTable VmMap VmAlloc VmFree Proc.

Section ProcVm.
Context {LY : Layout} {LYok : LayoutOk}.

(** The entry of [x] in the page table of a process with trapframe [tf] and
    no memory. *)
Definition proc_pte (tf x : Z) : Z :=
  if decide (x / 4096 = TRAPFRAME / 4096) then Z.lor (Z.lor (PA2PTE tf) (Z.lor PTE_R PTE_W)) PTE_V
  else if decide (x / 4096 = TRAMPOLINE / 4096) then Z.lor (Z.lor (PA2PTE trampoline) (Z.lor PTE_R PTE_X)) PTE_V
  else 0.

(** ** Pages are not lost *)

(** The pages that were free are still free, or tables. *)
Definition accounted (l0 : list Z) (T : gmap Z nat) (l : list Z) : Prop :=
  forall q, q ∈ l0 <-> q ∈ l \/ is_Some (T !! q).

(** Only bytes of these pages have changed. *)
Definition only_in (l0 : list Z) (m m' : mem) : Prop :=
  forall b, ~ in_pages b (fun q => q ∈ l0) -> rd m' b = rd m b.

Lemma only_in_trans l0 m m1 m2 : only_in l0 m m1 -> only_in l0 m1 m2 -> only_in l0 m m2.
Proof. intros H1 H2 b Hb. by rewrite H2, H1. Qed.

Lemma grow_accounted l0 s s' T T' l l' :
  vm_grow s s' T T' l l' -> accounted l0 T l ->
  accounted l0 T' l' /\ only_in l0 (m_mem s) (m_mem s').
Proof.
  intros [H1 H2 H3 H4 _] Ha. split.
  - intros q. rewrite (Ha q), (H3 q). destruct (T !! q) as [L|] eqn:E.
    + assert (T' !! q = Some L) as -> by (by eapply lookup_weaken). split; eauto.
    + specialize (H2 q). destruct (T' !! q) eqn:E'; [|naive_solver]. naive_solver.
  - intros b Hb. apply H4. intros (q & Hq & Hr). apply Hb. exists q. split; [|done]. apply Ha. tauto.
Qed.

(** ** The pieces *)

Lemma uvmcreate_ok s l :
  mm_ok s -> kmem_inv s l ->
  match l with
  | [] => exists s', uvmcreate s = Ok 0 s' /\ mm_ok s' /\ kmem_inv s' [] /\ m_mem s' = m_mem s
  | root :: l1 => exists s', uvmcreate s = Ok root s' /\ vm_inv s' root {[root := 2%nat]} l1 /\
      valid_page root /\ (forall va, pte_of (m_mem s') root va = 0) /\ only_in [root] (m_mem s) (m_mem s')
  end.
Proof.
  intros Hok Hk. destruct s as [h m r]. unfold uvmcreate. destruct l as [|root l1].
  - destruct Hk as [Hr _]. cbn in Hr. subst r. rewrite (bind_ok _ _ _ _ _ (kalloc_none h m Hok)).
    eexists. split; [reflexivity|]. split_and!; [by eapply mm_ok_settle|by split_and!; try constructor|done].
  - destruct (kmem_inv_alloc _ _ _ _ _ Hk) as (-> & Hp & Hn & Hf & Hnd & Hv). cbn [m_mem freelist] in Hf.
    pose proof (valid_page_pos root Hp).
    rewrite (bind_ok _ _ _ _ _ (kalloc_some h m root Hok ltac:(lia))).
    rewrite (proj2 (Z.eqb_neq root 0)) by lia.
    set (m' := memset (memset m root 5 4096) root 0 4096).
    assert (Ho : only_in [root] m m').
    { intros b Hb. unfold m'. rewrite !rd_memset_out; [done|..]; 
        (destruct (decide (root <= b < root + 4096)); [|lia]; exfalso; apply Hb; exists root; by rewrite list_elem_of_singleton). }
    destruct (pt_wf_empty m' root Hp) as [Hwf Hz].
    { intros i Hi. apply ld64_memset_zero; lia. }
    exists (mkmm (settle h) m' (ld64 m root)). split_and!; [reflexivity| |done|done|done].
    constructor; cbn [m_mem]; [by eapply mm_ok_settle| |done|].
    + split_and!; [|done..]. cbn [m_mem freelist].
      eapply (flist_page_change (memset m root 5 4096)); [done..| |done]. intros b Hb. apply rd_memset_out. lia.
    + intros q Hq. apply lookup_singleton_ne. congruence.
Qed.

(** Giving back a page table that maps nothing. *)
Lemma uvmfree_empty root T s l l0 :
  vm_inv s root T l -> (forall va, 0 <= va < MAXVA -> pte_of (m_mem s) root va = 0) -> accounted l0 T l ->
  exists s' l', uvmfree root 0 s = Ok tt s' /\ mm_ok s' /\ kmem_inv s' l' /\
    (forall q, q ∈ l' <-> q ∈ l0) /\ only_in l0 (m_mem s) (m_mem s').
Proof.
  intros Hs Hz Ha. destruct (freewalk_all root T s l Hs Hz) as (s' & E & [G1 G2 G3] & Hel).
  exists s', (rev (table_list 2 (m_mem s) root) ++ l). split_and!; [exact E|done|done|..].
  - intros q. rewrite elem_of_app, elem_of_rev, Hel, (Ha q). tauto.
  - intros b Hb. apply G3; [|lia]. intros (q & Hq & Hr). apply Hb. exists q. split; [|done].
    apply Ha. right. by apply Hel.
Qed.

(** The steps of [proc_pagetable] in the memory of the kernel. *)
Lemma bind_pst_mm {A B} (f : M mm A) (k : A -> M pst B) m ps n i a m' :
  f m = Ok a m' -> mbind' (lift f) k (mkpst m ps n i) = k a (mkpst m' ps n i).
Proof. intros E. exact (bind_lift f k (mkpst m ps n i) a m' E). Qed.

Lemma bind_getp_run {A B} p (f : proc -> A) (k : A -> M pst B) s : mbind' (getp p f) k s = k (f (proc_of s p)) s.
Proof. done. Qed.

Lemma accounted_root root l1 : accounted (root :: l1) {[root := 2%nat]} l1.
Proof.
  intros q. rewrite elem_of_cons. destruct (decide (q = root)) as [->|Hn].
  - rewrite lookup_singleton_eq. split; [right; by eexists|by left].
  - rewrite lookup_singleton_ne by done. split; [intros [?|?]; [done|by left]|intros [?|[? ?]]; [by right|done]].
Qed.

Lemma only_in_root root l1 m m' : only_in [root] m m' -> only_in (root :: l1) m m'.
Proof.
  intros H b Hb. apply H. intros (q & Hq & Hr). apply Hb. exists q. split; [|done].
  apply list_elem_of_singleton in Hq as ->. by left.
Qed.

(** The memory after a failure: as many free pages as before. *)
Definition gave_back (l0 : list Z) (m m' : mm) : Prop :=
  mm_ok m' /\ (exists l', kmem_inv m' l' /\ forall q, q ∈ l' <-> q ∈ l0) /\ only_in l0 (m_mem m) (m_mem m').

Lemma trampoline_range : 0 <= trampoline /\ trampoline + 4096 <= 2 ^ 56.
Proof. destruct layout_order as (? & ? & ? & ?). unfold PHYSTOP, KERNBASE in *. lia. Qed.

(** Mapping the trampoline. *)
Lemma map_trampoline root s l0 T l :
  vm_inv s root T l -> (forall va, pte_of (m_mem s) root va = 0) -> accounted l0 T l ->
  exists r s' T' l', mappages root TRAMPOLINE PGSIZE trampoline (Z.lor PTE_R PTE_X) s = Ok r s' /\
    vm_inv s' root T' l' /\ accounted l0 T' l' /\ only_in l0 (m_mem s) (m_mem s') /\
    ((r = 0 /\ forall x, 0 <= x < MAXVA -> pte_of (m_mem s') root x =
        if decide (x / 4096 = TRAMPOLINE / 4096)
        then Z.lor (Z.lor (PA2PTE trampoline) (Z.lor PTE_R PTE_X)) PTE_V else 0) \/
     (r = -1 /\ forall x, 0 <= x < MAXVA -> pte_of (m_mem s') root x = 0)).
Proof.
  intros Hs Hz Ha. destruct trampoline_range.
  destruct (mappages_one root TRAMPOLINE trampoline (Z.lor PTE_R PTE_X) s T l)
    as (r & s' & T' & l' & E & Hs' & Hg & Hr); [done|by vm_compute|done|done|done|done|done|done|].
  destruct (grow_accounted l0 s s' T T' l l' Hg Ha) as [Ha' Ho].
  exists r, s', T', l'. split_and!; [done..|].
  destruct Hr as [[-> Hr]|(-> & _ & Hr)]; [left|right]; (split; [done|]); intros x Hx; rewrite Hr by done; by rewrite Hz.
Qed.

(** Undoing it. *)
Lemma unmap_trampoline root s l0 T l :
  vm_inv s root T l -> accounted l0 T l ->
  (forall x, 0 <= x < MAXVA -> pte_of (m_mem s) root x =
     if decide (x / 4096 = TRAMPOLINE / 4096)
     then Z.lor (Z.lor (PA2PTE trampoline) (Z.lor PTE_R PTE_X)) PTE_V else 0) ->
  exists s', uvmunmap root TRAMPOLINE 1 false s = Ok tt s' /\ vm_inv s' root T l /\
    (forall x, 0 <= x < MAXVA -> pte_of (m_mem s') root x = 0) /\ only_in l0 (m_mem s) (m_mem s').
Proof.
  intros Hs Ha Hp. destruct trampoline_range. destruct (uvmunmap_loop_spec root false 1 TRAMPOLINE s T l) as
    (s' & E & Hs' & Hz & Ho); [done|done|done|done| |done|].
  - intros k Hk. replace (TRAMPOLINE + k * 4096) with TRAMPOLINE by lia. unfold unmappable.
    rewrite (Hp TRAMPOLINE) by done. rewrite decide_True by done.
    rewrite <- Z.lor_assoc, PTE_FLAGS_PA2PTE by (done || lia). split_and!; [|done|done].
    intros Hv. assert (H1 : Z.land (Z.lor (PA2PTE trampoline) (Z.lor (Z.lor PTE_R PTE_X) PTE_V)) PTE_V = 0)
      by (by rewrite Hv). rewrite pte_land in H1 by (done || lia). done.
  - exists s'. split_and!; [|exact Hs'|..].
    + exact E.
    + intros x Hx. rewrite Hz, Hp by done. destruct (decide (TRAMPOLINE <= x < _)) as [|Hn]; [done|].
      rewrite decide_False; [done|]. intros Hd. apply Hn. change TRAMPOLINE with (67108863 * 4096) in *.
      change (Z.of_nat 1) with 1. divlia.
    + intros b Hb. apply Ho. cbn [freed]. intros (q & [Hq|Hq] & Hr); [|by apply elem_of_nil in Hq].
      apply Hb. exists q. split; [apply Ha; by right|done].
Qed.

(** C20. [proc_pagetable] returns a well-formed page table that maps exactly the
    trampoline, executable, and the trapframe of the process, writable, both
    out of reach of the user; its tables come from the free list and every
    other free page stays free. If there is not enough memory it returns 0
    and all the pages are free again. Either way it touches no page but the
    free ones and nothing of the process table. *)
Theorem proc_pagetable_correct (p : nat) (s : pst) (l : list Z)
    (Hok : mm_ok (p_mm s)) (Hk : kmem_inv (p_mm s) l)
    (Htf : 0 <= p_trapframe (proc_of s p) /\ p_trapframe (proc_of s p) + 4096 <= 2 ^ 56) :
  exists r m', proc_pagetable p s = Ok r (mkpst m' (procs s) (nextpid s) (initproc s)) /\
    ((r = 0 /\ gave_back l (p_mm s) m') \/
     (r ∈ l /\ exists T l', vm_inv m' r T l' /\ accounted l T l' /\ only_in l (m_mem (p_mm s)) (m_mem m') /\
        forall x, 0 <= x < MAXVA -> pte_of (m_mem m') r x = proc_pte (p_trapframe (proc_of s p)) x)).
Proof.
  set (tf := p_trapframe (proc_of s p)) in *. unfold proc_pagetable.
  destruct s as [m0 ps np ip]. cbn [p_mm procs nextpid initproc] in *.
  pose proof (uvmcreate_ok m0 l Hok Hk) as Hc. destruct l as [|root l1].
  - destruct Hc as (s1 & E & H1 & H2 & H3). rewrite (bind_pst_mm _ _ _ _ _ _ _ _ E). exists 0, s1. split; [done|].
    left. split; [done|]. split_and!; [done|by exists []|]. intros b _. by rewrite H3.
  - destruct Hc as (s1 & E & Hs1 & Hp & Hz & Ho). rewrite (bind_pst_mm _ _ _ _ _ _ _ _ E).
    pose proof (valid_page_pos root Hp). rewrite (proj2 (Z.eqb_neq root 0)) by lia.
    assert (Ha : accounted (root :: l1) {[root := 2%nat]} l1) by apply accounted_root.
    assert (Ho1 : only_in (root :: l1) (m_mem m0) (m_mem s1)) by (by eapply only_in_root).
    destruct (map_trampoline root s1 _ _ _ Hs1 Hz Ha) as (r2 & s2 & T2 & l2 & E2 & Hs2 & Ha2 & Ho2 & Hr2).
    rewrite (bind_pst_mm _ _ _ _ _ _ _ _ E2). pose proof (only_in_trans _ _ _ _ Ho1 Ho2) as Ho12.
    destruct Hr2 as [[-> Hp2]|[-> Hp2]]; cbn [Z.ltb Z.compare].
    + rewrite bind_getp_run. change (p_trapframe (proc_of _ p)) with tf.
      destruct (mappages_one root TRAPFRAME tf (Z.lor PTE_R PTE_W) s2 T2 l2)
        as (r3 & s3 & T3 & l3 & E3 & Hs3 & Hg3 & Hr3); [done|done|done|done|done|lia|lia|by rewrite Hp2|].
      destruct (grow_accounted _ _ _ _ _ _ _ Hg3 Ha2) as [Ha3 Ho3].
      pose proof (only_in_trans _ _ _ _ Ho12 Ho3) as Ho13.
      rewrite (bind_pst_mm _ _ _ _ _ _ _ _ E3). destruct Hr3 as [[-> Hp3]|(-> & _ & Hp3)]; cbn [Z.ltb Z.compare].
      * exists root, s3. split; [done|]. right. split; [by left|]. exists T3, l3. split_and!; [done..|].
        intros x Hx. rewrite Hp3, Hp2 by done. done.
      * destruct (unmap_trampoline root s3 (root :: l1) T3 l3 Hs3 Ha3) as (s4 & E4 & Hs4 & Hz4 & Ho4).
        { intros x Hx. by rewrite Hp3, Hp2. }
        destruct (uvmfree_empty root T3 s4 l3 (root :: l1) Hs4 Hz4 Ha3) as (s5 & l5 & E5 & Hok5 & Hk5 & Hl5 & Ho5).
        rewrite (bind_pst_mm _ _ _ _ _ _ _ _ E4), (bind_pst_mm _ _ _ _ _ _ _ _ E5).
        exists 0, s5. split; [done|]. left. split; [done|]. split_and!; [done|by exists l5|].
        by do 2 (eapply only_in_trans; [|done]).
    + destruct (uvmfree_empty root T2 s2 l2 (root :: l1) Hs2 Hp2 Ha2) as (s3 & l3 & E3 & Hok3 & Hk3 & Hl3 & Ho3).
      rewrite (bind_pst_mm _ _ _ _ _ _ _ _ E3). exists 0, s3. split; [done|]. left. split; [done|].
      split_and!; [done|by exists l3|]. by eapply only_in_trans.
Qed.
End ProcVm.

(** ** Example: three free pages *)

#[local] Existing Instances kernel_layout kernel_layout_ok.

Definition mm_three : mm := mkmm hart1 (st64 (st64 ∅ (vp 1) (vp 2)) (vp 2) (vp 3)) (vp 1).

Lemma mm_three_inv : mm_ok mm_three /\ kmem_inv mm_three [vp 1; vp 2; vp 3].
Proof.
  split.
  - split; [apply hart1_ok|]. exists "kmem"%string. reflexivity.
  - split_and!; [vm_compute; split_and!; reflexivity| |].
    + apply (bool_decide_unpack _). reflexivity.
    + repeat constructor; apply vp_valid; lia.
Qed.

Definition pst_three : pst := mkpst mm_three {[0%nat := set_trapframe (vp 5) proc0]} 1 None.

Lemma proc_pagetable_correct_witness : exists m' T l',
  proc_pagetable 0 pst_three = Ok (vp 1) (mkpst m' (procs pst_three) 1 None) /\
  vm_inv m' (vp 1) T l' /\
  pte_of (m_mem m') (vp 1) TRAPFRAME = Z.lor (Z.lor (PA2PTE (vp 5)) (Z.lor PTE_R PTE_W)) PTE_V.
Proof.
  destruct mm_three_inv as [Hok Hk].
  destruct (proc_pagetable_correct 0 pst_three [vp 1; vp 2; vp 3] Hok Hk) as (r & m' & E & Hr);
    [vm_compute; split; discriminate|].
  assert (r = vp 1) as ->.
  { apply (f_equal (fun x => match x with Ok r _ => r | _ => 7 end)) in E. vm_compute in E. symmetry. exact E. }
  destruct Hr as [[Hr _]|(_ & T & l' & Hs & _ & _ & Hp)]; [exfalso; clear E; vm_compute in Hr; discriminate Hr|].
  exists m', T, l'. split_and!; [exact E|exact Hs|]. rewrite (Hp TRAPFRAME) by (split; [discriminate|reflexivity]).
  reflexivity.
Defined.
