(* ===== verification/ProcSpec.v ===== *)
(** * Sleeping, waking up, killing and scheduling

    The effect of [sleep], [wakeup], [kill], [reparent] and the scheduler
    of [Proc] on the process table. *)
From S2P Require Import Prelude CString Spinlock Layout Kalloc Vm Proc.

(** ** Lifted lock operations *)

Definition with_hart (h : hart) (s : pst) : pst := sub_put h s.
Definition hart_of (s : pst) : hart := sub_get s.
#[global] Arguments with_hart : simpl never.
#[global] Arguments hart_of : simpl never.

Lemma hart_of_with h s : hart_of (with_hart h s) = h.
Proof. done. Qed.
Lemma with_hart_of s : with_hart (hart_of s) s = s.
Proof. by destruct s as [[] ? ? ?]. Qed.
Lemma with_hart_twice h h' s : with_hart h (with_hart h' s) = with_hart h s.
Proof. done. Qed.
Lemma proc_of_with_hart h s i : proc_of (with_hart h s) i = proc_of s i.
Proof. done. Qed.
Lemma procs_with_hart h s : procs (with_hart h s) = procs s.
Proof. done. Qed.

Lemma lift_hart {A} (m : M hart A) (s : pst) a h' :
  m (hart_of s) = Ok a h' -> lift m s = Ok a (with_hart h' s).
Proof. apply (lift_ok m s). Qed.

(** Every lock of the process table is free. *)
Definition procs_free (h : hart) : Prop := forall i, (i < NPROC)%nat -> lock_free (proc_lock i) h.

Lemma procs_free_settle h : procs_free h -> procs_free (settle h).
Proof. intros H i Hi. apply lock_free_settle, H, Hi. Qed.

Lemma bind_acquire {B} l (k : unit -> M pst B) s :
  lock_free l (hart_of s) ->
  mbind' (lift (acquire l)) k s = k tt (with_hart (acquired l (hart_of s)) s).
Proof. intros Hfree. apply bind_ok, lift_hart, acquire_eq, Hfree. Qed.

Lemma bind_release {B} l h (k : unit -> M pst B) s :
  hart_ok h -> lock_free l h ->
  mbind' (lift (release l)) k (with_hart (acquired l h) s) = k tt (with_hart (settle h) s).
Proof.
  intros Hok Hfree. eapply bind_ok.
  apply (lift_hart (release l) (with_hart (acquired l h) s)), (release_acquired _ _ Hok Hfree).
Qed.

Lemma bind_myproc {B} (k : option nat -> M pst B) s :
  hart_ok (hart_of s) ->
  mbind' (lift myproc) k s =
  k (c_proc (this_cpu (hart_of s))) (with_hart (settle (hart_of s)) s).
Proof. intros Hok. apply bind_ok, lift_hart, myproc_eq, Hok. Qed.

Definition updproc (i : nat) (f : proc -> proc) (s : pst) : pst :=
  set_procs (<[i := f (proc_of s i)]> (procs s)) s.

Lemma proc_of_updproc i f s j :
  proc_of (updproc i f s) j = if decide (i = j) then f (proc_of s i) else proc_of s j.
Proof.
  unfold proc_of, updproc; cbn. rewrite lookup_insert. by case_decide.
Qed.

Lemma bind_updp {B} i f (k : unit -> M pst B) s : mbind' (updp i f) k s = k tt (updproc i f s).
Proof. done. Qed.
Lemma bind_getp {A B} i (f : proc -> A) (k : A -> M pst B) s :
  mbind' (getp i f) k s = k (f (proc_of s i)) s.
Proof. done. Qed.
#[export] Hint Rewrite @bind_updp @bind_getp : mdb.

(** The hart and the table change independently. *)
Lemma updproc_with_hart i f h s : updproc i f (with_hart h s) = with_hart h (updproc i f s).
Proof. done. Qed.
Lemma hart_of_updproc i f s : hart_of (updproc i f s) = hart_of s.
Proof. done. Qed.
#[export] Hint Rewrite updproc_with_hart hart_of_updproc hart_of_with with_hart_twice
  proc_of_with_hart settle_idem : mdb.

(** ** wakeup *)

Definition sleeps_on (ch : chan) (p : proc) : bool :=
  bool_decide (p_state p = SLEEPING) && bool_decide (p_chan p = ch).

Definition woken (ch : chan) (p : proc) : proc :=
  if sleeps_on ch p then set_state RUNNABLE p else p.

(** [s'] has the process table of [s], up to [f] on each process, and the
    same memory and counters. *)
Record table_map (f : nat -> proc -> proc) (s s' : pst) : Prop := {
  tm_procs : forall i, proc_of s' i = f i (proc_of s i);
  tm_mem : m_mem (p_mm s') = m_mem (p_mm s);
  tm_free : freelist (p_mm s') = freelist (p_mm s);
  tm_nextpid : nextpid s' = nextpid s;
  tm_init : initproc s' = initproc s;
}.

Lemma table_map_refl s h : table_map (fun _ p => p) s (with_hart h s).
Proof. by constructor. Qed.

Lemma table_map_id s : table_map (fun _ p => p) s s.
Proof. by constructor. Qed.

Lemma table_map_upd i f s h :
  table_map (fun j p => if decide (i = j) then f p else p) s (with_hart h (updproc i f s)).
Proof.
  constructor; [|done..]. intros j. autorewrite with mdb. rewrite proc_of_updproc.
  case_decide; [by subst|done].
Qed.

Lemma table_map_trans f g s1 s2 s3 :
  table_map f s1 s2 -> table_map g s2 s3 -> table_map (fun i p => g i (f i p)) s1 s3.
Proof.
  intros [A1 A2 A3 A4 A5] [B1 B2 B3 B4 B5]. constructor; [|congruence..].
  intros i. by rewrite B1, A1.
Qed.

Lemma table_map_ext f g s s' :
  (forall i, f i (proc_of s i) = g i (proc_of s i)) -> table_map f s s' -> table_map g s s'.
Proof. intros H [A1 A2 A3 A4 A5]. constructor; [|done..]. intros i. by rewrite A1. Qed.

Lemma wakeup_step k i ch s :
  (i < NPROC)%nat -> hart_ok (hart_of s) -> procs_free (hart_of s) ->
  wakeup_loop (S k) i ch s =
  wakeup_loop k (S i) ch (with_hart (settle (hart_of s))
    (if bool_decide (Some i <> c_proc (this_cpu (hart_of s))) && sleeps_on ch (proc_of s i)
     then updproc i (set_state RUNNABLE) s else s)).
Proof.
  intros Hi Hok Hfree. cbn [wakeup_loop]. rewrite bind_myproc by done.
  rewrite <- bool_decide_not.
  destruct (bool_decide_reflect (Some i <> c_proc (this_cpu (hart_of s)))); cbn [negb andb].
  2:{ by autorewrite with mdb. }
  rewrite when_true, bind_assoc, bind_acquire by (apply lock_free_settle, Hfree, Hi).
  autorewrite with mdb. fold (sleeps_on ch (proc_of s i)).
  destruct (sleeps_on ch (proc_of s i)); autorewrite with mdb;
    (rewrite bind_release by auto using settle_ok, lock_free_settle); by autorewrite with mdb.
Qed.

(** What [wakeup] does to process [i]. *)
Definition wake_proc (ch : chan) (me : option nat) (lo hi : nat) (i : nat) (p : proc) : proc :=
  if bool_decide (lo <= i < hi)%nat && bool_decide (Some i <> me) then woken ch p else p.

Lemma wakeup_loop_spec k i ch s :
  (i + k <= NPROC)%nat -> hart_ok (hart_of s) -> procs_free (hart_of s) ->
  exists s', wakeup_loop k i ch s = Ok tt s' /\
    (k <> O -> hart_of s' = settle (hart_of s)) /\ (k = O -> s' = s) /\
    table_map (wake_proc ch (c_proc (this_cpu (hart_of s))) i (i + k)) s s'.
Proof.
  revert i s. induction k as [|k IH]; intros i s Hik Hok Hfree.
  { exists s. split_and!; [done..|].
    eapply table_map_ext; [|apply table_map_id]. intros j. unfold wake_proc.
    rewrite bool_decide_false by lia. done. }
  rewrite wakeup_step by (done || lia). set (s1 := with_hart _ _).
  assert (Hh1 : hart_of s1 = settle (hart_of s)) by done.
  destruct (IH (S i) s1) as (s' & E & Hh & Hz & Ht); rewrite ?Hh1;
    [lia|auto using settle_ok, procs_free_settle..|].
  exists s'. split_and!; [done| |done|].
  - intros _. destruct k; [by rewrite (Hz eq_refl)|]. rewrite Hh, Hh1 by done. apply settle_idem.
  - rewrite Hh1, this_cpu_settle in Ht. cbn [c_proc] in Ht. set (me := c_proc _) in *.
    assert (H1 : table_map (wake_proc ch me i (S i)) s s1).
    { unfold s1. destruct (bool_decide_reflect (Some i <> me)) as [Hme|Hme]; cbn [andb].
      - destruct (sleeps_on ch (proc_of s i)) eqn:E1.
        + eapply table_map_ext; [|apply table_map_upd]. intros j. unfold wake_proc, woken.
          case_decide; [subst j; rewrite !bool_decide_true, E1 by (done || lia); done|].
          rewrite bool_decide_false by lia. done.
        + eapply table_map_ext; [|apply table_map_refl]. intros j. unfold wake_proc, woken.
          destruct (decide (i = j)) as [<-|]; [rewrite E1; repeat case_bool_decide; reflexivity|].
          rewrite bool_decide_false by lia. done.
      - eapply table_map_ext; [|apply table_map_refl]. intros j. unfold wake_proc.
        destruct (decide (i = j)) as [<-|]; [rewrite (bool_decide_false (Some i <> me)), andb_false_r by done; done|].
        rewrite bool_decide_false by lia. done. }
    eapply table_map_ext; [|eapply table_map_trans; [exact H1|exact Ht]]. intros j.
    unfold wake_proc. destruct (bool_decide (Some j <> me)); rewrite ?andb_false_r, ?andb_true_r; [|done].
    repeat case_bool_decide; (done || lia).
Qed.

(** ** sleep *)

(** The hart of a process that holds the spin lock [l] and no other one. *)
Record holds_only (l : lockid) (p : nat) (h0 h : hart) : Prop := {
  ho_eq : h = acquired l h0;
  ho_ok : hart_ok h0;
  ho_noff : c_noff (this_cpu h0) = 0;
  ho_proc : c_proc (this_cpu h0) = Some p;
  ho_lock : lock_free l h0;
}.

Lemma this_cpu_acquired l h :
  this_cpu (acquired l h) =
  mkcpu (c_proc (this_cpu h)) (c_noff (this_cpu h) + 1)
    (if c_noff (this_cpu h) =? 0 then b2z (intr_enabled h) else c_intena (this_cpu h)).
Proof. unfold this_cpu at 1, acquired, pushed; cbn. by rewrite lookup_insert_eq. Qed.

Lemma intr_enabled_acquired l h : intr_enabled (acquired l h) = false.
Proof. unfold intr_enabled, acquired, pushed; cbn. by rewrite sie_off_get. Qed.

Lemma acquired_ok l h : hart_ok h -> hart_ok (acquired l h).
Proof.
  intros [? _]. split; rewrite this_cpu_acquired; cbn; [lia|].
  intros _. apply intr_enabled_acquired.
Qed.

Lemma lock_free_acquired l l' h : l <> l' -> lock_free l h -> lock_free l (acquired l' h).
Proof. intros Hne [n Hl]. exists n. unfold acquired, take_lock. cbn. by rewrite lookup_insert_ne. Qed.

(** The hart on which a process goes on that had the interrupt flag [x]
    before it took its locks. *)
Definition resume_hart (x : Z) (h : hart) : hart :=
  set_sstatus (if x =? 0 then Z.land (sstatus h) (Z.lnot SSTATUS_SIE)
               else Z.lor (Z.land (sstatus h) (Z.lnot SSTATUS_SIE)) SSTATUS_SIE) h.

Lemma sie_on_off x : Z.land (Z.lor (Z.land x (Z.lnot SSTATUS_SIE)) SSTATUS_SIE) (Z.lnot SSTATUS_SIE) =
  Z.land x (Z.lnot SSTATUS_SIE).
Proof.
  apply Z.bits_inj'. intros n Hn. rewrite !Z.land_spec, Z.lor_spec, Z.land_spec, Z.lnot_spec by done.
  destruct (Z.testbit x n), (Z.testbit SSTATUS_SIE n); done.
Qed.

Lemma resume_acquired l x b h :
  x = b2z b -> c_noff (this_cpu h) = 0 ->
  set_cpus (<[tp h := mkcpu (c_proc (this_cpu h)) (c_noff (this_cpu h) + 1) x]>
              (cpus (acquired l h))) (acquired l h) =
  acquired l (resume_hart x h).
Proof.
  intros -> Hn. unfold acquired, pushed, resume_hart, set_locks, set_cpus, take_lock, lock_of; cbn.
  rewrite insert_insert_eq. f_equal.
  - destruct b; cbn; [by rewrite sie_on_off|]. by rewrite <- Z.land_assoc, Z.land_diag.
  - f_equal. unfold this_cpu in *; cbn. rewrite Hn. cbn. f_equal. unfold intr_enabled; cbn.
    destruct b; cbn.
    + rewrite Z.land_lor_distr_l, Z.land_diag.
      destruct (Z.eqb_spec (Z.lor (Z.land (Z.land (sstatus h) (Z.lnot SSTATUS_SIE)) SSTATUS_SIE)
        SSTATUS_SIE) 0) as [E|]; [|done]. apply Z.lor_eq_0_iff in E as [_ E]. done.
    + by rewrite sie_off_get.
Qed.

Lemma bind_cur {B} (k : nat -> M pst B) s p :
  hart_ok (hart_of s) -> c_proc (this_cpu (hart_of s)) = Some p ->
  mbind' cur k s = k p (with_hart (settle (hart_of s)) s).
Proof. intros Hok Hp. unfold cur. rewrite bind_assoc, bind_myproc, Hp by done. done. Qed.

Lemma cur_eq s p :
  hart_ok (hart_of s) -> c_proc (this_cpu (hart_of s)) = Some p ->
  cur s = Ok p (with_hart (settle (hart_of s)) s).
Proof. intros Hok Hp. unfold cur. rewrite bind_myproc, Hp by done. done. Qed.

Definition restore_intena (x : Z) (h : hart) : hart :=
  let c := this_cpu h in set_cpus (<[tp h := mkcpu (c_proc c) (c_noff c) x]> (cpus h)) h.

Lemma sched_eq s p name :
  hart_ok (hart_of s) -> c_proc (this_cpu (hart_of s)) = Some p ->
  locks (hart_of s) !! proc_lock p = Some (mkspinlock 1 name (Some (tp (hart_of s)))) ->
  c_noff (this_cpu (hart_of s)) = 1 -> p_state (proc_of s p) <> RUNNING ->
  sched s = Yield (with_hart (settle (hart_of s)) s)
    (fun s2 => Ok tt (with_hart (restore_intena (c_intena (this_cpu (hart_of s))) (hart_of s2)) s2)).
Proof.
  intros Hok Hp Hl Hn Hst. unfold sched. rewrite (bind_cur _ _ p) by done.
  set (h := hart_of s) in *. pose proof (this_cpu_settle h) as Hc. rewrite Hn in Hc. cbn in Hc.
  assert (Hlk : lock_of (proc_lock p) (settle h) = mkspinlock 1 name (Some (tp h))).
  { change (lock_of (proc_lock p) (settle h)) with (lock_of (proc_lock p) h).
    unfold lock_of. by rewrite Hl. }
  set (s1 := with_hart (settle h) s).
  assert (Hh : lift (holding (proc_lock p)) s1 = Ok true s1).
  { rewrite (lift_hart (holding (proc_lock p)) s1 true (settle h)); [done|].
    change (hart_of s1) with (settle h). rewrite holding_eq, Hlk. cbn [locked lk_cpu].
    by rewrite bool_decide_true. }
  rewrite (bind_ok _ _ _ _ _ Hh). cbn [negb].
  assert (Hm : lift mycpu s1 = Ok (this_cpu (settle h)) s1) by done.
  rewrite (bind_ok _ _ _ _ _ Hm), Hc. cbn [c_noff]. rewrite Z.eqb_refl. cbn [negb].
  autorewrite with mdb. unfold s1. autorewrite with mdb. fold s1. rewrite decide_False by done.
  assert (Hi : lift intr_get s1 = Ok false s1).
  { assert (E : intr_get (settle h) = Ok (intr_enabled h) (settle h)) by done.
    destruct Hok as [_ Hoff]. rewrite Hoff in E by lia.
    apply (lift_hart intr_get s1) in E. done. }
  rewrite (bind_ok _ _ _ _ _ Hi), (bind_ok _ _ _ _ _ Hm), Hc. done.
Qed.

Definition sleeping (ch : chan) (p : proc) : proc := set_state SLEEPING (set_chan ch p).

(** What [sleep] does before it gives up the processor. *)
Lemma sleep_enter ch lk p h0 s :
  holds_only lk p h0 (hart_of s) -> lk <> proc_lock p -> lock_free (proc_lock p) h0 ->
  exists s1 name, sleep ch lk s =
    (sched ;;; updp p (set_chan None) ;;; lift (release (proc_lock p)) ;;; lift (acquire lk)) s1 /\
    table_map (fun i q => if decide (p = i) then sleeping ch q else q) s s1 /\
    hart_ok (hart_of s1) /\ tp (hart_of s1) = tp h0 /\ sstatus (hart_of s1) = sstatus (hart_of s) /\
    lock_free lk (hart_of s1) /\
    locks (hart_of s1) !! proc_lock p = Some (mkspinlock 1 name (Some (tp h0))) /\
    (forall l', l' <> lk -> l' <> proc_lock p -> locks (hart_of s1) !! l' = locks h0 !! l') /\
    this_cpu (hart_of s1) = mkcpu (Some p) 1 (b2z (intr_enabled h0)).
Proof.
  intros [Hh Hok Hn Hp [nl Hl]] Hne [np Hpl]. unfold sleep.
  pose proof (this_cpu_acquired lk h0) as Hc. rewrite Hn, Hp in Hc. cbn in Hc.
  assert (Hok1 : hart_ok (hart_of s)) by (rewrite Hh; by apply acquired_ok).
  rewrite (bind_cur _ _ p) by (done || by rewrite Hh, Hc).
  set (h1 := settle (hart_of s)).
  assert (Hfp : lock_free (proc_lock p) h1).
  { apply lock_free_settle. rewrite Hh. apply lock_free_acquired; [congruence|by exists np]. }
  assert (Hok1' : hart_ok h1) by (by apply settle_ok).
  rewrite bind_acquire by done. autorewrite with mdb.
  assert (Hlk1 : locks h1 !! lk = Some (mkspinlock 1 nl (Some (tp h0)))).
  { unfold h1. rewrite Hh. unfold settle, acquired, take_lock, lock_of; cbn.
    by rewrite lookup_insert_eq, Hl. }
  assert (Htk : take_lock (proc_lock p) h1 !! lk = Some (mkspinlock 1 nl (Some (tp h0)))).
  { unfold take_lock. rewrite lookup_insert_ne; [done|congruence]. }
  assert (Hrel : release lk (acquired (proc_lock p) h1) =
    Ok tt (set_locks (<[lk := mkspinlock 0 nl None]> (take_lock (proc_lock p) h1)) (settle h1))).
  { unfold acquired. rewrite release_eq, Htk; [done|done|].
    exists nl. rewrite Htk. unfold h1. by rewrite Hh. }
  rewrite (bind_ok _ _ _ _ _ (lift_hart (release lk)
    (with_hart (acquired (proc_lock p) h1) s) _ _ Hrel)).
  autorewrite with mdb. eexists _, np. split; [reflexivity|].
  rewrite hart_of_with. set (h2 := set_locks _ _).
  assert (Hc2 : this_cpu h2 = mkcpu (Some p) 1 (b2z (intr_enabled h0))).
  { change (this_cpu h2) with (this_cpu (settle h1)). unfold h1.
    by rewrite settle_idem, this_cpu_settle, Hh, Hc. }
  assert (Hss : sstatus h2 = sstatus (hart_of s)) by done.
  split_and!; [|split|..].
  - constructor; [|done..]. intros i. autorewrite with mdb. rewrite !proc_of_updproc.
    repeat case_decide; subst; done.
  - by rewrite Hc2.
  - intros _. unfold intr_enabled. rewrite Hss, Hh. apply intr_enabled_acquired.
  - change (tp h2) with (tp (hart_of s)). by rewrite Hh.
  - done.
  - exists nl. apply lookup_insert_eq.
  - change (locks h2) with (<[lk := mkspinlock 0 nl None]> (take_lock (proc_lock p) h1)).
    rewrite lookup_insert_ne by congruence. unfold take_lock. rewrite lookup_insert_eq.
    change (tp h1) with (tp (hart_of s)). rewrite Hh. do 2 f_equal. unfold lock_of, h1.
    change (locks (settle (hart_of s))) with (locks (hart_of s)). rewrite Hh.
    unfold acquired, take_lock; cbn. rewrite lookup_insert_ne, Hpl by congruence. done.
  - intros l' Hl1 Hl2.
    change (locks h2) with (<[lk := mkspinlock 0 nl None]> (take_lock (proc_lock p) h1)).
    unfold take_lock. rewrite !lookup_insert_ne by congruence.
    change (locks h1) with (locks (hart_of s)). rewrite Hh. unfold acquired, take_lock; cbn.
    by rewrite lookup_insert_ne by congruence.
  - done.
Qed.

Lemma resume_hart_facts x b h :
  x = b2z b -> hart_ok h -> c_noff (this_cpu h) = 0 ->
  hart_ok (resume_hart x h) /\ this_cpu (resume_hart x h) = this_cpu h /\
  intr_enabled (resume_hart x h) = b /\ locks (resume_hart x h) = locks h.
Proof.
  intros -> Hok Hn. assert (Hc : this_cpu (resume_hart (b2z b) h) = this_cpu h) by done.
  split_and!; [split; rewrite Hc, Hn; lia|done| |done].
  unfold intr_enabled, resume_hart; cbn. destruct b; cbn.
  - rewrite Z.land_lor_distr_l, Z.land_diag.
    destruct (Z.eqb_spec (Z.lor (Z.land (Z.land (sstatus h) (Z.lnot SSTATUS_SIE)) SSTATUS_SIE)
      SSTATUS_SIE) 0) as [E|]; [|done]. apply Z.lor_eq_0_iff in E as [_ E]. done.
  - by rewrite sie_off_get.
Qed.

(** The end of [sleep], once the scheduler runs the process again. *)
Lemma sleep_leave lk p x b s2 h2 :
  x = b2z b -> holds_only (proc_lock p) p h2 (hart_of s2) -> lock_free lk h2 ->
  exists s3 h3,
    (updp p (set_chan None) ;;; lift (release (proc_lock p)) ;;; lift (acquire lk))
      (with_hart (restore_intena x (hart_of s2)) s2) = Ok tt s3 /\
    holds_only lk p h3 (hart_of s3) /\ locks h3 = locks h2 /\ intr_enabled h3 = b /\
    table_map (fun i q => if decide (p = i) then set_chan None q else q) s2 s3.
Proof.
  intros Hx [Hh Hok Hn Hp Hpl] Hlk.
  destruct (resume_hart_facts x b h2 Hx Hok Hn) as (Hrok & Hrc & Hri & Hrl).
  assert (Hr : restore_intena x (hart_of s2) = acquired (proc_lock p) (resume_hart x h2)).
  { rewrite <- (resume_acquired _ x b) by done. unfold restore_intena.
    by rewrite Hh, this_cpu_acquired. }
  assert (Hpl' : lock_free (proc_lock p) (resume_hart x h2)) by (unfold lock_free; by rewrite Hrl).
  rewrite Hr. autorewrite with mdb. rewrite bind_release by done.
  set (h3 := settle (resume_hart x h2)).
  assert (Hlk3 : lock_free lk h3) by (apply lock_free_settle; unfold lock_free; by rewrite Hrl).
  eexists _, h3. split; [apply (lift_hart (acquire lk)), (acquire_eq _ _ Hlk3)|].
  autorewrite with mdb. split_and!.
  - constructor; [done|by apply settle_ok|..|done]; unfold h3; rewrite this_cpu_settle, Hrc; done.
  - exact Hrl.
  - change (intr_enabled h3) with (intr_enabled (resume_hart x h2)). done.
  - apply table_map_upd.
Qed.

Lemma sleep_spec (ch : chan) (lk : lockid) (p : nat) (h0 : hart) (s : pst)
    (Hs : holds_only lk p h0 (hart_of s)) (Hne : lk <> proc_lock p)
    (Hfree : lock_free (proc_lock p) h0) :
  exists s1 k, sleep ch lk s = Yield s1 k /\
    table_map (fun i q => if decide (p = i) then sleeping ch q else q) s s1 /\
    lock_free lk (hart_of s1) /\
    (exists name, locks (hart_of s1) !! proc_lock p = Some (mkspinlock 1 name (Some (tp h0)))) /\
    forall s2 h2, holds_only (proc_lock p) p h2 (hart_of s2) -> lock_free lk h2 ->
      exists s3 h3, k s2 = Ok tt s3 /\ holds_only lk p h3 (hart_of s3) /\
        locks h3 = locks h2 /\ intr_enabled h3 = intr_enabled h0 /\
        table_map (fun i q => if decide (p = i) then set_chan None q else q) s2 s3.
Proof.
  destruct (sleep_enter ch lk p h0 s Hs Hne Hfree)
    as (s1 & name & E & Ht & Hok & Htp & _ & Hlk & Hpl & _ & Hc).
  assert (Hst : p_state (proc_of s1 p) <> RUNNING).
  { rewrite (tm_procs _ _ _ Ht), decide_True by done. done. }
  rewrite <- Htp in Hpl.
  pose proof (sched_eq s1 p name Hok ltac:(by rewrite Hc) Hpl ltac:(by rewrite Hc) Hst) as Hsch.
  rewrite E. unfold mbind' at 1. rewrite Hsch. cbn [res_bind].
  eexists _, _. split; [reflexivity|]. split_and!.
  - destruct Ht. by constructor.
  - by apply lock_free_settle.
  - exists name. rewrite <- Htp. exact Hpl.
  - intros s2 h2 H2 Hl2. rewrite Hc. cbn [c_intena]. by apply (sleep_leave lk p _ (intr_enabled h0) s2 h2).
Qed.

(** C22. [sleep(chan, lk)], called by process [p] with the lock [lk] held and
    no other one, marks [p] as sleeping on [chan] and only then gives up the
    processor, with [lk] free and [p->lock] held: nobody who has to take
    [p->lock] for a wakeup can come in between. When the scheduler later runs
    [p] again, on any hart that holds [p->lock] for it, [sleep] returns with
    [lk] held again, the other locks as they were, [p->lock] free, the channel cleared and the interrupt
    flag that [p] had. *)
Theorem sleep_correct (ch : chan) (lk : lockid) (p : nat) (h0 : hart) (s : pst)
    (Hs : holds_only lk p h0 (hart_of s)) (Hne : lk <> proc_lock p)
    (Hfree : lock_free (proc_lock p) h0) :
  exists s1 k, sleep ch lk s = Yield s1 k /\
    table_map (fun i q => if decide (p = i) then sleeping ch q else q) s s1 /\
    lock_free lk (hart_of s1) /\
    (exists name, locks (hart_of s1) !! proc_lock p = Some (mkspinlock 1 name (Some (tp h0)))) /\
    forall s2 h2, holds_only (proc_lock p) p h2 (hart_of s2) -> lock_free lk h2 ->
      exists s3 h3, k s2 = Ok tt s3 /\ holds_only lk p h3 (hart_of s3) /\
        locks h3 = locks h2 /\ intr_enabled h3 = intr_enabled h0 /\
        table_map (fun i q => if decide (p = i) then set_chan None q else q) s2 s3.
Proof. by apply sleep_spec. Qed.

(** [wakeup(chan)] makes every process of the table that sleeps on [chan],
    other than the caller, runnable, and changes nothing else: no other
    process, no lock, no memory. *)
Theorem wakeup_correct (ch : chan) (s : pst) (Hok : hart_ok (hart_of s))
    (Hfree : procs_free (hart_of s)) :
  exists s', wakeup ch s = Ok tt s' /\ hart_of s' = settle (hart_of s) /\
    table_map (wake_proc ch (c_proc (this_cpu (hart_of s))) 0 NPROC) s s'.
Proof.
  destruct (wakeup_loop_spec NPROC 0 ch s (le_n _) Hok Hfree) as (s' & E & Hh & _ & Ht).
  exists s'. split_and!; [done|by apply Hh|done].
Qed.

(** ** kill *)

Definition kill_proc (p : proc) : proc :=
  let p := set_killed 1 p in
  if bool_decide (p_state p = SLEEPING) then set_state RUNNABLE p else p.

Lemma table_map_upd2 i f g s h :
  table_map (fun j p => if decide (i = j) then g (f p) else p) s
    (with_hart h (updproc i g (updproc i f s))).
Proof.
  constructor; [|done..]. intros j. autorewrite with mdb. rewrite !proc_of_updproc.
  repeat case_decide; subst; done.
Qed.

Lemma kill_loop_spec k i pid s :
  (i + k <= NPROC)%nat -> hart_ok (hart_of s) -> procs_free (hart_of s) ->
  exists r s', kill_loop k i pid s = Ok r s' /\
    (k <> O -> hart_of s' = settle (hart_of s)) /\ (k = O -> s' = s) /\
    ((r = 0 /\ exists j, (i <= j < i + k)%nat /\ p_pid (proc_of s j) = pid /\
        (forall j', (i <= j' < j)%nat -> p_pid (proc_of s j') <> pid) /\
        table_map (fun j' p => if decide (j = j') then kill_proc p else p) s s') \/
     (r = -1 /\ (forall j, (i <= j < i + k)%nat -> p_pid (proc_of s j) <> pid) /\
        table_map (fun _ p => p) s s')).
Proof.
  revert i s. induction k as [|k IH]; intros i s Hik Hok Hfree; cbn [kill_loop].

  { exists (-1), s. split_and!; [done..|]. right. split_and!; [done|lia|apply table_map_id]. }
  assert (Hl : lock_free (proc_lock i) (hart_of s)) by (apply Hfree; lia).
  rewrite bind_acquire by done. autorewrite with mdb.
  destruct (Z.eqb_spec (p_pid (proc_of s i)) pid) as [Hpid|Hpid].
  - autorewrite with mdb. rewrite proc_of_updproc, decide_True by done.
    exists 0, (with_hart (settle (hart_of s))
      (if bool_decide (p_state (set_killed 1 (proc_of s i)) = SLEEPING)
       then updproc i (set_state RUNNABLE) (updproc i (set_killed 1) s)
       else updproc i (set_killed 1) s)).
    split_and!; [|done|done|].
    + destruct (bool_decide _); autorewrite with mdb; by rewrite bind_release.
    + left. split; [done|]. exists i. split_and!; [lia|lia|done|lia|]. unfold kill_proc.
      destruct (bool_decide (p_state (set_killed 1 (proc_of s i)) = SLEEPING)) eqn:E.
      * eapply table_map_ext; [|apply table_map_upd2]. intros j.
        repeat case_decide; simplify_eq; rewrite ?E; done.
      * eapply table_map_ext; [|apply table_map_upd]. intros j.
        repeat case_decide; simplify_eq; rewrite ?E; done.
  - rewrite bind_release by done.
    destruct (IH (S i) (with_hart (settle (hart_of s)) s)) as (r & s' & E & Hh & Hz & Hc);
      autorewrite with mdb in *; [lia|auto using settle_ok, procs_free_settle..|].
    exists r, s'. split_and!; [done| |done|].
    + intros _. destruct k; [by rewrite (Hz eq_refl)|]. by rewrite Hh.
    + destruct Hc as [(-> & j & Hj & Hp & Hf & Ht)|(-> & Hf & Ht)].
      * left. split; [done|]. exists j. split_and!; [lia|lia|done| |].
        -- intros j' Hj'. destruct (decide (j' = i)) as [->|]; [done|]. apply Hf. lia.
        -- destruct Ht; by constructor.
      * right. split_and!; [done| |destruct Ht; by constructor].
        intros j Hj. destruct (decide (j = i)) as [->|]; [done|]. apply Hf. lia.
Qed.

(** [kill(pid)] finds the first process with that pid, marks it killed
    and, if it sleeps, makes it runnable so that it can notice, and returns 0;
    it returns -1, changing nothing, exactly when no process has the pid. *)
Theorem kill_correct (pid : Z) (s : pst) (Hok : hart_ok (hart_of s))
    (Hfree : procs_free (hart_of s)) :
  exists r s', kill pid s = Ok r s' /\ hart_of s' = settle (hart_of s) /\
    ((r = 0 /\ exists i, (i < NPROC)%nat /\ p_pid (proc_of s i) = pid /\
        (forall j, (j < i)%nat -> p_pid (proc_of s j) <> pid) /\
        table_map (fun j p => if decide (i = j) then kill_proc p else p) s s') \/
     (r = -1 /\ (forall i, (i < NPROC)%nat -> p_pid (proc_of s i) <> pid) /\
        table_map (fun _ p => p) s s')).
Proof.
  destruct (kill_loop_spec NPROC 0 pid s (le_n _) Hok Hfree) as (r & s' & E & Hh & _ & Hc).
  exists r, s'. split_and!; [done|by apply Hh|].
  destruct Hc as [(-> & i & Hi & Hp & Hf & Ht)|(-> & Hf & Ht)]; [left|right].
  - split; [done|]. exists i. split_and!; [lia|done| |done]. intros j Hj. apply Hf. lia.
  - split_and!; [done| |done]. intros i Hi. apply Hf. lia.
Qed.

(** ** The scheduler *)

Section Scheduler.

(** What the scheduler relies on when it switches to a process ("It is the
    process's job to release its lock and then reacquire it before jumping
    back to us"; [sched] checks it): the process comes back holding its own
    lock and no other one, and processes do not take the processor from
    each other: one that is runnable stays so until it is run. *)
Definition comes_back (run : nat -> M pst unit) (p : nat) : Prop :=
  forall s h, holds_only (proc_lock p) p h (hart_of s) -> procs_free h ->
    exists s' h', run p s = Ok tt s' /\ holds_only (proc_lock p) p h' (hart_of s') /\
      procs_free h' /\
      forall q, q <> p -> p_state (proc_of s q) = RUNNABLE -> p_state (proc_of s' q) = RUNNABLE.

Definition idle_hart (h : hart) : Prop :=
  hart_ok h /\ c_noff (this_cpu h) = 0 /\ c_proc (this_cpu h) = None /\ procs_free h.

Definition set_proc (x : option nat) (h : hart) : hart :=
  let c := this_cpu h in set_cpus (<[tp h := mkcpu x (c_noff c) (c_intena c)]> (cpus h)) h.

Lemma this_cpu_set_proc x h :
  this_cpu (set_proc x h) = mkcpu x (c_noff (this_cpu h)) (c_intena (this_cpu h)).
Proof. unfold this_cpu at 1, set_proc; cbn. by rewrite lookup_insert_eq. Qed.

Lemma set_proc_acquired x l h : set_proc x (acquired l h) = acquired l (set_proc x h).
Proof.
  unfold set_proc at 1. rewrite this_cpu_acquired. cbn [c_noff c_intena].
  unfold acquired, pushed. rewrite this_cpu_set_proc.
  unfold set_cpus, set_locks, take_lock, lock_of, set_proc; cbn. by rewrite !insert_insert_eq.
Qed.

(** One process of a pass. *)
Lemma scheduler_pass_step run k i found s :
  (i < NPROC)%nat -> idle_hart (hart_of s) -> comes_back run i ->
  exists s', idle_hart (hart_of s') /\
    scheduler_pass run (S k) i found s =
      scheduler_pass run k (S i) (bool_decide (p_state (proc_of s i) = RUNNABLE) || found) s' /\
    forall q, q <> i -> p_state (proc_of s q) = RUNNABLE -> p_state (proc_of s' q) = RUNNABLE.
Proof.
  intros Hi (Hok & Hn & Hnone & Hfree) Hrun. cbn [scheduler_pass].
  rewrite bind_acquire by apply Hfree, Hi. autorewrite with mdb.
  set (h := hart_of s) in *. destruct (decide (p_state (proc_of s i) = RUNNABLE)) as [Hst|Hst].
  - rewrite bool_decide_true by done. autorewrite with mdb.
    set (h1 := set_proc (Some i) h). set (s1 := with_hart (acquired (proc_lock i) h) _).
    assert (Hh1 : hart_ok h1 /\ c_noff (this_cpu h1) = 0 /\ procs_free h1).
    { unfold h1, hart_ok. rewrite this_cpu_set_proc. cbn. split_and!; [|apply Hok|done|exact Hfree].
      apply Hok. }
    destruct Hh1 as (Hok1 & Hn1 & Hfree1).
    assert (Ec : lift mycpu s1 = Ok (this_cpu (acquired (proc_lock i) h)) s1) by done.
    rewrite (bind_ok _ _ _ _ _ Ec).
    assert (Es : lift (set_mycpu (mkcpu (Some i) (c_noff (this_cpu (acquired (proc_lock i) h)))
        (c_intena (this_cpu (acquired (proc_lock i) h))))) s1 =
      Ok tt (with_hart (acquired (proc_lock i) h1) s1)).
    { unfold h1. rewrite <- set_proc_acquired. done. }
    rewrite (bind_ok _ _ _ _ _ Es).
    destruct (Hrun (with_hart (acquired (proc_lock i) h1) s1) h1) as (s2 & h2 & E2 & H2 & Hf2 & Hq).
    { constructor; [done..| |apply Hfree1, Hi]. unfold h1. by rewrite this_cpu_set_proc. }
    { done. }
    rewrite (bind_ok _ _ _ _ _ E2). destruct H2 as [Hh2 Hok2 Hn2 Hp2 Hl2].
    assert (Ec2 : lift mycpu s2 = Ok (this_cpu (hart_of s2)) s2).
    { rewrite <- (with_hart_of s2) at 3. done. }
    rewrite (bind_ok _ _ _ _ _ Ec2).
    set (h3 := set_proc None h2).
    assert (Es2 : lift (set_mycpu (mkcpu None (c_noff (this_cpu (hart_of s2)))
        (c_intena (this_cpu (hart_of s2))))) s2 = Ok tt (with_hart (acquired (proc_lock i) h3) s2)).
    { unfold h3. rewrite <- set_proc_acquired, <- Hh2. done. }
    rewrite (bind_ok _ _ _ _ _ Es2).
    assert (Hok3 : hart_ok h3 /\ c_noff (this_cpu h3) = 0 /\ procs_free h3).
    { unfold h3, hart_ok. rewrite this_cpu_set_proc. cbn. split_and!; [|apply Hok2|done|exact Hf2].
      apply Hok2. }
    destruct Hok3 as (Hok3 & Hn3 & Hf3). rewrite bind_release by auto.
    eexists. split; [|split; [reflexivity|]].
    + autorewrite with mdb. split_and!; [by apply settle_ok|by rewrite this_cpu_settle| |].
      { unfold h3. by rewrite this_cpu_settle, this_cpu_set_proc. }
      by apply procs_free_settle.
    + intros q Hqi Hqs. autorewrite with mdb. apply Hq; [done|]. unfold s1. autorewrite with mdb.
      rewrite proc_of_updproc, decide_False by done. done.
  - rewrite bool_decide_false by done. rewrite bind_release by auto.
    exists (with_hart (settle h) s). split_and!; [|done|done].
    autorewrite with mdb. split_and!; [by apply settle_ok|by rewrite this_cpu_settle|by rewrite this_cpu_settle|].
    by apply procs_free_settle.
Qed.

Lemma scheduler_pass_spec run k i found s :
  (i + k <= NPROC)%nat -> idle_hart (hart_of s) -> (forall j, (i <= j < i + k)%nat -> comes_back run j) ->
  exists b s', scheduler_pass run k i found s = Ok b s' /\ idle_hart (hart_of s').
Proof.
  revert i found s. induction k as [|k IH]; intros i found s Hik Hs Hrun; [by exists found, s|].
  destruct (scheduler_pass_step run k i found s ltac:(lia) Hs) as (s1 & H1 & -> & _); [apply Hrun; lia|].
  apply IH; [lia|done|]. intros j Hj. apply Hrun. lia.
Qed.

(** [probe run p] is [run] up to the point where [p] is run. *)
Definition probe (run : nat -> M pst unit) (p : nat) : nat -> M pst unit := fun q =>
  if decide (q = p) then panic "probe" else run q.

Lemma scheduler_pass_probe run p k i found s :
  (i + k <= NPROC)%nat -> idle_hart (hart_of s) -> (forall j, (i <= j < i + k)%nat -> comes_back run j) ->
  (i <= p < i + k)%nat -> p_state (proc_of s p) = RUNNABLE ->
  scheduler_pass (probe run p) k i found s = Panic "probe".
Proof.
  revert i found s. induction k as [|k IH]; intros i found s Hik Hs Hrun Hp Hst; [lia|].
  destruct (decide (i = p)) as [->|Hne].
  - cbn [scheduler_pass]. destruct Hs as (_ & _ & _ & Hfree). rewrite bind_acquire by (apply Hfree; lia).
    autorewrite with mdb. rewrite decide_True by done. autorewrite with mdb.
    unfold probe at 1. rewrite decide_True by done. done.
  - destruct (scheduler_pass_step (probe run p) k i found s ltac:(lia) Hs) as (s1 & H1 & -> & Hq).
    + unfold comes_back, probe. rewrite decide_False by done. apply Hrun. lia.
    + apply IH; [lia|done| |lia|by apply Hq]. intros j Hj. apply Hrun. lia.
Qed.

Lemma idle_intr_on s : idle_hart (hart_of s) ->
  exists s', lift intr_on s = Ok tt s' /\ idle_hart (hart_of s') /\
    forall i, proc_of s' i = proc_of s i.
Proof.
  intros (Hok & Hn & Hnone & Hfree). eexists. split; [by apply (lift_hart intr_on)|].
  rewrite hart_of_with. split; [|done]. set (h := set_sstatus _ _).
  assert (Hc : this_cpu h = this_cpu (hart_of s)) by done.
  split_and!; [split; rewrite Hc, Hn; lia|by rewrite Hc|by rewrite Hc|exact Hfree].
Qed.

End Scheduler.

(** ** Examples: process 1 runs, process 2 sleeps on the console *)

#[local] Instance spinlock_eq_dec : EqDecision spinlock.
Proof. solve_decision. Defined.

Definition lock0 : spinlock := mkspinlock 0 "lock" None.
Definition cons_lock : lockid := ("cons"%string, 0).

Definition locks1 : gmap lockid spinlock :=
  <[cons_lock := lock0]> (list_to_map ((fun i => (proc_lock i, lock0)) <$> seq 0 NPROC)).

Definition hart2 (p : option nat) : hart :=
  mkhart 0 SSTATUS_SIE {[0%nat := mkcpu p 0 0]} locks1.

Definition console_chan : chan := Some ("cons"%string, 1).

Definition procs1 : gmap nat proc :=
  {[1%nat := set_pid 7 (set_state RUNNING proc0);
    2%nat := set_pid 8 (set_chan console_chan (set_state SLEEPING proc0));
    3%nat := set_pid 9 (set_state RUNNABLE proc0)]}.

Definition pst1 (h : hart) : pst := mkpst (mkmm h ∅ 0) procs1 10 (Some 0%nat).

Lemma hart2_ok p : hart_ok (hart2 p).
Proof. split; [vm_compute; discriminate|intros H; exfalso; vm_compute in H; discriminate]. Qed.

Lemma locks1_procs : Forall (fun i => locks1 !! proc_lock i = Some lock0) (seq 0 NPROC).
Proof. apply (bool_decide_unpack _). vm_compute. reflexivity. Qed.

Lemma hart2_free p : procs_free (hart2 p).
Proof.
  intros i Hi. exists "lock"%string. pose proof locks1_procs as H. rewrite Forall_forall in H.
  apply H. apply elem_of_seq. lia.
Qed.

Lemma hart2_cons p : lock_free cons_lock (hart2 p).
Proof. exists "lock"%string. reflexivity. Qed.

Lemma sleep_correct_witness :
  exists s1 k, sleep console_chan cons_lock (pst1 (acquired cons_lock (hart2 (Some 1%nat)))) =
    Yield s1 k /\ p_state (proc_of s1 1) = SLEEPING /\ lock_free cons_lock (hart_of s1).
Proof.
  destruct (sleep_correct console_chan cons_lock 1 (hart2 (Some 1%nat))
    (pst1 (acquired cons_lock (hart2 (Some 1%nat))))) as (s1 & k & E & Ht & Hl & _).
  - constructor; [reflexivity|apply hart2_ok|reflexivity|reflexivity|apply hart2_cons].
  - discriminate.
  - apply hart2_free. apply Nat.ltb_lt. reflexivity.
  - exists s1, k. split_and!; [exact E| |exact Hl]. rewrite (tm_procs _ _ _ Ht). reflexivity.
Defined.

Lemma wakeup_correct_witness :
  exists s', wakeup console_chan (pst1 (hart2 (Some 1%nat))) = Ok tt s' /\
    p_state (proc_of s' 2) = RUNNABLE /\ p_state (proc_of s' 1) = RUNNING.
Proof.
  destruct (wakeup_correct console_chan (pst1 (hart2 (Some 1%nat))) (hart2_ok _) (hart2_free _))
    as (s' & E & _ & Ht).
  exists s'. split_and!; [exact E|rewrite (tm_procs _ _ _ Ht); reflexivity..].
Defined.

Lemma kill_correct_witness :
  exists s', kill 8 (pst1 (hart2 (Some 1%nat))) = Ok 0 s' /\ p_killed (proc_of s' 2) = 1.
Proof.
  destruct (kill_correct 8 (pst1 (hart2 (Some 1%nat))) (hart2_ok _) (hart2_free _))
    as (r & s' & E & _ & [(-> & i & Hi & Hp & Hf & Ht)|(-> & Hf & _)]).
  - exists s'. split; [exact E|]. assert (i = 2%nat) as ->.
    { destruct (decide (i < 2)%nat).
      - destruct i as [|[|i]]; [discriminate Hp..|lia].
      - destruct (decide (i = 2)%nat); [assumption|]. exfalso. apply (Hf 2%nat); [lia|reflexivity]. }
    rewrite (tm_procs _ _ _ Ht). reflexivity.
  - exfalso. apply (Hf 2%nat); [apply Nat.ltb_lt|]; reflexivity.
Defined.

(** A process that goes to sleep at once. *)
Definition run_sleep (p : nat) : M pst unit := updp p (set_state SLEEPING).

Lemma run_sleep_back p : comes_back run_sleep p.
Proof.
  intros s h Hs Hf. exists (updproc p (set_state SLEEPING) s), h. split_and!; [done..|].
  intros q Hq. by rewrite proc_of_updproc, decide_False by congruence.
Qed.

