(* ===== verification/Quiet.v ===== *)
(** * A process in the kernel with no spin lock held

    Most kernel code takes spin locks only for a few statements. Between them
    the process table changes by wakeups only: [woke] relates the states, and
    [proc_quiet] says that the code can be called. *)
From S2P Require Import Prelude CString Spinlock Layout Kalloc Vm Proc ProcSpec.

Record proc_quiet (p : pst) (me : nat) : Prop := {
  pq_hart : hart_ok (hart_of p);
  pq_proc : c_proc (this_cpu (hart_of p)) = Some me;
  pq_free : procs_free (hart_of p);
}.

Record woke (p p' : pst) : Prop := {
  wk_mem : m_mem (p_mm p') = m_mem (p_mm p);
  wk_freelist : freelist (p_mm p') = freelist (p_mm p);
  wk_nextpid : nextpid p' = nextpid p;
  wk_init : initproc p' = initproc p;
  wk_locks : locks (hart_of p') = locks (hart_of p);
  wk_tp : tp (hart_of p') = tp (hart_of p);
  wk_sstatus : sstatus (hart_of p') = sstatus (hart_of p);
  wk_noff : c_noff (this_cpu (hart_of p')) = c_noff (this_cpu (hart_of p));
  wk_cproc : c_proc (this_cpu (hart_of p')) = c_proc (this_cpu (hart_of p));
  wk_procs : forall i, proc_of p' i = proc_of p i \/
    (p_state (proc_of p i) = SLEEPING /\ proc_of p' i = set_state RUNNABLE (proc_of p i));
}.

Lemma woke_refl p : woke p p.
Proof. constructor; auto. Qed.

Lemma woke_trans p1 p2 p3 : woke p1 p2 -> woke p2 p3 -> woke p1 p3.
Proof.
  intros [A1 A2 A3 A4 A5 A6 A7 A8 A9 A10] [B1 B2 B3 B4 B5 B6 B7 B8 B9 B10].
  constructor; try congruence. intros i.
  destruct (A10 i) as [Ha|[Ha1 Ha2]], (B10 i) as [Hb|[Hb1 Hb2]]; rewrite ?Hb, ?Ha, ?Hb2, ?Ha2 in *; auto.
Qed.

#[export] Instance woke_preorder : PreOrder woke.
Proof. split; [exact woke_refl|exact woke_trans]. Qed.

Lemma woke_hart h p :
  locks h = locks (hart_of p) -> tp h = tp (hart_of p) -> sstatus h = sstatus (hart_of p) ->
  c_noff (this_cpu h) = c_noff (this_cpu (hart_of p)) ->
  c_proc (this_cpu h) = c_proc (this_cpu (hart_of p)) -> woke p (with_hart h p).
Proof. intros. constructor; autorewrite with mdb; auto. Qed.

Lemma woke_settle p : woke p (with_hart (settle (hart_of p)) p).
Proof. apply woke_hart; [done..| |]; by rewrite this_cpu_settle. Qed.

Lemma woke_quiet p p' me : woke p p' -> proc_quiet p me -> proc_quiet p' me.
Proof.
  intros W [[Hn Hi] Hp Hf]. constructor.
  - split; rewrite (wk_noff _ _ W); [done|]. unfold intr_enabled. by rewrite (wk_sstatus _ _ W).
  - by rewrite (wk_cproc _ _ W).
  - intros i Hi'. unfold lock_free. rewrite (wk_locks _ _ W). by apply Hf.
Qed.

Lemma woke_free p p' l : woke p p' -> lock_free l (hart_of p) -> lock_free l (hart_of p').
Proof. intros W. unfold lock_free. by rewrite (wk_locks _ _ W). Qed.

(** Fields that wakeups do not touch. *)
Lemma woke_field {A} (f : proc -> A) p p' i :
  (forall q, f (set_state RUNNABLE q) = f q) -> woke p p' -> f (proc_of p' i) = f (proc_of p i).
Proof. intros Hf W. destruct (wk_procs _ _ W i) as [->|[_ ->]]; auto. Qed.

Lemma wakeup_woke ch p me :
  proc_quiet p me -> exists p', wakeup ch p = Ok tt p' /\ woke p p' /\
    hart_of p' = settle (hart_of p) /\
    forall i, proc_of p' i = wake_proc ch (Some me) 0 NPROC i (proc_of p i).
Proof.
  intros [Hok Hp Hf]. destruct (wakeup_loop_spec NPROC 0 ch p (le_n _) Hok Hf)
    as (p' & E & Hh & _ & [T1 T2 T3 T4 T5]).
  specialize (Hh ltac:(discriminate)). rewrite Hp in T1. exists p'. split_and!; [done| |done|done].
  constructor; [done..|rewrite Hh; done|rewrite Hh; done|rewrite Hh; done| | |].
  - by rewrite Hh, this_cpu_settle.
  - by rewrite Hh, this_cpu_settle.
  - intros i. rewrite T1. unfold wake_proc, woken, sleeps_on.
    destruct (_ && _); [|by left]. destruct (bool_decide_reflect (p_state (proc_of p i) = SLEEPING));
      cbn [andb]; [|by left]. case_bool_decide; [by right|by left].
Qed.

Lemma cur_quiet p me :
  proc_quiet p me -> cur p = Ok me (with_hart (settle (hart_of p)) p).
Proof. intros [Hok Hp _]. by apply cur_eq. Qed.

(** ** Critical sections *)

(** Inside a critical section [settle] changes nothing. *)
Lemma settle_acquired l h : hart_ok h -> settle (acquired l h) = acquired l h.
Proof.
  intros [Hn _]. unfold settle. rewrite this_cpu_acquired. cbn [c_proc c_noff c_intena].
  destruct (Z.eqb_spec (c_noff (this_cpu h) + 1) 0); [lia|].
  unfold acquired, set_cpus, set_locks, pushed; cbn. by rewrite insert_insert_eq.
Qed.

(** [p1] is [p] in the critical section of [l], up to wakeups. *)
Record inside (l : lockid) (p p1 : pst) : Prop := {
  in_hart : hart_of p1 = acquired l (hart_of p);
  in_woke : woke p (with_hart (hart_of p) p1);
}.

Definition plain_lock (l : lockid) : Prop := forall i, l <> proc_lock i.

Lemma inside_enter l p : inside l p (with_hart (acquired l (hart_of p)) p).
Proof. split; autorewrite with mdb; [done|]. rewrite with_hart_of. apply woke_refl. Qed.

Lemma inside_quiet l p p1 me :
  plain_lock l -> proc_quiet p me -> inside l p p1 -> proc_quiet p1 me.
Proof.
  intros Hl [Hok Hp Hf] [Hh _]. constructor; rewrite Hh.
  - by apply acquired_ok.
  - by rewrite this_cpu_acquired.
  - intros i Hi. apply lock_free_acquired; [|by apply Hf]. intros E. by apply (Hl i).
Qed.

Lemma inside_woke l p p1 p2 :
  inside l p p1 -> hart_of p2 = hart_of p1 -> woke p1 p2 -> inside l p p2.
Proof.
  intros [Hh W] E W2. split; [congruence|]. etrans; [exact W|].
  destruct W2 as [A1 A2 A3 A4 A5 A6 A7 A8 A9 A10]. by constructor.
Qed.

Lemma inside_release l p p1 me :
  proc_quiet p me -> lock_free l (hart_of p) -> inside l p p1 ->
  release l (hart_of p1) = Ok tt (settle (hart_of p)) /\
  woke p (with_hart (settle (hart_of p)) p1).
Proof.
  intros [Hok _ _] Hl [Hh W]. rewrite Hh. split; [by apply release_acquired|].
  apply (woke_trans _ (with_hart (hart_of p) p1)); [exact W|].
  exact (woke_settle (with_hart (hart_of p) p1)).
Qed.

Lemma inside_cur l p p1 me :
  plain_lock l -> proc_quiet p me -> inside l p p1 -> cur p1 = Ok me p1.
Proof.
  intros Hl Hq Hi. rewrite (cur_quiet _ _ (inside_quiet _ _ _ _ Hl Hq Hi)).
  destruct Hi as [Hh _]. rewrite Hh, settle_acquired by apply Hq. by rewrite <- Hh, with_hart_of.
Qed.

Lemma inside_wakeup l p p1 me ch :
  plain_lock l -> proc_quiet p me -> inside l p p1 ->
  exists p2, wakeup ch p1 = Ok tt p2 /\ inside l p p2 /\
    forall i, proc_of p2 i = wake_proc ch (Some me) 0 NPROC i (proc_of p1 i).
Proof.
  intros Hl Hq Hi. destruct (wakeup_woke ch p1 me (inside_quiet _ _ _ _ Hl Hq Hi)) as (p2 & E & W & Hh & Ht).
  exists p2. split_and!; [done| |done]. eapply inside_woke; [done| |done].
  destruct Hi as [Hh1 _]. rewrite Hh, Hh1. apply settle_acquired, Hq.
Qed.
