(* ===== verification/Console.v ===== *)
(** * The UART and the console

    Models [src/xv6-os/kernel/uart.c], [console.c] and the locking of
    [printf] and [panic] in [printf.c]. The device is seen through its registers: the answers
    of successive reads of the line status and of the receive register are
    lists, and the bytes written to registers are recorded. *)
From S2P Require Import Prelude CString Spinlock Layout Blocks Printf Kalloc Vm Proc ProcSpec.

Definition RHR : Z := 0.
Definition THR : Z := 0.
Definition IER : Z := 1.
Definition IER_RX_ENABLE : Z := Z.shiftl 1 0.
Definition IER_TX_ENABLE : Z := Z.shiftl 1 1.
Definition FCR : Z := 2.
Definition FCR_FIFO_ENABLE : Z := Z.shiftl 1 0.
Definition FCR_FIFO_CLEAR : Z := Z.shiftl 3 1.
Definition LCR : Z := 3.
Definition LCR_EIGHT_BITS : Z := Z.shiftl 3 0.
Definition LCR_BAUD_LATCH : Z := Z.shiftl 1 7.
Definition LSR_TX_IDLE : Z := Z.shiftl 1 5.

Definition UART_TX_BUF_SIZE : Z := 32.
Definition BACKSPACE : Z := 0x100.
Definition INPUT_BUF_SIZE : Z := 128.
Definition Ctrl (x : string) : Z := ch x - ch "@".

Record conss := mkconss {
  u_lsr : list Z;
  u_rhr : list Z;
  u_out : list (Z * Z);
  tx_buf : list Z;
  tx_w : Z;
  tx_r : Z;
  panicked : Z;
  cons_buf : list Z;
  cons_r : Z;
  cons_w : Z;
  cons_e : Z;
  pr_locking : Z;
}.

Record cst := mkcst { c_pst : pst; c_dev : conss }.

#[export] Instance sub_pst_cst : Sub pst cst := {|
  sub_get := c_pst;
  sub_put x s := mkcst x (c_dev s);
|}.
#[export] Instance sub_hart_cst : Sub hart cst := {|
  sub_get s := sub_get (c_pst s);
  sub_put x s := mkcst (sub_put x (c_pst s)) (c_dev s);
|}.

Definition getc {A} (f : conss -> A) : M cst A := gets (fun s => f (c_dev s)).
Definition updc (f : conss -> conss) : M cst unit := modify (fun s => mkcst (c_pst s) (f (c_dev s))).

Section Setters.
Implicit Types c : conss.
Definition set_lsr x c := mkconss x (u_rhr c) (u_out c) (tx_buf c) (tx_w c) (tx_r c) (panicked c) (cons_buf c) (cons_r c) (cons_w c) (cons_e c) (pr_locking c).
Definition set_rhr x c := mkconss (u_lsr c) x (u_out c) (tx_buf c) (tx_w c) (tx_r c) (panicked c) (cons_buf c) (cons_r c) (cons_w c) (cons_e c) (pr_locking c).
Definition set_out x c := mkconss (u_lsr c) (u_rhr c) x (tx_buf c) (tx_w c) (tx_r c) (panicked c) (cons_buf c) (cons_r c) (cons_w c) (cons_e c) (pr_locking c).
Definition set_tx b w c := mkconss (u_lsr c) (u_rhr c) (u_out c) b w (tx_r c) (panicked c) (cons_buf c) (cons_r c) (cons_w c) (cons_e c) (pr_locking c).
Definition set_txr x c := mkconss (u_lsr c) (u_rhr c) (u_out c) (tx_buf c) (tx_w c) x (panicked c) (cons_buf c) (cons_r c) (cons_w c) (cons_e c) (pr_locking c).
Definition set_consr x c := mkconss (u_lsr c) (u_rhr c) (u_out c) (tx_buf c) (tx_w c) (tx_r c) (panicked c) (cons_buf c) x (cons_w c) (cons_e c) (pr_locking c).
Definition set_consw x c := mkconss (u_lsr c) (u_rhr c) (u_out c) (tx_buf c) (tx_w c) (tx_r c) (panicked c) (cons_buf c) (cons_r c) x (cons_e c) (pr_locking c).
Definition set_conse x c := mkconss (u_lsr c) (u_rhr c) (u_out c) (tx_buf c) (tx_w c) (tx_r c) (panicked c) (cons_buf c) (cons_r c) (cons_w c) x (pr_locking c).
Definition set_consbuf x c := mkconss (u_lsr c) (u_rhr c) (u_out c) (tx_buf c) (tx_w c) (tx_r c) (panicked c) x (cons_r c) (cons_w c) (cons_e c) (pr_locking c).
Definition set_locking x c := mkconss (u_lsr c) (u_rhr c) (u_out c) (tx_buf c) (tx_w c) (tx_r c) (panicked c) (cons_buf c) (cons_r c) (cons_w c) (cons_e c) x.
End Setters.

(** ** Registers *)

Definition WriteReg (reg v : Z) : M cst unit := updc (fun c => set_out (u_out c ++ [(reg, u8 v)]) c).

(** A read past the answers given does not end. *)
Definition ReadLSR : M cst Z :=
  let! l := getc u_lsr in
  match l with
  | [] => out_of_fuel
  | x :: l => updc (set_lsr l) ;;; mret' x
  end.

Definition ReadRHR : M cst Z :=
  let! l := getc u_rhr in
  match l with
  | [] => out_of_fuel
  | x :: l => updc (set_rhr l) ;;; mret' (u8 x)
  end.

Definition uart_tx_lock : lockid := ("uart"%string, 0).
Definition cons_lock : lockid := ("cons"%string, 0).
Definition pr_lock : lockid := ("pr"%string, 0).
Definition uart_chan : chan := Some ("uart_tx_r"%string, 0).
Definition cons_chan : chan := Some ("cons.r"%string, 0).

(** ** uart.c *)

Definition uartinit : M cst unit :=
  WriteReg IER 0x00 ;;;
  WriteReg LCR LCR_BAUD_LATCH ;;;
  WriteReg 0 0x03 ;;;
  WriteReg 1 0x00 ;;;
  WriteReg LCR LCR_EIGHT_BITS ;;;
  WriteReg FCR (Z.lor FCR_FIFO_ENABLE FCR_FIFO_CLEAR) ;;;
  WriteReg IER (Z.lor IER_TX_ENABLE IER_RX_ENABLE) ;;;
  lift (initlock uart_tx_lock "uart").

(** [uartstart] sends one byte per round; the buffer has [UART_TX_BUF_SIZE]. *)
Fixpoint uartstart_loop (k : nat) : M cst unit :=
  let! c := getc id in
  if tx_w c =? tx_r c then mret' tt
  else
    match k with
    | O => out_of_fuel
    | S k =>
        let! lsr := ReadLSR in
        if Z.land lsr LSR_TX_IDLE =? 0 then mret' tt
        else
          let x := nth (Z.to_nat (tx_r c mod UART_TX_BUF_SIZE)) (tx_buf c) 0 in
          updc (set_txr (u64 (tx_r c + 1))) ;;;
          lift (wakeup uart_chan) ;;;
          WriteReg THR x ;;;
          uartstart_loop k
    end.

Definition uartstart : M cst unit := uartstart_loop (Z.to_nat UART_TX_BUF_SIZE).

(** [fuel] bounds the number of wakeups. *)
Fixpoint uartputc_wait (fuel : nat) : M cst unit :=
  let! c := getc id in
  if tx_w c =? u64 (tx_r c + UART_TX_BUF_SIZE) then
    match fuel with
    | O => out_of_fuel
    | S fuel => lift (sleep uart_chan uart_tx_lock) ;;; uartputc_wait fuel
    end
  else mret' tt.

Definition uartputc (fuel : nat) (x : Z) : M cst unit :=
  lift (acquire uart_tx_lock) ;;;
  let! p := getc panicked in
  if negb (p =? 0) then spin
  else
    uartputc_wait fuel ;;;
    let! c := getc id in
    updc (set_tx (<[Z.to_nat (tx_w c mod UART_TX_BUF_SIZE) := u8 x]> (tx_buf c)) (u64 (tx_w c + 1))) ;;;
    uartstart ;;;
    lift (release uart_tx_lock).

(** The wait for the transmitter, over the answers of the register. *)
Fixpoint wait_idle (k : nat) : M cst unit :=
  match k with
  | O => out_of_fuel
  | S k =>
      let! lsr := ReadLSR in
      if Z.land lsr LSR_TX_IDLE =? 0 then wait_idle k else mret' tt
  end.

Definition uartputc_sync (x : Z) : M cst unit :=
  lift push_off ;;;
  let! p := getc panicked in
  if negb (p =? 0) then spin
  else
    let! l := getc u_lsr in
    wait_idle (S (length l)) ;;;
    WriteReg THR x ;;;
    lift pop_off.

Definition uartgetc : M cst Z :=
  let! lsr := ReadLSR in
  if negb (Z.land lsr 0x01 =? 0) then ReadRHR else mret' (-1).

(** ** console.c *)

Definition consputc (c : Z) : M cst unit :=
  if c =? BACKSPACE then
    uartputc_sync 8 ;;; uartputc_sync (ch " ") ;;; uartputc_sync 8
  else uartputc_sync c.

Fixpoint consputs (l : list Z) : M cst unit :=
  match l with
  | [] => mret' tt
  | c :: l => consputc c ;;; consputs l
  end.

(** [printf]: the characters of [format], under the lock unless the kernel has
    panicked. A call that is undefined in C is not made by the kernel. *)
Definition printf (fmt : list Z) (args : list parg) : M cst unit :=
  let! locking := getc pr_locking in
  (if negb (locking =? 0) then lift (acquire pr_lock) else mret' tt) ;;;
  (match format fmt args with
   | Some l => consputs l
   | None => panic "undefined"
   end) ;;;
  (if negb (locking =? 0) then lift (release pr_lock) else mret' tt).

Definition printfinit : M cst unit :=
  lift (initlock pr_lock "pr") ;;;
  updc (set_locking 1).

(** [procdump] of proc.c, which runs without locks. *)
Definition state_name (x : procstate) : list Z :=
  match x with
  | UNUSED => str "unused"
  | USED => str "used"
  | SLEEPING => str "sleep "
  | RUNNABLE => str "runble"
  | RUNNING => str "run   "
  | ZOMBIE => str "zombie"
  end.

Definition newline : Z := 10.

Fixpoint procdump_loop (k : nat) (i : nat) : M cst unit :=
  match k with
  | O => mret' tt
  | S k =>
      let! p := lift (getp i id) in
      (if decide (p_state p = UNUSED) then mret' tt
       else
         printf (str "%d %s %s")
           [PNum (p_pid p); PStr (Some (state_name (p_state p))); PStr (Some (p_name p))] ;;;
         printf [newline] []) ;;;
      procdump_loop k (S i)
  end.

Definition procdump : M cst unit :=
  printf [newline] [] ;;;
  procdump_loop NPROC 0.

Definition buf_at (c : conss) (i : Z) : Z := nth (Z.to_nat (i mod INPUT_BUF_SIZE)) (cons_buf c) 0.

(** The loop for kill-line: it removes at most the bytes of the line. *)
Fixpoint kill_line (k : nat) : M cst unit :=
  let! c := getc id in
  if negb (cons_e c =? cons_w c) && negb (buf_at c (u32 (cons_e c - 1)) =? newline) then
    match k with
    | O => out_of_fuel
    | S k =>
        updc (set_conse (u32 (cons_e c - 1))) ;;;
        consputc BACKSPACE ;;;
        kill_line k
    end
  else mret' tt.

Definition consoleintr (c : Z) : M cst unit :=
  lift (acquire cons_lock) ;;;
  (if c =? Ctrl "P" then procdump
   else if c =? Ctrl "U" then kill_line (Z.to_nat INPUT_BUF_SIZE)
   else if (c =? Ctrl "H") || (c =? 127) then
     let! x := getc id in
     if negb (cons_e x =? cons_w x) then
       updc (set_conse (u32 (cons_e x - 1))) ;;;
       consputc BACKSPACE
     else mret' tt
   else
     let! x := getc id in
     if negb (c =? 0) && (u32 (cons_e x - cons_r x) <? INPUT_BUF_SIZE) then
       let c := if c =? 13 then newline else c in
       consputc c ;;;
       updc (set_consbuf (<[Z.to_nat (cons_e x mod INPUT_BUF_SIZE) := u8 c]> (cons_buf x))) ;;;
       updc (set_conse (u32 (cons_e x + 1))) ;;;
       let! x := getc id in
       if (c =? newline) || (c =? Ctrl "D") || (u32 (cons_e x - cons_r x) =? INPUT_BUF_SIZE) then
         updc (set_consw (cons_e x)) ;;;
         lift (wakeup cons_chan)
       else mret' tt
     else mret' tt) ;;;
  lift (release cons_lock).

(** The loop of [uartintr]: each round reads the line status. *)
Fixpoint uartintr_loop (k : nat) : M cst unit :=
  match k with
  | O => out_of_fuel
  | S k =>
      let! c := uartgetc in
      if c =? -1 then mret' tt
      else consoleintr c ;;; uartintr_loop k
  end.

Definition uartintr : M cst unit :=
  let! l := getc u_lsr in
  uartintr_loop (S (length l)) ;;;
  lift (acquire uart_tx_lock) ;;;
  uartstart ;;;
  lift (release uart_tx_lock).

Section Console.
Context (fuel : nat).

Fixpoint consolewrite_loop (k : nat) (user_src : bool) (src i : Z) : M cst Z :=
  match k with
  | O => mret' i
  | S k =>
      let! r := lift (either_copyin user_src (u64 (src + i)) 1) in
      if r.1 =? -1 then mret' i
      else
        uartputc fuel (hd 0 r.2) ;;;
        consolewrite_loop k user_src src (i + 1)
  end.

Definition consolewrite (user_src : bool) (src n : Z) : M cst Z :=
  consolewrite_loop (Z.to_nat n) user_src src 0.

(** The inner wait of [consoleread]: [false] when the process was killed. *)
Fixpoint consoleread_wait (f : nat) : M cst bool :=
  let! c := getc id in
  if cons_r c =? cons_w c then
    let! p := lift cur in
    let! k := lift (killed p) in
    if negb (k =? 0) then mret' false
    else
      match f with
      | O => out_of_fuel
      | S f => lift (sleep cons_chan cons_lock) ;;; consoleread_wait f
      end
  else mret' true.

(** The loop of [consoleread] with [k] bytes still wanted: [None] when the
    process was killed, otherwise the number of bytes still wanted at the end. *)
Fixpoint consoleread_loop (k : nat) (user_dst : bool) (dst target : Z) : M cst (option Z) :=
  match k with
  | O => mret' (Some 0)
  | S k' =>
      let n := Z.of_nat k in
      let! ok := consoleread_wait fuel in
      if negb ok then mret' None
      else
        let! x := getc id in
        let c := buf_at x (cons_r x) in
        updc (set_consr (u32 (cons_r x + 1))) ;;;
        if c =? Ctrl "D" then
          (if n <? target then updc (set_consr (cons_r x)) else mret' tt) ;;;
          mret' (Some n)
        else
          let! r := lift (either_copyout user_dst dst [c]) in
          if r =? -1 then mret' (Some n)
          else if c =? newline then mret' (Some (n - 1))
          else consoleread_loop k' user_dst (u64 (dst + 1)) target
  end.

Definition consoleread (user_dst : bool) (dst n : Z) : M cst Z :=
  lift (acquire cons_lock) ;;;
  let! r := consoleread_loop (Z.to_nat n) user_dst dst (u32 n) in
  lift (release cons_lock) ;;;
  match r with
  | None => mret' (-1)
  | Some rest => mret' (if n <=? 0 then 0 else n - rest)
  end.
End Console.
