(* ===== verification/Buddy.v ===== *)
(** * The buddy allocator and its lists

    Models [src/xv6-os/kernel/list.c] and [buddy.c] on the byte memory: a
    [struct list] is two pointers, an [Sz_info] is a list head followed by
    the pointers to its two bit arrays. *)
From S2P Require Import Prelude CString Spinlock Layout Blocks Printf Kalloc Vm Proc Console.

(** The console's state, for the messages, and the variables of buddy.c. *)
Record bdst := mkbdst {
  bd_c : cst;
  nsizes : Z;
  bd_sizes : Z;
  bd_base : Z;
}.

#[export] Instance sub_cst_bdst : Sub cst bdst := {|
  sub_get := bd_c;
  sub_put x s := mkbdst x (nsizes s) (bd_sizes s) (bd_base s);
|}.
#[export] Instance sub_mm_bdst : Sub mm bdst := {|
  sub_get s := p_mm (c_pst (bd_c s));
  sub_put x s := mkbdst (mkcst (sub_put x (c_pst (bd_c s))) (c_dev (bd_c s))) (nsizes s) (bd_sizes s) (bd_base s);
|}.
#[export] Instance sub_hart_bdst : Sub hart bdst := {|
  sub_get s := sub_get (bd_c s);
  sub_put x s := mkbdst (sub_put x (bd_c s)) (nsizes s) (bd_sizes s) (bd_base s);
|}.

Definition bd_mem (s : bdst) : mem := m_mem (p_mm (c_pst (bd_c s))).
Definition getm {A} (f : mem -> A) : M bdst A := gets (fun s => f (bd_mem s)).
Definition updm (f : mem -> mem) : M bdst unit := lift (S:=mm) (upd_mem f).

(** ** list.c *)

(** [struct list]: [next] at 0 and [prev] at 8. *)
Definition l_next (m : mem) (e : Z) : Z := ld64 m e.
Definition l_prev (m : mem) (e : Z) : Z := ld64 m (e + 8).
Definition set_next (e x : Z) (m : mem) : mem := st64 m e x.
Definition set_prev (e x : Z) (m : mem) : mem := st64 m (e + 8) x.

Definition lst_init (lst : Z) (m : mem) : mem := set_prev lst lst (set_next lst lst m).

Definition lst_empty (m : mem) (lst : Z) : bool := l_next m lst =? lst.

Definition lst_remove (e : Z) (m : mem) : mem :=
  let m := set_next (l_prev m e) (l_next m e) m in
  set_prev (l_next m e) (l_prev m e) m.

(** [None] is the panic. *)
Definition lst_pop (lst : Z) (m : mem) : option (Z * mem) :=
  if l_next m lst =? lst then None
  else let p := l_next m lst in Some (p, lst_remove p m).

Definition lst_push (lst p : Z) (m : mem) : mem :=
  let m := set_next p (l_next m lst) m in
  let m := set_prev p lst m in
  let m := set_prev (l_next m lst) p m in
  set_next lst p m.

Fixpoint lst_print_loop (k : nat) (lst p : Z) : M bdst unit :=
  if p =? lst then mret' tt
  else
    match k with
    | O => out_of_fuel
    | S k =>
        lift (printf (str " %p") [PNum p]) ;;;
        let! n := getm (fun m => l_next m p) in
        lst_print_loop k lst n
    end.

Definition lst_print (fuel : nat) (lst : Z) : M bdst unit :=
  let! p := getm (fun m => l_next m lst) in
  lst_print_loop fuel lst p ;;;
  lift (printf [newline] []).

(** ** buddy.c *)

Definition LEAF_SIZE : Z := 16.
Definition BLK_SIZE (k : Z) : Z := Z.shiftl 1 k * LEAF_SIZE.
Definition ROUNDUP (n sz : Z) : Z := (Z.quot (n - 1) sz + 1) * sz.
(** The same at [uint64]. *)
Definition ROUNDUP64 (n sz : Z) : Z := u64 ((u64 (n - 1) / sz + 1) * sz).
Definition MAXSIZE (s : bdst) : Z := nsizes s - 1.
Definition NBLK (s : bdst) (k : Z) : Z := s32 (Z.shiftl 1 (MAXSIZE s - k)).

Definition sizeof_Sz_info : Z := 32.

(** [&bd_sizes[k].free], [bd_sizes[k].alloc] and [bd_sizes[k].split]. *)
Definition free_at (s : bdst) (k : Z) : Z := bd_sizes s + sizeof_Sz_info * k.
Definition alloc_at (s : bdst) (k : Z) : Z := ld64 (bd_mem s) (free_at s k + 16).
Definition split_at (s : bdst) (k : Z) : Z := ld64 (bd_mem s) (free_at s k + 24).

(** [char] is unsigned. *)
Definition bit_m (index : Z) : Z := u8 (Z.shiftl 1 (Z.rem index 8)).

Definition bit_isset (m : mem) (array index : Z) : bool :=
  let b := rd m (array + Z.quot index 8) in
  Z.land b (bit_m index) =? bit_m index.

Definition bit_set (array index : Z) (m : mem) : mem :=
  let b := rd m (array + Z.quot index 8) in
  wr m (array + Z.quot index 8) (Z.lor b (bit_m index)).

Definition bit_clear (array index : Z) (m : mem) : mem :=
  let b := rd m (array + Z.quot index 8) in
  wr m (array + Z.quot index 8) (Z.land b (Z.lnot (bit_m index))).

Definition range_fmt : list Z := str " [%d, %d)".

Fixpoint bd_print_vector_loop (k : nat) (vector b last lb : Z) : M bdst (Z * Z) :=
  match k with
  | O => mret' (last, lb)
  | S k =>
      let! set := getm (fun m => b2z (bit_isset m vector b)) in
      if last =? set then bd_print_vector_loop k vector (b + 1) last lb
      else
        (if last =? 1 then lift (printf range_fmt [PNum lb; PNum b]) else mret' tt) ;;;
        bd_print_vector_loop k vector (b + 1) set b
  end.

Definition bd_print_vector (vector len : Z) : M bdst unit :=
  let! r := bd_print_vector_loop (Z.to_nat len) vector 0 1 0 in
  (if (r.2 =? 0) || (r.1 =? 1) then lift (printf range_fmt [PNum r.2; PNum len]) else mret' tt) ;;;
  lift (printf [newline] []).

Fixpoint bd_print_loop (fuel n : nat) (k : Z) : M bdst unit :=
  match n with
  | O => mret' tt
  | S n =>
      let! nb := gets (fun s => NBLK s k) in
      lift (printf (str "size %d (blksz %ld nblk %d): free list: ") [PNum k; PNum (BLK_SIZE k); PNum nb]) ;;;
      let! f := gets (fun s => free_at s k) in
      lst_print fuel f ;;;
      lift (printf (str "  alloc:") []) ;;;
      let! a := gets (fun s => alloc_at s k) in
      bd_print_vector a nb ;;;
      (if 0 <? k then
         lift (printf (str "  split:") []) ;;;
         let! sp := gets (fun s => split_at s k) in
         bd_print_vector sp nb
       else mret' tt) ;;;
      bd_print_loop fuel n (k + 1)
  end.

Definition bd_print (fuel : nat) : M bdst unit :=
  let! n := gets nsizes in
  bd_print_loop fuel (Z.to_nat n) 0.

(** The search of [firstk]; [None] when [fuel] rounds are not enough. *)
Fixpoint firstk_loop (fuel : nat) (n k size : Z) : option Z :=
  if size <? n then
    match fuel with
    | O => None
    | S fuel => firstk_loop fuel n (k + 1) (u64 (size * 2))
    end
  else Some k.

Definition firstk (fuel : nat) (n : Z) : option Z := firstk_loop fuel n 0 LEAF_SIZE.

(** [LEAF_SIZE] can be doubled 60 times before it is 0. *)
Definition firstk_fuel : nat := 60.

Definition blk_index (s : bdst) (k p : Z) : Z := s32 (Z.quot (s32 (p - bd_base s)) (BLK_SIZE k)).

Definition addr (s : bdst) (k bi : Z) : Z := bd_base s + s32 (bi * BLK_SIZE k).

(** The first size from [k] on with a free block. *)
Fixpoint find_size (n : nat) (s : bdst) (k : Z) : Z :=
  match n with
  | O => k
  | S n => if lst_empty (bd_mem s) (free_at s k) then find_size n s (k + 1) else k
  end.

(** The splitting of block [p] from size [k] down to [fk]. *)
Fixpoint bd_split (n : nat) (p k : Z) : M bdst unit :=
  match n with
  | O => mret' tt
  | S n =>
      let q := p + BLK_SIZE (k - 1) in
      let! s := get in
      updm (bit_set (split_at s k) (blk_index s k p)) ;;;
      let! s := get in
      updm (bit_set (alloc_at s (k - 1)) (blk_index s (k - 1) p)) ;;;
      let! s := get in
      updm (lst_push (free_at s (k - 1)) q) ;;;
      bd_split n p (k - 1)
  end.

Definition bd_lock : lockid := ("buddy"%string, 0).

Definition bd_malloc (nbytes : Z) : M bdst Z :=
  lift (acquire bd_lock) ;;;
  match firstk firstk_fuel nbytes with
  | None => spin
  | Some fk =>
      let! s := get in
      let k := find_size (Z.to_nat (nsizes s - fk)) s fk in
      if nsizes s <=? k then
        lift (release bd_lock) ;;;
        mret' 0
      else
        match lst_pop (free_at s k) (bd_mem s) with
        | None => panic "lst_pop"
        | Some (p, m) =>
            updm (fun _ => m) ;;;
            let! s := get in
            updm (bit_set (alloc_at s k) (blk_index s k p)) ;;;
            bd_split (Z.to_nat (k - fk)) p k ;;;
            lift (release bd_lock) ;;;
            mret' p
        end
  end.

Fixpoint bd_size_loop (n : nat) (s : bdst) (p k : Z) : Z :=
  match n with
  | O => 0
  | S n =>
      if bit_isset (bd_mem s) (split_at s (k + 1)) (blk_index s (k + 1) p) then k
      else bd_size_loop n s p (k + 1)
  end.

(** [size] of buddy.c *)
Definition bd_size (s : bdst) (p : Z) : Z := bd_size_loop (Z.to_nat (nsizes s)) s p 0.

Definition buddy_of (bi : Z) : Z := if Z.rem bi 2 =? 0 then bi + 1 else bi - 1.

(** The merging of [p] with its buddies from size [k] on: the block to put on
    the free list, and its size. *)
Fixpoint bd_merge (n : nat) (p k : Z) : M bdst (Z * Z) :=
  match n with
  | O => mret' (p, k)
  | S n =>
      let! s := get in
      let bi := blk_index s k p in
      let buddy := buddy_of bi in
      updm (bit_clear (alloc_at s k) bi) ;;;
      let! s := get in
      if bit_isset (bd_mem s) (alloc_at s k) buddy then mret' (p, k)
      else
        let q := addr s k buddy in
        updm (lst_remove q) ;;;
        let p := if Z.rem buddy 2 =? 0 then q else p in
        let! s := get in
        updm (bit_clear (split_at s (k + 1)) (blk_index s (k + 1) p)) ;;;
        bd_merge n p (k + 1)
  end.

Definition bd_free (p : Z) : M bdst unit :=
  lift (acquire bd_lock) ;;;
  let! s := get in
  let k := bd_size s p in
  let! r := bd_merge (Z.to_nat (MAXSIZE s - k)) p k in
  let! s := get in
  updm (lst_push (free_at s r.2) r.1) ;;;
  lift (release bd_lock).

(** ** Initialisation *)

Definition blk_index_next (s : bdst) (k p : Z) : Z :=
  let n := s32 (Z.quot (p - bd_base s) (BLK_SIZE k)) in
  if negb (Z.rem (p - bd_base s) (BLK_SIZE k) =? 0) then n + 1 else n.

Fixpoint log2_loop (fuel : nat) (n k : Z) : Z :=
  match fuel with
  | O => k
  | S fuel => if 1 <? n then log2_loop fuel (Z.shiftr n 1) (k + 1) else k
  end.

(** [_log2]; a 64-bit number is shifted at most 63 times. *)
Definition log2 (n : Z) : Z := log2_loop 64 n 0.

Fixpoint bd_mark_blocks (n : nat) (k bi : Z) : M bdst unit :=
  match n with
  | O => mret' tt
  | S n =>
      let! s := get in
      (if 0 <? k then updm (bit_set (split_at s k) bi) else mret' tt) ;;;
      let! s := get in
      updm (bit_set (alloc_at s k) bi) ;;;
      bd_mark_blocks n k (bi + 1)
  end.

Fixpoint bd_mark_loop (n : nat) (start stop k : Z) : M bdst unit :=
  match n with
  | O => mret' tt
  | S n =>
      let! s := get in
      let bi := blk_index s k start in
      let bj := blk_index_next s k stop in
      bd_mark_blocks (Z.to_nat (bj - bi)) k bi ;;;
      bd_mark_loop n start stop (k + 1)
  end.

Definition bd_mark (start stop : Z) : M bdst unit :=
  if negb (u64 start mod LEAF_SIZE =? 0) || negb (u64 stop mod LEAF_SIZE =? 0) then panic "bd_mark"
  else
    let! n := gets nsizes in
    bd_mark_loop (Z.to_nat n) start stop 0.

Definition bd_initfree_pair (k bi : Z) : M bdst Z :=
  let buddy := buddy_of bi in
  let! s := get in
  let a := bit_isset (bd_mem s) (alloc_at s k) bi in
  let b := bit_isset (bd_mem s) (alloc_at s k) buddy in
  if negb (eqb a b) then
    (if a then updm (lst_push (free_at s k) (addr s k buddy))
     else updm (lst_push (free_at s k) (addr s k bi))) ;;;
    mret' (s32 (BLK_SIZE k))
  else mret' 0.

Fixpoint bd_initfree_loop (n : nat) (bd_left bd_right k free : Z) : M bdst Z :=
  match n with
  | O => mret' free
  | S n =>
      let! s := get in
      let lft := blk_index_next s k bd_left in
      let rgt := blk_index s k bd_right in
      let! f := bd_initfree_pair k lft in
      let free := s32 (free + f) in
      if rgt <=? lft then bd_initfree_loop n bd_left bd_right (k + 1) free
      else
        let! f := bd_initfree_pair k rgt in
        bd_initfree_loop n bd_left bd_right (k + 1) (s32 (free + f))
  end.

Definition bd_initfree (bd_left bd_right : Z) : M bdst Z :=
  let! s := get in
  bd_initfree_loop (Z.to_nat (MAXSIZE s)) bd_left bd_right 0 0.

Definition bd_mark_data_structures (p : Z) : M bdst Z :=
  let! s := get in
  let meta := s32 (p - bd_base s) in
  lift (printf (str "bd: %d meta bytes for managing %ld bytes of memory" ++ [newline])
          [PNum meta; PNum (BLK_SIZE (MAXSIZE s))]) ;;;
  bd_mark (bd_base s) p ;;;
  mret' meta.

Definition bd_mark_unavailable (stop : Z) : M bdst Z :=
  let! s := get in
  let heap := BLK_SIZE (MAXSIZE s) in
  let unavailable := s32 (heap - (stop - bd_base s)) in
  let unavailable := if 0 <? unavailable then s32 (ROUNDUP unavailable LEAF_SIZE) else unavailable in
  lift (printf (str "bd: 0x%x bytes unavailable" ++ [newline]) [PNum unavailable]) ;;;
  bd_mark (bd_base s + heap - unavailable) (bd_base s + heap) ;;;
  mret' unavailable.

(** The alloc arrays of the sizes from [k] on, at [p]; the end of the last. *)
Fixpoint init_alloc (n : nat) (k p : Z) : M bdst Z :=
  match n with
  | O => mret' p
  | S n =>
      let! s := get in
      updm (lst_init (free_at s k)) ;;;
      let sz := Z.quot (ROUNDUP (NBLK s k) 8) 8 in
      updm (fun m => st64 m (free_at s k + 16) p) ;;;
      updm (fun m => memset m p 0 sz) ;;;
      init_alloc n (k + 1) (p + sz)
  end.

Fixpoint init_split (n : nat) (k p : Z) : M bdst Z :=
  match n with
  | O => mret' p
  | S n =>
      let! s := get in
      let sz := Z.quot (ROUNDUP (NBLK s k) 8) 8 in
      updm (fun m => st64 m (free_at s k + 24) p) ;;;
      updm (fun m => memset m p 0 sz) ;;;
      init_split n (k + 1) (p + sz)
  end.

Definition bd_init (base stop : Z) : M bdst unit :=
  let p := ROUNDUP64 base LEAF_SIZE in
  lift (initlock bd_lock "buddy") ;;;
  let n := log2 (u64 (Z.quot (stop - p) LEAF_SIZE)) + 1 in
  let n := if BLK_SIZE (n - 1) <? stop - p then n + 1 else n in
  modify (fun s => mkbdst (bd_c s) n p p) ;;;
  lift (printf (str "bd: memory sz is %ld bytes; allocate an size array of length %d" ++ [newline])
          [PNum (stop - p); PNum n]) ;;;
  updm (fun m => memset m p 0 (sizeof_Sz_info * n)) ;;;
  let! p := init_alloc (Z.to_nat n) 0 (p + sizeof_Sz_info * n) in
  let! p := init_split (Z.to_nat (n - 1)) 1 p in
  let p := ROUNDUP64 p LEAF_SIZE in
  let! meta := bd_mark_data_structures p in
  let! unavailable := bd_mark_unavailable stop in
  let! s := get in
  let heap := BLK_SIZE (MAXSIZE s) in
  let! free := bd_initfree p (bd_base s + heap - unavailable) in
  if negb (free =? heap - meta - unavailable) then
    lift (printf (str "free %d %ld" ++ [newline]) [PNum free; PNum (heap - meta - unavailable)]) ;;;
    panic "bd_init: free mem"
  else mret' tt.
