(* ===== verification/BuddySpec.v ===== *)
(** * Correctness of the buddy allocator's parts

    The search for a size, the bit arrays and the free lists in memory. *)
From S2P Require Import Prelude CString Spinlock Layout Dll Blocks Printf Kalloc Vm Proc Console Buddy.

(** ** The size search *)

Lemma firstk_find n fuel k :
  0 <= k -> (k = 0 \/ LEAF_SIZE * 2 ^ (k - 1) < n) -> n <= 2 ^ 63 -> k + Z.of_nat fuel = 59 ->
  exists r, firstk_loop fuel n k (LEAF_SIZE * 2 ^ k) = Some r /\ k <= r <= 59 /\
    n <= LEAF_SIZE * 2 ^ r /\ (r = 0 \/ LEAF_SIZE * 2 ^ (r - 1) < n).
Proof.
  revert k. induction fuel as [|fuel IH]; intros k Hk Hlow Hn Hf; cbn [firstk_loop].
  - assert (k = 59) as -> by lia. change (LEAF_SIZE * 2 ^ 59) with (2 ^ 63).
    replace (2 ^ 63 <? n) with false by lia. exists 59. unfold LEAF_SIZE in *. split_and!; [done|lia..|done].
  - destruct (Z.ltb_spec (LEAF_SIZE * 2 ^ k) n) as [Hlt|Hge].
    + assert (Hp : u64 (LEAF_SIZE * 2 ^ k * 2) = LEAF_SIZE * 2 ^ (k + 1)).
      { rewrite Z.pow_add_r by lia. change (2 ^ 1) with 2.
        assert (2 ^ k <= 2 ^ 58) by (apply Z.pow_le_mono_r; lia). pose proof (Z.pow_nonneg 2 k).
        rewrite u64_small; unfold LEAF_SIZE; lia. }
      rewrite Hp. destruct (IH (k + 1)) as (r & H1 & H2 & H3 & H4); [lia| |done|lia|].
      { right. by replace (k + 1 - 1) with k by lia. }
      exists r. split_and!; [done|lia..|done].
    + exists k. split_and!; [done|lia..|done].
Qed.

(** More fuel gives the same result. *)
Lemma firstk_more n f f' k size r :
  (f <= f')%nat -> firstk_loop f n k size = Some r -> firstk_loop f' n k size = Some r.
Proof.
  revert f' k size. induction f as [|f IH]; intros [|f'] k size Hf; cbn [firstk_loop];
    destruct (size <? n); try done; [lia|]. apply IH. lia.
Qed.

(** Once doubled too often the size is 0 and stays so. *)
Lemma firstk_diverges n fuel k size :
  2 ^ 63 < n -> (size = 0 \/ exists j, 0 <= j <= 59 /\ size = LEAF_SIZE * 2 ^ j) ->
  firstk_loop fuel n k size = None.
Proof.
  intros Hn. revert k size. induction fuel as [|fuel IH]; intros k size Hs; cbn [firstk_loop];
    (assert (Hlt : size < n) by (destruct Hs as [->|(j & Hj & ->)]; [lia|];
       assert (2 ^ j <= 2 ^ 59) by (apply Z.pow_le_mono_r; lia); unfold LEAF_SIZE; lia));
    replace (size <? n) with true by lia; [done|]. apply IH.
  destruct Hs as [->|(j & Hj & ->)]; [by left|]. destruct (decide (j = 59)) as [->|Hne].
  - left. done.
  - right. exists (j + 1). split; [lia|]. rewrite Z.pow_add_r by lia. change (2 ^ 1) with 2.
    assert (2 ^ j <= 2 ^ 58) by (apply Z.pow_le_mono_r; lia). pose proof (Z.pow_nonneg 2 j).
    rewrite u64_small; unfold LEAF_SIZE; lia.
Qed.

(** [firstk] ends and finds the smallest size, for the requests it can
    serve: for [n <= 2 ^ 63] it returns the least [k] with
    [LEAF_SIZE * 2 ^ k >= n], within 59 rounds; for a larger [n] the 64-bit
    product wraps to 0 and the loop never ends. *)
Theorem firstk_correct (n : Z) :
  0 <= n < 2 ^ 64 ->
  (n <= 2 ^ 63 -> exists k, firstk firstk_fuel n = Some k /\ 0 <= k <= 59 /\
     n <= BLK_SIZE k /\ (forall j, 0 <= j < k -> BLK_SIZE j < n)) /\
  (2 ^ 63 < n -> forall fuel, firstk fuel n = None).
Proof.
  intros Hn. split.
  - intros Hle. destruct (firstk_find n 59 0) as (k & H1 & H2 & H3 & H4); [lia|by left|done|done|].
    exists k. assert (Hs : firstk firstk_fuel n = Some k).
    { unfold firstk, firstk_fuel. apply firstk_more with 59%nat; [lia|exact H1]. }
    assert (Hblk : forall j, 0 <= j -> BLK_SIZE j = LEAF_SIZE * 2 ^ j)
      by (intros j Hj; unfold BLK_SIZE; rewrite Z.shiftl_mul_pow2 by lia; lia).
    rewrite Hblk by lia. split_and!; [done|lia..|]. intros j Hj. rewrite Hblk by lia.
    destruct H4 as [->|H4]; [lia|]. assert (2 ^ j <= 2 ^ (k - 1)) by (apply Z.pow_le_mono_r; lia).
    unfold LEAF_SIZE in *. lia.
  - intros Hgt fuel. apply firstk_diverges; [done|]. right. exists 0. split; [lia|done].
Qed.

Lemma firstk_correct_witness :
  (100 <= 2 ^ 63 -> exists k, firstk firstk_fuel 100 = Some k /\ 0 <= k <= 59 /\
     100 <= BLK_SIZE k /\ (forall j, 0 <= j < k -> BLK_SIZE j < 100)) /\
  (2 ^ 63 < 100 -> forall fuel, firstk fuel 100 = None).
Proof. apply (firstk_correct 100). lia. Defined.

(** ** Bit arrays *)

Lemma bit_m_eq i : 0 <= i -> bit_m i = 2 ^ (i mod 8).
Proof.
  intros Hi. unfold bit_m. rewrite Z.rem_mod_nonneg, Z.shiftl_1_l by lia. apply u8_small.
  pose proof (Z.mod_pos_bound i 8 ltac:(lia)).
  split; [apply Z.pow_nonneg; lia|apply Z.pow_lt_mono_r; lia].
Qed.

Lemma testbit_pow k j : 0 <= k -> 0 <= j -> Z.testbit (2 ^ k) j = (j =? k).
Proof.
  intros Hk Hj. destruct (Z.eqb_spec j k) as [->|Hne]; [by apply Z.pow2_bits_true|].
  by apply Z.pow2_bits_false.
Qed.

Lemma land_pow b k : 0 <= k -> (Z.land b (2 ^ k) =? 2 ^ k) = Z.testbit b k.
Proof.
  intros Hk. destruct (Z.testbit b k) eqn:Hb; [apply Z.eqb_eq|apply Z.eqb_neq].
  - apply Z.bits_inj'. intros j Hj. rewrite Z.land_spec, testbit_pow by done.
    destruct (Z.eqb_spec j k) as [->|]; [by rewrite Hb|by rewrite andb_false_r].
  - intros H. apply (f_equal (fun x => Z.testbit x k)) in H.
    rewrite Z.land_spec, testbit_pow, Z.eqb_refl, Hb in H by done. done.
Qed.

(** Bit [i] of the array at [a]. *)
Definition abit (m : mem) (a i : Z) : bool := Z.testbit (rd m (a + i / 8)) (i mod 8).

Lemma bit_isset_abit m a i : 0 <= i -> bit_isset m a i = abit m a i.
Proof.
  intros Hi. unfold bit_isset, abit. rewrite bit_m_eq, Z.quot_div_nonneg by lia.
  apply land_pow. apply Z.mod_pos_bound. lia.
Qed.

Lemma rd_wr_byte m a v b : 0 <= v < 2 ^ 8 -> rd (wr m a v) b = if decide (b = a) then v else rd m b.
Proof.
  intros Hv. destruct (decide (b = a)) as [->|Hne]; [|by apply rd_wr_ne].
  rewrite rd_wr_eq. by apply u8_small.
Qed.

(** The change of one bit of a byte array. *)
Lemma abit_wr m a i j v (b : bool) :
  0 <= i -> 0 <= j -> 0 <= v < 2 ^ 8 ->
  (forall k, 0 <= k < 8 -> Z.testbit v k = if k =? i mod 8 then b else Z.testbit (rd m (a + i / 8)) k) ->
  abit (wr m (a + i / 8) v) a j = if j =? i then b else abit m a j.
Proof.
  intros Hi Hj Hv Hb. unfold abit. rewrite rd_wr_byte by done.
  pose proof (Z.mod_pos_bound j 8 ltac:(lia)). pose proof (Z.div_mod i 8 ltac:(lia)).
  pose proof (Z.div_mod j 8 ltac:(lia)). destruct (decide (a + j / 8 = a + i / 8)) as [Heq|Hne].
  - rewrite Hb by lia. replace (j / 8) with (i / 8) by lia.
    destruct (Z.eqb_spec (j mod 8) (i mod 8)), (Z.eqb_spec j i); try done; lia.
  - destruct (Z.eqb_spec j i) as [->|]; [done|done].
Qed.

Lemma lor_byte x k : 0 <= x < 2 ^ 8 -> 0 <= k < 8 -> 0 <= Z.lor x (2 ^ k) < 2 ^ 8.
Proof.
  intros Hx Hk. assert (2 ^ k < 2 ^ 8) by (apply Z.pow_lt_mono_r; lia).
  pose proof (Z.pow_pos_nonneg 2 k ltac:(lia) ltac:(lia)). split; [apply Z.lor_nonneg; lia|].
  apply Z.log2_lt_cancel. rewrite Z.log2_lor by lia. change (Z.log2 (2 ^ 8)) with 8.
  rewrite Z.log2_pow2 by lia. assert (Z.log2 x < 8) by (destruct (decide (x = 0)) as [->|]; [done|apply Z.log2_lt_pow2; lia]). lia.
Qed.

(** The bit arrays of the buddy allocator are arrays of bits: setting or
    clearing a bit changes that bit, for [bit_isset], and no other bit of the
    array. *)
Theorem bit_arrays_correct (m : mem) (a i j : Z) :
  0 <= i -> 0 <= j ->
  bit_isset (bit_set a i m) a j = (if j =? i then true else bit_isset m a j) /\
  bit_isset (bit_clear a i m) a j = (if j =? i then false else bit_isset m a j).
Proof.
  intros Hi Hj. rewrite !bit_isset_abit by done. unfold bit_set, bit_clear.
  rewrite !bit_m_eq, !Z.quot_div_nonneg by lia.
  pose proof (Z.mod_pos_bound i 8 ltac:(lia)) as Hm. pose proof (rd_range m (a + i / 8)) as Hr.
  split; apply abit_wr; try done.
  - by apply lor_byte.
  - intros k Hk. rewrite Z.lor_spec, testbit_pow by lia.
    destruct (k =? i mod 8); [apply orb_true_r|apply orb_false_r].
  - split; [apply Z.land_nonneg; lia|]. apply Z.le_lt_trans with (rd m (a + i / 8)); [|lia].
    rewrite <-Z.ldiff_land. apply Z.ldiff_le; [lia|]. apply Z.bits_inj_0. intros k.
    rewrite !Z.ldiff_spec. by destruct (Z.testbit _ k), (Z.testbit _ k).
  - intros k Hk. rewrite <-Z.ldiff_land, Z.ldiff_spec, testbit_pow by lia.
    destruct (k =? i mod 8); [apply andb_false_r|apply andb_true_r].
Qed.

Lemma bit_arrays_correct_witness :
  bit_isset (bit_set 1000 13 ∅) 1000 13 = true /\ bit_isset (bit_clear 1000 13 ∅) 1000 13 = false.
Proof. apply (bit_arrays_correct ∅ 1000 13 13); lia. Defined.

(** ** Free lists *)

(** The places a list node can have. *)
Definition node (a : Z) : Prop := 0 <= a < 2 ^ 64 /\ a mod 16 = 0.

Lemma node_apart a b : node a -> node b -> a <> b -> 16 <= Z.abs (a - b).
Proof. unfold node. intros [? ?] [? ?] ?. divlia. Qed.

Section Links.
Context (m : mem) (e x u : Z) (He : node e) (Hu : node u) (Hx : node x).

Lemma l_next_set_next : l_next (set_next e x m) u = upd (l_next m) e x u.
Proof.
  unfold l_next, set_next, upd. destruct (decide (u = e)) as [->|Hne].
  - rewrite ld64_st64_eq. apply u64_small, Hx.
  - apply ld64_st64_ne. pose proof (node_apart u e Hu He Hne). lia.
Qed.
Lemma l_prev_set_next : l_prev (set_next e x m) u = l_prev m u.
Proof.
  unfold l_prev, set_next. apply ld64_st64_ne. destruct (decide (u = e)) as [->|Hne]; [lia|].
  pose proof (node_apart u e Hu He Hne). lia.
Qed.
Lemma l_next_set_prev : l_next (set_prev e x m) u = l_next m u.
Proof.
  unfold l_next, set_prev. apply ld64_st64_ne. destruct (decide (u = e)) as [->|Hne]; [lia|].
  pose proof (node_apart u e Hu He Hne). lia.
Qed.
Lemma l_prev_set_prev : l_prev (set_prev e x m) u = upd (l_prev m) e x u.
Proof.
  unfold l_prev, set_prev, upd. destruct (decide (u = e)) as [->|Hne].
  - rewrite ld64_st64_eq. apply u64_small, Hx.
  - apply ld64_st64_ne. pose proof (node_apart u e Hu He Hne). lia.
Qed.
End Links.

(** The list [l] at the head [lst] in memory. *)
Definition list_at (m : mem) (lst : Z) (l : list Z) : Prop :=
  ring (l_next m) (l_prev m) lst l /\ Forall node (lst :: l).

Lemma list_node m lst l u : list_at m lst l -> u ∈ lst :: l -> node u.
Proof. intros [_ H] Hu. rewrite Forall_forall in H. auto. Qed.

Lemma hd_in (h : Z) l : hd h l ∈ h :: l.
Proof. destruct l; [by left|]. right. by left. Qed.

Lemma lst_init_ok m lst : node lst -> list_at (lst_init lst m) lst [].
Proof.
  intros Hn. split; [|by apply Forall_singleton]. unfold lst_init. split; [|apply NoDup_singleton].
  cbn [seg]. rewrite l_next_set_prev, l_prev_set_prev, l_next_set_next by done. by rewrite !upd_eq.
Qed.

Lemma lst_push_ok m lst l p :
  list_at m lst l -> node p -> p ∉ lst :: l -> list_at (lst_push lst p m) lst (p :: l).
Proof.
  intros Hl Hp Hnot. pose proof Hl as [Hr Hf]. pose proof (ring_head _ _ _ _ Hr) as [Hnx _].
  assert (Hlst : node lst) by (apply (list_node m lst l lst Hl); by left).
  assert (Hh : node (l_next m lst)) by (rewrite Hnx; apply (list_node m lst l _ Hl), hd_in).
  assert (Hne : lst <> p) by (intros ->; apply Hnot; by left).
  split; [|inversion Hf; subst; by constructor; [|constructor]].
  assert (Hstep : l_next (set_prev p lst (set_next p (l_next m lst) m)) lst = l_next m lst).
  { rewrite l_next_set_prev, l_next_set_next by done. by apply upd_ne. }
  unfold lst_push. rewrite Hstep.
  eapply ring_ext; [| |exact (ring_push _ _ _ _ p Hr Hnot)].
  - intros u Hu. assert (Hnu : node u) by (apply elem_of_cons in Hu as [->|Hu]; [done|];
      apply elem_of_cons in Hu as [->|Hu]; [done|]; apply (list_node m lst l u Hl); by right).
    rewrite l_next_set_next by done. unfold upd. destruct (decide (u = lst)); [done|].
    rewrite !l_next_set_prev, l_next_set_next by done. done.
  - intros u Hu. assert (Hnu : node u) by (apply elem_of_cons in Hu as [->|Hu]; [done|];
      apply elem_of_cons in Hu as [->|Hu]; [done|]; apply (list_node m lst l u Hl); by right).
    rewrite l_prev_set_next, l_prev_set_prev by done. unfold upd.
    destruct (decide (u = l_next m lst)); [done|]. rewrite l_prev_set_prev by done. unfold upd.
    destruct (decide (u = p)); [done|]. by rewrite l_prev_set_next.
Qed.

Lemma lst_remove_ok m lst l1 e l2 :
  list_at m lst (l1 ++ e :: l2) -> list_at (lst_remove e m) lst (l1 ++ l2).
Proof.
  intros Hl. pose proof Hl as [Hr Hf]. pose proof (ring_nx _ _ _ _ _ _ Hr) as [Hn Hp].
  assert (Hall : forall u, u ∈ lst :: l1 ++ e :: l2 -> node u) by (intros u; apply (list_node m _ _ u Hl)).
  assert (He : node e) by (apply Hall; right; apply elem_of_app; right; by left).
  assert (Hne : node (l_next m e)).
  { rewrite Hn. apply Hall. destruct l2; [by left|]. right. apply elem_of_app. right. right. by left. }
  assert (Hpe : node (l_prev m e)).
  { rewrite Hp. apply Hall. pose proof (lastd_elem l1 lst) as Hin.
    apply elem_of_cons in Hin as [->|Hin]; [by left|]. right. apply elem_of_app. by left. }
  assert (Hee : l_prev m e <> e).
  { rewrite Hp. pose proof (lastd_elem l1 lst) as Hin. intros Heq. rewrite Heq in Hin.
    destruct Hr as [_ Hnd]. rewrite app_comm_cons in Hnd. apply NoDup_app in Hnd as (_ & Hd & _).
    apply (Hd e Hin). by left. }
  split.
  - unfold lst_remove. eapply ring_ext; [| |exact (ring_remove _ _ _ _ _ _ Hr)].
    + intros u Hu. assert (Hnu : node u) by (apply Hall; apply elem_of_cons in Hu as [->|Hu]; [by left|];
        right; apply elem_of_app in Hu as [Hu|Hu]; apply elem_of_app; [by left|right; by right]).
      rewrite l_prev_set_next, (l_next_set_next m _ _ e), upd_ne by done.
      rewrite l_next_set_prev, l_next_set_next by done. done.
    + intros u Hu. assert (Hnu : node u) by (apply Hall; apply elem_of_cons in Hu as [->|Hu]; [by left|];
        right; apply elem_of_app in Hu as [Hu|Hu]; apply elem_of_app; [by left|right; by right]).
      rewrite (l_prev_set_next m _ _ e), (l_next_set_next m _ _ e), upd_ne by done.
      rewrite l_prev_set_prev by done. unfold upd. destruct (decide _); [done|].
      by rewrite l_prev_set_next.
  - rewrite app_comm_cons in Hf |- *. apply Forall_app in Hf as [H1 H2]. inversion H2; subst.
    by apply Forall_app.
Qed.

(** C39. The circular lists of list.c implement sequences: for a list [l] at
    a head [lst] in memory, [lst_empty] tells whether it is empty, [lst_push]
    puts a new node in front, [lst_pop] takes the first node off (and panics
    on an empty list), and [lst_remove] takes any node out without being told
    the list. *)
Theorem lists_correct (m : mem) (lst : Z) (l : list Z) :
  list_at m lst l ->
  lst_empty m lst = bool_decide (l = []) /\
  (forall p, node p -> p ∉ lst :: l -> list_at (lst_push lst p m) lst (p :: l)) /\
  (match l with
   | [] => lst_pop lst m = None
   | x :: l' => exists m', lst_pop lst m = Some (x, m') /\ list_at m' lst l'
   end) /\
  (forall l1 e l2, l = l1 ++ e :: l2 -> list_at (lst_remove e m) lst (l1 ++ l2)).
Proof.
  intros Hl. pose proof Hl as [Hr _]. pose proof (ring_head _ _ _ _ Hr) as [Hh _].
  split_and!.
  - unfold lst_empty. rewrite Hh. destruct l as [|x l]; cbn [hd]; [apply Z.eqb_refl|].
    rewrite bool_decide_eq_false_2 by done. apply Z.eqb_neq. intros ->.
    destruct Hr as [_ Hnd]. apply NoDup_cons in Hnd as [Hnd _]. apply Hnd. by left.
  - intros p Hp Hnot. by apply lst_push_ok.
  - unfold lst_pop. rewrite Hh. destruct l as [|x l]; cbn [hd]; [by rewrite Z.eqb_refl|].
    destruct (Z.eqb_spec x lst) as [->|Hne].
    + destruct Hr as [_ Hnd]. apply NoDup_cons in Hnd as [Hnd _]. exfalso. apply Hnd. by left.
    + eexists. split; [done|]. by apply (lst_remove_ok m lst [] x l).
  - intros l1 e l2 ->. by apply lst_remove_ok.
Qed.

Definition list_example : mem := lst_push 32 64 (lst_push 32 96 (lst_init 32 ∅)).

Lemma list_example_ok : list_at list_example 32 [64; 96].
Proof.
  assert (Hn : node 32 /\ node 64 /\ node 96) by (split_and!; (lia || done)). destruct Hn as (? & ? & ?).
  apply lst_push_ok; [apply lst_push_ok; [by apply lst_init_ok|done|]|done|];
    rewrite !not_elem_of_cons; split_and!; try lia; apply not_elem_of_nil.
Qed.

Lemma lists_correct_witness :
  lst_empty list_example 32 = false /\
  (forall p, node p -> p ∉ [32; 64; 96] -> list_at (lst_push 32 p list_example) 32 (p :: [64; 96])) /\
  (exists m', lst_pop 32 list_example = Some (64, m') /\ list_at m' 32 [96]) /\
  (forall l1 e l2, [64; 96] = l1 ++ e :: l2 -> list_at (lst_remove e list_example) 32 (l1 ++ l2)).
Proof. apply (lists_correct list_example 32 [64; 96] list_example_ok). Defined.
