(* ===== verification/Pipe.v ===== *)
(** * Pipes

    Models [src/xv6-os/kernel/pipe.c] except [pipealloc], which is with the
    file table. A pipe is a record under the address of its page; the state is
    the one of [Proc] with the pipes. The bytes in a pipe are a queue in a ring
    buffer whose [uint] counters wrap around. *)
From S2P Require Import Prelude CString Spinlock Layout Kalloc Vm VmTable VmMap VmUser VmBytes.
From S2P Require Import Proc ProcSpec.

(** ** Data *)

Definition PIPESIZE : Z := 512.

Record pipe := mkpipe {
  pi_data : list Z;
  pi_nread : Z;
  pi_nwrite : Z;
  pi_readopen : Z;
  pi_writeopen : Z;
}.

Record pipest := mkpipest {
  pi_pst : pst;
  pipes : gmap Z pipe;
}.

#[export] Instance sub_pst_pipest : Sub pst pipest := {|
  sub_get := pi_pst;
  sub_put p s := mkpipest p (pipes s);
|}.
#[export] Instance sub_pst_pipest_laws : SubLaws pst pipest.
Proof. constructor; by intros; destruct t || done. Qed.

#[export] Instance sub_mm_pipest : Sub mm pipest := {|
  sub_get s := p_mm (pi_pst s);
  sub_put m s := mkpipest (sub_put m (pi_pst s)) (pipes s);
|}.

#[export] Instance sub_hart_pipest : Sub hart pipest := {|
  sub_get s := sub_get (pi_pst s);
  sub_put h s := mkpipest (sub_put h (pi_pst s)) (pipes s);
|}.

Definition pipe0 : pipe := mkpipe (replicate 512 5) 0 0 0 0.

Definition pipe_of (s : pipest) (pi : Z) : pipe := default pipe0 (pipes s !! pi).

Definition set_pipe (pi : Z) (x : pipe) : M pipest unit :=
  modify (fun s => mkpipest (pi_pst s) (<[pi := x]> (pipes s))).

Definition pipe_lock (pi : Z) : lockid := ("pipe"%string, pi).
Definition nread_chan (pi : Z) : chan := Some ("pipe.nread"%string, pi).
Definition nwrite_chan (pi : Z) : chan := Some ("pipe.nwrite"%string, pi).

(** ** The ring buffer *)

Definition pipe_full (x : pipe) : bool := pi_nwrite x =? u32 (pi_nread x + PIPESIZE).
Definition pipe_empty (x : pipe) : bool := pi_nread x =? pi_nwrite x.

(** [pi->data[pi->nwrite++ % PIPESIZE] = ch] *)
Definition pipe_put (c : Z) (x : pipe) : pipe :=
  mkpipe (<[Z.to_nat (pi_nwrite x mod PIPESIZE) := u8 c]> (pi_data x)) (pi_nread x)
    (u32 (pi_nwrite x + 1)) (pi_readopen x) (pi_writeopen x).

(** [ch = pi->data[pi->nread++ % PIPESIZE]] *)
Definition pipe_get (x : pipe) : Z * pipe :=
  (default 0 (pi_data x !! Z.to_nat (pi_nread x mod PIPESIZE)),
   mkpipe (pi_data x) (u32 (pi_nread x + 1)) (pi_nwrite x) (pi_readopen x) (pi_writeopen x)).

Section Pipe.
Context {LY : Layout}.

(** ** Operations *)

Definition pipeclose (pi : Z) (writable : bool) : M pipest unit :=
  lift (acquire (pipe_lock pi)) ;;;
  let! x := gets (fun s => pipe_of s pi) in
  (if writable then
     set_pipe pi (mkpipe (pi_data x) (pi_nread x) (pi_nwrite x) (pi_readopen x) 0) ;;;
     lift (wakeup (nread_chan pi))
   else
     set_pipe pi (mkpipe (pi_data x) (pi_nread x) (pi_nwrite x) 0 (pi_writeopen x)) ;;;
     lift (wakeup (nwrite_chan pi))) ;;;
  let! x := gets (fun s => pipe_of s pi) in
  if (pi_readopen x =? 0) && (pi_writeopen x =? 0) then
    lift (release (pipe_lock pi)) ;;;
    lift (S:=mm) (kfree pi)
  else lift (release (pipe_lock pi)).

(** The end of [pipewrite], after its loop. *)
Definition pipewrite_done (pi i : Z) : M pipest Z :=
  lift (wakeup (nread_chan pi)) ;;;
  lift (release (pipe_lock pi)) ;;;
  mret' i.

(** [fuel] bounds the bytes written and the times the writer sleeps. *)
Fixpoint pipewrite_loop (fuel : nat) (pr : nat) (pi addr n i : Z) : M pipest Z :=
  if i <? n then
    match fuel with
    | O => out_of_fuel
    | S fuel =>
        let! x := gets (fun s => pipe_of s pi) in
        let! k := (if pi_readopen x =? 0 then mret' 1 else lift (killed pr)) in
        if (pi_readopen x =? 0) || negb (k =? 0) then
          lift (release (pipe_lock pi)) ;;;
          mret' (-1)
        else if pipe_full x then
          lift (wakeup (nread_chan pi)) ;;;
          lift (sleep (nwrite_chan pi) (pipe_lock pi)) ;;;
          pipewrite_loop fuel pr pi addr n i
        else
          let! pt := lift (getp pr p_pagetable) in
          let! r := lift (S:=mm) (copyin_bytes pt (u64 (addr + i)) 1) in
          if r.1 =? -1 then pipewrite_done pi i
          else
            let! x := gets (fun s => pipe_of s pi) in
            set_pipe pi (pipe_put (nth_byte r.2 0) x) ;;;
            pipewrite_loop fuel pr pi addr n (i + 1)
    end
  else pipewrite_done pi i.

Definition pipewrite (fuel : nat) (pi addr n : Z) : M pipest Z :=
  let! pr := lift cur in
  lift (acquire (pipe_lock pi)) ;;;
  pipewrite_loop fuel pr pi addr n 0.

(** The wait of [piperead] for data; [false] when the reader was killed. *)
Fixpoint piperead_wait (fuel : nat) (pr : nat) (pi : Z) : M pipest bool :=
  let! x := gets (fun s => pipe_of s pi) in
  if pipe_empty x && negb (pi_writeopen x =? 0) then
    match fuel with
    | O => out_of_fuel
    | S fuel =>
        let! k := lift (killed pr) in
        if negb (k =? 0) then
          lift (release (pipe_lock pi)) ;;;
          mret' false
        else
          lift (sleep (nread_chan pi) (pipe_lock pi)) ;;;
          piperead_wait fuel pr pi
    end
  else mret' true.

(** The copy loop, with [k] bytes left to read; it gives [i]. *)
Fixpoint piperead_copy (k : nat) (pr : nat) (pi addr i : Z) : M pipest Z :=
  match k with
  | O => mret' i
  | S k =>
      let! x := gets (fun s => pipe_of s pi) in
      if pipe_empty x then mret' i
      else
        let '(ch, x') := pipe_get x in
        set_pipe pi x' ;;;
        let! pt := lift (getp pr p_pagetable) in
        let! r := lift (S:=mm) (copyout_bytes pt (u64 (addr + i)) [ch]) in
        if r =? -1 then mret' i
        else piperead_copy k pr pi addr (i + 1)
  end.

Definition piperead (fuel : nat) (pi addr n : Z) : M pipest Z :=
  let! pr := lift cur in
  lift (acquire (pipe_lock pi)) ;;;
  let! ready := piperead_wait fuel pr pi in
  if negb ready then mret' (-1)
  else
    let! i := piperead_copy (Z.to_nat n) pr pi addr 0 in
    lift (wakeup (nwrite_chan pi)) ;;;
    lift (release (pipe_lock pi)) ;;;
    mret' i.

End Pipe.

(** ** The queue a pipe represents *)

(** The number of bytes in the pipe, with the counters' wrap-around. *)
Definition pipe_count (x : pipe) : Z := u32 (pi_nwrite x - pi_nread x).

Definition pipe_byte (x : pipe) (j : Z) : Z :=
  default 0 (pi_data x !! Z.to_nat ((pi_nread x + j) mod PIPESIZE)).

Definition contents (x : pipe) : list Z :=
  (fun j => pipe_byte x (Z.of_nat j)) <$> seq 0 (Z.to_nat (pipe_count x)).

Record pipe_ok (x : pipe) : Prop := {
  po_len : length (pi_data x) = Z.to_nat PIPESIZE;
  po_nread : 0 <= pi_nread x < 2 ^ 32;
  po_nwrite : 0 <= pi_nwrite x < 2 ^ 32;
  po_count : pipe_count x <= PIPESIZE;
}.

Lemma u32_mod_512 x : u32 x mod 512 = x mod 512.
Proof. unfold u32. change (2 ^ 32) with 4294967296. divlia. Qed.

Lemma pipe_count_range x : 0 <= pipe_count x < 2 ^ 32.
Proof. apply u32_range. Qed.

Lemma pipe_nwrite_eq x : pipe_ok x -> pi_nwrite x = u32 (pi_nread x + pipe_count x).
Proof.
  intros [_ H1 H2 _]. unfold pipe_count, u32 in *. change (2 ^ 32) with 4294967296 in *. divlia.
Qed.

Lemma pipe_full_spec x : pipe_ok x -> pipe_full x = bool_decide (pipe_count x = 512).
Proof.
  intros [_ H1 H2 _]. unfold pipe_full, pipe_count, u32, PIPESIZE in *.
  change (2 ^ 32) with 4294967296 in *.
  apply eq_true_iff_eq. rewrite Z.eqb_eq, bool_decide_eq_true. divlia.
Qed.

Lemma pipe_empty_spec x : pipe_ok x -> pipe_empty x = bool_decide (pipe_count x = 0).
Proof.
  intros [_ H1 H2 _]. unfold pipe_empty, pipe_count, u32 in *.
  change (2 ^ 32) with 4294967296 in *.
  apply eq_true_iff_eq. rewrite Z.eqb_eq, bool_decide_eq_true. divlia.
Qed.

Lemma contents_length x : length (contents x) = Z.to_nat (pipe_count x).
Proof. unfold contents. by rewrite length_fmap, length_seq. Qed.

Lemma contents_lookup x j :
  (j < Z.to_nat (pipe_count x))%nat -> contents x !! j = Some (pipe_byte x (Z.of_nat j)).
Proof. intros Hj. unfold contents. by rewrite list_lookup_fmap, lookup_seq_lt. Qed.

(** Writing appends to the queue. *)
Lemma pipe_put_spec c x :
  pipe_ok x -> pipe_full x = false ->
  pipe_ok (pipe_put c x) /\ contents (pipe_put c x) = contents x ++ [u8 c].
Proof.
  intros Hok Hf. rewrite pipe_full_spec in Hf by done. apply bool_decide_eq_false in Hf.
  pose proof (pipe_count_range x) as Hr. pose proof (pipe_nwrite_eq x Hok) as Hw.
  destruct Hok as [H0 H1 H2 H3]. unfold PIPESIZE in *.
  assert (Hc : pipe_count (pipe_put c x) = pipe_count x + 1).
  { unfold pipe_count, u32 in *; cbn. unfold u32. change (2 ^ 32) with 4294967296 in *. divlia. }
  split.
  - constructor; cbn; [by rewrite length_insert|done|apply u32_range|rewrite Hc; unfold PIPESIZE; lia].
  - assert (Hb : forall j, 0 <= j < pipe_count x + 1 ->
      pipe_byte (pipe_put c x) j = if decide (j = pipe_count x) then u8 c else pipe_byte x j).
    { intros j Hj. unfold pipe_byte, pipe_put, PIPESIZE; cbn [pi_data pi_nread].
      assert (Hm : pi_nwrite x mod 512 = (pi_nread x + pipe_count x) mod 512)
        by (rewrite Hw; apply u32_mod_512).
      rewrite Hm. case_decide as Hj0.
      - subst j. rewrite list_lookup_insert_eq; [done|]. rewrite H0. divlia.
      - rewrite list_lookup_insert_ne; [done|]. divlia. }
    apply list_eq. intros j. destruct (decide (j < Z.to_nat (pipe_count x + 1))%nat).
    + rewrite contents_lookup by (rewrite Hc; lia). rewrite Hb by lia. case_decide as Hj.
      * replace j with (length (contents x)) by (rewrite contents_length; lia).
        by rewrite list_lookup_middle.
      * rewrite lookup_app_l, contents_lookup by (rewrite ?contents_length; lia). done.
    + rewrite !lookup_ge_None_2; [done|..]; rewrite ?length_app, ?contents_length, ?Hc; cbn; lia.
Qed.

(** Reading takes the first byte off the queue. *)
Lemma pipe_get_spec x :
  pipe_ok x -> pipe_empty x = false ->
  pipe_ok (pipe_get x).2 /\ contents x = (pipe_get x).1 :: contents (pipe_get x).2.
Proof.
  intros Hok Hf. rewrite pipe_empty_spec in Hf by done. apply bool_decide_eq_false in Hf.
  pose proof (pipe_count_range x) as Hr. destruct Hok as [H0 H1 H2 H3]. unfold PIPESIZE in *.
  assert (Hc : pipe_count (pipe_get x).2 = pipe_count x - 1).
  { unfold pipe_count, u32 in *; cbn. unfold u32. change (2 ^ 32) with 4294967296 in *. divlia. }
  split.
  - constructor; cbn; [done|apply u32_range|done|]. cbn in Hc. rewrite Hc. unfold PIPESIZE. lia.
  - apply list_eq. intros j. destruct (decide (j < Z.to_nat (pipe_count x))%nat).
    + rewrite contents_lookup by done. destruct j as [|j]; cbn [lookup list_lookup].
      * unfold pipe_byte, pipe_get; cbn. by rewrite Z.add_0_r.
      * rewrite contents_lookup by (rewrite Hc; lia). unfold pipe_byte, PIPESIZE; cbn [snd pipe_get pi_data pi_nread].
        do 4 f_equal. unfold u32. change (2 ^ 32) with 4294967296. divlia.
    + rewrite !lookup_ge_None_2; [done|..]; cbn [length]; rewrite ?contents_length, ?Hc; lia.
Qed.

(** *** Any interleaving of readers and writers *)

(** What a writer and a reader do with the ring under the pipe's lock: a
    writer that finds it full and a reader that finds it empty wait. *)
Inductive pipe_act := Write (c : Z) | Read.

Definition pipe_do (a : pipe_act) (x : pipe) : list Z * list Z * pipe :=
  match a with
  | Write c => if pipe_full x then ([], [], x) else ([u8 c], [], pipe_put c x)
  | Read => if pipe_empty x then ([], [], x)
            else let '(c, x') := pipe_get x in ([], [c], x')
  end.

(** The bytes written and the bytes read by a sequence of actions. *)
Fixpoint pipe_run (l : list pipe_act) (x : pipe) : list Z * list Z * pipe :=
  match l with
  | [] => ([], [], x)
  | a :: l =>
      let '(w, r, x) := pipe_do a x in
      let '(w', r', x) := pipe_run l x in
      (w ++ w', r ++ r', x)
  end.

Lemma pipe_do_spec a x w r x' :
  pipe_ok x -> pipe_do a x = (w, r, x') ->
  pipe_ok x' /\ contents x ++ w = r ++ contents x'.
Proof.
  intros Hok. destruct a as [c|]; cbn.
  - destruct (pipe_full x) eqn:E; intros [= <- <- <-]; [by rewrite app_nil_r|].
    destruct (pipe_put_spec c x Hok E) as [H1 H2]. by rewrite H2.
  - destruct (pipe_empty x) eqn:E; intros [= <- <- <-]; [by rewrite app_nil_r|].
    destruct (pipe_get_spec x Hok E) as [H1 H2]. rewrite app_nil_r. split; [exact H1|exact H2].
Qed.

(** C32. A pipe is a FIFO queue of at most 512 bytes: whatever the order in
    which readers and writers get the lock, and through any wrap-around of the
    [uint] counters, the bytes read, followed by the bytes still in the pipe,
    are the bytes that were in the pipe followed by the bytes written. *)
Theorem pipe_fifo (acts : list pipe_act) (x : pipe) (Hok : pipe_ok x) :
  let '(w, r, x') := pipe_run acts x in
  pipe_ok x' /\ contents x ++ w = r ++ contents x' /\ Z.of_nat (length (contents x')) <= PIPESIZE.
Proof.
  assert (H : forall w r x', pipe_run acts x = (w, r, x') ->
    pipe_ok x' /\ contents x ++ w = r ++ contents x').
  { revert x Hok. induction acts as [|a acts IH]; intros x Hok w r x'; cbn [pipe_run].
    { intros [= <- <- <-]. by rewrite app_nil_r. }
    destruct (pipe_do a x) as [[w1 r1] x1] eqn:E1.
    destruct (pipe_run acts x1) as [[w2 r2] x2] eqn:E2. intros [= <- <- <-].
    destruct (pipe_do_spec a x w1 r1 x1 Hok E1) as [Hok1 H1].
    destruct (IH x1 Hok1 w2 r2 x2 E2) as [Hok2 H2]. split; [done|].
    by rewrite app_assoc, H1, <- app_assoc, H2, app_assoc. }
  destruct (pipe_run acts x) as [[w r] x']. destruct (H w r x' eq_refl) as [H1 H2].
  split_and!; [done..|]. rewrite contents_length. pose proof (pipe_count_range x').
  pose proof (po_count _ H1). lia.
Qed.

(** A pipe whose counters are about to wrap around. *)
Definition pipe1 : pipe := mkpipe (<[511%nat := 97]> (replicate 512 5)) (2 ^ 32 - 1) 0 1 1.

Lemma pipe1_ok : pipe_ok pipe1.
Proof. constructor; [reflexivity|vm_compute; split; congruence..|vm_compute; discriminate]. Qed.

Lemma pipe_fifo_witness :
  let '(w, r, x') := pipe_run [Write 98; Read; Write 99; Read] pipe1 in
  w = [98; 99] /\ r = [97; 98] /\ contents x' = [99] /\ pipe_ok x'.
Proof.
  pose proof (pipe_fifo [Write 98; Read; Write 99; Read] pipe1 pipe1_ok) as H.
  vm_compute in H |- *. destruct H as [H _]. split_and!; [reflexivity..|exact H].
Defined.
