(* ===== verification/PipeSpec.v ===== *)
(** * Reading from a pipe

    [piperead] on a pipe with data or without writers: what it copies to user
    memory, what is left in the pipe and whom it wakes up. *)
From S2P Require Import Prelude CString Spinlock Layout Kalloc Vm VmTable VmMap VmUser VmBytes.
From S2P Require Import Proc ProcSpec Quiet Pipe.

Section PipeSpec.
Context {LY : Layout} {LYok : LayoutOk}.

Lemma vm_inv_hart h h' m r root T l :
  vm_inv (mkmm h m r) root T l -> hart_ok h' -> lock_free kmem_lock h' ->
  vm_inv (mkmm h' m r) root T l.
Proof. intros [_ Hk Hwf Hd] H1 H2. constructor; [done|exact Hk|exact Hwf|exact Hd]. Qed.

(** [s'] is [s] with another memory [m'] and another value of pipe [pi]. *)
Record pipe_moved (s s' : pipest) (pi : Z) (m' : mem) (x' : pipe) : Prop := {
  pm_pst : pi_pst s' = mkpst (mkmm (m_hart (p_mm (pi_pst s))) m' (freelist (p_mm (pi_pst s))))
             (procs (pi_pst s)) (nextpid (pi_pst s)) (initproc (pi_pst s));
  pm_pipe : pipe_of s' pi = x';
  pm_other : forall pi', pi' <> pi -> pipe_of s' pi' = pipe_of s pi';
}.

(** The copy loop of [piperead], on the ring and on user memory. *)
Lemma piperead_copy_spec n pr pi addr i s h m r0 root T l :
  let x := pipe_of s pi in
  p_mm (pi_pst s) = mkmm h m r0 -> p_pagetable (proc_of (pi_pst s) pr) = root ->
  vm_inv (mkmm h m r0) root T l -> user_wf m root T l -> pipe_ok x ->
  0 <= addr -> 0 <= i -> addr + i + Z.of_nat n < 2 ^ 64 ->
  exists (j lost : nat) m' x' s',
    piperead_copy n pr pi addr i s = Ok (i + Z.of_nat j) s' /\
    pipe_moved s s' pi m' x' /\ pipe_ok x' /\ contents x' = drop (j + lost) (contents x) /\
    stored m m' root (addr + i) (nth_byte (contents x)) (Z.of_nat j) /\
    ((j = Nat.min n (length (contents x)) /\ lost = 0%nat) \/
     ((j < Nat.min n (length (contents x)))%nat /\ lost = 1%nat /\
      ~ (addr + i + Z.of_nat j < MAXVA /\
         writable m root (addr + i + Z.of_nat j) = true))).
Proof.
  revert i s m. induction n as [|n IH]; intros i s m x Hmm Hpt Hs Hw Hx Ha Hi Hend.
  { exists 0%nat, 0%nat, m, x, s. split_and!; [cbn; by rewrite Z.add_0_r| |done|done| |left; by cbn].
    - constructor; [|done..]. destruct s as [[mm0 ? ? ?] ?]; cbn in *. by subst mm0.
    - constructor; (lia || done). }
  cbn [piperead_copy]. autorewrite with mdb. fold x.
  destruct (pipe_empty x) eqn:Hem.
  { pose proof Hem as Hem'. rewrite pipe_empty_spec in Hem' by done. apply bool_decide_eq_true in Hem'.
    assert (Hlen : length (contents x) = 0%nat) by (rewrite contents_length, Hem'; done).
    exists 0%nat, 0%nat, m, x, s. split_and!; [by rewrite Z.add_0_r| |done|done| |left; by rewrite Hlen].
    - constructor; [|done..]. destruct s as [[mm0 ? ? ?] ?]; cbn in *. by subst mm0.
    - constructor; (lia || done). }
  destruct (pipe_get_spec x Hx Hem) as [Hx1 Hc]. destruct (pipe_get x) as [ch x1] eqn:Eg.
  cbn [fst snd] in *. set (q1 := contents x1) in *.
  unfold set_pipe at 1. rewrite bind_modify.
  set (s1 := mkpipest (pi_pst s) (<[pi := x1]> (pipes s))).
  assert (E1 : lift (getp pr p_pagetable) s1 = Ok root s1).
  { rewrite <- Hpt. unfold s1. by destruct s as [p ?]. }
  rewrite (bind_ok _ _ _ _ _ E1).
  destruct (copyout_bytes_spec root (addr + i) [ch] h m r0 T l Hs Hw ltac:(lia))
    as (r & k & m1 & Ec & Hk & Hst & Hr & Hs1 & Hw1 & Hpte).
  assert (E2 : lift (S:=mm) (copyout_bytes root (u64 (addr + i)) [ch]) s1 =
    Ok r (mkpipest (mkpst (mkmm h m1 r0) (procs (pi_pst s)) (nextpid (pi_pst s))
            (initproc (pi_pst s))) (<[pi := x1]> (pipes s)))).
  { rewrite u64_small by lia. unfold s1. 
    rewrite (lift_ok (S:=mm) _ _ r (mkmm h m1 r0)); [done|]. cbn. rewrite Hmm. exact Ec. }
  rewrite (bind_ok _ _ _ _ _ E2). set (s2 := mkpipest _ _).
  assert (Hq0 : forall pi', pi' <> pi -> pipe_of s2 pi' = pipe_of s pi').
  { intros pi' Hne. unfold pipe_of, s2; cbn. by rewrite lookup_insert_ne. }
  assert (Hq1 : pipe_of s2 pi = x1) by (unfold pipe_of, s2; cbn; by rewrite lookup_insert_eq).
  change (Z.of_nat (length [ch])) with 1 in *.
  destruct Hr as [[-> ->]|(-> & Hk1 & Hna)].
  - change (0 =? -1) with false. cbv iota.
    destruct (IH (i + 1) s2 m1) as (j & lost & m' & x' & s' & E3 & Hpm & Hx' & Hc' & Hst' & Hcase);
      [done|exact Hpt|done|done|by rewrite Hq1|lia|lia|lia|].
    rewrite Hq1 in *. fold q1 in Hc', Hst', Hcase.
    exists (S j), lost, m', x', s'. split_and!.
    + rewrite E3. f_equal. lia.
    + destruct Hpm as [P1 P2 P3]. constructor; [|done|].
      * rewrite P1. cbn. by rewrite Hmm.
      * intros pi' Hne. rewrite P3, Hq0 by done. done.
    + done.
    + rewrite Hc, Hc'. done.
    + replace (Z.of_nat (S j)) with (1 + Z.of_nat j) by lia.
      eapply (stored_trans m m1 m' root T l _ (addr + (i + 1)));
        [done|lia|lia|lia|lia|done| | |exact Hst'].
      * intros k Hk'. unfold nth_byte. rewrite Hc.
        replace (Z.to_nat (1 + k)) with (S (Z.to_nat k)) by lia. done.
      * destruct Hst as [S1 S2 S3]. constructor; [done| |done].
        intros k Hk'. rewrite S2 by done. unfold nth_byte. rewrite Hc.
        replace (Z.to_nat k) with 0%nat by lia. done.
    + rewrite Hc. cbn [length]. rewrite (writable_ext m m1) in Hcase by done.
      replace (addr + i + Z.of_nat (S j)) with (addr + (i + 1) + Z.of_nat j) by lia.
      destruct Hcase as [[-> ->]|(? & -> & ?)]; [left; lia|right; split_and!; [lia|done|done]].
  - change (-1 =? -1) with true. cbv iota. assert (k = 0) as -> by lia.
    exists 0%nat, 1%nat, m1, x1, s2. split_and!; [by rewrite Z.add_0_r|..].
    + constructor; [cbn; by rewrite Hmm|done|done].
    + done.
    + by rewrite Hc.
    + destruct Hst as [S1 S2 S3]. constructor; [lia|lia|done].
    + right. rewrite Hc. cbn [length]. split_and!; [lia|done|done].
Qed.

(** A process that may call into the pipe code: it runs with no spin lock
    held, on a well-formed address space. *)
Record in_process (p : pst) (pr : nat) (root : Z) (T : gmap Z nat) (l : list Z) : Prop := {
  ip_hart : hart_ok (hart_of p);
  ip_proc : c_proc (this_cpu (hart_of p)) = Some pr;
  ip_free : procs_free (hart_of p);
  ip_root : p_pagetable (proc_of p pr) = root;
  ip_vm : vm_inv (p_mm p) root T l;
  ip_user : user_wf (m_mem (p_mm p)) root T l;
}.

Lemma bind_pst {A B} (m : M pst A) (k : A -> M pipest B) s a p' :
  m (pi_pst s) = Ok a p' -> mbind' (lift m) k s = k a (mkpipest p' (pipes s)).
Proof. intros E. apply bind_ok. exact (lift_ok m s a p' E). Qed.

Lemma bind_hart {A B} (m : M hart A) (k : A -> M pipest B) s a h' :
  m (hart_of (pi_pst s)) = Ok a h' ->
  mbind' (lift m) k s = k a (mkpipest (with_hart h' (pi_pst s)) (pipes s)).
Proof. intros E. apply bind_ok. exact (lift_ok m s a h' E). Qed.

Lemma pipe_of_pst p p' ps pi : pipe_of (mkpipest p ps) pi = pipe_of (mkpipest p' ps) pi.
Proof. done. Qed.

(** [piperead] on a pipe that holds data, or that no writer has open,
    does not block: it copies the oldest bytes, as many as there are up to
    [n], to the reader's memory, removes them from the pipe, makes the waiting
    writers runnable, releases its lock and returns the number of bytes.
    When a page of the destination is not writable for the user it stops
    there; the byte it could not store is taken off the pipe as well and is
    lost. *)
Theorem piperead_correct (fuel : nat) (pi addr n : Z) (s : pipest) (pr : nat) (root : Z)
    (T : gmap Z nat) (l : list Z)
    (Hp : in_process (pi_pst s) pr root T l)
    (Hl : lock_free (pipe_lock pi) (hart_of (pi_pst s)))
    (Hx : pipe_ok (pipe_of s pi))
    (Hready : pipe_empty (pipe_of s pi) = false \/ pi_writeopen (pipe_of s pi) = 0)
    (Ha : 0 <= addr) (Hn : 0 <= n) (Hend : addr + n < 2 ^ 64) :
  let q := contents (pipe_of s pi) in
  let m := m_mem (p_mm (pi_pst s)) in
  exists (j lost : nat) s',
    piperead fuel pi addr n s = Ok (Z.of_nat j) s' /\
    contents (pipe_of s' pi) = drop (j + lost) q /\ pipe_ok (pipe_of s' pi) /\
    stored m (m_mem (p_mm (pi_pst s'))) root addr (nth_byte q) (Z.of_nat j) /\
    ((j = Nat.min (Z.to_nat n) (length q) /\ lost = 0%nat) \/
     ((j < Nat.min (Z.to_nat n) (length q))%nat /\ lost = 1%nat /\
      ~ (addr + Z.of_nat j < MAXVA /\ writable m root (addr + Z.of_nat j) = true))) /\
    hart_of (pi_pst s') = settle (hart_of (pi_pst s)) /\
    (forall i, proc_of (pi_pst s') i =
       wake_proc (nwrite_chan pi) (Some pr) 0 NPROC i (proc_of (pi_pst s) i)) /\
    (forall pi', pi' <> pi -> pipe_of s' pi' = pipe_of s pi').
Proof.
  intros q m. destruct Hp as [Hok Hcp Hfree Hroot Hvm Huser].
  set (p := pi_pst s) in *. set (h := hart_of p) in *.
  unfold piperead. rewrite (bind_pst cur _ s pr _ (cur_eq p pr Hok Hcp)). fold h.
  pose proof (settle_ok _ Hok) as Hok1.
  rewrite (bind_hart (acquire (pipe_lock pi)) _ (mkpipest (with_hart (settle h) p) (pipes s)) tt _
    (acquire_eq (pipe_lock pi) (settle h) (lock_free_settle _ _ Hl))).
  cbn [pi_pst pipes]. rewrite with_hart_twice. set (h1 := acquired (pipe_lock pi) (settle h)).
  set (s1 := mkpipest (with_hart h1 p) (pipes s)).
  assert (Hwait : piperead_wait fuel pr pi s1 = Ok true s1).
  { assert (Hc : pipe_empty (pipe_of s1 pi) && negb (pi_writeopen (pipe_of s1 pi) =? 0) = false).
    { change (pipe_of s1 pi) with (pipe_of s pi). destruct Hready as [-> | ->]; [done|].
      by rewrite andb_false_r. }
    destruct fuel; cbn [piperead_wait]; autorewrite with mdb; rewrite Hc; done. }
  rewrite (bind_ok _ _ _ _ _ Hwait). cbn [negb].
  assert (Hvm1 : vm_inv (mkmm h1 m (freelist (p_mm p))) root T l).
  { apply (vm_inv_hart h). - unfold h, m, hart_of. cbn. destruct (p_mm p); exact Hvm.
    - by apply acquired_ok.
    - apply lock_free_acquired; [done|]. apply lock_free_settle. exact (proj2 (vi_ok _ _ _ _ Hvm)). }
  destruct (piperead_copy_spec (Z.to_nat n) pr pi addr 0 s1 h1 m (freelist (p_mm p)) root T l)
    as (j & lost & m' & x' & s2 & E2 & Hpm & Hx' & Hc' & Hst & Hcase);
    [done|exact Hroot|done|done|exact Hx|done|lia|lia|].
  rewrite (bind_ok _ _ _ _ _ E2). rewrite Z.add_0_l, Z.add_0_r in *. destruct Hpm as [P1 P2 P3].
  assert (Hh2 : hart_of (pi_pst s2) = h1) by (by rewrite P1).
  assert (Hok2 : hart_ok (hart_of (pi_pst s2))) by (rewrite Hh2; by apply acquired_ok).
  destruct (wakeup_loop_spec NPROC 0 (nwrite_chan pi) (pi_pst s2) (le_n _) Hok2)
    as (p3 & E3 & Hh3 & _ & Ht3).
  { rewrite Hh2. intros i Hi. apply lock_free_acquired; [discriminate|].
    apply lock_free_settle, Hfree, Hi. }
  rewrite (bind_pst (wakeup (nwrite_chan pi)) _ s2 tt p3 E3).
  assert (Hh3' : hart_of p3 = h1).
  { rewrite Hh3, Hh2 by discriminate. by apply settle_acquired. }
  assert (Hrel : release (pipe_lock pi) (hart_of p3) = Ok tt (settle h)).
  { rewrite Hh3'. unfold h1. rewrite release_acquired by auto using lock_free_settle.
    by rewrite settle_idem. }
  rewrite (bind_hart (release (pipe_lock pi)) _ (mkpipest p3 (pipes s2)) tt _ Hrel). cbn [pi_pst pipes].
  eexists j, lost, _. split; [reflexivity|]. cbn [pi_pst].
  rewrite !(pipe_of_pst (with_hart (settle h) p3) (pi_pst s2)).
  replace (mkpipest (pi_pst s2) (pipes s2)) with s2 by (by destruct s2).
  rewrite P2. split_and!.
  - exact Hc'.
  - done.
  - change (m_mem (p_mm (with_hart (settle h) p3))) with (m_mem (p_mm p3)).
    rewrite (tm_mem _ _ _ Ht3), P1. exact Hst.
  - exact Hcase.
  - done.
  - intros i. rewrite proc_of_with_hart, (tm_procs _ _ _ Ht3).
    assert (Hme : c_proc (this_cpu (hart_of (pi_pst s2))) = Some pr).
    { rewrite Hh2. unfold h1. rewrite this_cpu_acquired, this_cpu_settle. exact Hcp. }
    rewrite Hme, P1. done.
  - intros pi' Hne. rewrite (pipe_of_pst (with_hart (settle h) p3) (pi_pst s2)).
    replace (mkpipest (pi_pst s2) (pipes s2)) with s2 by (by destruct s2). by apply P3.
Qed.
End PipeSpec.

(** ** Example: reading a byte into the page at 8192 *)

#[local] Existing Instances kernel_layout kernel_layout_ok.

Definition hart3 : hart :=
  mkhart 0 SSTATUS_SIE {[0%nat := mkcpu (Some 1%nat) 0 0]}
    (<[kmem_lock := lock0]> (<[pipe_lock 77 := lock0]> locks1)).

Lemma hart3_ok : hart_ok hart3.
Proof. split; [vm_compute; discriminate|intros H; exfalso; vm_compute in H; discriminate]. Qed.

Lemma hart3_free : procs_free hart3.
Proof.
  intros i Hi. destruct (hart2_free None i Hi) as [n H]. exists n.
  cbn [locks hart3]. rewrite !lookup_insert_ne by discriminate. exact H.
Qed.

Lemma piperead_correct_witness :
  exists s s', contents (pipe_of s 77) = [97] /\ piperead 0 77 8200 4 s = Ok 1 s' /\
    contents (pipe_of s' 77) = [].
Proof.
  destruct mm3_user as (s & T & l & Hs & Hw & Hwr & _ & _). destruct s as [h m r].
  set (p := mkpst (mkmm hart3 m r) {[1%nat := set_pagetable (vp 0) proc0]} 1 None).
  assert (Hp : in_process p 1 (vp 0) T l).
  { constructor; [apply hart3_ok|reflexivity|apply hart3_free|reflexivity| |exact Hw].
    apply (vm_inv_hart h); [exact Hs|apply hart3_ok|]. exists "lock"%string. reflexivity. }
  destruct (piperead_correct 0 77 8200 4 (mkpipest p {[77 := pipe1]}) 1 (vp 0) T l Hp)
    as (j & lost & s' & E & Hc & _ & _ & Hcase & _);
    [exists "lock"%string; reflexivity|apply pipe1_ok|left; reflexivity|lia|lia|lia|].
  exists (mkpipest p {[77 := pipe1]}), s'. split; [reflexivity|].
  destruct Hcase as [[-> ->]|(Hj & _ & Hf)].
  - split; [exact E|]. rewrite Hc. reflexivity.
  - exfalso. apply Hf. assert (j = 0%nat) as -> by (vm_compute in Hj; lia).
    rewrite Z.add_0_r. split; [rewrite MAXVA_val; lia|exact Hwr].
Defined.
