(* ===== verification/Sleeplock.v ===== *)
(** * Sleep locks

    Models [src/xv6-os/kernel/sleeplock.c]. The sleep locks of buffers and
    inodes are in one map, like the spin locks; the spin lock inside a sleep
    lock is one of the hart's locks. *)
From S2P Require Import Prelude CString Spinlock Layout Kalloc Vm Proc ProcSpec Quiet.

Record sleeplock := mksleeplock {
  sl_locked : Z;
  sl_name : string;
  sl_pid : Z;
}.

Record slst := mkslst {
  sl_pst : pst;
  slocks : gmap lockid sleeplock;
}.

#[export] Instance sub_pst_slst : Sub pst slst := {|
  sub_get := sl_pst;
  sub_put p s := mkslst p (slocks s);
|}.

#[export] Instance sub_hart_slst : Sub hart slst := {|
  sub_get s := sub_get (sl_pst s);
  sub_put h s := mkslst (sub_put h (sl_pst s)) (slocks s);
|}.

Definition slock_of (s : slst) (l : lockid) : sleeplock :=
  default (mksleeplock 0 EmptyString 0) (slocks s !! l).

Definition set_slock (l : lockid) (x : sleeplock) : M slst unit :=
  modify (fun s => mkslst (sl_pst s) (<[l := x]> (slocks s))).

(** [lk->lk] and the address of the lock. *)
Definition slock_spin (l : lockid) : lockid := ("sleep lock "%string +:+ l.1, l.2).
Definition slock_chan (l : lockid) : chan := Some ("sleep lock "%string +:+ l.1, l.2).

Definition initsleeplock (l : lockid) (name : string) : M slst unit :=
  lift (initlock (slock_spin l) "sleep lock") ;;;
  set_slock l (mksleeplock 0 name 0).

(** [fuel] bounds the number of times the process is woken up in vain. *)
Fixpoint acquiresleep_wait (fuel : nat) (l : lockid) : M slst unit :=
  let! lk := gets (fun s => slock_of s l) in
  if negb (sl_locked lk =? 0) then
    match fuel with
    | O => out_of_fuel
    | S fuel =>
        lift (sleep (slock_chan l) (slock_spin l)) ;;;
        acquiresleep_wait fuel l
    end
  else mret' tt.

Definition acquiresleep (fuel : nat) (l : lockid) : M slst unit :=
  lift (acquire (slock_spin l)) ;;;
  acquiresleep_wait fuel l ;;;
  let! p := lift cur in
  let! pid := lift (getp p p_pid) in
  let! lk := gets (fun s => slock_of s l) in
  set_slock l (mksleeplock 1 (sl_name lk) pid) ;;;
  lift (release (slock_spin l)).

Definition releasesleep (l : lockid) : M slst unit :=
  lift (acquire (slock_spin l)) ;;;
  let! lk := gets (fun s => slock_of s l) in
  set_slock l (mksleeplock 0 (sl_name lk) 0) ;;;
  lift (wakeup (slock_chan l)) ;;;
  lift (release (slock_spin l)).

Definition holdingsleep (l : lockid) : M slst bool :=
  lift (acquire (slock_spin l)) ;;;
  let! lk := gets (fun s => slock_of s l) in
  let! r := (if negb (sl_locked lk =? 0) then
               let! p := lift cur in
               let! pid := lift (getp p p_pid) in
               mret' (sl_pid lk =? pid)
             else mret' false) in
  lift (release (slock_spin l)) ;;;
  mret' r.

Lemma bind_slst {A B} (m : M pst A) (k : A -> M slst B) p sl a p' :
  m p = Ok a p' -> mbind' (lift m) k (mkslst p sl) = k a (mkslst p' sl).
Proof. intros E. exact (bind_lift m k (mkslst p sl) a p' E). Qed.

Lemma bind_slst_yield {A B} (m : M pst A) (f : A -> M slst B) p sl p2 k :
  m p = Yield p2 k ->
  mbind' (lift m) f (mkslst p sl) =
  Yield (mkslst p2 sl) (fun s' => res_bind (res_lift s' (k (sl_pst s'))) f).
Proof. intros E. unfold mbind', lift. cbn. by rewrite E. Qed.

Lemma lift_slst_hart {A} (m : M hart A) p sl a h' :
  m (hart_of p) = Ok a h' -> lift m (mkslst p sl) = Ok a (mkslst (with_hart h' p) sl).
Proof. intros E. exact (lift_ok m (mkslst p sl) a h' E). Qed.

(** ** Uncontended use *)

Lemma slock_spin_plain l : plain_lock (slock_spin l).
Proof. intros i. unfold slock_spin, proc_lock. destruct l. cbn. discriminate. Qed.

Section Uncontended.
Context (l : lockid) (s : slst) (me : nat)
  (Hq : proc_quiet (sl_pst s) me) (Hl : lock_free (slock_spin l) (hart_of (sl_pst s))).

Lemma bind_slock_enter {B} (k : unit -> M slst B) :
  mbind' (lift (acquire (slock_spin l))) k s =
  k tt (mkslst (with_hart (acquired (slock_spin l) (hart_of (sl_pst s))) (sl_pst s)) (slocks s)).
Proof.
  destruct s as [p sl]. apply bind_ok, lift_slst_hart. exact (acquire_eq _ _ Hl).
Qed.

Lemma slock_leave p1 sl :
  inside (slock_spin l) (sl_pst s) p1 ->
  lift (release (slock_spin l)) (mkslst p1 sl) =
    Ok tt (mkslst (with_hart (settle (hart_of (sl_pst s))) p1) sl) /\
  woke (sl_pst s) (with_hart (settle (hart_of (sl_pst s))) p1).
Proof.
  intros Hi. destruct (inside_release _ _ _ me Hq Hl Hi) as [E W]. split; [|done].
  exact (lift_slst_hart _ _ _ _ _ E).
Qed.

Lemma acquiresleep_ok fuel :
  sl_locked (slock_of s l) = 0 ->
  exists p', acquiresleep fuel l s =
    Ok tt (mkslst p' (<[l := mksleeplock 1 (sl_name (slock_of s l))
                               (p_pid (proc_of (sl_pst s) me))]> (slocks s))) /\
    woke (sl_pst s) p'.
Proof.
  intros H0. unfold acquiresleep. rewrite bind_slock_enter.
  set (p1 := with_hart _ (sl_pst s)). set (s1 := mkslst p1 (slocks s)).
  pose proof (inside_enter (slock_spin l) (sl_pst s)) as Hi.
  assert (Hw : acquiresleep_wait fuel l s1 = Ok tt s1).
  { destruct fuel; cbn [acquiresleep_wait]; autorewrite with mdb;
      change (slock_of s1 l) with (slock_of s l); rewrite H0; done. }
  rewrite (bind_ok _ _ _ _ _ Hw).
  unfold s1. rewrite (bind_slst cur _ p1 _ me p1 (inside_cur _ _ _ _ (slock_spin_plain l) Hq Hi)).
  rewrite (bind_slst (getp me p_pid) _ p1 _ (p_pid (proc_of p1 me)) p1 eq_refl).
  unfold set_slock. autorewrite with mdb.
  destruct (slock_leave p1 (<[l := mksleeplock 1 (sl_name (slock_of s l))
    (p_pid (proc_of (sl_pst s) me))]> (slocks s)) Hi) as [E W].
  eexists. split; [exact E|exact W].
Qed.

Lemma releasesleep_ok :
  exists p', releasesleep l s =
    Ok tt (mkslst p' (<[l := mksleeplock 0 (sl_name (slock_of s l)) 0]> (slocks s))) /\
    woke (sl_pst s) p' /\
    forall i, proc_of p' i = wake_proc (slock_chan l) (Some me) 0 NPROC i (proc_of (sl_pst s) i).
Proof.
  unfold releasesleep. rewrite bind_slock_enter.
  set (p1 := with_hart _ (sl_pst s)). set (s1 := mkslst p1 (slocks s)).
  pose proof (inside_enter (slock_spin l) (sl_pst s)) as Hi. unfold set_slock. autorewrite with mdb.
  change (slock_of s1 l) with (slock_of s l). cbn [sl_pst slocks s1].
  set (sl' := <[l := _]> (slocks s)).
  destruct (inside_wakeup _ _ _ _ (slock_chan l) (slock_spin_plain l) Hq Hi) as (p2 & E2 & Hi2 & Ht).
  rewrite (bind_slst (wakeup (slock_chan l)) _ p1 sl' tt p2 E2).
  destruct (slock_leave p2 sl' Hi2) as [E W]. eexists. split_and!; [exact E|exact W|exact Ht].
Qed.

Lemma holdingsleep_ok :
  exists p', holdingsleep l s =
    Ok (negb (sl_locked (slock_of s l) =? 0) &&
        (sl_pid (slock_of s l) =? p_pid (proc_of (sl_pst s) me))) (mkslst p' (slocks s)) /\
    woke (sl_pst s) p'.
Proof.
  unfold holdingsleep. rewrite bind_slock_enter.
  set (p1 := with_hart _ (sl_pst s)). set (s1 := mkslst p1 (slocks s)).
  pose proof (inside_enter (slock_spin l) (sl_pst s)) as Hi. autorewrite with mdb.
  change (slock_of s1 l) with (slock_of s l).
  destruct (slock_leave p1 (slocks s) Hi) as [E W].
  destruct (negb (sl_locked (slock_of s l) =? 0)); cbn [andb].
  - rewrite bind_assoc. unfold s1.
    rewrite (bind_slst cur _ p1 _ me p1 (inside_cur _ _ _ _ (slock_spin_plain l) Hq Hi)).
    rewrite bind_assoc.
    rewrite (bind_slst (getp me p_pid) _ p1 _ (p_pid (proc_of p1 me)) p1 eq_refl).
    autorewrite with mdb.
    rewrite (bind_ok _ _ _ _ _ E). eexists. split; [reflexivity|exact W].
  - autorewrite with mdb. rewrite (bind_ok _ _ _ _ _ E). eexists. split; [reflexivity|exact W].
Qed.
End Uncontended.

(** ** Contended use *)

(** The rest of [acquiresleep] once the lock is found free. *)
Lemma acquiresleep_take l p0 p1 sl me :
  proc_quiet p0 me -> lock_free (slock_spin l) (hart_of p0) -> inside (slock_spin l) p0 p1 ->
  exists p', (let! p := lift cur in
    let! pid := lift (getp p p_pid) in
    let! lk := gets (fun s => slock_of s l) in
    set_slock l (mksleeplock 1 (sl_name lk) pid) ;;;
    lift (release (slock_spin l))) (mkslst p1 sl) =
    Ok tt (mkslst p' (<[l := mksleeplock 1 (sl_name (slock_of (mkslst p1 sl) l))
                               (p_pid (proc_of p1 me))]> sl)) /\
    woke p0 p'.
Proof.
  intros Hq Hl Hi.
  rewrite (bind_slst cur _ p1 _ me p1 (inside_cur _ _ _ _ (slock_spin_plain l) Hq Hi)).
  rewrite (bind_slst (getp me p_pid) _ p1 _ (p_pid (proc_of p1 me)) p1 eq_refl).
  unfold set_slock. autorewrite with mdb. cbn [sl_pst slocks].
  destruct (inside_release _ _ _ me Hq Hl Hi) as [E W].
  eexists. split; [|exact W]. apply lift_slst_hart, E.
Qed.

Lemma acquiresleep_wait_done fuel l s :
  sl_locked (slock_of s l) = 0 -> acquiresleep_wait fuel l s = Ok tt s.
Proof. intros H. destruct fuel; cbn [acquiresleep_wait]; autorewrite with mdb; by rewrite H. Qed.

(** [acquiresleep] gives the lock to one process at a time. When the lock
    is free it returns at once with the lock recorded as the caller's. When
    another process has it, the caller goes to sleep on the address of the
    lock, without changing it and with the inner spin lock free, so that the
    holder can release it; when the scheduler runs it again and finds the lock
    free, it takes it and returns. *)
Theorem acquiresleep_correct (fuel : nat) (l : lockid) (s : slst) (me : nat)
    (Hq : proc_quiet (sl_pst s) me) (Hn : c_noff (this_cpu (hart_of (sl_pst s))) = 0)
    (Hme : (me < NPROC)%nat) (Hl : lock_free (slock_spin l) (hart_of (sl_pst s))) :
  (sl_locked (slock_of s l) = 0 ->
   exists s', acquiresleep (S fuel) l s = Ok tt s' /\ sl_locked (slock_of s' l) = 1 /\
     sl_pid (slock_of s' l) = p_pid (proc_of (sl_pst s) me) /\ woke (sl_pst s) (sl_pst s')) /\
  (sl_locked (slock_of s l) <> 0 ->
   exists s1 k, acquiresleep (S fuel) l s = Yield s1 k /\
     slocks s1 = slocks s /\ lock_free (slock_spin l) (hart_of (sl_pst s1)) /\
     proc_of (sl_pst s1) me = sleeping (slock_chan l) (proc_of (sl_pst s) me) /\
     forall s2 h2, holds_only (proc_lock me) me h2 (hart_of (sl_pst s2)) ->
       procs_free h2 -> lock_free (slock_spin l) h2 -> sl_locked (slock_of s2 l) = 0 ->
       exists s', k s2 = Ok tt s' /\ sl_locked (slock_of s' l) = 1 /\
         sl_pid (slock_of s' l) = p_pid (proc_of (sl_pst s2) me)).
Proof.
  split; intros H0.
  - destruct (acquiresleep_ok l s me Hq Hl (S fuel) H0) as (p' & E & W).
    eexists. split; [exact E|]. unfold slock_of; cbn. by rewrite lookup_insert_eq.
  - unfold acquiresleep. rewrite (bind_slock_enter l s me Hq Hl).
    set (p1 := with_hart _ (sl_pst s)). cbn [acquiresleep_wait]. rewrite bind_assoc.
    autorewrite with mdb. change (slock_of (mkslst p1 (slocks s)) l) with (slock_of s l).
    destruct (Z.eqb_spec (sl_locked (slock_of s l)) 0); [done|]. cbn [negb].
    rewrite bind_assoc.
    destruct (sleep_spec (slock_chan l) (slock_spin l) me (hart_of (sl_pst s)) p1)
      as (p2 & k & E & Ht & Hl2 & _ & Hk).
    { constructor; [done|apply Hq|done|apply Hq|done]. }
    { apply slock_spin_plain. }
    { by apply Hq. }
    rewrite (bind_slst_yield (sleep (slock_chan l) (slock_spin l)) _ p1 (slocks s) p2 k E).
    eexists _, _. split; [reflexivity|]. split_and!; [done|exact Hl2|..].
    { cbn. rewrite (tm_procs _ _ _ Ht), decide_True by done. done. }
    intros s2 h2 Hh2 Hf2 Hsp2 H02. destruct (Hk (sl_pst s2) h2 Hh2 Hsp2)
      as (p3 & h3 & E3 & [Hh3 Hok3 Hn3 Hp3 Hl3] & Hlk3 & _ & Ht3).
    rewrite (resume_lift _ _ s2 tt p3 E3). change (sub_put p3 s2) with (mkslst p3 (slocks s2)).
    rewrite (bind_ok _ _ _ _ _ (acquiresleep_wait_done fuel l (mkslst p3 (slocks s2)) H02)).
    destruct (acquiresleep_take l (with_hart h3 p3) p3 (slocks s2) me) as (p' & E' & _).
    { constructor; [done|done|]. intros i Hi. unfold lock_free. rewrite hart_of_with, Hlk3. by apply Hf2. }
    { done. }
    { split; [done|]. autorewrite with mdb. apply woke_refl. }
    eexists. split; [exact E'|]. unfold slock_of; cbn. rewrite lookup_insert_eq. cbn.
    rewrite (tm_procs _ _ _ Ht3), decide_True by done. done.
Qed.

(** ** Example: process 1 finds the lock of a buffer held by process 8 *)

Definition buf_slock : lockid := ("buffer"%string, 3).

Definition slst1 (locked pid : Z) : slst :=
  mkslst (pst1 (mkhart 0 SSTATUS_SIE {[0%nat := mkcpu (Some 1%nat) 0 0]}
            (<[slock_spin buf_slock := lock0]> locks1)))
    {[buf_slock := mksleeplock locked "buffer" pid]}.

Lemma slst1_quiet locked pid : proc_quiet (sl_pst (slst1 locked pid)) 1.
Proof.
  constructor; [|reflexivity|].
  - split; [vm_compute; discriminate|intros H; exfalso; vm_compute in H; discriminate].
  - intros i Hi. destruct (hart2_free None i Hi) as [n H]. exists n.
    change (<[slock_spin buf_slock := lock0]> locks1 !! proc_lock i = Some (mkspinlock 0 n None)).
    rewrite lookup_insert_ne by discriminate. exact H.
Qed.

Lemma acquiresleep_correct_witness :
  (exists s', acquiresleep 1 buf_slock (slst1 0 0) = Ok tt s' /\
     sl_pid (slock_of s' buf_slock) = 7) /\
  (exists s1 k, acquiresleep 1 buf_slock (slst1 1 8) = Yield s1 k /\
     p_state (proc_of (sl_pst s1) 1) = SLEEPING).
Proof.
  assert (Hl : forall x y, lock_free (slock_spin buf_slock) (hart_of (sl_pst (slst1 x y))))
    by (intros x y; exists "lock"%string; reflexivity).
  assert (H1 : (1 < NPROC)%nat) by (apply Nat.ltb_lt; reflexivity).
  split.
  - destruct (acquiresleep_correct 0 buf_slock (slst1 0 0) 1 (slst1_quiet _ _) eq_refl H1 (Hl _ _))
      as [H _]. destruct (H eq_refl) as (s' & E & _ & Hpid & _). exists s'. split; [exact E|exact Hpid].
  - destruct (acquiresleep_correct 0 buf_slock (slst1 1 8) 1 (slst1_quiet _ _) eq_refl H1 (Hl _ _))
      as [_ H]. destruct H as (s1 & k & E & _ & _ & Hp & _); [discriminate|].
    exists s1, k. split; [exact E|]. rewrite Hp. reflexivity.
Defined.
