(* ===== verification/Bio.v ===== *)
(** * The buffer cache

    Models [src/xv6-os/kernel/bio.c] and [buf.h]. A buffer is an index of
    [bcache.buf[]], with [NBUF] for [bcache.head]; the doubly linked list goes
    through these indices. The disk is an array of blocks; [disk_rw] is
    the transfer that [virtio_disk_rw] (modelled in [Virtio.v]) has made when
    it returns, and the blocks written are recorded in order, so that a crash can be put between any
    two of them. *)
From S2P Require Import Prelude CString Spinlock Layout Kalloc Vm Proc ProcSpec Quiet Sleeplock.

Definition BSIZE : Z := 1024.

Record buf := mkbuf {
  b_valid : Z;
  b_disk : Z;
  b_dev : Z;
  b_blockno : Z;
  b_refcnt : Z;
  b_prev : Z;
  b_next : Z;
  b_data : list Z;
}.

Definition zero_block : list Z := replicate (Z.to_nat BSIZE) 0.

Definition buf0 : buf := mkbuf 0 0 0 0 0 0 0 zero_block.

Record bst := mkbst {
  b_sl : slst;
  bufs : gmap Z buf;
  disk : gmap Z (list Z);
  dwrites : list (Z * list Z);
}.

#[export] Instance sub_slst_bst : Sub slst bst := {|
  sub_get := b_sl;
  sub_put x s := mkbst x (bufs s) (disk s) (dwrites s);
|}.
#[export] Instance sub_pst_bst : Sub pst bst := {|
  sub_get s := sl_pst (b_sl s);
  sub_put x s := mkbst (sub_put x (b_sl s)) (bufs s) (disk s) (dwrites s);
|}.
#[export] Instance sub_hart_bst : Sub hart bst := {|
  sub_get s := sub_get (b_sl s);
  sub_put x s := mkbst (sub_put x (b_sl s)) (bufs s) (disk s) (dwrites s);
|}.

(** [bcache.head] is the buffer after the last one. *)
Definition bhead : Z := Z.of_nat NBUF.

Definition buf_of (s : bst) (b : Z) : buf := default buf0 (bufs s !! b).
Definition getb {A} (b : Z) (f : buf -> A) : M bst A := gets (fun s => f (buf_of s b)).
Definition updb (b : Z) (f : buf -> buf) : M bst unit :=
  modify (fun s => mkbst (b_sl s) (<[b := f (buf_of s b)]> (bufs s)) (disk s) (dwrites s)).

Section Setters.
Implicit Types b : buf.
Definition set_bvalid x b := mkbuf x (b_disk b) (b_dev b) (b_blockno b) (b_refcnt b) (b_prev b) (b_next b) (b_data b).
Definition set_bdev x b := mkbuf (b_valid b) (b_disk b) x (b_blockno b) (b_refcnt b) (b_prev b) (b_next b) (b_data b).
Definition set_bblockno x b := mkbuf (b_valid b) (b_disk b) (b_dev b) x (b_refcnt b) (b_prev b) (b_next b) (b_data b).
Definition set_brefcnt x b := mkbuf (b_valid b) (b_disk b) (b_dev b) (b_blockno b) x (b_prev b) (b_next b) (b_data b).
Definition set_bprev x b := mkbuf (b_valid b) (b_disk b) (b_dev b) (b_blockno b) (b_refcnt b) x (b_next b) (b_data b).
Definition set_bnext x b := mkbuf (b_valid b) (b_disk b) (b_dev b) (b_blockno b) (b_refcnt b) (b_prev b) x (b_data b).
Definition set_bdata x b := mkbuf (b_valid b) (b_disk b) (b_dev b) (b_blockno b) (b_refcnt b) (b_prev b) (b_next b) x.
End Setters.

Definition bcache_lock : lockid := ("bcache"%string, 0).
Definition buf_lock (b : Z) : lockid := ("buffer"%string, b).

(** The transfer between a buffer and its block of the disk. *)
Definition disk_rw (b : Z) (write : bool) : M bst unit :=
  let! n := getb b b_blockno in
  if write then
    let! d := getb b b_data in
    modify (fun s => mkbst (b_sl s) (bufs s) (<[n := d]> (disk s)) (dwrites s ++ [(n, d)]))
  else
    let! d := gets (fun s => default zero_block (disk s !! n)) in
    updb b (set_bdata d).

(** Insertion of [b] after [bcache.head], as in [binit] and [brelse]. *)
Definition bpush (b : Z) : M bst unit :=
  let! first := getb bhead b_next in
  updb b (set_bnext first) ;;;
  updb b (set_bprev bhead) ;;;
  updb first (set_bprev b) ;;;
  updb bhead (set_bnext b).

Fixpoint binit_loop (k : nat) (b : Z) : M bst unit :=
  match k with
  | O => mret' tt
  | S k =>
      let! first := getb bhead b_next in
      updb b (set_bnext first) ;;;
      updb b (set_bprev bhead) ;;;
      lift (initsleeplock (buf_lock b) "buffer") ;;;
      let! first := getb bhead b_next in
      updb first (set_bprev b) ;;;
      updb bhead (set_bnext b) ;;;
      binit_loop k (b + 1)
  end.

Definition binit : M bst unit :=
  lift (initlock bcache_lock "bcache") ;;;
  updb bhead (set_bprev bhead) ;;;
  updb bhead (set_bnext bhead) ;;;
  binit_loop NBUF 0.

(** The two searches of [bget], from [b] on; the list has [NBUF] buffers. *)
Fixpoint bget_cached (k : nat) (b dev blockno : Z) : M bst (option Z) :=
  if b =? bhead then mret' None
  else
    match k with
    | O => out_of_fuel
    | S k =>
        let! x := getb b id in
        if (b_dev x =? dev) && (b_blockno x =? blockno) then mret' (Some b)
        else bget_cached k (b_next x) dev blockno
    end.

Fixpoint bget_unused (k : nat) (b : Z) : M bst (option Z) :=
  if b =? bhead then mret' None
  else
    match k with
    | O => out_of_fuel
    | S k =>
        let! x := getb b id in
        if b_refcnt x =? 0 then mret' (Some b) else bget_unused k (b_prev x)
    end.

(** [fuel] bounds the wakeups in [acquiresleep]. *)
Section Bio.
Context (fuel : nat).

Definition bget (dev blockno : Z) : M bst Z :=
  lift (acquire bcache_lock) ;;;
  let! first := getb bhead b_next in
  let! r := bget_cached NBUF first dev blockno in
  match r with
  | Some b =>
      let! n := getb b b_refcnt in
      updb b (set_brefcnt (u32 (n + 1))) ;;;
      lift (release bcache_lock) ;;;
      lift (acquiresleep fuel (buf_lock b)) ;;;
      mret' b
  | None =>
      let! last := getb bhead b_prev in
      let! r := bget_unused NBUF last in
      match r with
      | Some b =>
          updb b (set_bdev dev) ;;;
          updb b (set_bblockno blockno) ;;;
          updb b (set_bvalid 0) ;;;
          updb b (set_brefcnt 1) ;;;
          lift (release bcache_lock) ;;;
          lift (acquiresleep fuel (buf_lock b)) ;;;
          mret' b
      | None => panic "bget: no buffers"
      end
  end.

Definition bread (dev blockno : Z) : M bst Z :=
  let! b := bget dev blockno in
  let! v := getb b b_valid in
  (if v =? 0 then
     disk_rw b false ;;;
     updb b (set_bvalid 1)
   else mret' tt) ;;;
  mret' b.

End Bio.

Definition bwrite (b : Z) : M bst unit :=
  let! h := lift (holdingsleep (buf_lock b)) in
  if negb h then panic "bwrite" else disk_rw b true.

Definition brelse (b : Z) : M bst unit :=
  let! h := lift (holdingsleep (buf_lock b)) in
  if negb h then panic "brelse"
  else
    lift (releasesleep (buf_lock b)) ;;;
    lift (acquire bcache_lock) ;;;
    let! n := getb b b_refcnt in
    updb b (set_brefcnt (u32 (n - 1))) ;;;
    let! n := getb b b_refcnt in
    (if n =? 0 then
       let! next := getb b b_next in
       let! prev := getb b b_prev in
       updb next (set_bprev prev) ;;;
       let! next := getb b b_next in
       let! prev := getb b b_prev in
       updb prev (set_bnext next) ;;;
       bpush b
     else mret' tt) ;;;
    lift (release bcache_lock).

Definition bpin (b : Z) : M bst unit :=
  lift (acquire bcache_lock) ;;;
  let! n := getb b b_refcnt in
  updb b (set_brefcnt (u32 (n + 1))) ;;;
  lift (release bcache_lock).

Definition bunpin (b : Z) : M bst unit :=
  lift (acquire bcache_lock) ;;;
  let! n := getb b b_refcnt in
  updb b (set_brefcnt (u32 (n - 1))) ;;;
  lift (release bcache_lock).
