(* ===== verification/Virtio.v ===== *)
(** * The disk driver

    Models [src/xv6-os/kernel/virtio_disk.c] with the data of [virtio.h]: the
    descriptors, the rings, the requests in flight and the interrupt. The
    device is hardware: the value a register has when it is read is a
    function of the registers written so far, and the entries of the used
    ring and the status bytes appear between the steps of the driver. *)
From S2P Require Import Prelude CString Spinlock Layout Dll Kalloc Vm Proc Sleeplock Bio.

Definition NUM : nat := 8.

Definition VIRTIO_MMIO_MAGIC_VALUE : Z := 0x000.
Definition VIRTIO_MMIO_VERSION : Z := 0x004.
Definition VIRTIO_MMIO_DEVICE_ID : Z := 0x008.
Definition VIRTIO_MMIO_VENDOR_ID : Z := 0x00c.
Definition VIRTIO_MMIO_DEVICE_FEATURES : Z := 0x010.
Definition VIRTIO_MMIO_DRIVER_FEATURES : Z := 0x020.
Definition VIRTIO_MMIO_QUEUE_SEL : Z := 0x030.
Definition VIRTIO_MMIO_QUEUE_NUM_MAX : Z := 0x034.
Definition VIRTIO_MMIO_QUEUE_NUM : Z := 0x038.
Definition VIRTIO_MMIO_QUEUE_READY : Z := 0x044.
Definition VIRTIO_MMIO_QUEUE_NOTIFY : Z := 0x050.
Definition VIRTIO_MMIO_INTERRUPT_STATUS : Z := 0x060.
Definition VIRTIO_MMIO_INTERRUPT_ACK : Z := 0x064.
Definition VIRTIO_MMIO_STATUS : Z := 0x070.
Definition VIRTIO_MMIO_QUEUE_DESC_LOW : Z := 0x080.
Definition VIRTIO_MMIO_QUEUE_DESC_HIGH : Z := 0x084.
Definition VIRTIO_MMIO_DRIVER_DESC_LOW : Z := 0x090.
Definition VIRTIO_MMIO_DRIVER_DESC_HIGH : Z := 0x094.
Definition VIRTIO_MMIO_DEVICE_DESC_LOW : Z := 0x0a0.
Definition VIRTIO_MMIO_DEVICE_DESC_HIGH : Z := 0x0a4.

Definition VIRTIO_CONFIG_S_ACKNOWLEDGE : Z := 1.
Definition VIRTIO_CONFIG_S_DRIVER : Z := 2.
Definition VIRTIO_CONFIG_S_DRIVER_OK : Z := 4.
Definition VIRTIO_CONFIG_S_FEATURES_OK : Z := 8.

Definition VIRTIO_BLK_F_RO : Z := 5.
Definition VIRTIO_BLK_F_SCSI : Z := 7.
Definition VIRTIO_BLK_F_CONFIG_WCE : Z := 11.
Definition VIRTIO_BLK_F_MQ : Z := 12.
Definition VIRTIO_F_ANY_LAYOUT : Z := 27.
Definition VIRTIO_RING_F_INDIRECT_DESC : Z := 28.
Definition VIRTIO_RING_F_EVENT_IDX : Z := 29.

Definition VRING_DESC_F_NEXT : Z := 1.
Definition VRING_DESC_F_WRITE : Z := 2.
Definition VIRTIO_BLK_T_IN : Z := 0.
Definition VIRTIO_BLK_T_OUT : Z := 1.

(** The addresses a descriptor can have: 0, a command header, the data of a
    buffer, a status byte. *)
Inductive vptr := PNull | POps (i : nat) | PData (b : Z) | PStatus (i : nat).

#[export] Instance vptr_eq_dec : EqDecision vptr.
Proof. solve_decision. Defined.

Record virtq_desc := mkdesc {
  d_addr : vptr;
  d_len : Z;
  d_flags : Z;
  d_next : nat;
}.

Record virtio_blk_req := mkreq {
  r_type : Z;
  r_reserved : Z;
  r_sector : Z;
}.

Record info := mkinfo {
  info_b : option Z;
  info_status : Z;
}.

Definition desc0 : virtq_desc := mkdesc PNull 0 0 0.
Definition req0 : virtio_blk_req := mkreq 0 0 0.
Definition info0 : info := mkinfo None 0.

(** [struct disk]; [desc], [avail] and [used] are the contents of the pages
    at [v_descp], [v_availp] and [v_usedp]. A used element is its [id]. *)
Record vdisk := mkvdisk {
  v_descp : Z;
  v_availp : Z;
  v_usedp : Z;
  v_desc : gmap nat virtq_desc;
  v_avail_idx : Z;
  v_avail_ring : gmap nat nat;
  v_used_idx : Z;
  v_used_ring : gmap nat nat;
  v_free : gmap nat Z;
  v_seen : Z;
  v_info : gmap nat info;
  v_ops : gmap nat virtio_blk_req;
  v_writes : list (Z * Z);
  v_read : list (Z * Z) -> Z -> Z;
}.

Section Setters.
Implicit Types v : vdisk.
Definition set_pages d a u v := mkvdisk d a u (v_desc v) (v_avail_idx v) (v_avail_ring v) (v_used_idx v) (v_used_ring v) (v_free v) (v_seen v) (v_info v) (v_ops v) (v_writes v) (v_read v).
Definition set_vdesc i x v := mkvdisk (v_descp v) (v_availp v) (v_usedp v) (<[i := x]> (v_desc v)) (v_avail_idx v) (v_avail_ring v) (v_used_idx v) (v_used_ring v) (v_free v) (v_seen v) (v_info v) (v_ops v) (v_writes v) (v_read v).
Definition clear_rings v := mkvdisk (v_descp v) (v_availp v) (v_usedp v) ∅ 0 ∅ 0 ∅ (v_free v) (v_seen v) (v_info v) (v_ops v) (v_writes v) (v_read v).
Definition set_avail_idx x v := mkvdisk (v_descp v) (v_availp v) (v_usedp v) (v_desc v) x (v_avail_ring v) (v_used_idx v) (v_used_ring v) (v_free v) (v_seen v) (v_info v) (v_ops v) (v_writes v) (v_read v).
Definition set_avail i x v := mkvdisk (v_descp v) (v_availp v) (v_usedp v) (v_desc v) (v_avail_idx v) (<[i := x]> (v_avail_ring v)) (v_used_idx v) (v_used_ring v) (v_free v) (v_seen v) (v_info v) (v_ops v) (v_writes v) (v_read v).
Definition set_vfree i x v := mkvdisk (v_descp v) (v_availp v) (v_usedp v) (v_desc v) (v_avail_idx v) (v_avail_ring v) (v_used_idx v) (v_used_ring v) (<[i := x]> (v_free v)) (v_seen v) (v_info v) (v_ops v) (v_writes v) (v_read v).
Definition set_seen x v := mkvdisk (v_descp v) (v_availp v) (v_usedp v) (v_desc v) (v_avail_idx v) (v_avail_ring v) (v_used_idx v) (v_used_ring v) (v_free v) x (v_info v) (v_ops v) (v_writes v) (v_read v).
Definition set_vinfo i x v := mkvdisk (v_descp v) (v_availp v) (v_usedp v) (v_desc v) (v_avail_idx v) (v_avail_ring v) (v_used_idx v) (v_used_ring v) (v_free v) (v_seen v) (<[i := x]> (v_info v)) (v_ops v) (v_writes v) (v_read v).
Definition set_vops i x v := mkvdisk (v_descp v) (v_availp v) (v_usedp v) (v_desc v) (v_avail_idx v) (v_avail_ring v) (v_used_idx v) (v_used_ring v) (v_free v) (v_seen v) (v_info v) (<[i := x]> (v_ops v)) (v_writes v) (v_read v).
Definition add_write r x v := mkvdisk (v_descp v) (v_availp v) (v_usedp v) (v_desc v) (v_avail_idx v) (v_avail_ring v) (v_used_idx v) (v_used_ring v) (v_free v) (v_seen v) (v_info v) (v_ops v) (v_writes v ++ [(r, u32 x)]) (v_read v).
End Setters.

(** The driver's state with the processes and the buffers. *)
Record vst := mkvst {
  v_b : bst;
  v_d : vdisk;
}.

#[export] Instance sub_bst_vst : Sub bst vst := {|
  sub_get := v_b;
  sub_put x s := mkvst x (v_d s);
|}.
#[export] Instance sub_pst_vst : Sub pst vst := {|
  sub_get s := sub_get (v_b s);
  sub_put x s := mkvst (sub_put x (v_b s)) (v_d s);
|}.
#[export] Instance sub_mm_vst : Sub mm vst := {|
  sub_get s := p_mm (sub_get (v_b s));
  sub_put x s := mkvst (sub_put (sub_put x (sub_get (v_b s) : pst)) (v_b s)) (v_d s);
|}.
#[export] Instance sub_hart_vst : Sub hart vst := {|
  sub_get s := sub_get (v_b s);
  sub_put x s := mkvst (sub_put x (v_b s)) (v_d s);
|}.

Definition getv {A} (f : vdisk -> A) : M vst A := gets (fun s => f (v_d s)).
Definition updv (f : vdisk -> vdisk) : M vst unit := modify (fun s => mkvst (v_b s) (f (v_d s))).

Definition desc_of (v : vdisk) (i : nat) : virtq_desc := default desc0 (v_desc v !! i).
Definition info_of (v : vdisk) (i : nat) : info := default info0 (v_info v !! i).
Definition free_of (v : vdisk) (i : nat) : Z := default 0 (v_free v !! i).
Definition ops_of (v : vdisk) (i : nat) : virtio_blk_req := default req0 (v_ops v !! i).

Definition vdisk_lock : lockid := ("virtio_disk"%string, 0).
Definition free_chan : chan := Some ("disk.free"%string, 0).
Definition buf_chan (b : Z) : chan := Some ("buf"%string, b).
Definition set_bdisk x b := mkbuf (b_valid b) x (b_dev b) (b_blockno b) (b_refcnt b) (b_prev b) (b_next b) (b_data b).

(** A read and a write of a register. *)
Definition R (r : Z) : M vst Z := getv (fun v => u32 (v_read v (v_writes v) r)).
Definition W (r x : Z) : M vst unit := updv (add_write r x).

(** [features &= ~(1 << bit)]. *)
Definition clear_feature (features bit : Z) : Z := Z.land features (u64 (Z.lnot (Z.shiftl 1 bit))).

Fixpoint free_all (k : nat) (i : nat) : M vst unit :=
  match k with
  | O => mret' tt
  | S k =>
      updv (set_vfree i 1) ;;;
      free_all k (S i)
  end.

(** The allocation and zeroing of the queue memory. *)
Definition queue_memory {LY : Layout} : M vst unit :=
  let! d := lift (S:=mm) kalloc in
  let! a := lift (S:=mm) kalloc in
  let! u := lift (S:=mm) kalloc in
  updv (set_pages d a u) ;;;
  if (d =? 0) || (a =? 0) || (u =? 0) then panic "virtio disk kalloc"
  else
    lift (S:=mm) (upd_mem (fun m => memset m d 0 PGSIZE)) ;;;
    lift (S:=mm) (upd_mem (fun m => memset m a 0 PGSIZE)) ;;;
    lift (S:=mm) (upd_mem (fun m => memset m u 0 PGSIZE)) ;;;
    updv clear_rings.

Definition virtio_disk_init {LY : Layout} : M vst unit :=
  lift (initlock vdisk_lock "virtio_disk") ;;;
  let! magic := R VIRTIO_MMIO_MAGIC_VALUE in
  let! version := R VIRTIO_MMIO_VERSION in
  let! device := R VIRTIO_MMIO_DEVICE_ID in
  let! vendor := R VIRTIO_MMIO_VENDOR_ID in
  if negb (magic =? 0x74726976) || negb (version =? 2) || negb (device =? 2) ||
     negb (vendor =? 0x554d4551) then panic "could not find virtio disk"
  else
    W VIRTIO_MMIO_STATUS 0 ;;;
    let status := Z.lor 0 VIRTIO_CONFIG_S_ACKNOWLEDGE in
    W VIRTIO_MMIO_STATUS status ;;;
    let status := Z.lor status VIRTIO_CONFIG_S_DRIVER in
    W VIRTIO_MMIO_STATUS status ;;;
    let! features := R VIRTIO_MMIO_DEVICE_FEATURES in
    let features := clear_feature features VIRTIO_BLK_F_RO in
    let features := clear_feature features VIRTIO_BLK_F_SCSI in
    let features := clear_feature features VIRTIO_BLK_F_CONFIG_WCE in
    let features := clear_feature features VIRTIO_BLK_F_MQ in
    let features := clear_feature features VIRTIO_F_ANY_LAYOUT in
    let features := clear_feature features VIRTIO_RING_F_EVENT_IDX in
    let features := clear_feature features VIRTIO_RING_F_INDIRECT_DESC in
    W VIRTIO_MMIO_DRIVER_FEATURES features ;;;
    let status := Z.lor status VIRTIO_CONFIG_S_FEATURES_OK in
    W VIRTIO_MMIO_STATUS status ;;;
    let! status := R VIRTIO_MMIO_STATUS in
    if Z.land status VIRTIO_CONFIG_S_FEATURES_OK =? 0 then panic "virtio disk FEATURES_OK unset"
    else
      W VIRTIO_MMIO_QUEUE_SEL 0 ;;;
      let! ready := R VIRTIO_MMIO_QUEUE_READY in
      if negb (ready =? 0) then panic "virtio disk should not be ready"
      else
        let! max := R VIRTIO_MMIO_QUEUE_NUM_MAX in
        if max =? 0 then panic "virtio disk has no queue 0"
        else if max <? Z.of_nat NUM then panic "virtio disk max queue too short"
        else
          queue_memory ;;;
          W VIRTIO_MMIO_QUEUE_NUM (Z.of_nat NUM) ;;;
          let! d := getv v_descp in
          let! a := getv v_availp in
          let! u := getv v_usedp in
          W VIRTIO_MMIO_QUEUE_DESC_LOW d ;;;
          W VIRTIO_MMIO_QUEUE_DESC_HIGH (Z.shiftr d 32) ;;;
          W VIRTIO_MMIO_DRIVER_DESC_LOW a ;;;
          W VIRTIO_MMIO_DRIVER_DESC_HIGH (Z.shiftr a 32) ;;;
          W VIRTIO_MMIO_DEVICE_DESC_LOW u ;;;
          W VIRTIO_MMIO_DEVICE_DESC_HIGH (Z.shiftr u 32) ;;;
          W VIRTIO_MMIO_QUEUE_READY 1 ;;;
          free_all NUM 0 ;;;
          W VIRTIO_MMIO_STATUS (Z.lor status VIRTIO_CONFIG_S_DRIVER_OK).

(** ** Descriptors *)

Fixpoint alloc_desc_loop (k : nat) (i : nat) : M vst (option nat) :=
  match k with
  | O => mret' None
  | S k =>
      let! f := getv (fun v => free_of v i) in
      if negb (f =? 0) then
        updv (set_vfree i 0) ;;;
        mret' (Some i)
      else alloc_desc_loop k (S i)
  end.

Definition alloc_desc : M vst (option nat) := alloc_desc_loop NUM 0.

Definition free_desc (i : nat) : M vst unit :=
  if bool_decide (NUM <= i)%nat then panic "free_desc 1"
  else
    let! f := getv (fun v => free_of v i) in
    if negb (f =? 0) then panic "free_desc 2"
    else
      updv (set_vdesc i desc0) ;;;
      updv (set_vfree i 1) ;;;
      lift (wakeup free_chan).

(** Each round frees a descriptor or panics, so that [NUM] rounds and one
    more are enough. *)
Fixpoint free_chain_loop (k : nat) (i : nat) : M vst unit :=
  match k with
  | O => out_of_fuel
  | S k =>
      let! d := getv (fun v => desc_of v i) in
      free_desc i ;;;
      if negb (Z.land (d_flags d) VRING_DESC_F_NEXT =? 0) then free_chain_loop k (d_next d)
      else mret' tt
  end.

Definition free_chain (i : nat) : M vst unit := free_chain_loop (S NUM) i.

Fixpoint free_descs (l : list nat) : M vst unit :=
  match l with
  | [] => mret' tt
  | i :: l =>
      free_desc i ;;;
      free_descs l
  end.

(** [idx] holds the descriptors got so far. *)
Fixpoint alloc3_desc_loop (k : nat) (idx : list nat) : M vst (option (list nat)) :=
  match k with
  | O => mret' (Some idx)
  | S k =>
      let! d := alloc_desc in
      match d with
      | None =>
          free_descs idx ;;;
          mret' None
      | Some i => alloc3_desc_loop k (idx ++ [i])
      end
  end.

Definition alloc3_desc : M vst (option (list nat)) := alloc3_desc_loop 3 [].

(** ** Requests *)

Fixpoint wait_desc (fuel : nat) : M vst (list nat) :=
  match fuel with
  | O => out_of_fuel
  | S fuel =>
      let! r := alloc3_desc in
      match r with
      | Some idx => mret' idx
      | None =>
          lift (sleep free_chan vdisk_lock) ;;;
          wait_desc fuel
      end
  end.

Fixpoint wait_buf (fuel : nat) (b : Z) : M vst unit :=
  let! d := lift (getb b b_disk) in
  if d =? 1 then
    match fuel with
    | O => out_of_fuel
    | S fuel =>
        lift (sleep (buf_chan b) vdisk_lock) ;;;
        wait_buf fuel b
    end
  else mret' tt.

Definition sizeof_blk_req : Z := 16.

(** The three descriptors of a request. *)
Definition format_request (i0 i1 i2 : nat) (b : Z) (write : bool) (sector : Z) : M vst unit :=
  updv (set_vops i0 (mkreq (if write then VIRTIO_BLK_T_OUT else VIRTIO_BLK_T_IN) 0 sector)) ;;;
  updv (set_vdesc i0 (mkdesc (POps i0) sizeof_blk_req VRING_DESC_F_NEXT i1)) ;;;
  updv (set_vdesc i1 (mkdesc (PData b) BSIZE
    (Z.lor (if write then 0 else VRING_DESC_F_WRITE) VRING_DESC_F_NEXT) i2)) ;;;
  let! inf := getv (fun v => info_of v i0) in
  updv (set_vinfo i0 (mkinfo (info_b inf) 0xff)) ;;;
  updv (set_vdesc i2 (mkdesc (PStatus i0) 1 VRING_DESC_F_WRITE 0)).

Definition virtio_disk_rw (fuel : nat) (b : Z) (write : bool) : M vst unit :=
  let! n := lift (getb b b_blockno) in
  let sector := u32 (n * (BSIZE / 512)) in
  lift (acquire vdisk_lock) ;;;
  let! idx := wait_desc fuel in
  match idx with
  | [i0; i1; i2] =>
      format_request i0 i1 i2 b write sector ;;;
      lift (updb b (set_bdisk 1)) ;;;
      let! inf := getv (fun v => info_of v i0) in
      updv (set_vinfo i0 (mkinfo (Some b) (info_status inf))) ;;;
      let! ai := getv v_avail_idx in
      updv (set_avail (Z.to_nat (ai mod Z.of_nat NUM)) i0) ;;;
      updv (set_avail_idx (u16 (ai + 1))) ;;;
      W VIRTIO_MMIO_QUEUE_NOTIFY 0 ;;;
      wait_buf fuel b ;;;
      let! inf := getv (fun v => info_of v i0) in
      updv (set_vinfo i0 (mkinfo None (info_status inf))) ;;;
      free_chain i0 ;;;
      lift (release vdisk_lock)
  | _ => out_of_fuel
  end.

(** The loop of the interrupt handler; the 16-bit counters differ by less
    than [2 ^ 16]. *)
Fixpoint virtio_intr_loop (k : nat) : M vst unit :=
  let! seen := getv v_seen in
  let! used := getv v_used_idx in
  if negb (seen =? used) then
    match k with
    | O => out_of_fuel
    | S k =>
        let! i := getv (fun v => default O (v_used_ring v !! Z.to_nat (seen mod Z.of_nat NUM))) in
        let! inf := getv (fun v => info_of v i) in
        if negb (info_status inf =? 0) then panic "virtio_disk_intr status"
        else
          let! b := deref (info_b inf) in
          lift (updb b (set_bdisk 0)) ;;;
          lift (wakeup (buf_chan b)) ;;;
          updv (set_seen (u16 (seen + 1))) ;;;
          virtio_intr_loop k
    end
  else mret' tt.

Definition virtio_disk_intr : M vst unit :=
  lift (acquire vdisk_lock) ;;;
  let! st := R VIRTIO_MMIO_INTERRUPT_STATUS in
  W VIRTIO_MMIO_INTERRUPT_ACK (Z.land st 3) ;;;
  let! seen := getv v_seen in
  let! used := getv v_used_idx in
  virtio_intr_loop (Z.to_nat (u16 (used - seen))) ;;;
  lift (release vdisk_lock).
