(* ===== verification/VirtioSpec.v ===== *)
(** * The disk driver performs transfers

    A call of [virtio_disk_rw], together with a device that serves requests
    as the virtio specification says and the interrupt that follows, is the
    transfer [disk_rw] that the buffer cache relies on. *)
From S2P Require Import Prelude CString Spinlock Layout Dll Kalloc Vm Proc ProcSpec Quiet Sleeplock Bio Virtio.

(** ** The device *)

(** The block [n] of the disk. *)
Definition vblock (s : vst) (n : Z) : list Z := default zero_block (disk (v_b s) !! n).

Definition BLK_SECTORS : Z := BSIZE / 512.

(** The newest entry of the available ring is the request with the head
    descriptor [i0]: a header of type [t] for the sector of block [n], a data
    area that is the data of buffer [b], which the device may write exactly
    if it is to read the block, and a status byte. It is the only request the
    device has not yet put into the used ring. *)
Record request (v : vdisk) (i0 : nat) (t n b : Z) : Prop := {
  rq_avail : v_avail_idx v = u16 (v_used_idx v + 1);
  rq_head : v_avail_ring v !! Z.to_nat (v_used_idx v mod Z.of_nat NUM) = Some i0;
  rq_op : ops_of v i0 = mkreq t 0 (n * BLK_SECTORS);
  rq_chain : exists i1 i2,
    desc_of v i0 = mkdesc (POps i0) 16 VRING_DESC_F_NEXT i1 /\
    desc_of v i1 = mkdesc (PData b) BSIZE
      (Z.lor (if t =? VIRTIO_BLK_T_IN then VRING_DESC_F_WRITE else 0) VRING_DESC_F_NEXT) i2 /\
    desc_of v i2 = mkdesc (PStatus i0) 1 VRING_DESC_F_WRITE 0;
}.

(** The status 0 and the entry in the used ring. *)
Definition served (i0 : nat) (v : vdisk) : vdisk :=
  mkvdisk (v_descp v) (v_availp v) (v_usedp v) (v_desc v) (v_avail_idx v) (v_avail_ring v)
    (u16 (v_used_idx v + 1)) (<[Z.to_nat (v_used_idx v mod Z.of_nat NUM) := i0]> (v_used_ring v))
    (v_free v) (v_seen v) (<[i0 := mkinfo (info_b (info_of v i0)) 0]> (v_info v)) (v_ops v) (v_writes v) (v_read v).

(** What a device does with the request: the transfer and the answer. *)
Definition serve (i0 : nat) (t n b : Z) (s : vst) : vst :=
  let B := v_b s in
  mkvst
    (if t =? VIRTIO_BLK_T_IN
     then mkbst (b_sl B) (<[b := set_bdata (vblock s n) (buf_of B b)]> (bufs B)) (disk B) (dwrites B)
     else mkbst (b_sl B) (bufs B) (<[n := b_data (buf_of B b)]> (disk B)) (dwrites B ++ [(n, b_data (buf_of B b))]))
    (served i0 (v_d s)).

(** A device that serves the requests for reading and writing a block. *)
Definition serves (dev : vst -> vst) : Prop :=
  forall s i0 t n b, request (v_d s) i0 t n b -> t = VIRTIO_BLK_T_IN \/ t = VIRTIO_BLK_T_OUT ->
    dev s = serve i0 t n b s.

(** ** The driver's data *)

(** The driver has no request in flight, and [i0], [i1] and [i2] are its
    lowest free descriptors. *)
Record ready (v : vdisk) (i0 i1 i2 : nat) : Prop := {
  rd_order : (i0 < i1 < i2)%nat /\ (i2 < NUM)%nat;
  rd_free : free_of v i0 <> 0 /\ free_of v i1 <> 0 /\ free_of v i2 <> 0;
  rd_used : forall j, (j < i2)%nat -> j <> i0 -> j <> i1 -> free_of v j = 0;
  rd_seen : v_seen v = v_used_idx v;
  rd_avail : v_avail_idx v = v_used_idx v;
  rd_range : 0 <= v_used_idx v < 2 ^ 16;
}.

Lemma free_of_set i x v j : free_of (set_vfree i x v) j = if decide (j = i) then x else free_of v j.
Proof.
  unfold free_of. cbn. case_decide as E; [rewrite E; by rewrite lookup_insert_eq|by rewrite lookup_insert_ne].
Qed.

Section Steps.
Context (s : bst).

Lemma alloc_desc_loop_ok v k i j :
  (j <= i < j + k)%nat -> free_of v i <> 0 -> (forall j', (j <= j' < i)%nat -> free_of v j' = 0) ->
  alloc_desc_loop k j (mkvst s v) = Ok (Some i) (mkvst s (set_vfree i 0 v)).
Proof.
  revert j. induction k as [|k IH]; intros j Hij Hi Hlow; [lia|]. cbn [alloc_desc_loop]. unfold getv. rewrite bind_gets. cbn [v_d].
  destruct (decide (j = i)) as [->|Hne].
  - rewrite (proj2 (Z.eqb_neq _ _) Hi). done.
  - rewrite Hlow by lia. cbn [Z.eqb negb]. apply IH; [lia|done|]. intros j' Hj'. apply Hlow. lia.
Qed.

Lemma alloc3_desc_ok v i0 i1 i2 :
  ready v i0 i1 i2 ->
  alloc3_desc (mkvst s v) = Ok (Some [i0; i1; i2]) (mkvst s (set_vfree i2 0 (set_vfree i1 0 (set_vfree i0 0 v)))).
Proof.
  intros [(H1 & H2) (F0 & F1 & F2) Hu _ _ _]. unfold alloc3_desc, alloc_desc. cbn [alloc3_desc_loop].
  rewrite (bind_ok _ _ _ _ _ (alloc_desc_loop_ok v NUM i0 0 ltac:(lia) F0 ltac:(intros; apply Hu; lia))).
  cbn [alloc3_desc_loop app].
  set (v1 := set_vfree i0 0 v). assert (G1 : forall j, free_of v1 j = if decide (j = i0) then 0 else free_of v j)
    by (intros; apply free_of_set).
  erewrite (bind_ok _ _ (mkvst s v1)); [|apply (alloc_desc_loop_ok v1 NUM i1 0); [lia|rewrite G1, decide_False by lia; done|]].
  2: { intros j Hj. rewrite G1. case_decide; [done|]. apply Hu; lia. }
  cbn [app]. set (v2 := set_vfree i1 0 v1).
  assert (G2 : forall j, free_of v2 j = if decide (j = i1) then 0 else free_of v1 j) by (intros; apply free_of_set).
  erewrite (bind_ok _ _ (mkvst s v2)); [|apply (alloc_desc_loop_ok v2 NUM i2 0);
    [lia|rewrite G2, decide_False, G1, decide_False by lia; done|]].
  2: { intros j Hj. rewrite G2, G1. repeat case_decide; try done. apply Hu; lia. }
  done.
Qed.
End Steps.

(** The driver's data when it has made the request available. *)
Definition submitted (v : vdisk) (i0 i1 i2 : nat) (b : Z) (write : bool) (sector : Z) : vdisk :=
  let v := set_vfree i2 0 (set_vfree i1 0 (set_vfree i0 0 v)) in
  let v := set_vops i0 (mkreq (if write then VIRTIO_BLK_T_OUT else VIRTIO_BLK_T_IN) 0 sector) v in
  let v := set_vdesc i0 (mkdesc (POps i0) sizeof_blk_req VRING_DESC_F_NEXT i1) v in
  let v := set_vdesc i1 (mkdesc (PData b) BSIZE
    (Z.lor (if write then 0 else VRING_DESC_F_WRITE) VRING_DESC_F_NEXT) i2) v in
  let v := set_vinfo i0 (mkinfo (info_b (info_of v i0)) 0xff) v in
  let v := set_vdesc i2 (mkdesc (PStatus i0) 1 VRING_DESC_F_WRITE 0) v in
  let v := set_vinfo i0 (mkinfo (Some b) (info_status (info_of v i0))) v in
  let ai := v_avail_idx v in
  let v := set_avail (Z.to_nat (ai mod Z.of_nat NUM)) i0 v in
  let v := set_avail_idx (u16 (ai + 1)) v in
  add_write VIRTIO_MMIO_QUEUE_NOTIFY 0 v.

(** Buffer [b] handed to the device ([x] = 1) or back ([x] = 0). *)
Definition with_disk (s : bst) (b x : Z) : bst :=
  mkbst (b_sl s) (<[b := set_bdisk x (buf_of s b)]> (bufs s)) (disk s) (dwrites s).

Definition with_p (s : bst) (p : pst) : bst := mkbst (mkslst p (slocks (b_sl s))) (bufs s) (disk s) (dwrites s).
Definition pst_of (s : bst) : pst := sl_pst (b_sl s).

(** The rest of [virtio_disk_rw] after the request is served. *)
Definition rw_end (i0 : nat) : M vst unit :=
  let! inf := getv (fun v => info_of v i0) in
  updv (set_vinfo i0 (mkinfo None (info_status inf))) ;;;
  free_chain i0 ;;;
  lift (release vdisk_lock).

Lemma v_lift_pst {A} (m : M pst A) (s : bst) v a p' :
  m (pst_of s) = Ok a p' -> lift m (mkvst s v) = Ok a (mkvst (with_p s p') v).
Proof. intros E. exact (lift_ok m (mkvst s v) a p' E). Qed.

Lemma v_lift_hart {A} (m : M hart A) (s : bst) v a h' :
  m (hart_of (pst_of s)) = Ok a h' -> lift m (mkvst s v) = Ok a (mkvst (with_p s (with_hart h' (pst_of s))) v).
Proof. intros E. exact (lift_ok m (mkvst s v) a h' E). Qed.

Lemma bind_updv {A} f (k : unit -> M vst A) s v : mbind' (updv f) k (mkvst s v) = k tt (mkvst s (f v)).
Proof. done. Qed.
Lemma bind_getv {A C} (f : vdisk -> C) (k : C -> M vst A) s v : mbind' (getv f) k (mkvst s v) = k (f v) (mkvst s v).
Proof. done. Qed.
Lemma bind_W {A} r x (k : unit -> M vst A) s v : mbind' (W r x) k (mkvst s v) = k tt (mkvst s (add_write r x v)).
Proof. done. Qed.
Lemma bind_set_bdisk {A} b x (k : unit -> M vst A) s v :
  mbind' (lift (updb b (set_bdisk x))) k (mkvst s v) = k tt (mkvst (with_disk s b x) v).
Proof. done. Qed.
Lemma bind_get_buf {A C} b (f : buf -> C) (k : C -> M vst A) s v :
  mbind' (lift (getb b f)) k (mkvst s v) = k (f (buf_of s b)) (mkvst s v).
Proof. by destruct s as [[] ? ? ?]. Qed.

(** [virtio_disk_rw] up to the wait for the device. *)
Lemma virtio_disk_rw_submit fuel b write (s : bst) v i0 i1 i2 :
  lock_free vdisk_lock (hart_of (pst_of s)) -> ready v i0 i1 i2 ->
  virtio_disk_rw (S fuel) b write (mkvst s v) =
  (wait_buf (S fuel) b ;;; rw_end i0)
    (mkvst (with_disk (with_p s (with_hart (acquired vdisk_lock (hart_of (pst_of s))) (pst_of s))) b 1)
       (submitted v i0 i1 i2 b write (u32 (b_blockno (buf_of s b) * BLK_SECTORS)))).
Proof.
  intros Hl Hr. unfold virtio_disk_rw.
  rewrite bind_get_buf.
  rewrite (bind_ok _ _ _ _ _ (v_lift_hart _ s v tt _ (acquire_eq _ _ Hl))). set (s1 := with_p s _). cbn [wait_desc].
  rewrite bind_assoc, (bind_ok _ _ _ _ _ (alloc3_desc_ok s1 v i0 i1 i2 Hr)), bind_ret.
  unfold format_request. rewrite !bind_assoc, !bind_updv, !bind_assoc, bind_updv, bind_assoc, bind_updv, bind_assoc, bind_getv.
  rewrite bind_assoc, !bind_updv, bind_set_bdisk, bind_getv, bind_updv, bind_getv, !bind_updv, bind_W.
  reflexivity.
Qed.

(** The fields of the driver's data after the submission. *)
Section Submitted.
Context (v : vdisk) (i0 i1 i2 : nat) (b : Z) (write : bool) (sector : Z) (Hr : ready v i0 i1 i2).
Notation v' := (submitted v i0 i1 i2 b write sector).

Lemma submitted_free j :
  free_of v' j = if decide (j = i0 \/ j = i1 \/ j = i2) then 0 else free_of v j.
Proof.
  change (free_of v' j) with (free_of (set_vfree i2 0 (set_vfree i1 0 (set_vfree i0 0 v))) j).
  rewrite !free_of_set. repeat case_decide; try done; naive_solver.
Qed.

Lemma submitted_info : info_of v' i0 = mkinfo (Some b) 0xff.
Proof. unfold info_of, submitted. cbn. rewrite lookup_insert_eq. cbn. f_equal. unfold info_of at 1. cbn. by rewrite lookup_insert_eq. Qed.

Lemma submitted_desc :
  desc_of v' i0 = mkdesc (POps i0) sizeof_blk_req VRING_DESC_F_NEXT i1 /\
  desc_of v' i1 = mkdesc (PData b) BSIZE (Z.lor (if write then 0 else VRING_DESC_F_WRITE) VRING_DESC_F_NEXT) i2 /\
  desc_of v' i2 = mkdesc (PStatus i0) 1 VRING_DESC_F_WRITE 0.
Proof.
  destruct (rd_order _ _ _ _ Hr) as [H1 H2]. unfold desc_of, submitted. cbn. split_and!.
  - rewrite lookup_insert_ne, lookup_insert_ne, lookup_insert_eq by lia. done.
  - rewrite lookup_insert_ne, lookup_insert_eq by lia. done.
  - by rewrite lookup_insert_eq.
Qed.
End Submitted.

Lemma submitted_request v i0 i1 i2 b (write : bool) n :
  ready v i0 i1 i2 ->
  request (submitted v i0 i1 i2 b write (n * BLK_SECTORS)) i0 (if write then VIRTIO_BLK_T_OUT else VIRTIO_BLK_T_IN) n b.
Proof.
  intros Hr. constructor.
  - cbn. by rewrite (rd_avail _ _ _ _ Hr).
  - cbn. rewrite (rd_avail _ _ _ _ Hr). by rewrite lookup_insert_eq.
  - unfold ops_of, submitted. cbn. by rewrite lookup_insert_eq.
  - exists i1, i2. destruct (submitted_desc v i0 i1 i2 b write (n * BLK_SECTORS) Hr) as (D0 & D1 & D2).
    rewrite D0, D1, D2. split_and!; [done|by destruct write|done].
Qed.


(** ** The interrupt *)

Lemma vdisk_plain : plain_lock vdisk_lock.
Proof. intros i. discriminate. Qed.

Lemma pst_of_with_p s p : pst_of (with_p s p) = p.
Proof. done. Qed.
Lemma pst_of_with_disk s b x : pst_of (with_disk s b x) = pst_of s.
Proof. done. Qed.

Lemma virtio_disk_intr_ok (s : bst) v q i b :
  proc_quiet (pst_of s) q -> lock_free vdisk_lock (hart_of (pst_of s)) ->
  0 <= v_seen v < 2 ^ 16 -> v_used_idx v = u16 (v_seen v + 1) ->
  v_used_ring v !! Z.to_nat (v_seen v mod Z.of_nat NUM) = Some i -> info_of v i = mkinfo (Some b) 0 ->
  exists p' x, virtio_disk_intr (mkvst s v) =
      Ok tt (mkvst (with_p (with_disk s b 0) p')
        (set_seen (v_used_idx v) (add_write VIRTIO_MMIO_INTERRUPT_ACK x v))) /\
    woke (pst_of s) p' /\
    forall j, proc_of p' j = wake_proc (buf_chan b) (Some q) 0 NPROC j (proc_of (pst_of s) j).
Proof.
  intros Hq Hl Hs Hu Hring Hinf. unfold virtio_disk_intr.
  rewrite (bind_ok _ _ _ _ _ (v_lift_hart _ s v tt _ (acquire_eq _ _ Hl))). set (p1 := with_hart _ _).
  assert (Hi : inside vdisk_lock (pst_of s) p1) by apply inside_enter.
  unfold R at 1. rewrite bind_getv, bind_W, !bind_getv. set (x := Z.land _ 3). set (v1 := add_write _ x v).
  assert (Hne : u16 (v_seen v + 1) <> v_seen v) by (unfold u16; divlia).
  assert (Hk : Z.to_nat (u16 (v_used_idx v1 - v_seen v1)) = 1%nat).
  { change (v_used_idx v1) with (v_used_idx v). change (v_seen v1) with (v_seen v). rewrite Hu. unfold u16. divlia. }
  rewrite Hk. cbn [virtio_intr_loop]. rewrite bind_assoc, bind_getv, bind_assoc, bind_getv.
  change (v_used_idx v1) with (v_used_idx v). change (v_seen v1) with (v_seen v).
  rewrite Hu, (proj2 (Z.eqb_neq _ _) (not_eq_sym Hne)). cbn [negb]. rewrite !bind_assoc, bind_getv.
  change (v_used_ring v1) with (v_used_ring v). rewrite Hring. change (default 0%nat (Some i)) with i.
  rewrite bind_assoc, bind_getv. change (info_of v1 i) with (info_of v i). rewrite Hinf. cbn [info_status info_b Z.eqb negb deref].
  rewrite bind_assoc, bind_ret, bind_assoc, bind_set_bdisk, bind_assoc.
  destruct (inside_wakeup vdisk_lock (pst_of s) p1 q (buf_chan b) vdisk_plain Hq Hi) as (p2 & E2 & Hi2 & Ht2).
  rewrite (bind_ok _ _ _ _ _ (v_lift_pst (wakeup (buf_chan b)) (with_disk (with_p s p1) b 0) v1 tt p2 E2)).
  rewrite bind_assoc, bind_updv, bind_assoc, bind_getv, bind_assoc, bind_getv. cbn [v_seen v_used_idx set_seen].
  change (v_used_idx v1) with (v_used_idx v). rewrite Hu, Z.eqb_refl. cbn [negb]. rewrite bind_ret.
  destruct (inside_release vdisk_lock (pst_of s) p2 q Hq Hl Hi2) as [E3 W3].
  eexists _, x. split_and!; [|exact W3|exact Ht2].
  exact (v_lift_hart (release vdisk_lock) (with_p (with_disk (with_p s p1) b 0) p2) _ tt _ E3).
Qed.

(** ** The end of a call *)

Definition freed (i : nat) (v : vdisk) : vdisk := set_vfree i 1 (set_vdesc i desc0 v).

Lemma free_chain_step p me (s : bst) v k i :
  proc_quiet p me -> inside vdisk_lock p (pst_of s) -> (i < NUM)%nat -> free_of v i = 0 ->
  exists p2, inside vdisk_lock p p2 /\
    free_chain_loop (S k) i (mkvst s v) =
    (if negb (Z.land (d_flags (desc_of v i)) VRING_DESC_F_NEXT =? 0) then free_chain_loop k (d_next (desc_of v i))
     else mret' tt) (mkvst (with_p s p2) (freed i v)).
Proof.
  intros Hq Hi Hn Hf. destruct (inside_wakeup vdisk_lock p (pst_of s) me free_chan vdisk_plain Hq Hi) as (p2 & E2 & Hi2 & _).
  exists p2. split; [exact Hi2|]. cbn [free_chain_loop]. rewrite bind_getv. unfold free_desc.
  rewrite bool_decide_false by lia. rewrite bind_assoc, bind_getv, Hf. cbn [Z.eqb negb].
  rewrite bind_assoc, bind_updv, bind_assoc, bind_updv.
  by rewrite (bind_ok _ _ _ _ _ (v_lift_pst (wakeup free_chan) s (freed i v) tt p2 E2)).
Qed.

Lemma desc_of_freed i v j : desc_of (freed i v) j = if decide (j = i) then desc0 else desc_of v j.
Proof.
  unfold desc_of. cbn. case_decide as E; [rewrite E; by rewrite lookup_insert_eq|by rewrite lookup_insert_ne].
Qed.
Lemma free_of_freed i v j : free_of (freed i v) j = if decide (j = i) then 1 else free_of v j.
Proof. exact (free_of_set i 1 (set_vdesc i desc0 v) j). Qed.

(** The chain of the request of [i0]. *)
Record chain (v : vdisk) (i0 i1 i2 : nat) : Prop := {
  cn_order : (i0 < i1 < i2)%nat /\ (i2 < NUM)%nat;
  cn_free : free_of v i0 = 0 /\ free_of v i1 = 0 /\ free_of v i2 = 0;
  cn_next : d_next (desc_of v i0) = i1 /\ d_next (desc_of v i1) = i2;
  cn_flags : Z.land (d_flags (desc_of v i0)) VRING_DESC_F_NEXT <> 0 /\
    Z.land (d_flags (desc_of v i1)) VRING_DESC_F_NEXT <> 0 /\
    Z.land (d_flags (desc_of v i2)) VRING_DESC_F_NEXT = 0;
}.

Lemma rw_end_ok p me (s : bst) v i0 i1 i2 :
  proc_quiet p me -> lock_free vdisk_lock (hart_of p) -> inside vdisk_lock p (pst_of s) -> chain v i0 i1 i2 ->
  exists p', woke p p' /\ rw_end i0 (mkvst s v) =
    Ok tt (mkvst (with_p s p') (freed i2 (freed i1 (freed i0 (set_vinfo i0 (mkinfo None (info_status (info_of v i0))) v))))).
Proof.
  intros Hq Hl Hi [(O1 & O2) (F0 & F1 & F2) (N0 & N1) (G0 & G1 & G2)]. unfold rw_end. rewrite bind_getv, bind_updv.
  set (v1 := set_vinfo _ _ v). unfold free_chain, NUM at 1.
  destruct (free_chain_step p me s v1 8 i0 Hq Hi ltac:(lia) F0) as (p1 & Hi1 & E1).
  change (desc_of v1 i0) with (desc_of v i0) in E1. rewrite (proj2 (Z.eqb_neq _ _) G0), N0 in E1. cbn [negb] in E1.
  assert (D : forall j, desc_of (freed i0 v1) j = if decide (j = i0) then desc0 else desc_of v j)
    by (intros j; exact (desc_of_freed i0 v1 j)).
  assert (F : forall j, free_of (freed i0 v1) j = if decide (j = i0) then 1 else free_of v j)
    by (intros j; exact (free_of_freed i0 v1 j)).
  destruct (free_chain_step p me (with_p s p1) (freed i0 v1) 7 i1 Hq Hi1 ltac:(lia)) as (p2 & Hi2 & E2).
  { rewrite F, decide_False by lia. done. }
  rewrite D, decide_False, (proj2 (Z.eqb_neq _ _) G1), N1 in E2 by lia. cbn [negb] in E2.
  destruct (free_chain_step p me (with_p s p2) (freed i1 (freed i0 v1)) 6 i2 Hq Hi2 ltac:(lia)) as (p3 & Hi3 & E3).
  { rewrite free_of_freed, decide_False, F, decide_False by lia. done. }
  rewrite desc_of_freed, decide_False, D, decide_False, G2 in E3 by lia. cbn [Z.eqb negb] in E3.
  destruct (inside_release vdisk_lock p p3 me Hq Hl Hi3) as [E4 W4].
  exists (with_hart (settle (hart_of p)) p3). split; [exact W4|].
  erewrite (bind_ok _ _ _ tt); [|exact (eq_trans E1 (eq_trans E2 E3))].
  exact (v_lift_hart (release vdisk_lock) (with_p s p3) _ tt _ E4).
Qed.

(** ** The call as a whole *)

(** [s] with other processes. *)
Definition on_pst (s : vst) (p : pst) : vst := mkvst (with_p (v_b s) p) (v_d s).

Lemma wait_buf_done fuel b s v : b_disk (buf_of s b) <> 1 -> wait_buf fuel b (mkvst s v) = Ok tt (mkvst s v).
Proof.
  intros H. destruct fuel; cbn [wait_buf]; rewrite bind_get_buf, (proj2 (Z.eqb_neq _ _) H); done.
Qed.

Lemma with_disk_buf s b x u :
  buf_of (with_disk s b x) u = if decide (u = b) then set_bdisk x (buf_of s b) else buf_of s u.
Proof.
  unfold buf_of, with_disk. cbn. case_decide as E; [rewrite E; by rewrite lookup_insert_eq|by rewrite lookup_insert_ne].
Qed.

(** The driver's data at the interrupt and when the caller has the lock again. *)
Lemma submitted_chain v i0 i1 i2 b write sector v' :
  ready v i0 i1 i2 -> v_desc v' = v_desc (submitted v i0 i1 i2 b write sector) ->
  v_free v' = v_free (submitted v i0 i1 i2 b write sector) -> chain v' i0 i1 i2.
Proof.
  intros Hr Hd Hf. destruct (rd_order _ _ _ _ Hr) as [O1 O2].
  assert (D : forall j, desc_of v' j = desc_of (submitted v i0 i1 i2 b write sector) j) by (intros; unfold desc_of; by rewrite Hd).
  assert (F : forall j, free_of v' j = free_of (submitted v i0 i1 i2 b write sector) j) by (intros; unfold free_of; by rewrite Hf).
  destruct (submitted_desc v i0 i1 i2 b write sector Hr) as (D0 & D1 & D2).
  constructor; [done| | |]; rewrite ?F, ?D, ?submitted_free, ?D0, ?D1, ?D2.
  - rewrite !decide_True by naive_solver. done.
  - done.
  - split_and!; [done|by destruct write|done].
Qed.

Lemma ready_again v i0 i1 i2 b write sector v' inf :
  ready v i0 i1 i2 -> v_free v' = v_free (submitted v i0 i1 i2 b write sector) ->
  v_used_idx v' = u16 (v_used_idx v + 1) -> v_seen v' = u16 (v_used_idx v + 1) ->
  v_avail_idx v' = v_avail_idx (submitted v i0 i1 i2 b write sector) ->
  ready (freed i2 (freed i1 (freed i0 (set_vinfo i0 inf v')))) i0 i1 i2.
Proof.
  intros Hr Hf Hu Hs Ha. pose proof (rd_order _ _ _ _ Hr) as [O1 O2].
  assert (F : forall j, free_of (set_vinfo i0 inf v') j = free_of (submitted v i0 i1 i2 b write sector) j)
    by (intros; unfold free_of; cbn; by rewrite Hf).
  constructor; [done| | | | |].
  - rewrite !free_of_freed. repeat case_decide; try lia; done.
  - intros j Hj N0 N1. rewrite !free_of_freed, F, submitted_free. repeat case_decide; try lia; try done.
    by apply (rd_used _ _ _ _ Hr).
  - cbn. congruence.
  - cbn. rewrite Ha, Hu. cbn. by rewrite (rd_avail _ _ _ _ Hr).
  - cbn. rewrite Hu. apply u16_range.
Qed.

Lemma set_bdisk_back x d : b_disk x = 0 -> set_bdisk 0 (set_bdata d (set_bdisk 1 x)) = set_bdata d x.
Proof. destruct x. cbn. intros ->. done. Qed.
Lemma set_bdisk_twice x : b_disk x = 0 -> set_bdisk 0 (set_bdisk 1 x) = x.
Proof. destruct x. cbn. intros ->. done. Qed.

Lemma buf_of_data s b d u :
  buf_of (mkbst (b_sl s) (<[b := set_bdata d (buf_of s b)]> (bufs s)) (disk s) (dwrites s)) u =
  if decide (u = b) then set_bdata d (buf_of s b) else buf_of s u.
Proof.
  unfold buf_of. cbn. case_decide as E; [rewrite E; by rewrite lookup_insert_eq|by rewrite lookup_insert_ne].
Qed.

(** The blocks and buffers after a request was served are those after
    [disk_rw]. *)
Lemma serve_transfer (s : vst) b (write : bool) p1 p2 v1 i0 n :
  b_blockno (buf_of (v_b s) b) = n -> b_disk (buf_of (v_b s) b) = 0 ->
  let t := if write then VIRTIO_BLK_T_OUT else VIRTIO_BLK_T_IN in
  let s1 := mkvst (with_p (with_disk (with_p (v_b s) p1) b 1) p2) v1 in
  exists bo, disk_rw b write (v_b s) = Ok tt bo /\
    let s4 := with_disk (v_b (serve i0 t n b s1)) b 0 in
    (forall u, buf_of s4 u = buf_of bo u) /\ disk s4 = disk bo /\ dwrites s4 = dwrites bo.
Proof.
  intros Hn Hd t s1. set (x0 := buf_of (v_b s) b) in *.
  assert (Hb : forall u, buf_of (v_b s1) u = if decide (u = b) then set_bdisk 1 x0 else buf_of (v_b s) u).
  { intros u. exact (with_disk_buf (v_b s) b 1 u). }
  assert (Hdata : b_data (buf_of (v_b s1) b) = b_data x0) by (rewrite Hb, decide_True by done; done).
  unfold disk_rw, getb. rewrite bind_gets. fold x0. rewrite Hn.
  destruct write; rewrite bind_gets; eexists; (split; [reflexivity|]); cbn zeta; split_and!.
  - intros u. rewrite with_disk_buf. change (buf_of (v_b (serve i0 t n b s1))) with (buf_of (v_b s1)).
    case_decide as E; rewrite Hb; [|by rewrite decide_False by done]. rewrite decide_True, E by done.
    by apply set_bdisk_twice.
  - change (<[n := b_data (buf_of (v_b s1) b)]> (disk (v_b s)) = <[n := b_data x0]> (disk (v_b s))). by rewrite Hdata.
  - change (dwrites (v_b s) ++ [(n, b_data (buf_of (v_b s1) b))] = dwrites (v_b s) ++ [(n, b_data x0)]). by rewrite Hdata.
  - intros u. rewrite with_disk_buf. fold x0.
    assert (Hu : forall u, buf_of (v_b (serve i0 t n b s1)) u =
      if decide (u = b) then set_bdata (vblock s n) (buf_of (v_b s1) b) else buf_of (v_b s1) u)
      by (intros u'; exact (buf_of_data (v_b s1) b (vblock s n) u')).
    rewrite buf_of_data. fold x0. case_decide as E; rewrite Hu.
    + rewrite decide_True, Hb, decide_True by done. by apply set_bdisk_back.
    + by rewrite decide_False, Hb, decide_False by done.
  - done.
  - done.
Qed.

Lemma on_pst_serve i0 t n b s p :
  on_pst (serve i0 t n b s) p = mkvst (with_p (v_b (serve i0 t n b s)) p) (served i0 (v_d s)).
Proof. done. Qed.

Lemma served_ring i0 v :
  v_seen (served i0 v) = v_seen v /\ v_used_idx (served i0 v) = u16 (v_used_idx v + 1) /\
  v_used_ring (served i0 v) !! Z.to_nat (v_used_idx v mod Z.of_nat NUM) = Some i0 /\
  info_of (served i0 v) i0 = mkinfo (info_b (info_of v i0)) 0.
Proof.
  split_and!; [done|done|apply lookup_insert_eq|]. unfold info_of at 1. cbn. by rewrite lookup_insert_eq.
Qed.

Lemma submitted_idx v i0 i1 i2 b write sector :
  v_seen (submitted v i0 i1 i2 b write sector) = v_seen v /\
  v_used_idx (submitted v i0 i1 i2 b write sector) = v_used_idx v.
Proof. done. Qed.

Lemma served_fields i0 v y r x :
  let v' := set_seen y (add_write r x (served i0 v)) in
  v_desc v' = v_desc v /\ v_free v' = v_free v /\ v_avail_idx v' = v_avail_idx v /\
  v_used_idx v' = u16 (v_used_idx v + 1) /\ v_seen v' = y.
Proof. done. Qed.

(** The sleep of [wait_buf], and what happens after it. *)
Lemma wait_buf_sleeps fuel b (s : bst) v p me i0 :
  proc_quiet p me -> c_noff (this_cpu (hart_of p)) = 0 -> (me < NPROC)%nat -> lock_free vdisk_lock (hart_of p) ->
  pst_of s = with_hart (acquired vdisk_lock (hart_of p)) p -> b_disk (buf_of s b) = 1 ->
  exists p1 k, (wait_buf (S fuel) b ;;; rw_end i0) (mkvst s v) = Yield (mkvst (with_p s p1) v) k /\
    proc_of p1 me = sleeping (buf_chan b) (proc_of p me) /\ lock_free vdisk_lock (hart_of p1) /\
    forall s2 h2, holds_only (proc_lock me) me h2 (hart_of (pst_of (v_b s2))) -> procs_free h2 -> lock_free vdisk_lock h2 ->
      b_disk (buf_of (v_b s2) b) <> 1 ->
      exists p4 h4, k s2 = rw_end i0 (on_pst s2 p4) /\ proc_quiet (with_hart h4 p4) me /\
        lock_free vdisk_lock h4 /\ inside vdisk_lock (with_hart h4 p4) p4.
Proof.
  intros Hq Hn Hme Hl Hp Hd. destruct (sleep_spec (buf_chan b) vdisk_lock me (hart_of p) (pst_of s))
    as (p1 & k & E & Ht & Hl1 & _ & Hk).
  { rewrite Hp. rewrite hart_of_with. constructor; [done|apply Hq|done|apply Hq|done]. }
  { apply vdisk_plain. }
  { by apply Hq. }
  exists p1. eexists. split_and!.
  - cbn [wait_buf]. rewrite bind_assoc, bind_get_buf, Hd, Z.eqb_refl, bind_assoc.
    exact (bind_lift_yield (sleep (buf_chan b) vdisk_lock) _ (mkvst s v) p1 k E).
  - rewrite (tm_procs _ _ _ Ht), decide_True, Hp by done. done.
  - done.
  - intros s2 h2 Hh2 Hf2 Hl2 Hd2. destruct (Hk (pst_of (v_b s2)) h2 Hh2 Hl2)
      as (p3 & h3 & E3 & [Hh3 Hok3 Hn3 Hp3 Hl3] & Hlk3 & _ & _).
    exists p3, h3. split_and!.
    + destruct s2 as [s2 v2]. rewrite (resume_lift _ _ (mkvst s2 v2) tt p3 E3).
      change (sub_put p3 (mkvst s2 v2)) with (mkvst (with_p s2 p3) v2).
      by rewrite (bind_ok _ _ _ _ _ (wait_buf_done fuel b (with_p s2 p3) v2 Hd2)).
    + constructor; rewrite hart_of_with; [done|done|]. intros i Hi. unfold lock_free. rewrite Hlk3. by apply Hf2.
    + done.
    + split; rewrite hart_of_with; [done|]. autorewrite with mdb. apply woke_refl.
Qed.

Section Device.
Context (dev : vst -> vst) (Hdev : serves dev).

(** C16. The disk driver performs the transfer that its callers rely on. With
    no other request in flight, [virtio_disk_rw] makes a well-formed request
    available and sleeps on the buffer with the driver's lock free. When a
    device that serves such requests has served it, the interrupt handler
    wakes the sleeper; and when the sleeper runs again, the call returns, the
    buffers and the disk are what one transfer of the block makes of them,
    every descriptor it took is free again, and the driver is ready for the
    next request. *)
Theorem virtio_disk_rw_correct (fuel : nat) (s : vst) (me i0 i1 i2 : nat) (b : Z) (write : bool)
    (Hq : proc_quiet (pst_of (v_b s)) me) (Hn : c_noff (this_cpu (hart_of (pst_of (v_b s)))) = 0)
    (Hme : (me < NPROC)%nat) (Hl : lock_free vdisk_lock (hart_of (pst_of (v_b s))))
    (Hr : ready (v_d s) i0 i1 i2) (Hb : 0 <= b_blockno (buf_of (v_b s) b) < 2 ^ 31)
    (Hd : b_disk (buf_of (v_b s) b) = 0) :
  exists s1 k, virtio_disk_rw (S fuel) b write s = Yield s1 k /\
    proc_of (pst_of (v_b s1)) me = sleeping (buf_chan b) (proc_of (pst_of (v_b s)) me) /\
    lock_free vdisk_lock (hart_of (pst_of (v_b s1))) /\
    forall p2 q, proc_quiet p2 q -> lock_free vdisk_lock (hart_of p2) ->
    exists s2, virtio_disk_intr (on_pst (dev s1) p2) = Ok tt s2 /\
      (forall j, proc_of (pst_of (v_b s2)) j = wake_proc (buf_chan b) (Some q) 0 NPROC j (proc_of p2 j)) /\
      forall p3 h3, holds_only (proc_lock me) me h3 (hart_of p3) -> procs_free h3 -> lock_free vdisk_lock h3 ->
      exists s3 bo, k (on_pst s2 p3) = Ok tt s3 /\ ready (v_d s3) i0 i1 i2 /\
        disk_rw b write (v_b s) = Ok tt bo /\ (forall u, buf_of (v_b s3) u = buf_of bo u) /\
        disk (v_b s3) = disk bo /\ dwrites (v_b s3) = dwrites bo.
Proof.
  destruct s as [sb v]. cbn [v_b v_d] in *. set (p := pst_of sb) in *. set (n := b_blockno (buf_of sb b)) in *.
  assert (Hsec : u32 (n * BLK_SECTORS) = n * BLK_SECTORS) by (apply u32_small; change BLK_SECTORS with 2; lia).
  rewrite (virtio_disk_rw_submit fuel b write sb v i0 i1 i2 Hl Hr). fold n p. rewrite Hsec.
  set (p0 := with_hart _ p). set (t := if write then VIRTIO_BLK_T_OUT else VIRTIO_BLK_T_IN).
  pose proof (submitted_request v i0 i1 i2 b write n Hr) as Hreq. fold t in Hreq.
  pose proof (submitted_info v i0 i1 i2 b write (n * BLK_SECTORS)) as Hinf.
  destruct (submitted_idx v i0 i1 i2 b write (n * BLK_SECTORS)) as [Hseen Hused].
  pose proof (submitted_chain v i0 i1 i2 b write (n * BLK_SECTORS)) as Hchain.
  pose proof (ready_again v i0 i1 i2 b write (n * BLK_SECTORS)) as Hagain.
  revert Hreq Hinf Hseen Hused Hchain Hagain. generalize (submitted v i0 i1 i2 b write (n * BLK_SECTORS)) as v1.
  intros v1 Hreq Hinf Hseen Hused Hchain Hagain. set (s0 := with_disk (with_p sb p0) b 1).
  destruct (wait_buf_sleeps fuel b s0 v1 p me i0 Hq Hn Hme Hl eq_refl) as (p1 & k & E1 & Hs1 & Hl1 & Hk).
  { unfold s0. by rewrite with_disk_buf, decide_True by done. }
  exists (mkvst (with_p s0 p1) v1), k. split_and!; [exact E1|exact Hs1|exact Hl1|].
  intros p2 q Hq2 Hl2. rewrite (Hdev (mkvst (with_p s0 p1) v1) i0 t n b Hreq) by (unfold t; destruct write; auto).
  destruct (serve_transfer (mkvst sb v) b write p0 p1 v1 i0 n eq_refl Hd) as (bo & E6 & B1 & B2 & B3).
  cbn [v_b] in B1, B2, B3. fold t s0 in B1, B2, B3. rewrite on_pst_serve. cbn [v_d]. revert B1 B2 B3.
  generalize (v_b (serve i0 t n b (mkvst (with_p s0 p1) v1))) as sv. intros sv B1 B2 B3.
  destruct (served_ring i0 v1) as (G1 & G2 & G3 & G4). rewrite Hinf in G4. cbn [info_b] in G4.
  pose proof (rd_range _ _ _ _ Hr) as Hrg. pose proof (rd_seen _ _ _ _ Hr) as Hsu.
  destruct (virtio_disk_intr_ok (with_p sv p2) (served i0 v1) q i0 b Hq2 Hl2) as (p' & x & E2 & _ & Hw).
  { rewrite G1, Hseen, Hsu. exact Hrg. }
  { by rewrite G2, G1, Hseen, Hsu, Hused. }
  { rewrite G1, Hseen, Hsu, <- Hused. exact G3. }
  { exact G4. }
  eexists. split; [exact E2|]. split; [exact Hw|]. intros p3 h3 Hh3 Hf3 Hl3.
  destruct (served_fields i0 v1 (v_used_idx (served i0 v1)) VIRTIO_MMIO_INTERRUPT_ACK x) as (C1 & C2 & C3 & C4 & C5).
  revert C1 C2 C3 C4 C5. generalize (set_seen (v_used_idx (served i0 v1)) (add_write VIRTIO_MMIO_INTERRUPT_ACK x (served i0 v1))) as v2.
  intros v2 C1 C2 C3 C4 C5. rewrite G2, Hused in C5. rewrite Hused in C4.
  destruct (Hk (on_pst (mkvst (with_p (with_disk (with_p sv p2) b 0) p') v2) p3) h3 Hh3 Hf3 Hl3) as (p4 & h4 & E4 & Hq4 & Hl4 & Hi4).
  { change (b_disk (buf_of (with_disk sv b 0) b) <> 1). by rewrite with_disk_buf, decide_True by done. }
  destruct (rw_end_ok (with_hart h4 p4) me (with_p (with_disk sv b 0) p4) v2 i0 i1 i2 Hq4) as (p5 & _ & E5).
  { by rewrite hart_of_with. }
  { exact Hi4. }
  { by apply Hchain. }
  eexists _, bo. split; [exact (eq_trans E4 E5)|]. split; [by apply Hagain|]. split; [exact E6|]. split_and!; [exact B1|exact B2|exact B3].
Qed.
End Device.

(** ** Example: a device, and process 1 reading block 5 into buffer 3 *)

(** A device that follows the chain of the next available request. *)
Definition device1 (s : vst) : vst :=
  let v := v_d s in
  match v_avail_ring v !! Z.to_nat (v_used_idx v mod Z.of_nat NUM) with
  | Some i0 =>
      match d_addr (desc_of v i0), d_addr (desc_of v (d_next (desc_of v i0))) with
      | POps j, PData b => serve i0 (r_type (ops_of v j)) (r_sector (ops_of v j) / BLK_SECTORS) b s
      | _, _ => s
      end
  | None => s
  end.

Lemma device1_serves : serves device1.
Proof.
  intros s i0 t n b [_ Hh Ho (i1 & i2 & D0 & D1 & _)] _. unfold device1. rewrite Hh, D0. cbn [d_addr d_next].
  rewrite D1, Ho. cbn [d_addr r_type r_sector]. by rewrite Z.div_mul.
Qed.

Definition pst_disk : pst :=
  pst1 (mkhart 0 SSTATUS_SIE {[0%nat := mkcpu (Some 1%nat) 0 0]} (<[vdisk_lock := lock0]> locks1)).

Definition vst_disk : vst :=
  mkvst (mkbst (mkslst pst_disk ∅) {[3 := mkbuf 0 0 1 5 1 0 0 zero_block]} {[5 := replicate 1024 7]} [])
    (mkvdisk 0 0 0 ∅ 0 ∅ 0 ∅ (list_to_map (zip (seq 0 8) (replicate 8 1))) 0 ∅ ∅ [] (fun _ _ => 0)).

Lemma pst_disk_quiet : proc_quiet pst_disk 1 /\ procs_free (hart_of pst_disk).
Proof.
  assert (Hf : procs_free (hart_of pst_disk)).
  { intros i Hi. destruct (hart2_free None i Hi) as [n H]. exists n.
    change (<[vdisk_lock := lock0]> locks1 !! proc_lock i = Some (mkspinlock 0 n None)).
    rewrite lookup_insert_ne by discriminate. exact H. }
  split; [|exact Hf]. constructor; [|reflexivity|exact Hf].
  split; [vm_compute; discriminate|intros H; exfalso; vm_compute in H; discriminate].
Qed.

Lemma vst_disk_ready : ready (v_d vst_disk) 0 1 2.
Proof.
  constructor; [unfold NUM; lia|split_and!; vm_compute; discriminate| |reflexivity|reflexivity|split; [discriminate|reflexivity]].
  intros j Hj H0 H1. lia.
Qed.

Lemma virtio_disk_rw_correct_witness :
  exists s1 k s2 s3, virtio_disk_rw 1 3 false vst_disk = Yield s1 k /\
    virtio_disk_intr (on_pst (device1 s1) pst_disk) = Ok tt s2 /\
    k (on_pst s2 (with_hart (acquired (proc_lock 1) (hart_of pst_disk)) pst_disk)) = Ok tt s3 /\
    b_data (buf_of (v_b s3) 3) = replicate 1024 7.
Proof.
  destruct pst_disk_quiet as [Hq Hf].
  assert (Hl : lock_free vdisk_lock (hart_of pst_disk)) by (exists "lock"%string; reflexivity).
  assert (H1 : (1 < NPROC)%nat) by (apply Nat.ltb_lt; reflexivity).
  destruct (virtio_disk_rw_correct device1 device1_serves 0 vst_disk 1 0 1 2 3 false Hq eq_refl H1 Hl vst_disk_ready)
    as (s1 & k & E1 & _ & _ & H2).
  - split; [discriminate|reflexivity].
  - reflexivity.
  - destruct (H2 pst_disk 1%nat Hq Hl) as (s2 & E2 & _ & H3).
    destruct (H3 (with_hart (acquired (proc_lock 1) (hart_of pst_disk)) pst_disk) (hart_of pst_disk))
      as (s3 & bo & E3 & _ & E4 & Hb & _); [|exact Hf|exact Hl|].
    + rewrite hart_of_with. constructor; [reflexivity|apply Hq|reflexivity|reflexivity|by apply Hf].
    + exists s1, k, s2, s3. split_and!; [exact E1|exact E2|exact E3|]. rewrite Hb.
      injection E4 as <-. reflexivity.
Defined.
