(* ===== verification/BioSpec.v ===== *)
(** * The buffer cache as a view of the disk

    The invariant of [Bio] for one process in the kernel, the contents of the
    blocks as they are seen through the cache, and what [bread], [bwrite],
    [brelse], [bpin] and [bunpin] do to both. *)
From S2P Require Import Prelude CString Spinlock Layout Dll Kalloc Vm Proc ProcSpec Quiet.
From S2P Require Import Sleeplock Bio.

Definition nexts (s : bst) (b : Z) : Z := b_next (buf_of s b).
Definition prevs (s : bst) (b : Z) : Z := b_prev (buf_of s b).
Definition dblock (s : bst) (n : Z) : list Z := default zero_block (disk s !! n).
Definition bpst (s : bst) : pst := sl_pst (b_sl s).

Definition is_buf (b : Z) : Prop := 0 <= b < bhead.

(** Buffer [b] has a valid copy of block [n]. *)
Definition caches (s : bst) (b n : Z) : Prop :=
  is_buf b /\ b_dev (buf_of s b) = ROOTDEV /\ b_blockno (buf_of s b) = n /\
  b_valid (buf_of s b) <> 0.

#[export] Instance caches_dec s b n : Decision (caches s b n).
Proof. unfold caches, is_buf. apply _. Defined.

(** The contents of block [n] as the kernel sees it. *)
Definition view (s : bst) (n : Z) : list Z :=
  match list_find (fun b => caches s b n) (seqZ 0 bhead) with
  | Some (_, b) => b_data (buf_of s b)
  | None => dblock s n
  end.

(** [held]: the buffers whose sleep lock the process has; [pinned]: the
    buffers the log keeps in the cache. A buffer that is neither agrees with
    the disk, so it can be recycled. *)
Definition flag (b : Z) (l : list Z) : Z := if decide (b ∈ l) then 1 else 0.

Record bio_ok (s : bst) (me : nat) (order held pinned : list Z) : Prop := {
  bo_quiet : proc_quiet (bpst s) me;
  bo_bcache : lock_free bcache_lock (hart_of (bpst s));
  bo_spin : forall b, is_buf b -> lock_free (slock_spin (buf_lock b)) (hart_of (bpst s));
  bo_ring : ring (nexts s) (prevs s) bhead order;
  bo_order : forall b, b ∈ order <-> is_buf b;
  bo_dev : forall b, is_buf b ->
    (b_dev (buf_of s b) = ROOTDEV /\ b_valid (buf_of s b) <> 0) \/
    (b_dev (buf_of s b) = 0 /\ b_valid (buf_of s b) = 0);
  bo_uniq : forall b b', is_buf b -> is_buf b' -> b_dev (buf_of s b) = ROOTDEV ->
    b_dev (buf_of s b') = ROOTDEV -> b_blockno (buf_of s b) = b_blockno (buf_of s b') -> b = b';
  bo_used : forall b, b ∈ held ++ pinned -> is_buf b /\ b_dev (buf_of s b) = ROOTDEV;
  bo_held : NoDup held;
  bo_pinned : NoDup pinned;
  bo_ref : forall b, is_buf b -> b_refcnt (buf_of s b) = flag b held + flag b pinned;
  bo_slock : forall b, is_buf b ->
    sl_locked (slock_of (b_sl s) (buf_lock b)) = flag b held /\
    (b ∈ held -> sl_pid (slock_of (b_sl s) (buf_lock b)) = p_pid (proc_of (bpst s) me));
  bo_clean : forall b, is_buf b -> b ∉ held ++ pinned -> b_dev (buf_of s b) = ROOTDEV ->
    b_data (buf_of s b) = dblock s (b_blockno (buf_of s b));
}.

(** ** The view *)

Lemma is_buf_seq b : b ∈ seqZ 0 bhead <-> is_buf b.
Proof. rewrite elem_of_seqZ. unfold is_buf. lia. Qed.

Lemma view_cached s me order held pinned b n :
  bio_ok s me order held pinned -> caches s b n -> view s n = b_data (buf_of s b).
Proof.
  intros Hs Hc. unfold view. destruct (list_find _ _) as [[i b']|] eqn:E.
  - apply list_find_Some in E as (_ & (H1 & H2 & H3 & _) & _). destruct Hc as (C1 & C2 & C3 & _).
    by rewrite (bo_uniq _ _ _ _ _ Hs b b') by congruence.
  - apply list_find_None in E. rewrite Forall_forall in E. exfalso.
    apply (E b); [|done]. apply is_buf_seq, Hc.
Qed.

Lemma view_uncached s n : (forall b, ~ caches s b n) -> view s n = dblock s n.
Proof.
  intros H. unfold view. destruct (list_find _ _) as [[i b]|] eqn:E; [|done].
  apply list_find_Some in E as (_ & E & _). by apply H in E.
Qed.

Lemma dev_valid s me order held pinned b :
  bio_ok s me order held pinned -> is_buf b -> b_dev (buf_of s b) = ROOTDEV ->
  b_valid (buf_of s b) <> 0.
Proof.
  intros Hs Hb D. destruct (bo_dev _ _ _ _ _ Hs b Hb) as [[_ ?]|[H0 _]]; [done|].
  rewrite D in H0. discriminate.
Qed.

Lemma cached_or_not s n : (exists b, caches s b n) \/ (forall b, ~ caches s b n).
Proof.
  destruct (list_find (fun b => caches s b n) (seqZ 0 bhead)) as [[i b]|] eqn:E.
  - apply list_find_Some in E as (_ & E & _). by left; exists b.
  - right. intros b Hb. apply list_find_None in E. rewrite Forall_forall in E.
    apply (E b); [apply is_buf_seq, Hb|done].
Qed.

Lemma view_eq s n v :
  (forall b, caches s b n -> b_data (buf_of s b) = v) ->
  ((forall b, ~ caches s b n) -> dblock s n = v) -> view s n = v.
Proof.
  intros H1 H2. unfold view. destruct (list_find _ _) as [[i b]|] eqn:E.
  - apply list_find_Some in E as (_ & E & _). by apply H1.
  - apply H2. intros b Hb. apply list_find_None in E. rewrite Forall_forall in E.
    apply (E b); [apply is_buf_seq, Hb|done].
Qed.

(** ** The searches of [bget] *)

Definition matches (s : bst) (dev n b : Z) : bool :=
  (b_dev (buf_of s b) =? dev) && (b_blockno (buf_of s b) =? n).

Lemma bget_cached_spec s order l1 l2 k dev n :
  ring (nexts s) (prevs s) bhead order -> order = l1 ++ l2 -> (length l2 <= k)%nat ->
  bget_cached k (hd bhead l2) dev n s = Ok (List.find (matches s dev n) l2) s.
Proof.
  intros Hr. revert l1 k. induction l2 as [|b l2 IH]; intros l1 k Ho Hk.
  { destruct k; cbn [bget_cached hd]; by rewrite Z.eqb_refl. }
  destruct k as [|k]; [cbn in Hk; lia|]. cbn [bget_cached hd List.find].
  subst order. pose proof (ring_nx _ _ _ _ _ _ Hr) as [Hn _]. destruct Hr as [Hs Hnd].
  destruct (Z.eqb_spec b bhead) as [->|_].
  { apply NoDup_cons in Hnd as [Hnd _]. set_solver. }
  unfold getb. autorewrite with mdb. unfold id. fold (matches s dev n b).
  destruct (matches s dev n b); [done|]. change (b_next (buf_of s b)) with (nexts s b). rewrite Hn.
  apply (IH (l1 ++ [b])); [by rewrite <- app_assoc|cbn in Hk; lia].
Qed.

Lemma bget_unused_spec s order l1 l2 k :
  ring (nexts s) (prevs s) bhead order -> order = l1 ++ l2 -> (length l1 <= k)%nat ->
  bget_unused k (lastd l1 bhead) s =
  Ok (List.find (fun b => b_refcnt (buf_of s b) =? 0) (rev l1)) s.
Proof.
  intros Hr. revert l2 k. induction l1 as [|b l1 IH] using rev_ind; intros l2 k Ho Hk.
  { destruct k; cbn [bget_unused lastd]; by rewrite Z.eqb_refl. }
  rewrite length_app in Hk. cbn in Hk. destruct k as [|k]; [lia|].
  assert (Hlast : lastd (l1 ++ [b]) bhead = b).
  { clear. generalize bhead. induction l1 as [|u l1 IH]; intros x; [done|]. cbn. apply IH. }
  rewrite Hlast, rev_app_distr. cbn [bget_unused rev app List.find].
  rewrite <- app_assoc in Ho. subst order.
  pose proof (ring_nx _ _ _ _ _ _ Hr) as [_ Hp]. destruct Hr as [Hs Hnd].
  destruct (Z.eqb_spec b bhead) as [->|_].
  { apply NoDup_cons in Hnd as [Hnd _]. set_solver. }
  unfold getb. autorewrite with mdb. unfold id.
  destruct (b_refcnt (buf_of s b) =? 0); [done|].
  change (b_prev (buf_of s b)) with (prevs s b). rewrite Hp.
  apply (IH (b :: l2)); [done|lia].
Qed.

(** ** Stepping through the cache code *)

(** [s] with other buffers, inside the critical section of the cache, and
    after it. *)
Definition locked_cache (s : bst) (B : gmap Z buf) : bst :=
  mkbst (mkslst (with_hart (acquired bcache_lock (hart_of (bpst s))) (bpst s)) (slocks (b_sl s)))
    B (disk s) (dwrites s).

Definition with_bufs (s : bst) (B : gmap Z buf) : bst :=
  mkbst (mkslst (with_hart (settle (hart_of (bpst s))) (bpst s)) (slocks (b_sl s)))
    B (disk s) (dwrites s).

Lemma lift_bst_hart {A} (m : M hart A) p sl B D W a h' :
  m (hart_of p) = Ok a h' ->
  lift m (mkbst (mkslst p sl) B D W) = Ok a (mkbst (mkslst (with_hart h' p) sl) B D W).
Proof. intros E. exact (lift_ok m (mkbst (mkslst p sl) B D W) a h' E). Qed.

Lemma bind_bst_sl {A C} (m : M slst A) (k : A -> M bst C) sl B D W a sl' :
  m sl = Ok a sl' -> mbind' (lift m) k (mkbst sl B D W) = k a (mkbst sl' B D W).
Proof. intros E. exact (bind_lift m k (mkbst sl B D W) a sl' E). Qed.

Lemma bind_benter {C} (k : unit -> M bst C) s :
  lock_free bcache_lock (hart_of (bpst s)) ->
  mbind' (lift (acquire bcache_lock)) k s = k tt (locked_cache s (bufs s)).
Proof.
  intros Hl. destruct s as [[p sl] B D W]. apply bind_ok, lift_bst_hart. exact (acquire_eq _ _ Hl).
Qed.

Lemma bleave s B :
  hart_ok (hart_of (bpst s)) -> lock_free bcache_lock (hart_of (bpst s)) ->
  lift (release bcache_lock) (locked_cache s B) = Ok tt (with_bufs s B).
Proof.
  intros Hok Hl. unfold locked_cache. erewrite lift_bst_hart; [|].
  - unfold with_bufs. autorewrite with mdb. reflexivity.
  - autorewrite with mdb. by apply release_acquired.
Qed.

Lemma buf_of_insert sl B D W b x b' :
  buf_of (mkbst sl (<[b := x]> B) D W) b' =
  if decide (b' = b) then x else buf_of (mkbst sl B D W) b'.
Proof.
  unfold buf_of; cbn. destruct (decide (b' = b)) as [->|]; [by rewrite lookup_insert_eq|].
  by rewrite lookup_insert_ne.
Qed.

Lemma bind_updb {C} b f (k : unit -> M bst C) sl B D W :
  mbind' (updb b f) k (mkbst sl B D W) =
  k tt (mkbst sl (<[b := f (buf_of (mkbst sl B D W) b)]> B) D W).
Proof. done. Qed.

Lemma bind_getb {A C} b (f : buf -> A) (k : A -> M bst C) s :
  mbind' (getb b f) k s = k (f (buf_of s b)) s.
Proof. done. Qed.

(** ** Taking a buffer *)

Lemma nexts_same sl B D W s b x :
  B = bufs s -> b_next x = nexts s b -> forall u, nexts (mkbst sl (<[b := x]> B) D W) u = nexts s u.
Proof.
  intros -> H u. unfold nexts at 1. rewrite buf_of_insert. by destruct (decide (u = b)) as [->|].
Qed.
Lemma prevs_same sl B D W s b x :
  B = bufs s -> b_prev x = prevs s b -> forall u, prevs (mkbst sl (<[b := x]> B) D W) u = prevs s u.
Proof.
  intros -> H u. unfold prevs at 1. rewrite buf_of_insert. by destruct (decide (u = b)) as [->|].
Qed.

Lemma slock_of_insert p sl l x l' :
  slock_of (mkslst p (<[l := x]> sl)) l' = if decide (l' = l) then x else slock_of (mkslst p sl) l'.
Proof.
  unfold slock_of; cbn. destruct (decide (l' = l)) as [->|]; [by rewrite lookup_insert_eq|].
  by rewrite lookup_insert_ne.
Qed.

Lemma buf_lock_eq b b' : buf_lock b = buf_lock b' <-> b = b'.
Proof. unfold buf_lock. split; [intros [= ->]; done|by intros ->]. Qed.

Lemma flag_cons b u l : flag u (b :: l) = if decide (u = b) then 1 else flag u l.
Proof.
  unfold flag. destruct (decide (u = b)) as [->|]; [by rewrite decide_True by (by left)|].
  destruct (decide (u ∈ l)); [by rewrite decide_True by (by right)|].
  rewrite decide_False; [done|]. set_solver.
Qed.

Lemma flag_range b l : 0 <= flag b l <= 1.
Proof. unfold flag. case_decide; lia. Qed.

Lemma flag_in b l : b ∈ l -> flag b l = 1.
Proof. intros. unfold flag. by rewrite decide_True. Qed.
Lemma flag_out b l : b ∉ l -> flag b l = 0.
Proof. intros. unfold flag. by rewrite decide_False. Qed.

Lemma woke_pid p p' i : woke p p' -> p_pid (proc_of p' i) = p_pid (proc_of p i).
Proof. by apply woke_field. Qed.

(** [x] is the new contents of buffer [b]: the block it had, or a block that
    no buffer has, as it is on the disk. *)
Definition refilled (s : bst) (pinned : list Z) (b : Z) (x : buf) : Prop :=
  (b_dev (buf_of s b) = ROOTDEV /\ b_blockno x = b_blockno (buf_of s b) /\
   b_data x = b_data (buf_of s b)) \/
  (b ∉ pinned /\ b_data x = dblock s (b_blockno x) /\
   forall b', is_buf b' -> b_dev (buf_of s b') = ROOTDEV -> b_blockno (buf_of s b') <> b_blockno x).

Section Take.
Context (s : bst) (me : nat) (order held pinned : list Z) (Hs : bio_ok s me order held pinned)
  (p' : pst) (Hw : woke (bpst s) p') (b : Z) (Hb : is_buf b) (Hh : b ∉ held) (x : buf) (nm : string)
  (Hn : b_next x = nexts s b) (Hp : b_prev x = prevs s b) (Hd : b_dev x = ROOTDEV)
  (Hv : b_valid x <> 0) (Hr : b_refcnt x = 1 + flag b pinned) (Hx : refilled s pinned b x).

Let s' : bst := mkbst (mkslst p' (<[buf_lock b := mksleeplock 1 nm (p_pid (proc_of (bpst s) me))]>
  (slocks (b_sl s)))) (<[b := x]> (bufs s)) (disk s) (dwrites s).

Lemma take_buf u : buf_of s' u = if decide (u = b) then x else buf_of s u.
Proof. apply buf_of_insert. Qed.

Lemma take_uniq u : is_buf u -> u <> b -> b_dev (buf_of s u) = ROOTDEV ->
  b_blockno (buf_of s u) <> b_blockno x.
Proof.
  intros Hu Hne Hdu E. destruct Hx as [(D & N & _)|(_ & _ & N)]; [|by apply (N u)].
  apply Hne, (bo_uniq _ _ _ _ _ Hs); congruence.
Qed.

Lemma take_ok : bio_ok s' me order (b :: held) pinned.
Proof.
  constructor.
  - exact (woke_quiet _ _ _ Hw (bo_quiet _ _ _ _ _ Hs)).
  - exact (woke_free _ _ _ Hw (bo_bcache _ _ _ _ _ Hs)).
  - intros u Hu. exact (woke_free _ _ _ Hw (bo_spin _ _ _ _ _ Hs u Hu)).
  - eapply ring_ext; [..|apply (bo_ring _ _ _ _ _ Hs)]; intros u _;
      [by apply nexts_same|by apply prevs_same].
  - apply (bo_order _ _ _ _ _ Hs).
  - intros u Hu. rewrite take_buf. case_decide; [by left|by apply (bo_dev _ _ _ _ _ Hs)].
  - intros u u' Hu Hu'. rewrite !take_buf. intros D D' E.
    repeat case_decide; subst; try done; [|  |by apply (bo_uniq _ _ _ _ _ Hs)].
    + exfalso. by apply (take_uniq u').
    + exfalso. by apply (take_uniq u).
  - intros u Hu. rewrite take_buf. case_decide; [by subst|].
    apply (bo_used _ _ _ _ _ Hs). set_solver.
  - apply NoDup_cons. split; [done|apply (bo_held _ _ _ _ _ Hs)].
  - apply (bo_pinned _ _ _ _ _ Hs).
  - intros u Hu. rewrite take_buf, flag_cons. case_decide; [by subst|by apply (bo_ref _ _ _ _ _ Hs)].
  - intros u Hu. cbn [b_sl s' bpst sl_pst]. rewrite slock_of_insert, flag_cons, (woke_pid _ _ _ Hw).
    destruct (decide (u = b)) as [->|Hne]; [by rewrite decide_True|].
    rewrite decide_False by (by rewrite buf_lock_eq).
    destruct (bo_slock _ _ _ _ _ Hs u Hu) as [H1 H2]. split; [exact H1|].
    intros [->|Hin]%elem_of_cons; [done|exact (H2 Hin)].
  - intros u Hu Hout. rewrite take_buf, decide_False by set_solver.
    apply (bo_clean _ _ _ _ _ Hs); [done|set_solver].
Qed.

Lemma take_data : b_data x = view s (b_blockno x).
Proof.
  destruct Hx as [(D & N & E)|(_ & E & N)].
  - rewrite E, N. symmetry. apply (view_cached _ _ _ _ _ _ _ Hs). split_and!; [apply Hb..|done|done|].
    exact (dev_valid _ _ _ _ _ _ Hs Hb D).
  - rewrite E. symmetry. apply view_uncached. intros u (H1 & H2 & H3 & _). by apply (N u).
Qed.

Lemma take_view n : view s' n = view s n.
Proof.
  apply view_eq.
  - intros u (H1 & H2 & H3 & H4). rewrite take_buf in *. destruct (decide (u = b)) as [->|].
    + subst n. apply take_data.
    + symmetry. by apply (view_cached _ _ _ _ _ _ _ Hs).
  - intros Hno. change (dblock s' n) with (dblock s n).
    destruct (cached_or_not s n) as [[u Hu]|Hno']; [|by rewrite view_uncached].
    rewrite (view_cached _ _ _ _ _ _ _ Hs Hu). destruct (decide (u = b)) as [->|Hne].
    + destruct Hu as (_ & H2 & H3 & H4). destruct Hx as [(D & N & E)|(Hnp & _ & _)].
      * exfalso. apply (Hno b). unfold caches. rewrite take_buf, decide_True by done.
        split_and!; congruence || apply Hb.
      * rewrite <- H3. symmetry. apply (bo_clean _ _ _ _ _ Hs); [done|set_solver|done].
    + exfalso. apply (Hno u). unfold caches. rewrite take_buf, decide_False by done. exact Hu.
Qed.
End Take.

Lemma order_length s me order held pinned :
  bio_ok s me order held pinned -> length order = NBUF.
Proof.
  intros Hs. assert (order ≡ₚ seqZ 0 bhead) as ->.
  { apply NoDup_Permutation.
    - by destruct (bo_ring _ _ _ _ _ Hs) as [_ [_ ?]%NoDup_cons].
    - apply NoDup_seqZ.
    - intros b. by rewrite (bo_order _ _ _ _ _ Hs), is_buf_seq. }
  by rewrite length_seqZ.
Qed.

Lemma unused_out s me order held pinned b :
  bio_ok s me order held pinned -> is_buf b ->
  b_refcnt (buf_of s b) = 0 <-> b ∉ held ++ pinned.
Proof.
  intros Hs Hb. rewrite (bo_ref _ _ _ _ _ Hs) by done. rewrite not_elem_of_app. unfold flag.
  destruct (decide (b ∈ held)), (decide (b ∈ pinned)); (split; [intros; lia||done|tauto||done]).
Qed.

(** [bget] finds a buffer to recycle if there is one. *)
Lemma unused_found s me order held pinned :
  bio_ok s me order held pinned ->
  match List.find (fun b => b_refcnt (buf_of s b) =? 0) (rev order) with
  | Some b => is_buf b /\ b ∉ held ++ pinned
  | None => forall b, is_buf b -> b_refcnt (buf_of s b) <> 0
  end.
Proof.
  intros Hs. destruct (List.find _ _) as [b|] eqn:E.
  - apply List.find_some in E as [Hin%List.in_rev E%Z.eqb_eq].
    apply list_elem_of_In, (bo_order _ _ _ _ _ Hs) in Hin.
    split; [done|]. by apply (unused_out _ _ _ _ _ _ Hs Hin).
  - intros b Hb. apply Z.eqb_neq, (List.find_none _ _ E b), List.in_rev. rewrite rev_involutive.
    by apply list_elem_of_In, (bo_order _ _ _ _ _ Hs).
Qed.

(** There is one as long as fewer than [NBUF] buffers are in use. *)
Lemma unused_exists s me order held pinned :
  bio_ok s me order held pinned -> (length held + length pinned < NBUF)%nat ->
  exists b, is_buf b /\ b_refcnt (buf_of s b) = 0.
Proof.
  intros Hs Hlen. pose proof (unused_found _ _ _ _ _ Hs) as Hf.
  destruct (List.find _ _) as [b|].
  { destruct Hf as [Hb Hout]. exists b. split; [done|]. by apply (unused_out _ _ _ _ _ _ Hs Hb). }
  exfalso. rewrite <- (order_length _ _ _ _ _ Hs) in Hlen.
  assert (Hsub : order ⊆+ held ++ pinned).
  { apply NoDup_submseteq; [by destruct (bo_ring _ _ _ _ _ Hs) as [_ [_ ?]%NoDup_cons]|].
    intros b Hb%(bo_order _ _ _ _ _ Hs). apply dec_stable. intros Hn.
    apply (Hf b Hb). by apply (unused_out _ _ _ _ _ _ Hs Hb). }
  apply submseteq_length in Hsub. rewrite length_app in Hsub. lia.
Qed.

Lemma settled_ok s B (p' : pst) :
  woke (sl_pst (b_sl (with_bufs s B))) p' -> woke (bpst s) p'.
Proof. intros W. etrans; [apply woke_settle|exact W]. Qed.

(** The end of [bget]: the reference is counted, the cache lock released and
    the sleep lock taken. *)
Lemma bget_finish {C} fuel s me order held pinned b B (k : Z -> M bst C) :
  bio_ok s me order held pinned -> is_buf b -> b ∉ held ->
  exists p' nm, woke (bpst s) p' /\
    mbind' (lift (release bcache_lock) ;;; lift (acquiresleep fuel (buf_lock b)) ;;; mret' b) k
      (locked_cache s B) =
    k b (mkbst (mkslst p' (<[buf_lock b := mksleeplock 1 nm (p_pid (proc_of (bpst s) me))]>
           (slocks (b_sl s)))) B (disk s) (dwrites s)).
Proof.
  intros Hs Hb Hh. pose proof (bo_quiet _ _ _ _ _ Hs) as Hq.
  destruct (acquiresleep_ok (buf_lock b) (b_sl (with_bufs s B)) me) with (fuel := fuel) as (p' & E & W).
  { exact (woke_quiet _ _ _ (woke_settle _) Hq). }
  { exact (woke_free _ _ _ (woke_settle _) (bo_spin _ _ _ _ _ Hs b Hb)). }
  { destruct (bo_slock _ _ _ _ _ Hs b Hb) as [H1 _]. rewrite flag_out in H1 by done. exact H1. }
  exists p', (sl_name (slock_of (b_sl (with_bufs s B)) (buf_lock b))).
  split; [exact (settled_ok _ _ _ W)|].
  rewrite bind_assoc, (bind_ok _ _ _ _ _ (bleave s B (pq_hart _ _ Hq) (bo_bcache _ _ _ _ _ Hs))).
  rewrite bind_assoc. exact (bind_bst_sl _ _ _ _ _ _ _ _ E).
Qed.

(** What [bread] of block [n] leaves. *)
Record got (s : bst) (me : nat) (order held pinned : list Z) (n b : Z) (s' : bst) : Prop := {
  gt_ok : bio_ok s' me order (b :: held) pinned;
  gt_blockno : b_blockno (buf_of s' b) = n;
  gt_data : b_data (buf_of s' b) = view s n;
  gt_view : forall n', view s' n' = view s n';
  gt_used : forall u, u ∈ held ++ pinned -> u <> b -> buf_of s' u = buf_of s u;
  gt_kept : forall u, u ∈ held ++ pinned -> b_blockno (buf_of s' u) = b_blockno (buf_of s u) /\
    b_data (buf_of s' u) = b_data (buf_of s u);
  gt_disk : disk s' = disk s;
  gt_dwrites : dwrites s' = dwrites s;
  gt_woke : woke (bpst s) (bpst s');
}.

Lemma find_matches s me order held pinned n b :
  bio_ok s me order held pinned -> (forall u, u ∈ held -> b_blockno (buf_of s u) <> n) ->
  List.find (matches s ROOTDEV n) order = Some b ->
  is_buf b /\ b ∉ held /\ b_dev (buf_of s b) = ROOTDEV /\ b_blockno (buf_of s b) = n.
Proof.
  intros Hs Hnew E. apply List.find_some in E as [Hin E].
  apply list_elem_of_In, (bo_order _ _ _ _ _ Hs) in Hin.
  unfold matches in E. apply andb_prop in E as [E1 E2]. apply Z.eqb_eq in E1, E2.
  split_and!; [apply Hin..| |done|done]. intros Hh. by apply (Hnew b).
Qed.

Lemma bread_hit fuel s me order held pinned n b :
  bio_ok s me order held pinned -> (forall u, u ∈ held -> b_blockno (buf_of s u) <> n) ->
  List.find (matches s ROOTDEV n) order = Some b ->
  exists s', bread fuel ROOTDEV n s = Ok b s' /\ b ∉ held /\ got s me order held pinned n b s'.
Proof.
  intros Hs Hnew E. destruct (find_matches _ _ _ _ _ _ _ Hs Hnew E) as (Hb & Hh & Hd & Hn).
  pose proof (ring_head _ _ _ _ (bo_ring _ _ _ _ _ Hs)) as [Hhd _].
  unfold bread, bget. rewrite bind_assoc, (bind_benter _ _ (bo_bcache _ _ _ _ _ Hs)).
  rewrite bind_assoc, bind_getb. change (b_next (buf_of (locked_cache s (bufs s)) bhead)) with (nexts s bhead).
  rewrite Hhd, bind_assoc.
  rewrite (bind_ok _ _ _ _ _ (bget_cached_spec (locked_cache s (bufs s)) order [] order NBUF ROOTDEV n
    (bo_ring _ _ _ _ _ Hs) eq_refl ltac:(rewrite (order_length _ _ _ _ _ Hs); done))).
  change (matches (locked_cache s (bufs s))) with (matches s). rewrite E.
  rewrite bind_assoc, bind_getb, bind_assoc. change (buf_of (locked_cache s (bufs s)) b) with (buf_of s b).
  unfold locked_cache at 1. rewrite bind_updb.
  change (mkbst _ ?B (disk s) (dwrites s)) with (locked_cache s B).
  set (x := set_brefcnt _ _).
  destruct (bget_finish fuel s me order held pinned b (<[b := x]> (bufs s))
    (fun b => let! v := getb b b_valid in (if v =? 0 then disk_rw b false ;;; updb b (set_bvalid 1)
      else mret' tt) ;;; mret' b) Hs Hb Hh) as (p' & nm & W & E2). rewrite E2, bind_getb.
  rewrite buf_of_insert, decide_True by done. change (b_valid x) with (b_valid (buf_of s b)).
  pose proof (dev_valid _ _ _ _ _ _ Hs Hb Hd) as Hv. apply Z.eqb_neq in Hv. rewrite Hv.
  autorewrite with mdb. eexists. split; [reflexivity|]. split; [done|].
  assert (Hx : refilled s pinned b x) by (left; done).
  apply Z.eqb_neq in Hv.
  assert (Hr : b_refcnt x = 1 + flag b pinned).
  { cbn. rewrite (bo_ref _ _ _ _ _ Hs) by done. pose proof (flag_range b pinned).
    rewrite (flag_out _ held) by done. rewrite u32_small by lia. lia. }
  constructor.
  - by apply take_ok.
  - by rewrite buf_of_insert, decide_True.
  - rewrite buf_of_insert, decide_True by done. rewrite <- Hn. change (b_blockno (buf_of s b)) with (b_blockno x).
    by eapply take_data.
  - intros n'. by eapply take_view.
  - intros u _ Hu. by rewrite buf_of_insert, decide_False.
  - intros u _. rewrite buf_of_insert. by destruct (decide (u = b)) as [->|].
  - done.
  - done.
  - exact W.
Qed.

Lemma find_no_match s me order held pinned n u :
  bio_ok s me order held pinned -> List.find (matches s ROOTDEV n) order = None ->
  is_buf u -> b_dev (buf_of s u) = ROOTDEV -> b_blockno (buf_of s u) <> n.
Proof.
  intros Hs E Hu Hd Hn. assert (Hin : In u order) by (by apply list_elem_of_In, (bo_order _ _ _ _ _ Hs)).
  pose proof (List.find_none _ _ E u Hin) as Hf. unfold matches in Hf.
  rewrite Hd, Hn, !Z.eqb_refl in Hf. discriminate.
Qed.

(** A block that is not cached: [bget] looks for a buffer to recycle. *)
Lemma bget_uncached fuel s me order held pinned n :
  bio_ok s me order held pinned -> List.find (matches s ROOTDEV n) order = None ->
  bget fuel ROOTDEV n s =
  match List.find (fun b => b_refcnt (buf_of s b) =? 0) (rev order) with
  | Some b =>
      (updb b (set_bdev ROOTDEV) ;;; updb b (set_bblockno n) ;;; updb b (set_bvalid 0) ;;;
       updb b (set_brefcnt 1) ;;; lift (release bcache_lock) ;;;
       lift (acquiresleep fuel (buf_lock b)) ;;; mret' b) (locked_cache s (bufs s))
  | None => Panic "bget: no buffers"
  end.
Proof.
  intros Hs E. pose proof (ring_head _ _ _ _ (bo_ring _ _ _ _ _ Hs)) as [Hhd Htl].
  assert (Hk : (length order <= NBUF)%nat) by (by rewrite (order_length _ _ _ _ _ Hs)).
  unfold bget. rewrite (bind_benter _ _ (bo_bcache _ _ _ _ _ Hs)).
  rewrite bind_getb. change (b_next (buf_of (locked_cache s (bufs s)) bhead)) with (nexts s bhead).
  rewrite Hhd.
  rewrite (bind_ok _ _ _ _ _ (bget_cached_spec (locked_cache s (bufs s)) order [] order NBUF ROOTDEV n
    (bo_ring _ _ _ _ _ Hs) eq_refl Hk)).
  change (matches (locked_cache s (bufs s))) with (matches s). rewrite E.
  rewrite bind_getb.
  change (b_prev (buf_of (locked_cache s (bufs s)) bhead)) with (prevs s bhead). rewrite Htl.
  rewrite (bind_ok _ _ _ _ _ (bget_unused_spec (locked_cache s (bufs s)) order order [] NBUF
    (bo_ring _ _ _ _ _ Hs) (eq_sym (app_nil_r _)) Hk)).
  change (buf_of (locked_cache s (bufs s))) with (buf_of s). destruct (List.find _ (rev order)); reflexivity.
Qed.

Lemma bread_miss fuel s me order held pinned n :
  bio_ok s me order held pinned -> (exists u, is_buf u /\ b_refcnt (buf_of s u) = 0) ->
  List.find (matches s ROOTDEV n) order = None ->
  exists b s', bread fuel ROOTDEV n s = Ok b s' /\ b ∉ held /\ got s me order held pinned n b s'.
Proof.
  intros Hs (u & Hu & Hu0) E. unfold bread, mbind' at 1.
  rewrite (bget_uncached _ _ _ _ _ _ _ Hs E). pose proof (unused_found _ _ _ _ _ Hs) as Hf.
  destruct (List.find _ (rev order)) as [b|]; [|by destruct (Hf u Hu)]. destruct Hf as [Hb Hout]. exists b.
  match goal with |- context [res_bind (?m ?t) ?k] => change (res_bind (m t) k) with (mbind' m k t) end.
  unfold locked_cache at 1. rewrite !bind_assoc, bind_updb, bind_assoc, bind_updb, bind_assoc, bind_updb,
    bind_assoc, bind_updb, !insert_insert_eq.
  rewrite !buf_of_insert, !decide_True by done.
  change (mkbst _ ?B (disk s) (dwrites s)) with (locked_cache s B).
  set (x := set_brefcnt _ _).
  destruct (bget_finish fuel s me order held pinned b (<[b := x]> (bufs s))
    (fun b => let! v := getb b b_valid in (if v =? 0 then disk_rw b false ;;; updb b (set_bvalid 1)
      else mret' tt) ;;; mret' b) Hs Hb ltac:(set_solver)) as (p' & nm & W & E2). rewrite E2, bind_getb.
  rewrite buf_of_insert, decide_True by done. change (b_valid x =? 0) with true.
  unfold disk_rw. rewrite !bind_assoc, bind_getb, buf_of_insert, decide_True by done.
  autorewrite with mdb. rewrite !bind_updb.
  rewrite !insert_insert_eq, !buf_of_insert, !decide_True by done.
  change (default zero_block _) with (dblock s n). set (y := set_bvalid _ _).
  autorewrite with mdb. eexists. split; [reflexivity|]. split; [set_solver|].
  assert (Hx : refilled s pinned b y).
  { right. split_and!; [set_solver|done|]. intros w Hw Hd. by apply (find_no_match _ _ _ _ _ _ _ Hs E). }
  assert (Hr : b_refcnt y = 1 + flag b pinned) by (rewrite flag_out by set_solver; done).
  assert (Hh : b ∉ held) by set_solver. assert (Hv : b_valid y <> 0) by discriminate.
  constructor; [by apply take_ok|..|done|done|exact W].
  - by rewrite buf_of_insert, decide_True.
  - rewrite buf_of_insert, decide_True by done. change n with (b_blockno y). by eapply take_data.
  - intros n'. by eapply take_view.
  - intros w _ Hw. by rewrite buf_of_insert, decide_False.
  - intros w Hw. rewrite buf_of_insert, decide_False; [done|]. intros ->. by apply Hout.
Qed.

(** A block that is not already held by the process can be read as long as
    fewer than [NBUF] buffers are in use. *)
Lemma bread_ok fuel s me order held pinned n :
  bio_ok s me order held pinned -> (length held + length pinned < NBUF)%nat ->
  (forall u, u ∈ held -> b_blockno (buf_of s u) <> n) ->
  exists b s', bread fuel ROOTDEV n s = Ok b s' /\ b ∉ held /\ got s me order held pinned n b s'.
Proof.
  intros Hs Hlen Hnew. destruct (List.find (matches s ROOTDEV n) order) as [b|] eqn:E.
  - exists b. by apply bread_hit.
  - apply bread_miss; [done| |done]. by eapply unused_exists.
Qed.

(** ** Moving a buffer to the front of the list *)

Definition same_data (x y : buf) : Prop :=
  b_valid x = b_valid y /\ b_dev x = b_dev y /\ b_blockno x = b_blockno y /\
  b_refcnt x = b_refcnt y /\ b_data x = b_data y.

(** [s'] has the links [nx] and [pv], and otherwise the buffers of [s]. *)
Record linked (s s' : bst) (nx pv : Z -> Z) : Prop := {
  ln_next : forall u, nexts s' u = nx u;
  ln_prev : forall u, prevs s' u = pv u;
  ln_data : forall u, same_data (buf_of s' u) (buf_of s u);
}.

Lemma linked_refl s : linked s s (nexts s) (prevs s).
Proof. done. Qed.

Lemma linked_next s sl B D W nx pv u v :
  linked s (mkbst sl B D W) nx pv ->
  linked s (mkbst sl (<[u := set_bnext v (buf_of (mkbst sl B D W) u)]> B) D W) (upd nx u v) pv.
Proof.
  intros [Hn Hp Hd]. constructor; intros w; unfold nexts, prevs, upd in *; rewrite buf_of_insert;
    destruct (decide (w = u)) as [->|]; try done; [apply Hp|apply Hd].
Qed.

Lemma linked_prev s sl B D W nx pv u v :
  linked s (mkbst sl B D W) nx pv ->
  linked s (mkbst sl (<[u := set_bprev v (buf_of (mkbst sl B D W) u)]> B) D W) nx (upd pv u v).
Proof.
  intros [Hn Hp Hd]. constructor; intros w; unfold nexts, prevs, upd in *; rewrite buf_of_insert;
    destruct (decide (w = u)) as [->|]; try done; [apply Hn|apply Hd].
Qed.

Definition move_front (b : Z) : M bst unit :=
  let! next := getb b b_next in
  let! prev := getb b b_prev in
  updb next (set_bprev prev) ;;;
  let! next := getb b b_next in
  let! prev := getb b b_prev in
  updb prev (set_bnext next) ;;;
  bpush b.

Lemma move_front_spec sl B D W l1 b l2 :
  ring (nexts (mkbst sl B D W)) (prevs (mkbst sl B D W)) bhead (l1 ++ b :: l2) ->
  exists B', move_front b (mkbst sl B D W) = Ok tt (mkbst sl B' D W) /\
    ring (nexts (mkbst sl B' D W)) (prevs (mkbst sl B' D W)) bhead (b :: l1 ++ l2) /\
    forall u, same_data (buf_of (mkbst sl B' D W) u) (buf_of (mkbst sl B D W) u).
Proof.
  intros Hr. set (s := mkbst sl B D W) in *.
  assert (Hne : nexts s b <> b).
  { destruct (ring_nx _ _ _ _ _ _ Hr) as [-> _]. destruct Hr as [_ Hnd].
    destruct l2; cbn; intros E; subst b; apply NoDup_cons in Hnd as [H1 H2]; [set_solver|].
    apply NoDup_app in H2 as (_ & _ & [H2 _]%NoDup_cons). set_solver. }
  pose proof (linked_refl s) as L0.
  pose proof (linked_prev _ _ _ _ _ _ _ (nexts s b) (prevs s b) L0) as L1.
  pose proof (linked_next _ _ _ _ _ _ _ (prevs s b) (nexts s b) L1) as L2.
  pose proof (ring_remove _ _ _ _ _ _ Hr) as Hr2.
  pose proof (linked_next _ _ _ _ _ _ _ b (upd (nexts s) (prevs s b) (nexts s b) bhead) L2) as L3.
  pose proof (linked_prev _ _ _ _ _ _ _ b bhead L3) as L4.
  pose proof (linked_prev _ _ _ _ _ _ _ (upd (nexts s) (prevs s b) (nexts s b) bhead) b L4) as L5.
  pose proof (linked_next _ _ _ _ _ _ _ bhead b L5) as [H1 H2 H3].
  eexists. split.
  - unfold move_front, bpush. rewrite !bind_getb. unfold s at 3. rewrite bind_updb, !bind_getb.
    change (b_next (buf_of (mkbst sl ?B D W) ?u)) with (nexts (mkbst sl B D W) u).
    change (b_prev (buf_of (mkbst sl ?B D W) ?u)) with (prevs (mkbst sl B D W) u).
    change (b_next (buf_of s b)) with (nexts s b). change (b_prev (buf_of s b)) with (prevs s b).
    rewrite (ln_next _ _ _ _ L1), (ln_prev _ _ _ _ L1), upd_ne by done.
    rewrite bind_updb, bind_getb.
    change (b_next (buf_of (mkbst sl ?B D W) bhead)) with (nexts (mkbst sl B D W) bhead).
    rewrite (ln_next _ _ _ _ L2), !bind_updb. reflexivity.
  - split; [|exact H3].
    eapply ring_ext; [intros u _; apply H1|intros u _; apply H2|]. apply ring_push; [done|].
    destruct Hr as [_ Hnd]. apply NoDup_cons in Hnd as [Hh Hnd].
    apply NoDup_app in Hnd as (_ & Hx & [Hy _]%NoDup_cons). set_solver.
Qed.

(** ** Releasing a buffer *)

Section Drop.
Context (s : bst) (me : nat) (order held pinned : list Z) (b : Z)
  (Hs : bio_ok s me order (b :: held) pinned)
  (p' : pst) (Hw : woke (bpst s) p') (nm : string) (B' : gmap Z buf) (order' : list Z)
  (Hclean : b ∉ pinned -> b_data (buf_of s b) = dblock s (b_blockno (buf_of s b))).

Let s' : bst := mkbst (mkslst p' (<[buf_lock b := mksleeplock 0 nm 0]> (slocks (b_sl s))))
  B' (disk s) (dwrites s).

Context (Hr : ring (nexts s') (prevs s') bhead order') (Ho : forall u, u ∈ order' <-> is_buf u)
  (Hd : forall u, same_data (buf_of s' u)
    (if decide (u = b) then set_brefcnt (flag b pinned) (buf_of s b) else buf_of s u)).

Lemma drop_fields u :
  b_dev (buf_of s' u) = b_dev (buf_of s u) /\ b_valid (buf_of s' u) = b_valid (buf_of s u) /\
  b_blockno (buf_of s' u) = b_blockno (buf_of s u) /\ b_data (buf_of s' u) = b_data (buf_of s u).
Proof.
  destruct (Hd u) as (H1 & H2 & H3 & H4 & H5). rewrite H1, H2, H3, H5.
  by destruct (decide (u = b)) as [->|].
Qed.

Lemma drop_ok : bio_ok s' me order' held pinned.
Proof.
  pose proof (bo_held _ _ _ _ _ Hs) as [Hb Hnd]%NoDup_cons. constructor.
  - exact (woke_quiet _ _ _ Hw (bo_quiet _ _ _ _ _ Hs)).
  - exact (woke_free _ _ _ Hw (bo_bcache _ _ _ _ _ Hs)).
  - intros u Hu. exact (woke_free _ _ _ Hw (bo_spin _ _ _ _ _ Hs u Hu)).
  - exact Hr.
  - exact Ho.
  - intros u Hu. destruct (drop_fields u) as (-> & -> & _). by apply (bo_dev _ _ _ _ _ Hs).
  - intros u u' Hu Hu'. destruct (drop_fields u) as (-> & _ & -> & _).
    destruct (drop_fields u') as (-> & _ & -> & _). by apply (bo_uniq _ _ _ _ _ Hs).
  - intros u Hu. destruct (drop_fields u) as (-> & _). apply (bo_used _ _ _ _ _ Hs). by right.
  - exact Hnd.
  - apply (bo_pinned _ _ _ _ _ Hs).
  - intros u Hu. destruct (Hd u) as (_ & _ & _ & -> & _). destruct (decide (u = b)) as [->|].
    + cbn. rewrite (flag_out b held) by done. lia.
    + rewrite (bo_ref _ _ _ _ _ Hs), flag_cons, decide_False by done. done.
  - intros u Hu. cbn [b_sl s' bpst sl_pst]. rewrite slock_of_insert, (woke_pid _ _ _ Hw).
    destruct (decide (u = b)) as [->|Hne]; [rewrite decide_True by done; by rewrite flag_out|].
    rewrite decide_False by (by rewrite buf_lock_eq).
    destruct (bo_slock _ _ _ _ _ Hs u Hu) as [H1 H2]. rewrite flag_cons, decide_False in H1 by done.
    split; [exact H1|]. intros Hin. apply H2. by right.
  - intros u Hu Hout. destruct (drop_fields u) as (-> & _ & -> & ->). intros HD.
    destruct (decide (u = b)) as [->|]; [apply Hclean; set_solver|].
    apply (bo_clean _ _ _ _ _ Hs); [done|set_solver|done].
Qed.

Lemma drop_view n : view s' n = view s n.
Proof.
  apply view_eq.
  - intros u. destruct (drop_fields u) as (E1 & E2 & E3 & E4). unfold caches. rewrite E1, E2, E3, E4.
    intros Hu. symmetry. by apply (view_cached _ _ _ _ _ _ _ Hs).
  - intros Hno. change (dblock s' n) with (dblock s n). symmetry. apply view_uncached. intros u Hu. apply (Hno u).
    destruct (drop_fields u) as (E1 & E2 & E3 & E4). unfold caches. by rewrite E1, E2, E3.
Qed.
End Drop.

(** The process holds the sleep lock of its buffers. *)
Lemma held_holdingsleep s me order held pinned b :
  bio_ok s me order held pinned -> b ∈ held ->
  exists p', woke (bpst s) p' /\
    forall {C} (k : bool -> M bst C), mbind' (lift (holdingsleep (buf_lock b))) k s =
      k true (mkbst (mkslst p' (slocks (b_sl s))) (bufs s) (disk s) (dwrites s)).
Proof.
  intros Hs Hb. destruct (bo_used _ _ _ _ _ Hs b) as [Hi _]; [set_solver|].
  destruct (holdingsleep_ok (buf_lock b) (b_sl s) me (bo_quiet _ _ _ _ _ Hs)
    (bo_spin _ _ _ _ _ Hs b Hi)) as (p' & E & W).
  exists p'. split; [done|]. intros C k. destruct (bo_slock _ _ _ _ _ Hs b Hi) as [H1 H2].
  rewrite H1, (H2 Hb), flag_in, Z.eqb_refl in E by done. cbn in E.
  destruct s as [sl B D W']. exact (bind_bst_sl _ _ _ _ _ _ _ _ E).
Qed.

(** What [brelse] of [b] leaves; [order'] is the list with [b] moved to the
    front when nobody else uses it. *)
Record released (s : bst) (me : nat) (order' held pinned : list Z) (s' : bst) : Prop := {
  rl_ok : bio_ok s' me order' held pinned;
  rl_view : forall n, view s' n = view s n;
  rl_fields : forall u, b_blockno (buf_of s' u) = b_blockno (buf_of s u) /\
    b_data (buf_of s' u) = b_data (buf_of s u);
  rl_disk : disk s' = disk s;
  rl_dwrites : dwrites s' = dwrites s;
  rl_woke : woke (bpst s) (bpst s');
}.

Lemma relink sl s D W b l1 l2 pinned :
  ring (nexts s) (prevs s) bhead (l1 ++ b :: l2) ->
  exists B', (if flag b pinned =? 0 then move_front b else mret' tt)
      (mkbst sl (<[b := set_brefcnt (flag b pinned) (buf_of s b)]> (bufs s)) D W) =
      Ok tt (mkbst sl B' D W) /\
    ring (nexts (mkbst sl B' D W)) (prevs (mkbst sl B' D W)) bhead
      (if decide (b ∈ pinned) then l1 ++ b :: l2 else b :: l1 ++ l2) /\
    forall u, same_data (buf_of (mkbst sl B' D W) u)
      (if decide (u = b) then set_brefcnt (flag b pinned) (buf_of s b) else buf_of s u).
Proof.
  intros Hr. set (x := set_brefcnt _ _).
  assert (Hr1 : ring (nexts (mkbst sl (<[b := x]> (bufs s)) D W))
    (prevs (mkbst sl (<[b := x]> (bufs s)) D W)) bhead (l1 ++ b :: l2)).
  { eapply ring_ext; [..|exact Hr]; intros u _; [by apply nexts_same|by apply prevs_same]. }
  unfold flag in *. destruct (decide (b ∈ pinned)); cbn [Z.eqb].
  - eexists. split; [reflexivity|]. split; [exact Hr1|]. intros u. rewrite buf_of_insert.
    by destruct (decide (u = b)).
  - destruct (move_front_spec _ _ _ _ _ _ _ Hr1) as (B' & E & Hr' & Hd').
    exists B'. split_and!; [exact E|exact Hr'|]. intros u. specialize (Hd' u).
    rewrite buf_of_insert in Hd'. by destruct (decide (u = b)).
Qed.

Lemma brelse_ok s me l1 l2 b held pinned :
  bio_ok s me (l1 ++ b :: l2) (b :: held) pinned ->
  (b ∉ pinned -> b_data (buf_of s b) = dblock s (b_blockno (buf_of s b))) ->
  exists s', brelse b s = Ok tt s' /\
    released s me (if decide (b ∈ pinned) then l1 ++ b :: l2 else b :: l1 ++ l2) held pinned s'.
Proof.
  intros Hs Hcl. destruct (bo_used _ _ _ _ _ Hs b) as [Hb Hdev]; [set_solver|].
  destruct (held_holdingsleep _ _ _ _ _ b Hs) as (p1 & W1 & E1); [by left|].
  unfold brelse. rewrite E1. cbn [negb].
  destruct (releasesleep_ok (buf_lock b) (mkslst p1 (slocks (b_sl s))) me) as (p2 & E2 & W2 & _).
  { exact (woke_quiet _ _ _ W1 (bo_quiet _ _ _ _ _ Hs)). }
  { exact (woke_free _ _ _ W1 (bo_spin _ _ _ _ _ Hs b Hb)). }
  rewrite (bind_bst_sl _ _ _ _ _ _ _ _ E2). cbn [sl_pst slocks] in W2 |- *. set (nm := sl_name _).
  pose proof (woke_trans _ _ _ W1 W2) as W.
  set (s2 := mkbst (mkslst p2 _) _ _ _).
  assert (Hq2 : hart_ok (hart_of (bpst s2))) by exact (pq_hart _ _ (woke_quiet _ _ _ W (bo_quiet _ _ _ _ _ Hs))).
  assert (Hl2 : lock_free bcache_lock (hart_of (bpst s2))) by exact (woke_free _ _ _ W (bo_bcache _ _ _ _ _ Hs)).
  rewrite (bind_benter _ _ Hl2), bind_getb. change (buf_of (locked_cache s2 _)) with (buf_of s).
  unfold locked_cache at 1. rewrite bind_updb, bind_getb, buf_of_insert, decide_True by done.
  change (mkbst _ ?B (disk s2) (dwrites s2)) with (locked_cache s2 B). change (bufs s2) with (bufs s).
  change (buf_of (locked_cache s2 (bufs s))) with (buf_of s).
  rewrite (bo_ref _ _ _ _ _ Hs b Hb), (flag_in b (b :: held)) by (by left).
  replace (1 + flag b pinned - 1) with (flag b pinned) by lia.
  pose proof (flag_range b pinned). rewrite u32_small by lia.
  fold (move_front b). change (b_refcnt (set_brefcnt ?x _)) with x.
  change (buf_of (mkbst _ (bufs s) _ _) b) with (buf_of s b).
  destruct (relink (b_sl (locked_cache s2 (bufs s))) s (disk s) (dwrites s) b l1 l2 pinned
    (bo_ring _ _ _ _ _ Hs)) as (B' & E & Hr & Hd).
  unfold locked_cache in E. rewrite (bind_ok _ _ _ _ _ E).
  pose proof (bleave s2 B' Hq2 Hl2) as E3. eexists. split; [exact E3|].
  pose proof (settled_ok s2 B' _ (woke_refl _)) as W3. pose proof (woke_trans _ _ _ W W3) as W4.
  assert (Ho : forall u, u ∈ (if decide (b ∈ pinned) then l1 ++ b :: l2 else b :: l1 ++ l2) <-> is_buf u).
  { intros u. rewrite <- (bo_order _ _ _ _ _ Hs). case_decide; set_solver. }
  constructor; [exact (drop_ok _ _ _ _ _ _ Hs _ W4 nm B' _ Hcl Hr Ho Hd)| | |done|done|exact W4].
  - intros n. exact (drop_view _ _ _ _ _ _ Hs (bpst (with_bufs s2 B')) nm B' Hd n).
  - intros u. destruct (drop_fields s pinned b (bpst (with_bufs s2 B')) nm B' Hd u) as (_ & _ & H1 & H2).
    split; [exact H1|exact H2].
Qed.

Lemma brelse_any s me order b held pinned :
  bio_ok s me order (b :: held) pinned ->
  (b ∉ pinned -> b_data (buf_of s b) = dblock s (b_blockno (buf_of s b))) ->
  exists s' order', brelse b s = Ok tt s' /\ released s me order' held pinned s'.
Proof.
  intros Hs Hcl. destruct (bo_used _ _ _ _ _ Hs b) as [Hb _]; [set_solver|].
  apply (bo_order _ _ _ _ _ Hs), list_elem_of_split in Hb as (l1 & l2 & ->).
  destruct (brelse_ok _ _ _ _ _ _ _ Hs Hcl) as (s' & E & H). by eexists _, _.
Qed.

Lemma flag_perm l l' u : l ≡ₚ l' -> flag u l' = flag u l.
Proof.
  intros P. unfold flag.
  destruct (decide (u ∈ l)) as [H|H], (decide (u ∈ l')) as [H'|H']; rewrite P in H; done.
Qed.

Lemma bio_ok_perm s me order held held' pinned :
  held ≡ₚ held' -> bio_ok s me order held pinned -> bio_ok s me order held' pinned.
Proof.
  intros P [H1 H2 H3 H4 H5 H6 H7 H8 H9 H10 H11 H12 H13].
  pose proof (fun u => flag_perm _ _ u P) as Hf.
  constructor; try done.
  - intros u Hu. apply H8. by rewrite P.
  - by rewrite <- P.
  - intros u Hu. rewrite Hf. by apply H11.
  - intros u Hu. rewrite Hf, <- P. by apply H12.
  - intros u Hu. rewrite <- P. by apply H13.
Qed.

(** ** Changing and writing a buffer *)

(** The data of a held buffer is changed. *)
Definition with_data (s : bst) (b : Z) (d : list Z) : bst :=
  mkbst (b_sl s) (<[b := set_bdata d (buf_of s b)]> (bufs s)) (disk s) (dwrites s).

Lemma with_data_buf s b d u :
  buf_of (with_data s b d) u = if decide (u = b) then set_bdata d (buf_of s b) else buf_of s u.
Proof. apply (buf_of_insert (b_sl s) (bufs s) (disk s) (dwrites s)). Qed.

Lemma with_data_field {A} (f : buf -> A) s b d u :
  (forall x, f (set_bdata d x) = f x) -> f (buf_of (with_data s b d) u) = f (buf_of s u).
Proof. intros Hf. rewrite with_data_buf. case_decide; [subst; apply Hf|done]. Qed.

Lemma with_data_ok s me order held pinned b d :
  bio_ok s me order held pinned -> b ∈ held -> bio_ok (with_data s b d) me order held pinned.
Proof.
  intros [H1 H2 H3 H4 H5 H6 H7 H8 H9 H10 H11 H12 H13] Hb. constructor; try done.
  - eapply ring_ext; [..|exact H4]; intros u _; [by apply nexts_same|by apply prevs_same].
  - intros u Hu. rewrite !(with_data_field b_dev), (with_data_field b_valid) by done. by apply H6.
  - intros u u' Hu Hu'. rewrite !(with_data_field b_dev), !(with_data_field b_blockno) by done. by apply H7.
  - intros u Hu. rewrite (with_data_field b_dev) by done. by apply H8.
  - intros u Hu. rewrite (with_data_field b_refcnt) by done. by apply H11.
  - intros u Hu Hout. rewrite with_data_buf, decide_False; [by apply H13|].
    intros ->. apply Hout, elem_of_app. by left.
Qed.

Lemma with_data_caches s b d u n : caches (with_data s b d) u n <-> caches s u n.
Proof.
  unfold caches. by rewrite (with_data_field b_dev), (with_data_field b_blockno), (with_data_field b_valid) by done.
Qed.

Lemma held_caches s me order held pinned b :
  bio_ok s me order held pinned -> b ∈ held ++ pinned -> caches s b (b_blockno (buf_of s b)).
Proof.
  intros Hs Hb. destruct (bo_used _ _ _ _ _ Hs b Hb) as [Hi Hd].
  split_and!; [apply Hi..|done|done|]. exact (dev_valid _ _ _ _ _ _ Hs Hi Hd).
Qed.

Lemma with_data_view s me order held pinned b d n :
  bio_ok s me order held pinned -> b ∈ held ->
  view (with_data s b d) n = if decide (n = b_blockno (buf_of s b)) then d else view s n.
Proof.
  intros Hs Hb. pose proof (held_caches _ _ _ _ _ b Hs ltac:(set_solver)) as Hc.
  apply view_eq.
  - intros u Hu%(proj1 (with_data_caches s b d u n)). rewrite with_data_buf. destruct (decide (u = b)) as [->|Hne].
    + destruct Hu as (_ & _ & Hn & _). by rewrite decide_True.
    + rewrite decide_False; [by rewrite (view_cached _ _ _ _ _ _ _ Hs Hu)|]. intros ->.
      destruct Hu as (H1 & H2 & H3 & _), Hc as (G1 & G2 & _). apply Hne, (bo_uniq _ _ _ _ _ Hs); congruence.
  - intros Hno. rewrite decide_False.
    + change (dblock (with_data s b d) n) with (dblock s n). symmetry. apply view_uncached. intros u Hu. apply (Hno u). by apply with_data_caches.
    + intros ->. apply (Hno b). by apply with_data_caches.
Qed.

(** The disk after [bwrite] of a held buffer. *)
Definition with_disk (s : bst) (p' : pst) (n : Z) (d : list Z) : bst :=
  mkbst (mkslst p' (slocks (b_sl s))) (bufs s) (<[n := d]> (disk s)) (dwrites s ++ [(n, d)]).

Lemma bwrite_eq s me order held pinned b :
  bio_ok s me order held pinned -> b ∈ held ->
  exists p', woke (bpst s) p' /\
    bwrite b s = Ok tt (with_disk s p' (b_blockno (buf_of s b)) (b_data (buf_of s b))).
Proof.
  intros Hs Hb. destruct (held_holdingsleep _ _ _ _ _ b Hs Hb) as (p' & W & E).
  exists p'. split; [done|]. unfold bwrite. rewrite E. reflexivity.
Qed.

Lemma dblock_insert s p' n d n' :
  dblock (with_disk s p' n d) n' = if decide (n' = n) then d else dblock s n'.
Proof.
  unfold dblock; cbn. destruct (decide (n' = n)) as [->|]; [by rewrite lookup_insert_eq|].
  by rewrite lookup_insert_ne.
Qed.

Lemma with_disk_ok s me order held pinned b p' :
  bio_ok s me order held pinned -> b ∈ held -> woke (bpst s) p' ->
  bio_ok (with_disk s p' (b_blockno (buf_of s b)) (b_data (buf_of s b))) me order held pinned.
Proof.
  intros Hs Hb W. pose proof Hs as [H1 H2 H3 H4 H5 H6 H7 H8 H9 H10 H11 H12 H13]. constructor; try done.
  - exact (woke_quiet _ _ _ W H1).
  - exact (woke_free _ _ _ W H2).
  - intros u Hu. exact (woke_free _ _ _ W (H3 u Hu)).
  - intros u Hu. unfold bpst, with_disk; cbn [b_sl sl_pst]. rewrite (woke_pid _ _ _ W). exact (H12 u Hu).
  - intros u Hu Hout Hd. rewrite dblock_insert.
    change (buf_of (with_disk _ _ _ _)) with (buf_of s) in *.
    destruct (bo_used _ _ _ _ _ Hs b) as [Hbb Hbd]; [apply elem_of_app; by left|].
    rewrite decide_False; [by apply H13|]. intros E. apply Hout, elem_of_app. left.
    by rewrite (H7 u b Hu Hbb Hd Hbd E).
Qed.

Lemma with_disk_view s me order held pinned b p' n :
  bio_ok s me order held pinned -> b ∈ held ->
  view (with_disk s p' (b_blockno (buf_of s b)) (b_data (buf_of s b))) n = view s n.
Proof.
  intros Hs Hb. apply view_eq.
  - intros u Hu. symmetry. by apply (view_cached _ _ _ _ _ _ _ Hs).
  - intros Hno. rewrite dblock_insert, decide_False.
    + symmetry. by apply view_uncached.
    + intros ->. apply (Hno b). apply (held_caches _ _ _ _ _ _ Hs), elem_of_app. by left.
Qed.

(** ** Pinning *)

Section Pin.
Context (s : bst) (me : nat) (order held pinned pinned' : list Z) (b : Z)
  (Hs : bio_ok s me order held pinned) (Hb : b ∈ held)
  (Hp : forall u, u <> b -> u ∈ pinned' <-> u ∈ pinned) (Hnd : NoDup pinned').

Let s' : bst := with_bufs s (<[b := set_brefcnt (1 + flag b pinned') (buf_of s b)]> (bufs s)).

Lemma pin_buf u :
  buf_of s' u = if decide (u = b) then set_brefcnt (1 + flag b pinned') (buf_of s b) else buf_of s u.
Proof. apply buf_of_insert. Qed.

Lemma pin_field {A} (f : buf -> A) u :
  (forall v x, f (set_brefcnt v x) = f x) -> f (buf_of s' u) = f (buf_of s u).
Proof. intros Hf. rewrite pin_buf. case_decide; [subst; apply Hf|done]. Qed.

Lemma pin_ok : bio_ok s' me order held pinned'.
Proof.
  pose proof (woke_settle (bpst s)) as W.
  pose proof Hs as [H1 H2 H3 H4 H5 H6 H7 H8 H9 H10 H11 H12 H13]. constructor; try done.
  - exact (woke_quiet _ _ _ W H1).
  - eapply ring_ext; [..|exact H4]; intros u _; [by apply nexts_same|by apply prevs_same].
  - intros u Hu. rewrite !(pin_field b_dev), (pin_field b_valid) by done. by apply H6.
  - intros u u' Hu Hu'. rewrite !(pin_field b_dev), !(pin_field b_blockno) by done. by apply H7.
  - intros u Hu. rewrite (pin_field b_dev) by done. apply H8.
    destruct (decide (u = b)) as [->|]; [apply elem_of_app; by left|].
    apply elem_of_app in Hu. rewrite Hp in Hu by done. by apply elem_of_app.
  - intros u Hu. rewrite pin_buf. destruct (decide (u = b)) as [->|]; [by rewrite (flag_in _ held)|].
    rewrite H11 by done. f_equal. unfold flag. destruct (decide (u ∈ pinned)) as [E|E];
      rewrite <- Hp in E by done; [by rewrite decide_True|by rewrite decide_False].
  - intros u Hu Hout Hd. rewrite (pin_field b_dev) in Hd by done.
    rewrite (pin_field b_data), (pin_field b_blockno) by done. apply H13; [done| |done].
    rewrite elem_of_app in Hout |- *. rewrite <- Hp; [done|]. intros ->. tauto.
Qed.

Lemma pin_view n : view s' n = view s n.
Proof.
  assert (Hc : forall u, caches s' u n <-> caches s u n).
  { intros u. unfold caches. by rewrite (pin_field b_dev), (pin_field b_blockno), (pin_field b_valid). }
  apply view_eq.
  - intros u Hu. rewrite (pin_field b_data) by done. symmetry.
    by apply (view_cached _ _ _ _ _ _ _ Hs), Hc.
  - intros Hno. symmetry. apply (view_uncached s). intros u Hu. by apply (Hno u), Hc.
Qed.
End Pin.

(** What [bpin] and [bunpin] leave. *)
Record repinned (s : bst) (me : nat) (order held pinned' : list Z) (s' : bst) : Prop := {
  rp_ok : bio_ok s' me order held pinned';
  rp_view : forall n, view s' n = view s n;
  rp_fields : forall u, b_blockno (buf_of s' u) = b_blockno (buf_of s u) /\
    b_data (buf_of s' u) = b_data (buf_of s u);
  rp_disk : disk s' = disk s;
  rp_dwrites : dwrites s' = dwrites s;
  rp_pst : bpst s' = with_hart (settle (hart_of (bpst s))) (bpst s);
}.

Lemma rp_woke s me order held pinned' s' :
  repinned s me order held pinned' s' -> woke (bpst s) (bpst s').
Proof. intros R. rewrite (rp_pst _ _ _ _ _ _ R). apply woke_settle. Qed.

Lemma repin_run s me order held pinned pinned' b v :
  bio_ok s me order held pinned -> b ∈ held ->
  (forall u, u <> b -> u ∈ pinned' <-> u ∈ pinned) -> NoDup pinned' -> v = 1 + flag b pinned' ->
  exists s', (updb b (set_brefcnt v) ;;; lift (release bcache_lock)) (locked_cache s (bufs s)) =
      Ok tt s' /\ repinned s me order held pinned' s'.
Proof.
  intros Hs Hb Hp Hnd ->. eexists. split.
  - unfold locked_cache. rewrite bind_updb. apply bleave.
    + apply (bo_quiet _ _ _ _ _ Hs).
    + apply (bo_bcache _ _ _ _ _ Hs).
  - constructor; [by apply (pin_ok s me order held pinned pinned')|..|done|done|done].
    + intros n. by apply (pin_view s me order held pinned).
    + intros u. split; [by apply (pin_field s pinned' b b_blockno)|by apply (pin_field s pinned' b b_data)].
Qed.

Lemma bpin_ok s me order held pinned b :
  bio_ok s me order held pinned -> b ∈ held -> b ∉ pinned ->
  exists s', bpin b s = Ok tt s' /\ repinned s me order held (pinned ++ [b]) s'.
Proof.
  intros Hs Hb Hn. destruct (bo_used _ _ _ _ _ Hs b) as [Hbb _]; [apply elem_of_app; by left|].
  unfold bpin. rewrite (bind_benter _ _ (bo_bcache _ _ _ _ _ Hs)), bind_getb.
  eapply repin_run; [exact Hs|done|set_solver| |].
  - apply NoDup_app. split_and!; [apply (bo_pinned _ _ _ _ _ Hs)|set_solver|apply NoDup_singleton].
  - change (buf_of (locked_cache s (bufs s)) b) with (buf_of s b).
    rewrite (bo_ref _ _ _ _ _ Hs), (flag_in b held), (flag_out b pinned), flag_in by set_solver. done.
Qed.

Lemma bunpin_ok s me order held pinned b :
  bio_ok s me order held (b :: pinned) -> b ∈ held ->
  exists s', bunpin b s = Ok tt s' /\ repinned s me order held pinned s'.
Proof.
  intros Hs Hb. destruct (bo_used _ _ _ _ _ Hs b) as [Hbb _]; [apply elem_of_app; by left|].
  pose proof (bo_pinned _ _ _ _ _ Hs) as [Hn Hnd]%NoDup_cons.
  unfold bunpin. rewrite (bind_benter _ _ (bo_bcache _ _ _ _ _ Hs)), bind_getb.
  eapply repin_run; [exact Hs|done|set_solver|done|].
  change (buf_of (locked_cache s (bufs s)) b) with (buf_of s b).
  rewrite (bo_ref _ _ _ _ _ Hs) by done. rewrite (flag_in b held), (flag_in b (b :: pinned)),
    (flag_out b pinned) by set_solver. done.
Qed.
