(* ===== verification/BioInit.v ===== *)
(** * [binit] establishes the invariant of the buffer cache *)
From S2P Require Import Prelude CString Spinlock Layout Dll Kalloc Vm Proc ProcSpec Quiet.
From S2P Require Import Sleeplock Bio BioSpec.

(** [s'] is [s] with other buffers of the same contents, and with new locks. *)
Record relocked (new : lockid -> Prop) (s s' : bst) : Prop := {
  rk_data : forall u, same_data (buf_of s' u) (buf_of s u);
  rk_disk : disk s' = disk s;
  rk_dwrites : dwrites s' = dwrites s;
  rk_pst : exists lk, bpst s' = with_hart (set_locks lk (hart_of (bpst s))) (bpst s);
  rk_new : forall l, new l -> lock_free l (hart_of (bpst s'));
  rk_old : forall l, lock_free l (hart_of (bpst s)) -> lock_free l (hart_of (bpst s'));
}.

Definition buffer_locks (b : Z) (l : lockid) : Prop :=
  exists u, b <= u < bhead /\ l = slock_spin (buf_lock u).

Lemma initsleeplock_eq l name p sl :
  initsleeplock l name (mkslst p sl) =
  Ok tt (mkslst (with_hart (set_locks (<[slock_spin l := mkspinlock 0 "sleep lock" None]>
    (locks (hart_of p))) (hart_of p)) p) (<[l := mksleeplock 0 name 0]> sl)).
Proof. reflexivity. Qed.

Lemma lock_free_new l name h : lock_free l (set_locks (<[l := mkspinlock 0 name None]> (locks h)) h).
Proof. exists name. cbn. by rewrite lookup_insert_eq. Qed.
Lemma lock_free_old l l' name h :
  lock_free l h -> lock_free l (set_locks (<[l' := mkspinlock 0 name None]> (locks h)) h).
Proof.
  intros [n H]. destruct (decide (l = l')) as [->|]; [apply lock_free_new|].
  exists n. cbn. by rewrite lookup_insert_ne.
Qed.

Lemma binit_loop_spec k : forall b s l,
  b + Z.of_nat k = bhead -> ring (nexts s) (prevs s) bhead l -> (forall u, u ∈ l -> u < b) ->
  exists s', binit_loop k b s = Ok tt s' /\
    ring (nexts s') (prevs s') bhead (rev (seqZ b (Z.of_nat k)) ++ l) /\
    relocked (buffer_locks b) s s' /\
    (forall u, sl_locked (slock_of (b_sl s') (buf_lock u)) =
       if decide (b <= u < bhead) then 0 else sl_locked (slock_of (b_sl s) (buf_lock u))).
Proof.
  induction k as [|k IH]; intros b s l Hk Hr Hl.
  { exists s. split_and!; [done|exact Hr| |intros u; rewrite decide_False by lia; done].
    constructor; try done.
    - exists (locks (hart_of (bpst s))). unfold set_locks.
      replace (mkhart _ _ _ _) with (hart_of (bpst s)) by (by destruct (hart_of (bpst s))).
      by rewrite with_hart_of.
    - intros lk (u & Hu & _). lia. }
  destruct s as [[p sl] B D W]. set (s := mkbst (mkslst p sl) B D W) in *.
  assert (Hb : b ∉ bhead :: l).
  { intros [->|Hin]%elem_of_cons; [lia|]. apply Hl in Hin. lia. }
  pose proof (linked_next _ _ _ _ _ _ _ b (nexts s bhead) (linked_refl s)) as L1.
  pose proof (linked_prev _ _ _ _ _ _ _ b bhead L1) as L2.
  pose proof (linked_prev _ _ _ _ _ _ _ (nexts s bhead) b L2) as L3.
  pose proof (linked_next _ _ _ _ _ _ _ bhead b L3) as [H1 H2 H3].
  cbn [binit_loop]. rewrite bind_getb. unfold s at 2. rewrite !bind_updb.
  rewrite (bind_bst_sl _ _ _ _ _ _ _ _ (initsleeplock_eq _ _ _ _)), bind_getb.
  change (b_next (buf_of (mkbst ?S ?B' D W) bhead)) with (nexts (mkbst (mkslst p sl) B' D W) bhead).
  rewrite (ln_next _ _ _ _ L2), upd_ne by (intros E; apply Hb; rewrite E; by left).
  rewrite !bind_updb.
  set (B' := <[bhead := _]> _) in *. set (p' := with_hart _ p). set (sl' := <[_ := _]> sl).
  destruct (IH (b + 1) (mkbst (mkslst p' sl') B' D W) (b :: l)) as (s' & E & Hr' & [R1 R2 R3 R4 R5 R6] & Hs').
  { lia. }
  { eapply ring_ext; [intros u _; apply H1|intros u _; apply H2|]. by apply ring_push. }
  { intros u [->|Hu]%elem_of_cons; [lia|]. apply Hl in Hu. lia. }
  exists s'. split; [exact E|]. split; [|split].
  - replace (seqZ b (Z.of_nat (S k))) with (b :: seqZ (b + 1) (Z.of_nat k)).
    { cbn [rev]. by rewrite <- app_assoc. }
    rewrite (seqZ_cons b) by lia. do 2 f_equal; lia.
  - constructor; [|done|done|..].
    + intros u. destruct (R1 u) as (A1 & A2 & A3 & A4 & A5), (H3 u) as (C1 & C2 & C3 & C4 & C5).
      split_and!; [rewrite A1; exact C1|rewrite A2; exact C2|rewrite A3; exact C3|rewrite A4; exact C4|
        rewrite A5; exact C5].
    + destruct R4 as [lk Hlk]. exists lk. rewrite Hlk. reflexivity.
    + intros lk (u & Hu & ->). destruct (decide (u = b)) as [->|].
      * apply R6. apply lock_free_new.
      * apply R5. exists u. split; [lia|done].
    + intros lk Hlk. apply R6. by apply lock_free_old.
  - intros u. rewrite Hs'. cbn [b_sl]. unfold sl'. rewrite slock_of_insert.
    destruct (decide (u = b)) as [->|Hne].
    + rewrite decide_False, !decide_True by lia || done. done.
    + rewrite (decide_False (P := buf_lock u = _)) by (by rewrite buf_lock_eq).
      destruct (decide (b <= u < bhead)); [by rewrite decide_True by lia|by rewrite decide_False by lia].
Qed.

(** After [binit] no block is cached and no buffer is in use. *)
Lemma binit_ok s me :
  bufs s = ∅ -> proc_quiet (bpst s) me ->
  exists s', binit s = Ok tt s' /\ bio_ok s' me (rev (seqZ 0 bhead)) [] [] /\
    disk s' = disk s /\ (forall n, view s' n = dblock s n) /\ dwrites s' = dwrites s /\
    (forall l, lock_free l (hart_of (bpst s)) -> lock_free l (hart_of (bpst s'))).
Proof.
  intros HB Hq. destruct s as [[p sl] B D W]. cbn [bufs] in HB. subst B. unfold binit.
  rewrite (bind_ok _ _ _ _ _ (lift_bst_hart (initlock bcache_lock "bcache") p sl ∅ D W tt _ eq_refl)).
  set (p1 := with_hart _ p). rewrite !bind_updb. set (B1 := <[bhead := _]> _).
  set (s1 := mkbst (mkslst p1 sl) B1 D W).
  destruct (binit_loop_spec NBUF 0 s1 []) as (s' & E & Hr & [R1 R2 R3 [lk R4] R5 R6] & Hsl); [done| |set_solver|].
  { split; [done|apply NoDup_singleton]. }
  exists s'. split; [exact E|].
  assert (Hb : forall u, is_buf u -> same_data (buf_of s' u) buf0).
  { intros u Hu. specialize (R1 u). unfold s1, B1 in R1. rewrite !buf_of_insert in R1.
    rewrite !(decide_False (P := u = bhead)) in R1 by (intros ->; unfold is_buf in Hu; lia). exact R1. }
  assert (Hdev : forall u, is_buf u -> b_dev (buf_of s' u) <> ROOTDEV).
  { intros u Hu. destruct (Hb u Hu) as (_ & -> & _). discriminate. }
  rewrite app_nil_r in Hr. split; [constructor|].
  - rewrite R4. destruct Hq as [[Q1 Q2] Q3 Q4]. constructor; [split; [exact Q1|exact Q2]|exact Q3|].
    intros i Hi. rewrite <- R4. apply R6. apply lock_free_old, (Q4 i Hi).
  - apply R6, lock_free_new.
  - intros u Hu. apply R5. exists u. split; [exact Hu|done].
  - exact Hr.
  - intros u. rewrite elem_of_rev. apply is_buf_seq.
  - intros u Hu. destruct (Hb u Hu) as (-> & -> & _). right. split; reflexivity.
  - intros u u' Hu _ Hd. destruct (Hdev u Hu Hd).
  - intros u []%not_elem_of_nil.
  - constructor.
  - constructor.
  - intros u Hu. destruct (Hb u Hu) as (_ & _ & _ & -> & _). reflexivity.
  - intros u Hu. rewrite Hsl, decide_True by exact Hu. split; [reflexivity|intros []%not_elem_of_nil].
  - intros u Hu _ Hd. destruct (Hdev u Hu Hd).
  - split_and!; [exact R2| |exact R3|].
    + intros n. transitivity (dblock s' n); [|unfold dblock; by rewrite R2].
      apply view_uncached. intros u (Hu & Hd & _). exact (Hdev u Hu Hd).
    + intros l Hl. apply R6. by apply lock_free_old.
Qed.

Lemma bread_none fuel s me order held pinned n :
  bio_ok s me order held pinned -> (forall b, ~ caches s b n) ->
  (forall b, is_buf b -> b_refcnt (buf_of s b) <> 0) ->
  bread fuel ROOTDEV n s = Panic "bget: no buffers".
Proof.
  intros Hs Hno Hall. unfold bread, mbind' at 1.
  assert (E : List.find (matches s ROOTDEV n) order = None).
  { destruct (List.find _ _) as [b|] eqn:E; [|done]. exfalso.
    apply List.find_some in E as [Hin E]. apply list_elem_of_In, (bo_order _ _ _ _ _ Hs) in Hin.
    apply andb_prop in E as [E1%Z.eqb_eq E2%Z.eqb_eq]. apply (Hno b).
    split_and!; [apply Hin..|done|done|]. by apply (dev_valid _ _ _ _ _ _ Hs). }
  rewrite (bget_uncached _ _ _ _ _ _ _ Hs E). pose proof (unused_found _ _ _ _ _ Hs) as Hf.
  destruct (List.find _ (rev order)) as [b|]; [|reflexivity]. destruct Hf as [Hb Hf].
  destruct (Hall b Hb). by apply (unused_out _ _ _ _ _ _ Hs Hb).
Qed.

(** C15. [bread] through the cache is a read of the current contents of the
    block: for a block whose lock the process does not have already, if the
    block is cached or some buffer is unused, [bread] returns a buffer locked
    by the process, with the block's number and its contents (the cached copy
    if there is one, what is on the disk otherwise), it recycles only a buffer
    nobody uses, so that no block changes, and keeps the invariant that each
    block is in at most one buffer and the list of buffers is well linked.
    Otherwise it panics. *)
Theorem bread_correct (fuel : nat) (s : bst) (me : nat) (order held pinned : list Z) (n : Z)
    (Hs : bio_ok s me order held pinned)
    (Hnew : forall u, u ∈ held -> b_blockno (buf_of s u) <> n) :
  ((exists b, caches s b n \/ (is_buf b /\ b_refcnt (buf_of s b) = 0)) ->
   exists b s', bread fuel ROOTDEV n s = Ok b s' /\
     bio_ok s' me order (b :: held) pinned /\
     b_blockno (buf_of s' b) = n /\ b_data (buf_of s' b) = view s n /\
     (forall n', view s' n' = view s n') /\
     (forall u, u ∈ held ++ pinned -> u <> b -> buf_of s' u = buf_of s u) /\
     disk s' = disk s /\ dwrites s' = dwrites s) /\
  ((forall b, ~ caches s b n) -> (forall b, is_buf b -> b_refcnt (buf_of s b) <> 0) ->
   bread fuel ROOTDEV n s = Panic "bget: no buffers").
Proof.
  split; [|by apply (bread_none _ _ me order held pinned)].
  intros (u & Hu). assert (H : exists b s', bread fuel ROOTDEV n s = Ok b s' /\ b ∉ held /\
    got s me order held pinned n b s').
  { destruct (List.find (matches s ROOTDEV n) order) as [b|] eqn:E; [exists b; by apply bread_hit|].
    apply bread_miss; [done| |done]. exists u. destruct Hu as [(H1 & H2 & H3 & _)|Hu]; [|done].
    destruct (find_no_match _ _ _ _ _ _ _ Hs E H1 H2 H3). }
  destruct H as (b & s' & E & _ & G). exists b, s'. destruct G. split_and!; assumption.
Qed.

(** ** Example: the cache after [binit], on a disk with a block 5 *)

Definition block5 : list Z := replicate 1024 7.

Definition bst0 : bst := mkbst (slst1 0 0) ∅ {[5 := block5]} [].

Lemma bread_correct_witness :
  exists s b s', binit bst0 = Ok tt s /\ bread 1 ROOTDEV 5 s = Ok b s' /\
    b_data (buf_of s' b) = block5.
Proof.
  destruct (binit_ok bst0 1 eq_refl (slst1_quiet 0 0)) as (s & E & Hs & _ & Hv & _).
  destruct (bread_correct 1 s 1 _ [] [] 5 Hs) as [H _].
  { intros u []%not_elem_of_nil. }
  destruct H as (b & s' & E' & _ & _ & Hd & _).
  { exists 0. right. split; [unfold is_buf; vm_compute; split; congruence|].
    apply (unused_out _ _ _ _ _ _ Hs); [unfold is_buf; vm_compute; split; congruence|apply not_elem_of_nil]. }
  exists s, b, s'. split_and!; [done|done|]. rewrite Hd, Hv. reflexivity.
Defined.
