(* ===== verification/Log.v ===== *)
(** * The log

    Models [src/xv6-os/kernel/log.c]. The header is kept in memory as in
    [struct logheader] ([lh_block] maps an index to a block number) and on the
    disk as the bytes of block [l_start]. [fuel] bounds the number of wakeups in
    the routines that can sleep. *)
From S2P Require Import Prelude CString Spinlock Layout Dll Blocks Kalloc Vm Proc ProcSpec Quiet.
From S2P Require Import Sleeplock Bio.

Record log := mklog {
  l_start : Z;
  l_size : Z;
  l_outstanding : Z;
  l_committing : Z;
  l_dev : Z;
  lh_n : Z;
  lh_block : gmap Z Z;
}.

Record lst := mklst { l_b : bst; l_log : log }.

#[export] Instance sub_bst_lst : Sub bst lst := {|
  sub_get := l_b;
  sub_put x s := mklst x (l_log s);
|}.
#[export] Instance sub_pst_lst : Sub pst lst := {|
  sub_get s := sub_get (l_b s);
  sub_put x s := mklst (sub_put x (l_b s)) (l_log s);
|}.
#[export] Instance sub_hart_lst : Sub hart lst := {|
  sub_get s := sub_get (l_b s);
  sub_put x s := mklst (sub_put x (l_b s)) (l_log s);
|}.

Definition log_lock : lockid := ("log"%string, 0).
Definition log_chan : chan := Some ("log"%string, 0).

Definition getl {A} (f : log -> A) : M lst A := gets (fun s => f (l_log s)).
Definition updl (f : log -> log) : M lst unit := modify (fun s => mklst (l_b s) (f (l_log s))).

Section Setters.
Implicit Types l : log.
Definition set_sb st sz dv l := mklog st sz (l_outstanding l) (l_committing l) dv (lh_n l) (lh_block l).
Definition set_outstanding x l := mklog (l_start l) (l_size l) x (l_committing l) (l_dev l) (lh_n l) (lh_block l).
Definition set_committing x l := mklog (l_start l) (l_size l) (l_outstanding l) x (l_dev l) (lh_n l) (lh_block l).
Definition set_lhn x l := mklog (l_start l) (l_size l) (l_outstanding l) (l_committing l) (l_dev l) x (lh_block l).
Definition set_block i x l :=
  mklog (l_start l) (l_size l) (l_outstanding l) (l_committing l) (l_dev l) (lh_n l) (<[i := x]> (lh_block l)).
End Setters.

Definition block_at (l : log) (i : Z) : Z := default 0 (lh_block l !! i).

(** [sizeof(struct logheader)], and the fields of the header in a block. *)
Definition sizeof_logheader : Z := 4 + 4 * LOGSIZE.
Definition hdr_n (d : list Z) : Z := s32 (get32 d 0).
Definition hdr_block (d : list Z) (i : Z) : Z := s32 (get32 d (4 + 4 * i)).

Section Log.
Context (fuel : nat).

(** [memmove(to->data, from->data, BSIZE)]. *)
Definition bcopy (to from : Z) : M bst unit :=
  let! d := getb from b_data in
  updb to (set_bdata d).

Fixpoint install_loop (k : nat) (tail : Z) (recovering : bool) : M lst unit :=
  match k with
  | O => mret' tt
  | S k =>
      let! l := getl id in
      let! lbuf := lift (bread fuel (u32 (l_dev l)) (u32 (l_start l + tail + 1))) in
      let! dbuf := lift (bread fuel (u32 (l_dev l)) (u32 (block_at l tail))) in
      lift (bcopy dbuf lbuf) ;;;
      lift (bwrite dbuf) ;;;
      (if negb recovering then lift (bunpin dbuf) else mret' tt) ;;;
      lift (brelse lbuf) ;;;
      lift (brelse dbuf) ;;;
      install_loop k (tail + 1) recovering
  end.

Definition install_trans (recovering : bool) : M lst unit :=
  let! n := getl lh_n in
  install_loop (Z.to_nat n) 0 recovering.

Fixpoint read_head_loop (k : nat) (i : Z) (d : list Z) : M lst unit :=
  match k with
  | O => mret' tt
  | S k => updl (set_block i (hdr_block d i)) ;;; read_head_loop k (i + 1) d
  end.

Definition read_head : M lst unit :=
  let! l := getl id in
  let! b := lift (bread fuel (u32 (l_dev l)) (u32 (l_start l))) in
  let! d := lift (getb b b_data) in
  updl (set_lhn (hdr_n d)) ;;;
  let! n := getl lh_n in
  read_head_loop (Z.to_nat n) 0 d ;;;
  lift (brelse b).

Fixpoint write_head_loop (k : nat) (i b : Z) : M lst unit :=
  match k with
  | O => mret' tt
  | S k =>
      let! x := getl (fun l => block_at l i) in
      let! d := lift (getb b b_data) in
      lift (updb b (set_bdata (put32 d (4 + 4 * i) x))) ;;;
      write_head_loop k (i + 1) b
  end.

Definition write_head : M lst unit :=
  let! l := getl id in
  let! b := lift (bread fuel (u32 (l_dev l)) (u32 (l_start l))) in
  let! d := lift (getb b b_data) in
  lift (updb b (set_bdata (put32 d 0 (lh_n l)))) ;;;
  write_head_loop (Z.to_nat (lh_n l)) 0 b ;;;
  lift (bwrite b) ;;;
  lift (brelse b).

Definition recover_from_log : M lst unit :=
  read_head ;;;
  install_trans true ;;;
  updl (set_lhn 0) ;;;
  write_head.

Definition initlog (dv logstart nlog : Z) : M lst unit :=
  if BSIZE <=? sizeof_logheader then panic "initlog: too big logheader"
  else
    lift (initlock log_lock "log") ;;;
    updl (set_sb (s32 logstart) (s32 nlog) dv) ;;;
    recover_from_log.

Fixpoint begin_op_loop (f : nat) : M lst unit :=
  let! l := getl id in
  if negb (l_committing l =? 0) || (LOGSIZE <? lh_n l + (l_outstanding l + 1) * MAXOPBLOCKS) then
    match f with
    | O => out_of_fuel
    | S f => lift (sleep log_chan log_lock) ;;; begin_op_loop f
    end
  else
    updl (set_outstanding (l_outstanding l + 1)) ;;;
    lift (release log_lock).

Definition begin_op : M lst unit :=
  lift (acquire log_lock) ;;;
  begin_op_loop fuel.

Fixpoint write_log_loop (k : nat) (tail : Z) : M lst unit :=
  match k with
  | O => mret' tt
  | S k =>
      let! l := getl id in
      let! to := lift (bread fuel (u32 (l_dev l)) (u32 (l_start l + tail + 1))) in
      let! from := lift (bread fuel (u32 (l_dev l)) (u32 (block_at l tail))) in
      lift (bcopy to from) ;;;
      lift (bwrite to) ;;;
      lift (brelse from) ;;;
      lift (brelse to) ;;;
      write_log_loop k (tail + 1)
  end.

Definition write_log : M lst unit :=
  let! n := getl lh_n in
  write_log_loop (Z.to_nat n) 0.

Definition commit : M lst unit :=
  let! n := getl lh_n in
  if 0 <? n then
    write_log ;;;
    write_head ;;;
    install_trans false ;;;
    updl (set_lhn 0) ;;;
    write_head
  else mret' tt.

Definition end_op : M lst unit :=
  lift (acquire log_lock) ;;;
  let! o := getl l_outstanding in
  updl (set_outstanding (o - 1)) ;;;
  let! c := getl l_committing in
  if negb (c =? 0) then panic "log.committing"
  else
    let! o := getl l_outstanding in
    let! do_commit :=
      (if o =? 0 then
         updl (set_committing 1) ;;; mret' true
       else
         lift (wakeup log_chan) ;;; mret' false) in
    lift (release log_lock) ;;;
    if (do_commit : bool) then
      commit ;;;
      lift (acquire log_lock) ;;;
      updl (set_committing 0) ;;;
      lift (wakeup log_chan) ;;;
      lift (release log_lock)
    else mret' tt.

(** The search for the block in the log: the index found, or [lh_n]. *)
Fixpoint log_find (k : nat) (i blockno : Z) (l : log) : Z :=
  match k with
  | O => i
  | S k => if u32 (block_at l i) =? blockno then i else log_find k (i + 1) blockno l
  end.

Definition log_write (b : Z) : M lst unit :=
  lift (acquire log_lock) ;;;
  let! l := getl id in
  if (LOGSIZE <=? lh_n l) || (l_size l - 1 <=? lh_n l) then panic "too big a transaction"
  else if l_outstanding l <? 1 then panic "log_write outside of trans"
  else
    let! n := lift (getb b b_blockno) in
    let i := log_find (Z.to_nat (lh_n l)) 0 n l in
    updl (set_block i (s32 n)) ;;;
    (if i =? lh_n l then
       lift (bpin b) ;;;
       updl (set_lhn (lh_n l + 1))
     else mret' tt) ;;;
    lift (release log_lock).

End Log.
