(* ===== verification/LogDisk.v ===== *)
(** * The log on the disk

    The writes of a transaction and of recovery as functions of the contents
    of the disk, and why a crash between any two of them is harmless. The
    disk is a function from block numbers to contents. *)
From S2P Require Import Prelude CString Spinlock Layout Dll Blocks Kalloc Vm Proc ProcSpec Quiet.
From S2P Require Import Sleeplock Bio Log.

Definition blocks := Z -> list Z.

(** The disk after a list of writes. *)
Fixpoint after (ws : list (Z * list Z)) (f : blocks) : blocks :=
  match ws with
  | [] => f
  | (n, d) :: ws => after ws (fun m => if decide (m = n) then d else f m)
  end.

(** The writes of consecutive blocks from [n] on. *)
Fixpoint area_writes (n : Z) (ds : list (list Z)) : list (Z * list Z) :=
  match ds with
  | [] => []
  | d :: ds => (n, d) :: area_writes (n + 1) ds
  end.

(** The header block of a transaction on the blocks [bs], over [d]. *)
Fixpoint hdr_fill (i : Z) (bs : list Z) (d : list Z) : list Z :=
  match bs with
  | [] => d
  | x :: bs => hdr_fill (i + 1) bs (put32 d (4 + 4 * i) x)
  end.

Definition hdr_make (d : list Z) (bs : list Z) : list Z :=
  hdr_fill 0 bs (put32 d 0 (Z.of_nat (length bs))).

(** What [commit] writes for the blocks [bs] with contents [ds]. *)
Definition commit_writes (st : Z) (f : blocks) (bs : list Z) (ds : list (list Z)) :=
  area_writes (st + 1) ds ++ (st, hdr_make (f st) bs) :: zip bs ds ++
  [(st, hdr_make (hdr_make (f st) bs) [])].

(** What [recover_from_log] writes. *)
Definition logged_blocks (st : Z) (f : blocks) : list Z :=
  hdr_block (f st) <$> seqZ 0 (hdr_n (f st)).

Definition logged_data (st : Z) (f : blocks) : list (list Z) :=
  (fun i => f (st + 1 + i)) <$> seqZ 0 (hdr_n (f st)).

Definition recover_writes (st : Z) (f : blocks) : list (Z * list Z) :=
  zip (logged_blocks st f) (logged_data st f) ++ [(st, hdr_make (f st) [])].

(** ** Writes *)

Lemma after_app ws ws' f : after (ws ++ ws') f = after ws' (after ws f).
Proof. revert f. induction ws as [|[n d] ws IH]; intros f; cbn; [done|apply IH]. Qed.

Lemma after_ext ws f g n : (forall m, f m = g m) -> after ws f n = after ws g n.
Proof.
  revert f g. induction ws as [|[m d] ws IH]; intros f g H; cbn; [done|].
  apply IH. intros k. case_decide; [done|apply H].
Qed.

Lemma after_other ws f n : n ∉ ws.*1 -> after ws f n = f n.
Proof.
  revert f. induction ws as [|[m d] ws IH]; intros f H; [done|]. cbn in H |- *.
  rewrite IH by set_solver. rewrite decide_False; [done|set_solver].
Qed.

(** Where the blocks are written, the old contents do not matter. *)
Lemma after_written ws f g n : n ∈ ws.*1 -> after ws f n = after ws g n.
Proof.
  revert f g. induction ws as [|[m d] ws IH]; intros f g H; [set_solver|]. cbn in H |- *.
  destruct (decide (n ∈ ws.*1)) as [Hin|Hout]; [by apply IH|].
  apply elem_of_cons in H as [->|H]; [|done]. by rewrite !after_other, !decide_True.
Qed.

Lemma fst_zip_elem {A} (bs : list Z) (ds : list A) n : n ∈ (zip bs ds).*1 -> n ∈ bs.
Proof.
  revert ds. induction bs as [|b bs IH]; intros ds; [done|]. destruct ds as [|d ds]; cbn; [set_solver|].
  rewrite !elem_of_cons. intros [->|H]; [by left|]. right. by apply (IH ds).
Qed.

Lemma area_writes_elem n m ds : m ∈ (area_writes n ds).*1 <-> n <= m < n + Z.of_nat (length ds).
Proof.
  revert n. induction ds as [|d ds IH]; intros n; cbn [area_writes fmap list_fmap length fst].
  - rewrite elem_of_nil. lia.
  - rewrite elem_of_cons, IH. cbn. lia.
Qed.

Lemma after_area n ds f i d :
  ds !! i = Some d -> after (area_writes n ds) f (n + Z.of_nat i) = d.
Proof.
  revert n f i. induction ds as [|e ds IH]; intros n f i H; [done|]. cbn [area_writes after].
  destruct i as [|i]; cbn in H.
  - rewrite after_other by (rewrite area_writes_elem; lia). rewrite decide_True by lia. congruence.
  - replace (n + Z.of_nat (S i)) with (n + 1 + Z.of_nat i) by lia. by apply IH.
Qed.

(** ** The header *)

Lemma hdr_fill_length i bs d :
  0 <= i -> (i + Z.of_nat (length bs)) * 4 + 4 <= zlen d -> length (hdr_fill i bs d) = length d.
Proof.
  revert i d. induction bs as [|b bs IH]; intros i d Hi Hl; [done|]. cbn [hdr_fill length] in *.
  assert (E : length (put32 d (4 + 4 * i) b) = length d)
    by (apply length_patch; unfold zlen in *; rewrite ?length_le; lia).
  rewrite IH; [done|lia|]. unfold zlen in *. lia.
Qed.

Lemma hdr_fill_low i bs d o :
  0 <= i -> (i + Z.of_nat (length bs)) * 4 + 4 <= zlen d -> 0 <= o -> o + 4 <= 4 + 4 * i ->
  get32 (hdr_fill i bs d) o = get32 d o.
Proof.
  revert i d. induction bs as [|b bs IH]; intros i d Hi Hl Ho H; [done|]. cbn [hdr_fill length] in *.
  assert (E : length (put32 d (4 + 4 * i) b) = length d)
    by (apply length_patch; unfold zlen in *; rewrite ?length_le; lia).
  rewrite IH by (unfold zlen in *; lia). apply getn_patch_other; unfold zlen in *; rewrite ?length_le; lia.
Qed.

Lemma hdr_fill_block i bs d j b :
  0 <= i -> (i + Z.of_nat (length bs)) * 4 + 4 <= zlen d -> bs !! j = Some b ->
  get32 (hdr_fill i bs d) (4 + 4 * (i + Z.of_nat j)) = u32 b.
Proof.
  revert i d j. induction bs as [|x bs IH]; intros i d j Hi Hl Hj; [done|]. cbn [hdr_fill length] in *.
  assert (E : length (put32 d (4 + 4 * i) x) = length d)
    by (apply length_patch; unfold zlen in *; rewrite ?length_le; lia).
  destruct j as [|j]; cbn in Hj.
  - injection Hj as ->. rewrite hdr_fill_low by (unfold zlen in *; lia).
    replace (4 + 4 * (i + Z.of_nat 0)) with (4 + 4 * i) by lia.
    unfold get32, put32. rewrite getn_patch_same by lia. done.
  - replace (i + Z.of_nat (S j)) with (i + 1 + Z.of_nat j) by lia. apply IH; [lia| |done].
    unfold zlen in *. lia.
Qed.

Lemma s32_u32 x : - 2 ^ 31 <= x < 2 ^ 31 -> s32 (u32 x) = x.
Proof. intros. unfold s32, u32. divlia. Qed.

Definition home_block (b : Z) : Prop := 0 <= b < 2 ^ 31.

Section Header.
Context (d : list Z) (bs : list Z) (Hd : length d = Z.to_nat BSIZE) (Hn : Z.of_nat (length bs) <= LOGSIZE).

Lemma hdr_room : (0 + Z.of_nat (length bs)) * 4 + 4 <= zlen d.
Proof. unfold zlen. rewrite Hd. unfold BSIZE. unfold LOGSIZE, MAXOPBLOCKS in Hn. lia. Qed.

Lemma hdr_make_length : length (hdr_make d bs) = Z.to_nat BSIZE.
Proof.
  pose proof hdr_room. unfold hdr_make.
  assert (E : length (put32 d 0 (Z.of_nat (length bs))) = length d)
    by (apply length_patch; unfold zlen in *; rewrite ?length_le; lia).
  rewrite hdr_fill_length; [congruence|lia|]. unfold zlen in *. lia.
Qed.

Lemma hdr_make_n : hdr_n (hdr_make d bs) = Z.of_nat (length bs).
Proof.
  pose proof hdr_room. unfold hdr_make, hdr_n.
  assert (E : length (put32 d 0 (Z.of_nat (length bs))) = length d)
    by (apply length_patch; unfold zlen in *; rewrite ?length_le; lia).
  rewrite hdr_fill_low by (unfold zlen in *; lia). unfold get32, put32. rewrite getn_patch_same by lia.
  apply s32_u32. unfold LOGSIZE, MAXOPBLOCKS in Hn. lia.
Qed.

Lemma hdr_make_block j b : bs !! j = Some b -> home_block b -> hdr_block (hdr_make d bs) (Z.of_nat j) = b.
Proof.
  intros Hj Hb. pose proof hdr_room. unfold hdr_make, hdr_block, home_block in *.
  assert (E : length (put32 d 0 (Z.of_nat (length bs))) = length d)
    by (apply length_patch; unfold zlen in *; rewrite ?length_le; lia).
  change (Z.of_nat j) with (0 + Z.of_nat j). rewrite (hdr_fill_block 0 bs _ j b); [apply s32_u32; lia|lia| |done].
  unfold zlen in *. lia.
Qed.
End Header.

(** ** Crashes *)

(** The state of the log area when a transaction on [bs] can be committed. *)
Record log_area (st sz : Z) (f : blocks) (bs : list Z) : Prop := {
  la_n : Z.of_nat (length bs) <= LOGSIZE /\ Z.of_nat (length bs) < sz;
  la_home : forall b, b ∈ bs -> home_block b /\ (b < st \/ st + sz <= b);
  la_len : length (f st) = Z.to_nat BSIZE;
}.

Lemma recover_empty st f n :
  hdr_n (f st) = 0 -> n <> st -> after (recover_writes st f) f n = f n.
Proof.
  intros H0 Hn. unfold recover_writes. rewrite after_app.
  assert (logged_blocks st f = []) as -> by (unfold logged_blocks; by rewrite H0).
  cbn. by rewrite decide_False.
Qed.

Lemma seqZ_lookup_nat n i : (i < n)%nat -> seqZ 0 (Z.of_nat n) !! i = Some (Z.of_nat i).
Proof. intros H. rewrite lookup_seqZ. split; lia. Qed.

Lemma fmap_seqZ {A} (l : list A) (g : Z -> A) :
  (forall i x, l !! i = Some x -> g (Z.of_nat i) = x) -> g <$> seqZ 0 (Z.of_nat (length l)) = l.
Proof.
  intros H. apply list_eq. intros i. rewrite list_lookup_fmap.
  destruct (decide (i < length l)%nat) as [Hi|Hi].
  - rewrite seqZ_lookup_nat by done. cbn. apply lookup_lt_is_Some in Hi as [x Hx].
    rewrite Hx. f_equal. by apply H.
  - rewrite !lookup_ge_None_2; [done|lia|]. rewrite length_seqZ. lia.
Qed.

Section Crash.
Context (st sz : Z) (f : blocks) (bs : list Z) (ds : list (list Z))
  (Ha : log_area st sz f bs) (Hds : length ds = length bs) (H0 : hdr_n (f st) = 0).

Definition outside (n : Z) : Prop := n < st \/ st + sz <= n.

Lemma outside_area n : outside n -> n ∉ (area_writes (st + 1) ds).*1 /\ n <> st.
Proof.
  destruct (la_n _ _ _ _ Ha) as [_ Hn]. unfold outside. rewrite area_writes_elem, Hds. lia.
Qed.

(** Recovery when the header is on the disk. *)
Lemma recover_committed g n :
  g st = hdr_make (f st) bs -> (forall i d, ds !! i = Some d -> g (st + 1 + Z.of_nat i) = d) ->
  outside n -> after (recover_writes st g) g n = after (zip bs ds) g n.
Proof.
  intros Hg Hl Hn. destruct (la_n _ _ _ _ Ha) as [HL _]. pose proof (la_len _ _ _ _ Ha) as Hlen.
  unfold recover_writes. rewrite after_app. cbn.
  rewrite decide_False by (by apply outside_area). f_equal. f_equal.
  - unfold logged_blocks. rewrite Hg, hdr_make_n by done. apply fmap_seqZ. intros i b Hi.
    apply hdr_make_block; [done..|]. apply (la_home _ _ _ _ Ha). by eapply list_elem_of_lookup_2.
  - unfold logged_data. rewrite Hg, hdr_make_n, <- Hds by done. by apply fmap_seqZ.
Qed.

Lemma prefix_app_cases {A} (l l1 l2 : list A) :
  l `prefix_of` l1 ++ l2 -> l `prefix_of` l1 \/ exists k, l = l1 ++ k /\ k `prefix_of` l2.
Proof.
  intros [k Hk]. destruct (app_eq_inv _ _ _ _ Hk) as [(m & -> & _)|(m & -> & ->)].
  - left. by exists m.
  - right. exists m. split; [done|]. by exists k.
Qed.

Lemma prefix_snoc {A} (l l1 : list A) x :
  l `prefix_of` l1 ++ [x] -> l `prefix_of` l1 \/ l = l1 ++ [x].
Proof.
  intros [H|(k & -> & H)]%prefix_app_cases; [by left|]. destruct k as [|y k].
  - left. rewrite app_nil_r. done.
  - apply prefix_cons_inv_1 in H as Hy. apply prefix_cons_inv_2, prefix_nil_inv in H. subst. by right.
Qed.

(** The disk after a prefix of the writes of [commit]: the old header, the
    header of the transaction with its blocks in the log, or the empty header
    with the blocks in place. *)
Inductive crash_state (g : blocks) : Prop :=
| not_committed :
    g st = f st -> (forall n, outside n -> g n = f n) -> crash_state g
| committed :
    g st = hdr_make (f st) bs -> (forall i d, ds !! i = Some d -> g (st + 1 + Z.of_nat i) = d) ->
    (forall n, outside n -> after (zip bs ds) g n = after (zip bs ds) f n) -> crash_state g
| installed :
    g st = hdr_make (hdr_make (f st) bs) [] ->
    (forall n, outside n -> g n = after (zip bs ds) f n) -> crash_state g.

Lemma zip_in_place n g : st <= n < st + sz -> after (zip bs ds) g n = g n.
Proof.
  intros Hn. apply after_other. intros Hin%fst_zip_elem. apply (la_home _ _ _ _ Ha) in Hin as [_ ?]. lia.
Qed.

(** Home blocks written before are written again to the same effect. *)
Lemma zip_again p g n :
  p `prefix_of` zip bs ds -> g n = f n ->
  after (zip bs ds) (after p g) n = after (zip bs ds) f n.
Proof.
  intros [k Hk] Hg. destruct (decide (n ∈ (zip bs ds).*1)) as [Hin|Hout]; [by apply after_written|].
  rewrite !(after_other (zip bs ds)) by done. rewrite after_other; [done|].
  rewrite Hk, fmap_app in Hout. set_solver.
Qed.

Lemma commit_prefix ws : ws `prefix_of` commit_writes st f bs ds -> crash_state (after ws f).
Proof.
  intros Hp. destruct (la_n _ _ _ _ Ha) as [_ HN]. unfold commit_writes in Hp.
  assert (Hst : st ∉ (area_writes (st + 1) ds).*1) by (rewrite area_writes_elem; lia).
  apply prefix_app_cases in Hp as [[k Hk]|(p & -> & Hp)].
  { assert (Hws : forall m, m ∉ (area_writes (st + 1) ds).*1 -> m ∉ ws.*1).
    { intros m. rewrite Hk, fmap_app. set_solver. }
    apply not_committed; [by rewrite after_other by auto|]. intros n Hn.
    destruct (outside_area n Hn). by rewrite after_other by auto. }
  destruct p as [|x p].
  { rewrite app_nil_r. apply not_committed; [by rewrite after_other|]. intros n Hn.
    destruct (outside_area n Hn). by rewrite after_other. }
  apply prefix_cons_inv_1 in Hp as Hx. apply prefix_cons_inv_2 in Hp. subst x.
  rewrite after_app. cbn [after].
  set (g1 := fun m => if decide (m = st) then _ else after (area_writes (st + 1) ds) f m).
  assert (Hg1 : forall m, outside m -> g1 m = f m).
  { intros m Hm. destruct (outside_area m Hm). unfold g1. rewrite decide_False by done. by apply after_other. }
  assert (Hgst : g1 st = hdr_make (f st) bs) by (unfold g1; by rewrite decide_True).
  apply prefix_snoc in Hp as [Hp| ->].
  - assert (Hpl : forall m, st <= m < st + sz -> after p g1 m = g1 m).
    { intros m Hm. apply after_other. destruct Hp as [k Hk]. intros Hin.
      destruct (la_home _ _ _ _ Ha m) as [_ ?]; [|lia]. apply (fst_zip_elem _ ds).
      rewrite Hk, fmap_app. set_solver. }
    apply committed; [by rewrite Hpl by lia| |].
    + intros i d Hi. pose proof (lookup_lt_Some _ _ _ Hi) as Hlt. rewrite Hpl by lia.
      unfold g1. rewrite decide_False by lia. by apply after_area.
    + intros n Hn. apply zip_again; [done|by apply Hg1].
  - rewrite after_app. cbn [after]. apply installed; [by rewrite decide_True|]. intros n Hn.
    destruct (outside_area n Hn). rewrite decide_False by done.
    rewrite <- (zip_again (zip bs ds) g1 n) by (done || by apply Hg1).
    destruct (decide (n ∈ (zip bs ds).*1)); [by apply after_written|by rewrite !(after_other (zip bs ds))].
Qed.

(** Whatever prefix of the writes of [commit] is on the disk, recovery leaves
    either the old contents of all blocks or the new ones. *)
Lemma crash_recover g :
  crash_state g ->
  (forall n, outside n -> after (recover_writes st g) g n = f n) \/
  (forall n, outside n -> after (recover_writes st g) g n = after (zip bs ds) f n).
Proof.
  pose proof (la_len _ _ _ _ Ha) as Hlen. destruct (la_n _ _ _ _ Ha) as [HL _].
  intros [Hst Hg|Hst Hlog Hg|Hst Hg].
  - left. intros n Hn. destruct (outside_area n Hn). rewrite recover_empty; [by apply Hg|by rewrite Hst|done].
  - right. intros n Hn. rewrite recover_committed by done. by apply Hg.
  - right. intros n Hn. destruct (outside_area n Hn). rewrite recover_empty; [by apply Hg| |done].
    rewrite Hst. apply (hdr_make_n (hdr_make (f st) bs) []); [by apply hdr_make_length|].
    cbn. unfold LOGSIZE, MAXOPBLOCKS. lia.
Qed.

Lemma crash_header g :
  crash_state g -> length (g st) = Z.to_nat BSIZE /\
  0 <= hdr_n (g st) <= LOGSIZE /\ hdr_n (g st) <= Z.of_nat (length bs) /\
  forall n, n ∈ logged_blocks st g -> n ∈ bs.
Proof.
  pose proof (la_len _ _ _ _ Ha) as Hlen. destruct (la_n _ _ _ _ Ha) as [HL _].
  assert (H30 : 0 <= LOGSIZE) by (unfold LOGSIZE, MAXOPBLOCKS; lia).
  assert (Hempty : hdr_n (g st) = 0 -> forall n, n ∈ logged_blocks st g -> n ∈ bs).
  { intros E n. unfold logged_blocks. rewrite E. intros []%not_elem_of_nil. }
  intros [Hst _|Hst _ _|Hst _].
  - rewrite Hst, H0 in *. split_and!; [done|lia|lia|lia|auto].
  - rewrite Hst, hdr_make_n, hdr_make_length by done. split_and!; [done|lia|lia|lia|].
    intros n. unfold logged_blocks. rewrite Hst, hdr_make_n by done. rewrite fmap_seqZ; [done|].
    intros i b Hi. apply hdr_make_block; [done..|]. apply (la_home _ _ _ _ Ha). by eapply list_elem_of_lookup_2.
  - assert (E : hdr_n (g st) = 0).
    { rewrite Hst. apply (hdr_make_n (hdr_make (f st) bs) []); [by apply hdr_make_length|done]. }
    rewrite E. split_and!; [|lia|lia|lia|auto]. rewrite Hst. apply hdr_make_length; [by apply hdr_make_length|done].
Qed.
End Crash.
