(* ===== verification/LogSpec.v ===== *)
(** * The log through the buffer cache

    What the loops of [Log] do to the blocks: each of them makes the writes
    that [LogDisk] reasons about, in that order. *)
From S2P Require Import Prelude CString Spinlock Layout Dll Blocks Kalloc Vm Proc ProcSpec Quiet.
From S2P Require Import Sleeplock Bio BioSpec Log LogDisk.

(** The cache is in order, with some order of the buffers in the list. *)
Definition bok (b : bst) (me : nat) (held pinned : list Z) : Prop :=
  exists order, bio_ok b me order held pinned.

Lemma bind_lst {A C} (m : M bst A) (k : A -> M lst C) b L a b' :
  m b = Ok a b' -> mbind' (lift m) k (mklst b L) = k a (mklst b' L).
Proof. intros E. exact (bind_lift m k (mklst b L) a b' E). Qed.

Lemma lift_lst {A} (m : M bst A) b L a b' :
  m b = Ok a b' -> lift m (mklst b L) = Ok a (mklst b' L).
Proof. intros E. exact (lift_ok m (mklst b L) a b' E). Qed.

Lemma bind_lst_getb {A C} u (f : buf -> A) (k : A -> M lst C) b L :
  mbind' (lift (getb u f)) k (mklst b L) = k (f (buf_of b u)) (mklst b L).
Proof. done. Qed.

Lemma bind_lst_data {C} u d (k : unit -> M lst C) b L :
  mbind' (lift (updb u (set_bdata d))) k (mklst b L) = k tt (mklst (with_data b u d) L).
Proof. done. Qed.

Lemma bok_perm b me held held' pinned : held ≡ₚ held' -> bok b me held pinned -> bok b me held' pinned.
Proof. intros P [order H]. exists order. by eapply bio_ok_perm. Qed.

Definition blockno_of (b : bst) (u : Z) : Z := b_blockno (buf_of b u).
Definition data_of (b : bst) (u : Z) : list Z := b_data (buf_of b u).

(** A block that is in no buffer in use is on the disk as it is seen. *)
Lemma view_clean b me held pinned n :
  bok b me held pinned -> (forall u, u ∈ held ++ pinned -> blockno_of b u <> n) -> view b n = dblock b n.
Proof.
  intros [order Hb] Hn. destruct (cached_or_not b n) as [[u Hu]|Hno]; [|by apply view_uncached].
  rewrite (view_cached _ _ _ _ _ _ _ Hb Hu). destruct Hu as (H1 & H2 & <- & _).
  apply (bo_clean _ _ _ _ _ Hb); [done| |done]. intros Hin. by apply (Hn u).
Qed.

Lemma used_view b me held pinned u :
  bok b me held pinned -> u ∈ held ++ pinned -> view b (blockno_of b u) = data_of b u.
Proof.
  intros [order Hb] Hu. apply (view_cached _ _ _ _ _ _ _ Hb). by apply (held_caches _ _ _ _ _ _ Hb).
Qed.

Lemma used_inj b me held pinned u w :
  bok b me held pinned -> u ∈ held ++ pinned -> w ∈ held ++ pinned ->
  blockno_of b u = blockno_of b w -> u = w.
Proof.
  intros [order Hb] Hu Hw E. destruct (bo_used _ _ _ _ _ Hb u Hu) as [H1 H2].
  destruct (bo_used _ _ _ _ _ Hb w Hw) as [H3 H4]. by apply (bo_uniq _ _ _ _ _ Hb).
Qed.

(** ** The operations, with the order of the buffers left out *)

Record read_ok (b : bst) (me : nat) (held pinned : list Z) (n u : Z) (b' : bst) : Prop := {
  rd_ok : bok b' me (u :: held) pinned;
  rd_blockno : blockno_of b' u = n;
  rd_data : data_of b' u = view b n;
  rd_view : forall m, view b' m = view b m;
  rd_used : forall w, w ∈ held ++ pinned -> blockno_of b' w = blockno_of b w /\ data_of b' w = data_of b w;
  rd_disk : disk b' = disk b;
  rd_dwrites : dwrites b' = dwrites b;
  rd_woke : woke (bpst b) (bpst b');
}.

Lemma got_read b me order held pinned n u b' :
  got b me order held pinned n u b' -> read_ok b me held pinned n u b'.
Proof.
  intros [G1 G2 G3 G4 G5 G6 G7 G8 G9]. constructor; try done. by exists order.
Qed.

Lemma bread_free fuel b me held pinned n :
  bok b me held pinned -> (length held + length pinned < NBUF)%nat ->
  (forall u, u ∈ held -> blockno_of b u <> n) ->
  exists u b', bread fuel ROOTDEV n b = Ok u b' /\ u ∉ held /\ read_ok b me held pinned n u b'.
Proof.
  intros [order Hb] Hlen Hn. destruct (bread_ok fuel b me order held pinned n Hb Hlen Hn)
    as (u & b' & E & Hu & G). exists u, b'. split_and!; [done|done|]. by eapply got_read.
Qed.

(** A pinned block is always found. *)
Lemma bread_pinned fuel b me held pinned u :
  bok b me held pinned -> u ∈ pinned -> u ∉ held ->
  exists b', bread fuel ROOTDEV (blockno_of b u) b = Ok u b' /\
    read_ok b me held pinned (blockno_of b u) u b'.
Proof.
  intros [order Hb] Hp Hh. assert (Hu : u ∈ held ++ pinned) by set_solver.
  destruct (bo_used _ _ _ _ _ Hb u Hu) as [Hi Hd].
  assert (E : List.find (matches b ROOTDEV (blockno_of b u)) order = Some u).
  { destruct (List.find _ _) as [w|] eqn:E.
    - apply List.find_some in E as [Hin E]. apply list_elem_of_In, (bo_order _ _ _ _ _ Hb) in Hin.
      apply andb_prop in E as [E1%Z.eqb_eq E2%Z.eqb_eq]. f_equal. by apply (bo_uniq _ _ _ _ _ Hb).
    - by destruct (find_no_match _ _ _ _ _ _ _ Hb E Hi Hd). }
  destruct (bread_hit fuel b me order held pinned (blockno_of b u) u Hb) as (b' & E' & _ & G); [|done|].
  - intros w Hw Ew. apply Hh. replace u with w; [done|].
    apply (used_inj b me held pinned); [by exists order|set_solver..|done].
  - exists b'. split; [done|]. by eapply got_read.
Qed.

(** The block a buffer has been read from is written back by [bcopy] and
    [bwrite]. *)
Record wrote (b : bst) (me : nat) (held pinned : list Z) (ws : list (Z * list Z)) (b' : bst) : Prop := {
  wr_ok : bok b' me held pinned;
  wr_dwrites : dwrites b' = dwrites b ++ ws;
  wr_disk : forall m, dblock b' m = after ws (dblock b) m;
  wr_view : forall m, view b' m = after ws (view b) m;
  wr_woke : woke (bpst b) (bpst b');
}.

Lemma wrote_trans b me held pinned ws b1 held' pinned' ws' b2 :
  wrote b me held pinned ws b1 -> wrote b1 me held' pinned' ws' b2 ->
  wrote b me held' pinned' (ws ++ ws') b2.
Proof.
  intros [A1 A2 A3 A4 A5] [B1 B2 B3 B4 B5]. constructor; [done|..].
  - by rewrite B2, A2, app_assoc.
  - intros m. rewrite B3, after_app. by apply after_ext.
  - intros m. rewrite B4, after_app. by apply after_ext.
  - by etrans.
Qed.

Lemma read_wrote b me held pinned n u b' :
  read_ok b me held pinned n u b' -> wrote b me (u :: held) pinned [] b'.
Proof.
  intros [R1 R2 R3 R4 R5 R6 R7 R8]. constructor; try done.
  - by rewrite R7, app_nil_r.
  - intros m. unfold dblock. by rewrite R6.
Qed.

(** A held buffer after [bcopy] into it and [bwrite]. *)
Record copied (b : bst) (me : nat) (held pinned : list Z) (to : Z) (d : list Z) (b' : bst) : Prop := {
  cp_wrote : wrote b me held pinned [(blockno_of b to, d)] b';
  cp_blockno : forall w, blockno_of b' w = blockno_of b w;
  cp_data : forall w, data_of b' w = if decide (w = to) then d else data_of b w;
}.

Lemma copy_write b me held pinned to d :
  bok b me held pinned -> to ∈ held ->
  exists b', bwrite to (with_data b to d) = Ok tt b' /\ copied b me held pinned to d b'.
Proof.
  intros [order Hb] Hto. pose proof (with_data_ok _ _ _ _ _ to d Hb Hto) as Hb1.
  destruct (bwrite_eq _ _ _ _ _ to Hb1 Hto) as (p' & W & E). eexists. split; [exact E|].
  assert (En : b_blockno (buf_of (with_data b to d) to) = blockno_of b to) by (by apply with_data_field).
  assert (Ed : b_data (buf_of (with_data b to d) to) = d) by (by rewrite with_data_buf, decide_True).
  constructor; [constructor|..].
  - exists order. exact (with_disk_ok _ _ _ _ _ _ _ Hb1 Hto W).
  - unfold with_disk; cbn [dwrites]. by rewrite En, Ed.
  - intros m. rewrite dblock_insert, En, Ed. done.
  - intros m. rewrite (with_disk_view _ _ _ _ _ _ _ _ Hb1 Hto), (with_data_view _ _ _ _ _ _ _ _ Hb Hto). done.
  - exact W.
  - intros w. exact (with_data_field b_blockno b to d w (fun _ => eq_refl)).
  - intros w. unfold data_of. change (buf_of (with_disk _ _ _ _)) with (buf_of (with_data b to d)).
    rewrite with_data_buf. by destruct (decide (w = to)) as [->|].
Qed.

(** [brelse] of a buffer that is pinned or agrees with the disk. *)
Record let_go (b : bst) (me : nat) (held pinned : list Z) (b' : bst) : Prop := {
  fr_wrote : wrote b me held pinned [] b';
  fr_disk : disk b' = disk b;
  fr_blockno : forall w, blockno_of b' w = blockno_of b w;
  fr_data : forall w, data_of b' w = data_of b w;
}.

Lemma brelse_free b me held pinned u :
  bok b me (u :: held) pinned -> (u ∈ pinned \/ data_of b u = dblock b (blockno_of b u)) ->
  exists b', brelse u b = Ok tt b' /\ let_go b me held pinned b'.
Proof.
  intros [order Hb] Hc. destruct (brelse_any b me order u held pinned Hb) as (b' & order' & E & [R1 R2 R3 R4 R5 R6]).
  { intros Hn. destruct Hc as [Hc|Hc]; [done|exact Hc]. }
  exists b'. split; [done|]. constructor; [constructor|..].
  - by exists order'.
  - by rewrite R5, app_nil_r.
  - intros m. unfold dblock. by rewrite R4.
  - exact R2.
  - exact R6.
  - exact R4.
  - intros w. apply R3.
  - intros w. apply R3.
Qed.

Lemma after_cons n d f m : after [(n, d)] f m = if decide (m = n) then d else f m.
Proof. done. Qed.

(** One round of [write_log]: the pinned buffer [u] goes to the log block [n]. *)
Lemma write_log_step fuel b me pinned u n :
  bok b me [] pinned -> (length pinned < NBUF)%nat -> u ∈ pinned ->
  (forall w, w ∈ pinned -> blockno_of b w <> n) ->
  exists to b1 b2 b3 b4 b5,
    bread fuel ROOTDEV n b = Ok to b1 /\
    bread fuel ROOTDEV (blockno_of b u) b1 = Ok u b2 /\
    bcopy to u b2 = Ok tt (with_data b2 to (data_of b u)) /\
    bwrite to (with_data b2 to (data_of b u)) = Ok tt b3 /\
    brelse u b3 = Ok tt b4 /\ brelse to b4 = Ok tt b5 /\
    wrote b me [] pinned [(n, data_of b u)] b5 /\
    (forall w, w ∈ pinned -> blockno_of b5 w = blockno_of b w /\ data_of b5 w = data_of b w).
Proof.
  intros Hb Hlen Hu Hn.
  destruct (bread_free fuel b me [] pinned n Hb Hlen ltac:(intros ? []%not_elem_of_nil))
    as (to & b1 & E1 & _ & R1).
  assert (Hto : to ∉ pinned).
  { intros Hin. apply (Hn to Hin). rewrite <- (rd_blockno _ _ _ _ _ _ _ R1). symmetry. by apply R1. }
  assert (Eu1 : blockno_of b1 u = blockno_of b u) by (by apply R1).
  destruct (bread_pinned fuel b1 me [to] pinned u (rd_ok _ _ _ _ _ _ _ R1) Hu ltac:(set_solver))
    as (b2 & E2 & R2). rewrite Eu1 in E2, R2.
  assert (Ed : data_of b2 u = data_of b u).
  { rewrite (rd_data _ _ _ _ _ _ _ R2), (rd_view _ _ _ _ _ _ _ R1). apply (used_view _ _ _ _ _ Hb). done. }
  assert (Ent : blockno_of b2 to = n).
  { rewrite <- (rd_blockno _ _ _ _ _ _ _ R1). apply R2. set_solver. }
  destruct (copy_write b2 me [u; to] pinned to (data_of b u) (rd_ok _ _ _ _ _ _ _ R2) ltac:(set_solver))
    as (b3 & E3 & [W3 N3 D3]). rewrite Ent in W3.
  destruct (brelse_free b3 me [to] pinned u (wr_ok _ _ _ _ _ _ W3) (or_introl Hu)) as (b4 & E4 & [W4 K4 N4 D4]).
  destruct (brelse_free b4 me [] pinned to (wr_ok _ _ _ _ _ _ W4)) as (b5 & E5 & [W5 K5 N5 D5]).
  { right. rewrite D4, D3, decide_True, N4, N3, Ent by done.
    rewrite (wr_disk _ _ _ _ _ _ W4). cbn [after]. rewrite (wr_disk _ _ _ _ _ _ W3), after_cons.
    by rewrite decide_True. }
  exists to, b1, b2, b3, b4, b5. split_and!; try done.
  - unfold bcopy. rewrite bind_getb. fold (data_of b2 u). rewrite Ed. done.
  - exact (wrote_trans _ _ _ _ _ _ _ _ _ _ (read_wrote _ _ _ _ _ _ _ R1)
      (wrote_trans _ _ _ _ _ _ _ _ _ _ (read_wrote _ _ _ _ _ _ _ R2)
      (wrote_trans _ _ _ _ _ _ _ _ _ _ W3 (wrote_trans _ _ _ _ _ _ _ _ _ _ W4 W5)))).
  - intros w Hw. rewrite N5, N4, N3, D5, D4, D3, decide_False by (intros ->; done).
    destruct (rd_used _ _ _ _ _ _ _ R2 w) as [-> ->]; [set_solver|].
    by apply R1.
Qed.

(** One round of [install_trans] after a commit. *)
Lemma install_step fuel b me rest u n :
  bok b me [] (u :: rest) -> (length (u :: rest) < NBUF)%nat ->
  (forall w, w ∈ u :: rest -> blockno_of b w <> n) ->
  exists l b1 b2 b3 b4 b5 b6,
    bread fuel ROOTDEV n b = Ok l b1 /\
    bread fuel ROOTDEV (blockno_of b u) b1 = Ok u b2 /\
    bcopy u l b2 = Ok tt (with_data b2 u (view b n)) /\
    bwrite u (with_data b2 u (view b n)) = Ok tt b3 /\
    bunpin u b3 = Ok tt b4 /\ brelse l b4 = Ok tt b5 /\ brelse u b5 = Ok tt b6 /\
    wrote b me [] rest [(blockno_of b u, view b n)] b6 /\
    (forall w, w ∈ rest -> blockno_of b6 w = blockno_of b w /\ data_of b6 w = data_of b w).
Proof.
  intros Hb Hlen Hn.
  destruct (bread_free fuel b me [] (u :: rest) n Hb Hlen ltac:(intros ? []%not_elem_of_nil))
    as (l & b1 & E1 & _ & R1).
  assert (Hl : l ∉ u :: rest).
  { intros Hin. apply (Hn l Hin). rewrite <- (rd_blockno _ _ _ _ _ _ _ R1). symmetry. by apply R1. }
  assert (Eu1 : blockno_of b1 u = blockno_of b u) by (apply R1; set_solver).
  destruct (bread_pinned fuel b1 me [l] (u :: rest) u (rd_ok _ _ _ _ _ _ _ R1)) as (b2 & E2 & R2); [set_solver..|].
  rewrite Eu1 in E2, R2. pose proof (rd_ok _ _ _ _ _ _ _ R2) as Hb2.
  pose proof (rd_used _ _ _ _ _ _ _ R2 l ltac:(set_solver)) as [Nl Dl].
  rewrite (rd_blockno _ _ _ _ _ _ _ R1) in Nl. rewrite (rd_data _ _ _ _ _ _ _ R1) in Dl.
  assert (Hund : u ∉ rest) by (destruct Hb as [o Hbo]; exact (NoDup_cons_1_1 _ _ (bo_pinned _ _ _ _ _ Hbo))).
  destruct (copy_write b2 me [u; l] (u :: rest) u (view b n) Hb2 ltac:(set_solver)) as (b3 & E3 & [W3 N3 D3]).
  rewrite (rd_blockno _ _ _ _ _ _ _ R2) in W3.
  destruct (wr_ok _ _ _ _ _ _ W3) as [o3 Hb3].
  destruct (bunpin_ok b3 me o3 [u; l] rest u Hb3 ltac:(set_solver)) as (b4 & E4 & RP).
  pose proof (rp_woke _ _ _ _ _ _ RP) as P6. destruct RP as [P1 P2 P3 P4 P5 _].
  assert (W4 : wrote b3 me [l; u] rest [] b4).
  { constructor; [|by rewrite P5, app_nil_r|intros m; unfold dblock; by rewrite P4|exact P2|exact P6].
    apply (bok_perm _ _ [u; l]); [apply Permutation_swap|]. by exists o3. }
  assert (Hne : l <> u) by set_solver.
  assert (Kl : view b n = dblock b n) by (eapply view_clean; [exact Hb|exact Hn]).
  assert (Hnu : n <> blockno_of b u) by (intros E; apply (Hn u); [by left|done]).
  assert (D4 : forall m, dblock b4 m = if decide (m = blockno_of b u) then view b n else dblock b m).
  { intros m. rewrite (wr_disk _ _ _ _ _ _ W4). cbn [after]. rewrite (wr_disk _ _ _ _ _ _ W3). cbn. case_decide; [done|].
    unfold dblock. by rewrite (rd_disk _ _ _ _ _ _ _ R2), (rd_disk _ _ _ _ _ _ _ R1). }
  destruct (brelse_free b4 me [u] rest l (wr_ok _ _ _ _ _ _ W4)) as (b5 & E5 & [W5 K5 N5 D5]).
  { right. unfold data_of, blockno_of. destruct (P3 l) as [-> ->]. fold (data_of b3 l) (blockno_of b3 l).
    by rewrite N3, D3, D4, decide_False, Nl, Dl, decide_False. }
  destruct (brelse_free b5 me [] rest u (wr_ok _ _ _ _ _ _ W5)) as (b6 & E6 & [W6 K6 N6 D6]).
  { right. rewrite D5, N5. unfold data_of, blockno_of. destruct (P3 u) as [-> ->].
    fold (data_of b3 u) (blockno_of b3 u). rewrite N3, D3, decide_True, (rd_blockno _ _ _ _ _ _ _ R2) by done.
    unfold dblock. rewrite K5. fold (dblock b4 (blockno_of b u)). by rewrite D4, decide_True. }
  exists l, b1, b2, b3, b4, b5, b6. split_and!; try done.
  - unfold bcopy. rewrite bind_getb. fold (data_of b2 l). rewrite Dl. done.
  - exact (wrote_trans _ _ _ _ _ _ _ _ _ _ (read_wrote _ _ _ _ _ _ _ R1)
      (wrote_trans _ _ _ _ _ _ _ _ _ _ (read_wrote _ _ _ _ _ _ _ R2)
      (wrote_trans _ _ _ _ _ _ _ _ _ _ W3 (wrote_trans _ _ _ _ _ _ _ _ _ _ W4
      (wrote_trans _ _ _ _ _ _ _ _ _ _ W5 W6))))).
  - intros w Hw. rewrite N6, N5, D6, D5. unfold data_of, blockno_of. destruct (P3 w) as [-> ->].
    fold (data_of b3 w) (blockno_of b3 w). rewrite N3, D3, decide_False by (intros ->; done).
    destruct (rd_used _ _ _ _ _ _ _ R2 w) as [-> ->]; [set_solver|]. apply R1. set_solver.
Qed.

(** One round of [install_trans] in recovery: nothing is pinned. *)
Lemma recover_step fuel b me n m :
  bok b me [] [] -> n <> m ->
  exists l u b1 b2 b3 b4 b5,
    bread fuel ROOTDEV n b = Ok l b1 /\ bread fuel ROOTDEV m b1 = Ok u b2 /\
    bcopy u l b2 = Ok tt (with_data b2 u (view b n)) /\
    bwrite u (with_data b2 u (view b n)) = Ok tt b3 /\
    brelse l b3 = Ok tt b4 /\ brelse u b4 = Ok tt b5 /\
    wrote b me [] [] [(m, view b n)] b5.
Proof.
  intros Hb Hnm.
  destruct (bread_free fuel b me [] [] n Hb) as (l & b1 & E1 & _ & R1);
    [cbn; unfold NBUF; lia|intros ? []%not_elem_of_nil|].
  destruct (bread_free fuel b1 me [l] [] m (rd_ok _ _ _ _ _ _ _ R1)) as (u & b2 & E2 & Hu & R2);
    [cbn; unfold NBUF; lia| |].
  { intros w ->%list_elem_of_singleton. by rewrite (rd_blockno _ _ _ _ _ _ _ R1). }
  pose proof (rd_used _ _ _ _ _ _ _ R2 l ltac:(set_solver)) as [Nl Dl].
  rewrite (rd_blockno _ _ _ _ _ _ _ R1) in Nl. rewrite (rd_data _ _ _ _ _ _ _ R1) in Dl.
  destruct (copy_write b2 me [u; l] [] u (view b n) (rd_ok _ _ _ _ _ _ _ R2) ltac:(set_solver))
    as (b3 & E3 & [W3 N3 D3]). rewrite (rd_blockno _ _ _ _ _ _ _ R2) in W3.
  assert (K3 : forall k, dblock b3 k = if decide (k = m) then view b n else dblock b k).
  { intros k. rewrite (wr_disk _ _ _ _ _ _ W3). cbn. case_decide; [done|].
    unfold dblock. by rewrite (rd_disk _ _ _ _ _ _ _ R2), (rd_disk _ _ _ _ _ _ _ R1). }
  assert (Hne : l <> u) by set_solver.
  destruct (brelse_free b3 me [u] [] l) as (b4 & E4 & [W4 K4 N4 D4]).
  { apply (bok_perm _ _ [u; l]); [apply Permutation_swap|apply W3]. }
  { right. rewrite N3, D3, K3, decide_False, Nl, Dl, decide_False by done.
    apply (view_clean _ _ _ _ _ Hb). intros w []%not_elem_of_nil. }
  destruct (brelse_free b4 me [] [] u (wr_ok _ _ _ _ _ _ W4)) as (b5 & E5 & [W5 K5 N5 D5]).
  { right. rewrite D4, N4, N3, D3, decide_True, (rd_blockno _ _ _ _ _ _ _ R2) by done.
    unfold dblock. rewrite K4. fold (dblock b3 m). by rewrite K3, decide_True. }
  exists l, u, b1, b2, b3, b4, b5. split_and!; try done.
  - unfold bcopy. rewrite bind_getb. fold (data_of b2 l). rewrite Dl. done.
  - exact (wrote_trans _ _ _ _ _ _ _ _ _ _ (read_wrote _ _ _ _ _ _ _ R1)
      (wrote_trans _ _ _ _ _ _ _ _ _ _ (read_wrote _ _ _ _ _ _ _ R2)
      (wrote_trans _ _ _ _ _ _ _ _ _ _ W3 (wrote_trans _ _ _ _ _ _ _ _ _ _ W4 W5)))).
Qed.

(** ** The loops *)

(** The in-memory log lists the blocks of the pinned buffers. *)
Record log_lists (b : bst) (L : log) (pinned : list Z) : Prop := {
  ll_dev : l_dev L = ROOTDEV;
  ll_start : 0 <= l_start L /\ l_start L + l_size L < 2 ^ 31;
  ll_n : lh_n L = Z.of_nat (length pinned);
  ll_max : Z.of_nat (length pinned) < LOGSIZE /\ Z.of_nat (length pinned) < l_size L;
  ll_blocks : forall i u, pinned !! i = Some u -> block_at L (Z.of_nat i) = blockno_of b u;
  ll_home : forall u, u ∈ pinned -> home_block (blockno_of b u) /\
    outside (l_start L) (l_size L) (blockno_of b u);
}.

Definition same_blocks (l : list Z) (b b' : bst) : Prop :=
  forall w, w ∈ l -> blockno_of b' w = blockno_of b w /\ data_of b' w = data_of b w.

Lemma same_blocks_trans l b1 b2 b3 : same_blocks l b1 b2 -> same_blocks l b2 b3 -> same_blocks l b1 b3.
Proof. intros H1 H2 w Hw. destruct (H1 w Hw), (H2 w Hw). split; congruence. Qed.

Lemma same_blocks_sub l l' b b' : l' ⊆ l -> same_blocks l b b' -> same_blocks l' b b'.
Proof. intros Hs H w Hw. apply H. set_solver. Qed.

Lemma log_lists_same b b' L pinned : same_blocks pinned b b' -> log_lists b L pinned -> log_lists b' L pinned.
Proof.
  intros H [L1 L2 L3 L4 L5 L6]. constructor; try done.
  - intros i u Hu. rewrite (proj1 (H u (list_elem_of_lookup_2 _ _ _ Hu))). by apply L5.
  - intros u Hu. rewrite (proj1 (H u Hu)). by apply L6.
Qed.

Lemma u32_home x : home_block x -> u32 x = x.
Proof. intros [? ?]. apply u32_small. lia. Qed.

Lemma nbuf_logsize n : Z.of_nat n < LOGSIZE -> (n < NBUF)%nat.
Proof. unfold LOGSIZE, MAXOPBLOCKS, NBUF. lia. Qed.

Lemma log_block_fresh b L pinned i u :
  log_lists b L pinned -> (i < length pinned)%nat -> u ∈ pinned ->
  blockno_of b u <> l_start L + Z.of_nat i + 1.
Proof. intros [L1 L2 L3 L4 L5 L6] Hi Hu E. destruct (L6 u Hu) as [_ Ho]. unfold outside in Ho. lia. Qed.

Lemma log_block_u32 b L pinned i :
  log_lists b L pinned -> (i < length pinned)%nat ->
  u32 (l_start L + Z.of_nat i + 1) = l_start L + Z.of_nat i + 1.
Proof. intros [L1 L2 L3 L4 L5 L6] Hi. apply u32_home. unfold home_block. lia. Qed.

Lemma write_log_loop_spec fuel me L : forall l2 l1 b,
  bok b me [] (l1 ++ l2) -> log_lists b L (l1 ++ l2) ->
  exists b', write_log_loop fuel (length l2) (Z.of_nat (length l1)) (mklst b L) = Ok tt (mklst b' L) /\
    wrote b me [] (l1 ++ l2)
      (area_writes (l_start L + 1 + Z.of_nat (length l1)) (data_of b <$> l2)) b' /\
    same_blocks (l1 ++ l2) b b'.
Proof.
  induction l2 as [|u l2 IH]; intros l1 b Hb HL.
  { exists b. split_and!; [done| |done]. constructor; try done. by rewrite app_nil_r. }
  assert (Hi : (length l1 < length (l1 ++ u :: l2))%nat) by (rewrite length_app; cbn; lia).
  assert (Hu : u ∈ l1 ++ u :: l2) by set_solver.
  assert (Hl : (l1 ++ u :: l2) !! length l1 = Some u) by (apply list_lookup_middle; done).
  destruct (write_log_step fuel b me (l1 ++ u :: l2) u (l_start L + Z.of_nat (length l1) + 1) Hb)
    as (to & b1 & b2 & b3 & b4 & b5 & E1 & E2 & E3 & E4 & E5 & E6 & W & S); [|done| |].
  { apply nbuf_logsize, HL. }
  { intros w Hw. by apply (log_block_fresh _ _ _ _ _ HL). }
  destruct (IH (l1 ++ [u]) b5) as (b' & E & W' & S').
  { rewrite <- app_assoc. apply W. }
  { rewrite <- app_assoc. by apply (log_lists_same b). }
  exists b'. split; [|split].
  - cbn [write_log_loop length]. unfold getl. rewrite bind_gets. cbn [l_log id].
    rewrite (ll_dev _ _ _ HL), (log_block_u32 _ _ _ _ HL Hi), (ll_blocks _ _ _ HL _ _ Hl).
    rewrite (u32_home (blockno_of b u)) by (by apply HL). change (u32 ROOTDEV) with ROOTDEV.
    rewrite (bind_lst _ _ _ _ _ _ E1), (bind_lst _ _ _ _ _ _ E2), (bind_lst _ _ _ _ _ _ E3),
      (bind_lst _ _ _ _ _ _ E4), (bind_lst _ _ _ _ _ _ E5), (bind_lst _ _ _ _ _ _ E6).
    rewrite <- E, length_app. cbn [length]. do 2 f_equal. lia.
  - rewrite <- app_assoc in W'. cbn [app] in W'.
    cbn [fmap list_fmap area_writes].
    replace (l_start L + 1 + Z.of_nat (length l1)) with (l_start L + Z.of_nat (length l1) + 1) by lia.
    apply (wrote_trans _ _ _ _ _ _ _ _ _ _ W).
    replace (l_start L + Z.of_nat (length l1) + 1 + 1)
      with (l_start L + 1 + Z.of_nat (length (l1 ++ [u]))) by (rewrite length_app; cbn; lia).
    replace (data_of b <$> l2) with (data_of b5 <$> l2); [done|].
    apply list_fmap_ext. intros i w Hw. apply S. apply list_elem_of_lookup_2 in Hw. set_solver.
  - rewrite <- app_assoc in S'. by eapply same_blocks_trans.
Qed.

(** The contents of the log blocks from the [t]-th on. *)
Definition log_data (b : bst) (st t : Z) (n : nat) : list (list Z) :=
  (fun i => view b (st + 1 + i)) <$> seqZ t (Z.of_nat n).

Lemma log_data_S b st t n : log_data b st t (S n) = view b (st + 1 + t) :: log_data b st (t + 1) n.
Proof.
  unfold log_data. rewrite (seqZ_cons t) by lia. rewrite fmap_cons. do 2 f_equal. f_equal; lia.
Qed.

Lemma log_data_after b b' st sz m d t n :
  (forall k, view b' k = after [(m, d)] (view b) k) -> outside st sz m -> 0 <= t ->
  t + Z.of_nat n < sz -> log_data b' st t n = log_data b st t n.
Proof.
  intros Hv Hm Ht Hn. apply list_fmap_ext. intros i k [-> Hk]%lookup_seqZ.
  rewrite Hv, after_cons, decide_False; [done|]. unfold outside in Hm. lia.
Qed.

(** The blocks [bs] are the entries of the log from the [t]-th on. *)
Record log_from (L : log) (t : Z) (bs : list Z) : Prop := {
  lf_dev : l_dev L = ROOTDEV;
  lf_start : 0 <= l_start L /\ l_start L + l_size L < 2 ^ 31;
  lf_t : 0 <= t /\ t + Z.of_nat (length bs) < l_size L;
  lf_blocks : forall i n, bs !! i = Some n -> block_at L (t + Z.of_nat i) = n;
  lf_home : forall n, n ∈ bs -> home_block n /\ outside (l_start L) (l_size L) n;
}.

Lemma log_from_cons L t n bs :
  log_from L t (n :: bs) ->
  block_at L t = n /\ home_block n /\ outside (l_start L) (l_size L) n /\
  home_block (l_start L + t + 1) /\ l_start L + t + 1 <> n /\ log_from L (t + 1) bs.
Proof.
  intros [L1 L2 L3 L4 L5]. cbn [length] in L3. destruct (L5 n) as [H1 H2]; [by left|].
  pose proof (L4 0%nat n eq_refl) as E. rewrite Z.add_0_r in E.
  unfold home_block, outside in *. split_and!; try done || lia.
  constructor; [done|done|lia| |].
  - intros i m Hi. replace (t + 1 + Z.of_nat i) with (t + Z.of_nat (S i)) by lia. by apply L4.
  - intros m Hm. apply L5. by right.
Qed.

Lemma install_loop_spec fuel me L : forall l2 t b,
  bok b me [] l2 -> Z.of_nat (length l2) < LOGSIZE -> log_from L t (blockno_of b <$> l2) ->
  exists b', install_loop fuel (length l2) t false (mklst b L) = Ok tt (mklst b' L) /\
    wrote b me [] [] (zip (blockno_of b <$> l2) (log_data b (l_start L) t (length l2))) b'.
Proof.
  induction l2 as [|u l2 IH]; intros t b Hb Hlen HL.
  { exists b. split; [done|]. constructor; try done. by rewrite app_nil_r. }
  rewrite fmap_cons in HL. pose proof (lf_t _ _ _ HL) as Ht. pose proof (lf_dev _ _ _ HL) as Hdev.
  destruct (log_from_cons _ _ _ _ HL) as (Eb & Hh & Ho & Hhl & Hne & HL').
  cbn [length] in Hlen, Ht. rewrite length_fmap in Ht.
  destruct (install_step fuel b me l2 u (l_start L + t + 1) Hb)
    as (l & b1 & b2 & b3 & b4 & b5 & b6 & E1 & E2 & E3 & E4 & E5 & E6 & E7 & W & S).
  { by apply nbuf_logsize. }
  { intros w Hw E. destruct (lf_home _ _ _ HL (blockno_of b w)) as [_ Hx].
    - rewrite <- fmap_cons. by apply list_elem_of_fmap_2.
    - unfold outside in Hx. lia. }
  assert (Ebs : blockno_of b6 <$> l2 = blockno_of b <$> l2).
  { apply list_fmap_ext. intros i w Hw. apply S. by eapply list_elem_of_lookup_2. }
  destruct (IH (t + 1) b6) as (b' & E & W'); [apply W|lia|by rewrite Ebs|].
  exists b'. split.
  - cbn [install_loop length negb]. unfold getl. rewrite bind_gets. cbn [l_log id].
    rewrite Hdev, Eb, (u32_home _ Hh), (u32_home _ Hhl). change (u32 ROOTDEV) with ROOTDEV.
    rewrite (bind_lst _ _ _ _ _ _ E1), (bind_lst _ _ _ _ _ _ E2), (bind_lst _ _ _ _ _ _ E3),
      (bind_lst _ _ _ _ _ _ E4), (bind_lst _ _ _ _ _ _ E5), (bind_lst _ _ _ _ _ _ E6),
      (bind_lst _ _ _ _ _ _ E7). exact E.
  - rewrite fmap_cons. cbn [length]. rewrite log_data_S. cbn [zip zip_with].
    replace (l_start L + 1 + t) with (l_start L + t + 1) by lia.
    apply (wrote_trans _ _ _ _ _ _ _ _ _ _ W). rewrite <- Ebs.
    rewrite (log_data_after b b6 (l_start L) (l_size L) _ _ _ _ (wr_view _ _ _ _ _ _ W) Ho) in W' by lia. done.
Qed.

Lemma recover_loop_spec fuel me L : forall bs t b,
  bok b me [] [] -> log_from L t bs ->
  exists b', install_loop fuel (length bs) t true (mklst b L) = Ok tt (mklst b' L) /\
    wrote b me [] [] (zip bs (log_data b (l_start L) t (length bs))) b'.
Proof.
  induction bs as [|n bs IH]; intros t b Hb HL.
  { exists b. split; [done|]. constructor; try done. by rewrite app_nil_r. }
  pose proof (lf_t _ _ _ HL) as Ht. pose proof (lf_dev _ _ _ HL) as Hdev. cbn [length] in Ht.
  destruct (log_from_cons _ _ _ _ HL) as (Eb & Hh & Ho & Hhl & Hne & HL').
  destruct (recover_step fuel b me (l_start L + t + 1) n Hb Hne)
    as (l & u & b1 & b2 & b3 & b4 & b5 & E1 & E2 & E3 & E4 & E5 & E6 & W).
  destruct (IH (t + 1) b5) as (b' & E & W'); [apply W|done|].
  exists b'. split.
  - cbn [install_loop length negb]. unfold getl. rewrite bind_gets. cbn [l_log id].
    rewrite Hdev, Eb, (u32_home _ Hh), (u32_home _ Hhl). change (u32 ROOTDEV) with ROOTDEV.
    rewrite (bind_lst _ _ _ _ _ _ E1), (bind_lst _ _ _ _ _ _ E2), (bind_lst _ _ _ _ _ _ E3),
      (bind_lst _ _ _ _ _ _ E4), bind_ret, (bind_lst _ _ _ _ _ _ E5), (bind_lst _ _ _ _ _ _ E6). exact E.
  - cbn [length]. rewrite log_data_S. cbn [zip zip_with].
    replace (l_start L + 1 + t) with (l_start L + t + 1) by lia.
    apply (wrote_trans _ _ _ _ _ _ _ _ _ _ W).
    rewrite (log_data_after b b5 (l_start L) (l_size L) _ _ _ _ (wr_view _ _ _ _ _ _ W) Ho) in W' by lia. done.
Qed.

(** ** The header *)

Lemma with_data_twice b u d d' : with_data (with_data b u d) u d' = with_data b u d'.
Proof.
  unfold with_data at 1. rewrite with_data_buf, decide_True by done.
  unfold with_data; cbn. by rewrite insert_insert_eq.
Qed.

Lemma with_data_data b u d : data_of (with_data b u d) u = d.
Proof. unfold data_of. by rewrite with_data_buf, decide_True. Qed.

Lemma write_head_loop_spec L b u : forall bs i d,
  (forall j n, bs !! j = Some n -> block_at L (i + Z.of_nat j) = n) ->
  write_head_loop (length bs) i u (mklst (with_data b u d) L) =
  Ok tt (mklst (with_data b u (hdr_fill i bs d)) L).
Proof.
  induction bs as [|n bs IH]; intros i d Hb; [done|]. cbn [write_head_loop length hdr_fill].
  unfold getl. rewrite bind_gets. cbn [l_log].
  pose proof (Hb 0%nat n eq_refl) as E. rewrite Z.add_0_r in E. rewrite E.
  rewrite bind_lst_getb. fold (data_of (with_data b u d) u). rewrite with_data_data, bind_lst_data.
  rewrite with_data_twice. apply IH. intros j m Hj.
  replace (i + 1 + Z.of_nat j) with (i + Z.of_nat (S j)) by lia. by apply Hb.
Qed.

Record head_ok (L : log) (bs : list Z) : Prop := {
  ho_dev : l_dev L = ROOTDEV;
  ho_start : home_block (l_start L);
  ho_n : lh_n L = Z.of_nat (length bs);
  ho_blocks : forall j n, bs !! j = Some n -> block_at L (Z.of_nat j) = n;
}.

Lemma write_head_spec fuel me b L pinned bs :
  bok b me [] pinned -> (length pinned < NBUF)%nat ->
  (forall w, w ∈ pinned -> blockno_of b w <> l_start L) -> head_ok L bs ->
  exists b', write_head fuel (mklst b L) = Ok tt (mklst b' L) /\
    wrote b me [] pinned [(l_start L, hdr_make (view b (l_start L)) bs)] b' /\ same_blocks pinned b b'.
Proof.
  intros Hb Hlen Hst [L1 L2 L3 L4].
  destruct (bread_free fuel b me [] pinned (l_start L) Hb Hlen ltac:(intros ? []%not_elem_of_nil))
    as (u & b1 & E1 & _ & R1). pose proof (rd_ok _ _ _ _ _ _ _ R1) as Hb1.
  assert (Hu : u ∉ pinned).
  { intros Hin. apply (Hst u Hin). rewrite <- (rd_blockno _ _ _ _ _ _ _ R1). symmetry. by apply R1. }
  set (d := hdr_make (view b (l_start L)) bs).
  destruct (copy_write b1 me [u] pinned u d Hb1 ltac:(set_solver)) as (b2 & E2 & [W2 N2 D2]).
  rewrite (rd_blockno _ _ _ _ _ _ _ R1) in W2.
  destruct (brelse_free b2 me [] pinned u (wr_ok _ _ _ _ _ _ W2)) as (b3 & E3 & [W3 K3 N3 D3]).
  { right. rewrite D2, N2, decide_True, (rd_blockno _ _ _ _ _ _ _ R1), (wr_disk _ _ _ _ _ _ W2) by done.
    rewrite after_cons. by rewrite decide_True. }
  exists b3. split_and!.
  - unfold write_head, getl. rewrite bind_gets. cbn [l_log id]. rewrite L1, (u32_home _ L2), L3.
    change (u32 ROOTDEV) with ROOTDEV. rewrite (bind_lst _ _ _ _ _ _ E1).
    rewrite bind_lst_getb. fold (data_of b1 u). rewrite (rd_data _ _ _ _ _ _ _ R1), bind_lst_data.
    rewrite Nat2Z.id, (bind_ok _ _ _ _ _ (write_head_loop_spec L b1 u bs 0 _ L4)).
    rewrite (bind_lst _ _ _ _ _ _ E2). exact (lift_lst _ _ _ _ _ E3).
  - exact (wrote_trans _ _ _ _ _ _ _ _ _ _ (read_wrote _ _ _ _ _ _ _ R1)
      (wrote_trans _ _ _ _ _ _ _ _ _ _ W2 W3)).
  - intros w Hw. rewrite N3, N2, D3, D2, decide_False by (intros ->; done). by apply R1.
Qed.

Lemma read_head_loop_spec b d : forall k i L,
  exists L', read_head_loop k i d (mklst b L) = Ok tt (mklst b L') /\
    L' = mklog (l_start L) (l_size L) (l_outstanding L) (l_committing L) (l_dev L) (lh_n L) (lh_block L') /\
    (forall j, j < i -> block_at L' j = block_at L j) /\
    (forall j, (j < k)%nat -> block_at L' (i + Z.of_nat j) = hdr_block d (i + Z.of_nat j)).
Proof.
  induction k as [|k IH]; intros i L.
  { exists L. split_and!; [done|by destruct L|done|lia]. }
  cbn [read_head_loop]. unfold updl. rewrite bind_modify. cbn [l_b l_log].
  destruct (IH (i + 1) (set_block i (hdr_block d i) L)) as (L' & E & EL & H1 & H2).
  exists L'. split_and!; [exact E|exact EL| |].
  - intros j Hj. rewrite H1 by lia. unfold block_at; cbn. by rewrite lookup_insert_ne by lia.
  - intros j Hj. destruct j as [|j].
    + rewrite Z.add_0_r, H1 by lia. unfold block_at; cbn. by rewrite lookup_insert_eq.
    + replace (i + Z.of_nat (S j)) with (i + 1 + Z.of_nat j) by lia. apply H2. lia.
Qed.
