(* ===== verification/LogOps.v ===== *)
(** * Logging a block

    [begin_op], [log_write] and the read-modify-log-release cycle with which
    the file system changes a block. *)
From S2P Require Import Prelude CString Spinlock Layout Dll Blocks Kalloc Vm Proc ProcSpec Quiet.
From S2P Require Import Sleeplock Bio BioSpec BioInit Log LogDisk LogSpec.

(** A process in a transaction: the buffers it holds, and those the log has. *)
Record log_ok (s : lst) (me : nat) (held pinned : list Z) : Prop := {
  lo_bio : bok (l_b s) me held pinned;
  lo_lock : lock_free log_lock (hart_of (bpst (l_b s)));
  lo_lists : log_lists (l_b s) (l_log s) pinned;
  lo_size : l_size (l_log s) <= LOGSIZE;
}.

Lemma bind_lst_hart {A C} (m : M hart A) (k : A -> M lst C) p sl B D W L a h' :
  m (hart_of p) = Ok a h' ->
  mbind' (lift m) k (mklst (mkbst (mkslst p sl) B D W) L) =
  k a (mklst (mkbst (mkslst (with_hart h' p) sl) B D W) L).
Proof. intros E. exact (bind_lift m k (mklst (mkbst (mkslst p sl) B D W) L) a h' E). Qed.

(** [b] with another hart state. *)
Definition on_hart (b : bst) (h : hart) : bst :=
  mkbst (mkslst (with_hart h (bpst b)) (slocks (b_sl b))) (bufs b) (disk b) (dwrites b).

Lemma bind_log_enter {C} (k : unit -> M lst C) b L :
  lock_free log_lock (hart_of (bpst b)) ->
  mbind' (lift (acquire log_lock)) k (mklst b L) =
  k tt (mklst (on_hart b (acquired log_lock (hart_of (bpst b)))) L).
Proof. intros Hl. destruct b as [[p sl] B D W]. apply bind_lst_hart. exact (acquire_eq _ _ Hl). Qed.

Lemma log_leave b h L :
  hart_of (bpst b) = acquired log_lock h -> hart_ok h -> lock_free log_lock h ->
  lift (release log_lock) (mklst b L) = Ok tt (mklst (on_hart b (settle h)) L).
Proof.
  intros Hh Hok Hl. destruct b as [[p sl] B D W].
  assert (E : release log_lock (hart_of p) = Ok tt (settle h)).
  { change (hart_of p) with (hart_of (bpst (mkbst (mkslst p sl) B D W))). rewrite Hh. by apply release_acquired. }
  exact (lift_ok (release log_lock) (mklst (mkbst (mkslst p sl) B D W) L) tt (settle h) E).
Qed.

Lemma bio_ok_hart b h me order held pinned :
  bio_ok b me order held pinned -> proc_quiet (with_hart h (bpst b)) me ->
  lock_free bcache_lock h -> (forall u, is_buf u -> lock_free (slock_spin (buf_lock u)) h) ->
  bio_ok (on_hart b h) me order held pinned.
Proof. intros [H1 H2 H3 H4 H5 H6 H7 H8 H9 H10 H11 H12 H13] Hq Hc Hs. by constructor. Qed.

Lemma log_lock_plain : plain_lock log_lock.
Proof. intros i. discriminate. Qed.

(** Inside the critical section of the log the cache can be used. *)
Lemma bok_log_enter b me held pinned :
  bok b me held pinned -> bok (on_hart b (acquired log_lock (hart_of (bpst b)))) me held pinned.
Proof.
  intros [order Hb]. exists order. apply bio_ok_hart; [done|..].
  - eapply inside_quiet; [exact log_lock_plain|apply Hb|apply inside_enter].
  - apply lock_free_acquired; [discriminate|apply Hb].
  - intros u Hu. apply lock_free_acquired; [discriminate|by apply Hb].
Qed.

Lemma on_hart_view b h n : view (on_hart b h) n = view b n.
Proof. done. Qed.

(** The search for a block in the log. *)
Lemma log_find_spec L n : forall k i,
  (exists j, i <= j < i + Z.of_nat k /\ log_find k i n L = j /\ u32 (block_at L j) = n) \/
  (log_find k i n L = i + Z.of_nat k /\
   forall j, i <= j < i + Z.of_nat k -> u32 (block_at L j) <> n).
Proof.
  induction k as [|k IH]; intros i; cbn [log_find].
  { right. split; [lia|]. intros j Hj. lia. }
  destruct (Z.eqb_spec (u32 (block_at L i)) n) as [E|E].
  - left. exists i. split_and!; [lia|lia|done|done].
  - destruct (IH (i + 1)) as [(j & Hj & Ej & Hn)|[Ej Hn]].
    + left. exists j. split_and!; [lia|lia|done|done].
    + right. split; [lia|]. intros j Hj. destruct (decide (j = i)) as [->|]; [done|]. apply Hn. lia.
Qed.

Lemma log_find_pinned b L me held pinned u :
  bok b me held pinned -> log_lists b L pinned -> u ∈ held -> home_block (blockno_of b u) ->
  (u ∈ pinned /\ exists i, pinned !! i = Some u /\
     log_find (length pinned) 0 (blockno_of b u) L = Z.of_nat i) \/
  (u ∉ pinned /\ log_find (length pinned) 0 (blockno_of b u) L = Z.of_nat (length pinned)).
Proof.
  intros Hb HL Hu Hh. destruct (log_find_spec L (blockno_of b u) (length pinned) 0) as [(j & Hj & E & Hn)|[E Hn]].
  - left. destruct (lookup_lt_is_Some_2 pinned (Z.to_nat j)) as [w Hw]; [lia|].
    pose proof (ll_blocks _ _ _ HL _ _ Hw) as Hbl. rewrite Z2Nat.id in Hbl by lia.
    apply list_elem_of_lookup_2 in Hw as Hin. rewrite Hbl, u32_home in Hn by (by apply HL).
    assert (w = u) as -> by (apply (used_inj b me held pinned); [done|set_solver|set_solver|done]).
    split; [done|]. exists (Z.to_nat j). split; [done|]. lia.
  - right. split; [|lia]. intros [i Hi]%list_elem_of_lookup. pose proof (lookup_lt_Some _ _ _ Hi).
    apply (Hn (Z.of_nat i)); [lia|]. rewrite (ll_blocks _ _ _ HL _ _ Hi). by apply u32_home.
Qed.

(** The buffers the log has after [log_write] of [u]. *)
Definition pin_one (u : Z) (pinned : list Z) : list Z :=
  if decide (u ∈ pinned) then pinned else pinned ++ [u].

Record logged (s : lst) (me : nat) (held pinned : list Z) (s' : lst) : Prop := {
  lg_ok : log_ok s' me held pinned;
  lg_view : forall n, view (l_b s') n = view (l_b s) n;
  lg_fields : forall w, blockno_of (l_b s') w = blockno_of (l_b s) w /\
    data_of (l_b s') w = data_of (l_b s) w;
  lg_disk : disk (l_b s') = disk (l_b s);
  lg_dwrites : dwrites (l_b s') = dwrites (l_b s);
  lg_log : exists n B, l_log s' = mklog (l_start (l_log s)) (l_size (l_log s)) (l_outstanding (l_log s))
    (l_committing (l_log s)) (l_dev (l_log s)) n B;
  lg_woke : woke (bpst (l_b s)) (bpst (l_b s'));
}.

Lemma s32_home x : home_block x -> s32 x = x.
Proof. intros [? ?]. apply s32_small. lia. Qed.

Lemma set_block_at L i x j : block_at (set_block i x L) j = if decide (j = i) then x else block_at L j.
Proof.
  unfold block_at; cbn. destruct (decide (j = i)) as [->|]; [by rewrite lookup_insert_eq|].
  by rewrite lookup_insert_ne.
Qed.

Lemma bok_log_leave b me held pinned h :
  bok b me held pinned -> hart_of (bpst b) = acquired log_lock h -> hart_ok h ->
  lock_free log_lock h ->
  (forall l, lock_free l (acquired log_lock h) -> lock_free l h) ->
  c_proc (this_cpu h) = Some me ->
  bok (on_hart b (settle h)) me held pinned.
Proof.
  intros [order Hb] Hh Hok Hl Hfr Hc. exists order. apply bio_ok_hart; [done|..].
  - pose proof (bo_quiet _ _ _ _ _ Hb) as [_ _ Q3]. constructor; autorewrite with mdb.
    + split; [rewrite this_cpu_settle; apply Hok|]. rewrite this_cpu_settle. apply Hok.
    + by rewrite this_cpu_settle.
    + intros i Hi. specialize (Q3 i Hi). rewrite Hh in Q3. exact (Hfr _ Q3).
  - pose proof (bo_bcache _ _ _ _ _ Hb) as Q. rewrite Hh in Q. exact (Hfr _ Q).
  - intros u Hu. pose proof (bo_spin _ _ _ _ _ Hb u Hu) as Q. rewrite Hh in Q. exact (Hfr _ Q).
Qed.

Lemma free_acquired_inv l l' h : lock_free l' h -> lock_free l (acquired l' h) -> lock_free l h.
Proof.
  intros Hl' [n H]. destruct (decide (l = l')) as [->|Hne]; [done|]. exists n.
  unfold acquired, take_lock, set_locks in H; cbn in H. by rewrite lookup_insert_ne in H.
Qed.

Section LogWrite.
Context (b : bst) (L : log) (me : nat) (held pinned : list Z) (u : Z)
  (Hs : log_ok (mklst b L) me held pinned) (Hu : u ∈ held)
  (Hh : home_block (blockno_of b u)) (Ho : outside (l_start L) (l_size L) (blockno_of b u))
  (Hroom : Z.of_nat (length pinned) < l_size L - 1).

Let h := hart_of (bpst b).
Let b1 := on_hart b (acquired log_lock h).

Lemma log_hart_ok : hart_ok h.
Proof. destruct (lo_bio _ _ _ _ Hs) as [o Hb]. apply (bo_quiet _ _ _ _ _ Hb). Qed.

(** Leaving the critical section with the buffers of [b2]. *)
Lemma log_write_leave b2 L2 pinned2 :
  bok b2 me held pinned2 -> bpst b2 = bpst b1 ->
  (forall n, view b2 n = view b n) ->
  (forall w, blockno_of b2 w = blockno_of b w /\ data_of b2 w = data_of b w) ->
  disk b2 = disk b -> dwrites b2 = dwrites b -> log_lists b2 L2 pinned2 ->
  (exists n B, L2 = mklog (l_start L) (l_size L) (l_outstanding L) (l_committing L) (l_dev L) n B) ->
  exists s', lift (release log_lock) (mklst b2 L2) = Ok tt s' /\
    logged (mklst b L) me held pinned2 s'.
Proof.
  intros Hb2 Hp Hv Hf Hd Hw HL2 (n & B & EL).
  assert (Hh2 : hart_of (bpst b2) = acquired log_lock h) by (by rewrite Hp).
  pose proof (lo_lock _ _ _ _ Hs) as Hl. cbn [l_b] in Hl. fold h in Hl.
  eexists. split; [apply log_leave; [exact Hh2|exact log_hart_ok|exact Hl]|].
  constructor; [constructor|..]; cbn [l_b l_log].
  - apply bok_log_leave; [done..|exact log_hart_ok|exact Hl| |].
    + intros l. by apply free_acquired_inv.
    + destruct (lo_bio _ _ _ _ Hs) as [o Hb]. apply (bo_quiet _ _ _ _ _ Hb).
  - exact Hl.
  - apply (log_lists_same b2); [intros w _; split; reflexivity|exact HL2].
  - rewrite EL. apply (lo_size _ _ _ _ Hs).
  - exact Hv.
  - exact Hf.
  - exact Hd.
  - exact Hw.
  - by exists n, B.
  - unfold on_hart, bpst; cbn [b_sl sl_pst]. change (sl_pst (b_sl b2)) with (bpst b2). rewrite Hp.
    exact (woke_settle (bpst b)).
Qed.

Lemma log_write_ok :
  1 <= l_outstanding L ->
  exists s', log_write u (mklst b L) = Ok tt s' /\ logged (mklst b L) me held (pin_one u pinned) s'.
Proof.
  intros Hout. pose proof (lo_bio _ _ _ _ Hs) as Hb. pose proof (lo_lists _ _ _ _ Hs) as HL.
  pose proof (lo_size _ _ _ _ Hs) as Hsz. cbn [l_b l_log] in *. unfold log_write.
  rewrite (bind_log_enter _ _ _ (lo_lock _ _ _ _ Hs)). cbn [l_b]. fold h b1. unfold getl. rewrite bind_gets.
  cbn [l_log id]. rewrite (ll_n _ _ _ HL).
  destruct (Z.leb_spec LOGSIZE (Z.of_nat (length pinned))); [lia|].
  destruct (Z.leb_spec (l_size L - 1) (Z.of_nat (length pinned))); [lia|]. cbn [orb].
  destruct (Z.ltb_spec (l_outstanding L) 1); [lia|]. rewrite bind_lst_getb, Nat2Z.id.
  change (b_blockno (buf_of b1 u)) with (blockno_of b u). unfold updl. rewrite bind_modify. cbn [l_b l_log].
  rewrite (s32_home _ Hh). pose proof (bok_log_enter _ _ _ _ Hb) as Hb1. fold h b1 in Hb1.
  unfold pin_one. destruct (log_find_pinned b L me held pinned u Hb HL Hu Hh) as [(Hin & i & Hi & ->)|(Hout' & ->)].
  - rewrite decide_True by done. pose proof (lookup_lt_Some _ _ _ Hi).
    destruct (Z.eqb_spec (Z.of_nat i) (Z.of_nat (length pinned))); [lia|]. rewrite bind_ret.
    apply log_write_leave; try done; [|by eexists _, _]. destruct HL as [L1 L2 L3 L4 L5 L6].
    constructor; try done. intros j w Hj. rewrite set_block_at. case_decide as Hji; [|by apply L5].
    assert (j = i) as -> by lia. change (blockno_of b1 w) with (blockno_of b w). congruence.
  - rewrite decide_False, Z.eqb_refl by done. destruct Hb1 as [o Hb1].
    destruct (bpin_ok b1 me o held pinned u Hb1 Hu Hout') as (b2 & E & [P1 P2 P3 P4 P5 P6]).
    rewrite bind_assoc, (bind_lst _ _ _ _ _ _ E), bind_modify. cbn [l_b l_log].
    apply log_write_leave; [by exists o| |exact P2|exact P3|exact P4|exact P5| |by eexists _, _].
    + rewrite P6. unfold b1, on_hart, bpst; cbn [b_sl sl_pst]. autorewrite with mdb.
      rewrite settle_acquired by exact log_hart_ok. done.
    + destruct HL as [L1 L2 L3 L4 L5 L6].
      assert (Hbn : forall w, blockno_of b2 w = blockno_of b w) by (intros w; apply P3).
      constructor; cbn [set_lhn set_block l_dev l_start l_size lh_n]; [done|done|..].
      * rewrite length_app. cbn. lia.
      * rewrite length_app. cbn. lia.
      * intros j w Hj. rewrite Hbn. change (block_at (set_lhn ?x ?l)) with (block_at l).
        rewrite set_block_at. apply lookup_app_Some in Hj as [Hj|[Hj Hw]].
        -- pose proof (lookup_lt_Some _ _ _ Hj). rewrite decide_False by lia. by apply L5.
        -- apply list_lookup_singleton_Some in Hw as [Hj0 <-]. rewrite decide_True by lia. done.
      * intros w [Hw| ->%list_elem_of_singleton]%elem_of_app; rewrite Hbn; [by apply L6|done].
Qed.
End LogWrite.

(** ** Reading and changing a block *)

(** [s'] comes from [s] by logged changes that make the blocks [v]. *)
Record changed (s : lst) (me : nat) (held pinned : list Z) (v : blocks) (s' : lst) : Prop := {
  ch_ok : log_ok s' me held pinned;
  ch_view : forall n, view (l_b s') n = v n;
  ch_held : forall w, w ∈ held -> blockno_of (l_b s') w = blockno_of (l_b s) w;
  ch_disk : disk (l_b s') = disk (l_b s);
  ch_dwrites : dwrites (l_b s') = dwrites (l_b s);
  ch_log : exists n B, l_log s' = mklog (l_start (l_log s)) (l_size (l_log s)) (l_outstanding (l_log s))
    (l_committing (l_log s)) (l_dev (l_log s)) n B;
  ch_woke : woke (bpst (l_b s)) (bpst (l_b s'));
}.

Lemma changed_trans s me held pinned v s1 held' pinned' v' s2 :
  changed s me held pinned v s1 -> changed s1 me held' pinned' v' s2 -> held' ⊆ held ->
  changed s me held' pinned' v' s2.
Proof.
  intros [A1 A2 A3 A4 A5 (na & Ba & A6) A7] [B1 B2 B3 B4 B5 (nb & Bb & B6) B7] Hsub.
  constructor; [done|done|..].
  - intros w Hw. rewrite B3 by done. apply A3. by apply Hsub.
  - congruence.
  - congruence.
  - exists nb, Bb. by rewrite B6, A6.
  - by etrans.
Qed.

(** What a client needs to use block [n] of the file system. *)
Record usable (s : lst) (held pinned : list Z) (n : Z) : Prop := {
  us_home : home_block n;
  us_outside : outside (l_start (l_log s)) (l_size (l_log s)) n;
  us_new : forall w, w ∈ held -> blockno_of (l_b s) w <> n;
  us_room : (length held + length pinned < NBUF)%nat;
}.

Lemma log_lists_read b L me held pinned n u b' :
  read_ok b me held pinned n u b' -> log_lists b L pinned -> log_lists b' L pinned.
Proof.
  intros R. apply log_lists_same. intros w Hw. apply (rd_used _ _ _ _ _ _ _ R). set_solver.
Qed.

Lemma get_block fuel s me held pinned n :
  log_ok s me held pinned -> usable s held pinned n ->
  exists u b', bread fuel ROOTDEV n (l_b s) = Ok u b' /\ u ∉ held /\
    read_ok (l_b s) me held pinned n u b' /\ log_ok (mklst b' (l_log s)) me (u :: held) pinned.
Proof.
  intros [S1 S2 S3 S4] [U1 U2 U3 U4].
  destruct (bread_free fuel (l_b s) me held pinned n S1 U4 U3) as (u & b' & E & Hu & R).
  exists u, b'. split_and!; [done|done|done|]. constructor; [apply R| |by eapply log_lists_read|done].
  exact (woke_free _ _ _ (rd_woke _ _ _ _ _ _ _ R) S2).
Qed.

Lemma drop_block s me held pinned u :
  log_ok s me (u :: held) pinned ->
  u ∈ pinned \/ data_of (l_b s) u = dblock (l_b s) (blockno_of (l_b s) u) ->
  exists b', brelse u (l_b s) = Ok tt b' /\
    changed s me held pinned (view (l_b s)) (mklst b' (l_log s)).
Proof.
  intros [S1 S2 S3 S4] Hc. destruct (brelse_free _ _ _ _ _ S1 Hc) as (b' & E & [W F1 F2 F3]).
  exists b'. split; [done|]. constructor; cbn [l_b l_log].
  - constructor; [apply W| | |done].
    + exact (woke_free _ _ _ (wr_woke _ _ _ _ _ _ W) S2).
    + apply (log_lists_same (l_b s)); [|done]. intros w _. by rewrite F2, F3.
  - exact (wr_view _ _ _ _ _ _ W).
  - intros w _. apply F2.
  - exact F1.
  - rewrite (wr_dwrites _ _ _ _ _ _ W). apply app_nil_r.
  - destruct (l_log s). by eexists _, _.
  - apply W.
Qed.

(** Reading a block and releasing it changes nothing. *)
Lemma drop_unchanged s me held pinned n u b' :
  log_ok s me held pinned -> usable s held pinned n -> read_ok (l_b s) me held pinned n u b' ->
  log_ok (mklst b' (l_log s)) me (u :: held) pinned ->
  exists b2, brelse u b' = Ok tt b2 /\ changed s me held pinned (view (l_b s)) (mklst b2 (l_log s)).
Proof.
  intros Hs Hu R H1. destruct (drop_block _ _ _ _ u H1) as (b2 & E & [C1 C2 C3 C4 C5 C6 C7]); cbn [l_b l_log] in *.
  { destruct (decide (u ∈ pinned)) as [Hin|Hout]; [by left|right].
    rewrite (rd_data _ _ _ _ _ _ _ R), (rd_blockno _ _ _ _ _ _ _ R).
    transitivity (dblock (l_b s) n); [|unfold dblock; by rewrite (rd_disk _ _ _ _ _ _ _ R)].
    apply (view_clean _ _ _ _ _ (lo_bio _ _ _ _ Hs)).
    intros w [Hw|Hw]%elem_of_app E'; [by apply (us_new _ _ _ _ Hu w)|].
    apply Hout. replace u with w; [done|]. apply (used_inj b' me (u :: held) pinned); [apply R|set_solver..|].
    rewrite (rd_blockno _ _ _ _ _ _ _ R), <- E'. apply R. set_solver. }
  exists b2. split; [done|]. constructor; cbn [l_b l_log]; [done|..|done|].
  - intros m. by rewrite C2, (rd_view _ _ _ _ _ _ _ R).
  - intros w Hw. rewrite C3 by done. apply R. set_solver.
  - by rewrite C4, (rd_disk _ _ _ _ _ _ _ R).
  - by rewrite C5, (rd_dwrites _ _ _ _ _ _ _ R).
  - etrans; [apply R|done].
Qed.

Lemma pin_one_length u pinned : (length (pin_one u pinned) <= S (length pinned))%nat.
Proof. unfold pin_one. case_decide; [lia|]. rewrite length_app. cbn. lia. Qed.

Lemma pin_one_elem u pinned : u ∈ pin_one u pinned.
Proof. unfold pin_one. case_decide; set_solver. Qed.

Definition upd_block (v : blocks) (n : Z) (d : list Z) : blocks := fun m => if decide (m = n) then d else v m.

(** The held buffer of block [n] gets the contents [d] and is logged. *)
Lemma log_block b L me held pinned u d :
  log_ok (mklst b L) me held pinned -> u ∈ held -> home_block (blockno_of b u) ->
  outside (l_start L) (l_size L) (blockno_of b u) -> Z.of_nat (length pinned) < l_size L - 1 ->
  1 <= l_outstanding L ->
  exists s', log_write u (mklst (with_data b u d) L) = Ok tt s' /\
    changed (mklst b L) me held (pin_one u pinned) (upd_block (view b) (blockno_of b u) d) s'.
Proof.
  intros [S1 S2 S3 S4] Hu Hh Ho Hr Hout. cbn [l_b l_log] in *. destruct S1 as [o S1].
  assert (Hn : forall w, blockno_of (with_data b u d) w = blockno_of b w)
    by (intros w; exact (with_data_field b_blockno b u d w (fun _ => eq_refl))).
  destruct (log_write_ok (with_data b u d) L me held pinned u) as (s' & E & [G1 G2 G3 G4 G5 G6 G7]);
    [|done|by rewrite Hn|by rewrite Hn|done|done|].
  { constructor; cbn [l_b l_log]; [exists o; by apply with_data_ok|exact S2| |done].
    destruct S3 as [L1 L2 L3 L4 L5 L6]. constructor; try done.
    - intros i w Hw. rewrite Hn. by apply L5.
    - intros w Hw. rewrite Hn. by apply L6. }
  exists s'. split; [done|]. constructor; try done; cbn [l_b l_log] in *.
  - intros n. rewrite G2. exact (with_data_view _ _ _ _ _ _ _ _ S1 Hu).
  - intros w _. rewrite (proj1 (G3 w)). apply Hn.
Qed.

(** * Example states: a transaction on a given disk

    The state after boot with a log of 30 blocks at block 2 and one operation
    outstanding, without and with a block in the log. The theorems on the log
    and the file system are applied to these states. *)

Definition log1 : log := mklog 2 30 1 0 ROOTDEV 0 ∅.

(** The locks of the inode table and the log are free. *)
Definition itable_lock1 : lockid := ("itable"%string, 0).

Definition pst_log : pst :=
  pst1 (mkhart 0 SSTATUS_SIE {[0%nat := mkcpu (Some 1%nat) 0 0]}
    (<[log_lock := lock0]> (<[itable_lock1 := lock0]> locks1))).

Lemma pst_log_quiet : proc_quiet pst_log 1.
Proof.
  constructor; [|reflexivity|].
  - split; [vm_compute; discriminate|intros H; exfalso; vm_compute in H; discriminate].
  - intros i Hi. destruct (hart2_free None i Hi) as [n H]. exists n.
    change (<[log_lock := lock0]> (<[itable_lock1 := lock0]> locks1) !! proc_lock i = Some (mkspinlock 0 n None)).
    rewrite !lookup_insert_ne by discriminate. exact H.
Qed.

(** The machine before [binit]. *)
Definition bst_on (D : gmap Z (list Z)) : bst := mkbst (mkslst pst_log ∅) ∅ D [].

Lemma log_booted D :
  exists b, binit (bst_on D) = Ok tt b /\ log_ok (mklst b log1) 1 [] [] /\ disk b = D /\
    (forall n, view b n = default zero_block (D !! n)) /\
    lock_free itable_lock1 (hart_of (bpst b)).
Proof.
  destruct (binit_ok (bst_on D) 1 eq_refl pst_log_quiet) as (b & E & Hok & Hd & Hv & _ & Hl).
  exists b. split_and!; [exact E| |exact Hd|exact Hv|apply Hl; exists "lock"%string; reflexivity]. constructor; [by eexists| | |reflexivity || (cbn; unfold LOGSIZE; lia)].
  - apply Hl. exists "lock"%string. reflexivity.
  - constructor; cbn [l_log l_dev l_start l_size lh_n log1 length].
    + reflexivity.
    + lia.
    + reflexivity.
    + split; reflexivity.
    + intros i u Hi. destruct i; discriminate.
    + intros u []%not_elem_of_nil.
Qed.

(** Block [n] changed to [d] in the transaction. *)
Lemma log_one D n d :
  home_block n -> outside 2 30 n ->
  exists b u L, log_ok (mklst b L) 1 [] [u] /\ disk b = D /\ l_start L = 2 /\ l_size L = 30 /\
    (forall m, view b m = if decide (m = n) then d else default zero_block (D !! m)).
Proof.
  intros Hh Ho. destruct (log_booted D) as (b0 & _ & H0 & D0 & V0 & _).
  destruct (get_block 0 (mklst b0 log1) 1 [] [] n H0) as (u & b1 & _ & _ & R & H1).
  { constructor; [done|done|intros w []%not_elem_of_nil|cbn; unfold NBUF; lia]. }
  destruct (log_block b1 log1 1 [u] [] u d H1) as ([b2 L] & _ & C2); [by left| | |cbn; lia|cbn; lia|].
  { by rewrite (rd_blockno _ _ _ _ _ _ _ R). }
  { by rewrite (rd_blockno _ _ _ _ _ _ _ R). }
  destruct (drop_block (mklst b2 L) 1 [] (pin_one u []) u (ch_ok _ _ _ _ _ _ C2)) as (b3 & _ & C3).
  { left. apply pin_one_elem. }
  exists b3, u, L. destruct (ch_log _ _ _ _ _ _ C2) as (k & B & E). cbn in E. subst L. cbn [l_b l_log] in *.
  destruct C2 as [_ V2 _ D2 _ _ _], C3 as [K3 V3 _ D3 _ _ _]. cbn [l_b] in *.
  split_and!; [exact K3| |done|done|].
  - by rewrite D3, D2, (rd_disk _ _ _ _ _ _ _ R).
  - intros m. rewrite V3, V2. unfold upd_block. rewrite (rd_blockno _ _ _ _ _ _ _ R).
    case_decide; [done|]. by rewrite (rd_view _ _ _ _ _ _ _ R).
Qed.
