(* ===== verification/LogCrash.v ===== *)
(** * Crash safety of the log

    [commit] makes the writes [commit_writes], [recover_from_log] makes the
    writes [recover_writes], and so a crash at any point of a commit leaves a
    disk from which recovery restores the state before or after the
    transaction. *)
From S2P Require Import Prelude CString Spinlock Layout Dll Blocks Kalloc Vm Proc ProcSpec Quiet.
From S2P Require Import Sleeplock Bio BioSpec BioInit Log LogDisk LogSpec LogOps.

(** The header on the disk lists blocks outside the log. *)
Record hdr_valid (st sz : Z) (f : blocks) : Prop := {
  hv_n : 0 <= hdr_n (f st) <= LOGSIZE /\ hdr_n (f st) < sz;
  hv_home : forall n, n ∈ logged_blocks st f -> home_block n /\ outside st sz n;
}.

(** The log of device [ROOTDEV] is the [l_size] blocks from [l_start] on. *)
Definition log_on (L : log) : Prop :=
  l_dev L = ROOTDEV /\ 0 <= l_start L /\ 0 < l_size L /\ l_start L + l_size L < 2 ^ 31.

Lemma wrote_nil b me held pinned : bok b me held pinned -> wrote b me held pinned [] b.
Proof. intros H. constructor; try done. by rewrite app_nil_r. Qed.

Lemma unused_view b me n : bok b me [] [] -> view b n = dblock b n.
Proof. intros H. apply (view_clean _ _ _ _ _ H). intros u []%not_elem_of_nil. Qed.

Lemma logged_blocks_lookup st f i n :
  logged_blocks st f !! i = Some n ->
  n = hdr_block (f st) (Z.of_nat i) /\ Z.of_nat i < hdr_n (f st).
Proof.
  unfold logged_blocks. rewrite list_lookup_fmap. intros (k & [-> Hk]%lookup_seqZ & ->)%fmap_Some. done.
Qed.

Lemma logged_blocks_length st f : length (logged_blocks st f) = Z.to_nat (hdr_n (f st)).
Proof. unfold logged_blocks. by rewrite length_fmap, length_seqZ. Qed.

Lemma read_head_spec fuel me b L :
  bok b me [] [] -> log_on L -> 0 <= hdr_n (dblock b (l_start L)) ->
  exists b' L', read_head fuel (mklst b L) = Ok tt (mklst b' L') /\ wrote b me [] [] [] b' /\
    L' = mklog (l_start L) (l_size L) (l_outstanding L) (l_committing L) (l_dev L)
      (hdr_n (dblock b (l_start L))) (lh_block L') /\
    forall i n, logged_blocks (l_start L) (dblock b) !! i = Some n -> block_at L' (Z.of_nat i) = n.
Proof.
  intros Hb (L1 & L2 & L2' & L3) H0.
  destruct (bread_free fuel b me [] [] (l_start L) Hb) as (u & b1 & E1 & _ & R1);
    [cbn; unfold NBUF; lia|intros ? []%not_elem_of_nil|].
  assert (Ed : data_of b1 u = dblock b (l_start L)).
  { rewrite (rd_data _ _ _ _ _ _ _ R1). by apply (unused_view _ me). }
  destruct (brelse_free b1 me [] [] u (rd_ok _ _ _ _ _ _ _ R1)) as (b2 & E2 & [W2 _ _ _]).
  { right. rewrite Ed, (rd_blockno _ _ _ _ _ _ _ R1). unfold dblock. by rewrite (rd_disk _ _ _ _ _ _ _ R1). }
  set (d := dblock b (l_start L)) in *.
  destruct (read_head_loop_spec b1 d (Z.to_nat (hdr_n d)) 0 (set_lhn (hdr_n d) L)) as (L' & E & EL & _ & HB).
  exists b2, L'. split_and!; [|exact (wrote_trans _ _ _ _ _ _ _ _ _ _ (read_wrote _ _ _ _ _ _ _ R1) W2)|exact EL|].
  - unfold read_head, getl. rewrite bind_gets. cbn [l_log id]. rewrite L1, (u32_home (l_start L)) by (unfold home_block; lia).
    change (u32 ROOTDEV) with ROOTDEV. rewrite (bind_lst _ _ _ _ _ _ E1), bind_lst_getb.
    fold (data_of b1 u). rewrite Ed. unfold updl. rewrite bind_modify, bind_gets. cbn [l_log l_b set_lhn lh_n].
    rewrite (bind_ok _ _ _ _ _ E). exact (lift_lst _ _ _ _ _ E2).
  - intros i n [-> Hi]%logged_blocks_lookup. apply (HB i). fold d in Hi. lia.
Qed.

Lemma log_data_dblock b me st n :
  bok b me [] [] -> log_data b st 0 n = (fun i => dblock b (st + 1 + i)) <$> seqZ 0 (Z.of_nat n).
Proof. intros Hb. apply list_fmap_ext. intros i k _. by apply (unused_view _ me). Qed.

(** [recover_from_log] on a cache nobody uses. *)
Lemma recover_spec fuel me b L :
  bok b me [] [] -> log_on L -> hdr_valid (l_start L) (l_size L) (dblock b) ->
  exists b' L', recover_from_log fuel (mklst b L) = Ok tt (mklst b' L') /\ lh_n L' = 0 /\
    wrote b me [] [] (recover_writes (l_start L) (dblock b)) b'.
Proof.
  intros Hb HL [[Hn Hn'] Hh]. set (st := l_start L) in *. set (bs := logged_blocks st (dblock b)) in *.
  destruct (read_head_spec fuel me b L Hb HL) as (b1 & L1 & E1 & W1 & EL & HB); [apply Hn|].
  assert (Hlen : length bs = Z.to_nat (hdr_n (dblock b st))) by apply logged_blocks_length.
  destruct HL as (D1 & D2 & D2' & D3).
  destruct (recover_loop_spec fuel me L1 bs 0 b1 (wr_ok _ _ _ _ _ _ W1)) as (b2 & E2 & W2).
  { rewrite EL. constructor; cbn [l_dev l_start l_size]; [done|lia|rewrite Hlen; lia| |exact Hh].
    intros i n Hi. unfold block_at. cbn [lh_block]. by apply HB. }
  destruct (write_head_spec fuel me b2 (set_lhn 0 L1) [] [] (wr_ok _ _ _ _ _ _ W2)) as (b3 & E3 & W3 & _).
  { cbn. unfold NBUF. lia. }
  { intros w []%not_elem_of_nil. }
  { rewrite EL. constructor; cbn; [done|unfold home_block; lia|done|done]. }
  exists b3, (set_lhn 0 L1). split_and!; [|done|].
  - unfold recover_from_log. rewrite (bind_ok _ _ _ _ _ E1). unfold install_trans, getl.
    rewrite bind_assoc, bind_gets. cbn [l_log]. rewrite EL at 1. cbn [lh_n]. fold st. rewrite <- Hlen.
    rewrite (bind_ok _ _ _ _ _ E2). unfold updl. rewrite bind_modify. exact E3.
  - assert (Est : l_start L1 = st) by (by rewrite EL). rewrite Est in W2. cbn [set_lhn l_start] in W3.
    rewrite Est in W3.
    assert (Ev : view b2 st = dblock b st).
    { rewrite (wr_view _ _ _ _ _ _ W2), after_other.
      - rewrite (wr_view _ _ _ _ _ _ W1). by apply (unused_view _ me).
      - intros Hin%fst_zip_elem. apply Hh in Hin as [_ Ho]. unfold outside in Ho. fold st in D2, D3. lia. }
    rewrite Ev in W3. unfold recover_writes.
    replace (logged_data st (dblock b)) with (log_data b1 st 0 (length bs)).
    { exact (wrote_trans _ _ _ _ _ _ _ _ _ _ W1 (wrote_trans _ _ _ _ _ _ _ _ _ _ W2 W3)). }
    rewrite (log_data_dblock _ me) by apply W1. unfold logged_data. rewrite Hlen, Z2Nat.id by lia.
    apply list_fmap_ext. intros i k _. apply (wr_disk _ _ _ _ _ _ W1).
Qed.

(** ** Commit *)

Section Commit.
Context (fuel me : nat) (b : bst) (L : log) (pinned : list Z)
  (Hb : bok b me [] pinned) (HL : log_lists b L pinned)
  (Hlen : length (view b (l_start L)) = Z.to_nat BSIZE).

Let st := l_start L.
Let bs := blockno_of b <$> pinned.
Let ds := data_of b <$> pinned.

Lemma commit_area : log_area st (l_size L) (dblock b) bs.
Proof.
  destruct HL as [L1 L2 L3 L4 L5 L6]. constructor.
  - unfold bs. rewrite length_fmap. lia.
  - intros n (u & -> & Hu)%list_elem_of_fmap. by apply L6.
  - unfold st. rewrite <- Hlen. f_equal. symmetry. apply (view_clean _ _ _ _ _ Hb).
    intros u Hu E. destruct (L6 u Hu) as [_ Ho]. unfold outside in Ho. lia.
Qed.

Lemma pinned_not_start u : u ∈ pinned -> blockno_of b u <> st.
Proof. intros Hu E. destruct (ll_home _ _ _ HL u Hu) as [_ Ho]. destruct HL. unfold outside, st in *. lia. Qed.

Lemma start_view : view b st = dblock b st.
Proof. apply (view_clean _ _ _ _ _ Hb). intros u Hu. by apply pinned_not_start. Qed.

Lemma block_list i n : bs !! i = Some n -> block_at L (Z.of_nat i) = n.
Proof.
  unfold bs. rewrite list_lookup_fmap. intros (u & Hu & ->)%fmap_Some. by apply (ll_blocks _ _ _ HL).
Qed.

(** The writes of [commit], when there is something to commit. *)
Lemma commit_spec :
  pinned <> [] ->
  exists b' L', commit fuel (mklst b L) = Ok tt (mklst b' L') /\
    L' = set_lhn 0 L /\ wrote b me [] [] (commit_writes st (dblock b) bs ds) b'.
Proof.
  intros Hne. pose proof commit_area as [[A1 A1'] A2 A3]. unfold st in *.
  destruct (write_log_loop_spec fuel me L pinned [] b Hb HL) as (b1 & E1 & W1 & S1). cbn [length app] in *.
  assert (HN : (length pinned < NBUF)%nat) by apply nbuf_logsize, HL.
  assert (Hds : length bs = length pinned) by (unfold bs; by rewrite length_fmap).
  destruct (write_head_spec fuel me b1 L pinned bs (wr_ok _ _ _ _ _ _ W1) HN) as (b2 & E2 & W2 & S2).
  { intros w Hw. rewrite (proj1 (S1 w Hw)). by apply pinned_not_start. }
  { constructor; [apply HL|destruct HL; unfold home_block; lia|rewrite Hds; apply HL|exact block_list]. }
  assert (Ebs : blockno_of b2 <$> pinned = bs).
  { apply list_fmap_ext. intros i u Hu%list_elem_of_lookup_2.
    by rewrite (proj1 (S2 u Hu)), (proj1 (S1 u Hu)). }
  destruct (install_loop_spec fuel me L pinned 0 b2 (wr_ok _ _ _ _ _ _ W2)) as (b3 & E3 & W3); [apply HL| |].
  { rewrite Ebs. constructor; [apply HL|apply HL|rewrite Hds; destruct HL; lia|exact block_list|exact A2]. }
  destruct (write_head_spec fuel me b3 (set_lhn 0 L) [] [] (wr_ok _ _ _ _ _ _ W3)) as (b4 & E4 & W4 & _).
  { cbn. unfold NBUF. lia. }
  { intros w []%not_elem_of_nil. }
  { constructor; cbn; [apply HL|destruct HL; unfold home_block; lia|done|done]. }
  rewrite Ebs in W3. rewrite Z.add_0_r in W1. fold ds in W1. cbn [set_lhn l_start] in W4.
  assert (Hz : forall f n, l_start L <= n < l_start L + l_size L -> after (zip bs ds) f n = f n).
  { intros f n Hn. apply after_other. intros Hin%fst_zip_elem. apply A2 in Hin as [_ Ho]. lia. }
  assert (V1 : view b1 (l_start L) = dblock b (l_start L)).
  { rewrite (wr_view _ _ _ _ _ _ W1), after_other by (rewrite area_writes_elem; lia). apply start_view. }
  rewrite V1 in W2.
  assert (Elog : log_data b2 (l_start L) 0 (length pinned) = ds).
  { replace (length pinned) with (length ds) by (unfold ds; by rewrite length_fmap).
    apply fmap_seqZ. intros i d Hi. rewrite (wr_view _ _ _ _ _ _ W2), after_cons, decide_False by lia.
    rewrite (wr_view _ _ _ _ _ _ W1). by apply after_area. }
  rewrite Elog in W3.
  assert (V3 : view b3 (l_start L) = hdr_make (dblock b (l_start L)) bs).
  { rewrite (wr_view _ _ _ _ _ _ W3), Hz by lia.
    rewrite (wr_view _ _ _ _ _ _ W2), after_cons, decide_True by done. done. }
  rewrite V3 in W4. exists b4, (set_lhn 0 L). split_and!; [|done|].
  - unfold commit, getl. rewrite bind_gets. cbn [l_log]. rewrite (ll_n _ _ _ HL).
    destruct (Z.ltb_spec 0 (Z.of_nat (length pinned))) as [_|Hx]; [|destruct pinned; [done|cbn in Hx; lia]].
    unfold write_log, getl. rewrite bind_assoc, bind_gets. cbn [l_log]. rewrite (ll_n _ _ _ HL), Nat2Z.id.
    rewrite (bind_ok _ _ _ _ _ E1), (bind_ok _ _ _ _ _ E2). unfold install_trans, getl.
    rewrite bind_assoc, bind_gets. cbn [l_log]. rewrite (ll_n _ _ _ HL), Nat2Z.id.
    rewrite (bind_ok _ _ _ _ _ E3). unfold updl. rewrite bind_modify. exact E4.
  - unfold commit_writes.
    exact (wrote_trans _ _ _ _ _ _ _ _ _ _ W1 (wrote_trans _ _ _ _ _ _ _ _ _ _ W2
      (wrote_trans _ _ _ _ _ _ _ _ _ _ W3 W4))).
Qed.

(** Writing the pinned blocks home makes the disk what the kernel sees. *)
Lemma home_writes n : outside st (l_size L) n -> after (zip bs ds) (dblock b) n = view b n.
Proof.
  intros _. destruct (decide (n ∈ bs)) as [Hin|Hout].
  - assert (Hg : forall l, l ⊆ pinned -> NoDup l -> n ∈ blockno_of b <$> l ->
      forall f, after (zip (blockno_of b <$> l) (data_of b <$> l)) f n = view b n).
    { intros l. induction l as [|u l IH]; intros Hs Hnd Hn f; [by apply not_elem_of_nil in Hn|].
      apply NoDup_cons in Hnd as [Hu Hnd]. cbn. rewrite fmap_cons in Hn.
      destruct (decide (n ∈ blockno_of b <$> l)) as [Hl|Hl]; [apply IH; [set_solver|done|done]|].
      apply elem_of_cons in Hn as [->|Hn]; [|done].
      rewrite after_other, decide_True by done || (intros Hx%fst_zip_elem; done).
      symmetry. apply (used_view _ _ _ _ _ Hb). set_solver. }
    apply Hg; [done| |done]. destruct Hb as [o Hbo]. apply (bo_pinned _ _ _ _ _ Hbo).
  - rewrite after_other by (intros Hx%fst_zip_elem; done). symmetry. apply (view_clean _ _ _ _ _ Hb).
    intros u Hu <-. apply Hout. by apply list_elem_of_fmap_2.
Qed.

Lemma commit_outside n :
  hdr_n (dblock b (l_start L)) = 0 -> outside st (l_size L) n ->
  after (commit_writes st (dblock b) bs ds) (dblock b) n = view b n /\
  after (commit_writes st (dblock b) bs ds) (view b) n = view b n.
Proof.
  intros H0 Hn. pose proof commit_area as Ha.
  assert (Hds : length ds = length bs) by (unfold ds, bs; by rewrite !length_fmap).
  destruct (outside_area _ _ _ _ _ Ha Hds n Hn) as [Hn1 Hn2].
  assert (Hc : forall f, f n = view b n \/ n ∈ (zip bs ds).*1 ->
    after (commit_writes st (dblock b) bs ds) f n = view b n).
  { intros f Hf. unfold commit_writes. rewrite after_app. cbn [after]. rewrite after_app. cbn [after].
    rewrite decide_False by done. rewrite <- (home_writes n Hn).
    destruct (decide (n ∈ (zip bs ds).*1)) as [Hin|Hout]; [by apply after_written|].
    rewrite !(after_other (zip bs ds)) by done. rewrite decide_False, after_other by done.
    destruct Hf as [Hf|Hf]; [|done]. rewrite Hf, <- (home_writes n Hn). by rewrite after_other. }
  split; apply Hc; [|by left]. destruct (decide (n ∈ (zip bs ds).*1)) as [Hin|Hout]; [by right|left].
  rewrite <- (home_writes n Hn). by rewrite after_other.
Qed.
End Commit.

(** After a crash the machine boots on the disk [f]: no block is cached. *)
Record booted (b : bst) (me : nat) (f : blocks) : Prop := {
  bt_ok : bok b me [] [];
  bt_disk : forall n, dblock b n = f n;
}.

Lemma recover_writes_ext st f g : (forall n, f n = g n) -> recover_writes st f = recover_writes st g.
Proof.
  intros H. unfold recover_writes, logged_blocks, logged_data. rewrite !H. do 2 f_equal.
  apply list_fmap_ext. intros i k _. apply H.
Qed.

(** Recovery empties the log. *)
Lemma recover_header st f :
  length (f st) = Z.to_nat BSIZE -> hdr_n (after (recover_writes st f) f st) = 0.
Proof.
  intros Hl. unfold recover_writes. rewrite after_app. cbn. rewrite decide_True by done.
  by apply (hdr_make_n (f st) []).
Qed.

Lemma reboot fuel me b L pinned p b0 L0 :
  bok b me [] pinned -> log_lists b L pinned -> length (view b (l_start L)) = Z.to_nat BSIZE ->
  hdr_n (dblock b (l_start L)) = 0 ->
  p `prefix_of` commit_writes (l_start L) (dblock b) (blockno_of b <$> pinned) (data_of b <$> pinned) ->
  booted b0 me (after p (dblock b)) -> log_on L0 -> l_start L0 = l_start L -> l_size L0 = l_size L ->
  exists b1 L1, recover_from_log fuel (mklst b0 L0) = Ok tt (mklst b1 L1) /\
    hdr_n (dblock b1 (l_start L)) = 0 /\
    ((forall n, outside (l_start L) (l_size L) n -> dblock b1 n = dblock b n) \/
     (forall n, outside (l_start L) (l_size L) n -> dblock b1 n = view b n)).
Proof.
  intros Hb HL Hlen H0 Hp [Hok Hdisk] Hlog Est Esz.
  pose proof (commit_area _ _ _ _ Hb HL Hlen) as Ha.
  assert (Hds : length (data_of b <$> pinned) = length (blockno_of b <$> pinned)) by (by rewrite !length_fmap).
  pose proof (commit_prefix _ _ _ _ _ Ha Hds H0 p Hp) as Hc.
  destruct (crash_header _ _ _ _ _ Ha Hds H0 _ Hc) as (Hgl & Hn1 & Hn2 & Hn3).
  destruct (recover_spec fuel me b0 L0 Hok Hlog) as (b1 & L1 & E & _ & W).
  { rewrite Est, Esz. constructor.
    - rewrite Hdisk. rewrite length_fmap in Hn2. destruct HL. lia.
    - intros n Hn. apply (la_home _ _ _ _ Ha), Hn3. unfold logged_blocks in *. by rewrite Hdisk in Hn. }
  assert (Hd : forall n, dblock b1 n = after (recover_writes (l_start L) (after p (dblock b))) (after p (dblock b)) n).
  { intros n. rewrite (wr_disk _ _ _ _ _ _ W), Est, (recover_writes_ext _ _ _ Hdisk). by apply after_ext. }
  exists b1, L1. split_and!; [exact E|by rewrite Hd, recover_header|].
  destruct (crash_recover _ _ _ _ _ Ha Hds H0 _ Hc) as [Hr|Hr]; [left|right]; intros n Hn; rewrite Hd, Hr by done.
  - done.
  - by apply (home_writes me b L pinned Hb HL).
Qed.

(** C1. The log makes a transaction atomic with respect to crashes. Let the
    in-memory log list the pinned buffers, with an empty log on the disk. Then
    [commit] returns, having made a sequence [ws] of block writes, with every
    block outside the log on the disk as the kernel saw it before. And if the
    machine crashes after any prefix of [ws] has reached the disk and boots
    again, [recover_from_log] returns with the blocks outside the log either
    all as they were on the disk before the commit, or all as the transaction
    left them, and with the log empty. *)
Theorem commit_crash_atomic (fuel me : nat) (b : bst) (L : log) (pinned : list Z)
    (Hb : bok b me [] pinned) (HL : log_lists b L pinned) (Hne : pinned <> [])
    (Hlen : length (view b (l_start L)) = Z.to_nat BSIZE)
    (H0 : hdr_n (dblock b (l_start L)) = 0) :
  exists b' ws, commit fuel (mklst b L) = Ok tt (mklst b' (set_lhn 0 L)) /\
    dwrites b' = dwrites b ++ ws /\
    (forall n, outside (l_start L) (l_size L) n -> dblock b' n = view b n /\ view b' n = view b n) /\
    forall p b0 L0, p `prefix_of` ws -> booted b0 me (after p (dblock b)) ->
      log_on L0 -> l_start L0 = l_start L -> l_size L0 = l_size L ->
      exists b1 L1, recover_from_log fuel (mklst b0 L0) = Ok tt (mklst b1 L1) /\
        hdr_n (dblock b1 (l_start L)) = 0 /\
        ((forall n, outside (l_start L) (l_size L) n -> dblock b1 n = dblock b n) \/
         (forall n, outside (l_start L) (l_size L) n -> dblock b1 n = view b n)).
Proof.
  destruct (commit_spec fuel me b L pinned Hb HL Hlen Hne) as (b' & L' & E & -> & W).
  eexists b', _. split_and!; [exact E|apply W| |].
  - intros n Hn. destruct (commit_outside me b L pinned Hb HL Hlen n H0 Hn) as [H1 H2].
    by rewrite (wr_disk _ _ _ _ _ _ W), (wr_view _ _ _ _ _ _ W), H1, H2.
  - intros p b0 L0 Hp Hboot Hon Hst Hsz. by apply (reboot fuel me b L pinned p).
Qed.

(** ** Example: block 40 filled with ones, on an empty disk *)

Lemma commit_crash_atomic_witness :
  exists b L b' ws, commit 0 (mklst b L) = Ok tt (mklst b' (set_lhn 0 L)) /\ dwrites b' = dwrites b ++ ws /\
    dblock b 40 = zero_block /\ dblock b' 40 = replicate 1024 1.
Proof.
  destruct (log_one ∅ 40 (replicate 1024 1)) as (b & u & L & [Hb _ HL _] & Hd & Hs & Hz & Hv).
  { unfold home_block. lia. }
  { right. lia. }
  destruct (commit_crash_atomic 0 1 b L [u] Hb HL) as (b' & ws & E & Hw & Hh & _).
  { discriminate. }
  { rewrite Hs, Hv. reflexivity. }
  { rewrite Hs. unfold dblock. cbn [l_b] in Hd. rewrite Hd. reflexivity. }
  exists b, L, b', ws. split_and!; [exact E|exact Hw|unfold dblock; by rewrite Hd|].
  rewrite Hs, Hz in Hh. destruct (Hh 40) as [-> _]; [right; lia|]. by rewrite Hv.
Defined.
