(* ===== verification/Fs.v ===== *)
(** * The file system: blocks, inodes, directories and paths

    Models [src/xv6-os/kernel/fs.c], [fs.h] and the in-memory inode of
    [file.h]. An inode pointer is an index of [itable.inode[]], with [None] for
    a null pointer where the code tests for one. Strings and structures on the
    kernel stack are the lists of their bytes. [fuel] bounds the number of
    wakeups in [acquiresleep]. *)
From S2P Require Import Prelude CString Spinlock Layout Dll Blocks Kalloc Vm Proc ProcSpec Quiet.
From S2P Require Import Sleeplock Bio Log.

(** ** fs.h *)

Definition ROOTINO : Z := 1.
Definition FSMAGIC : Z := 0x10203040.
Definition NDIRECT : Z := 12.
Definition NINDIRECT : Z := BSIZE / 4.
Definition MAXFILE : Z := NDIRECT + NINDIRECT.
Definition sizeof_dinode : Z := 64.
Definition IPB : Z := BSIZE / sizeof_dinode.
Definition BPB : Z := BSIZE * 8.
Definition DIRSIZ : Z := 14.
Definition sizeof_dirent : Z := 16.

Definition T_DIR : Z := 1.
Definition T_FILE : Z := 2.
Definition T_DEVICE : Z := 3.

Record superblock := mksuperblock {
  sb_magic : Z;
  sb_size : Z;
  sb_nblocks : Z;
  sb_ninodes : Z;
  sb_nlog : Z;
  sb_logstart : Z;
  sb_inodestart : Z;
  sb_bmapstart : Z;
}.

Definition IBLOCK (i : Z) (sb : superblock) : Z := u32 (i / IPB + sb_inodestart sb).
Definition BBLOCK (b : Z) (sb : superblock) : Z := u32 (b / BPB + sb_bmapstart sb).

(** ** The in-memory inode (file.h) *)

Record inode := mkinode {
  i_dev : Z;
  i_inum : Z;
  i_ref : Z;
  i_valid : Z;
  i_type : Z;
  i_major : Z;
  i_minor : Z;
  i_nlink : Z;
  i_size : Z;
  i_addrs : list Z;
}.

Definition inode0 : inode := mkinode 0 0 0 0 0 0 0 0 0 (replicate 13 0).

Record fsst := mkfsst {
  fs_l : lst;
  fs_sb : superblock;
  fs_inodes : gmap nat inode;
  fs_printed : list string;
}.

#[export] Instance sub_lst_fsst : Sub lst fsst := {|
  sub_get := fs_l;
  sub_put x s := mkfsst x (fs_sb s) (fs_inodes s) (fs_printed s);
|}.
#[export] Instance sub_bst_fsst : Sub bst fsst := {|
  sub_get s := sub_get (fs_l s);
  sub_put x s := mkfsst (sub_put x (fs_l s)) (fs_sb s) (fs_inodes s) (fs_printed s);
|}.
#[export] Instance sub_slst_fsst : Sub slst fsst := {|
  sub_get s := b_sl (l_b (fs_l s));
  sub_put x s := mkfsst (mklst (sub_put x (l_b (fs_l s))) (l_log (fs_l s)))
                   (fs_sb s) (fs_inodes s) (fs_printed s);
|}.
#[export] Instance sub_pst_fsst : Sub pst fsst := {|
  sub_get s := sub_get (fs_l s);
  sub_put x s := mkfsst (sub_put x (fs_l s)) (fs_sb s) (fs_inodes s) (fs_printed s);
|}.
#[export] Instance sub_hart_fsst : Sub hart fsst := {|
  sub_get s := sub_get (fs_l s);
  sub_put x s := mkfsst (sub_put x (fs_l s)) (fs_sb s) (fs_inodes s) (fs_printed s);
|}.

Definition inode_of (s : fsst) (ip : nat) : inode := default inode0 (fs_inodes s !! ip).
Definition geti {A} (ip : nat) (f : inode -> A) : M fsst A := gets (fun s => f (inode_of s ip)).
Definition updi (ip : nat) (f : inode -> inode) : M fsst unit :=
  modify (fun s => mkfsst (fs_l s) (fs_sb s) (<[ip := f (inode_of s ip)]> (fs_inodes s)) (fs_printed s)).
Definition getsb {A} (f : superblock -> A) : M fsst A := gets (fun s => f (fs_sb s)).

(** [printf] of a constant string. *)
Definition kprint (msg : string) : M fsst unit :=
  modify (fun s => mkfsst (fs_l s) (fs_sb s) (fs_inodes s) (fs_printed s ++ [msg])).

Section Setters.
Implicit Types i : inode.
Definition set_iref x i := mkinode (i_dev i) (i_inum i) x (i_valid i) (i_type i) (i_major i) (i_minor i) (i_nlink i) (i_size i) (i_addrs i).
Definition set_ivalid x i := mkinode (i_dev i) (i_inum i) (i_ref i) x (i_type i) (i_major i) (i_minor i) (i_nlink i) (i_size i) (i_addrs i).
Definition set_itype x i := mkinode (i_dev i) (i_inum i) (i_ref i) (i_valid i) x (i_major i) (i_minor i) (i_nlink i) (i_size i) (i_addrs i).
Definition set_imajor x i := mkinode (i_dev i) (i_inum i) (i_ref i) (i_valid i) (i_type i) x (i_minor i) (i_nlink i) (i_size i) (i_addrs i).
Definition set_iminor x i := mkinode (i_dev i) (i_inum i) (i_ref i) (i_valid i) (i_type i) (i_major i) x (i_nlink i) (i_size i) (i_addrs i).
Definition set_inlink x i := mkinode (i_dev i) (i_inum i) (i_ref i) (i_valid i) (i_type i) (i_major i) (i_minor i) x (i_size i) (i_addrs i).
Definition set_isize x i := mkinode (i_dev i) (i_inum i) (i_ref i) (i_valid i) (i_type i) (i_major i) (i_minor i) (i_nlink i) x (i_addrs i).
Definition set_iaddr k x i := mkinode (i_dev i) (i_inum i) (i_ref i) (i_valid i) (i_type i) (i_major i) (i_minor i) (i_nlink i) (i_size i) (<[k := x]> (i_addrs i)).
End Setters.

Definition itable_lock : lockid := ("itable"%string, 0).
Definition inode_lock (ip : nat) : lockid := ("inode"%string, Z.of_nat ip).

(** [bp->data = d]. *)
Definition setdata (bp : Z) (d : list Z) : M fsst unit := lift (updb bp (set_bdata d)).
Definition getdata (bp : Z) : M fsst (list Z) := lift (getb bp b_data).

Section Fs.
Context (fuel : nat).

Definition parse_sb (d : list Z) : superblock :=
  mksuperblock (get32 d 0) (get32 d 4) (get32 d 8) (get32 d 12) (get32 d 16) (get32 d 20)
    (get32 d 24) (get32 d 28).

Definition readsb (dev : Z) : M fsst unit :=
  let! bp := lift (bread fuel (u32 dev) 1) in
  let! d := getdata bp in
  modify (fun s => mkfsst (fs_l s) (parse_sb d) (fs_inodes s) (fs_printed s)) ;;;
  lift (brelse bp).

Definition fsinit (dev : Z) : M fsst unit :=
  readsb dev ;;;
  let! sb := getsb id in
  if negb (sb_magic sb =? FSMAGIC) then panic "invalid file system"
  else lift (initlog fuel dev (sb_logstart sb) (sb_nlog sb)).

Definition bzero (dev bno : Z) : M fsst unit :=
  let! bp := lift (bread fuel (u32 dev) (u32 bno)) in
  setdata bp zero_block ;;;
  lift (log_write bp) ;;;
  lift (brelse bp).

(** ** The bitmap *)

Definition bit_mask (bi : Z) : Z := Z.shiftl 1 (bi mod 8).
Definition bit_used (d : list Z) (bi : Z) : bool := negb (Z.land (get8 d (bi / 8)) (bit_mask bi) =? 0).
Definition set_bit (d : list Z) (bi : Z) : list Z :=
  patch d (bi / 8) [u8 (Z.lor (get8 d (bi / 8)) (bit_mask bi))].
Definition clear_bit (d : list Z) (bi : Z) : list Z :=
  patch d (bi / 8) [u8 (Z.land (get8 d (bi / 8)) (Z.lnot (bit_mask bi)))].

(** The inner loop of [balloc]: the first clear bit from [bi] on. *)
Fixpoint balloc_scan (k : nat) (bi b size : Z) (d : list Z) : option Z :=
  match k with
  | O => None
  | S k =>
      if (bi <? BPB) && (b + bi <? size) then
        if bit_used d bi then balloc_scan k (bi + 1) b size d else Some bi
      else None
  end.

Fixpoint balloc_loop (k : nat) (dev b : Z) : M fsst Z :=
  let! sb := getsb id in
  if b <? sb_size sb then
    match k with
    | O => out_of_fuel
    | S k =>
        let! bp := lift (bread fuel dev (BBLOCK b sb)) in
        let! d := getdata bp in
        match balloc_scan (Z.to_nat BPB) 0 b (sb_size sb) d with
        | Some bi =>
            setdata bp (set_bit d bi) ;;;
            lift (log_write bp) ;;;
            lift (brelse bp) ;;;
            bzero dev (b + bi) ;;;
            mret' (b + bi)
        | None =>
            lift (brelse bp) ;;;
            balloc_loop k dev (b + BPB)
        end
    end
  else
    kprint "balloc: out of blocks" ;;;
    mret' 0.

Definition balloc (dev : Z) : M fsst Z :=
  let! size := getsb sb_size in
  balloc_loop (Z.to_nat (size / BPB + 1)) dev 0.

Definition bfree (dev b : Z) : M fsst unit :=
  let! sb := getsb id in
  let! bp := lift (bread fuel (u32 dev) (BBLOCK b sb)) in
  let bi := b mod BPB in
  let! d := getdata bp in
  if negb (bit_used d bi) then panic "freeing free block"
  else
    setdata bp (clear_bit d bi) ;;;
    lift (log_write bp) ;;;
    lift (brelse bp).

(** ** Inodes *)

Fixpoint iinit_loop (k : nat) (i : nat) : M fsst unit :=
  match k with
  | O => mret' tt
  | S k => lift (initsleeplock (inode_lock i) "inode") ;;; iinit_loop k (S i)
  end.

Definition iinit : M fsst unit :=
  lift (initlock itable_lock "itable") ;;;
  iinit_loop NINODE 0.

(** The loop of [iget]: the entry of the inode, or the first free entry. *)
Fixpoint iget_scan (k ip : nat) (dev inum : Z) (empty : option nat) (s : fsst) : nat + option nat :=
  match k with
  | O => inr empty
  | S k =>
      let i := inode_of s ip in
      if (0 <? i_ref i) && (i_dev i =? dev) && (i_inum i =? inum) then inl ip
      else
        let empty := match empty with
                     | None => if i_ref i =? 0 then Some ip else None
                     | Some _ => empty
                     end in
        iget_scan k (S ip) dev inum empty s
  end.

Definition iget (dev inum : Z) : M fsst nat :=
  lift (acquire itable_lock) ;;;
  let! r := gets (iget_scan NINODE 0 dev inum None) in
  match r with
  | inl ip =>
      let! n := geti ip i_ref in
      updi ip (set_iref (n + 1)) ;;;
      lift (release itable_lock) ;;;
      mret' ip
  | inr None => panic "iget: no inodes"
  | inr (Some ip) =>
      updi ip (fun i => mkinode dev inum 1 0 (i_type i) (i_major i) (i_minor i) (i_nlink i)
                          (i_size i) (i_addrs i)) ;;;
      lift (release itable_lock) ;;;
      mret' ip
  end.

(** [struct dinode] number [k] of a block: the offsets of its fields. *)
Definition dinode_off (inum : Z) : Z := inum mod IPB * sizeof_dinode.
Definition di_type (d : list Z) (o : Z) : Z := s16 (get16 d o).
Definition di_addrs (d : list Z) (o : Z) : list Z :=
  (fun k => get32 d (o + 12 + 4 * k)) <$> seqZ 0 (NDIRECT + 1).

Fixpoint put_addrs (d : list Z) (o : Z) (l : list Z) : list Z :=
  match l with
  | [] => d
  | x :: l => put_addrs (put32 d o x) (o + 4) l
  end.

(** The fields [iupdate] stores. *)
Definition put_dinode (d : list Z) (o : Z) (i : inode) : list Z :=
  let d := put16 d o (i_type i) in
  let d := put16 d (o + 2) (i_major i) in
  let d := put16 d (o + 4) (i_minor i) in
  let d := put16 d (o + 6) (i_nlink i) in
  let d := put32 d (o + 8) (i_size i) in
  put_addrs d (o + 12) (i_addrs i).

(** The fields [ilock] loads. *)
Definition load_dinode (d : list Z) (o : Z) (i : inode) : inode :=
  mkinode (i_dev i) (i_inum i) (i_ref i) (i_valid i) (s16 (get16 d o)) (s16 (get16 d (o + 2)))
    (s16 (get16 d (o + 4))) (s16 (get16 d (o + 6))) (get32 d (o + 8)) (di_addrs d o).

Fixpoint ialloc_loop (k : nat) (dev type inum : Z) : M fsst (option nat) :=
  let! sb := getsb id in
  if inum <? sb_ninodes sb then
    match k with
    | O => out_of_fuel
    | S k =>
        let! bp := lift (bread fuel dev (IBLOCK inum sb)) in
        let! d := getdata bp in
        let o := dinode_off inum in
        if di_type d o =? 0 then
          setdata bp (put16 (patch d o (replicate (Z.to_nat sizeof_dinode) 0)) o type) ;;;
          lift (log_write bp) ;;;
          lift (brelse bp) ;;;
          let! ip := iget dev inum in
          mret' (Some ip)
        else
          lift (brelse bp) ;;;
          ialloc_loop k dev type (inum + 1)
    end
  else
    kprint "ialloc: no inodes" ;;;
    mret' None.

Definition ialloc (dev type : Z) : M fsst (option nat) :=
  let! n := getsb sb_ninodes in
  ialloc_loop (Z.to_nat n) dev type 1.

Definition iupdate (ip : nat) : M fsst unit :=
  let! sb := getsb id in
  let! i := geti ip id in
  let! bp := lift (bread fuel (i_dev i) (IBLOCK (i_inum i) sb)) in
  let! d := getdata bp in
  setdata bp (put_dinode d (dinode_off (i_inum i)) i) ;;;
  lift (log_write bp) ;;;
  lift (brelse bp).

Definition idup (ip : nat) : M fsst nat :=
  lift (acquire itable_lock) ;;;
  let! n := geti ip i_ref in
  updi ip (set_iref (n + 1)) ;;;
  lift (release itable_lock) ;;;
  mret' ip.

Definition ilock (ip : option nat) : M fsst unit :=
  match ip with
  | None => panic "ilock"
  | Some ip =>
      let! r := geti ip i_ref in
      if r <? 1 then panic "ilock"
      else
        lift (acquiresleep fuel (inode_lock ip)) ;;;
        let! v := geti ip i_valid in
        if v =? 0 then
          let! sb := getsb id in
          let! i := geti ip id in
          let! bp := lift (bread fuel (i_dev i) (IBLOCK (i_inum i) sb)) in
          let! d := getdata bp in
          updi ip (load_dinode d (dinode_off (i_inum i))) ;;;
          lift (brelse bp) ;;;
          updi ip (set_ivalid 1) ;;;
          let! t := geti ip i_type in
          if t =? 0 then panic "ilock: no type" else mret' tt
        else mret' tt
  end.

Definition iunlock (ip : option nat) : M fsst unit :=
  match ip with
  | None => panic "iunlock"
  | Some ip =>
      let! h := lift (holdingsleep (inode_lock ip)) in
      let! r := geti ip i_ref in
      if negb h || (r <? 1) then panic "iunlock"
      else lift (releasesleep (inode_lock ip))
  end.

(** ** Inode contents *)

Definition addr_of (i : inode) (k : Z) : Z := nth (Z.to_nat k) (i_addrs i) 0.

Definition bmap (ip : nat) (bn : Z) : M fsst Z :=
  if bn <? NDIRECT then
    let! i := geti ip id in
    let addr := addr_of i bn in
    if addr =? 0 then
      let! addr := balloc (i_dev i) in
      if addr =? 0 then mret' 0
      else
        updi ip (set_iaddr (Z.to_nat bn) addr) ;;;
        mret' addr
    else mret' addr
  else
    let bn := bn - NDIRECT in
    if bn <? NINDIRECT then
      let! i := geti ip id in
      let! addr :=
        (if addr_of i NDIRECT =? 0 then
           let! addr := balloc (i_dev i) in
           (if addr =? 0 then mret' tt else updi ip (set_iaddr (Z.to_nat NDIRECT) addr)) ;;;
           mret' addr
         else mret' (addr_of i NDIRECT)) in
      if addr =? 0 then mret' 0
      else
        let! bp := lift (bread fuel (i_dev i) addr) in
        let! a := getdata bp in
        let addr := get32 a (4 * bn) in
        let! addr :=
          (if addr =? 0 then
             let! addr := balloc (i_dev i) in
             (if negb (addr =? 0) then
                let! a := getdata bp in
                setdata bp (put32 a (4 * bn) addr) ;;;
                lift (log_write bp)
              else mret' tt) ;;;
             mret' addr
           else mret' addr) in
        lift (brelse bp) ;;;
        mret' addr
    else panic "bmap: out of range".

Fixpoint itrunc_direct (k : nat) (ip : nat) (i : Z) : M fsst unit :=
  match k with
  | O => mret' tt
  | S k =>
      let! x := geti ip id in
      (if negb (addr_of x i =? 0) then
         bfree (i_dev x) (addr_of x i) ;;;
         updi ip (set_iaddr (Z.to_nat i) 0)
       else mret' tt) ;;;
      itrunc_direct k ip (i + 1)
  end.

Fixpoint itrunc_indirect (k : nat) (ip : nat) (bp j : Z) : M fsst unit :=
  match k with
  | O => mret' tt
  | S k =>
      let! a := getdata bp in
      let! dev := geti ip i_dev in
      (if negb (get32 a (4 * j) =? 0) then bfree dev (get32 a (4 * j)) else mret' tt) ;;;
      itrunc_indirect k ip bp (j + 1)
  end.

Definition itrunc (ip : nat) : M fsst unit :=
  itrunc_direct (Z.to_nat NDIRECT) ip 0 ;;;
  let! i := geti ip id in
  (if negb (addr_of i NDIRECT =? 0) then
     let! bp := lift (bread fuel (i_dev i) (addr_of i NDIRECT)) in
     itrunc_indirect (Z.to_nat NINDIRECT) ip bp 0 ;;;
     lift (brelse bp) ;;;
     bfree (i_dev i) (addr_of i NDIRECT) ;;;
     updi ip (set_iaddr (Z.to_nat NDIRECT) 0)
   else mret' tt) ;;;
  updi ip (set_isize 0) ;;;
  iupdate ip.

Definition iput (ip : nat) : M fsst unit :=
  lift (acquire itable_lock) ;;;
  let! i := geti ip id in
  (if (i_ref i =? 1) && negb (i_valid i =? 0) && (i_nlink i =? 0) then
     lift (acquiresleep fuel (inode_lock ip)) ;;;
     lift (release itable_lock) ;;;
     itrunc ip ;;;
     updi ip (set_itype 0) ;;;
     iupdate ip ;;;
     updi ip (set_ivalid 0) ;;;
     lift (releasesleep (inode_lock ip)) ;;;
     lift (acquire itable_lock)
   else mret' tt) ;;;
  let! n := geti ip i_ref in
  updi ip (set_iref (n - 1)) ;;;
  lift (release itable_lock).

Definition iunlockput (ip : nat) : M fsst unit :=
  iunlock (Some ip) ;;;
  iput ip.
End Fs.
