(* ===== verification/FsPath.v ===== *)
(** * File contents, directories and paths

    Models the second half of [src/xv6-os/kernel/fs.c]: [stati], [readi],
    [writei], [namecmp], [dirlookup], [dirlink], [skipelem], [namex]. *)
From S2P Require Import Prelude CString Spinlock Layout Dll Blocks Kalloc Vm Proc ProcSpec Quiet.
From S2P Require Import Sleeplock Bio Log Fs.

(** [struct stat] (stat.h). *)
Record stat := mkstat {
  st_dev : Z;
  st_ino : Z;
  st_type : Z;
  st_nlink : Z;
  st_size : Z;
}.

Definition stati (ip : nat) : M fsst stat :=
  let! i := geti ip id in
  mret' (mkstat (s32 (i_dev i)) (i_inum i) (i_type i) (i_nlink i) (i_size i)).

(** Where [readi] puts the bytes and where [writei] takes them from: a user
    address, a kernel address, or a variable of the caller, which gets the
    bytes that [readi] returns or gives the bytes that [writei] takes. *)
Inductive dest := ToUser (va : Z) | ToKernel (a : Z) | ToLocal.
Inductive source := FromUser (va : Z) | FromKernel (a : Z) | FromLocal (l : list Z).

Definition copy_to (d : dest) (tot : Z) (src : list Z) : M fsst Z :=
  match d with
  | ToUser va => lift (either_copyout true (u64 (va + tot)) src)
  | ToKernel a => lift (either_copyout false (u64 (a + tot)) src)
  | ToLocal => mret' 0
  end.

Definition copy_from (s : source) (tot m : Z) : M fsst (Z * list Z) :=
  match s with
  | FromUser va => lift (either_copyin true (u64 (va + tot)) m)
  | FromKernel a => lift (either_copyin false (u64 (a + tot)) m)
  | FromLocal l => mret' (0, slice l tot m)
  end.

Section FsPath.
Context (fuel : nat).

(** The loop of [readi], with the bytes read so far; it gives [-1] for
    [tot] when a copy fails. Each round but the first starts at a multiple of
    [BSIZE], so that [n / BSIZE + 2] rounds are enough. *)
Fixpoint readi_loop (k : nat) (ip : nat) (d : dest) (off n tot : Z) (acc : list Z) : M fsst (Z * list Z) :=
  if tot <? n then
    match k with
    | O => out_of_fuel
    | S k =>
        let! addr := bmap fuel ip (off / BSIZE) in
        if addr =? 0 then mret' (tot, acc)
        else
          let! dev := geti ip i_dev in
          let! bp := lift (bread fuel dev addr) in
          let m := Z.min (n - tot) (BSIZE - off mod BSIZE) in
          let! data := getdata bp in
          let src := slice data (off mod BSIZE) m in
          let! r := copy_to d tot src in
          if r =? -1 then
            lift (brelse bp) ;;;
            mret' (-1, acc)
          else
            lift (brelse bp) ;;;
            readi_loop k ip d (off + m) n (tot + m) (acc ++ src)
    end
  else mret' (tot, acc).

(** [off] and [n] are unsigned. *)
Definition readi (ip : nat) (d : dest) (off n : Z) : M fsst (Z * list Z) :=
  let! size := geti ip i_size in
  if (size <? off) || (u32 (off + n) <? off) then mret' (0, [])
  else
    let n := if size <? off + n then size - off else n in
    readi_loop (Z.to_nat (n / BSIZE + 2)) ip d off n 0 [].

(** The loop of [writei]: the bytes written and the offset reached. *)
Fixpoint writei_loop (k : nat) (ip : nat) (s : source) (off n tot : Z) : M fsst (Z * Z) :=
  if tot <? n then
    match k with
    | O => out_of_fuel
    | S k =>
        let! addr := bmap fuel ip (off / BSIZE) in
        if addr =? 0 then mret' (tot, off)
        else
          let! dev := geti ip i_dev in
          let! bp := lift (bread fuel dev addr) in
          let m := Z.min (n - tot) (BSIZE - off mod BSIZE) in
          let! r := copy_from s tot m in
          let! data := getdata bp in
          setdata bp (patch data (off mod BSIZE) r.2) ;;;
          if r.1 =? -1 then
            lift (brelse bp) ;;;
            mret' (tot, off)
          else
            lift (log_write bp) ;;;
            lift (brelse bp) ;;;
            writei_loop k ip s (off + m) n (tot + m)
    end
  else mret' (tot, off).

Definition writei (ip : nat) (s : source) (off n : Z) : M fsst Z :=
  let! size := geti ip i_size in
  if (size <? off) || (u32 (off + n) <? off) then mret' (-1)
  else if MAXFILE * BSIZE <? off + n then mret' (-1)
  else
    let! r := writei_loop (Z.to_nat (n / BSIZE + 2)) ip s off n 0 in
    let! size := geti ip i_size in
    (if size <? r.2 then updi ip (set_isize r.2) else mret' tt) ;;;
    iupdate fuel ip ;;;
    mret' r.1.

(** ** Directories *)

(** [strncmp] and [strncpy] of string.c on byte arrays. *)
Fixpoint strncmp_list (n : nat) (p q : list Z) : Z :=
  match n with
  | O => 0
  | S n => if negb (hd 0 p =? 0) && (hd 0 p =? hd 0 q)
           then strncmp_list n (tl p) (tl q)
           else hd 0 p - hd 0 q
  end.

Fixpoint strncpy_list (n : nat) (t : list Z) : list Z :=
  match n with
  | O => []
  | S n => if hd 0 t =? 0 then replicate (S n) 0 else hd 0 t :: strncpy_list n (tl t)
  end.

Definition namecmp (s t : list Z) : Z := strncmp_list (Z.to_nat DIRSIZ) s t.

Definition de_inum (de : list Z) : Z := get16 de 0.
Definition de_name (de : list Z) : list Z := slice de 2 DIRSIZ.

(** The inode found and the offset of its entry. *)
Fixpoint dirlookup_loop (k : nat) (dp : nat) (name : list Z) (off : Z) : M fsst (option (nat * Z)) :=
  let! size := geti dp i_size in
  if off <? size then
    match k with
    | O => out_of_fuel
    | S k =>
        let! r := readi dp ToLocal off sizeof_dirent in
        if negb (r.1 =? sizeof_dirent) then panic "dirlookup read"
        else if de_inum r.2 =? 0 then dirlookup_loop k dp name (off + sizeof_dirent)
        else if namecmp name (de_name r.2) =? 0 then
          let! dev := geti dp i_dev in
          let! ip := iget dev (de_inum r.2) in
          mret' (Some (ip, off))
        else dirlookup_loop k dp name (off + sizeof_dirent)
    end
  else mret' None.

Definition dirlookup (dp : nat) (name : list Z) : M fsst (option (nat * Z)) :=
  let! i := geti dp id in
  if negb (i_type i =? T_DIR) then panic "dirlookup not DIR"
  else dirlookup_loop (Z.to_nat (i_size i / sizeof_dirent + 1)) dp name 0.

(** The loop of [dirlink]: the offset of the first empty entry, or the size. *)
Fixpoint dirlink_loop (k : nat) (dp : nat) (off : Z) : M fsst Z :=
  let! size := geti dp i_size in
  if off <? size then
    match k with
    | O => out_of_fuel
    | S k =>
        let! r := readi dp ToLocal off sizeof_dirent in
        if negb (r.1 =? sizeof_dirent) then panic "dirlink read"
        else if de_inum r.2 =? 0 then mret' off
        else dirlink_loop k dp (off + sizeof_dirent)
    end
  else mret' off.

Definition dirlink (dp : nat) (name : list Z) (inum : Z) : M fsst Z :=
  let! r := dirlookup dp name in
  match r with
  | Some (ip, _) =>
      iput fuel ip ;;;
      mret' (-1)
  | None =>
      let! size := geti dp i_size in
      let! off := dirlink_loop (Z.to_nat (size / sizeof_dirent + 1)) dp 0 in
      let de := le 2 inum ++ strncpy_list (Z.to_nat DIRSIZ) name in
      let! r := writei dp (FromLocal de) off sizeof_dirent in
      if negb (r =? sizeof_dirent) then mret' (-1) else mret' 0
  end.

(** ** Paths *)

Definition slash : Z := 47.

Fixpoint skip_slashes (path : list Z) : list Z :=
  match path with
  | c :: path' => if c =? slash then skip_slashes path' else path
  | [] => []
  end.

(** The path element at the front and what follows it. *)
Fixpoint span_elem (path : list Z) : list Z * list Z :=
  match path with
  | [] => ([], [])
  | c :: path' => if c =? slash then ([], path)
                  else let r := span_elem path' in (c :: r.1, r.2)
  end.

(** The rest of the path and the array [name] with the element copied in. *)
Definition skipelem (path name : list Z) : option (list Z * list Z) :=
  let path := skip_slashes path in
  match path with
  | [] => None
  | _ =>
      let (s, path) := span_elem path in
      let len := zlen s in
      let name := if DIRSIZ <=? len then patch name 0 (slice s 0 DIRSIZ)
                  else patch (patch name 0 s) len [0] in
      Some (skip_slashes path, name)
  end.

(** [namex] reads one element per round. *)
Fixpoint namex_loop (k : nat) (ip : nat) (path : list Z) (nameiparent : bool) (name : list Z)
    : M fsst (option nat * list Z) :=
  match skipelem path name with
  | None =>
      if nameiparent then
        iput fuel ip ;;;
        mret' (None, name)
      else mret' (Some ip, name)
  | Some (path, name) =>
      match k with
      | O => out_of_fuel
      | S k =>
          ilock fuel (Some ip) ;;;
          let! t := geti ip i_type in
          if negb (t =? T_DIR) then
            iunlockput fuel ip ;;;
            mret' (None, name)
          else if nameiparent && (match path with [] => true | _ => false end) then
            iunlock (Some ip) ;;;
            mret' (Some ip, name)
          else
            let! next := dirlookup ip name in
            match next with
            | None =>
                iunlockput fuel ip ;;;
                mret' (None, name)
            | Some (next, _) =>
                iunlockput fuel ip ;;;
                namex_loop k next path nameiparent name
            end
      end
  end.

Definition namex (path : list Z) (nameiparent : bool) (name : list Z) : M fsst (option nat * list Z) :=
  let! ip :=
    (if hd 0 path =? slash then iget ROOTDEV ROOTINO
     else
       let! p := lift cur in
       let! cwd := lift (getp p p_cwd) in
       let! ip := deref cwd in
       idup ip) in
  namex_loop (length path) ip path nameiparent name.

Definition namei (path : list Z) : M fsst (option nat) :=
  let! r := namex path false (replicate (Z.to_nat DIRSIZ) 0) in
  mret' r.1.

Definition nameiparent (path name : list Z) : M fsst (option nat * list Z) :=
  namex path true name.
End FsPath.
