(* ===== verification/FsTyped.v ===== *)
(** * The types of blocks and inodes

    The C program declares blocks as arrays of 1024 [uchar], the fields of an
    inode as [short] and [uint] and its addresses as an array of 13 [uint].
    In the model they are integers and lists, and the operations of [bio.c]
    and [fs.c] keep them in these ranges. *)
From S2P Require Import Prelude CString Spinlock Layout Dll Blocks Kalloc Vm Proc ProcSpec Quiet.
From S2P Require Import Sleeplock Bio Log Fs FsPath Keeps.

Definition is_byte (x : Z) : Prop := 0 <= x < 2 ^ 8.
Definition is_short (x : Z) : Prop := - 2 ^ 15 <= x < 2 ^ 15.
Definition is_uint (x : Z) : Prop := 0 <= x < 2 ^ 32.

(** [uchar data[BSIZE]]. *)
Definition is_block (d : list Z) : Prop := length d = Z.to_nat BSIZE /\ Forall is_byte d.

(** ** Blocks *)

Lemma is_byte_u8 x : is_byte (u8 x).
Proof. unfold is_byte, u8. apply Z.mod_pos_bound. lia. Qed.

Lemma le_bytes n v : Forall is_byte (le n v).
Proof. revert v. induction n; intros v; cbn [le]; constructor; [apply is_byte_u8|done]. Qed.

Lemma zero_is_block : is_block zero_block.
Proof. split; [apply length_replicate|]. apply Forall_replicate. unfold is_byte. lia. Qed.

Lemma patch_is_block d o l : is_block d -> 0 <= o -> o + zlen l <= BSIZE -> Forall is_byte l -> is_block (patch d o l).
Proof.
  intros [H1 H2] Ho Hl Hb. split.
  - rewrite length_patch; [done|done|]. unfold zlen in *. rewrite H1. unfold BSIZE in *. lia.
  - unfold patch. apply Forall_app. split; [by apply Forall_take|]. apply Forall_app. split; [done|by apply Forall_drop].
Qed.

Lemma putn_is_block n d o v : is_block d -> 0 <= o -> o + Z.of_nat n <= BSIZE -> is_block (patch d o (le n v)).
Proof. intros H1 H2 H3. apply patch_is_block; [done|done|unfold zlen; by rewrite length_le|apply le_bytes]. Qed.

Lemma get32_uint d o : Forall is_byte d -> is_uint (get32 d o).
Proof. intros H. unfold is_uint, get32. pose proof (getn_range 4 d o H). lia. Qed.

(** ** Buffers and the disk *)

Definition blocks_typed (b : bst) : Prop :=
  (forall u, is_block (b_data (buf_of b u))) /\ (forall n d, disk b !! n = Some d -> is_block d).

Definition data_kept (f : buf -> buf) : Prop := forall x, b_data (f x) = b_data x.

Lemma updb_typed b f s : blocks_typed s -> is_block (b_data (f (buf_of s b))) ->
  blocks_typed (mkbst (b_sl s) (<[b := f (buf_of s b)]> (bufs s)) (disk s) (dwrites s)).
Proof.
  intros [H1 H2] Hf. split; [|done]. intros u. unfold buf_of. cbn [bufs].
  destruct (decide (u = b)) as [->|]; [by rewrite lookup_insert_eq|]. rewrite lookup_insert_ne by done. apply H1.
Qed.

Lemma keeps_updb b f : data_kept f -> keeps blocks_typed any (updb b f).
Proof. intros Hf. apply keeps_modify. intros s Hs. apply updb_typed; [done|]. rewrite Hf. apply Hs. Qed.

Lemma keeps_setb b d : is_block d -> keeps blocks_typed any (updb b (set_bdata d)).
Proof. intros Hd. apply keeps_modify. intros s Hs. by apply updb_typed. Qed.

Lemma keeps_getb {A} b (f : buf -> A) : keeps blocks_typed any (getb b f).
Proof. by apply keeps_gets. Qed.

Lemma keeps_getdata_b b : keeps blocks_typed is_block (getb b b_data).
Proof. apply keeps_gets. intros s [Hs _]. apply Hs. Qed.

Lemma keeps_b_slst {A} (m : M slst A) : keeps blocks_typed any (lift m).
Proof. apply keeps_lift_any; [by intros [] []|apply keeps_trivial]. Qed.
Lemma keeps_b_hart {A} (m : M hart A) : keeps blocks_typed any (lift m).
Proof. apply keeps_lift_any; [by intros [] []|apply keeps_trivial]. Qed.

#[export] Hint Resolve keeps_getb keeps_b_slst keeps_b_hart keeps_setb : keeps.
#[export] Hint Extern 1 (keeps _ _ (updb _ _)) => apply keeps_updb; intros ?; reflexivity : keeps.

Lemma keeps_bget_cached k b dev n : keeps blocks_typed any (bget_cached k b dev n).
Proof. revert b. induction k; intros b; cbn [bget_cached]; keeps_run; auto. Qed.
Lemma keeps_bget_unused k b : keeps blocks_typed any (bget_unused k b).
Proof. revert b. induction k; intros b; cbn [bget_unused]; keeps_run; auto. Qed.
#[export] Hint Resolve keeps_bget_cached keeps_bget_unused : keeps.

Lemma keeps_disk_read n : keeps blocks_typed is_block (gets (fun s => default zero_block (disk s !! n))).
Proof.
  apply keeps_gets. intros s [_ Hs]. destruct (disk s !! n) as [d|] eqn:E; cbn; [by eapply Hs|apply zero_is_block].
Qed.
#[export] Hint Resolve keeps_disk_read : keeps.

Lemma keeps_bread fuel dev n : keeps blocks_typed any (bread fuel dev n).
Proof. unfold bread, bget, disk_rw. keeps_run. Qed.

Lemma keeps_brelse b : keeps blocks_typed any (brelse b).
Proof. unfold brelse, bpush. keeps_run. Qed.
Lemma keeps_bpin b : keeps blocks_typed any (bpin b).
Proof. unfold bpin. keeps_run. Qed.
#[export] Hint Resolve keeps_bread keeps_brelse keeps_bpin : keeps.

(** ** The log *)

Definition log_typed (l : lst) : Prop := blocks_typed (l_b l).

Lemma keeps_l_bst {A} R (m : M bst A) : keeps blocks_typed R m -> keeps log_typed R (lift m).
Proof. apply keeps_lift; [done|]. by intros [] s. Qed.
Lemma keeps_l_hart {A} (m : M hart A) : keeps log_typed any (lift m).
Proof. apply keeps_lift_any; [by intros [[] ] []|apply keeps_trivial]. Qed.
Lemma keeps_getl {A} (f : log -> A) : keeps log_typed any (getl f).
Proof. by apply keeps_gets. Qed.
Lemma keeps_updl f : keeps log_typed any (updl f).
Proof. by apply keeps_modify. Qed.
#[export] Hint Resolve keeps_l_bst keeps_l_hart keeps_getl keeps_updl : keeps.

Lemma keeps_log_write b : keeps log_typed any (log_write b).
Proof. unfold log_write. keeps_run. Qed.
#[export] Hint Resolve keeps_log_write : keeps.

(** ** The superblock and the inodes *)

Record sb_typed (sb : superblock) : Prop := {
  sbt_size : is_uint (sb_size sb);
  sbt_ninodes : is_uint (sb_ninodes sb);
}.

(** [struct inode] of file.h: [uint] device and number, [short] fields,
    [uint] size and 13 [uint] addresses. *)
Record inode_typed (i : inode) : Prop := {
  it_dev : is_uint (i_dev i);
  it_inum : is_uint (i_inum i);
  it_type : is_short (i_type i);
  it_major : is_short (i_major i);
  it_minor : is_short (i_minor i);
  it_nlink : is_short (i_nlink i);
  it_size : is_uint (i_size i);
  it_naddrs : length (i_addrs i) = 13%nat;
  it_addrs : Forall is_uint (i_addrs i);
}.

Record fs_typed (s : fsst) : Prop := {
  fty_blocks : log_typed (fs_l s);
  fty_sb : sb_typed (fs_sb s);
  fty_inodes : forall ip, inode_typed (inode_of s ip);
}.

Lemma keeps_fs_lst {A} R (m : M lst A) : keeps log_typed R m -> keeps fs_typed R (lift m).
Proof. apply keeps_lift; [apply fty_blocks|]. intros t s [H1 H2 H3] Hs. by constructor. Qed.
Lemma keeps_fs_bst {A} R (m : M bst A) : keeps blocks_typed R m -> keeps fs_typed R (lift m).
Proof. apply keeps_lift; [apply fty_blocks|]. intros t s [H1 H2 H3] Hs. by constructor. Qed.
Lemma keeps_fs_slst {A} (m : M slst A) : keeps fs_typed any (lift m).
Proof. apply keeps_lift_any; [|apply keeps_trivial]. intros t s [H1 H2 H3]. constructor; [exact H1|done|done]. Qed.
Lemma keeps_fs_pst {A} R (m : M pst A) : keeps any R m -> keeps fs_typed R (lift m).
Proof. apply keeps_lift_any. intros t s [H1 H2 H3]. constructor; [exact H1|done|done]. Qed.
Lemma keeps_fs_hart {A} (m : M hart A) : keeps fs_typed any (lift m).
Proof. apply keeps_lift_any; [|apply keeps_trivial]. intros t s [H1 H2 H3]. constructor; [exact H1|done|done]. Qed.

Lemma keeps_geti ip : keeps fs_typed inode_typed (geti ip id).
Proof. apply keeps_gets. intros s Hs. apply Hs. Qed.
Lemma keeps_geti_any {A} ip (f : inode -> A) : keeps fs_typed any (geti ip f).
Proof. by apply keeps_gets. Qed.
Lemma keeps_getsb : keeps fs_typed sb_typed (getsb id).
Proof. apply keeps_gets. intros s Hs. apply Hs. Qed.
Lemma keeps_getsb_any {A} (f : superblock -> A) : keeps fs_typed any (getsb f).
Proof. by apply keeps_gets. Qed.
Lemma keeps_kprint msg : keeps fs_typed any (kprint msg).
Proof. apply keeps_modify. intros s [H1 H2 H3]. by constructor. Qed.
Lemma keeps_updi ip f : (forall i, inode_typed i -> inode_typed (f i)) -> keeps fs_typed any (updi ip f).
Proof.
  intros Hf. apply keeps_modify. intros s [H1 H2 H3]. constructor; [done|done|]. intros j. unfold inode_of. cbn.
  destruct (decide (j = ip)) as [->|]; [rewrite lookup_insert_eq; apply Hf, H3|]. rewrite lookup_insert_ne by done. apply H3.
Qed.
Lemma keeps_getdata b : keeps fs_typed is_block (getdata b).
Proof. apply keeps_fs_bst, keeps_getdata_b. Qed.
Lemma keeps_setdata b d : is_block d -> keeps fs_typed any (setdata b d).
Proof. intros H. by apply keeps_fs_bst, keeps_setb. Qed.
#[export] Hint Resolve keeps_fs_lst keeps_fs_bst keeps_fs_slst keeps_fs_pst keeps_fs_hart keeps_kprint
  keeps_getdata keeps_geti keeps_getsb : keeps.
#[export] Hint Resolve keeps_geti_any keeps_getsb_any | 10 : keeps.

(** As [keeps_run], up to the types of what is stored. *)
Ltac fs_run := repeat (keeps_step || apply keeps_setdata || (apply keeps_updi; intros ? ?)); try exact I.

(** *** The bitmap *)

Lemma bit_is_block d bi x : is_block d -> 0 <= bi < BPB -> is_block (patch d (bi / 8) [u8 x]).
Proof.
  intros Hd Hb. apply patch_is_block; [done|unfold BPB, BSIZE in *; divlia| |].
  - unfold zlen. cbn [length]. unfold BPB, BSIZE in *. divlia.
  - apply Forall_singleton, is_byte_u8.
Qed.

Lemma balloc_scan_range k bi b size d r :
  balloc_scan k bi b size d = Some r -> 0 <= bi -> 0 <= r < BPB /\ b + r < size.
Proof.
  revert bi. induction k as [|k IH]; intros bi; cbn [balloc_scan]; [done|].
  destruct (Z.ltb_spec bi BPB); [|done]. destruct (Z.ltb_spec (b + bi) size); [|done]. cbn [andb].
  destruct (bit_used d bi); [|intros [= <-]; lia]. intros Hr Hbi. by apply IH in Hr; [|lia].
Qed.

Lemma keeps_bzero fuel dev b : keeps fs_typed any (bzero fuel dev b).
Proof. unfold bzero. fs_run. apply zero_is_block. Qed.
#[export] Hint Resolve keeps_bzero : keeps.

Lemma keeps_balloc_loop fuel k dev b : 0 <= b -> keeps fs_typed is_uint (balloc_loop fuel k dev b).
Proof.
  revert b. induction k as [|k IH]; intros b Hb; cbn [balloc_loop]; fs_run.
  all: try (unfold is_uint; lia).
  - apply bit_is_block; [done|]. by apply (balloc_scan_range _ _ _ _ _ _ E0).
  - destruct (balloc_scan_range _ _ _ _ _ _ E0) as [Q1 Q2]; [done|]. pose proof (sbt_size _ H) as Hs.
    unfold is_uint in *. lia.
  - apply IH. unfold BPB, BSIZE. lia.
Qed.

Lemma keeps_balloc fuel dev : keeps fs_typed is_uint (balloc fuel dev).
Proof. unfold balloc. fs_run. by apply keeps_balloc_loop. Qed.

Lemma keeps_bfree fuel dev b : keeps fs_typed any (bfree fuel dev b).
Proof. unfold bfree. fs_run. apply bit_is_block; [done|]. unfold BPB, BSIZE. divlia. Qed.
#[export] Hint Resolve keeps_balloc keeps_bfree : keeps.

(** *** Inodes *)

Lemma is_short_s16 x : is_short (s16 x).
Proof. unfold is_short, s16. pose proof (Z.mod_pos_bound (x + 2 ^ 15) (2 ^ 16)). lia. Qed.

Ltac inode_typed :=
  match goal with H : inode_typed _ |- inode_typed _ => destruct H; constructor; cbn; try done; try apply is_short_s16 end.

Lemma set_iaddr_typed k x i : inode_typed i -> is_uint x -> inode_typed (set_iaddr k x i).
Proof. intros H Hx. inode_typed; [by rewrite length_insert|by apply Forall_insert]. Qed.

Lemma keeps_iget dev inum : is_uint dev -> is_uint inum -> keeps fs_typed any (iget dev inum).
Proof. intros Hd Hi. unfold iget. fs_run; inode_typed. Qed.

Lemma keeps_idup ip : keeps fs_typed any (idup ip).
Proof. unfold idup. fs_run; inode_typed. Qed.

Lemma dinode_off_range inum : 0 <= dinode_off inum <= BSIZE - sizeof_dinode.
Proof. unfold dinode_off, IPB, sizeof_dinode, BSIZE. change (1024 / 64) with 16. divlia. Qed.

Lemma put_addrs_is_block d o l : is_block d -> 0 <= o -> o + 4 * zlen l <= BSIZE -> is_block (put_addrs d o l).
Proof.
  revert d o. induction l as [|x l IH]; intros d o Hd Ho Hl; cbn [put_addrs]; [done|]. rewrite zlen_cons in Hl.
  apply IH; [|lia|lia]. apply putn_is_block; [done|done|]. unfold zlen in Hl. lia.
Qed.

Lemma put_dinode_is_block d inum i : is_block d -> inode_typed i -> is_block (put_dinode d (dinode_off inum) i).
Proof.
  intros Hd Hi. pose proof (dinode_off_range inum) as Ho. unfold sizeof_dinode in Ho. unfold put_dinode.
  apply put_addrs_is_block; [|lia|unfold zlen; rewrite (it_naddrs _ Hi); lia].
  repeat (apply putn_is_block; [|lia|lia]). done.
Qed.

Lemma load_dinode_typed d o i : is_block d -> inode_typed i -> inode_typed (load_dinode d o i).
Proof.
  intros [_ Hd] Hi. inode_typed; [by apply get32_uint|]. unfold di_addrs. apply Forall_fmap, Forall_forall.
  intros x _. by apply get32_uint.
Qed.

Lemma keeps_ialloc_loop fuel k dev type inum :
  is_uint dev -> 0 <= inum -> keeps fs_typed any (ialloc_loop fuel k dev type inum).
Proof.
  intros Hdev. revert inum. induction k as [|k IH]; intros inum Hi; cbn [ialloc_loop]; fs_run.
  - pose proof (dinode_off_range inum) as Ho. unfold sizeof_dinode in Ho. apply putn_is_block; [|lia|lia].
    apply patch_is_block; [done|lia|unfold zlen; rewrite length_replicate; unfold sizeof_dinode; lia|].
    apply Forall_replicate. unfold is_byte. lia.
  - apply keeps_iget; [done|]. apply Z.ltb_lt in E. pose proof (sbt_ninodes _ H). unfold is_uint in *. lia.
  - apply IH. lia.
Qed.

Lemma keeps_ialloc fuel dev type : is_uint dev -> keeps fs_typed any (ialloc fuel dev type).
Proof. intros Hdev. unfold ialloc. fs_run. by apply keeps_ialloc_loop. Qed.

Lemma keeps_iupdate fuel ip : keeps fs_typed any (iupdate fuel ip).
Proof. unfold iupdate. fs_run. by apply put_dinode_is_block. Qed.
#[export] Hint Resolve keeps_iget keeps_idup keeps_ialloc keeps_iupdate : keeps.

Lemma keeps_ilock fuel ip : keeps fs_typed any (ilock fuel ip).
Proof. unfold ilock. fs_run; [by apply load_dinode_typed|inode_typed]. Qed.

Lemma keeps_iunlock ip : keeps fs_typed any (iunlock ip).
Proof. unfold iunlock. fs_run. Qed.
#[export] Hint Resolve keeps_ilock keeps_iunlock : keeps.

Lemma addr_of_uint i k : inode_typed i -> is_uint (addr_of i k).
Proof.
  intros Hi. unfold addr_of. rewrite nth_lookup. destruct (i_addrs i !! _) as [x|] eqn:E; cbn; [|unfold is_uint; lia].
  eapply Forall_lookup_1; [apply Hi|done].
Qed.

Lemma keeps_bmap fuel ip bn : keeps fs_typed any (bmap fuel ip bn).
Proof.
  unfold bmap. fs_run.
  - by apply set_iaddr_typed.
  - by apply set_iaddr_typed.
  - apply Z.ltb_ge in E. apply Z.ltb_lt in E0. unfold NINDIRECT, BSIZE in E0. change (1024 / 4) with 256 in E0.
    apply putn_is_block; [done|lia|unfold BSIZE; lia].
Qed.

Lemma uint_0 : is_uint 0.
Proof. unfold is_uint. lia. Qed.

Lemma keeps_itrunc_direct fuel k ip i : keeps fs_typed any (itrunc_direct fuel k ip i).
Proof. revert i. induction k as [|k IH]; intros i; cbn [itrunc_direct]; fs_run. apply set_iaddr_typed; [done|apply uint_0]. Qed.
Lemma keeps_itrunc_indirect fuel k ip bp j : keeps fs_typed any (itrunc_indirect fuel k ip bp j).
Proof. revert j. induction k as [|k IH]; intros j; cbn [itrunc_indirect]; fs_run. Qed.
#[export] Hint Resolve keeps_bmap keeps_itrunc_direct keeps_itrunc_indirect : keeps.

Lemma keeps_itrunc fuel ip : keeps fs_typed any (itrunc fuel ip).
Proof.
  unfold itrunc. fs_run; [apply set_iaddr_typed; [done|apply uint_0]|]. inode_typed.
Qed.
#[export] Hint Resolve keeps_itrunc : keeps.

Lemma keeps_iput fuel ip : keeps fs_typed any (iput fuel ip).
Proof. unfold iput. fs_run; inode_typed. Qed.
#[export] Hint Resolve keeps_iput : keeps.

Lemma keeps_iunlockput fuel ip : keeps fs_typed any (iunlockput fuel ip).
Proof. unfold iunlockput. fs_run. Qed.
#[export] Hint Resolve keeps_iunlockput : keeps.

(** ** Contents of files *)

Lemma bytes_bytes m a n : Forall is_byte (bytes m a n).
Proof. apply Forall_fmap, Forall_forall. intros i _. exact (is_byte_u8 (default 0 (m !! (a + Z.of_nat i)))).  Qed.

Definition fits (n : Z) (r : Z * list Z) : Prop := zlen r.2 <= n /\ Forall is_byte r.2.

Lemma keeps_bytes (P : mm -> Prop) a n :
  keeps P (fun bs => length bs = n /\ Forall is_byte bs) (gets (fun s => bytes (m_mem s) a n)).
Proof. apply keeps_gets. intros s _. split; [unfold bytes; by rewrite length_fmap, length_seq|apply bytes_bytes]. Qed.
#[export] Hint Resolve keeps_bytes : keeps.

Lemma keeps_copyin_loop fuel pt va len : keeps any (fits (Z.max 0 len)) (copyin_bytes_loop fuel pt va len).
Proof.
  revert va len. induction fuel as [|fuel IH]; intros va len; cbn [copyin_bytes_loop]; keeps_run.
  1,2,4: split; [unfold zlen; cbn; lia|done].
  destruct H0 as [H0 H0'], H1 as [H1 H1']. split; [|by apply Forall_app]. cbn [snd]. rewrite zlen_app. unfold zlen in *.
  rewrite H0. apply Z.ltb_lt in E. rewrite PGROUNDDOWN_eq in *. pose proof (Z.mod_pos_bound va 4096 eq_refl).
  destruct (Z.ltb_spec len (4096 - (va - (va - va mod 4096)))); lia.
Qed.

Lemma keeps_p_mm {A} R (m : M mm A) : keeps any R m -> keeps any R (lift (T:=pst) m).
Proof. by apply keeps_lift_any. Qed.

Lemma keeps_copyin u src len : 0 <= len -> keeps any (fits len) (either_copyin u src len).
Proof.
  intros Hl. unfold either_copyin. apply (keeps_bind _ any); [apply keeps_trivial|intros p _]. destruct u.
  - keeps_run. apply keeps_p_mm. replace len with (Z.max 0 len) at 1 by lia. apply keeps_copyin_loop.
  - eapply keeps_bind; [apply keeps_p_mm, keeps_bytes|]. intros bs [H1 H2]. apply keeps_ret.
    split; [unfold zlen; cbn [snd]; lia|done].
Qed.

(** A source that gives bytes. *)
Definition source_typed (s : source) : Prop := match s with FromLocal l => Forall is_byte l | _ => True end.

Lemma keeps_copy_from s tot m : source_typed s -> 0 <= m -> keeps fs_typed (fits m) (copy_from s tot m).
Proof.
  intros Hs Hm. destruct s as [va|a|l]; cbn [copy_from]; [by apply keeps_fs_pst, keeps_copyin..|].
  apply keeps_ret. split; [|by apply Forall_take, Forall_drop]. unfold zlen, slice. cbn [snd]. rewrite length_take. lia.
Qed.

Lemma keeps_copy_to d tot src : keeps fs_typed any (copy_to d tot src).
Proof. destruct d; cbn [copy_to]; fs_run. Qed.
#[export] Hint Resolve keeps_copy_to : keeps.

Lemma keeps_readi_loop fuel k ip d off n tot acc :
  Forall is_byte acc -> keeps fs_typed (fun r => Forall is_byte r.2) (readi_loop fuel k ip d off n tot acc).
Proof.
  revert off tot acc. induction k as [|k IH]; intros off tot acc Hacc; cbn [readi_loop]; fs_run; try done.
  apply IH, Forall_app. split; [done|]. apply Forall_take, Forall_drop. by apply H2.
Qed.

Lemma keeps_readi fuel ip d off n : keeps fs_typed (fun r => Forall is_byte r.2) (readi fuel ip d off n).
Proof. unfold readi. fs_run; [apply Forall_nil_2|]. apply keeps_readi_loop, Forall_nil_2. Qed.
#[export] Hint Resolve keeps_readi : keeps.

Lemma keeps_writei_loop fuel k ip s off n tot :
  source_typed s -> 0 <= off -> tot <= n ->
  keeps fs_typed (fun r => 0 <= r.2 <= off + (n - tot)) (writei_loop fuel k ip s off n tot).
Proof.
  intros Hs. revert off tot. induction k as [|k IH]; intros off tot Hoff Htot; cbn [writei_loop]; fs_run; cbn [snd].
  all: try lia.
  - pose proof (Z.mod_pos_bound off BSIZE eq_refl). apply Z.ltb_lt in E. apply keeps_copy_from; [done|lia].
  - destruct H2 as [H2 H2']. pose proof (Z.mod_pos_bound off BSIZE eq_refl). apply patch_is_block; [done|lia|lia|done].
  - pose proof (Z.mod_pos_bound off BSIZE eq_refl). apply Z.ltb_lt in E. set (m := _ `min` _) in *.
    eapply keeps_weaken; [apply IH; unfold m; lia|]. cbn. intros r. lia.
Qed.

Lemma keeps_writei fuel ip s off n :
  source_typed s -> 0 <= off -> 0 <= n -> keeps fs_typed any (writei fuel ip s off n).
Proof.
  intros Hs Hoff Hn. unfold writei. fs_run; [by apply keeps_writei_loop|]. inode_typed.
  apply Z.ltb_ge in E0. unfold is_uint, MAXFILE, NDIRECT, NINDIRECT, BSIZE in *. change (1024 / 4) with 256 in *. lia.
Qed.

(** ** Directories and paths *)

Lemma keeps_geti_dev ip : keeps fs_typed is_uint (geti ip i_dev).
Proof. apply keeps_gets. intros s Hs. apply it_dev, Hs. Qed.
#[export] Hint Resolve keeps_geti_dev : keeps.

Lemma de_inum_uint de : Forall is_byte de -> is_uint (de_inum de).
Proof. intros H. unfold is_uint, de_inum, get16. pose proof (getn_range 2 de 0 H). lia. Qed.
#[export] Hint Resolve de_inum_uint : keeps.

Lemma keeps_dirlookup_loop fuel k dp name off : keeps fs_typed any (dirlookup_loop fuel k dp name off).
Proof. revert off. induction k as [|k IH]; intros off; cbn [dirlookup_loop]; fs_run. Qed.
#[export] Hint Resolve keeps_dirlookup_loop : keeps.

Lemma keeps_dirlookup fuel dp name : keeps fs_typed any (dirlookup fuel dp name).
Proof. unfold dirlookup. fs_run. Qed.
#[export] Hint Resolve keeps_dirlookup : keeps.

Lemma keeps_dirlink_loop fuel k dp off :
  0 <= off -> keeps fs_typed (fun r => 0 <= r) (dirlink_loop fuel k dp off).
Proof.
  revert off. induction k as [|k IH]; intros off Hoff; cbn [dirlink_loop]; fs_run; try done. apply IH. unfold sizeof_dirent. lia.
Qed.

Lemma strncpy_bytes n t : Forall is_byte t -> Forall is_byte (strncpy_list n t).
Proof.
  revert t. induction n as [|n IH]; intros t Ht; cbn [strncpy_list]; [constructor|].
  destruct (hd 0 t =? 0); [apply Forall_replicate; unfold is_byte; lia|].
  destruct Ht as [|c t Hc Ht]; cbn [hd tl]; constructor; [unfold is_byte; lia|by apply IH; constructor|done|by apply IH].
Qed.

Lemma keeps_dirlink fuel dp name inum : Forall is_byte name -> keeps fs_typed any (dirlink fuel dp name inum).
Proof.
  intros Hn. unfold dirlink. fs_run; [by apply keeps_dirlink_loop|]. apply keeps_writei; [|done|unfold sizeof_dirent; lia].
  apply Forall_app. split; [apply le_bytes|by apply strncpy_bytes].
Qed.

Lemma keeps_namex_loop fuel k ip path par name : keeps fs_typed any (namex_loop fuel k ip path par name).
Proof. revert ip path name. induction k as [|k IH]; intros ip path name; cbn [namex_loop]; fs_run. Qed.
#[export] Hint Resolve keeps_namex_loop : keeps.

Lemma keeps_namex fuel path par name : keeps fs_typed any (namex fuel path par name).
Proof.
  assert (Hd : forall cwd : option nat, keeps fs_typed any (deref cwd)) by (intros []; done).
  unfold namex. fs_run. apply keeps_iget; split; done.
Qed.

Lemma keeps_readsb fuel dev : keeps fs_typed any (readsb fuel dev).
Proof.
  unfold readsb. fs_run. apply keeps_modify. intros s [H1' H2 H3]. constructor; [done| |done].
  constructor; cbn; apply get32_uint, H0.
Qed.


(** ** Example: the root inode is loaded into an empty table *)

Definition fs0 : fsst :=
  mkfsst (mklst (mkbst (mkslst (pst1 (mkhart 0 SSTATUS_SIE {[0%nat := mkcpu (Some 1%nat) 0 0]}
      (<[itable_lock := lock0]> locks1))) ∅) ∅ ∅ []) (mklog 0 0 0 0 0 0 ∅))
    (mksuperblock 0 0 0 0 0 0 0 0) ∅ [].

Lemma fs0_typed : fs_typed fs0.
Proof.
  constructor.
  - split; [intros u; apply zero_is_block|intros n d Hd].
    change ((∅ : gmap Z (list Z)) !! n = Some d) in Hd. by rewrite lookup_empty in Hd.
  - constructor; apply uint_0.
  - intros ip. constructor; cbn; try done; try apply uint_0. repeat constructor; done.
Qed.

