(* ===== verification/FsBlocks.v ===== *)
(** * Changing blocks in a transaction

    The file system reads, changes, logs and releases blocks through the
    buffer cache and the log. The lemmas here give these steps on the view:
    the blocks as a reader of the cache sees them. *)
From S2P Require Import Prelude CString Spinlock Layout Dll Blocks Kalloc Vm Proc ProcSpec Quiet.
From S2P Require Import Sleeplock Bio BioSpec Log LogDisk LogSpec LogOps Fs.

(** A process in a transaction that sees the blocks [v]. *)
Record fs_txn (s : fsst) (me : nat) (held pinned : list Z) (v : blocks) : Prop := {
  ft_log : log_ok (fs_l s) me held pinned;
  ft_view : forall n, view (l_b (fs_l s)) n = v n;
}.

(** What a step on blocks leaves alone; [held] are the buffers it leaves to
    their holders. *)
Record fs_step (s : fsst) (held : list Z) (s' : fsst) : Prop := {
  fst_sb : fs_sb s' = fs_sb s;
  fst_inodes : fs_inodes s' = fs_inodes s;
  fst_printed : fs_printed s' = fs_printed s;
  fst_start : l_start (l_log (fs_l s')) = l_start (l_log (fs_l s));
  fst_size : l_size (l_log (fs_l s')) = l_size (l_log (fs_l s));
  fst_outstanding : l_outstanding (l_log (fs_l s')) = l_outstanding (l_log (fs_l s));
  fst_disk : disk (l_b (fs_l s')) = disk (l_b (fs_l s));
  fst_held : forall w, w ∈ held -> blockno_of (l_b (fs_l s')) w = blockno_of (l_b (fs_l s)) w;
  fst_woke : woke (bpst (l_b (fs_l s))) (bpst (l_b (fs_l s')));
}.

Lemma fs_step_trans s h1 s1 h2 s2 :
  fs_step s h1 s1 -> fs_step s1 h2 s2 -> h2 ⊆ h1 -> fs_step s h2 s2.
Proof.
  intros [A1 A2 A3 A4 A5 A6 A7 A8 A9] [B1 B2 B3 B4 B5 B6 B7 B8 B9] Hsub. constructor; try congruence.
  - intros w Hw. rewrite B8 by done. apply A8. by apply Hsub.
  - by etrans.
Qed.

Lemma fs_step_sub s h1 s1 h2 : fs_step s h1 s1 -> h2 ⊆ h1 -> fs_step s h2 s1.
Proof. intros [A1 A2 A3 A4 A5 A6 A7 A8 A9] Hsub. constructor; try done. intros w Hw. apply A8. by apply Hsub. Qed.

Lemma fs_step_refl s h : fs_step s h s.
Proof. constructor; done. Qed.

(** A place of the disk that the file system may use: not in the log. *)
Definition fs_place (s : fsst) (n : Z) : Prop :=
  home_block n /\ outside (l_start (l_log (fs_l s))) (l_size (l_log (fs_l s))) n.

Lemma fs_place_step s h s' n : fs_step s h s' -> fs_place s n -> fs_place s' n.
Proof. intros H. unfold fs_place. by rewrite (fst_start _ _ _ H), (fst_size _ _ _ H). Qed.

(** Block [n] is in none of the buffers [held]. *)
Definition unheld (s : fsst) (held : list Z) (n : Z) : Prop :=
  forall w, w ∈ held -> blockno_of (l_b (fs_l s)) w <> n.

(** Buffer [u] has block [n] with the data [d], as on the disk unless it is
    logged. *)
Record opened (s : fsst) (pinned : list Z) (u n : Z) (d : list Z) : Prop := {
  op_blockno : blockno_of (l_b (fs_l s)) u = n;
  op_data : data_of (l_b (fs_l s)) u = d;
  op_clean : u ∈ pinned \/ d = dblock (l_b (fs_l s)) n;
}.

(** The state [s] with other buffers and another log. *)
Definition fs_with (s : fsst) (l : lst) : fsst := mkfsst l (fs_sb s) (fs_inodes s) (fs_printed s).

Lemma changed_step s me held pinned v l' :
  changed (fs_l s) me held pinned v l' -> fs_step s held (fs_with s l') /\ fs_txn (fs_with s l') me held pinned v.
Proof.
  intros [C1 C2 C3 C4 C5 (n & B & C6) C7]. split; constructor; cbn [fs_l fs_sb fs_inodes fs_printed fs_with]; try done.
  all: by rewrite C6.
Qed.

Lemma fs_read fuel s me held pinned v n :
  fs_txn s me held pinned v -> fs_place s n -> unheld s held n -> (length held + length pinned < NBUF)%nat ->
  exists u s', lift (bread fuel ROOTDEV n) s = Ok u s' /\ u ∉ held /\ fs_txn s' me (u :: held) pinned v /\
    fs_step s held s' /\ opened s' pinned u n (v n).
Proof.
  intros [T1 T2] [P1 P2] Hun Hroom. destruct s as [[b L] sb I P]. cbn [fs_l] in *.
  destruct (get_block fuel (mklst b L) me held pinned n T1) as (u & b' & E & Hu & R & Hok); [by constructor|].
  cbn [l_b l_log] in *. exists u, (mkfsst (mklst b' L) sb I P). split_and!.
  - exact (lift_ok (bread fuel ROOTDEV n) (mkfsst (mklst b L) sb I P) u b' E).
  - done.
  - constructor; cbn [fs_l l_b]; [done|]. intros m. by rewrite (rd_view _ _ _ _ _ _ _ R).
  - constructor; cbn [fs_l fs_sb fs_inodes fs_printed l_b l_log]; try done.
    + apply R.
    + intros w Hw. apply (rd_used _ _ _ _ _ _ _ R). by apply elem_of_app; left.
    + apply R.
  - constructor; cbn [fs_l l_b].
    + apply R.
    + by rewrite (rd_data _ _ _ _ _ _ _ R), T2.
    + destruct (decide (u ∈ pinned)) as [Hin|Hout]; [by left|right]. rewrite <-T2.
      transitivity (dblock b n); [|unfold dblock; by rewrite (rd_disk _ _ _ _ _ _ _ R)].
      apply (view_clean b me held pinned n (lo_bio _ _ _ _ T1)).
      intros w [Hw|Hw]%elem_of_app E'; [by apply (Hun w)|].
      apply Hout. replace u with w; [done|].
      apply (used_inj b' me (u :: held) pinned); [apply R|by apply elem_of_app; right|by left|].
      rewrite (rd_blockno _ _ _ _ _ _ _ R), <- E'. apply R. by apply elem_of_app; right.
Qed.

Lemma fs_getdata {A} s u (k : list Z -> M fsst A) : mbind' (getdata u) k s = k (data_of (l_b (fs_l s)) u) s.
Proof. by destruct s as [[b L] sb I P]. Qed.

Lemma fs_release s me held pinned v u n d :
  fs_txn s me (u :: held) pinned v -> opened s pinned u n d ->
  exists s', lift (brelse u) s = Ok tt s' /\ fs_txn s' me held pinned v /\ fs_step s held s'.
Proof.
  intros [T1 T2] [O1 O2 O3]. destruct (drop_block (fs_l s) me held pinned u T1) as (b' & E & C).
  { destruct O3 as [?|O3]; [by left|right]. by rewrite O2, O1. }
  destruct (changed_step _ _ _ _ _ _ C) as [S T]. exists (fs_with s (mklst b' (l_log (fs_l s)))). split_and!; [|..|done].
  - exact (lift_ok (brelse u) s tt b' E).
  - constructor; [apply T|]. intros m. by rewrite (ft_view _ _ _ _ _ T), T2.
Qed.

(** The state in which [setdata] leaves [s]. *)
Definition fs_put (s : fsst) (u : Z) (d : list Z) : fsst :=
  fs_with s (mklst (with_data (l_b (fs_l s)) u d) (l_log (fs_l s))).

Lemma fs_setdata {A} s u d (k : unit -> M fsst A) : mbind' (setdata u d) k s = k tt (fs_put s u d).
Proof. by destruct s as [[b L] sb I P]. Qed.

Lemma fs_log s me held pinned v u n d :
  fs_txn s me (u :: held) pinned v -> blockno_of (l_b (fs_l s)) u = n -> fs_place s n ->
  Z.of_nat (length pinned) < l_size (l_log (fs_l s)) - 1 -> 1 <= l_outstanding (l_log (fs_l s)) ->
  exists s', lift (log_write u) (fs_put s u d) = Ok tt s' /\
    fs_txn s' me (u :: held) (pin_one u pinned) (upd_block v n d) /\ fs_step s (u :: held) s'.
Proof.
  intros [T1 T2] Hn [P1 P2] Hroom Hout. destruct s as [[b L] sb I P]. cbn [fs_l l_b l_log] in *. subst n.
  destruct (log_block b L me (u :: held) pinned u d T1 ltac:(by left) P1 P2 Hroom Hout) as (l' & E & C).
  destruct (changed_step (mkfsst (mklst b L) sb I P) _ _ _ _ _ C) as [S T].
  exists (fs_with (mkfsst (mklst b L) sb I P) l'). split_and!; [|..|done].
  - exact (lift_ok (log_write u) (fs_put (mkfsst (mklst b L) sb I P) u d) tt l' E).
  - constructor; [apply T|]. intros m. rewrite (ft_view _ _ _ _ _ T). unfold upd_block. cbn [l_b fs_l].
    by rewrite T2.
Qed.

(** The change of an opened block to [d], with its release. *)
Lemma fs_change s me held pinned v u n d0 d :
  fs_txn s me (u :: held) pinned v -> opened s pinned u n d0 -> fs_place s n ->
  Z.of_nat (length pinned) < l_size (l_log (fs_l s)) - 1 -> 1 <= l_outstanding (l_log (fs_l s)) ->
  exists s' pinned', (setdata u d ;;; lift (log_write u) ;;; lift (brelse u)) s = Ok tt s' /\
    (forall A (k : unit -> M fsst A),
       mbind' (setdata u d) (fun _ => mbind' (lift (log_write u)) (fun _ => mbind' (lift (brelse u)) k)) s = k tt s') /\
    fs_txn s' me held pinned' (upd_block v n d) /\ fs_step s held s' /\
    pinned ⊆ pinned' /\ (length pinned' <= S (length pinned))%nat.
Proof.
  intros T O P Hroom Hout. destruct (fs_log s me held pinned v u n d T (op_blockno _ _ _ _ _ O) P Hroom Hout)
    as (s1 & E1 & T1 & S1).
  destruct (fs_release s1 me held (pin_one u pinned) _ u n (data_of (l_b (fs_l s1)) u) T1) as (s2 & E2 & T2 & S2).
  { constructor; [|done|left; apply pin_one_elem].
    rewrite (fst_held _ _ _ S1) by (by left). apply O. }
  exists s2, (pin_one u pinned). split_and!.
  - by rewrite fs_setdata, (bind_ok _ _ _ _ _ E1).
  - intros A k. by rewrite fs_setdata, (bind_ok _ _ _ _ _ E1), (bind_ok _ _ _ _ _ E2).
  - done.
  - eapply fs_step_trans; [exact S1|exact S2|]. intros w Hw. by right.
  - intros w Hw. unfold pin_one. case_decide; [done|]. by apply elem_of_app; left.
  - apply pin_one_length.
Qed.

Lemma opened_step s h s' pinned u n d :
  fs_step s h s' -> u ∈ h -> opened s pinned u n d -> data_of (l_b (fs_l s')) u = d -> opened s' pinned u n d.
Proof.
  intros S Hu [O1 O2 O3] Hd. constructor; [by rewrite (fst_held _ _ _ S)|done|].
  destruct O3 as [?|O3]; [by left|right]. rewrite O3. unfold dblock. by rewrite (fst_disk _ _ _ S).
Qed.

(** Room in the log and the cache for [k] more blocks. *)
Definition fs_room (s : fsst) (held pinned : list Z) (k : nat) : Prop :=
  Z.of_nat (length pinned + k) < l_size (l_log (fs_l s)) /\ (length held + length pinned + k <= NBUF)%nat /\
  1 <= l_outstanding (l_log (fs_l s)).

(** [bzero] zeroes exactly its block, in the transaction: afterwards
    readers see zeroes there and everything else as before, nothing has been
    written to the disk, and the log has at most one block more. *)
Lemma bzero_ok (fuel : nat) (s : fsst) (me : nat) (held pinned : list Z) (v : blocks) (n : Z) :
  fs_txn s me held pinned v -> fs_place s n -> unheld s held n -> fs_room s held pinned 1 ->
  exists s' pinned', bzero fuel ROOTDEV n s = Ok tt s' /\ fs_txn s' me held pinned' (upd_block v n zero_block) /\
    fs_step s held s' /\ pinned ⊆ pinned' /\ (length pinned' <= S (length pinned))%nat.
Proof.
  intros T P Hun (R1 & R2 & R3). unfold bzero. change (u32 ROOTDEV) with ROOTDEV. rewrite (u32_home n) by apply P.
  destruct (fs_read fuel s me held pinned v n T P Hun) as (u & s1 & E1 & Hu & T1 & S1 & O1); [lia|].
  rewrite (bind_ok _ _ _ _ _ E1).
  destruct (fs_change s1 me held pinned v u n (v n) zero_block T1 O1) as (s2 & pinned' & E2 & _ & T2 & S2 & P1 & P2).
  { by eapply fs_place_step. }
  { rewrite (fst_size _ _ _ S1). lia. }
  { by rewrite (fst_outstanding _ _ _ S1). }
  exists s2, pinned'. split_and!; try done. by eapply fs_step_trans.
Qed.
