(* ===== verification/FsSpec.v ===== *)
(** * The file system's bitmap and inodes on disk

    What [balloc], [bfree] and [iupdate] of [fs.c] do to the blocks a
    transaction sees. *)
From S2P Require Import Prelude CString Spinlock Layout Dll Blocks Kalloc Vm Proc ProcSpec Quiet.
From S2P Require Import Sleeplock Bio BioSpec Log LogDisk LogSpec LogOps Fs FsBlocks.

(** ** Bits *)

Lemma bit_used_testbit d bi : 0 <= bi -> bit_used d bi = Z.testbit (get8 d (bi / 8)) (bi mod 8).
Proof.
  intros H. unfold bit_used, bit_mask. set (x := get8 d (bi / 8)). pose proof (Z.mod_pos_bound bi 8 eq_refl) as Hm.
  set (k := bi mod 8) in *. destruct (Z.testbit x k) eqn:E.
  - apply negb_true_iff, Z.eqb_neq. intros H0.
    assert (Z.testbit (Z.land x (Z.shiftl 1 k)) k = false) as H1 by (rewrite H0; apply Z.bits_0).
    rewrite Z.land_spec, E, Z.shiftl_spec, Z.sub_diag in H1 by lia. done.
  - apply negb_false_iff, Z.eqb_eq. apply Z.bits_inj'. intros n Hn. rewrite Z.land_spec, Z.bits_0, Z.shiftl_spec by lia.
    destruct (Z.eq_dec n k) as [->|Hne]; [by rewrite E|]. apply andb_false_intro2.
    destruct (Z.ltb_spec n k); [apply Z.testbit_neg_r; lia|].
    rewrite (Z.bits_above_log2 1 (n - k)); [done|lia|cbn; lia].
Qed.

Lemma testbit_mask bi k : 0 <= k -> Z.testbit (bit_mask bi) k = (k =? bi mod 8).
Proof.
  intros Hk. unfold bit_mask. pose proof (Z.mod_pos_bound bi 8 eq_refl). rewrite Z.shiftl_spec by lia.
  destruct (Z.eqb_spec k (bi mod 8)) as [->|]; [by rewrite Z.sub_diag|].
  destruct (Z.ltb_spec k (bi mod 8)); [apply Z.testbit_neg_r; lia|].
  apply Z.bits_above_log2; [lia|cbn; lia].
Qed.

Lemma testbit_u8 x k : 0 <= k < 8 -> Z.testbit (u8 x) k = Z.testbit x k.
Proof. intros H. unfold u8. apply Z.mod_pow2_bits_low. lia. Qed.

Section Bits.
Context (d : list Z) (bi bj : Z) (Hd : length d = Z.to_nat BSIZE) (Hi : 0 <= bi < BPB) (Hj : 0 <= bj < BPB).

Lemma bit_place : (bj =? bi) = (bj / 8 =? bi / 8) && (bj mod 8 =? bi mod 8).
Proof.
  destruct (Z.eqb_spec bj bi) as [->|]; [by rewrite !Z.eqb_refl|]. symmetry. apply not_true_is_false.
  intros [?%Z.eqb_eq ?%Z.eqb_eq]%andb_true_iff. divlia.
Qed.

(** A patch of the byte of bit [bi]. *)
Lemma get8_bit_patch x : get8 (patch d (bi / 8) [x]) (bj / 8) = if bj / 8 =? bi / 8 then x else get8 d (bj / 8).
Proof.
  assert (0 <= bi / 8 < 1024 /\ 0 <= bj / 8 < 1024) as [H1 H2] by (unfold BPB, BSIZE in *; divlia).
  rewrite get8_patch; [|lia|unfold zlen; rewrite Hd; unfold BSIZE; cbn [length]; lia|lia].
  unfold zlen. cbn [length]. destruct (Z.eqb_spec (bj / 8) (bi / 8)) as [E|E].
  - rewrite decide_True by lia. rewrite E, Z.sub_diag. done.
  - rewrite decide_False by lia. done.
Qed.

Lemma set_bit_used : bit_used (set_bit d bi) bj = (bj =? bi) || bit_used d bj.
Proof.
  pose proof (Z.mod_pos_bound bj 8 eq_refl). rewrite !bit_used_testbit by lia. unfold set_bit.
  rewrite get8_bit_patch, bit_place. destruct (Z.eqb_spec (bj / 8) (bi / 8)) as [E|E]; [|done].
  rewrite testbit_u8, Z.lor_spec, testbit_mask, E by lia. cbn. apply orb_comm.
Qed.

Lemma clear_bit_used : bit_used (clear_bit d bi) bj = negb (bj =? bi) && bit_used d bj.
Proof.
  pose proof (Z.mod_pos_bound bj 8 eq_refl). rewrite !bit_used_testbit by lia. unfold clear_bit.
  rewrite get8_bit_patch, bit_place. destruct (Z.eqb_spec (bj / 8) (bi / 8)) as [E|E]; [|done].
  rewrite testbit_u8, Z.land_spec, Z.lnot_spec, testbit_mask, E by lia. cbn. apply andb_comm.
Qed.
End Bits.

Lemma length_bit_patch d bi x :
  length d = Z.to_nat BSIZE -> 0 <= bi < BPB -> length (patch d (bi / 8) [x]) = Z.to_nat BSIZE.
Proof.
  intros Hd Hi. assert (0 <= bi / 8 < 1024) by (unfold BPB, BSIZE in *; divlia).
  rewrite length_patch; [done|lia|]. unfold zlen. rewrite Hd. unfold BSIZE. cbn [length]. lia.
Qed.

(** ** The bitmap *)

(** Block [b] is marked in use in the bitmap of [v]. *)
Definition block_used (sb : superblock) (v : blocks) (b : Z) : bool := bit_used (v (BBLOCK b sb)) (b mod BPB).

(** The bitmap lies outside the log and in no held buffer, and what it says
    is free is neither in the log, nor held, nor part of the bitmap. *)
Record bitmap_ok (s : fsst) (held : list Z) (v : blocks) : Prop := {
  bm_size : 0 <= sb_size (fs_sb s) < 2 ^ 31 - BPB;
  bm_start : 0 <= sb_bmapstart (fs_sb s);
  bm_end : sb_bmapstart (fs_sb s) + sb_size (fs_sb s) / BPB < 2 ^ 31;
  bm_place : forall b, 0 <= b < sb_size (fs_sb s) ->
    fs_place s (BBLOCK b (fs_sb s)) /\ unheld s held (BBLOCK b (fs_sb s)) /\
    length (v (BBLOCK b (fs_sb s))) = Z.to_nat BSIZE;
  bm_free : forall b, 0 <= b < sb_size (fs_sb s) -> block_used (fs_sb s) v b = false ->
    fs_place s b /\ unheld s held b /\
    (forall b', 0 <= b' < sb_size (fs_sb s) -> BBLOCK b' (fs_sb s) <> b);
}.

Section Bitmap.
Context (s : fsst) (held : list Z) (v : blocks) (H : bitmap_ok s held v).
Notation sb := (fs_sb s).

Lemma BBLOCK_eq b : 0 <= b < sb_size sb -> BBLOCK b sb = b / BPB + sb_bmapstart sb.
Proof.
  intros Hb. unfold BBLOCK. apply u32_small. pose proof (bm_start _ _ _ H). pose proof (bm_end _ _ _ H).
  assert (0 <= b / BPB <= sb_size sb / BPB) by (unfold BPB, BSIZE in *; divlia). lia.
Qed.

(** The change of one bit of the bitmap. *)
Lemma bitmap_upd b f :
  0 <= b < sb_size sb ->
  (forall d i, length d = Z.to_nat BSIZE -> 0 <= i < BPB -> bit_used (f d) i = if i =? b mod BPB then bit_used (f d) i else bit_used d i) ->
  forall b', 0 <= b' < sb_size sb ->
  block_used sb (upd_block v (BBLOCK b sb) (f (v (BBLOCK b sb)))) b' =
  if b' =? b then bit_used (f (v (BBLOCK b sb))) (b mod BPB) else block_used sb v b'.
Proof.
  intros Hb Hf b' Hb'. destruct (bm_place _ _ _ H b Hb) as (_ & _ & Hd). unfold block_used, upd_block.
  destruct (Z.eqb_spec b' b) as [->|Hne]; [by rewrite decide_True|].
  case_decide as E; [|done]. rewrite !BBLOCK_eq in E by done. rewrite Hf.
  - destruct (Z.eqb_spec (b' mod BPB) (b mod BPB)) as [E'|_].
    + exfalso. apply Hne. unfold BPB, BSIZE in *. divlia.
    + by rewrite !BBLOCK_eq, E by done.
  - done.
  - unfold BPB, BSIZE. divlia.
Qed.
End Bitmap.

Lemma bpb_mod b : 0 <= b mod BPB < BPB.
Proof. unfold BPB, BSIZE. divlia. Qed.

(** Block [b] marked in use, and marked free. *)
Definition marked (sb : superblock) (v : blocks) (b : Z) : blocks :=
  upd_block v (BBLOCK b sb) (set_bit (v (BBLOCK b sb)) (b mod BPB)).
Definition unmarked (sb : superblock) (v : blocks) (b : Z) : blocks :=
  upd_block v (BBLOCK b sb) (clear_bit (v (BBLOCK b sb)) (b mod BPB)).

Lemma marked_used s held v b b' :
  bitmap_ok s held v -> 0 <= b < sb_size (fs_sb s) -> 0 <= b' < sb_size (fs_sb s) ->
  block_used (fs_sb s) (marked (fs_sb s) v b) b' = (b' =? b) || block_used (fs_sb s) v b'.
Proof.
  intros H Hb Hb'. pose proof (bpb_mod b). destruct (bm_place _ _ _ H b Hb) as (_ & _ & Hd). unfold marked.
  rewrite (bitmap_upd s held v H b (fun d => set_bit d (b mod BPB))); [|done| |done].
  - destruct (b' =? b); [|done]. rewrite set_bit_used, Z.eqb_refl; done.
  - intros d i Hd' Hi. rewrite set_bit_used by done. destruct (Z.eqb_spec i (b mod BPB)); done.
Qed.

Lemma unmarked_used s held v b b' :
  bitmap_ok s held v -> 0 <= b < sb_size (fs_sb s) -> 0 <= b' < sb_size (fs_sb s) ->
  block_used (fs_sb s) (unmarked (fs_sb s) v b) b' = negb (b' =? b) && block_used (fs_sb s) v b'.
Proof.
  intros H Hb Hb'. pose proof (bpb_mod b). destruct (bm_place _ _ _ H b Hb) as (_ & _ & Hd). unfold unmarked.
  rewrite (bitmap_upd s held v H b (fun d => clear_bit d (b mod BPB))); [|done| |done].
  - destruct (b' =? b); [|done]. rewrite clear_bit_used, Z.eqb_refl; done.
  - intros d i Hd' Hi. rewrite clear_bit_used by done. destruct (Z.eqb_spec i (b mod BPB)); done.
Qed.

(** [bfree] of a block that is in use marks exactly that block free, in
    the transaction and with nothing else changed; of a block that is already
    free it panics. *)
Theorem bfree_correct (fuel : nat) (s : fsst) (me : nat) (held pinned : list Z) (v : blocks) (b : Z) :
  fs_txn s me held pinned v -> bitmap_ok s held v -> fs_room s held pinned 1 -> 0 <= b < sb_size (fs_sb s) ->
  if block_used (fs_sb s) v b then
    exists s' pinned' v', bfree fuel ROOTDEV b s = Ok tt s' /\ fs_txn s' me held pinned' v' /\
      (forall b', 0 <= b' < sb_size (fs_sb s) ->
         block_used (fs_sb s) v' b' = negb (b' =? b) && block_used (fs_sb s) v b') /\
      (forall n, n <> BBLOCK b (fs_sb s) -> v' n = v n) /\
      fs_step s held s' /\ (length pinned' <= S (length pinned))%nat
  else bfree fuel ROOTDEV b s = Panic "freeing free block".
Proof.
  intros T Hbm (R1 & R2 & R3) Hb. destruct (bm_place _ _ _ Hbm b Hb) as (P & Hun & Hd).
  set (n := BBLOCK b (fs_sb s)) in *.
  destruct (fs_read fuel s me held pinned v n T P Hun) as (u & s1 & E1 & Hu & T1 & S1 & O1); [lia|].
  assert (Ebf : bfree fuel ROOTDEV b s = (if negb (bit_used (v n) (b mod BPB)) then panic "freeing free block"
    else setdata u (clear_bit (v n) (b mod BPB)) ;;; lift (log_write u) ;;; lift (brelse u)) s1).
  { unfold bfree, getsb. rewrite bind_gets. change (u32 ROOTDEV) with ROOTDEV. cbn [id].
    by rewrite (bind_ok _ _ _ _ _ E1), fs_getdata, (op_data _ _ _ _ _ O1). }
  unfold block_used. fold n. rewrite Ebf. destruct (bit_used (v n) (b mod BPB)) eqn:Eb; cbn [negb]; [|done].
  destruct (fs_change s1 me held pinned v u n (v n) (clear_bit (v n) (b mod BPB)) T1 O1)
    as (s2 & pinned' & E2 & _ & T2 & S2 & P1 & P2).
  { by eapply fs_place_step. }
  { rewrite (fst_size _ _ _ S1). lia. }
  { by rewrite (fst_outstanding _ _ _ S1). }
  exists s2, pinned', (unmarked (fs_sb s) v b). split_and!; try done.
  - intros b' Hb'. by apply (unmarked_used s held).
  - intros m Hm. unfold unmarked, upd_block. by rewrite decide_False.
  - by eapply fs_step_trans.
Qed.

(** ** Allocation *)

Lemma balloc_scan_some k bi b size d r :
  balloc_scan k bi b size d = Some r -> 0 <= bi ->
  bi <= r < BPB /\ b + r < size /\ bit_used d r = false /\ forall j, bi <= j < r -> bit_used d j = true.
Proof.
  revert bi. induction k as [|k IH]; intros bi; [done|]. cbn [balloc_scan].
  destruct (Z.ltb_spec bi BPB); [|done]. destruct (Z.ltb_spec (b + bi) size); [|done]. cbn [andb].
  destruct (bit_used d bi) eqn:E.
  - intros Hr Hbi. destruct (IH (bi + 1) Hr ltac:(lia)) as (H1 & H2 & H3 & H4). split_and!; try lia; [done|].
    intros j Hj. destruct (Z.eq_dec j bi) as [->|]; [done|]. apply H4. lia.
  - intros [= <-] Hbi. split_and!; try lia; done.
Qed.

Lemma balloc_scan_none k bi b size d :
  balloc_scan k bi b size d = None -> BPB <= bi + Z.of_nat k ->
  forall j, bi <= j < BPB -> b + j < size -> bit_used d j = true.
Proof.
  revert bi. induction k as [|k IH]; intros bi; cbn [balloc_scan].
  { intros _ Hk j Hj. lia. }
  destruct (Z.ltb_spec bi BPB); [|intros; lia]. destruct (Z.ltb_spec (b + bi) size); [|intros; lia]. cbn [andb].
  destruct (bit_used d bi) eqn:E; [|done]. intros Hr Hk j Hj Hs.
  destruct (Z.eq_dec j bi) as [->|]; [done|]. apply (IH (bi + 1) Hr); lia.
Qed.

Lemma bitmap_ok_step s held v s' : fs_step s held s' -> bitmap_ok s held v -> bitmap_ok s' held v.
Proof.
  intros S [B1 B2 B3 B4 B5]. constructor; rewrite ?(fst_sb _ _ _ S); try done.
  - intros b Hb. destruct (B4 b Hb) as (P1 & P2 & P3). split_and!; [by eapply fs_place_step| |done].
    intros w Hw. rewrite (fst_held _ _ _ S) by done. by apply P2.
  - intros b Hb Hf. destruct (B5 b Hb Hf) as (P1 & P2 & P3). split_and!; [by eapply fs_place_step| |done].
    intros w Hw. rewrite (fst_held _ _ _ S) by done. by apply P2.
Qed.

Lemma fs_room_step s held pinned k s' : fs_step s held s' -> fs_room s held pinned k -> fs_room s' held pinned k.
Proof. intros S. unfold fs_room. by rewrite (fst_size _ _ _ S), (fst_outstanding _ _ _ S). Qed.

(** [b] is the first free block. *)
Definition first_free (sb : superblock) (v : blocks) (b : Z) : Prop :=
  0 <= b < sb_size sb /\ block_used sb v b = false /\ forall b', 0 <= b' < b -> block_used sb v b' = true.

(** The outcome of [balloc] from [s]: the first free block, marked and
    zeroed, or [0] when there is none. *)
Definition balloc_post (s : fsst) (me : nat) (held pinned : list Z) (v : blocks) (r : res fsst Z) : Prop :=
  (exists b s' pinned', r = Ok b s' /\ first_free (fs_sb s) v b /\
     fs_txn s' me held pinned' (upd_block (marked (fs_sb s) v b) b zero_block) /\
     fs_step s held s' /\ (length pinned' <= 2 + length pinned)%nat) \/
  (exists s', r = Ok 0 s' /\ (forall b, 0 <= b < sb_size (fs_sb s) -> block_used (fs_sb s) v b = true) /\
     fs_txn s' me held pinned v /\ fs_printed s' = fs_printed s ++ ["balloc: out of blocks"%string]).

(** The bit that [balloc] sees at offset [i] of the bitmap block of [b]. *)
Lemma bitmap_bit s held v b i :
  bitmap_ok s held v -> 0 <= b -> b mod BPB = 0 -> 0 <= i < BPB -> b + i < sb_size (fs_sb s) ->
  block_used (fs_sb s) v (b + i) = bit_used (v (BBLOCK b (fs_sb s))) i /\
  BBLOCK (b + i) (fs_sb s) = BBLOCK b (fs_sb s) /\ (b + i) mod BPB = i.
Proof.
  intros H Hb Hm Hi Hs. unfold block_used. assert (Hn : BBLOCK (b + i) (fs_sb s) = BBLOCK b (fs_sb s)).
  { rewrite !(BBLOCK_eq s held v H) by lia. f_equal. unfold BPB, BSIZE in *. divlia. }
  assert ((b + i) mod BPB = i) as -> by (unfold BPB, BSIZE in *; divlia). by rewrite Hn.
Qed.

Lemma balloc_take fuel s me held pinned v u b bi :
  fs_txn s me (u :: held) pinned v -> opened s pinned u (BBLOCK b (fs_sb s)) (v (BBLOCK b (fs_sb s))) ->
  bitmap_ok s held v -> fs_room s held pinned 2 -> 0 <= b -> b mod BPB = 0 -> 0 <= bi < BPB ->
  first_free (fs_sb s) v (b + bi) ->
  exists s' pinned',
    (setdata u (set_bit (v (BBLOCK b (fs_sb s))) bi) ;;; lift (log_write u) ;;; lift (brelse u) ;;;
     bzero fuel ROOTDEV (b + bi) ;;; mret' (b + bi)) s = Ok (b + bi) s' /\
    fs_txn s' me held pinned' (upd_block (marked (fs_sb s) v (b + bi)) (b + bi) zero_block) /\
    fs_step s held s' /\ (length pinned' <= 2 + length pinned)%nat.
Proof.
  intros T O Hbm (R1 & R2 & R3) Hb Hm Hbi (F1 & F2 & _).
  destruct (bitmap_bit s held v b bi Hbm Hb Hm Hbi ltac:(lia)) as (_ & Hn & Hbit).
  destruct (bm_free _ _ _ Hbm (b + bi) F1 F2) as (P & Hun & _).
  destruct (fs_change s me held pinned v u _ _ (set_bit (v (BBLOCK b (fs_sb s))) bi) T O)
    as (s1 & pinned1 & _ & E1 & T1 & S1 & P1 & P2).
  { apply (bm_place _ _ _ Hbm). lia. }
  { lia. }
  { lia. }
  destruct (bzero_ok fuel s1 me held pinned1 _ (b + bi) T1) as (s2 & pinned2 & E2 & T2 & S2 & _ & P3).
  { by eapply fs_place_step. }
  { intros w Hw. rewrite (fst_held _ _ _ S1) by done. by apply Hun. }
  { unfold fs_room. rewrite (fst_size _ _ _ S1), (fst_outstanding _ _ _ S1). lia. }
  exists s2, pinned2. split_and!.
  - by rewrite E1, (bind_ok _ _ _ _ _ E2).
  - unfold marked. rewrite Hn, Hbit. exact T2.
  - by eapply fs_step_trans.
  - lia.
Qed.

Lemma balloc_post_step s me held pinned v s1 r :
  fs_step s held s1 -> balloc_post s1 me held pinned v r -> balloc_post s me held pinned v r.
Proof.
  intros S. unfold balloc_post. rewrite (fst_sb _ _ _ S), (fst_printed _ _ _ S).
  intros [(b & s' & pinned' & E & F & T & S' & P)|Hn]; [left|by right].
  exists b, s', pinned'. split_and!; try done. by eapply fs_step_trans.
Qed.

Lemma balloc_loop_ok fuel me held pinned v k : forall s b,
  fs_txn s me held pinned v -> bitmap_ok s held v -> fs_room s held pinned 2 ->
  0 <= b -> b mod BPB = 0 -> sb_size (fs_sb s) <= b + BPB * Z.of_nat k ->
  (forall b', 0 <= b' < b -> b' < sb_size (fs_sb s) -> block_used (fs_sb s) v b' = true) ->
  balloc_post s me held pinned v (balloc_loop fuel k ROOTDEV b s).
Proof.
  induction k as [|k IH]; intros s b T Hbm R Hb Hm Hk Hall; cbn [balloc_loop]; unfold getsb; rewrite bind_gets; cbn [id].
  { destruct (Z.ltb_spec b (sb_size (fs_sb s))); [lia|]. right. eexists. split; [done|]. split_and!.
    - intros b' Hb'. apply Hall; lia.
    - destruct T as [T1 T2]. by constructor.
    - done. }
  destruct (Z.ltb_spec b (sb_size (fs_sb s))) as [Hlt|Hge].
  2: { right. eexists. split; [done|]. split_and!.
    - intros b' Hb'. apply Hall; lia.
    - destruct T as [T1 T2]. by constructor.
    - done. }
  destruct (bm_place _ _ _ Hbm b ltac:(lia)) as (P & Hun & Hd).
  destruct (fs_read fuel s me held pinned v _ T P Hun) as (u & s1 & E1 & Hu & T1 & S1 & O1); [destruct R; lia|].
  rewrite (bind_ok _ _ _ _ _ E1), fs_getdata, (op_data _ _ _ _ _ O1).
  apply (bitmap_ok_step _ _ _ _ S1) in Hbm as Hbm1. apply (fs_room_step _ _ _ _ _ S1) in R as R1.
  apply (balloc_post_step _ _ _ _ _ _ _ S1). rewrite <-!(fst_sb _ _ _ S1) in *.
  destruct (balloc_scan _ 0 b _ _) as [bi|] eqn:Es.
  - left. destruct (balloc_scan_some _ _ _ _ _ _ Es ltac:(lia)) as (Q1 & Q2 & Q3 & Q4).
    assert (F : first_free (fs_sb s1) v (b + bi)).
    { split_and!; [lia..| |].
      - by destruct (bitmap_bit s1 held v b bi Hbm1 Hb Hm Q1 Q2) as (-> & _).
      - intros b' Hb'. destruct (Z.ltb_spec b' b); [apply Hall; lia|].
        destruct (bitmap_bit s1 held v b (b' - b) Hbm1 Hb Hm ltac:(lia) ltac:(lia)) as (E & _).
        replace (b + (b' - b)) with b' in E by lia. rewrite E. apply Q4. lia. }
    destruct (balloc_take fuel s1 me held pinned v u b bi T1 O1 Hbm1 R1 Hb Hm Q1 F) as (s2 & p2 & E2 & T2 & S2 & L2).
    exists (b + bi), s2, p2. done.
  - destruct (fs_release s1 me held pinned v u _ _ T1 O1) as (s2 & E2 & T2 & S2). rewrite (bind_ok _ _ _ _ _ E2).
    apply (balloc_post_step _ _ _ _ _ _ _ S2). rewrite <-(fst_sb _ _ _ S2) in *. apply IH; try done.
    + by eapply bitmap_ok_step.
    + by eapply fs_room_step.
    + unfold BPB, BSIZE in *. lia.
    + unfold BPB, BSIZE in *. divlia.
    + lia.
    + intros b' Hb' Hs. destruct (Z.ltb_spec b' b); [apply Hall; lia|].
      pose proof (balloc_scan_none _ _ _ _ _ Es ltac:(unfold BPB, BSIZE; lia)) as Hn.
      rewrite (fst_sb _ _ _ S2) in *.
      destruct (bitmap_bit s1 held v b (b' - b) Hbm1 Hb Hm ltac:(lia) ltac:(lia)) as (E & _).
      replace (b + (b' - b)) with b' in E by lia. rewrite E. apply Hn; lia.
Qed.

(** C12. [balloc] allocates the first block the bitmap has free: it marks
    exactly that block in use, zeroes it and changes no other block, all in
    the transaction and with at most two more blocks in the log. When every
    block is in use it returns 0, prints so and changes nothing. *)
Theorem balloc_correct (fuel : nat) (s : fsst) (me : nat) (held pinned : list Z) (v : blocks) :
  fs_txn s me held pinned v -> bitmap_ok s held v -> fs_room s held pinned 2 ->
  (exists b s' pinned' v', balloc fuel ROOTDEV s = Ok b s' /\ first_free (fs_sb s) v b /\
     fs_txn s' me held pinned' v' /\ v' b = zero_block /\
     (forall b', 0 <= b' < sb_size (fs_sb s) ->
        block_used (fs_sb s) v' b' = (b' =? b) || block_used (fs_sb s) v b') /\
     (forall n, n <> b -> n <> BBLOCK b (fs_sb s) -> v' n = v n) /\
     fs_step s held s' /\ (length pinned' <= 2 + length pinned)%nat) \/
  (exists s', balloc fuel ROOTDEV s = Ok 0 s' /\
     (forall b, 0 <= b < sb_size (fs_sb s) -> block_used (fs_sb s) v b = true) /\
     fs_txn s' me held pinned v /\ fs_printed s' = fs_printed s ++ ["balloc: out of blocks"%string]).
Proof.
  intros T Hbm R. unfold balloc, getsb. rewrite bind_gets. pose proof (bm_size _ _ _ Hbm) as Hsz.
  destruct (balloc_loop_ok fuel me held pinned v (Z.to_nat (sb_size (fs_sb s) / BPB + 1)) s 0 T Hbm R)
    as [(b & s' & p' & E & F & T' & S' & L')|Hn]; [done|done| |lia| |by right].
  { unfold BPB, BSIZE in *. divlia. }
  left. exists b, s', p', (upd_block (marked (fs_sb s) v b) b zero_block). destruct F as (F1 & F2 & F3).
  destruct (bm_free _ _ _ Hbm b F1 F2) as (_ & _ & Hnb). split_and!; try done; unfold upd_block.
  - by rewrite decide_True.
  - intros b' Hb'. rewrite <-(marked_used s held v b b') by done. unfold block_used.
    rewrite decide_False; [done|]. by apply Hnb.
  - intros n H1 H2. rewrite decide_False by done. unfold marked, upd_block. by rewrite decide_False.
Qed.

(** ** Example: a file system of 100 blocks with blocks 0 to 47 in use *)

Definition sb1 : superblock := mksuperblock FSMAGIC 100 54 200 30 2 32 45.
Definition bitmap1 : list Z := replicate 6 255 ++ replicate 1018 0.
Definition blocks1 : blocks := fun n => default zero_block (({[45 := bitmap1]} : gmap Z (list Z)) !! n).

Lemma used1 b : 0 <= b < 100 -> block_used sb1 blocks1 b = (b <? 48).
Proof.
  intros Hb. assert (H : forallb (fun b => eqb (block_used sb1 blocks1 b) (b <? 48)) (seqZ 0 100) = true)
    by (vm_compute; reflexivity).
  rewrite List.forallb_forall in H. apply eqb_prop, H, list_elem_of_In, elem_of_seqZ. lia.
Qed.

Lemma BBLOCK1 b : 0 <= b < 100 -> BBLOCK b sb1 = 45.
Proof. intros Hb. unfold BBLOCK, BPB, BSIZE. replace (b / (1024 * 8)) with 0 by divlia. reflexivity. Qed.

Lemma fs1_free I : exists s, fs_txn s 1 [] [] blocks1 /\ bitmap_ok s [] blocks1 /\ fs_room s [] [] 2 /\
  fs_sb s = sb1 /\ fs_inodes s = I /\ fs_printed s = [] /\ l_log (fs_l s) = log1 /\
  lock_free itable_lock (hart_of (bpst (l_b (fs_l s)))).
Proof.
  destruct (log_booted {[45 := bitmap1]}) as (b & _ & Hok & Hd & Hv & Hl).
  exists (mkfsst (mklst b log1) sb1 I []). split; [|split; [|split; [|done]]].
  - constructor; [exact Hok|exact Hv].
  - constructor; cbn [fs_sb fs_l l_log].
    + split; [discriminate|reflexivity].
    + discriminate.
    + reflexivity.
    + intros x Hx. rewrite BBLOCK1 by exact Hx. split_and!; [split|intros w []%not_elem_of_nil|reflexivity].
      * unfold home_block. lia.
      * right. reflexivity || (cbn; lia).
    + intros x Hx. change (sb_size sb1) with 100 in Hx. rewrite used1 by exact Hx. intros ?%Z.ltb_ge.
      split_and!; [split|intros w []%not_elem_of_nil|].
      * unfold home_block. lia.
      * right. cbn. lia.
      * intros b' Hb'. rewrite BBLOCK1 by exact Hb'. lia.
  - split_and!; [reflexivity|cbn; unfold NBUF; lia|discriminate].
Qed.

Lemma fs1 I : exists s, fs_txn s 1 [] [] blocks1 /\ bitmap_ok s [] blocks1 /\ fs_room s [] [] 2 /\
  fs_sb s = sb1 /\ fs_inodes s = I /\ fs_printed s = [] /\ l_log (fs_l s) = log1.
Proof. destruct (fs1_free I) as (s & ? & ? & ? & ? & ? & ? & ? & _). by exists s. Qed.

Lemma bfree_correct_witness :
  exists s s', fs_sb s = sb1 /\ bfree 0 ROOTDEV 47 s = Ok tt s' /\
    bfree 0 ROOTDEV 48 s = Panic "freeing free block".
Proof.
  destruct (fs1 ∅) as (s & T & Hbm & (R1 & R2 & R3) & Hsb & _).
  assert (R : fs_room s [] [] 1) by (unfold fs_room; lia).
  pose proof (bfree_correct 0 s 1 [] [] blocks1 47 T Hbm R) as H1.
  pose proof (bfree_correct 0 s 1 [] [] blocks1 48 T Hbm R) as H2.
  rewrite Hsb, used1 in H1, H2 by lia. destruct H1 as (s' & p & v' & E & _); [split; [lia|reflexivity]|].
  exists s, s'. split_and!; [exact Hsb|exact E|]. apply H2. split; [lia|reflexivity].
Defined.

Lemma balloc_correct_witness :
  exists s s', fs_sb s = sb1 /\ balloc 0 ROOTDEV s = Ok 48 s' /\ view (l_b (fs_l s')) 48 = zero_block.
Proof.
  destruct (fs1 ∅) as (s & T & Hbm & R & Hsb & _).
  destruct (balloc_correct 0 s 1 [] [] blocks1 T Hbm R)
    as [(b & s' & p & v' & E & (F1 & F2 & F3) & T' & Hz & _)|(s' & _ & Hall & _)].
  - rewrite Hsb in *. change (sb_size sb1) with 100 in F1. rewrite used1 in F2 by exact F1. apply Z.ltb_ge in F2.
    assert (b = 48) as ->.
    { destruct (Z.eq_dec b 48) as [|Hne]; [done|]. specialize (F3 48 ltac:(lia)). by rewrite used1 in F3 by lia. }
    exists s, s'. split_and!; [exact Hsb|exact E|]. by rewrite (ft_view _ _ _ _ _ T').
  - rewrite Hsb in Hall. specialize (Hall 50). rewrite used1 in Hall by lia. discriminate Hall. split; [lia|reflexivity].
Defined.
