(* ===== verification/InodeSpec.v ===== *)
(** * Inodes on disk

    What [iupdate] of [fs.c] stores is what [ilock] loads. *)
From S2P Require Import Prelude CString Spinlock Layout Dll Blocks Kalloc Vm Proc ProcSpec Quiet.
From S2P Require Import Sleeplock Bio BioSpec Log LogDisk LogSpec LogOps Fs FsPath Keeps FsTyped FsBlocks FsSpec.

(** ** The bytes of a [struct dinode] *)

Lemma length_put n d o v : 0 <= o -> o + Z.of_nat n <= zlen d -> length (patch d o (le n v)) = length d.
Proof. intros Ho Hl. apply length_patch; [done|]. unfold zlen in *. by rewrite length_le. Qed.

Lemma getn_put_other n d o v n' o' :
  0 <= o -> o + Z.of_nat n <= zlen d -> 0 <= o' -> o' + Z.of_nat n' <= o \/ o + Z.of_nat n <= o' ->
  getn n' (patch d o (le n v)) o' = getn n' d o'.
Proof. intros. apply getn_patch_other; unfold zlen in *; rewrite ?length_le; lia. Qed.

Lemma put_addrs_length d o l : 0 <= o -> o + 4 * zlen l <= zlen d -> length (put_addrs d o l) = length d.
Proof.
  revert d o. induction l as [|x l IH]; intros d o Ho Hl; cbn [put_addrs]; [done|]. rewrite zlen_cons in Hl.
  pose proof (Zle_0_nat (length l)). assert (length (put32 d o x) = length d) as E
    by (apply length_put; unfold zlen in *; lia).
  rewrite IH; [done|lia|]. unfold zlen in *. lia.
Qed.

Lemma put_addrs_other d o l n o' :
  0 <= o -> o + 4 * zlen l <= zlen d -> 0 <= o' -> o' + Z.of_nat n <= o \/ o + 4 * zlen l <= o' ->
  getn n (put_addrs d o l) o' = getn n d o'.
Proof.
  revert d o. induction l as [|x l IH]; intros d o Ho Hl Ho' Hd; cbn [put_addrs]; [done|]. rewrite zlen_cons in *.
  assert (0 <= zlen l) by (unfold zlen; lia).
  assert (length (put32 d o x) = length d) as E by (apply length_put; lia).
  rewrite IH; [|lia|unfold zlen in *; lia|done|lia]. apply getn_put_other; lia.
Qed.

Lemma put_addrs_get d o l k x :
  0 <= o -> o + 4 * zlen l <= zlen d -> l !! k = Some x -> get32 (put_addrs d o l) (o + 4 * Z.of_nat k) = u32 x.
Proof.
  revert d o k. induction l as [|y l IH]; intros d o k Ho Hl Hk; [done|]. cbn [put_addrs]. rewrite zlen_cons in *.
  assert (0 <= zlen l) by (unfold zlen; lia).
  assert (length (put32 d o y) = length d) as E by (apply length_put; lia).
  destruct k as [|k]; cbn in Hk.
  - injection Hk as ->. unfold get32. rewrite put_addrs_other; [|lia|unfold zlen in *; lia|lia|lia].
    rewrite Z.add_0_r. unfold put32. rewrite getn_patch_same; [done|lia|lia].
  - replace (o + 4 * Z.of_nat (S k)) with (o + 4 + 4 * Z.of_nat k) by lia.
    apply IH; [lia|unfold zlen in *; lia|done].
Qed.

(** Storing the [n]-byte field at [o] of a structure. *)
Lemma s16_u16 x : - 2 ^ 15 <= x < 2 ^ 15 -> s16 (x mod 2 ^ 16) = x.
Proof. intros H. unfold s16. rewrite Z.add_mod_idemp_l by lia. rewrite Z.mod_small; lia. Qed.

Section Dinode.
Context (d : list Z) (o : Z) (i : inode).
Context (Hd : zlen d = BSIZE) (Ho : 0 <= o <= BSIZE - sizeof_dinode) (Hi : inode_typed i).

(** The structure before its addresses are stored. *)
Let d1 := put16 d o (i_type i).
Let d2 := put16 d1 (o + 2) (i_major i).
Let d3 := put16 d2 (o + 4) (i_minor i).
Let d4 := put16 d3 (o + 6) (i_nlink i).
Let d5 := put32 d4 (o + 8) (i_size i).

Lemma dinode_lengths : zlen d1 = BSIZE /\ zlen d2 = BSIZE /\ zlen d3 = BSIZE /\ zlen d4 = BSIZE /\ zlen d5 = BSIZE.
Proof.
  unfold sizeof_dinode in Ho. assert (E : forall n e o' v, zlen e = BSIZE -> 0 <= o' -> o' + Z.of_nat n <= BSIZE ->
    zlen (patch e o' (le n v)) = BSIZE).
  { intros n e o' v He H1 H2. unfold zlen in *. by rewrite length_put by (unfold zlen; lia). }
  assert (zlen d1 = BSIZE) by (apply E; [done|lia|lia]). assert (zlen d2 = BSIZE) by (apply E; [done|lia|lia]).
  assert (zlen d3 = BSIZE) by (apply E; [done|lia|lia]). assert (zlen d4 = BSIZE) by (apply E; [done|lia|lia]).
  split_and!; try done. apply E; [done|lia|lia].
Qed.

Lemma put_dinode_addrs : put_dinode d o i = put_addrs d5 (o + 12) (i_addrs i).
Proof. done. Qed.

Lemma naddrs : zlen (i_addrs i) = 13.
Proof. unfold zlen. by rewrite (it_naddrs _ Hi). Qed.

(** A field outside the structure keeps its value. *)
Lemma put_dinode_other n o' :
  0 <= o' -> o' + Z.of_nat n <= o \/ o + sizeof_dinode <= o' -> getn n (put_dinode d o i) o' = getn n d o'.
Proof.
  intros Ho' Hn. unfold sizeof_dinode in *. destruct dinode_lengths as (L1 & L2 & L3 & L4 & L5).
  rewrite put_dinode_addrs, put_addrs_other by (rewrite ?naddrs; lia).
  unfold d5, put32. rewrite getn_put_other by lia. unfold d4, put16. rewrite getn_put_other by lia.
  unfold d3, put16. rewrite getn_put_other by lia. unfold d2, put16. rewrite getn_put_other by lia.
  unfold d1, put16. by rewrite getn_put_other by lia.
Qed.

Lemma put_dinode_short n : n ∈ [0; 2; 4; 6] -> get16 (put_dinode d o i) (o + n) =
  (if n =? 0 then i_type i else if n =? 2 then i_major i else if n =? 4 then i_minor i else i_nlink i) mod 2 ^ 16.
Proof.
  intros Hn. unfold sizeof_dinode in *. destruct dinode_lengths as (L1 & L2 & L3 & L4 & L5).
  unfold get16. rewrite put_dinode_addrs, put_addrs_other by (rewrite ?naddrs; set_unfold; lia).
  unfold d5, put32. rewrite getn_put_other by (set_unfold; lia). unfold d4, put16.
  set_unfold in Hn. destruct Hn as [->|[->|[->|[->|[]]]]]; cbn [Z.eqb Z.add].
  4: by rewrite getn_patch_same by lia.
  all: rewrite getn_put_other by lia; unfold d3, put16.
  3: by rewrite getn_patch_same by lia.
  all: rewrite getn_put_other by lia; unfold d2, put16.
  2: by rewrite getn_patch_same by lia.
  rewrite getn_put_other by lia. unfold d1, put16. rewrite Z.add_0_r. by rewrite getn_patch_same by lia.
Qed.

Lemma put_dinode_size : get32 (put_dinode d o i) (o + 8) = i_size i.
Proof.
  unfold sizeof_dinode in *. destruct dinode_lengths as (L1 & L2 & L3 & L4 & L5).
  unfold get32. rewrite put_dinode_addrs, put_addrs_other by (rewrite ?naddrs; lia). unfold d5, put32.
  rewrite getn_patch_same by lia. apply Z.mod_small. apply (it_size _ Hi).
Qed.

Lemma put_dinode_di_addrs : di_addrs (put_dinode d o i) o = i_addrs i.
Proof.
  unfold sizeof_dinode in *. destruct dinode_lengths as (L1 & L2 & L3 & L4 & L5). unfold di_addrs.
  apply list_eq. intros k. rewrite list_lookup_fmap. destruct (decide (k < 13)%nat) as [Hk|Hk].
  - destruct (lookup_lt_is_Some_2 (i_addrs i) k) as [x Hx]; [by rewrite (it_naddrs _ Hi)|].
    rewrite Hx, lookup_seqZ_lt by (unfold NDIRECT; lia). cbn [fmap option_fmap option_map]. f_equal.
    rewrite put_dinode_addrs. replace (o + 12 + 4 * (0 + Z.of_nat k)) with (o + 12 + 4 * Z.of_nat k) by lia.
    rewrite (put_addrs_get _ _ _ _ x); [|lia|rewrite naddrs; lia|done].
    apply u32_small. exact (Forall_lookup_1 is_uint _ _ _ (it_addrs _ Hi) Hx).
  - rewrite lookup_seqZ_ge by (unfold NDIRECT; lia). symmetry. apply lookup_ge_None_2. rewrite (it_naddrs _ Hi). lia.
Qed.

(** What is stored is what is loaded. *)
Lemma load_put_dinode j :
  load_dinode (put_dinode d o i) o j =
  mkinode (i_dev j) (i_inum j) (i_ref j) (i_valid j) (i_type i) (i_major i) (i_minor i) (i_nlink i)
    (i_size i) (i_addrs i).
Proof.
  unfold load_dinode. rewrite put_dinode_di_addrs, put_dinode_size.
  replace o with (o + 0) at 2 by lia. rewrite !put_dinode_short by set_solver. cbn [Z.eqb].
  by rewrite !s16_u16 by apply Hi.
Qed.
End Dinode.

(** ** iupdate *)

(** Inode [inum] as it is in the blocks [v]. *)
Definition disk_inode (sb : superblock) (v : blocks) (inum : Z) : inode :=
  load_dinode (v (IBLOCK inum sb)) (dinode_off inum) (mkinode ROOTDEV inum 0 0 0 0 0 0 0 []).

Lemma load_dinode_ext d d' o j :
  (forall n p, 0 <= p - o -> p - o + Z.of_nat n <= sizeof_dinode -> getn n d p = getn n d' p) ->
  load_dinode d o j = load_dinode d' o j.
Proof.
  unfold sizeof_dinode. intros H. unfold load_dinode, get16, get32. rewrite !(H 2%nat), !(H 4%nat) by lia. f_equal.
  unfold di_addrs. apply list_fmap_ext. intros k x Hx. apply H.
  - apply lookup_seqZ in Hx as [-> ?]. lia.
  - apply lookup_seqZ in Hx as [-> Hk]. unfold NDIRECT in Hk. lia.
Qed.

(** Different inodes of a block do not overlap. *)
Lemma dinode_off_disjoint sb i j :
  0 <= i -> 0 <= j -> 0 <= sb_inodestart sb -> i / IPB + sb_inodestart sb < 2 ^ 32 -> j / IPB + sb_inodestart sb < 2 ^ 32 ->
  IBLOCK i sb = IBLOCK j sb -> i <> j ->
  dinode_off i + sizeof_dinode <= dinode_off j \/ dinode_off j + sizeof_dinode <= dinode_off i.
Proof.
  unfold IBLOCK, dinode_off, sizeof_dinode, IPB. change (BSIZE / sizeof_dinode) with 16. intros H1 H2 H3 H4 H5 E Hne.
  rewrite !u32_small in E by divlia. divlia.
Qed.

Section Iupdate.
Context (s : fsst) (me : nat) (held pinned : list Z) (v : blocks) (i : inode).
Context (T : fs_txn s me held pinned v) (Hi : inode_typed i).
Notation n := (IBLOCK (i_inum i) (fs_sb s)).

Lemma iupdate_ok fuel ip :
  inode_of s ip = i -> fs_room s held pinned 1 -> i_dev i = ROOTDEV -> fs_place s n -> unheld s held n ->
  exists s' pinned', iupdate fuel ip s = Ok tt s' /\
    fs_txn s' me held pinned' (upd_block v n (put_dinode (v n) (dinode_off (i_inum i)) i)) /\
    fs_step s held s' /\ (length pinned' <= S (length pinned))%nat.
Proof.
  intros Ei (R1 & R2 & R3) Hdev P Hun.
  destruct (fs_read fuel s me held pinned v n T P Hun) as (u & s1 & E1 & Hu & T1 & S1 & O1); [lia|].
  destruct (fs_change s1 me held pinned v u n (v n) (put_dinode (v n) (dinode_off (i_inum i)) i) T1 O1)
    as (s2 & pinned' & E2 & _ & T2 & S2 & P1 & P2).
  { by eapply fs_place_step. }
  { rewrite (fst_size _ _ _ S1). lia. }
  { by rewrite (fst_outstanding _ _ _ S1). }
  exists s2, pinned'. split_and!; [|done|by eapply fs_step_trans|done].
  unfold iupdate, getsb, geti. rewrite !bind_gets. rewrite Ei. cbn [id]. rewrite Hdev.
  by rewrite (bind_ok _ _ _ _ _ E1), fs_getdata, (op_data _ _ _ _ _ O1).
Qed.

Context (Hlen : length (v n) = Z.to_nat BSIZE).
Notation v' := (upd_block v n (put_dinode (v n) (dinode_off (i_inum i)) i)).

Lemma iupdate_this :
  disk_inode (fs_sb s) v' (i_inum i) =
  mkinode ROOTDEV (i_inum i) 0 0 (i_type i) (i_major i) (i_minor i) (i_nlink i) (i_size i) (i_addrs i).
Proof.
  unfold disk_inode, upd_block. rewrite decide_True by done.
  rewrite load_put_dinode; [done| |apply dinode_off_range|done]. unfold zlen. by rewrite Hlen.
Qed.

Lemma iupdate_others j :
  0 <= sb_inodestart (fs_sb s) -> i_inum i / IPB + sb_inodestart (fs_sb s) < 2 ^ 32 ->
  0 <= j -> j / IPB + sb_inodestart (fs_sb s) < 2 ^ 32 -> j <> i_inum i ->
  disk_inode (fs_sb s) v' j = disk_inode (fs_sb s) v j.
Proof.
  intros Hst Hend Hj Hj' Hne. assert (Hinum : 0 <= i_inum i) by apply (it_inum _ Hi).
  unfold disk_inode, upd_block. case_decide as E; [|done]. rewrite E.
  apply load_dinode_ext. intros k p Hp Hk. pose proof (dinode_off_range j). apply put_dinode_other.
  - unfold zlen. by rewrite Hlen.
  - apply dinode_off_range.
  - done.
  - lia.
  - destruct (dinode_off_disjoint (fs_sb s) j (i_inum i)); try done; lia.
Qed.
End Iupdate.

(** C33. [iupdate] writes the inode through to its place on disk, in the
    transaction: loading the inode from there gives every stored field back,
    the other inodes of the block and all other blocks keep their contents,
    and the inodes in memory stay as they are. *)
Theorem iupdate_correct (fuel : nat) (s : fsst) (me : nat) (held pinned : list Z) (v : blocks) (ip : nat)
    (i : inode) (Ei : inode_of s ip = i) :
  fs_txn s me held pinned v -> fs_room s held pinned 1 -> inode_typed i -> i_dev i = ROOTDEV ->
  0 <= sb_inodestart (fs_sb s) -> i_inum i / IPB + sb_inodestart (fs_sb s) < 2 ^ 32 ->
  fs_place s (IBLOCK (i_inum i) (fs_sb s)) -> unheld s held (IBLOCK (i_inum i) (fs_sb s)) ->
  length (v (IBLOCK (i_inum i) (fs_sb s))) = Z.to_nat BSIZE ->
  exists s' pinned' v', iupdate fuel ip s = Ok tt s' /\ fs_txn s' me held pinned' v' /\
    disk_inode (fs_sb s) v' (i_inum i) =
      mkinode ROOTDEV (i_inum i) 0 0 (i_type i) (i_major i) (i_minor i) (i_nlink i) (i_size i) (i_addrs i) /\
    (forall j, 0 <= j -> j / IPB + sb_inodestart (fs_sb s) < 2 ^ 32 -> j <> i_inum i ->
       disk_inode (fs_sb s) v' j = disk_inode (fs_sb s) v j) /\
    (forall n, n <> IBLOCK (i_inum i) (fs_sb s) -> v' n = v n) /\
    fs_step s held s' /\ (length pinned' <= S (length pinned))%nat.
Proof.
  intros T R Hi Hdev Hst Hend P Hun Hlen.
  destruct (iupdate_ok s me held pinned v i T fuel ip Ei R Hdev P Hun) as (s' & pinned' & E & T' & S' & L').
  eexists s', pinned', _. split; [exact E|]. split; [exact T'|]. split_and!; [by apply iupdate_this| | |done|done].
  - intros j Hj Hj' Hne. by apply iupdate_others.
  - intros m Hm. unfold upd_block. by rewrite decide_False.
Qed.

(** ** Example: inode 17, a file of 5 bytes, in the file system of 100 blocks *)

Definition inode17 : inode := mkinode ROOTDEV 17 1 1 T_FILE 0 0 1 5 (60 :: replicate 12 0).

Lemma inode17_typed : inode_typed inode17.
Proof.
  constructor; try done; cbn; unfold is_short, is_uint, T_FILE; try lia. repeat constructor; done.
Qed.

Lemma iupdate_correct_witness :
  exists s s', inode_of s 3 = inode17 /\ iupdate 0 3 s = Ok tt s' /\
    i_size (disk_inode sb1 (view (l_b (fs_l s'))) 17) = 5.
Proof.
  destruct (fs1 {[3%nat := inode17]}) as (s & T & _ & (R1 & R2 & R3) & Hsb & HI & _ & HL).
  assert (Ei : inode_of s 3 = inode17) by (unfold inode_of; by rewrite HI).
  assert (R : fs_room s [] [] 1) by (unfold fs_room; lia).
  destruct (iupdate_correct 0 s 1 [] [] blocks1 3 inode17 Ei T R inode17_typed eq_refl)
    as (s' & p' & v' & E & T' & Hd & _); rewrite ?Hsb.
  - done.
  - done.
  - unfold fs_place. rewrite HL. split; [split; done|right; done].
  - intros w []%not_elem_of_nil.
  - reflexivity.
  - exists s, s'. split_and!; [done|done|]. rewrite Hsb in Hd. unfold disk_inode. rewrite (ft_view _ _ _ _ _ T').
    unfold disk_inode in Hd. cbn [i_inum inode17] in Hd. by rewrite Hd.
Defined.
