(* ===== verification/FileSpec.v ===== *)
(** * File contents

    [readi] and [writei] of [fs.c] against the contents of a file as a
    sequence of bytes, for files whose blocks are allocated. *)
From S2P Require Import Prelude CString Spinlock Layout Dll Blocks Kalloc Vm Proc ProcSpec Quiet.
From S2P Require Import Sleeplock Bio BioSpec Log LogDisk LogSpec LogOps Fs FsPath Keeps FsTyped FsBlocks FsSpec.
From S2P Require Import InodeSpec.

(** The address of block [bn] of the file [i], directly or through the
    indirect block. *)
Definition file_block (i : inode) (v : blocks) (bn : Z) : Z :=
  if bn <? NDIRECT then addr_of i bn else get32 (v (addr_of i NDIRECT)) (4 * (bn - NDIRECT)).

(** Byte [p] of the file, and the [n] bytes from [off] on. *)
Definition file_byte (i : inode) (v : blocks) (p : Z) : Z :=
  get8 (v (file_block i v (p / BSIZE))) (p mod BSIZE).
Definition file_bytes (i : inode) (v : blocks) (off n : Z) : list Z := file_byte i v <$> seqZ off n.

(** A block that can be read. *)
Definition readable (s : fsst) (held : list Z) (v : blocks) (n : Z) : Prop :=
  n <> 0 /\ fs_place s n /\ unheld s held n /\ length (v n) = Z.to_nat BSIZE.

(** The blocks of the first [N] bytes of the file [i] are allocated. *)
Record file_ok (s : fsst) (held : list Z) (v : blocks) (i : inode) (N : Z) : Prop := {
  fo_dev : i_dev i = ROOTDEV;
  fo_max : N <= MAXFILE * BSIZE;
  fo_blocks : forall bn, 0 <= bn -> bn * BSIZE < N -> readable s held v (file_block i v bn);
  fo_indirect : NDIRECT * BSIZE < N -> readable s held v (addr_of i NDIRECT);
}.

Lemma readable_step s held v n s' : fs_step s held s' -> readable s held v n -> readable s' held v n.
Proof.
  intros S (H1 & H2 & H3 & H4). split_and!; [done|by eapply fs_place_step| |done].
  intros w Hw. rewrite (fst_held _ _ _ S) by done. by apply H3.
Qed.

Lemma file_ok_step s held v i N s' : fs_step s held s' -> file_ok s held v i N -> file_ok s' held v i N.
Proof.
  intros S [F1 F2 F3 F4]. constructor; [done|done|..]; intros; eapply readable_step; eauto.
Qed.

Lemma inode_step s h s' ip : fs_step s h s' -> inode_of s' ip = inode_of s ip.
Proof. intros S. unfold inode_of. by rewrite (fst_inodes _ _ _ S). Qed.

(** [bread], a look at the data, and [brelse]. *)
Lemma fs_peek fuel s me held pinned v n :
  fs_txn s me held pinned v -> readable s held v n -> (length held + length pinned < NBUF)%nat ->
  exists u s1 s', lift (bread fuel ROOTDEV n) s = Ok u s1 /\ data_of (l_b (fs_l s1)) u = v n /\
    fs_inodes s1 = fs_inodes s /\
    lift (brelse u) s1 = Ok tt s' /\ fs_txn s' me held pinned v /\ fs_step s held s'.
Proof.
  intros T (_ & P & Hun & _) Hr. destruct (fs_read fuel s me held pinned v n T P Hun Hr) as (u & s1 & E1 & _ & T1 & S1 & O1).
  destruct (fs_release s1 me held pinned v u n (v n) T1 O1) as (s2 & E2 & T2 & S2).
  exists u, s1, s2. split_and!; try done; [apply O1|apply S1|by eapply fs_step_trans].
Qed.

Lemma bmap_mapped fuel s me held pinned v ip i N bn :
  fs_txn s me held pinned v -> inode_of s ip = i -> file_ok s held v i N ->
  0 <= bn -> bn * BSIZE < N -> (length held + length pinned < NBUF)%nat ->
  exists s', bmap fuel ip bn s = Ok (file_block i v bn) s' /\ fs_txn s' me held pinned v /\ fs_step s held s'.
Proof.
  intros T Ei [F1 F2 F3 F4] Hbn HN Hr. destruct (F3 bn Hbn HN) as (Hnz & _). unfold bmap. revert Hnz. unfold file_block.
  destruct (Z.ltb_spec bn NDIRECT) as [Hd|Hd]; intros Hnz.
  - unfold geti. rewrite bind_gets, Ei. cbn [id]. rewrite (proj2 (Z.eqb_neq _ _) Hnz).
    exists s. split_and!; [done|done|apply fs_step_refl].
  - assert (bn - NDIRECT < NINDIRECT) as Hi by (unfold MAXFILE, BSIZE in *; lia).
    rewrite (proj2 (Z.ltb_lt _ _) Hi). unfold geti. rewrite bind_gets, Ei. cbn [id].
    destruct F4 as (Hz & Q); [unfold BSIZE in *; lia|]. rewrite (proj2 (Z.eqb_neq _ _) Hz), bind_ret.
    rewrite (proj2 (Z.eqb_neq _ _) Hz), F1.
    destruct (fs_peek fuel s me held pinned v (addr_of i NDIRECT) T (conj Hz Q) Hr)
      as (u & s1 & s2 & E1 & D1 & _ & E2 & T2 & S2).
    rewrite (bind_ok _ _ _ _ _ E1), fs_getdata, D1. rewrite (proj2 (Z.eqb_neq _ _) Hnz), bind_ret.
    rewrite (bind_ok _ _ _ _ _ E2). by exists s2.
Qed.

(** The part of a block that holds the bytes from [off] on. *)
Lemma slice_file_bytes i v off m :
  0 <= off -> 0 <= m -> off mod BSIZE + m <= BSIZE -> length (v (file_block i v (off / BSIZE))) = Z.to_nat BSIZE ->
  slice (v (file_block i v (off / BSIZE))) (off mod BSIZE) m = file_bytes i v off m.
Proof.
  intros Ho Hm Hb Hl. pose proof (Z.mod_pos_bound off BSIZE eq_refl). unfold file_bytes. apply list_eq. intros k.
  rewrite list_lookup_fmap. destruct (decide (Z.of_nat k < m)) as [Hk|Hk].
  - rewrite lookup_seqZ_lt by lia. cbn [fmap option_fmap option_map]. rewrite lookup_slice by lia.
    rewrite decide_True by lia. unfold file_byte.
    assert (E1 : (off + Z.of_nat k) / BSIZE = off / BSIZE) by (unfold BSIZE in *; divlia).
    assert (E2 : (off + Z.of_nat k) mod BSIZE = off mod BSIZE + Z.of_nat k) by (unfold BSIZE in *; divlia).
    rewrite E1, E2, get8_lookup. set (d := v _) in *.
    replace (Z.to_nat (off mod BSIZE + Z.of_nat k)) with (Z.to_nat (off mod BSIZE) + k)%nat by lia.
    destruct (lookup_lt_is_Some_2 d (Z.to_nat (off mod BSIZE) + k)%nat) as [x ->]; [lia|done].
  - rewrite lookup_seqZ_ge by lia. rewrite lookup_slice, decide_False by lia. done.
Qed.

Lemma file_bytes_app i v off m n : 0 <= m -> 0 <= n -> file_bytes i v off (m + n) = file_bytes i v off m ++ file_bytes i v (off + m) n.
Proof. intros Hm Hn. unfold file_bytes. by rewrite seqZ_app, fmap_app by lia. Qed.

Lemma readi_loop_ok fuel me held pinned v ip i N k : forall s off n tot acc,
  fs_txn s me held pinned v -> inode_of s ip = i -> file_ok s held v i N ->
  (length held + length pinned < NBUF)%nat -> 0 <= off -> tot <= n -> off + (n - tot) <= N ->
  (tot < n -> off mod BSIZE + (n - tot) <= BSIZE * Z.of_nat k) ->
  exists s', readi_loop fuel k ip ToLocal off n tot acc s = Ok (n, acc ++ file_bytes i v off (n - tot)) s' /\
    fs_txn s' me held pinned v /\ fs_step s held s'.
Proof.
  induction k as [|k IH]; intros s off n tot acc T Ei F Hr Hoff Htot HN Hk; cbn [readi_loop];
    pose proof (Z.mod_pos_bound off BSIZE eq_refl) as Hm; destruct (Z.ltb_spec tot n) as [Hlt|Hge]; try specialize (Hk Hlt); try lia.
  1,3: assert (tot = n) as -> by lia; exists s; split_and!; [|done|apply fs_step_refl];
    rewrite Z.sub_diag; by rewrite app_nil_r.
  assert (Hbn : 0 <= off / BSIZE /\ off / BSIZE * BSIZE < N) by (unfold BSIZE in *; divlia).
  destruct (bmap_mapped fuel s me held pinned v ip i N (off / BSIZE) T Ei F (proj1 Hbn) (proj2 Hbn) Hr)
    as (s1 & E1 & T1 & S1).
  destruct (fo_blocks _ _ _ _ _ F (off / BSIZE) (proj1 Hbn) (proj2 Hbn)) as (Hnz & Q).
  rewrite (bind_ok _ _ _ _ _ E1), (proj2 (Z.eqb_neq _ _) Hnz). unfold geti. rewrite bind_gets.
  rewrite (inode_step _ _ _ ip S1), Ei, (fo_dev _ _ _ _ _ F).
  destruct (fs_peek fuel s1 me held pinned v (file_block i v (off / BSIZE)) T1) as (u & s2 & s3 & E2 & D2 & _ & E3 & T3 & S3).
  { eapply readable_step; [exact S1|]. by split. }
  { done. }
  rewrite (bind_ok _ _ _ _ _ E2), fs_getdata, D2. cbn [copy_to]. rewrite bind_ret. cbn [Z.eqb].
  rewrite (bind_ok _ _ _ _ _ E3). set (m := (n - tot) `min` (BSIZE - off mod BSIZE)).
  assert (S13 : fs_step s held s3) by (by eapply fs_step_trans).
  rewrite slice_file_bytes; [|done|unfold m; lia|unfold m; lia|apply Q].
  destruct (IH s3 (off + m) n (tot + m) (acc ++ file_bytes i v off m)) as (s4 & E4 & T4 & S4); try done.
  - by rewrite (inode_step _ _ _ ip S13).
  - by eapply file_ok_step.
  - unfold m. lia.
  - unfold m. lia.
  - lia.
  - intros Hlt'. unfold m, BSIZE in *. divlia.
  - exists s4. split_and!; [|done|by eapply fs_step_trans]. rewrite E4. f_equal. f_equal.
    replace (n - tot) with (m + (n - (tot + m))) by lia. rewrite file_bytes_app by (unfold m; lia). by rewrite app_assoc.
Qed.

(** What [readi] reads: nothing from beyond the end. *)
Definition read_count (size off n : Z) : Z := if size <? off then 0 else Z.min n (size - off).

Lemma readi_ok (fuel : nat) (s : fsst) (me : nat) (held pinned : list Z) (v : blocks) (ip : nat)
    (i : inode) (off n : Z) (Ei : inode_of s ip = i) :
  fs_txn s me held pinned v -> file_ok s held v i (i_size i) -> (length held + length pinned < NBUF)%nat ->
  0 <= off -> 0 <= n -> off + n < 2 ^ 32 ->
  exists s', readi fuel ip ToLocal off n s =
      Ok (read_count (i_size i) off n, file_bytes i v off (read_count (i_size i) off n)) s' /\
    fs_txn s' me held pinned v /\ fs_step s held s'.
Proof.
  intros T F Hr Hoff Hn Hsum. unfold readi, geti, read_count. rewrite bind_gets, Ei, u32_small by lia.
  destruct (Z.ltb_spec (i_size i) off) as [Hs|Hs]; cbn [orb].
  { exists s. split_and!; [done|done|apply fs_step_refl]. }
  rewrite (proj2 (Z.ltb_ge _ _)) by lia.
  set (c := if i_size i <? off + n then i_size i - off else n).
  assert (Hc : c = n `min` (i_size i - off)) by (unfold c; destruct (Z.ltb_spec (i_size i) (off + n)); lia).
  destruct (readi_loop_ok fuel me held pinned v ip i (i_size i) (Z.to_nat (c / BSIZE + 2)) s off c 0 [] T Ei F Hr)
    as (s' & E & T' & S'); try lia.
  { unfold BSIZE in *. divlia. }
  exists s'. split_and!; [|done|done]. rewrite E, Hc. by rewrite Z.sub_0_r.
Qed.

(** C7. [readi] into kernel memory returns the contents of the file: the
    bytes from [off] on, [n] of them or as many as the file has, whatever mix
    of direct and indirect blocks they are in, cached, logged or on disk. The
    blocks stay as they are. *)
Theorem readi_correct (fuel : nat) (s : fsst) (me : nat) (held pinned : list Z) (v : blocks) (ip : nat)
    (i : inode) (off n : Z) (Ei : inode_of s ip = i) :
  fs_txn s me held pinned v -> file_ok s held v i (i_size i) -> (length held + length pinned < NBUF)%nat ->
  0 <= off -> 0 <= n -> off + n < 2 ^ 32 ->
  exists s', readi fuel ip ToLocal off n s =
      Ok (read_count (i_size i) off n, file_bytes i v off (read_count (i_size i) off n)) s' /\
    fs_txn s' me held pinned v /\ fs_step s held s'.
Proof. by apply readi_ok. Qed.

(** ** Writing *)

(** The blocks of the first [N] bytes of the file are different from each
    other and from its indirect block. *)
Record file_apart (i : inode) (v : blocks) (N : Z) : Prop := {
  fa_inj : forall b b', 0 <= b -> b * BSIZE < N -> 0 <= b' -> b' * BSIZE < N ->
    file_block i v b = file_block i v b' -> b = b';
  fa_indirect : forall b, 0 <= b -> b * BSIZE < N -> NDIRECT * BSIZE < N -> file_block i v b <> addr_of i NDIRECT;
}.

(** [w] stored at [off] of the file, within a block. *)
Definition write_block (i : inode) (v : blocks) (off : Z) (w : list Z) : blocks :=
  upd_block v (file_block i v (off / BSIZE)) (patch (v (file_block i v (off / BSIZE))) (off mod BSIZE) w).

(** The blocks [v'] are [v] with the bytes [w] at [off] of the file. *)
Record wrote_file (i : inode) (v : blocks) (N off : Z) (w : list Z) (v' : blocks) : Prop := {
  wf_map : forall b, 0 <= b -> b * BSIZE < N -> file_block i v' b = file_block i v b;
  wf_byte : forall p, 0 <= p < N ->
    file_byte i v' p = if decide (off <= p < off + zlen w) then get8 w (p - off) else file_byte i v p;
  wf_other : forall n, (forall b, 0 <= b -> b * BSIZE < N -> n <> file_block i v b) -> v' n = v n;
  wf_length : forall n, length (v' n) = length (v n);
}.

Section Write_block.
Context (s : fsst) (held : list Z) (v : blocks) (i : inode) (N off : Z) (w : list Z).
Context (F : file_ok s held v i N) (A : file_apart i v N).
Context (Hoff : 0 <= off) (Hw : off mod BSIZE + zlen w <= BSIZE) (Hw0 : 0 < zlen w) (HN : off + zlen w <= N).
Notation v1 := (write_block i v off w).

Lemma write_block_no : 0 <= off / BSIZE /\ off / BSIZE * BSIZE < N.
Proof. unfold BSIZE in *. divlia. Qed.

Lemma write_block_map b : 0 <= b -> b * BSIZE < N -> file_block i v1 b = file_block i v b.
Proof.
  intros Hb HbN. unfold file_block. destruct (Z.ltb_spec b NDIRECT) as [|Hge]; [done|]. f_equal.
  unfold write_block, upd_block. rewrite decide_False; [done|]. intros E. destruct write_block_no as [H1 H2].
  apply (fa_indirect _ _ _ A _ H1 H2); [unfold BSIZE, NDIRECT in *; lia|done].
Qed.

Lemma write_block_length n : length (v1 n) = length (v n).
Proof.
  unfold write_block, upd_block. case_decide as E; [|done]. rewrite <- E. destruct write_block_no as [H1 H2].
  destruct (fo_blocks _ _ _ _ _ F _ H1 H2) as (_ & _ & _ & Hl). rewrite <- E in Hl.
  apply length_patch; [apply Z.mod_pos_bound; done|]. unfold zlen in *. rewrite Hl. unfold BSIZE in *. lia.
Qed.

Lemma write_block_ok : file_ok s held v1 i N.
Proof.
  destruct F as [F1 F2 F3 F4]. constructor; [done|done|..].
  - intros b Hb HbN. rewrite write_block_map by done. destruct (F3 b Hb HbN) as (Q1 & Q2 & Q3 & Q4).
    split_and!; try done. by rewrite write_block_length.
  - intros HI. destruct (F4 HI) as (Q1 & Q2 & Q3 & Q4). split_and!; try done. by rewrite write_block_length.
Qed.

Lemma write_block_apart : file_apart i v1 N.
Proof.
  destruct A as [A1 A2]. constructor.
  - intros b b' H1 H2 H3 H4. rewrite !write_block_map by done. by apply A1.
  - intros b H1 H2. rewrite write_block_map by done. by apply A2.
Qed.

Lemma write_block_byte p :
  0 <= p < N -> file_byte i v1 p = if decide (off <= p < off + zlen w) then get8 w (p - off) else file_byte i v p.
Proof.
  intros Hp. assert (Hb : 0 <= p / BSIZE /\ p / BSIZE * BSIZE < N) by (unfold BSIZE in *; divlia).
  unfold file_byte. rewrite write_block_map by apply Hb. unfold write_block, upd_block.
  destruct write_block_no as [H1 H2]. case_decide as E.
  - apply (fa_inj _ _ _ A) in E; [|apply Hb|apply Hb|done|done]. rewrite E.
    destruct (fo_blocks _ _ _ _ _ F _ H1 H2) as (_ & _ & _ & Hl).
    pose proof (Z.mod_pos_bound p BSIZE eq_refl). pose proof (Z.mod_pos_bound off BSIZE eq_refl).
    rewrite get8_patch; [|lia|unfold zlen in *; rewrite Hl; unfold BSIZE in *; lia|lia].
    assert (Hpo : p - off = p mod BSIZE - off mod BSIZE) by (unfold BSIZE in *; divlia).
    rewrite Hpo. repeat case_decide; try done; lia.
  - rewrite decide_False; [done|]. intros Hin. apply E. f_equal. unfold BSIZE in *. divlia.
Qed.

Lemma write_block_other n : (forall b, 0 <= b -> b * BSIZE < N -> n <> file_block i v b) -> v1 n = v n.
Proof.
  intros Hn. unfold write_block, upd_block. rewrite decide_False; [done|]. destruct write_block_no. by apply Hn.
Qed.

Lemma write_block_wrote : wrote_file i v N off w v1.
Proof. constructor; auto using write_block_map, write_block_byte, write_block_other, write_block_length. Qed.
End Write_block.

Lemma wrote_file_nil i v N off : wrote_file i v N off [] v.
Proof. constructor; try done. intros p Hp. rewrite decide_False; [done|]. unfold zlen. cbn. lia. Qed.

Lemma get8_app w1 w2 k : 0 <= k -> get8 (w1 ++ w2) k = if decide (k < zlen w1) then get8 w1 k else get8 w2 (k - zlen w1).
Proof.
  intros Hk. unfold get8, zlen. case_decide.
  - by rewrite app_nth1 by lia.
  - rewrite app_nth2 by lia. f_equal. lia.
Qed.

Lemma wrote_file_app i v N off w1 v1 w2 v2 :
  0 <= off -> wrote_file i v N off w1 v1 -> wrote_file i v1 N (off + zlen w1) w2 v2 -> wrote_file i v N off (w1 ++ w2) v2.
Proof.
  intros Hoff [A1 A2 A3 A4] [B1 B2 B3 B4]. assert (0 <= zlen w1 /\ 0 <= zlen w2) by (unfold zlen; lia). constructor.
  - intros b H1 H2. by rewrite B1, A1.
  - intros p Hp. rewrite B2, A2, zlen_app by done. repeat case_decide; try lia; try done.
    + rewrite get8_app, decide_False by lia. f_equal. lia.
    + rewrite get8_app, decide_True by lia. done.
  - intros n Hn. rewrite B3, A3; [done|done|]. intros b H1 H2. rewrite A1 by done. by apply Hn.
  - intros n. by rewrite B4, A4.
Qed.

Lemma slice_app l o m n : 0 <= o -> 0 <= m -> 0 <= n -> slice l o (m + n) = slice l o m ++ slice l (o + m) n.
Proof.
  intros Ho Hm Hn. unfold slice. rewrite !Z2Nat.inj_add by lia. rewrite <- drop_drop.
  by rewrite <- (take_drop (Z.to_nat m) (take (Z.to_nat m + Z.to_nat n) (drop (Z.to_nat o) l))), take_take,
    skipn_firstn_comm, Nat.min_l, (Nat.add_comm (Z.to_nat m)), Nat.add_sub by lia.
Qed.

Lemma file_ok_view s held v i N v' :
  file_ok s held v i N -> (forall b, 0 <= b -> b * BSIZE < N -> file_block i v' b = file_block i v b) ->
  (forall n, length (v' n) = length (v n)) -> file_ok s held v' i N.
Proof.
  intros [F1 F2 F3 F4] Hm Hl. constructor; [done|done|..].
  - intros b H1 H2. rewrite Hm by done. destruct (F3 b H1 H2) as (Q1 & Q2 & Q3 & Q4). split_and!; try done. by rewrite Hl.
  - intros H. destruct (F4 H) as (Q1 & Q2 & Q3 & Q4). split_and!; try done. by rewrite Hl.
Qed.

(** One round of the loop of [writei]. *)
Lemma writei_round fuel s me held pinned v ip i N off w k (K : unit -> M fsst (Z * Z)) :
  fs_txn s me held pinned v -> inode_of s ip = i -> file_ok s held v i N -> file_apart i v N ->
  fs_room s held pinned (S k) -> 0 <= off -> 0 < zlen w -> off mod BSIZE + zlen w <= BSIZE -> off + zlen w <= N ->
  exists u s1 s2 pinned', bmap fuel ip (off / BSIZE) s = Ok (file_block i v (off / BSIZE)) s1 /\ inode_of s1 ip = i /\
    lift (bread fuel ROOTDEV (file_block i v (off / BSIZE))) s1 = Ok u s2 /\
    exists s', mbind' (getdata u) (fun data => mbind' (setdata u (patch data (off mod BSIZE) w)) (fun _ =>
        mbind' (lift (log_write u)) (fun _ => mbind' (lift (brelse u)) K))) s2 = K tt s' /\
      fs_txn s' me held pinned' (write_block i v off w) /\ fs_step s held s' /\ fs_room s' held pinned' k /\
      (length pinned' <= S (length pinned))%nat.
Proof.
  intros T Ei F A (R1 & R2 & R3) Hoff Hw0 Hw HN. destruct (write_block_no N off w Hoff Hw Hw0 HN) as [H1 H2].
  destruct (bmap_mapped fuel s me held pinned v ip i N (off / BSIZE) T Ei F H1 H2) as (s1 & E1 & T1 & S1); [lia|].
  destruct (fo_blocks _ _ _ _ _ F (off / BSIZE) H1 H2) as (Hnz & P & Hun & Hl). set (n := file_block i v (off / BSIZE)) in *.
  destruct (fs_read fuel s1 me held pinned v n T1) as (u & s2 & E2 & Hu & T2 & S2 & O2).
  { by eapply fs_place_step. }
  { intros x Hx. rewrite (fst_held _ _ _ S1) by done. by apply Hun. }
  { lia. }
  assert (S12 : fs_step s held s2) by (by eapply fs_step_trans).
  destruct (fs_change s2 me held pinned v u n (v n) (patch (v n) (off mod BSIZE) w) T2 O2)
    as (s3 & pinned' & _ & E3 & T3 & S3 & P1 & P2).
  { eapply fs_place_step; [exact S12|done]. }
  { rewrite (fst_size _ _ _ S12). lia. }
  { by rewrite (fst_outstanding _ _ _ S12). }
  assert (S13 : fs_step s held s3) by (by eapply fs_step_trans).
  exists u, s1, s2, pinned'. split_and!; [done|by rewrite (inode_step _ _ _ ip S1)|done|].
  exists s3. split_and!; [|done|done| |done].
  - by rewrite fs_getdata, (op_data _ _ _ _ _ O2), E3.
  - unfold fs_room. rewrite (fst_size _ _ _ S13), (fst_outstanding _ _ _ S13). lia.
Qed.

Lemma writei_loop_ok fuel me held ip i N l n k : forall s pinned v off tot,
  fs_txn s me held pinned v -> inode_of s ip = i -> file_ok s held v i N -> file_apart i v N ->
  fs_room s held pinned k -> 0 <= off -> 0 <= tot <= n -> n <= zlen l -> off + (n - tot) <= N ->
  (tot < n -> off mod BSIZE + (n - tot) <= BSIZE * Z.of_nat k) ->
  exists s' pinned' v', writei_loop fuel k ip (FromLocal l) off n tot s = Ok (n, off + (n - tot)) s' /\
    fs_txn s' me held pinned' v' /\ fs_step s held s' /\ (length pinned' <= k + length pinned)%nat /\
    wrote_file i v N off (slice l tot (n - tot)) v'.
Proof.
  induction k as [|k IH]; intros s pinned v off tot T Ei F A R Hoff Htot Hl HN Hk; cbn [writei_loop];
    pose proof (Z.mod_pos_bound off BSIZE eq_refl) as Hm; destruct (Z.ltb_spec tot n) as [Hlt|Hge]; try specialize (Hk Hlt); try lia.
  1,3: assert (tot = n) as -> by lia; exists s, pinned, v; rewrite Z.sub_diag, Z.add_0_r; split_and!;
    [done|done|apply fs_step_refl|lia|apply wrote_file_nil].
  set (m := (n - tot) `min` (BSIZE - off mod BSIZE)). set (w := slice l tot m).
  assert (Hw : zlen w = m) by (unfold zlen, w; rewrite length_slice by (unfold m; lia); unfold m; lia).
  destruct (writei_round fuel s me held pinned v ip i N off w k
    (fun _ => writei_loop fuel k ip (FromLocal l) (off + m) n (tot + m)) T Ei F A R Hoff)
    as (u & s1 & s2 & pinned1 & E1 & I1 & E2 & s3 & E3 & T3 & S3 & R3 & L3); [unfold m in *; lia..|].
  destruct (write_block_no N off w Hoff) as [H1 H2]; [unfold m in *; lia..|].
  destruct (fo_blocks _ _ _ _ _ F _ H1 H2) as (Hnz & _).
  rewrite (bind_ok _ _ _ _ _ E1), (proj2 (Z.eqb_neq _ _) Hnz). unfold geti. rewrite bind_gets, I1, (fo_dev _ _ _ _ _ F).
  rewrite (bind_ok _ _ _ _ _ E2). cbn [copy_from]. rewrite bind_ret. fold m w. cbn [fst snd Z.eqb]. rewrite E3.
  destruct (IH s3 pinned1 (write_block i v off w) (off + m) (tot + m)) as (s4 & p4 & v4 & E4 & T4 & S4 & L4 & W4); try done.
  - by rewrite (inode_step _ _ _ ip S3).
  - eapply file_ok_step; [exact S3|]. by apply write_block_ok; [..|unfold m in *; lia|unfold m in *; lia|unfold m in *; lia].
  - by apply (write_block_apart v i N off w A Hoff); unfold m in *; lia.
  - unfold m. lia.
  - unfold m. lia.
  - unfold m. lia.
  - intros Hlt'. unfold m, BSIZE in *. divlia.
  - exists s4, p4, v4. split_and!; [|done|by eapply fs_step_trans|lia|].
    + rewrite E4. do 2 f_equal. lia.
    + replace (n - tot) with (m + (n - (tot + m))) by lia. rewrite slice_app by (unfold m; lia). fold w.
      eapply wrote_file_app; [done| |rewrite Hw; exact W4].
      by apply (write_block_wrote s held); unfold m in *; try lia.
Qed.

(** The inode of the file can be updated without touching the file. *)
Record inode_apart (s : fsst) (held : list Z) (v : blocks) (i : inode) (N : Z) : Prop := {
  ia_typed : inode_typed i;
  ia_block : readable s held v (IBLOCK (i_inum i) (fs_sb s));
  ia_apart : forall b, 0 <= b -> b * BSIZE < N -> IBLOCK (i_inum i) (fs_sb s) <> file_block i v b;
  ia_indirect : NDIRECT * BSIZE < N -> IBLOCK (i_inum i) (fs_sb s) <> addr_of i NDIRECT;
}.

Lemma set_isize_file_block x i : file_block (set_isize x i) = file_block i.
Proof. done. Qed.

(** A change of the inode block leaves the contents of the file. *)
Lemma file_byte_apart i v v' N p :
  0 <= p < N -> (forall b, 0 <= b -> b * BSIZE < N -> v' (file_block i v b) = v (file_block i v b)) ->
  (NDIRECT * BSIZE < N -> v' (addr_of i NDIRECT) = v (addr_of i NDIRECT)) -> file_byte i v' p = file_byte i v p.
Proof.
  intros Hp Hb Hi. assert (Hn : 0 <= p / BSIZE /\ p / BSIZE * BSIZE < N) by (unfold BSIZE in *; divlia).
  unfold file_byte. assert (file_block i v' (p / BSIZE) = file_block i v (p / BSIZE)) as ->; [|by rewrite Hb by apply Hn].
  unfold file_block. destruct (Z.ltb_spec (p / BSIZE) NDIRECT); [done|]. rewrite Hi; [done|].
  unfold BSIZE, NDIRECT in *. lia.
Qed.

(** What [writei] leaves: the bytes [w] at [off] of the file, the new size in
    memory and on disk, and everything else as it was. *)
Record written (s : fsst) (v : blocks) (ip : nat) (i : inode) (N off : Z) (w : list Z) (s' : fsst) (v' : blocks) : Prop := {
  wn_inode : inode_of s' ip = set_isize (Z.max (i_size i) (off + zlen w)) i;
  wn_inodes : forall ip', ip' <> ip -> inode_of s' ip' = inode_of s ip';
  wn_disk : i_size (disk_inode (fs_sb s) v' (i_inum i)) = Z.max (i_size i) (off + zlen w);
  wn_bytes : forall p, 0 <= p < N ->
    file_byte i v' p = if decide (off <= p < off + zlen w) then get8 w (p - off) else file_byte i v p;
  wn_other : forall n, n <> IBLOCK (i_inum i) (fs_sb s) ->
    (forall b, 0 <= b -> b * BSIZE < N -> n <> file_block i v b) -> v' n = v n;
}.

Definition with_size (s : fsst) (ip : nat) (x : Z) : fsst :=
  mkfsst (fs_l s) (fs_sb s) (<[ip := set_isize x (inode_of s ip)]> (fs_inodes s)) (fs_printed s).

Lemma set_isize_id i : set_isize (i_size i) i = i.
Proof. by destruct i. Qed.

(** The end of [writei]: the new size and [iupdate]. *)
Lemma writei_end fuel s me held pinned v ip i e :
  fs_txn s me held pinned v -> inode_of s ip = i -> inode_typed i -> is_uint e -> i_dev i = ROOTDEV ->
  fs_room s held pinned 1 -> readable s held v (IBLOCK (i_inum i) (fs_sb s)) ->
  exists s' pinned',
    (forall r : Z, (let! size := geti ip i_size in
       (if size <? e then updi ip (set_isize e) else mret' tt) ;;; iupdate fuel ip ;;; mret' r) s = Ok r s') /\
    let i' := set_isize (Z.max (i_size i) e) i in let n := IBLOCK (i_inum i) (fs_sb s) in
    fs_txn s' me held pinned' (upd_block v n (put_dinode (v n) (dinode_off (i_inum i)) i')) /\
    inode_of s' ip = i' /\ (forall ip', ip' <> ip -> inode_of s' ip' = inode_of s ip').
Proof.
  intros T Ei Hi He Hdev R (_ & P & Hun & Hlen). set (i' := set_isize (Z.max (i_size i) e) i).
  set (s1 := if i_size i <? e then with_size s ip e else s).
  assert (H1 : (if i_size i <? e then updi ip (set_isize e) else mret' tt) s = Ok tt s1)
    by (unfold s1; by destruct (_ <? _)).
  assert (H2 : fs_l s1 = fs_l s /\ fs_sb s1 = fs_sb s) by (unfold s1; by destruct (_ <? _)). destruct H2 as [El Esb].
  assert (H3 : inode_of s1 ip = i' /\ forall ip', ip' <> ip -> inode_of s1 ip' = inode_of s ip').
  { unfold s1, i'. destruct (Z.ltb_spec (i_size i) e).
    - rewrite Z.max_r by lia. split; [unfold inode_of at 1; cbn; by rewrite lookup_insert_eq, Ei|].
      intros ip' Hne. unfold inode_of. cbn. by rewrite lookup_insert_ne.
    - rewrite Z.max_l, set_isize_id by lia. done. }
  destruct H3 as [Ei' Hothers].
  assert (Hi' : inode_typed i').
  { destruct Hi. constructor; try done. unfold i'. cbn. unfold is_uint in *. lia. }
  assert (T1 : fs_txn s1 me held pinned v) by (destruct T as [T1 T2]; constructor; by rewrite El).
  destruct (iupdate_ok s1 me held pinned v i' T1 fuel ip Ei') as (s2 & pinned' & E2 & T2 & S2 & L2).
  { unfold fs_room. by rewrite El. }
  { done. }
  { unfold fs_place. by rewrite El, Esb. }
  { unfold unheld. by rewrite El, Esb. }
  exists s2, pinned'. split; [|cbv zeta; split_and!].
  - intros r. unfold geti. by rewrite bind_gets, Ei, (bind_ok _ _ _ _ _ H1), (bind_ok _ _ _ _ _ E2).
  - rewrite Esb in T2. exact T2.
  - by rewrite (inode_step _ _ _ ip S2).
  - intros ip' Hne. rewrite (inode_step _ _ _ ip' S2). by apply Hothers.
Qed.

Lemma written_intro s held v ip i N off l v1 s2 :
  inode_apart s held v i N -> wrote_file i v N off l v1 -> is_uint (off + zlen l) ->
  let i' := set_isize (Z.max (i_size i) (off + zlen l)) i in let nb := IBLOCK (i_inum i) (fs_sb s) in
  inode_of s2 ip = i' -> (forall ip', ip' <> ip -> inode_of s2 ip' = inode_of s ip') ->
  written s v ip i N off l s2 (upd_block v1 nb (put_dinode (v1 nb) (dinode_off (i_inum i)) i')).
Proof.
  intros [Q1 Q2 Q3 Q4] W He i' nb I2 O2. set (v2 := upd_block _ _ _).
  assert (Hi' : inode_typed i').
  { destruct Q1. constructor; try done. unfold i'. cbn. unfold is_uint in *. lia. }
  assert (Hv2 : forall n, n <> nb -> v2 n = v1 n) by (intros n Hn; unfold v2, upd_block; by rewrite decide_False).
  constructor; [exact I2|exact O2| | |].
  - unfold disk_inode, v2, upd_block. rewrite decide_True by done.
    rewrite load_put_dinode; [done| |apply dinode_off_range|done].
    unfold zlen. rewrite (wf_length _ _ _ _ _ _ W). destruct Q2 as (_ & _ & _ & Hl). fold nb in Hl. by rewrite Hl.
  - intros p Hp. rewrite <- (wf_byte _ _ _ _ _ _ W p Hp). apply (file_byte_apart i v1 v2 N p Hp).
    + intros b H1 H2. apply Hv2. rewrite (wf_map _ _ _ _ _ _ W) by done. intros E. by apply (Q3 b H1 H2).
    + intros H. apply Hv2. intros E. by apply (Q4 H).
  - intros n H1 H2. rewrite Hv2 by done. by apply (wf_other _ _ _ _ _ _ W).
Qed.

Lemma writei_ok (fuel : nat) (s : fsst) (me : nat) (held pinned : list Z) (v : blocks) (ip : nat)
    (i : inode) (N off n : Z) (l : list Z) (Ei : inode_of s ip = i) :
  fs_txn s me held pinned v -> file_ok s held v i N -> file_apart i v N -> inode_apart s held v i N ->
  0 <= off <= i_size i -> zlen l = n -> off + n <= N -> fs_room s held pinned (Z.to_nat (n / BSIZE + 3)) ->
  exists s' pinned' v', writei fuel ip (FromLocal l) off n s = Ok n s' /\ fs_txn s' me held pinned' v' /\
    written s v ip i N off l s' v'.
Proof.
  intros T F A Q Hoff Hl HN (R1 & R2 & R3). assert (0 <= n) as Hn by (unfold zlen in Hl; lia).
  pose proof (fo_max _ _ _ _ _ F) as HM. assert (MAXFILE * BSIZE < 2 ^ 31) as HM' by done.
  set (k := Z.to_nat (n / BSIZE + 2)). assert (Hk : Z.of_nat k = n / BSIZE + 2) by (unfold k, BSIZE in *; divlia).
  destruct (writei_loop_ok fuel me held ip i N l n k s pinned v off 0) as (s1 & p1 & v1 & E1 & T1 & S1 & L1 & W1); try done; try lia.
  { unfold fs_room. lia. }
  { unfold BSIZE in *. divlia. }
  rewrite Z.sub_0_r in E1, W1. rewrite <- Hl, slice_full in W1. set (nb := IBLOCK (i_inum i) (fs_sb s)) in *.
  destruct (writei_end fuel s1 me held p1 v1 ip i (off + n)) as (s2 & p2 & E2 & T2 & I2 & O2); try done.
  { by rewrite (inode_step _ _ _ ip S1). }
  { apply Q. }
  { unfold is_uint. lia. }
  { apply F. }
  { unfold fs_room. rewrite (fst_size _ _ _ S1), (fst_outstanding _ _ _ S1). lia. }
  { rewrite (fst_sb _ _ _ S1). fold nb. eapply readable_step; [exact S1|]. destruct (ia_block _ _ _ _ _ Q) as (X1 & X2 & X3 & X4).
    split_and!; try done. by rewrite (wf_length _ _ _ _ _ _ W1). }
  rewrite (fst_sb _ _ _ S1) in T2. eexists s2, p2, _. split; [|split; [exact T2|]].
  - unfold writei, geti. rewrite bind_gets, Ei, u32_small by lia.
    rewrite (proj2 (Z.ltb_ge (i_size i) off)), (proj2 (Z.ltb_ge (off + n) off)), (proj2 (Z.ltb_ge (MAXFILE * BSIZE) _)) by lia.
    cbn [orb]. fold k. rewrite (bind_ok _ _ _ _ _ E1). cbn [fst snd]. apply E2.
  - rewrite <- Hl in *. apply (written_intro s held); [done|done|unfold is_uint; lia|done|].
    intros ip' Hne. by rewrite O2, (inode_step _ _ _ ip' S1).
Qed.


(** ** Example: the file of 5 bytes of inode 17, in block 60 *)

Section Example17.
Context (s : fsst) (HL : l_log (fs_l s) = log1) (Hsb : fs_sb s = sb1).

Lemma readable1 n : 32 <= n < 2 ^ 31 -> n <> 45 -> readable s [] blocks1 n.
Proof.
  intros Hn H45. split_and!; [lia| |intros w []%not_elem_of_nil|].
  - unfold fs_place. rewrite HL. split; [unfold home_block; lia|]. right. apply Hn.
  - unfold blocks1. by rewrite lookup_singleton_ne by done.
Qed.

Lemma file17_block v b : b * BSIZE < 10 -> 0 <= b -> file_block inode17 v b = 60.
Proof. intros H1 H2. assert (b = 0) as -> by (unfold BSIZE in *; lia). done. Qed.

Lemma file17_ok N : N <= 10 -> file_ok s [] blocks1 inode17 N.
Proof.
  intros HN. constructor; [done|etrans; [exact HN|done]|..].
  - intros b H1 H2. rewrite file17_block by lia. apply readable1; lia.
  - intros H. exfalso. change (12288 < N) in H. lia.
Qed.

Lemma file17_apart : file_apart inode17 blocks1 10.
Proof.
  constructor; [|intros b _ _ H; exfalso; by vm_compute in H]. intros b b' H1 H2 H3 H4 _. unfold BSIZE in *. lia.
Qed.

Lemma inode17_apart : inode_apart s [] blocks1 inode17 10.
Proof.
  constructor; rewrite ?Hsb; change (IBLOCK (i_inum inode17) sb1) with 33.
  - apply inode17_typed.
  - apply readable1; lia.
  - intros b H1 H2. rewrite file17_block by lia. lia.
  - intros H. exfalso. by vm_compute in H.
Qed.
End Example17.

Lemma readi_correct_witness :
  exists s s', inode_of s 3 = inode17 /\ readi 0 3 ToLocal 2 100 s = Ok (3, [0; 0; 0]) s'.
Proof.
  destruct (fs1 {[3%nat := inode17]}) as (s & T & _ & _ & Hsb & HI & _ & HL).
  assert (Ei : inode_of s 3 = inode17) by (unfold inode_of; by rewrite HI).
  destruct (readi_correct 0 s 1 [] [] blocks1 3 inode17 2 100 Ei T (file17_ok s HL 5 ltac:(lia)))
    as (s' & E & _); [cbn; unfold NBUF; lia|lia..|].
  exists s, s'. split; [exact Ei|]. rewrite E. vm_compute. reflexivity.
Defined.

