(* ===== verification/DirSpec.v ===== *)
(** * Directories

    [iget], [dirlookup] and [dirlink] of [fs.c] against a directory as a
    finite map from names to inode numbers. *)
From S2P Require Import Prelude CString Spinlock Layout Dll Blocks Kalloc Vm Proc ProcSpec Quiet.
From S2P Require Import Sleeplock Bio BioSpec Log LogDisk LogSpec LogOps Fs FsPath Keeps FsTyped FsBlocks FsSpec.
From S2P Require Import InodeSpec FileSpec.

(** ** The lock of the inode table *)

Definition fs_hart (s : fsst) : hart := hart_of (bpst (l_b (fs_l s))).

(** The state [s] with another hart state and other inodes. *)
Definition fs_on (s : fsst) (h : hart) (I : gmap nat inode) : fsst :=
  mkfsst (mklst (on_hart (l_b (fs_l s)) h) (l_log (fs_l s))) (fs_sb s) I (fs_printed s).

Definition set_inodes (I : gmap nat inode) (s : fsst) : fsst :=
  mkfsst (fs_l s) (fs_sb s) I (fs_printed s).

Lemma bind_fs_hart {A C} (m : M hart A) (k : A -> M fsst C) p sl B D W L sb I P a h' :
  m (hart_of p) = Ok a h' ->
  mbind' (lift m) k (mkfsst (mklst (mkbst (mkslst p sl) B D W) L) sb I P) =
  k a (mkfsst (mklst (mkbst (mkslst (with_hart h' p) sl) B D W) L) sb I P).
Proof.
  intros E. exact (bind_lift m k (mkfsst (mklst (mkbst (mkslst p sl) B D W) L) sb I P) a h' E).
Qed.

Lemma bind_itable {A} (k : unit -> M fsst A) s :
  lock_free itable_lock (fs_hart s) ->
  mbind' (lift (acquire itable_lock)) k s =
  k tt (fs_on s (acquired itable_lock (fs_hart s)) (fs_inodes s)).
Proof.
  destruct s as [[[[p sl] B D W] L] sb I P]. intros Hl. apply bind_fs_hart. exact (acquire_eq _ _ Hl).
Qed.

Lemma itable_leave s h I :
  hart_ok h -> lock_free itable_lock h ->
  lift (release itable_lock) (fs_on s (acquired itable_lock h) I) = Ok tt (fs_on s (settle h) I).
Proof.
  intros Hok Hl. destruct s as [[[[p sl] B D W] L] sb I' P].
  assert (E : release itable_lock (hart_of (with_hart (acquired itable_lock h) p)) = Ok tt (settle h)).
  { autorewrite with mdb. by apply release_acquired. }
  exact (lift_ok (release itable_lock)
    (mkfsst (mklst (mkbst (mkslst (with_hart (acquired itable_lock h) p) sl) B D W) L) sb I P) tt
    (settle h) E).
Qed.

Lemma fs_hart_ok s me held pinned v : fs_txn s me held pinned v -> hart_ok (fs_hart s).
Proof. intros [T _]. destruct (lo_bio _ _ _ _ T) as [o Hb]. apply (bo_quiet _ _ _ _ _ Hb). Qed.

(** A critical section of the inode table changes the inodes only. *)
Lemma itable_section s me held pinned v I :
  fs_txn s me held pinned v ->
  let s' := fs_on s (settle (fs_hart s)) I in
  fs_txn s' me held pinned v /\ fs_step s held (set_inodes (fs_inodes s) s') /\ fs_inodes s' = I.
Proof.
  intros T s'. pose proof (fs_hart_ok _ _ _ _ _ T) as Hok. destruct T as [[T1 T2 T3 T4] T5].
  destruct T1 as [order Hb]. pose proof (bo_quiet _ _ _ _ _ Hb) as [Q1 Q2 Q3].
  split_and!; [|constructor; try done|done].
  - constructor; [constructor|done]; cbn [fs_l l_b l_log s' fs_on]; [|done| |done].
    + exists order. apply bio_ok_hart; [done| |apply Hb|intros u Hu; by apply Hb].
      constructor; autorewrite with mdb; [by apply settle_ok|by rewrite this_cpu_settle|done].
    + by apply (log_lists_same (l_b (fs_l s))).
  - exact (woke_settle (bpst (l_b (fs_l s)))).
Qed.

Lemma fs_on_twice s h I h' I' : fs_on (fs_on s h I) h' I' = fs_on s h' I'.
Proof. by destruct s as [[[[p sl] B D W] L] sb I0 P]. Qed.
Lemma updi_on {A} s h I ip f (k : unit -> M fsst A) :
  mbind' (updi ip f) k (fs_on s h I) = k tt (fs_on s h (<[ip := f (default inode0 (I !! ip))]> I)).
Proof. reflexivity. Qed.

(** ** iget *)

Definition holds_inode (s : fsst) (dev inum : Z) (ip : nat) : bool :=
  (0 <? i_ref (inode_of s ip)) && (i_dev (inode_of s ip) =? dev) && (i_inum (inode_of s ip) =? inum).

Lemma iget_scan_spec s dev inum k ip empty :
  match iget_scan k ip dev inum empty s with
  | inl j => (ip <= j < ip + k)%nat /\ holds_inode s dev inum j = true
  | inr e => (forall j, (ip <= j < ip + k)%nat -> holds_inode s dev inum j = false) /\
      match empty with
      | Some _ => e = empty
      | None => match e with
                | Some j => (ip <= j < ip + k)%nat /\ i_ref (inode_of s j) = 0
                | None => forall j, (ip <= j < ip + k)%nat -> i_ref (inode_of s j) <> 0
                end
      end
  end.
Proof.
  revert ip empty. induction k as [|k IH]; intros ip empty; cbn [iget_scan].
  { destruct empty; (split; [lia|]); [done|lia]. }
  destruct (_ && _ && _) eqn:E; [split; [lia|exact E]|].
  specialize (IH (S ip) (match empty with
    | None => if i_ref (inode_of s ip) =? 0 then Some ip else None | Some _ => empty end)).
  destruct (iget_scan k (S ip) dev inum _ s) as [j|e].
  { destruct IH. split; [lia|done]. }
  destruct IH as [H1 H2]. split.
  { intros j Hj. destruct (decide (j = ip)) as [->|]; [exact E|apply H1; lia]. }
  destruct empty as [x|]; [done|]. destruct (Z.eqb_spec (i_ref (inode_of s ip)) 0) as [Hz|Hz].
  - subst e. split; [lia|done].
  - destruct e as [j|]; [destruct H2; split; [lia|done]|].
    intros j Hj. destruct (decide (j = ip)) as [->|]; [done|apply H2; lia].
Qed.

(** What [iget] leaves: one more reference to an entry for the inode. *)
Record got_inode (s : fsst) (dev inum : Z) (ip : nat) (s' : fsst) : Prop := {
  gi_id : i_dev (inode_of s' ip) = dev /\ i_inum (inode_of s' ip) = inum;
  gi_ref : i_ref (inode_of s' ip) = i_ref (inode_of s ip) + 1;
  gi_cached : (holds_inode s dev inum ip = true /\
      inode_of s' ip = set_iref (i_ref (inode_of s ip) + 1) (inode_of s ip)) \/
    (i_ref (inode_of s ip) = 0 /\ i_valid (inode_of s' ip) = 0);
  gi_other : forall ip', ip' <> ip -> inode_of s' ip' = inode_of s ip';
}.

(** An entry of the inode table is free. *)
Definition itable_room (s : fsst) : Prop :=
  exists ip, (ip < NINODE)%nat /\ i_ref (inode_of s ip) = 0.

Lemma iget_ok s me held pinned v dev inum :
  fs_txn s me held pinned v -> lock_free itable_lock (fs_hart s) -> itable_room s ->
  exists ip s', iget dev inum s = Ok ip s' /\ fs_txn s' me held pinned v /\
    fs_step s held (set_inodes (fs_inodes s) s') /\ got_inode s dev inum ip s'.
Proof.
  intros T Hl (e & He & Hez). pose proof (fs_hart_ok _ _ _ _ _ T) as Hok.
  unfold iget. rewrite bind_itable by done. rewrite bind_gets.
  pose proof (iget_scan_spec (fs_on s (acquired itable_lock (fs_hart s)) (fs_inodes s)) dev inum NINODE 0 None) as Hscan.
  destruct (iget_scan _ _ _ _ _ _) as [ip|[ip|]].
  - destruct Hscan as [_ Hh]. unfold geti. rewrite bind_gets, updi_on.
    rewrite (bind_ok _ _ _ _ _ (itable_leave s _ _ Hok Hl)). eexists ip, _. split; [done|].
    destruct (itable_section s me held pinned v
      (<[ip := set_iref (i_ref (inode_of s ip) + 1) (inode_of s ip)]> (fs_inodes s)) T) as (T' & S' & E').
    split; [exact T'|]. split; [exact S'|].
    assert (Ei : forall j, inode_of (fs_on s (settle (fs_hart s))
      (<[ip := set_iref (i_ref (inode_of s ip) + 1) (inode_of s ip)]> (fs_inodes s))) j =
      if decide (j = ip) then set_iref (i_ref (inode_of s ip) + 1) (inode_of s ip) else inode_of s j).
    { intros j. unfold inode_of. cbn [fs_inodes fs_on]. case_decide as Hj; [subst; by rewrite lookup_insert_eq|].
      by rewrite lookup_insert_ne. }
    apply andb_true_iff in Hh as Hh'. destruct Hh' as [[Hr ?%Z.eqb_eq]%andb_true_iff ?%Z.eqb_eq].
    constructor; setoid_rewrite Ei; rewrite ?decide_True by done; [done|done|left; done|].
    intros ip' Hne. by rewrite decide_False.
  - destruct Hscan as [_ [_ Hz]]. rewrite updi_on.
    rewrite (bind_ok _ _ _ _ _ (itable_leave s _ _ Hok Hl)). eexists ip, _. split; [done|].
    set (i := inode_of s ip). set (x := mkinode dev inum 1 0 _ _ _ _ _ _).
    destruct (itable_section s me held pinned v (<[ip := x]> (fs_inodes s)) T) as (T' & S' & E').
    split; [exact T'|]. split; [exact S'|].
    change (i_ref i = 0) in Hz. constructor.
    + unfold inode_of. cbn [fs_inodes fs_on]. by rewrite lookup_insert_eq.
    + unfold inode_of at 1. cbn [fs_inodes fs_on]. rewrite lookup_insert_eq. fold i. rewrite Hz. done.
    + right. split; [done|]. unfold inode_of. cbn [fs_inodes fs_on]. by rewrite lookup_insert_eq.
    + intros ip' Hne. unfold inode_of. cbn [fs_inodes fs_on]. by rewrite lookup_insert_ne.
  - destruct Hscan as [_ Hn]. exfalso. by apply (Hn e); [lia|].
Qed.

(** [iput] right after [iget] gives the reference back. *)
Lemma iput_got fuel s0 s me held pinned v dev inum ip :
  fs_txn s me held pinned v -> lock_free itable_lock (fs_hart s) -> got_inode s0 dev inum ip s ->
  exists s', iput fuel ip s = Ok tt s' /\ fs_txn s' me held pinned v /\
    fs_step s held (set_inodes (fs_inodes s) s') /\
    (forall ip', i_ref (inode_of s' ip') = i_ref (inode_of s0 ip')) /\
    (forall ip', 0 < i_ref (inode_of s0 ip') -> inode_of s' ip' = inode_of s0 ip').
Proof.
  intros T Hl [G1 G2 G3 G4]. pose proof (fs_hart_ok _ _ _ _ _ T) as Hok.
  unfold iput. rewrite bind_itable by done. unfold geti. rewrite bind_gets. cbn [id].
  set (s1 := fs_on s _ _). assert (Es1 : forall j, inode_of s1 j = inode_of s j) by done.
  rewrite Es1.
  assert (Hc : (i_ref (inode_of s ip) =? 1) && negb (i_valid (inode_of s ip) =? 0) &&
    (i_nlink (inode_of s ip) =? 0) = false).
  { destruct G3 as [[Hh Hi]|[_ ->]]; [|by rewrite andb_false_r].
    apply andb_true_iff in Hh as [[Hr%Z.ltb_lt _]%andb_true_iff _].
    rewrite G2. destruct (Z.eqb_spec (i_ref (inode_of s0 ip) + 1) 1); [lia|done]. }
  rewrite Hc, bind_ret, bind_gets, Es1. unfold s1. rewrite updi_on.
  rewrite (itable_leave s _ _ Hok Hl). change (default inode0 (fs_inodes s !! ip)) with (inode_of s ip).
  set (x := set_iref (i_ref (inode_of s ip) - 1) (inode_of s ip)).
  destruct (itable_section s me held pinned v (<[ip := x]> (fs_inodes s)) T) as (T' & S' & E').
  eexists. split; [done|]. split; [exact T'|]. split; [exact S'|].
  assert (Ei : forall j, inode_of (fs_on s (settle (fs_hart s)) (<[ip := x]> (fs_inodes s))) j =
    if decide (j = ip) then x else inode_of s j).
  { intros j. unfold inode_of. cbn [fs_inodes fs_on]. case_decide as Hj; [subst; by rewrite lookup_insert_eq|].
    by rewrite lookup_insert_ne. }
  split; intros j; rewrite Ei; case_decide as Hj.
  - subst j. unfold x. cbn [i_ref set_iref]. rewrite G2. lia.
  - by rewrite G4.
  - subst j. intros Hr. destruct G3 as [[_ Hi]|[Hz _]]; [|lia]. unfold x. rewrite Hi. cbn [i_ref set_iref].
    rewrite Z.add_simpl_r. by destruct (inode_of s0 ip).
  - intros _. by rewrite G4.
Qed.

(** ** Names *)

(** A name as it is stored: padded with NULs, cut at [DIRSIZ] bytes. *)
Definition name_key (name : list Z) : list Z := strncpy_list (Z.to_nat DIRSIZ) name.

Lemma strncmp_key n p q : (strncmp_list n p q =? 0) = bool_decide (strncpy_list n p = strncpy_list n q).
Proof.
  revert p q. induction n as [|n IH]; intros p q; cbn [strncmp_list strncpy_list]; [done|].
  destruct (Z.eqb_spec (hd 0 p) 0) as [Hp|Hp], (Z.eqb_spec (hd 0 q) 0) as [Hq|Hq];
    cbn [negb andb]; [rewrite Hp, Hq; by rewrite bool_decide_true| | |].
  - rewrite Hp, bool_decide_false; [by apply Z.eqb_neq; lia|]. cbn [replicate]. congruence.
  - destruct (Z.eqb_spec (hd 0 p) (hd 0 q)); [congruence|].
    rewrite bool_decide_false; [apply Z.eqb_neq; lia|]. cbn [replicate]. congruence.
  - destruct (Z.eqb_spec (hd 0 p) (hd 0 q)) as [E|E].
    + rewrite IH. apply bool_decide_ext. rewrite E. split; congruence.
    + rewrite bool_decide_false; [apply Z.eqb_neq; lia|]. congruence.
Qed.

Lemma length_strncpy n t : length (strncpy_list n t) = n.
Proof.
  revert t. induction n as [|n IH]; intros t; cbn [strncpy_list]; [done|].
  destruct (_ =? 0); cbn [length replicate]; [by rewrite length_replicate|by rewrite IH].
Qed.

Lemma strncpy_zeros n : strncpy_list n (replicate n 0) = replicate n 0.
Proof. by destruct n. Qed.

Lemma strncpy_idem n t : strncpy_list n (strncpy_list n t) = strncpy_list n t.
Proof.
  revert t. induction n as [|n IH]; intros t; [done|]. cbn [strncpy_list].
  destruct (Z.eqb_spec (hd 0 t) 0) as [E|E]; [done|]. cbn [hd tl].
  destruct (Z.eqb_spec (hd 0 t) 0); [done|]. by rewrite IH.
Qed.

(** ** A directory as a list of entries and as a map *)

(** The entries: inode number, 0 for an unused one, and name. *)
Definition dirent (i : inode) (v : blocks) (k : Z) : Z * list Z :=
  let de := file_bytes i v (16 * k) 16 in (de_inum de, name_key (de_name de)).
Definition dirents (i : inode) (v : blocks) (n : nat) : list (Z * list Z) :=
  dirent i v <$> seqZ 0 (Z.of_nat n).

(** The first used entry for a name: its position and inode number. *)
Fixpoint dir_find (ents : list (Z * list Z)) (key : list Z) : option (nat * Z) :=
  match ents with
  | [] => None
  | (inum, nm) :: ents =>
      if negb (inum =? 0) && bool_decide (key = nm) then Some (0%nat, inum)
      else match dir_find ents key with Some (k, x) => Some (S k, x) | None => None end
  end.

(** The map the directory represents. *)
Definition dir_map (ents : list (Z * list Z)) (key : list Z) : option Z := snd <$> dir_find ents key.

(** The first unused entry, or the number of entries. *)
Fixpoint dir_slot (ents : list (Z * list Z)) : nat :=
  match ents with
  | [] => 0
  | (inum, _) :: ents => if inum =? 0 then 0 else S (dir_slot ents)
  end.

(** The entries with [e] stored at [k], which is at most their number. *)
Definition put_ent (ents : list (Z * list Z)) (k : nat) (e : Z * list Z) : list (Z * list Z) :=
  take k ents ++ e :: drop (S k) ents.

Lemma dir_map_put ents key inum key' :
  dir_map ents key = None -> inum <> 0 ->
  dir_map (put_ent ents (dir_slot ents) (inum, key)) key' =
  if decide (key' = key) then Some inum else dir_map ents key'.
Proof.
  unfold dir_map. intros Hn Hi. induction ents as [|[x nm] ents IH].
  - cbn. destruct (Z.eqb_spec inum 0); [done|]. cbn. case_decide as Hk.
    + rewrite bool_decide_true by done. done.
    + by rewrite bool_decide_false.
  - unfold put_ent in *. cbn [dir_slot]. destruct (Z.eqb_spec x 0) as [->|Hx].
    + cbn [take app drop dir_find]. destruct (Z.eqb_spec inum 0); [done|]. cbn [negb andb].
      change (negb (0 =? 0)) with false in *. cbn [andb].
      case_decide as Hk; [by rewrite bool_decide_true|]. rewrite bool_decide_false by done.
      by rewrite drop_0.
    + cbn [take app drop dir_find] in *. destruct (Z.eqb_spec x 0); [done|]. cbn [negb andb] in *.
      destruct (decide (key = nm)) as [<-|Hkn]; [by rewrite bool_decide_true in Hn|].
      rewrite (bool_decide_false (key = nm)) in Hn by done.
      destruct (decide (key' = nm)) as [->|Hkn'].
      * rewrite bool_decide_true, decide_False by congruence. done.
      * rewrite !bool_decide_false by done.
        specialize (IH ltac:(by destruct (dir_find ents key) as [[??]|])).
        destruct (dir_find (take _ ents ++ _) key') as [[? y]|], (dir_find ents key') as [[? z]|]; exact IH.
Qed.

Section Dir.
Context (fuel : nat) (me : nat) (held pinned : list Z) (v : blocks) (dp : nat) (i : inode) (n : nat).
Context (Hroom : (length held + length pinned < NBUF)%nat) (Hsize : i_size i = 16 * Z.of_nat n)
  (Hmax : i_size i < 2 ^ 31) (Htype : i_type i = T_DIR).

(** Reading entry [k]. *)
Lemma read_entry s k :
  fs_txn s me held pinned v -> inode_of s dp = i -> file_ok s held v i (i_size i) ->
  0 <= k < Z.of_nat n ->
  exists s', readi fuel dp ToLocal (16 * k) sizeof_dirent s = Ok (16, file_bytes i v (16 * k) 16) s' /\
    fs_txn s' me held pinned v /\ fs_step s held s'.
Proof.
  intros T Ei F Hk. destruct (readi_ok fuel s me held pinned v dp i (16 * k) 16 Ei T F Hroom)
    as (s' & E & T' & S'); [lia..|].
  assert (Hc : read_count (i_size i) (16 * k) 16 = 16).
  { unfold read_count. rewrite (proj2 (Z.ltb_ge _ _)) by lia. lia. }
  rewrite Hc in E. by exists s'.
Qed.

Lemma dirents_drop k : 0 <= k <= Z.of_nat n ->
  drop (Z.to_nat k) (dirents i v n) =
  if k <? Z.of_nat n then dirent i v k :: drop (Z.to_nat (k + 1)) (dirents i v n) else [].
Proof.
  intros Hk. unfold dirents. destruct (Z.ltb_spec k (Z.of_nat n)).
  - replace (Z.to_nat (k + 1)) with (S (Z.to_nat k)) by lia. apply drop_S.
    rewrite list_lookup_fmap, lookup_seqZ_lt by lia. cbn. do 2 f_equal. lia.
  - apply drop_ge. rewrite length_fmap, length_seqZ. lia.
Qed.

(** The outcome of looking for [name] from entry [j] on. *)
Definition looked_up (s : fsst) (name : list Z) (j : Z) (r : option (nat * Z)) (s' : fsst) : Prop :=
  fs_txn s' me held pinned v /\ fs_step s held (set_inodes (fs_inodes s) s') /\
  match dir_find (drop (Z.to_nat j) (dirents i v n)) (name_key name) with
  | None => r = None /\ fs_inodes s' = fs_inodes s
  | Some (m, x) => exists ip, r = Some (ip, 16 * (j + Z.of_nat m)) /\ got_inode s ROOTDEV x ip s'
  end.

Lemma got_inode_same s1 s dev inum ip s' :
  fs_inodes s1 = fs_inodes s -> got_inode s1 dev inum ip s' -> got_inode s dev inum ip s'.
Proof.
  intros E [G1 G2 G3 G4]. unfold holds_inode, inode_of in *. rewrite E in *. by constructor.
Qed.

Lemma fs_step_inodes s h s1 s' :
  fs_step s h s1 -> fs_step s1 h (set_inodes (fs_inodes s1) s') -> fs_step s h (set_inodes (fs_inodes s) s').
Proof.
  intros S1 S2. pose proof (fst_inodes _ _ _ S1) as E. rewrite E in S2. by eapply fs_step_trans.
Qed.

Lemma looked_up_step s name j r s1 s' :
  fs_step s held s1 -> looked_up s1 name j r s' -> looked_up s name j r s'.
Proof.
  intros S (T & S' & Hm). split_and!; [done|by eapply fs_step_inodes|].
  pose proof (fst_inodes _ _ _ S) as E. destruct (dir_find _ _) as [[m x]|].
  - destruct Hm as (ip & -> & G). exists ip. split; [done|]. by eapply got_inode_same.
  - by rewrite <- E.
Qed.

(** An entry that is not the one that is looked for. *)
Lemma looked_up_next s name j r s' :
  0 <= j < Z.of_nat n ->
  negb ((dirent i v j).1 =? 0) && bool_decide (name_key name = (dirent i v j).2) = false ->
  looked_up s name (j + 1) r s' -> looked_up s name j r s'.
Proof.
  intros Hj Hne (T & S & Hm). split_and!; [done..|]. rewrite dirents_drop by lia.
  rewrite (proj2 (Z.ltb_lt _ _)) by lia. destruct (dirent i v j) as [x nm]. cbn [dir_find fst snd] in *.
  rewrite Hne. destruct (dir_find _ (name_key name)) as [[m y]|]; [|done].
  destruct Hm as (ip & -> & G). exists ip. split; [do 2 f_equal; lia|done].
Qed.

Lemma fs_free_step s h s' l : fs_step s h s' -> lock_free l (fs_hart s) -> lock_free l (fs_hart s').
Proof. intros S. apply woke_free, S. Qed.

Lemma itable_room_same s s' : fs_inodes s' = fs_inodes s -> itable_room s -> itable_room s'.
Proof. intros E. unfold itable_room, inode_of. by rewrite E. Qed.

Lemma dirlookup_loop_ok name k : forall s j,
  fs_txn s me held pinned v -> inode_of s dp = i -> file_ok s held v i (i_size i) ->
  lock_free itable_lock (fs_hart s) -> itable_room s ->
  0 <= j <= Z.of_nat n -> Z.of_nat n - j < Z.of_nat k ->
  exists r s', dirlookup_loop fuel k dp name (16 * j) s = Ok r s' /\ looked_up s name j r s'.
Proof.
  induction k as [|k IH]; intros s j T Ei F Hl Hr Hj Hk; [lia|]. cbn [dirlookup_loop].
  unfold geti. rewrite bind_gets, Ei, Hsize.
  destruct (Z.ltb_spec (16 * j) (16 * Z.of_nat n)) as [Hlt|Hge].
  2: { exists None, s. split; [done|]. split_and!; [done|destruct s; apply fs_step_refl|].
       rewrite dirents_drop by lia. by rewrite (proj2 (Z.ltb_ge _ _)) by lia. }
  destruct (read_entry s j T Ei F ltac:(lia)) as (s1 & E1 & T1 & S1).
  rewrite (bind_ok _ _ _ _ _ E1). cbn [fst snd]. change (negb (16 =? sizeof_dirent)) with false. cbv iota.
  set (de := file_bytes i v (16 * j) 16).
  pose proof (fst_inodes _ _ _ S1) as EI.
  assert (Hnext : forall b, negb (de_inum de =? 0) && bool_decide (name_key name = name_key (de_name de)) = false ->
    b = sizeof_dirent -> exists r s', dirlookup_loop fuel k dp name (16 * j + b) s1 = Ok r s' /\ looked_up s name j r s').
  { intros b Hne ->. destruct (IH s1 (j + 1)) as (r & s' & E & Hlu); [done|by rewrite (inode_step _ _ _ dp S1)|
      by eapply file_ok_step|by eapply fs_free_step|by eapply itable_room_same|lia|lia|].
    exists r, s'. split; [rewrite <- E; f_equal; unfold sizeof_dirent; lia|].
    apply (looked_up_step _ _ _ _ s1); [done|]. apply looked_up_next; [lia|exact Hne|done]. }
  destruct (de_inum de =? 0) eqn:Ez; [by apply Hnext|].
  unfold namecmp. rewrite strncmp_key. fold (name_key name) (name_key (de_name de)).
  destruct (bool_decide (name_key name = name_key (de_name de))) eqn:En; [|by apply Hnext].
  unfold geti. rewrite bind_gets, (inode_step _ _ _ dp S1), Ei, (fo_dev _ _ _ _ _ F).
  destruct (iget_ok s1 me held pinned v ROOTDEV (de_inum de) T1) as (ip & s2 & E2 & T2 & S2 & G2);
    [by eapply fs_free_step|by eapply itable_room_same|].
  rewrite (bind_ok _ _ _ _ _ E2). exists (Some (ip, 16 * j)), s2. split; [done|].
  apply (looked_up_step _ _ _ _ s1); [done|]. split_and!; [done..|].
  rewrite dirents_drop by lia. rewrite (proj2 (Z.ltb_lt _ _)) by lia. unfold dirent. fold de.
  cbn [dir_find]. rewrite Ez, En. cbn [negb andb]. exists ip. split; [do 2 f_equal; lia|done].
Qed.

Lemma dirlookup_ok name s :
  fs_txn s me held pinned v -> inode_of s dp = i -> file_ok s held v i (i_size i) ->
  lock_free itable_lock (fs_hart s) -> itable_room s ->
  exists r s', dirlookup fuel dp name s = Ok r s' /\ looked_up s name 0 r s'.
Proof.
  intros T Ei F Hl Hr. unfold dirlookup, geti. rewrite bind_gets, Ei. cbn [id]. rewrite Htype.
  change (negb (T_DIR =? T_DIR)) with false. cbv iota. rewrite Hsize. unfold sizeof_dirent.
  rewrite Z.mul_comm, Z.div_mul by lia. apply (dirlookup_loop_ok name _ s 0); [done..|lia|lia].
Qed.

(** The search of [dirlink] for an unused entry. *)
Lemma dirlink_loop_ok k : forall s j,
  fs_txn s me held pinned v -> inode_of s dp = i -> file_ok s held v i (i_size i) ->
  0 <= j <= Z.of_nat n -> Z.of_nat n - j < Z.of_nat k ->
  exists s', dirlink_loop fuel k dp (16 * j) s =
      Ok (16 * (j + Z.of_nat (dir_slot (drop (Z.to_nat j) (dirents i v n))))) s' /\
    fs_txn s' me held pinned v /\ fs_step s held s'.
Proof.
  induction k as [|k IH]; intros s j T Ei F Hj Hk; [lia|]. cbn [dirlink_loop].
  unfold geti. rewrite bind_gets, Ei, Hsize. rewrite dirents_drop by lia.
  destruct (Z.ltb_spec (16 * j) (16 * Z.of_nat n)) as [Hlt|Hge].
  2: { rewrite (proj2 (Z.ltb_ge _ _)) by lia. exists s. cbn. split_and!; [by rewrite Z.add_0_r|done|apply fs_step_refl]. }
  rewrite (proj2 (Z.ltb_lt j _)) by lia.
  destruct (read_entry s j T Ei F ltac:(lia)) as (s1 & E1 & T1 & S1).
  rewrite (bind_ok _ _ _ _ _ E1). cbn [fst snd]. change (negb (16 =? sizeof_dirent)) with false. cbv iota.
  unfold dirent at 1. cbn [dir_slot]. destruct (Z.eqb_spec (de_inum (file_bytes i v (16 * j) 16)) 0).
  { exists s1. by rewrite Z.add_0_r. }
  destruct (IH s1 (j + 1)) as (s2 & E2 & T2 & S2); [done|by rewrite (inode_step _ _ _ dp S1)|
    by eapply file_ok_step|lia|lia|].
  exists s2. split_and!; [|done|by eapply fs_step_trans].
  replace (16 * j + sizeof_dirent) with (16 * (j + 1)) by (unfold sizeof_dirent; lia). rewrite E2.
  do 2 f_equal. lia.
Qed.
End Dir.

(** ** dirlink *)

Lemma file_ok_le s held v i N N' : N' <= N -> file_ok s held v i N -> file_ok s held v i N'.
Proof.
  intros Hle [F1 F2 F3 F4]. constructor; [done|lia|..].
  - intros b H1 H2. apply F3; lia.
  - intros H. apply F4. lia.
Qed.

Lemma inode_apart_step s held v i N s' :
  fs_step s held s' -> inode_apart s held v i N -> inode_apart s' held v i N.
Proof.
  intros S [Q1 Q2 Q3 Q4]. constructor; rewrite ?(fst_sb _ _ _ S); try done. by eapply readable_step.
Qed.

Definition dirent_bytes (name : list Z) (inum : Z) : list Z := le 2 inum ++ name_key name.

Lemma zlen_dirent name inum : zlen (dirent_bytes name inum) = 16.
Proof. unfold zlen, dirent_bytes, name_key. rewrite length_app, length_le, length_strncpy. done. Qed.

Lemma dirent_bytes_parse name inum :
  0 <= inum < 65536 -> de_inum (dirent_bytes name inum) = inum /\
  name_key (de_name (dirent_bytes name inum)) = name_key name.
Proof.
  intros Hi. split.
  - unfold de_inum, get16, dirent_bytes. cbn [getn le app]. unfold get8. change (Z.to_nat 0) with 0%nat.
    change (Z.to_nat (0 + 1)) with 1%nat. cbn [nth]. unfold u8. change (2 ^ 8) with 256. divlia.
  - unfold de_name, dirent_bytes, slice. change (Z.to_nat 2) with 2%nat.
    rewrite drop_app_length' by (by rewrite length_le).
    rewrite take_ge by (unfold name_key; rewrite length_strncpy; done).
    apply strncpy_idem.
Qed.

(** The bytes of a file, read off a byte at a time. *)
Lemma file_bytes_eq i v off l :
  (forall p, 0 <= p < zlen l -> file_byte i v (off + p) = get8 l p) -> file_bytes i v off (zlen l) = l.
Proof.
  intros H. unfold file_bytes. apply list_eq. intros k. rewrite list_lookup_fmap.
  destruct (decide (Z.of_nat k < zlen l)) as [Hk|Hk].
  - rewrite lookup_seqZ_lt by lia. cbn. rewrite H by lia. rewrite get8_lookup, Nat2Z.id.
    destruct (lookup_lt_is_Some_2 l k) as [x ->]; [unfold zlen in Hk; lia|done].
  - rewrite lookup_seqZ_ge by lia. cbn. symmetry. apply lookup_ge_None_2. unfold zlen in Hk. lia.
Qed.

Lemma dir_slot_le ents : (dir_slot ents <= length ents)%nat.
Proof. induction ents as [|[x nm] ents IH]; cbn; [lia|]. destruct (x =? 0); lia. Qed.

Lemma length_dirents i v n : length (dirents i v n) = n.
Proof. unfold dirents. rewrite length_fmap, length_seqZ. lia. Qed.

Lemma lookup_put_ent ents k e j :
  (k <= length ents)%nat ->
  put_ent ents k e !! j = if decide (j = k) then Some e else ents !! j.
Proof.
  intros Hk. unfold put_ent. case_decide as Hj.
  - subst j. rewrite list_lookup_middle; [done|]. rewrite length_take. lia.
  - destruct (decide (j < k)%nat).
    + rewrite lookup_app_l by (rewrite length_take; lia). by rewrite lookup_take_lt.
    + rewrite lookup_app_r by (rewrite length_take; lia). rewrite length_take, min_l by lia.
      destruct (j - k)%nat as [|m] eqn:E; [lia|]. cbn [lookup list_lookup].
      change (drop (S k) ents !! m = ents !! j). rewrite lookup_drop. f_equal. lia.
Qed.

(** The entries after [writei] of a new one. *)
Lemma dirents_written s v ip i N n name inum s' v' k :
  written s v ip i N (16 * Z.of_nat k) (dirent_bytes name inum) s' v' ->
  (k <= n)%nat -> 16 * Z.of_nat n + 16 <= N -> 0 <= inum < 65536 ->
  let n' := Nat.max n (S k) in
  dirents (inode_of s' ip) v' n' = put_ent (dirents i v n) k (inum, name_key name).
Proof.
  intros [W1 W2 W3 W4 W5] Hk HN Hi n'. rewrite zlen_dirent in *.
  assert (Hent : forall j, 0 <= j < Z.of_nat n' -> dirent (inode_of s' ip) v' j =
    if decide (j = Z.of_nat k) then (inum, name_key name) else dirent i v j).
  { intros j Hj. unfold dirent. rewrite W1. change (file_bytes (set_isize _ i)) with (file_bytes i).
    case_decide as E.
    - subst j. destruct (dirent_bytes_parse name inum Hi) as [E1 E2].
      pose proof (file_bytes_eq i v' (16 * Z.of_nat k) (dirent_bytes name inum)) as Hb.
      rewrite zlen_dirent in Hb. rewrite Hb; [by rewrite E1, E2|].
      intros p Hp. rewrite W4 by lia. rewrite decide_True by lia. f_equal. lia.
    - assert (Hb : file_bytes i v' (16 * j) 16 = file_bytes i v (16 * j) 16); [|by rewrite Hb].
      unfold file_bytes. apply list_fmap_ext. intros m p Hp. apply lookup_seqZ in Hp as [-> Hm].
      rewrite W4 by (unfold n' in *; lia). rewrite decide_False by lia. done. }
  apply list_eq. intros j. rewrite lookup_put_ent by (rewrite length_dirents; lia).
  destruct (decide (j < n')%nat) as [Hj|Hj].
  - unfold dirents. rewrite !list_lookup_fmap, lookup_seqZ_lt by lia. cbn.
    rewrite Hent by lia. case_decide as E; [rewrite decide_True by lia; done|].
    rewrite decide_False by lia. rewrite lookup_seqZ_lt by (unfold n' in *; lia). done.
  - rewrite decide_False by (unfold n' in *; lia).
    rewrite !lookup_ge_None_2; [done|rewrite length_dirents; unfold n' in *; lia..].
Qed.

(** C13. A directory of [fs.c] is a map from names to inode numbers.
    [dirlookup] of a name gives [None] when the map does not have it, and
    otherwise one more reference to an in-memory inode with the number it
    has, and the place of its entry. *)
Theorem dirlookup_correct (fuel : nat) (s : fsst) (me : nat) (held pinned : list Z) (v : blocks) (dp : nat)
    (i : inode) (n : nat) (name : list Z) (Ei : inode_of s dp = i) :
  fs_txn s me held pinned v -> file_ok s held v i (i_size i) ->
  i_type i = T_DIR -> i_size i = 16 * Z.of_nat n ->
  (length held + length pinned < NBUF)%nat -> lock_free itable_lock (fs_hart s) -> itable_room s ->
  exists r s', dirlookup fuel dp name s = Ok r s' /\ fs_txn s' me held pinned v /\
    match dir_map (dirents i v n) (name_key name) with
    | None => r = None /\ fs_inodes s' = fs_inodes s
    | Some inum => exists ip k, r = Some (ip, 16 * Z.of_nat k) /\ got_inode s ROOTDEV inum ip s' /\
        dirents i v n !! k = Some (inum, name_key name)
    end.
Proof.
  intros T F Ht Hsz Hroom Hl Hr. assert (MAXFILE * BSIZE < 2 ^ 31) by done.
  pose proof (fo_max _ _ _ _ _ F).
  destruct (dirlookup_ok fuel me held pinned v dp i n Hroom Hsz ltac:(lia) Ht name s T Ei F Hl Hr)
    as (r & s' & E & T' & _ & Hm).
  exists r, s'. split_and!; [done..|]. unfold dir_map. change (Z.to_nat 0) with 0%nat in Hm. rewrite drop_0 in Hm.
  destruct (dir_find (dirents i v n) (name_key name)) as [[k x]|] eqn:Ef; [|done]. cbn.
  destruct Hm as (ip & -> & G). exists ip, k. split_and!; [done..|]. clear - Ef. revert k Ef.
  induction (dirents i v n) as [|[y nm] ents IH]; intros k; cbn [dir_find]; [done|].
  destruct (_ && _) eqn:Eb.
  - intros [= <- <-]. apply andb_true_iff in Eb as [_ Eb]. apply bool_decide_eq_true in Eb. cbn. by rewrite Eb.
  - destruct (dir_find ents (name_key name)) as [[k' x']|]; [|done]. intros [= <- <-]. by apply (IH k').
Qed.


(** ** Example: a directory with two unused entries, in block 60 *)

Definition dir17 : inode := mkinode ROOTDEV 17 1 1 T_DIR 0 0 1 32 (60 :: replicate 12 0).

Section Example_dir.
Context (s : fsst) (HL : l_log (fs_l s) = log1) (Hsb : fs_sb s = sb1) (HI : fs_inodes s = {[3%nat := dir17]}).

Lemma dir17_block v b : b * BSIZE < 100 -> 0 <= b -> file_block dir17 v b = 60.
Proof. intros H1 H2. assert (b = 0) as -> by (unfold BSIZE in *; lia). done. Qed.

Lemma dir17_ok N : N <= 100 -> file_ok s [] blocks1 dir17 N.
Proof.
  intros HN. constructor; [done|etrans; [exact HN|done]|..].
  - intros b H1 H2. rewrite dir17_block by lia. apply (readable1 s HL); lia.
  - intros H. exfalso. change (12288 < N) in H. lia.
Qed.

Lemma dir17_apart : file_apart dir17 blocks1 100 /\ inode_apart s [] blocks1 dir17 100.
Proof.
  split; constructor; rewrite ?Hsb; change (IBLOCK (i_inum dir17) sb1) with 33.
  - intros b b' H1 H2 H3 H4 _. unfold BSIZE in *. lia.
  - intros b _ _ H. exfalso. by vm_compute in H.
  - destruct inode17_typed. by constructor.
  - apply (readable1 s HL); lia.
  - intros b H1 H2. rewrite dir17_block by lia. lia.
  - intros H. exfalso. by vm_compute in H.
Qed.

Lemma dir17_table : inode_of s 3 = dir17 /\ itable_room s.
Proof.
  unfold itable_room, inode_of. rewrite HI. split; [done|]. exists 4%nat. split; [unfold NINODE; lia|done].
Qed.
End Example_dir.

Lemma dirlookup_correct_witness :
  exists s s', inode_of s 3 = dir17 /\ dirlookup 0 3 [97; 0] s = Ok None s'.
Proof.
  destruct (fs1_free {[3%nat := dir17]}) as (s & T & _ & _ & Hsb & HI & _ & HL & Hl).
  destruct (dir17_table s HI) as [Ei Hr].
  destruct (dirlookup_correct 0 s 1 [] [] blocks1 3 dir17 2 [97; 0] Ei T (dir17_ok s HL 32 ltac:(lia)))
    as (r & s' & E & _ & Hm); [reflexivity|reflexivity|cbn; unfold NBUF; lia|exact Hl|exact Hr|].
  assert (Hd : dir_map (dirents dir17 blocks1 2) (name_key [97; 0]) = None) by (vm_compute; reflexivity).
  rewrite Hd in Hm. destruct Hm as [-> _]. exists s, s'. split; [exact Ei|exact E].
Defined.

