(* ===== verification/TruncSpec.v ===== *)
(** * Truncating a file

    [itrunc] of [fs.c] gives exactly the blocks of the file back to the
    bitmap. The bitmap is in one block, as in the file systems that [mkfs]
    makes, so that a truncation logs two blocks however large the file is. *)
From S2P Require Import Prelude CString Spinlock Layout Dll Blocks Kalloc Vm Proc ProcSpec Quiet.
From S2P Require Import Sleeplock Bio BioSpec Log LogDisk LogSpec LogOps Fs FsPath Keeps FsTyped FsBlocks FsSpec.
From S2P Require Import InodeSpec FileSpec.

(** ** Buffers of blocks that are logged already *)

(** A read leaves the buffers in use with their blocks. *)
Lemma read_blocknos fuel s me held pinned v n u s1 w :
  fs_txn s me held pinned v -> fs_place s n -> unheld s held n -> (length held + length pinned < NBUF)%nat ->
  lift (bread fuel ROOTDEV n) s = Ok u s1 -> w ∈ held ++ pinned ->
  blockno_of (l_b (fs_l s1)) w = blockno_of (l_b (fs_l s)) w.
Proof.
  intros [T1 T2] [P1 P2] Hun Hroom E Hw. destruct s as [[b L] sb I P]. cbn [fs_l] in *.
  destruct (get_block fuel (mklst b L) me held pinned n T1) as (u' & b' & E' & _ & R & _); [by constructor|].
  pose proof (lift_ok (bread fuel ROOTDEV n) (mkfsst (mklst b L) sb I P) u' b' E') as E2. rewrite E2 in E.
  injection E as <- <-. apply (rd_used _ _ _ _ _ _ _ R w Hw).
Qed.

Lemma release_blocknos s me held pinned v u n d s' w :
  fs_txn s me (u :: held) pinned v -> opened s pinned u n d -> lift (brelse u) s = Ok tt s' ->
  blockno_of (l_b (fs_l s')) w = blockno_of (l_b (fs_l s)) w.
Proof.
  intros [T1 T2] [O1 O2 O3] E. destruct s as [[b L] sb I P]. cbn [fs_l l_b] in *.
  destruct (brelse_free b me held pinned u (lo_bio _ _ _ _ T1)) as (b' & E' & G).
  { destruct O3 as [?|O3]; [by left|right]. by rewrite O2, O1. }
  pose proof (lift_ok (brelse u) (mkfsst (mklst b L) sb I P) tt b' E') as E2. rewrite E2 in E.
  injection E as <-. apply G.
Qed.

(** Block [n] is in the log. *)
Definition in_txn (s : fsst) (pinned : list Z) (n : Z) : Prop := exists w, w ∈ pinned /\ blockno_of (l_b (fs_l s)) w = n.

(** [fs_change], with the buffers that are logged afterwards. *)
Lemma fs_change_pin s me held pinned v u n d0 d :
  fs_txn s me (u :: held) pinned v -> opened s pinned u n d0 -> fs_place s n ->
  Z.of_nat (length pinned) < l_size (l_log (fs_l s)) - 1 -> 1 <= l_outstanding (l_log (fs_l s)) ->
  exists s', (setdata u d ;;; lift (log_write u) ;;; lift (brelse u)) s = Ok tt s' /\
    fs_txn s' me held (pin_one u pinned) (upd_block v n d) /\ fs_step s held s' /\ in_txn s' (pin_one u pinned) n.
Proof.
  intros T O P Hroom Hout. destruct (fs_log s me held pinned v u n d T (op_blockno _ _ _ _ _ O) P Hroom Hout)
    as (s1 & E1 & T1 & S1).
  assert (O1 : opened s1 (pin_one u pinned) u n (data_of (l_b (fs_l s1)) u)).
  { constructor; [|done|left; apply pin_one_elem]. rewrite (fst_held _ _ _ S1) by (by left). apply O. }
  destruct (fs_release s1 me held (pin_one u pinned) _ u n _ T1 O1) as (s2 & E2 & T2 & S2).
  exists s2. split_and!; [by rewrite fs_setdata, (bind_ok _ _ _ _ _ E1)|done| |].
  - eapply fs_step_trans; [exact S1|exact S2|]. intros w Hw. by right.
  - exists u. split; [apply pin_one_elem|]. rewrite (release_blocknos _ _ _ _ _ _ _ _ _ u T1 O1 E2). apply O1.
Qed.

(** [bfree] of a block in use: its bit is cleared, and the log grows only if
    it does not have the block of the bitmap. *)
Lemma bfree_logged fuel s me held pinned v b :
  fs_txn s me held pinned v -> bitmap_ok s held v -> fs_room s held pinned 1 -> 0 <= b < sb_size (fs_sb s) ->
  block_used (fs_sb s) v b = true ->
  exists s' pinned', bfree fuel ROOTDEV b s = Ok tt s' /\ fs_txn s' me held pinned' (unmarked (fs_sb s) v b) /\
    fs_step s held s' /\ in_txn s' pinned' (BBLOCK b (fs_sb s)) /\ pinned ⊆ pinned' /\
    (length pinned' <= S (length pinned))%nat /\ (in_txn s pinned (BBLOCK b (fs_sb s)) -> pinned' = pinned).
Proof.
  intros T Hbm (R1 & R2 & R3) Hb Hu. destruct (bm_place _ _ _ Hbm b Hb) as (P & Hun & Hd).
  set (n := BBLOCK b (fs_sb s)) in *.
  destruct (fs_read fuel s me held pinned v n T P Hun) as (u & s1 & E1 & Hh & T1 & S1 & O1); [lia|].
  destruct (fs_change_pin s1 me held pinned v u n (v n) (clear_bit (v n) (b mod BPB)) T1 O1)
    as (s2 & E2 & T2 & S2 & I2).
  { by eapply fs_place_step. }
  { rewrite (fst_size _ _ _ S1). lia. }
  { by rewrite (fst_outstanding _ _ _ S1). }
  exists s2, (pin_one u pinned). split_and!; [|done|by eapply fs_step_trans|done| |apply pin_one_length|].
  - unfold bfree, getsb. rewrite bind_gets. change (u32 ROOTDEV) with ROOTDEV. cbn [id].
    rewrite (bind_ok _ _ _ _ _ E1), fs_getdata, (op_data _ _ _ _ _ O1). unfold block_used in Hu. fold n in Hu.
    by rewrite Hu.
  - unfold pin_one. case_decide; set_solver.
  - intros (w & Hw & Ew). unfold pin_one. rewrite decide_True; [done|]. replace u with w; [done|].
    apply (used_inj (l_b (fs_l s1)) me (u :: held) pinned); [apply T1|set_solver..|].
    rewrite (op_blockno _ _ _ _ _ O1), <- Ew.
    apply (read_blocknos fuel s me held pinned v n u s1 w T P Hun); [lia|done|set_solver].
Qed.

(** ** Freeing a list of blocks *)

(** [fs_step], but for the inodes in memory. *)
Record near (s : fsst) (held : list Z) (s' : fsst) : Prop := {
  nr_sb : fs_sb s' = fs_sb s;
  nr_printed : fs_printed s' = fs_printed s;
  nr_start : l_start (l_log (fs_l s')) = l_start (l_log (fs_l s));
  nr_size : l_size (l_log (fs_l s')) = l_size (l_log (fs_l s));
  nr_outstanding : l_outstanding (l_log (fs_l s')) = l_outstanding (l_log (fs_l s));
  nr_disk : disk (l_b (fs_l s')) = disk (l_b (fs_l s));
  nr_held : forall w, w ∈ held -> blockno_of (l_b (fs_l s')) w = blockno_of (l_b (fs_l s)) w;
  nr_woke : woke (bpst (l_b (fs_l s))) (bpst (l_b (fs_l s')));
}.

Lemma near_refl s held : near s held s.
Proof. by constructor. Qed.

Lemma near_step s held s1 hs s2 : near s held s1 -> fs_step s1 hs s2 -> held ⊆ hs -> near s held s2.
Proof.
  intros [A1 A2 A3 A4 A5 A6 A7 A8] [B1 _ B3 B4 B5 B6 B7 B8 B9] Hsub. constructor; try congruence.
  - intros w Hw. rewrite B8 by (by apply Hsub). auto.
  - by etrans.
Qed.

(** A change of the inodes in memory. *)
Definition with_inodes (I : gmap nat inode) (s : fsst) : fsst := mkfsst (fs_l s) (fs_sb s) I (fs_printed s).

Lemma near_inodes s held s1 I : near s held s1 -> near s held (with_inodes I s1).
Proof. intros [A1 A2 A3 A4 A5 A6 A7 A8]. by constructor. Qed.

Lemma near_place s held s' n : near s held s' -> fs_place s n -> fs_place s' n.
Proof. intros H. unfold fs_place. by rewrite (nr_start _ _ _ H), (nr_size _ _ _ H). Qed.

Section Freeing.
Context (fuel me : nat) (s0 : fsst) (held pinned0 : list Z) (v0 : blocks) (nb : Z).
Notation sb := (fs_sb s0).
Context (Hone : forall b, 0 <= b < sb_size sb -> BBLOCK b sb = nb).
Context (Hroom : fs_room s0 held pinned0 3).

(** [s] comes from [s0] by freeing the blocks [B]; [hs] are the buffers the
    process holds in [s]. *)
Record freed_inv (hs B : list Z) (s : fsst) (pinned : list Z) (v : blocks) : Prop := {
  fi_txn : fs_txn s me hs pinned v;
  fi_bm : bitmap_ok s hs v;
  fi_near : near s0 held s;
  fi_used : forall b, 0 <= b < sb_size sb ->
    block_used sb v b = block_used sb v0 b && negb (bool_decide (b ∈ B));
  fi_same : forall n, n <> nb -> v n = v0 n;
  fi_pin : pinned = pinned0 \/ in_txn s pinned nb /\ (length pinned <= S (length pinned0))%nat;
  fi_grow : pinned0 ⊆ pinned;
  fi_held : held ⊆ hs /\ (length hs <= S (length held))%nat;
}.

Lemma freed_room hs B s pinned v : freed_inv hs B s pinned v -> fs_room s hs pinned 1.
Proof.
  intros [_ _ N _ _ Hp _ [_ Hh]]. destruct Hroom as (R1 & R2 & R3). unfold fs_room.
  rewrite (nr_size _ _ _ N), (nr_outstanding _ _ _ N). destruct Hp as [->|[_ Hp]]; lia.
Qed.

Lemma freed_one hs B s pinned v b :
  freed_inv hs B s pinned v -> 0 <= b < sb_size sb -> block_used sb v0 b = true -> b ∉ B ->
  fs_place s0 b -> unheld s hs b -> b <> nb ->
  exists s' pinned' v', bfree fuel ROOTDEV b s = Ok tt s' /\ freed_inv hs (b :: B) s' pinned' v' /\
    fs_step s hs s' /\ pinned ⊆ pinned'.
Proof.
  intros I Hb Hu Hnb Hpl Hun Hne. pose proof (freed_room _ _ _ _ _ I) as Hr. destruct I as [T Hbm N U Sm Hp G Hh].
  assert (Esb : fs_sb s = sb) by apply N.
  destruct (bfree_logged fuel s me hs pinned v b T Hbm Hr) as (s' & p' & E & T' & S' & I' & G' & L' & K').
  { by rewrite Esb. }
  { rewrite Esb, U, Hu by done. cbn. by rewrite bool_decide_eq_false_2. }
  exists s', p', (unmarked sb v b). rewrite Esb in T', I', K'. rewrite Hone in I', K' by done. split_and!; try done.
  assert (Hused : forall b', 0 <= b' < sb_size sb ->
    block_used sb (unmarked sb v b) b' = block_used sb v0 b' && negb (bool_decide (b' ∈ b :: B))).
  { intros b' Hb'. rewrite <- Esb, (unmarked_used s hs) by (rewrite ?Esb; done). rewrite Esb, U by done.
    destruct (Z.eqb_spec b' b) as [->|Hx]; cbn [negb andb].
    - rewrite bool_decide_eq_true_2 by (by left). by rewrite andb_false_r.
    - f_equal. f_equal. apply bool_decide_ext. rewrite elem_of_cons. naive_solver. }
  assert (Hsame : forall n, n <> nb -> unmarked sb v b n = v n).
  { intros n Hn. unfold unmarked, upd_block. rewrite decide_False; [done|]. by rewrite Hone. }
  constructor; [done| |by eapply near_step; [..|apply Hh]|done| | |set_solver|done].
  - apply (bitmap_ok_step s); [done|]. destruct Hbm as [B1 B2 B3 B4 B5]. rewrite Esb in *. constructor; rewrite ?Esb; try done.
    + intros b' Hb'. destruct (B4 b' Hb') as (P1 & P2 & P3). split_and!; [done|done|].
      rewrite Hone in P3 |- * by done. unfold unmarked, upd_block. rewrite Hone by done. rewrite decide_True by done.
      unfold clear_bit. apply length_bit_patch; [done|apply bpb_mod].
    + intros b' Hb' Hf. destruct (decide (b' = b)) as [->|Hx].
      * split_and!; [by eapply near_place|done|]. intros b1 Hb1. by rewrite Hone.
      * apply (B5 b' Hb'). rewrite Hused in Hf by done. rewrite U by done. destruct (block_used sb v0 b'); [|done].
        cbn in Hf |- *. apply negb_false_iff, bool_decide_eq_true in Hf. apply negb_false_iff, bool_decide_eq_true. set_solver.
  - intros n Hn. rewrite Hsame by done. auto.
  - destruct Hp as [->|[Hi Hl]]; right; (split; [done|]); [lia|]. rewrite (K' Hi). lia.
Qed.

(** A block that may be freed while the buffers [hs] are held. *)
Definition freeable (s : fsst) (hs : list Z) (b : Z) : Prop :=
  0 <= b < sb_size sb /\ block_used sb v0 b = true /\ fs_place s0 b /\ unheld s hs b /\ b <> nb.

Lemma freeable_step s hs s' b : fs_step s hs s' -> freeable s hs b -> freeable s' hs b.
Proof.
  intros S (H1 & H2 & H3 & H4 & H5). split_and!; try done; try lia.
  intros w Hw. rewrite (fst_held _ _ _ S) by done. by apply H4.
Qed.

Lemma freed_inodes hs B s pinned v I : freed_inv hs B s pinned v -> freed_inv hs B (with_inodes I s) pinned v.
Proof.
  intros [[T1 T2] [B1 B2 B3 B4 B5] N U Sm Hp G Hh]. constructor; try done. by apply near_inodes.
Qed.
End Freeing.

Lemma freed_start me s held pinned v nb :
  fs_txn s me held pinned v -> bitmap_ok s held v -> freed_inv me s held pinned v nb held [] s pinned v.
Proof.
  intros T Bm. constructor; [exact T|exact Bm|apply near_refl| |intros m _; reflexivity|left; reflexivity|intros w Hw; exact Hw|].
  - intros b Hb. rewrite bool_decide_eq_false_2 by apply not_elem_of_nil. symmetry. apply andb_true_r.
  - split; [intros w Hw; exact Hw|lia].
Qed.

(** ** The blocks of a file *)

(** The non-zero numbers among those at [k], ..., [k + n - 1]. *)
Definition numbers (f : nat -> Z) (k n : nat) : list Z := filter (fun b => b <> 0) (f <$> seq k n).

Lemma numbers_S f k n :
  numbers f k (S n) = if decide (f k <> 0) then f k :: numbers f (S k) n else numbers f (S k) n.
Proof. unfold numbers. change (seq k (S n)) with (k :: seq (S k) n). by rewrite fmap_cons, filter_cons. Qed.

(** All blocks of the file: the direct ones, those in the indirect block, and
    the indirect block. *)
Definition indirect_blocks (i : inode) (v : blocks) : list Z :=
  numbers (fun j => get32 (v (addr_of i NDIRECT)) (4 * Z.of_nat j)) 0 (Z.to_nat NINDIRECT).

Definition file_blocks (i : inode) (v : blocks) : list Z :=
  numbers (fun j => addr_of i (Z.of_nat j)) 0 (Z.to_nat NDIRECT) ++
  (if decide (addr_of i NDIRECT = 0) then [] else indirect_blocks i v ++ [addr_of i NDIRECT]).

(** The inode with its first [k] addresses cleared. *)
Definition cleared (k : nat) (i : inode) : inode :=
  mkinode (i_dev i) (i_inum i) (i_ref i) (i_valid i) (i_type i) (i_major i) (i_minor i) (i_nlink i) (i_size i)
    (replicate k 0 ++ drop k (i_addrs i)).

Section Cleared.
Context (i : inode) (Hi : length (i_addrs i) = 13%nat).

Lemma cleared_addr k j : (k <= j < 13)%nat -> addr_of (cleared k i) (Z.of_nat j) = addr_of i (Z.of_nat j).
Proof.
  intros Hj. unfold addr_of. cbn [i_addrs cleared]. rewrite Nat2Z.id, app_nth2 by (rewrite length_replicate; lia).
  rewrite length_replicate, !nth_lookup, lookup_drop. do 2 f_equal. lia.
Qed.

Lemma addrs_drop k : (k < 13)%nat -> drop k (i_addrs i) = addr_of i (Z.of_nat k) :: drop (S k) (i_addrs i).
Proof.
  intros Hk. destruct (lookup_lt_is_Some_2 (i_addrs i) k) as [x Hx]; [lia|].
  rewrite (drop_S _ _ _ Hx). f_equal. unfold addr_of. by rewrite Nat2Z.id, nth_lookup, Hx.
Qed.

Lemma cleared_set k : (k < 13)%nat -> set_iaddr k 0 (cleared k i) = cleared (S k) i.
Proof.
  intros Hk. unfold set_iaddr, cleared. cbn [i_addrs i_dev i_inum i_ref i_valid i_type i_major i_minor i_nlink i_size].
  f_equal. rewrite (addrs_drop k Hk), insert_app_r_alt by (by rewrite length_replicate).
  rewrite length_replicate, Nat.sub_diag. cbn [insert list_insert]. by rewrite replicate_S_end, <- app_assoc.
Qed.

Lemma cleared_zero k : (k < 13)%nat -> addr_of i (Z.of_nat k) = 0 -> cleared (S k) i = cleared k i.
Proof.
  intros Hk E. unfold cleared. f_equal. rewrite (addrs_drop k Hk), E. by rewrite replicate_S_end, <- app_assoc.
Qed.
End Cleared.

Section Loops.
Context (fuel me : nat) (s0 : fsst) (held pinned0 : list Z) (v0 : blocks) (nb : Z).
Notation sb := (fs_sb s0).
Context (Hone : forall b, 0 <= b < sb_size sb -> BBLOCK b sb = nb).
Context (Hroom : fs_room s0 held pinned0 3).
Context (ip : nat) (i : inode) (Hi : length (i_addrs i) = 13%nat) (Hdev : i_dev i = ROOTDEV).
Notation inv := (freed_inv me s0 held pinned0 v0 nb).
Notation can_free := (freeable s0 v0 nb).

Lemma updi_run {A} f (k : unit -> M fsst A) s :
  mbind' (updi ip f) k s = k tt (with_inodes (<[ip := f (inode_of s ip)]> (fs_inodes s)) s).
Proof. done. Qed.

Lemma inode_set s x j :
  inode_of (with_inodes (<[ip := x]> (fs_inodes s)) s) j = if decide (j = ip) then x else inode_of s j.
Proof.
  unfold inode_of. cbn [with_inodes fs_inodes]. case_decide as E; [subst; by rewrite lookup_insert_eq|].
  by rewrite lookup_insert_ne.
Qed.

Lemma can_free_inodes s I hs b : can_free s hs b -> can_free (with_inodes I s) hs b.
Proof. done. Qed.

Lemma itrunc_direct_ok : forall n k B s pinned v,
  (k + n = 12)%nat -> inv held B s pinned v -> inode_of s ip = cleared k i ->
  NoDup (numbers (fun j => addr_of i (Z.of_nat j)) k n ++ B) ->
  (forall b, b ∈ numbers (fun j => addr_of i (Z.of_nat j)) k n -> can_free s held b) ->
  exists s' pinned' v', itrunc_direct fuel n ip (Z.of_nat k) s = Ok tt s' /\
    inv held (rev (numbers (fun j => addr_of i (Z.of_nat j)) k n) ++ B) s' pinned' v' /\
    inode_of s' ip = cleared 12 i /\ (forall j, j <> ip -> inode_of s' j = inode_of s j).
Proof.
  induction n as [|n IH]; intros k B s pinned v Hk I Ei Hd Hf; cbn [itrunc_direct].
  { exists s, pinned, v. rewrite Ei. assert (k = 12%nat) as -> by lia. done. }
  rewrite numbers_S in Hd, Hf |- *. unfold geti at 1. rewrite bind_gets, Ei. cbn [id].
  rewrite (cleared_addr i Hi k k) by lia. change (i_dev (cleared k i)) with (i_dev i). rewrite Hdev, Nat2Z.id.
  replace (Z.of_nat k + 1) with (Z.of_nat (S k)) by lia.
  destruct (decide (addr_of i (Z.of_nat k) <> 0)) as [Hnz|Hz].
  - rewrite (proj2 (Z.eqb_neq _ _) Hnz). cbn [negb]. set (b := addr_of i (Z.of_nat k)) in *.
    destruct (Hf b) as (F1 & F2 & F3 & F4 & F5); [by left|]. cbn [app] in Hd. apply NoDup_cons in Hd as [Hb Hd].
    destruct (freed_one fuel me s0 held pinned0 v0 nb Hone Hroom held B s pinned v b I F1 F2 ltac:(set_solver) F3 F4 F5)
      as (s1 & p1 & v1 & E1 & I1 & S1 & _).
    rewrite bind_assoc, (bind_ok _ _ _ _ _ E1), updi_run, (inode_step _ _ _ ip S1), Ei, (cleared_set i Hi) by lia.
    set (s2 := with_inodes _ s1). assert (Hin : forall j, inode_of s2 j = if decide (j = ip) then cleared (S k) i else inode_of s j).
    { intros j. unfold s2. rewrite inode_set. case_decide; [done|]. exact (inode_step _ _ _ j S1). }
    destruct (IH (S k) (b :: B) s2 p1 v1) as (s3 & p3 & v3 & E3 & I3 & H3 & H4).
    + lia.
    + by apply freed_inodes.
    + rewrite Hin. by rewrite decide_True.
    + rewrite <- Permutation_middle. by apply NoDup_cons.
    + intros b' Hb'. apply can_free_inodes. apply (freeable_step s0 v0 nb s held s1 b' S1). apply Hf. by right.
    + exists s3, p3, v3. split_and!; [exact E3| |exact H3|].
      * cbn [rev]. by rewrite <- app_assoc.
      * intros j Hj. rewrite H4 by done. rewrite Hin. by rewrite decide_False.
  - assert (E : addr_of i (Z.of_nat k) = 0) by (apply dec_stable; exact Hz). rewrite E. cbn [Z.eqb negb]. rewrite bind_ret.
    destruct (IH (S k) B s pinned v) as (s3 & p3 & v3 & E3 & I3 & H3 & H4); [lia|done| |done|done|].
    + by rewrite (cleared_zero i Hi k) by (lia || done).
    + by exists s3, p3, v3.
Qed.

Lemma itrunc_indirect_ok bp a : forall n k B s pinned v,
  inv (bp :: held) B s pinned v -> inode_of s ip = cleared 12 i ->
  blockno_of (l_b (fs_l s)) bp = addr_of i NDIRECT -> v0 (addr_of i NDIRECT) = a -> addr_of i NDIRECT <> nb ->
  NoDup (numbers (fun j => get32 a (4 * Z.of_nat j)) k n ++ B) ->
  (forall b, b ∈ numbers (fun j => get32 a (4 * Z.of_nat j)) k n -> can_free s (bp :: held) b) ->
  exists s' pinned' v', itrunc_indirect fuel n ip bp (Z.of_nat k) s = Ok tt s' /\
    inv (bp :: held) (rev (numbers (fun j => get32 a (4 * Z.of_nat j)) k n) ++ B) s' pinned' v' /\
    fs_inodes s' = fs_inodes s /\ blockno_of (l_b (fs_l s')) bp = addr_of i NDIRECT /\ pinned ⊆ pinned' /\
    disk (l_b (fs_l s')) = disk (l_b (fs_l s)).
Proof.
  induction n as [|n IH]; intros k B s pinned v I Ei Hbp Ha Hne Hd Hf; cbn [itrunc_indirect].
  { exists s, pinned, v. done. }
  assert (Hdata : data_of (l_b (fs_l s)) bp = a).
  { rewrite <- Ha, <- (fi_same _ _ _ _ _ _ _ _ _ _ _ I _ Hne), <- Hbp.
    rewrite <- (ft_view _ _ _ _ _ (fi_txn _ _ _ _ _ _ _ _ _ _ _ I)).
    symmetry. apply (used_view _ me (bp :: held) pinned); [apply (fi_txn _ _ _ _ _ _ _ _ _ _ _ I)|by left]. }
  rewrite fs_getdata, Hdata. unfold geti. rewrite bind_gets, Ei. change (i_dev (cleared 12 i)) with (i_dev i). rewrite Hdev.
  rewrite numbers_S in Hd, Hf |- *. replace (Z.of_nat k + 1) with (Z.of_nat (S k)) by lia.
  set (b := get32 a (4 * Z.of_nat k)) in *. destruct (decide (b <> 0)) as [Hnz|Hz].
  - rewrite (proj2 (Z.eqb_neq _ _) Hnz). cbn [negb].
    destruct (Hf b) as (F1 & F2 & F3 & F4 & F5); [by left|]. cbn [app] in Hd. apply NoDup_cons in Hd as [Hb Hd].
    destruct (freed_one fuel me s0 held pinned0 v0 nb Hone Hroom (bp :: held) B s pinned v b I F1 F2 ltac:(set_solver) F3 F4 F5)
      as (s1 & p1 & v1 & E1 & I1 & S1 & G1).
    rewrite (bind_ok _ _ _ _ _ E1).
    destruct (IH (S k) (b :: B) s1 p1 v1) as (s3 & p3 & v3 & E3 & I3 & H3 & H4 & H5 & H6); try done.
    + by rewrite (inode_step _ _ _ ip S1).
    + by rewrite (fst_held _ _ _ S1) by (by left).
    + rewrite <- Permutation_middle. by apply NoDup_cons.
    + intros b' Hb'. apply (freeable_step s0 v0 nb s (bp :: held) s1 b' S1). apply Hf. by right.
    + exists s3, p3, v3. split_and!; [exact E3| | |exact H4|set_solver|].
      * cbn [rev]. by rewrite <- app_assoc.
      * by rewrite H3, (fst_inodes _ _ _ S1).
      * by rewrite H6, (fst_disk _ _ _ S1).
  - assert (E : b = 0) by (apply dec_stable; exact Hz). rewrite E. cbn [Z.eqb negb]. rewrite bind_ret. by apply (IH (S k) B s pinned v).
Qed.

(** Holding the indirect block, and letting it go. *)
Lemma hold_inv B s pinned v u s1 n :
  inv held B s pinned v -> fs_txn s1 me (u :: held) pinned v -> fs_step s held s1 ->
  (forall w, w ∈ held ++ pinned -> blockno_of (l_b (fs_l s1)) w = blockno_of (l_b (fs_l s)) w) ->
  blockno_of (l_b (fs_l s1)) u = n -> n <> nb -> block_used sb v n = true ->
  inv (u :: held) B s1 pinned v.
Proof.
  intros [T Bm N U Sm Hp G Hh] T1 S1 Hw Hu Hne Hus. assert (Esb : fs_sb s = sb) by apply N.
  pose proof (bitmap_ok_step _ _ _ _ S1 Bm) as [B1 B2 B3 B4 B5]. rewrite (fst_sb _ _ _ S1), Esb in *.
  constructor; [done| |by eapply near_step; [..|apply Hh]|done|done| |done|].
  - constructor; rewrite ?(fst_sb _ _ _ S1), ?Esb; try done.
    + intros b Hb. destruct (B4 b Hb) as (P1 & P2 & P3). split_and!; [done| |done].
      intros w [->|Hx]%elem_of_cons; [rewrite Hu, Hone by done; done|by apply P2].
    + intros b Hb Hf. destruct (B5 b Hb Hf) as (P1 & P2 & P3). split_and!; [done| |done].
      intros w [->|Hx]%elem_of_cons; [rewrite Hu; intros ->; congruence|by apply P2].
  - destruct Hp as [|[(w & Hwp & Ew) Hl]]; [by left|right]. split; [|done]. exists w. split; [done|].
    rewrite Hw by set_solver. done.
  - split; [set_solver|cbn; lia].
Qed.

Lemma release_inv B s pinned v u s1 :
  inv (u :: held) B s pinned v -> fs_txn s1 me held pinned v -> fs_step s held s1 ->
  (forall w, blockno_of (l_b (fs_l s1)) w = blockno_of (l_b (fs_l s)) w) -> inv held B s1 pinned v.
Proof.
  intros [T Bm N U Sm Hp G Hh] T1 S1 Hw. constructor; [done| |by eapply near_step|done|done| |done|].
  - apply (bitmap_ok_step s); [done|]. destruct Bm as [B1 B2 B3 B4 B5]. constructor; try done.
    + intros b Hb. destruct (B4 b Hb) as (P1 & P2 & P3). split_and!; [done| |done]. intros w Hx. apply P2. by right.
    + intros b Hb Hf. destruct (B5 b Hb Hf) as (P1 & P2 & P3). split_and!; [done| |done]. intros w Hx. apply P2. by right.
  - destruct Hp as [|[(w & Hwp & Ew) Hl]]; [by left|right]. split; [|done]. exists w. by rewrite Hw.
  - split; [done|lia].
Qed.

(** The part of [itrunc] that frees the indirect block. *)
Definition itrunc_rest : M fsst unit :=
  let! i := geti ip id in
  if negb (addr_of i NDIRECT =? 0) then
    let! bp := lift (bread fuel (i_dev i) (addr_of i NDIRECT)) in
    itrunc_indirect fuel (Z.to_nat NINDIRECT) ip bp 0 ;;;
    lift (brelse bp) ;;;
    bfree fuel (i_dev i) (addr_of i NDIRECT) ;;;
    updi ip (set_iaddr (Z.to_nat NDIRECT) 0)
  else mret' tt.

Definition rest_blocks : list Z :=
  if decide (addr_of i NDIRECT = 0) then [] else indirect_blocks i v0 ++ [addr_of i NDIRECT].

Lemma itrunc_rest_ok B s pinned v :
  inv held B s pinned v -> inode_of s ip = cleared 12 i -> NoDup (rest_blocks ++ B) ->
  (forall b, b ∈ rest_blocks -> can_free s held b) ->
  exists s' pinned' v', itrunc_rest s = Ok tt s' /\ inv held (rev rest_blocks ++ B) s' pinned' v' /\
    inode_of s' ip = cleared 13 i /\ (forall j, j <> ip -> inode_of s' j = inode_of s j).
Proof.
  intros I Ei Hd Hf. unfold itrunc_rest, rest_blocks in *. unfold geti. rewrite bind_gets, Ei. cbn [id].
  change NDIRECT with (Z.of_nat 12) in *. rewrite (cleared_addr i Hi 12 12) by lia.
  change (i_dev (cleared 12 i)) with (i_dev i). rewrite Hdev. destruct (decide _) as [Hz|Hnz].
  { rewrite Hz. cbn [Z.eqb negb]. exists s, pinned, v. by rewrite (cleared_zero i Hi 12) by (lia || done). }
  rewrite (proj2 (Z.eqb_neq _ _) Hnz). cbn [negb]. set (n := addr_of i (Z.of_nat 12)) in *.
  destruct (Hf n) as (F1 & F2 & F3 & F4 & F5); [set_solver|].
  rewrite <- app_assoc in Hd. apply NoDup_app in Hd as (D1 & D2 & D3). cbn [app] in D2, D3.
  apply NoDup_cons in D3 as [D3 D4].
  pose proof I as [T _ N U Sm _ _ _]. pose proof (freed_room _ _ _ _ _ _ Hroom _ _ _ _ _ I) as (_ & R2 & _).
  assert (P : fs_place s n) by (by eapply near_place).
  destruct (fs_read fuel s me held pinned v n T P F4) as (u & s1 & E1 & Hu & T1 & S1 & O1); [lia|].
  assert (I1 : inv (u :: held) B s1 pinned v).
  { eapply hold_inv; [exact I|exact T1|exact S1| |apply O1|done|].
    - intros w Hw. apply (read_blocknos fuel s me held pinned v n u s1 w T P F4); [lia|done|done].
    - rewrite U, F2 by done. by rewrite bool_decide_eq_false_2. }
  rewrite (bind_ok _ _ _ _ _ E1).
  destruct (itrunc_indirect_ok u (v0 n) (Z.to_nat NINDIRECT) 0 B s1 pinned v I1) as (s2 & p2 & v2 & E2 & I2 & H2 & K2 & G2 & W2);
    [by rewrite (inode_step _ _ _ ip S1)|apply O1|done|done| | |].
  { apply NoDup_app. split_and!; [exact D1|set_solver|done]. }
  { intros b Hb. destruct (freeable_step s0 v0 nb s held s1 b S1 (Hf b ltac:(unfold indirect_blocks; set_solver))) as (C1 & C2 & C3 & C4 & C5).
    split_and!; try done; try lia. intros w [->|Hw]%elem_of_cons; [|by apply C4].
    rewrite (op_blockno _ _ _ _ _ O1). intros <-. apply (D2 n Hb). by left. }
  change (Z.of_nat 0) with 0 in E2. rewrite (bind_ok _ _ _ _ _ E2).
  assert (O2 : opened s2 p2 u n (data_of (l_b (fs_l s2)) u)).
  { constructor; [done|done|]. destruct (op_clean _ _ _ _ _ O1) as [Hc|Hc]; [left; by apply G2|right].
    rewrite <- (used_view _ me (u :: held) p2 u (lo_bio _ _ _ _ (ft_log _ _ _ _ _ (fi_txn _ _ _ _ _ _ _ _ _ _ _ I2)))) by (by left).
    change (blockno_of (l_b (fs_l s2)) u = n) in K2. rewrite K2, (ft_view _ _ _ _ _ (fi_txn _ _ _ _ _ _ _ _ _ _ _ I2)).
    rewrite (fi_same _ _ _ _ _ _ _ _ _ _ _ I2 n F5), <- (Sm n F5), Hc. unfold dblock. by rewrite W2. }
  destruct (fs_release s2 me held p2 v2 u n _ (fi_txn _ _ _ _ _ _ _ _ _ _ _ I2) O2) as (s3 & E3 & T3 & S3).
  assert (I3 := release_inv _ _ _ _ _ _ I2 T3 S3 (fun w => release_blocknos _ _ _ _ _ _ _ _ _ w (fi_txn _ _ _ _ _ _ _ _ _ _ _ I2) O2 E3)).
  rewrite (bind_ok _ _ _ _ _ E3).
  destruct (freed_one fuel me s0 held pinned0 v0 nb Hone Hroom held _ s3 p2 v2 n I3 F1 F2) as (s4 & p4 & v4 & E4 & I4 & S4 & _).
  { rewrite elem_of_app, elem_of_rev. intros [Hb|Hb]; [|done]. apply (D2 n Hb). by left. }
  { done. }
  { intros w Hw. rewrite (fst_held _ _ _ S3) by done.
    rewrite (nr_held _ _ _ (fi_near _ _ _ _ _ _ _ _ _ _ _ I2)) by done.
    rewrite <- (nr_held _ _ _ N) by done. by apply F4. }
  { done. }
  rewrite (bind_ok _ _ _ _ _ E4). unfold updi, modify. eexists _, p4, v4. split; [reflexivity|].
  assert (Hin : forall j, inode_of s4 j = inode_of s j).
  { intros j. rewrite (inode_step _ _ _ j S4), (inode_step _ _ _ j S3). unfold inode_of. by rewrite H2, (fst_inodes _ _ _ S1). }
  split_and!.
  - apply (freed_inodes me s0 held pinned0 v0 nb held _ s4). rewrite rev_app_distr. exact I4.
  - fold (with_inodes (<[ip := set_iaddr (Z.to_nat (Z.of_nat 12)) 0 (inode_of s4 ip)]> (fs_inodes s4)) s4).
    rewrite inode_set, decide_True, Hin, Ei by done. by rewrite Nat2Z.id, (cleared_set i Hi 12) by lia.
  - intros j Hj. fold (with_inodes (<[ip := set_iaddr (Z.to_nat (Z.of_nat 12)) 0 (inode_of s4 ip)]> (fs_inodes s4)) s4).
    rewrite inode_set, decide_False by done. apply Hin.
Qed.
End Loops.

(** ** itrunc *)

(** The inode of an empty file. *)
Definition emptied (i : inode) : inode := set_isize 0 (cleared 13 i).

Lemma emptied_typed i : inode_typed i -> inode_typed (emptied i).
Proof.
  intros Hi. constructor; cbn [emptied set_isize cleared i_dev i_inum i_type i_major i_minor i_nlink i_size i_addrs]; try apply Hi.
  - unfold is_uint. lia.
  - rewrite length_app, length_replicate, length_drop, (it_naddrs _ Hi). done.
  - apply Forall_app. split; [by apply Forall_replicate|apply Forall_drop, Hi].
Qed.

(** The inode as it is on the disk. *)
Definition on_disk (i : inode) : inode :=
  mkinode ROOTDEV (i_inum i) 0 0 (i_type i) (i_major i) (i_minor i) (i_nlink i) (i_size i) (i_addrs i).

(** C8. [itrunc] frees exactly the blocks of the file, the direct ones, those
    that the indirect block lists and the indirect block itself, and leaves an
    empty file, in memory and on disk. It logs at most two blocks: the bitmap
    and the block of the inode. *)
Theorem itrunc_correct (fuel : nat) (s : fsst) (me : nat) (held pinned : list Z) (v : blocks) (ip : nat) (i : inode) (nb : Z) :
  fs_txn s me held pinned v -> bitmap_ok s held v -> fs_room s held pinned 3 ->
  inode_of s ip = i -> inode_typed i -> i_dev i = ROOTDEV ->
  (forall b, 0 <= b < sb_size (fs_sb s) -> BBLOCK b (fs_sb s) = nb) ->
  NoDup (file_blocks i v) -> (forall b, b ∈ file_blocks i v -> freeable s v nb s held b) ->
  let n := IBLOCK (i_inum i) (fs_sb s) in
  fs_place s n -> unheld s held n -> n <> nb -> length (v n) = Z.to_nat BSIZE ->
  exists s' pinned' v', itrunc fuel ip s = Ok tt s' /\ fs_txn s' me held pinned' v' /\
    (forall b, 0 <= b < sb_size (fs_sb s) ->
       block_used (fs_sb s) v' b = block_used (fs_sb s) v b && negb (bool_decide (b ∈ file_blocks i v))) /\
    inode_of s' ip = emptied i /\ (forall j, j <> ip -> inode_of s' j = inode_of s j) /\
    disk_inode (fs_sb s) v' (i_inum i) = on_disk (emptied i) /\
    (forall m, m <> n -> m <> nb -> v' m = v m) /\
    near s held s' /\ (length pinned' <= 2 + length pinned)%nat.
Proof.
  intros T Bm R Ei Hi Hdev Hone Hd Hf n Pn Hun Hne Hlen. pose proof (it_naddrs _ Hi) as Hlen13.
  pose proof (freed_start me s held pinned v nb T Bm) as I0.
  unfold file_blocks in Hd, Hf. fold (rest_blocks v i) in Hd, Hf. apply NoDup_app in Hd as (D1 & D2 & D3).
  destruct (itrunc_direct_ok fuel me s held pinned v nb Hone R ip i Hlen13 Hdev 12 0 [] s pinned v)
    as (s1 & p1 & v1 & E1 & I1 & H1 & K1); [reflexivity|exact I0|rewrite Ei; by destruct i|rewrite app_nil_r; exact D1|intros b Hb; apply Hf, elem_of_app; left; exact Hb|].
  rewrite app_nil_r in I1.
  destruct (itrunc_rest_ok fuel me s held pinned v nb Hone R ip i Hlen13 Hdev _ s1 p1 v1 I1 H1)
    as (s2 & p2 & v2 & E2 & I2 & H2 & K2).
  { apply NoDup_app. split_and!; [exact D3| |rewrite <- Permutation_rev; exact D1].
    intros b Hb. rewrite elem_of_rev. intros Hb'. by apply (D2 b). }
  { intros b Hb. destruct (Hf b) as (F1 & F2 & F3 & F4 & F5); [apply elem_of_app; right; exact Hb|].
    split; [exact F1|]; split; [exact F2|]; split; [exact F3|]; split; [|exact F5]. intros w Hw. rewrite (nr_held _ _ _ (fi_near _ _ _ _ _ _ _ _ _ _ _ I1)) by done. by apply F4. }
  set (s3 := with_inodes (<[ip := set_isize 0 (inode_of s2 ip)]> (fs_inodes s2)) s2).
  pose proof (freed_inodes _ _ _ _ _ _ _ _ _ _ _ (fs_inodes s3) I2) as I3. change (with_inodes (fs_inodes s3) s2) with s3 in I3.
  assert (H3 : inode_of s3 ip = emptied i) by (unfold s3; rewrite inode_set, decide_True, H2 by done; done).
  assert (N3 := fi_near _ _ _ _ _ _ _ _ _ _ _ I3).
  destruct (iupdate_ok s3 me held p2 v2 (emptied i) (fi_txn _ _ _ _ _ _ _ _ _ _ _ I3) fuel ip H3) as (s4 & p4 & E4 & T4 & S4 & L4).
  { by eapply freed_room. }
  { done. }
  { rewrite (nr_sb _ _ _ N3). by eapply near_place. }
  { rewrite (nr_sb _ _ _ N3). intros w Hw. rewrite (nr_held _ _ _ N3) by done. by apply Hun. }
  rewrite (nr_sb _ _ _ N3) in T4. change (i_inum (emptied i)) with (i_inum i) in T4. fold n in T4.
  assert (Hv : forall m, m <> n -> upd_block v2 n (put_dinode (v2 n) (dinode_off (i_inum i)) (emptied i)) m = v2 m).
  { intros m Hm. unfold upd_block. by rewrite decide_False. }
  eexists s4, p4, _. split; [|split; [exact T4|]]; [|split_and!].
  - unfold itrunc. rewrite (bind_ok _ _ _ _ _ E1). unfold itrunc_rest, geti in E2. rewrite bind_gets in E2.
    unfold geti. rewrite bind_gets, (bind_ok _ _ _ _ _ E2). exact E4.
  - intros b Hb. rewrite <- (Hone b Hb) in Hne.
    transitivity (block_used (fs_sb s) v2 b); [unfold block_used; by rewrite Hv|].
    rewrite (fi_used _ _ _ _ _ _ _ _ _ _ _ I2 b Hb). do 2 f_equal. apply bool_decide_ext.
    unfold file_blocks. fold (rest_blocks v i). rewrite !elem_of_app, !elem_of_rev. tauto.
  - by rewrite (inode_step _ _ _ ip S4).
  - intros j Hj. rewrite (inode_step _ _ _ j S4). unfold s3. by rewrite inode_set, decide_False, K2, K1.
  - pose proof (iupdate_this s3 v2 (emptied i) (emptied_typed i Hi)) as X. rewrite (nr_sb _ _ _ N3) in X. apply X.
    change (length (v2 n) = Z.to_nat BSIZE). by rewrite (fi_same _ _ _ _ _ _ _ _ _ _ _ I2).
  - intros m Hm Hm'. rewrite Hv by done. by apply (fi_same _ _ _ _ _ _ _ _ _ _ _ I2).
  - by eapply near_step.
  - destruct (fi_pin _ _ _ _ _ _ _ _ _ _ _ I2) as [->|[_ Hp]]; lia.
Qed.

(** ** Example: a file with a direct block and an indirect block *)

Definition inode18 : inode := mkinode ROOTDEV 18 1 1 T_FILE 0 0 1 1024 (46 :: replicate 11 0 ++ [47]).

Lemma inode18_typed : inode_typed inode18.
Proof.
  constructor; try done; cbn; unfold is_short, is_uint, T_FILE; try lia. repeat constructor; done.
Qed.

Lemma itrunc_correct_witness :
  exists s s' v', inode_of s 3 = inode18 /\ itrunc 0 3 s = Ok tt s' /\ i_size (inode_of s' 3) = 0 /\
    (forall n, view (l_b (fs_l s')) n = v' n) /\ block_used sb1 v' 46 = false /\ block_used sb1 v' 47 = false /\
    block_used sb1 v' 44 = true.
Proof.
  destruct (fs1 {[3%nat := inode18]}) as (s & T & Bm & (R1 & R2 & R3) & Hsb & HI & _ & HL).
  assert (Ei : inode_of s 3 = inode18) by (unfold inode_of; by rewrite HI).
  assert (Hfb : file_blocks inode18 blocks1 = [46; 47]) by (vm_compute; reflexivity).
  assert (Hpl : forall n, 32 <= n < 100 -> fs_place s n).
  { intros n Hn. unfold fs_place. rewrite HL. split; [split; lia|right; cbn; lia]. }
  assert (Hun : forall n, unheld s [] n) by (intros n w []%not_elem_of_nil).
  destruct (itrunc_correct 0 s 1 [] [] blocks1 3 inode18 45 T Bm) as (s' & p' & v' & E & T' & Hu & Hi & _).
  - unfold fs_room. rewrite HL. split_and!; [done|unfold NBUF; cbn; lia|done].
  - exact Ei.
  - exact inode18_typed.
  - reflexivity.
  - intros b. rewrite Hsb. exact (BBLOCK1 b).
  - rewrite Hfb. apply (bool_decide_unpack _). reflexivity.
  - intros b. rewrite Hfb. intros Hb. assert (46 <= b <= 47) as Hr by (set_unfold; lia). unfold freeable. rewrite Hsb.
    change (sb_size sb1) with 100. rewrite used1 by lia. split_and!; [lia|lia|apply Z.ltb_lt; lia|apply Hpl; lia|apply Hun|lia].
  - rewrite Hsb. apply Hpl. split; [discriminate|reflexivity].
  - apply Hun.
  - rewrite Hsb. discriminate.
  - rewrite Hsb. reflexivity.
  - exists s, s', v'. rewrite Hsb, Hfb in Hu. change (sb_size sb1) with 100 in Hu.
    split_and!; [exact Ei|exact E|by rewrite Hi|apply T'|..].
    + rewrite Hu, used1 by lia. reflexivity.
    + rewrite Hu, used1 by lia. reflexivity.
    + rewrite Hu, used1 by lia. reflexivity.
Defined.
