(* ===== verification/File.v ===== *)
(** * Open files

    Models [src/xv6-os/kernel/file.c], [struct file] of [file.h] and
    [pipealloc] of [pipe.c]. The state is that of the whole kernel: the file
    system, the file table, the pipes, the console and the clock. *)
From S2P Require Import Prelude CString Spinlock Layout Dll Blocks Printf Kalloc Vm Proc ProcSpec Quiet.
From S2P Require Import Console Pipe Sleeplock Bio Virtio Log Fs FsPath.

Inductive ftype := FD_NONE | FD_PIPE | FD_INODE | FD_DEVICE.

#[export] Instance ftype_eq_dec : EqDecision ftype.
Proof. solve_decision. Defined.

Record file := mkfile {
  f_type : ftype;
  f_ref : Z;
  f_readable : Z;
  f_writable : Z;
  f_pipe : Z;
  f_ip : option nat;
  f_off : Z;
  f_major : Z;
}.

Definition file0 : file := mkfile FD_NONE 0 0 0 0 None 0 0.

Section Setters.
Implicit Types f : file.
Definition set_ftype x f := mkfile x (f_ref f) (f_readable f) (f_writable f) (f_pipe f) (f_ip f) (f_off f) (f_major f).
Definition set_fref x f := mkfile (f_type f) x (f_readable f) (f_writable f) (f_pipe f) (f_ip f) (f_off f) (f_major f).
Definition set_fmode r w f := mkfile (f_type f) (f_ref f) r w (f_pipe f) (f_ip f) (f_off f) (f_major f).
Definition set_fpipe x f := mkfile (f_type f) (f_ref f) (f_readable f) (f_writable f) x (f_ip f) (f_off f) (f_major f).
Definition set_fip x f := mkfile (f_type f) (f_ref f) (f_readable f) (f_writable f) (f_pipe f) x (f_off f) (f_major f).
Definition set_foff x f := mkfile (f_type f) (f_ref f) (f_readable f) (f_writable f) (f_pipe f) (f_ip f) x (f_major f).
Definition set_fmajor x f := mkfile (f_type f) (f_ref f) (f_readable f) (f_writable f) (f_pipe f) (f_ip f) (f_off f) x.
End Setters.

(** The functions a device can have in [devsw]. *)
Inductive devfn := Consoleread | Consolewrite.

(** The supervisor registers of a hart that the trap code uses. *)
Record csrs := mkcsrs {
  stvec : Z;
  sepc : Z;
  scause : Z;
  stval : Z;
  satp : Z;
  time : Z;
  stimecmp : Z;
}.

(** The interrupt controller: the answers to the next claims, and the
    registers written. *)
Record plicst := mkplic {
  plic_pending : list Z;
  plic_writes : list (Z * Z);
}.

(** [stat_pad] is what the kernel stack holds where [filestat] has the padding
    of its [struct stat]. *)
Record kst := mkkst {
  k_fs : fsst;
  k_files : gmap nat file;
  k_pipes : gmap Z pipe;
  k_cons : conss;
  k_vdisk : vdisk;
  k_csrs : csrs;
  k_plic : plicst;
  devsw : gmap Z (option devfn * option devfn);
  ticks : Z;
  forkret_first : Z;
  stat_pad : list Z;
}.

Section Setters.
Implicit Types s : kst.
Definition set_kfs x s := mkkst x (k_files s) (k_pipes s) (k_cons s) (k_vdisk s) (k_csrs s) (k_plic s) (devsw s) (ticks s) (forkret_first s) (stat_pad s).
Definition set_kfiles x s := mkkst (k_fs s) x (k_pipes s) (k_cons s) (k_vdisk s) (k_csrs s) (k_plic s) (devsw s) (ticks s) (forkret_first s) (stat_pad s).
Definition set_kpipes x s := mkkst (k_fs s) (k_files s) x (k_cons s) (k_vdisk s) (k_csrs s) (k_plic s) (devsw s) (ticks s) (forkret_first s) (stat_pad s).
Definition set_kcons x s := mkkst (k_fs s) (k_files s) (k_pipes s) x (k_vdisk s) (k_csrs s) (k_plic s) (devsw s) (ticks s) (forkret_first s) (stat_pad s).
Definition set_kvdisk x s := mkkst (k_fs s) (k_files s) (k_pipes s) (k_cons s) x (k_csrs s) (k_plic s) (devsw s) (ticks s) (forkret_first s) (stat_pad s).
Definition set_kcsrs x s := mkkst (k_fs s) (k_files s) (k_pipes s) (k_cons s) (k_vdisk s) x (k_plic s) (devsw s) (ticks s) (forkret_first s) (stat_pad s).
Definition set_kplic x s := mkkst (k_fs s) (k_files s) (k_pipes s) (k_cons s) (k_vdisk s) (k_csrs s) x (devsw s) (ticks s) (forkret_first s) (stat_pad s).
Definition set_devsw x s := mkkst (k_fs s) (k_files s) (k_pipes s) (k_cons s) (k_vdisk s) (k_csrs s) (k_plic s) x (ticks s) (forkret_first s) (stat_pad s).
Definition set_ticks x s := mkkst (k_fs s) (k_files s) (k_pipes s) (k_cons s) (k_vdisk s) (k_csrs s) (k_plic s) (devsw s) x (forkret_first s) (stat_pad s).
Definition set_first x s := mkkst (k_fs s) (k_files s) (k_pipes s) (k_cons s) (k_vdisk s) (k_csrs s) (k_plic s) (devsw s) (ticks s) x (stat_pad s).
End Setters.

Definition k_pst (s : kst) : pst := sub_get (k_fs s).
Definition k_bst (s : kst) : bst := l_b (fs_l (k_fs s)).
Definition set_kbst (x : bst) (s : kst) : kst :=
  set_kfs (sub_put (mklst x (l_log (fs_l (k_fs s)))) (k_fs s)) s.

#[export] Instance sub_fsst_kst : Sub fsst kst := {|
  sub_get := k_fs;
  sub_put := set_kfs;
|}.
#[export] Instance sub_lst_kst : Sub lst kst := {|
  sub_get s := fs_l (k_fs s);
  sub_put x s := set_kfs (sub_put x (k_fs s)) s;
|}.
#[export] Instance sub_pst_kst : Sub pst kst := {|
  sub_get := k_pst;
  sub_put x s := set_kfs (sub_put x (k_fs s)) s;
|}.
#[export] Instance sub_mm_kst : Sub mm kst := {|
  sub_get s := p_mm (k_pst s);
  sub_put x s := set_kfs (sub_put (sub_put x (k_pst s)) (k_fs s)) s;
|}.
#[export] Instance sub_hart_kst : Sub hart kst := {|
  sub_get s := sub_get (k_fs s);
  sub_put x s := set_kfs (sub_put x (k_fs s)) s;
|}.
#[export] Instance sub_pipest_kst : Sub pipest kst := {|
  sub_get s := mkpipest (k_pst s) (k_pipes s);
  sub_put x s := set_kpipes (pipes x) (set_kfs (sub_put (pi_pst x) (k_fs s)) s);
|}.
#[export] Instance sub_cst_kst : Sub cst kst := {|
  sub_get s := mkcst (k_pst s) (k_cons s);
  sub_put x s := set_kcons (c_dev x) (set_kfs (sub_put (c_pst x) (k_fs s)) s);
|}.
#[export] Instance sub_vst_kst : Sub vst kst := {|
  sub_get s := mkvst (k_bst s) (k_vdisk s);
  sub_put x s := set_kvdisk (v_d x) (set_kbst (v_b x) s);
|}.

Definition file_of (s : kst) (f : nat) : file := default file0 (k_files s !! f).
Definition getf {A} (f : nat) (g : file -> A) : M kst A := gets (fun s => g (file_of s f)).
Definition updf (f : nat) (g : file -> file) : M kst unit :=
  modify (fun s => set_kfiles (<[f := g (file_of s f)]> (k_files s)) s).

Definition ftable_lock : lockid := ("ftable"%string, 0).
Definition CONSOLE : Z := 1.

(** [consoleinit] of console.c: the device table gets the console. *)
Definition consoleinit : M kst unit :=
  lift (initlock cons_lock "cons") ;;;
  lift (S:=cst) uartinit ;;;
  modify (fun s => set_devsw (<[CONSOLE := (Some Consoleread, Some Consolewrite)]> (devsw s)) s).

Definition fileinit : M kst unit := lift (initlock ftable_lock "ftable").

Fixpoint filealloc_loop (k f : nat) : M kst (option nat) :=
  match k with
  | O => mret' None
  | S k =>
      let! r := getf f f_ref in
      if r =? 0 then
        updf f (set_fref 1) ;;;
        mret' (Some f)
      else filealloc_loop k (S f)
  end.

Definition filealloc : M kst (option nat) :=
  lift (acquire ftable_lock) ;;;
  let! f := filealloc_loop NFILE 0 in
  lift (release ftable_lock) ;;;
  mret' f.

Definition filedup (f : nat) : M kst nat :=
  lift (acquire ftable_lock) ;;;
  let! r := getf f f_ref in
  if r <? 1 then panic "filedup"
  else
    updf f (set_fref (r + 1)) ;;;
    lift (release ftable_lock) ;;;
    mret' f.

Section File.
Context {LY : Layout} (fuel : nat).

Definition fileclose (f : nat) : M kst unit :=
  lift (acquire ftable_lock) ;;;
  let! r := getf f f_ref in
  if r <? 1 then panic "fileclose"
  else
    updf f (set_fref (r - 1)) ;;;
    if 0 <? r - 1 then lift (release ftable_lock)
    else
      let! ff := getf f id in
      updf f (set_fref 0) ;;;
      updf f (set_ftype FD_NONE) ;;;
      lift (release ftable_lock) ;;;
      if decide (f_type ff = FD_PIPE) then lift (pipeclose (f_pipe ff) (negb (f_writable ff =? 0)))
      else if decide (f_type ff = FD_INODE \/ f_type ff = FD_DEVICE) then
        lift (begin_op fuel) ;;;
        let! ip := deref (f_ip ff) in
        lift (iput fuel ip) ;;;
        lift (end_op fuel)
      else mret' tt.

(** [struct stat] as it is copied out: 4 + 4 + 2 + 2 bytes, 4 of padding and 8
    for the size. *)
Definition stat_bytes (pad : list Z) (st : stat) : list Z :=
  le 4 (st_dev st) ++ le 4 (st_ino st) ++ le 2 (st_type st) ++ le 2 (st_nlink st) ++
  pad ++ le 8 (st_size st).

Definition filestat (f : nat) (addr : Z) : M kst Z :=
  let! p := lift cur in
  let! ff := getf f id in
  if decide (f_type ff = FD_INODE \/ f_type ff = FD_DEVICE) then
    lift (ilock fuel (f_ip ff)) ;;;
    let! ip := deref (f_ip ff) in
    let! st := lift (S:=fsst) (stati ip) in
    lift (S:=fsst) (iunlock (f_ip ff)) ;;;
    let! pt := lift (getp p p_pagetable) in
    let! pad := gets stat_pad in
    let! r := lift (S:=mm) (copyout_bytes pt addr (stat_bytes pad st)) in
    if r <? 0 then mret' (-1) else mret' 0
  else mret' (-1).

Definition devsw_of (s : kst) (m : Z) : option devfn * option devfn := default (None, None) (devsw s !! m).

(** A call through [devsw]: [1] for a user address. *)
Definition call_dev (fn : devfn) (addr n : Z) : M kst Z :=
  match fn with
  | Consoleread => lift (consoleread fuel true addr n)
  | Consolewrite => lift (consolewrite fuel true addr n)
  end.

Definition fileread (f : nat) (addr n : Z) : M kst Z :=
  let! ff := getf f id in
  if f_readable ff =? 0 then mret' (-1)
  else
    match f_type ff with
    | FD_PIPE => lift (piperead fuel (f_pipe ff) addr n)
    | FD_DEVICE =>
        let! d := gets (fun s => devsw_of s (f_major ff)) in
        if (f_major ff <? 0) || (NDEV <=? f_major ff) then mret' (-1)
        else match d.1 with
             | None => mret' (-1)
             | Some fn => call_dev fn addr n
             end
    | FD_INODE =>
        lift (ilock fuel (f_ip ff)) ;;;
        let! ip := deref (f_ip ff) in
        let! off := getf f f_off in
        let! r := lift (readi fuel ip (ToUser addr) off (u32 n)) in
        (if 0 <? r.1 then updf f (set_foff (u32 (off + r.1))) else mret' tt) ;;;
        lift (S:=fsst) (iunlock (f_ip ff)) ;;;
        mret' r.1
    | FD_NONE => panic "fileread"
    end.

(** The largest write of one transaction. *)
Definition filewrite_max : Z := (MAXOPBLOCKS - 1 - 1 - 2) / 2 * BSIZE.

(** The loop of [filewrite]: the bytes written. *)
Fixpoint filewrite_loop (k : nat) (f : nat) (addr n i : Z) : M kst Z :=
  if i <? n then
    match k with
    | O => out_of_fuel
    | S k =>
        let n1 := if filewrite_max <? n - i then filewrite_max else n - i in
        lift (begin_op fuel) ;;;
        let! ip := getf f f_ip in
        lift (ilock fuel ip) ;;;
        let! off := getf f f_off in
        let! i' := deref ip in
        let! r := lift (writei fuel i' (FromUser (u64 (addr + i))) off n1) in
        (if 0 <? r then updf f (set_foff (u32 (off + r))) else mret' tt) ;;;
        lift (S:=fsst) (iunlock ip) ;;;
        lift (end_op fuel) ;;;
        if negb (r =? n1) then mret' i else filewrite_loop k f addr n (i + r)
    end
  else mret' i.

Definition filewrite (f : nat) (addr n : Z) : M kst Z :=
  let! ff := getf f id in
  if f_writable ff =? 0 then mret' (-1)
  else
    match f_type ff with
    | FD_PIPE => lift (pipewrite fuel (f_pipe ff) addr n)
    | FD_DEVICE =>
        let! d := gets (fun s => devsw_of s (f_major ff)) in
        if (f_major ff <? 0) || (NDEV <=? f_major ff) then mret' (-1)
        else match d.2 with
             | None => mret' (-1)
             | Some fn => call_dev fn addr n
             end
    | FD_INODE =>
        let! i := filewrite_loop (Z.to_nat (n / filewrite_max + 1)) f addr n 0 in
        mret' (if i =? n then n else -1)
    | FD_NONE => panic "filewrite"
    end.

(** [pipealloc] of pipe.c: the two files, or [None]. *)
Definition pipealloc_bad (pi : Z) (f0 f1 : option nat) : M kst (option (nat * nat)) :=
  (if negb (pi =? 0) then lift (S:=mm) (kfree pi) else mret' tt) ;;;
  (match f0 with Some f => fileclose f | None => mret' tt end) ;;;
  (match f1 with Some f => fileclose f | None => mret' tt end) ;;;
  mret' None.

Definition pipealloc : M kst (option (nat * nat)) :=
  let! r0 := filealloc in
  match r0 with
  | None => pipealloc_bad 0 None None
  | Some f0 =>
      let! r1 := filealloc in
      match r1 with
      | None => pipealloc_bad 0 (Some f0) None
      | Some f1 =>
          let! pi := lift (S:=mm) kalloc in
          if pi =? 0 then pipealloc_bad 0 (Some f0) (Some f1)
          else
            modify (fun s => set_kpipes
              (<[pi := mkpipe (pi_data (default pipe0 (k_pipes s !! pi))) 0 0 1 1]> (k_pipes s)) s) ;;;
            lift (initlock (pipe_lock pi) "pipe") ;;;
            updf f0 (set_ftype FD_PIPE) ;;;
            updf f0 (set_fmode 1 0) ;;;
            updf f0 (set_fpipe pi) ;;;
            updf f1 (set_ftype FD_PIPE) ;;;
            updf f1 (set_fmode 0 1) ;;;
            updf f1 (set_fpipe pi) ;;;
            mret' (Some (f0, f1))
      end
  end.
End File.
