(* ===== verification/ProcLife.v ===== *)
(** * Birth and death of processes

    Models [userinit], [fork] and [exit] of [src/xv6-os/kernel/proc.c], which
    use the file system, and [struct trapframe] of [proc.h]. A trapframe is a
    page of the byte memory; a field is the 64-bit word at its offset. *)
From S2P Require Import Prelude CString Spinlock Layout Dll Blocks Printf Kalloc Vm Proc ProcSpec Quiet.
From S2P Require Import Console Pipe Sleeplock Bio Virtio Log Fs FsPath File.

(** The offsets in [struct trapframe] of the fields that C code uses. *)
Definition TF_kernel_satp : Z := 0.
Definition TF_kernel_sp : Z := 8.
Definition TF_kernel_trap : Z := 16.
Definition TF_epc : Z := 24.
Definition TF_kernel_hartid : Z := 32.
Definition TF_sp : Z := 48.
Definition TF_a (n : Z) : Z := 112 + 8 * n.
Definition sizeof_trapframe : Z := 288.

(** Addresses of the kernel image that the linker decides. *)
Class Symbols : Type := {
  usertrap_addr : Z;
  kernelvec : Z;
  uservec : Z;
  userret : Z;
  initcode_addr : Z;
}.

(** The bytes at [initcode_addr]. *)
Definition initcode : list Z :=
  [0x17; 0x05; 0x00; 0x00; 0x13; 0x05; 0x45; 0x02;
   0x97; 0x05; 0x00; 0x00; 0x93; 0x85; 0x35; 0x02;
   0x93; 0x08; 0x70; 0x00; 0x73; 0x00; 0x00; 0x00;
   0x93; 0x08; 0x20; 0x00; 0x73; 0x00; 0x00; 0x00;
   0xef; 0xf0; 0x9f; 0xff; 0x2f; 0x69; 0x6e; 0x69;
   0x74; 0x00; 0x00; 0x24; 0x00; 0x00; 0x00; 0x00;
   0x00; 0x00; 0x00; 0x00].

Definition get_tf (p : nat) (off : Z) : M kst Z :=
  let! tf := lift (getp p p_trapframe) in
  lift (S:=mm) (load64 (tf + off)).
Definition set_tf (p : nat) (off v : Z) : M kst unit :=
  let! tf := lift (getp p p_trapframe) in
  lift (S:=mm) (store64 (tf + off) v).

(** [safestrcpy] into a name: a string is the bytes before its NUL. *)
Definition sizeof_name : nat := 16.
Definition safestrcpy_name (t : list Z) : list Z := take (sizeof_name - 1) t.

Section ProcLife.
Context {LY : Layout} {SY : Symbols} (fuel : nat).

Definition userinit : M kst unit :=
  let! p := lift (S:=pst) allocproc in
  lift (modify (fun s => mkpst (p_mm s) (procs s) (nextpid s) p)) ;;;
  let! p := deref p in
  let! pt := lift (getp p p_pagetable) in
  lift (S:=mm) (uvmfirst pt initcode_addr (Z.of_nat (length initcode))) ;;;
  lift (updp p (set_sz PGSIZE)) ;;;
  set_tf p TF_epc 0 ;;;
  set_tf p TF_sp PGSIZE ;;;
  lift (updp p (set_name (safestrcpy_name (str "initcode")))) ;;;
  let! ip := lift (namei fuel (str "/")) in
  lift (updp p (set_cwd ip)) ;;;
  lift (updp p (set_state RUNNABLE)) ;;;
  lift (release (proc_lock p)).

Definition ofile_of (p : proc) (fd : nat) : option nat := default None (p_ofile p !! fd).
Definition set_fd (fd : nat) (f : option nat) (p : proc) : proc := set_ofile (<[fd := f]> (p_ofile p)) p.

(** The duplication of the open files by [fork]. *)
Fixpoint fork_files (k : nat) (p np : nat) (i : nat) : M kst unit :=
  match k with
  | O => mret' tt
  | S k =>
      let! f := lift (getp p (fun p => ofile_of p i)) in
      (match f with
       | Some f =>
           let! f := filedup f in
           lift (updp np (set_fd i (Some f)))
       | None => mret' tt
       end) ;;;
      fork_files k p np (S i)
  end.

Definition fork : M kst Z :=
  let! p := lift cur in
  let! r := lift (S:=pst) allocproc in
  match r with
  | None => mret' (-1)
  | Some np =>
      let! pt := lift (getp p p_pagetable) in
      let! npt := lift (getp np p_pagetable) in
      let! sz := lift (getp p p_sz) in
      let! r := lift (S:=mm) (uvmcopy pt npt sz) in
      if r <? 0 then
        lift (S:=pst) (freeproc np) ;;;
        lift (release (proc_lock np)) ;;;
        mret' (-1)
      else
        lift (updp np (set_sz sz)) ;;;
        let! tf := lift (getp p p_trapframe) in
        let! ntf := lift (getp np p_trapframe) in
        lift (S:=mm) (upd_mem (fun m => memmove m ntf tf sizeof_trapframe)) ;;;
        set_tf np (TF_a 0) 0 ;;;
        fork_files NOFILE p np 0 ;;;
        let! cwd := lift (getp p p_cwd) in
        let! cwd := deref cwd in
        let! cwd := lift (idup cwd) in
        lift (updp np (set_cwd (Some cwd))) ;;;
        let! name := lift (getp p p_name) in
        lift (updp np (set_name (safestrcpy_name name))) ;;;
        let! pid := lift (getp np p_pid) in
        lift (release (proc_lock np)) ;;;
        lift (acquire wait_lock) ;;;
        lift (updp np (set_parent (Some p))) ;;;
        lift (release wait_lock) ;;;
        lift (acquire (proc_lock np)) ;;;
        lift (updp np (set_state RUNNABLE)) ;;;
        lift (release (proc_lock np)) ;;;
        mret' pid
  end.

Fixpoint exit_files (k : nat) (p : nat) (fd : nat) : M kst unit :=
  match k with
  | O => mret' tt
  | S k =>
      let! f := lift (getp p (fun p => ofile_of p fd)) in
      (match f with
       | Some f =>
           fileclose fuel f ;;;
           lift (updp p (set_fd fd None))
       | None => mret' tt
       end) ;;;
      exit_files k p (S fd)
  end.

(** [exit] does not return: the last [sched] is not followed by anything but
    a panic. *)
Definition exit {A} (status : Z) : M kst A :=
  let! p := lift cur in
  let! ip := lift (gets initproc) in
  if decide (ip = Some p) then panic "init exiting"
  else
    exit_files NOFILE p 0 ;;;
    lift (begin_op fuel) ;;;
    let! cwd := lift (getp p p_cwd) in
    let! cwd := deref cwd in
    lift (iput fuel cwd) ;;;
    lift (end_op fuel) ;;;
    lift (updp p (set_cwd None)) ;;;
    lift (acquire wait_lock) ;;;
    lift (reparent p) ;;;
    let! parent := lift (getp p p_parent) in
    lift (wakeup (match parent with Some i => proc_chan i | None => None end)) ;;;
    lift (acquire (proc_lock p)) ;;;
    lift (updp p (set_xstate status)) ;;;
    lift (updp p (set_state ZOMBIE)) ;;;
    lift (release wait_lock) ;;;
    lift sched ;;;
    panic "zombie exit".
End ProcLife.
