(* ===== verification/Exec.v ===== *)
(** * Running a program file

    Models [src/xv6-os/kernel/exec.c] with the formats of [elf.h]. The headers
    are read into local variables of [exec], byte lists here; the argument
    strings are pages of the byte memory. *)
From S2P Require Import Prelude CString Spinlock Layout Dll Blocks Printf Kalloc Vm Proc ProcSpec Quiet.
From S2P Require Import Console Pipe Sleeplock Bio Virtio Log Fs FsPath File ProcLife.

Definition ELF_MAGIC : Z := 0x464C457F.
Definition ELF_PROG_LOAD : Z := 1.

(** [struct elfhdr] *)
Definition sizeof_elfhdr : Z := 64.
Definition elf_magic (h : list Z) : Z := get32 h 0.
Definition elf_entry (h : list Z) : Z := getn 8 h 24.
Definition elf_phoff (h : list Z) : Z := getn 8 h 32.
Definition elf_phnum (h : list Z) : Z := get16 h 56.

(** [struct proghdr] *)
Definition sizeof_proghdr : Z := 56.
Definition ph_type (h : list Z) : Z := get32 h 0.
Definition ph_flags (h : list Z) : Z := get32 h 4.
Definition ph_off (h : list Z) : Z := getn 8 h 8.
Definition ph_vaddr (h : list Z) : Z := getn 8 h 16.
Definition ph_filesz (h : list Z) : Z := getn 8 h 32.
Definition ph_memsz (h : list Z) : Z := getn 8 h 40.

Definition flags2perm (flags : Z) : Z :=
  let perm := if negb (Z.land flags 1 =? 0) then PTE_X else 0 in
  if negb (Z.land flags 2 =? 0) then Z.lor perm PTE_W else perm.

Section Exec.
Context {LY : Layout} (fuel : nat).

(** [i] is unsigned and can wrap around, and then the loop does not end. *)
Fixpoint loadseg_loop (k : nat) (pagetable va : Z) (ip : nat) (offset sz i : Z) : M kst Z :=
  if i <? sz then
    match k with
    | O => out_of_fuel
    | S k =>
        let! pa := lift (S:=mm) (walkaddr pagetable (u64 (va + i))) in
        if pa =? 0 then panic "loadseg: address should exist"
        else
          let n := if sz - i <? PGSIZE then sz - i else PGSIZE in
          let! r := lift (readi fuel ip (ToKernel pa) (u32 (offset + i)) n) in
          if negb (u32 r.1 =? n) then mret' (-1)
          else loadseg_loop k pagetable va ip offset sz (u32 (i + PGSIZE))
    end
  else mret' 0.

Definition loadseg (pagetable va : Z) (ip : nat) (offset sz : Z) : M kst Z :=
  loadseg_loop (Z.to_nat (sz / PGSIZE + 1)) pagetable va ip offset sz 0.

(** The program headers from the [i]th on: [inl sz] when [exec] gives up. *)
Fixpoint load_loop (k : nat) (ip : nat) (pagetable : Z) (off sz : Z) : M kst (Z + Z) :=
  match k with
  | O => mret' (inr sz)
  | S k =>
      let! ph := lift (readi fuel ip ToLocal (u32 off) sizeof_proghdr) in
      if negb (ph.1 =? sizeof_proghdr) then mret' (inl sz)
      else
        let ph := ph.2 in
        if negb (ph_type ph =? ELF_PROG_LOAD) then load_loop k ip pagetable (s32 (off + sizeof_proghdr)) sz
        else if ph_memsz ph <? ph_filesz ph then mret' (inl sz)
        else if u64 (ph_vaddr ph + ph_memsz ph) <? ph_vaddr ph then mret' (inl sz)
        else if negb (ph_vaddr ph mod PGSIZE =? 0) then mret' (inl sz)
        else
          let! sz1 := lift (S:=mm) (uvmalloc pagetable sz (u64 (ph_vaddr ph + ph_memsz ph))
                                     (flags2perm (s32 (ph_flags ph)))) in
          if sz1 =? 0 then mret' (inl sz)
          else
            let! r := loadseg pagetable (ph_vaddr ph) ip (u32 (ph_off ph)) (u32 (ph_filesz ph)) in
            if r <? 0 then mret' (inl sz1)
            else load_loop k ip pagetable (s32 (off + sizeof_proghdr)) sz1
  end.

(** The argument strings: [None] when [exec] gives up, or the stack pointer
    and [ustack]. [argv] ends in a null pointer. *)
Fixpoint push_args (argv : list Z) (pagetable sp stackbase : Z) (ustack : list Z)
    : M kst (option (Z * list Z)) :=
  match argv with
  | [] => panic "kerneltrap"
  | arg :: argv =>
      if arg =? 0 then mret' (Some (sp, ustack))
      else if bool_decide (MAXARG <= length ustack)%nat then mret' None
      else
        let! len := lift (S:=mm) (gets (fun s => strlen (Z.to_nat PGSIZE) (m_mem s) arg)) in
        match len with
        | None => out_of_fuel
        | Some len =>
            let sp := u64 (sp - (len + 1)) in
            let sp := sp - sp mod 16 in
            if sp <? stackbase then mret' None
            else
              let! r := lift (S:=mm) (copyout pagetable sp arg (len + 1)) in
              if r <? 0 then mret' None
              else push_args argv pagetable sp stackbase (ustack ++ [sp])
        end
  end.

(** The part of the path after the last slash. *)
Fixpoint last_elem (path last : list Z) : list Z :=
  match path with
  | [] => last
  | c :: path => last_elem path (if c =? slash then path else last)
  end.

(** The label [bad]. *)
Definition exec_bad (pagetable sz : Z) (ip : option nat) : M kst Z :=
  (if negb (pagetable =? 0) then lift (S:=pst) (proc_freepagetable pagetable sz) else mret' tt) ;;;
  (match ip with
   | Some ip =>
       lift (iunlockput fuel ip) ;;;
       lift (end_op fuel)
   | None => mret' tt
   end) ;;;
  mret' (-1).

(** From the stack on. *)
Definition exec_stack (path argv : list Z) (elf : list Z) (pagetable sz : Z) : M kst Z :=
  let! p := lift cur in
  let! oldsz := lift (getp p p_sz) in
  let sz := PGROUNDUP sz in
  let! sz1 := lift (S:=mm) (uvmalloc pagetable sz (u64 (sz + (USERSTACK + 1) * PGSIZE)) PTE_W) in
  if sz1 =? 0 then exec_bad pagetable sz None
  else
    let sz := sz1 in
    lift (S:=mm) (uvmclear pagetable (sz - (USERSTACK + 1) * PGSIZE)) ;;;
    let stackbase := sz - USERSTACK * PGSIZE in
    let! r := push_args argv pagetable sz stackbase [] in
    match r with
    | None => exec_bad pagetable sz None
    | Some (sp, ustack) =>
        let argc := zlen ustack in
        let sp := u64 (sp - (argc + 1) * 8) in
        let sp := sp - sp mod 16 in
        if sp <? stackbase then exec_bad pagetable sz None
        else
          let! r := lift (S:=mm) (copyout_bytes pagetable sp (concat (map (le 8) (ustack ++ [0])))) in
          if r <? 0 then exec_bad pagetable sz None
          else
            set_tf p (TF_a 1) sp ;;;
            lift (updp p (set_name (safestrcpy_name (last_elem path path)))) ;;;
            let! oldpagetable := lift (getp p p_pagetable) in
            lift (updp p (set_pagetable pagetable)) ;;;
            lift (updp p (set_sz sz)) ;;;
            set_tf p TF_epc (elf_entry elf) ;;;
            set_tf p TF_sp sp ;;;
            lift (S:=pst) (proc_freepagetable oldpagetable oldsz) ;;;
            mret' argc
    end.

Definition exec (path argv : list Z) : M kst Z :=
  let! p := lift cur in
  lift (begin_op fuel) ;;;
  let! ip := lift (namei fuel path) in
  match ip with
  | None =>
      lift (end_op fuel) ;;;
      mret' (-1)
  | Some ip =>
      lift (ilock fuel (Some ip)) ;;;
      let! elf := lift (readi fuel ip ToLocal 0 sizeof_elfhdr) in
      if negb (elf.1 =? sizeof_elfhdr) then exec_bad 0 0 (Some ip)
      else
        let elf := elf.2 in
        if negb (elf_magic elf =? ELF_MAGIC) then exec_bad 0 0 (Some ip)
        else
          let! pagetable := lift (S:=pst) (proc_pagetable p) in
          if pagetable =? 0 then exec_bad 0 0 (Some ip)
          else
            let! r := load_loop (Z.to_nat (elf_phnum elf)) ip pagetable (s32 (elf_phoff elf)) 0 in
            match r with
            | inl sz => exec_bad pagetable sz (Some ip)
            | inr sz =>
                lift (iunlockput fuel ip) ;;;
                lift (end_op fuel) ;;;
                exec_stack path argv elf pagetable sz
            end
  end.
End Exec.
