(* ===== verification/Sysproc.v ===== *)
(** * System call arguments and the calls about processes

    Models the argument routines of [src/xv6-os/kernel/syscall.c] and
    [sysproc.c]. A [uint64] result of a call is kept modulo [2 ^ 64]. *)
From S2P Require Import Prelude CString Spinlock Layout Dll Blocks Printf Kalloc Vm Proc ProcSpec Quiet.
From S2P Require Import Console Pipe Sleeplock Bio Virtio Log Fs FsPath File ProcLife.

(** The result, and the word fetched when the result is 0. *)
Definition fetchaddr (addr : Z) : M kst (Z * Z) :=
  let! p := lift cur in
  let! sz := lift (getp p p_sz) in
  if (sz <=? addr) || (sz <? u64 (addr + 8)) then mret' (-1, 0)
  else
    let! pt := lift (getp p p_pagetable) in
    let! r := lift (S:=mm) (copyin_bytes pt addr 8) in
    if negb (r.1 =? 0) then mret' (-1, 0) else mret' (0, getn 8 r.2 0).

(** The length, and the string when the length is not negative. *)
Definition fetchstr (addr max : Z) : M kst (Z * list Z) :=
  let! p := lift cur in
  let! pt := lift (getp p p_pagetable) in
  let! r := lift (S:=mm) (copyinstr_bytes pt addr max) in
  if r.1 <? 0 then mret' (-1, []) else mret' (zlen r.2, r.2).

Definition argraw (n : Z) : M kst Z :=
  let! p := lift cur in
  if (0 <=? n) && (n <=? 5) then get_tf p (TF_a n) else panic "argraw".

Definition argint (n : Z) : M kst Z := let! x := argraw n in mret' (s32 x).
Definition argaddr (n : Z) : M kst Z := argraw n.

Definition argstr (n max : Z) : M kst (Z * list Z) :=
  let! addr := argaddr n in
  fetchstr addr max.

Section Sysproc.
Context {LY : Layout} (fuel : nat).

Definition sys_exit : M kst Z :=
  let! n := argint 0 in
  exit fuel n.

Definition sys_getpid : M kst Z :=
  let! p := lift cur in
  let! pid := lift (getp p p_pid) in
  mret' (u64 pid).

Definition sys_fork : M kst Z := let! r := fork in mret' (u64 r).

Definition sys_wait : M kst Z :=
  let! p := argaddr 0 in
  let! r := lift (S:=pst) (wait fuel p) in
  mret' (u64 r).

Definition sys_sbrk : M kst Z :=
  let! n := argint 0 in
  let! p := lift cur in
  let! addr := lift (getp p p_sz) in
  let! r := lift (S:=pst) (growproc n) in
  if r <? 0 then mret' (u64 (-1)) else mret' addr.

Definition tickslock : lockid := ("time"%string, 0).
Definition ticks_chan : chan := Some ("ticks"%string, 0).

(** [ticks - ticks0 < n] compares unsigned; [n] is not negative here. *)
Fixpoint sys_sleep_loop (f : nat) (ticks0 n : Z) : M kst Z :=
  let! t := gets ticks in
  if u32 (t - ticks0) <? n then
    match f with
    | O => out_of_fuel
    | S f =>
        let! p := lift cur in
        let! k := lift (killed p) in
        if negb (k =? 0) then
          lift (release tickslock) ;;;
          mret' (u64 (-1))
        else
          lift (sleep ticks_chan tickslock) ;;;
          sys_sleep_loop f ticks0 n
    end
  else
    lift (release tickslock) ;;;
    mret' 0.

Definition sys_sleep : M kst Z :=
  let! n := argint 0 in
  let n := if n <? 0 then 0 else n in
  lift (acquire tickslock) ;;;
  let! ticks0 := gets ticks in
  sys_sleep_loop fuel ticks0 n.

Definition sys_kill : M kst Z :=
  let! pid := argint 0 in
  let! r := lift (kill pid) in
  mret' (u64 r).

Definition sys_uptime : M kst Z :=
  lift (acquire tickslock) ;;;
  let! xticks := gets ticks in
  lift (release tickslock) ;;;
  mret' xticks.
End Sysproc.
