(* ===== verification/Sysfile.v ===== *)
(** * System calls on files

    Models [src/xv6-os/kernel/sysfile.c]. *)
From S2P Require Import Prelude CString Spinlock Layout Dll Blocks Printf Kalloc Vm Proc ProcSpec Quiet.
From S2P Require Import Console Pipe Sleeplock Bio Virtio Log Fs FsPath File ProcLife Exec Sysproc.

Definition O_RDONLY : Z := 0x000.
Definition O_WRONLY : Z := 0x001.
Definition O_RDWR : Z := 0x002.
Definition O_CREATE : Z := 0x200.
Definition O_TRUNC : Z := 0x400.

Definition minus1 : Z := u64 (-1).

(** The descriptor and its file; [None] is the result -1. *)
Definition argfd (n : Z) : M kst (option (nat * nat)) :=
  let! fd := argint n in
  if (fd <? 0) || (Z.of_nat NOFILE <=? fd) then mret' None
  else
    let! p := lift cur in
    let! f := lift (getp p (fun p => ofile_of p (Z.to_nat fd))) in
    mret' (match f with Some f => Some (Z.to_nat fd, f) | None => None end).

Fixpoint fdalloc_loop (k : nat) (p : nat) (f : nat) (fd : nat) : M kst (option nat) :=
  match k with
  | O => mret' None
  | S k =>
      let! o := lift (getp p (fun p => ofile_of p fd)) in
      match o with
      | None =>
          lift (updp p (set_fd fd (Some f))) ;;;
          mret' (Some fd)
      | Some _ => fdalloc_loop k p f (S fd)
      end
  end.

Definition fdalloc (f : nat) : M kst (option nat) :=
  let! p := lift cur in
  fdalloc_loop NOFILE p f 0.

Definition sys_dup : M kst Z :=
  let! r := argfd 0 in
  match r with
  | None => mret' minus1
  | Some (_, f) =>
      let! fd := fdalloc f in
      match fd with
      | None => mret' minus1
      | Some fd =>
          let! _ := filedup f in
          mret' (Z.of_nat fd)
      end
  end.

Section Sysfile.
Context {LY : Layout} (fuel : nat).

Definition sys_read : M kst Z :=
  let! p := argaddr 1 in
  let! n := argint 2 in
  let! r := argfd 0 in
  match r with
  | None => mret' minus1
  | Some (_, f) => let! r := fileread fuel f p n in mret' (u64 r)
  end.

Definition sys_write : M kst Z :=
  let! p := argaddr 1 in
  let! n := argint 2 in
  let! r := argfd 0 in
  match r with
  | None => mret' minus1
  | Some (_, f) => let! r := filewrite fuel f p n in mret' (u64 r)
  end.

Definition sys_close : M kst Z :=
  let! r := argfd 0 in
  match r with
  | None => mret' minus1
  | Some (fd, f) =>
      let! p := lift cur in
      lift (updp p (set_fd fd None)) ;;;
      fileclose fuel f ;;;
      mret' 0
  end.

Definition sys_fstat : M kst Z :=
  let! st := argaddr 1 in
  let! r := argfd 0 in
  match r with
  | None => mret' minus1
  | Some (_, f) => let! r := filestat fuel f st in mret' (u64 r)
  end.

(** [ip->nlink += d; iupdate(ip)] *)
Definition add_nlink (ip : nat) (d : Z) : M kst unit :=
  let! n := lift (geti ip i_nlink) in
  lift (updi ip (set_inlink (s16 (n + d)))) ;;;
  lift (iupdate fuel ip).

(** An array of [DIRSIZ] bytes on the stack, before it is written. *)
Definition name_array : list Z := replicate (Z.to_nat DIRSIZ) 0.

Definition sys_link : M kst Z :=
  let! old := argstr 0 MAXPATH in
  if old.1 <? 0 then mret' minus1
  else
    let! new := argstr 1 MAXPATH in
    if new.1 <? 0 then mret' minus1
    else
      lift (begin_op fuel) ;;;
      let! ip := lift (namei fuel old.2) in
      match ip with
      | None =>
          lift (end_op fuel) ;;;
          mret' minus1
      | Some ip =>
          lift (ilock fuel (Some ip)) ;;;
          let! t := lift (geti ip i_type) in
          if t =? T_DIR then
            lift (iunlockput fuel ip) ;;;
            lift (end_op fuel) ;;;
            mret' minus1
          else
            add_nlink ip 1 ;;;
            lift (S:=fsst) (iunlock (Some ip)) ;;;
            let bad : M kst Z :=
              lift (ilock fuel (Some ip)) ;;;
              add_nlink ip (-1) ;;;
              lift (iunlockput fuel ip) ;;;
              lift (end_op fuel) ;;;
              mret' minus1 in
            let! r := lift (nameiparent fuel new.2 name_array) in
            match r.1 with
            | None => bad
            | Some dp =>
                lift (ilock fuel (Some dp)) ;;;
                let! ddev := lift (geti dp i_dev) in
                let! dev := lift (geti ip i_dev) in
                let! inum := lift (geti ip i_inum) in
                let! l := (if negb (ddev =? dev) then mret' (-1)
                           else lift (dirlink fuel dp r.2 inum)) in
                if l <? 0 then
                  lift (iunlockput fuel dp) ;;;
                  bad
                else
                  lift (iunlockput fuel dp) ;;;
                  lift (iput fuel ip) ;;;
                  lift (end_op fuel) ;;;
                  mret' 0
            end
      end.

Fixpoint isdirempty_loop (k : nat) (dp : nat) (off : Z) : M kst bool :=
  let! size := lift (geti dp i_size) in
  if off <? size then
    match k with
    | O => out_of_fuel
    | S k =>
        let! r := lift (readi fuel dp ToLocal off sizeof_dirent) in
        if negb (r.1 =? sizeof_dirent) then panic "isdirempty: readi"
        else if negb (de_inum r.2 =? 0) then mret' false
        else isdirempty_loop k dp (off + sizeof_dirent)
    end
  else mret' true.

Definition isdirempty (dp : nat) : M kst bool :=
  let! size := lift (geti dp i_size) in
  isdirempty_loop (Z.to_nat (size / sizeof_dirent)) dp (2 * sizeof_dirent).

Definition sys_unlink : M kst Z :=
  let! path := argstr 0 MAXPATH in
  if path.1 <? 0 then mret' minus1
  else
    lift (begin_op fuel) ;;;
    let! r := lift (nameiparent fuel path.2 name_array) in
    match r.1 with
    | None =>
        lift (end_op fuel) ;;;
        mret' minus1
    | Some dp =>
        let name := r.2 in
        lift (ilock fuel (Some dp)) ;;;
        let bad : M kst Z :=
          lift (iunlockput fuel dp) ;;;
          lift (end_op fuel) ;;;
          mret' minus1 in
        if (namecmp name (str ".") =? 0) || (namecmp name (str "..") =? 0) then bad
        else
          let! r := lift (dirlookup fuel dp name) in
          match r with
          | None => bad
          | Some (ip, off) =>
              lift (ilock fuel (Some ip)) ;;;
              let! nlink := lift (geti ip i_nlink) in
              if nlink <? 1 then panic "unlink: nlink < 1"
              else
                let! t := lift (geti ip i_type) in
                let! empty := (if t =? T_DIR then isdirempty ip else mret' true) in
                if negb empty then
                  lift (iunlockput fuel ip) ;;;
                  bad
                else
                  let! w := lift (writei fuel dp (FromLocal (replicate 16 0)) off sizeof_dirent) in
                  if negb (w =? sizeof_dirent) then panic "unlink: writei"
                  else
                    (if t =? T_DIR then add_nlink dp (-1) else mret' tt) ;;;
                    lift (iunlockput fuel dp) ;;;
                    add_nlink ip (-1) ;;;
                    lift (iunlockput fuel ip) ;;;
                    lift (end_op fuel) ;;;
                    mret' 0
          end
    end.

(** The label [fail] of [create]. *)
Definition create_fail (ip dp : nat) : M kst (option nat) :=
  lift (updi ip (set_inlink 0)) ;;;
  lift (iupdate fuel ip) ;;;
  lift (iunlockput fuel ip) ;;;
  lift (iunlockput fuel dp) ;;;
  mret' None.

Definition create (path : list Z) (type major minor : Z) : M kst (option nat) :=
  let! r := lift (nameiparent fuel path name_array) in
  match r.1 with
  | None => mret' None
  | Some dp =>
      let name := r.2 in
      lift (ilock fuel (Some dp)) ;;;
      let! l := lift (dirlookup fuel dp name) in
      match l with
      | Some (ip, _) =>
          lift (iunlockput fuel dp) ;;;
          lift (ilock fuel (Some ip)) ;;;
          let! t := lift (geti ip i_type) in
          if (type =? T_FILE) && ((t =? T_FILE) || (t =? T_DEVICE)) then mret' (Some ip)
          else
            lift (iunlockput fuel ip) ;;;
            mret' None
      | None =>
          let! dev := lift (geti dp i_dev) in
          let! a := lift (ialloc fuel dev type) in
          match a with
          | None =>
              lift (iunlockput fuel dp) ;;;
              mret' None
          | Some ip =>
              lift (ilock fuel (Some ip)) ;;;
              lift (updi ip (set_imajor (s16 major))) ;;;
              lift (updi ip (set_iminor (s16 minor))) ;;;
              lift (updi ip (set_inlink 1)) ;;;
              lift (iupdate fuel ip) ;;;
              let! inum := lift (geti ip i_inum) in
              let! pinum := lift (geti dp i_inum) in
              let! ok := (if type =? T_DIR then
                  let! r := lift (dirlink fuel ip (str ".") inum) in
                  if r <? 0 then mret' false
                  else let! r := lift (dirlink fuel ip (str "..") pinum) in
                       mret' (negb (r <? 0))
                else mret' true) in
              if negb ok then create_fail ip dp
              else
                let! r := lift (dirlink fuel dp name inum) in
                if r <? 0 then create_fail ip dp
                else
                  (if type =? T_DIR then add_nlink dp 1 else mret' tt) ;;;
                  lift (iunlockput fuel dp) ;;;
                  mret' (Some ip)
          end
      end
  end.

(** The end of [sys_open], once the inode is there and locked. *)
Definition open_inode (ip : nat) (omode : Z) : M kst Z :=
  let! t := lift (geti ip i_type) in
  let! major := lift (geti ip i_major) in
  let fails : M kst Z :=
    lift (iunlockput fuel ip) ;;;
    lift (end_op fuel) ;;;
    mret' minus1 in
  if (t =? T_DEVICE) && ((major <? 0) || (NDEV <=? major)) then fails
  else
    let! f := filealloc in
    match f with
    | None => fails
    | Some f =>
        let! fd := fdalloc f in
        match fd with
        | None =>
            fileclose fuel f ;;;
            fails
        | Some fd =>
            (if t =? T_DEVICE then
               updf f (set_ftype FD_DEVICE) ;;;
               updf f (set_fmajor major)
             else
               updf f (set_ftype FD_INODE) ;;;
               updf f (set_foff 0)) ;;;
            updf f (set_fip (Some ip)) ;;;
            updf f (set_fmode (b2z (Z.land omode O_WRONLY =? 0))
                     (b2z (negb (Z.land omode O_WRONLY =? 0) || negb (Z.land omode O_RDWR =? 0)))) ;;;
            (if negb (Z.land omode O_TRUNC =? 0) && (t =? T_FILE) then lift (itrunc fuel ip)
             else mret' tt) ;;;
            lift (S:=fsst) (iunlock (Some ip)) ;;;
            lift (end_op fuel) ;;;
            mret' (Z.of_nat fd)
        end
    end.

Definition sys_open : M kst Z :=
  let! omode := argint 1 in
  let! path := argstr 0 MAXPATH in
  if path.1 <? 0 then mret' minus1
  else
    lift (begin_op fuel) ;;;
    if negb (Z.land omode O_CREATE =? 0) then
      let! ip := create path.2 T_FILE 0 0 in
      match ip with
      | None =>
          lift (end_op fuel) ;;;
          mret' minus1
      | Some ip => open_inode ip omode
      end
    else
      let! ip := lift (namei fuel path.2) in
      match ip with
      | None =>
          lift (end_op fuel) ;;;
          mret' minus1
      | Some ip =>
          lift (ilock fuel (Some ip)) ;;;
          let! t := lift (geti ip i_type) in
          if (t =? T_DIR) && negb (omode =? O_RDONLY) then
            lift (iunlockput fuel ip) ;;;
            lift (end_op fuel) ;;;
            mret' minus1
          else open_inode ip omode
      end.

(** The end of [sys_mkdir] and [sys_mknod]. *)
Definition made (ip : option nat) : M kst Z :=
  match ip with
  | None =>
      lift (end_op fuel) ;;;
      mret' minus1
  | Some ip =>
      lift (iunlockput fuel ip) ;;;
      lift (end_op fuel) ;;;
      mret' 0
  end.

Definition sys_mkdir : M kst Z :=
  lift (begin_op fuel) ;;;
  let! path := argstr 0 MAXPATH in
  let! ip := (if path.1 <? 0 then mret' None else create path.2 T_DIR 0 0) in
  made ip.

Definition sys_mknod : M kst Z :=
  lift (begin_op fuel) ;;;
  let! major := argint 1 in
  let! minor := argint 2 in
  let! path := argstr 0 MAXPATH in
  let! ip := (if path.1 <? 0 then mret' None else create path.2 T_DEVICE major minor) in
  made ip.

Definition sys_chdir : M kst Z :=
  let! p := lift cur in
  lift (begin_op fuel) ;;;
  let! path := argstr 0 MAXPATH in
  let! ip := (if path.1 <? 0 then mret' None else lift (namei fuel path.2)) in
  match ip with
  | None =>
      lift (end_op fuel) ;;;
      mret' minus1
  | Some ip =>
      lift (ilock fuel (Some ip)) ;;;
      let! t := lift (geti ip i_type) in
      if negb (t =? T_DIR) then
        lift (iunlockput fuel ip) ;;;
        lift (end_op fuel) ;;;
        mret' minus1
      else
        lift (S:=fsst) (iunlock (Some ip)) ;;;
        let! cwd := lift (getp p p_cwd) in
        let! cwd := deref cwd in
        lift (iput fuel cwd) ;;;
        lift (end_op fuel) ;;;
        lift (updp p (set_cwd (Some ip))) ;;;
        mret' 0
  end.

Fixpoint kfree_args (argv : list Z) : M kst unit :=
  match argv with
  | [] => mret' tt
  | a :: argv =>
      lift (S:=mm) (kfree a) ;;;
      kfree_args argv
  end.

(** The argument strings, in pages: whether all were fetched, and the pages
    allocated. [fetchstr] writes the string into the page also when it fails. *)
Fixpoint fetch_args (k : nat) (uargv i : Z) (argv : list Z) : M kst (bool * list Z) :=
  match k with
  | O => mret' (false, argv)
  | S k =>
      let! r := fetchaddr (u64 (uargv + 8 * i)) in
      if r.1 <? 0 then mret' (false, argv)
      else if r.2 =? 0 then mret' (true, argv)
      else
        let! a := lift (S:=mm) kalloc in
        if a =? 0 then mret' (false, argv)
        else
          let! p := lift cur in
          let! pt := lift (getp p p_pagetable) in
          let! c := lift (S:=mm) (copyinstr pt a r.2 PGSIZE) in
          if c <? 0 then mret' (false, argv ++ [a])
          else fetch_args k uargv (i + 1) (argv ++ [a])
  end.

Definition sys_exec : M kst Z :=
  let! uargv := argaddr 1 in
  let! path := argstr 0 MAXPATH in
  if path.1 <? 0 then mret' minus1
  else
    let! r := fetch_args MAXARG uargv 0 [] in
    if r.1 then
      let! ret := exec fuel path.2 (r.2 ++ [0]) in
      kfree_args r.2 ;;;
      mret' (u64 ret)
    else
      kfree_args r.2 ;;;
      mret' minus1.

Definition sys_pipe : M kst Z :=
  let! p := lift cur in
  let! fdarray := argaddr 0 in
  let! r := pipealloc fuel in
  match r with
  | None => mret' minus1
  | Some (rf, wf) =>
      let close_both : M kst Z :=
        fileclose fuel rf ;;;
        fileclose fuel wf ;;;
        mret' minus1 in
      let! fd0 := fdalloc rf in
      match fd0 with
      | None => close_both
      | Some fd0 =>
          let! fd1 := fdalloc wf in
          match fd1 with
          | None =>
              lift (updp p (set_fd fd0 None)) ;;;
              close_both
          | Some fd1 =>
              let! pt := lift (getp p p_pagetable) in
              let! r := lift (S:=mm) (copyout_bytes pt fdarray (le32 (Z.of_nat fd0))) in
              let! r := (if r <? 0 then mret' r
                         else lift (S:=mm) (copyout_bytes pt (u64 (fdarray + 4)) (le32 (Z.of_nat fd1)))) in
              if r <? 0 then
                lift (updp p (set_fd fd0 None)) ;;;
                lift (updp p (set_fd fd1 None)) ;;;
                close_both
              else mret' 0
          end
      end
  end.
End Sysfile.
