(* ===== verification/SysfileSpec.v ===== *)
(** * File descriptors in system calls

    What the system calls of [sysfile.c] do with a descriptor that is not
    open, and which descriptor a new file gets. *)
From S2P Require Import Prelude CString Spinlock Layout Dll Blocks Printf Kalloc Vm Proc ProcSpec Quiet.
From S2P Require Import Console Pipe Sleeplock Bio Virtio Log Fs FsPath File ProcLife Exec Sysproc Sysfile.

(** Process [me] runs in the kernel, outside critical sections. *)
Definition running (s : kst) (me : nat) : Prop := proc_quiet (k_pst s) me.

(** [s] after [myproc()], which leaves its mark in [intena]. *)
Definition settled (s : kst) : kst := sub_put (with_hart (settle (hart_of (k_pst s))) (k_pst s)) s.

(** Argument [n] of the system call of process [me]. *)
Definition sys_arg (s : kst) (me : nat) (n : Z) : Z :=
  ld64 (m_mem (p_mm (k_pst s))) (p_trapframe (proc_of (k_pst s) me) + TF_a n).

Lemma k_pst_put (p : pst) (s : kst) : k_pst (sub_put p s) = p.
Proof. by destruct s as [[[[[] ? ? ?] ?] ? ? ?]]. Qed.
Lemma k_put_pst (s : kst) : sub_put (k_pst s) s = s.
Proof. by destruct s as [[[[[] ? ? ?] ?] ? ? ?]]. Qed.
Lemma k_put_put (p p' : pst) (s : kst) : sub_put p (sub_put p' s) = sub_put p s.
Proof. by destruct s as [[[[[] ? ? ?] ?] ? ? ?]]. Qed.

Section Running.
Context (s : kst) (me : nat) (Hr : running s me).

Lemma k_cur : lift cur s = Ok me (settled s).
Proof. exact (lift_ok cur s me _ (cur_quiet _ _ Hr)). Qed.

Lemma settled_running : running (settled s) me.
Proof.
  destruct Hr as [H1 H2 H3]. unfold running, settled. rewrite k_pst_put. constructor; rewrite hart_of_with.
  - by apply settle_ok.
  - by rewrite this_cpu_settle.
  - intros i Hi. by apply lock_free_settle, H3.
Qed.

Lemma settled_idem : settled (settled s) = settled s.
Proof.
  unfold settled. rewrite k_pst_put, k_put_put, hart_of_with, settle_idem. f_equal.
Qed.

Lemma settled_arg n : sys_arg (settled s) me n = sys_arg s me n.
Proof. unfold sys_arg, settled. rewrite k_pst_put. by destruct (k_pst s) as [[]]. Qed.

Lemma settled_proc i : proc_of (k_pst (settled s)) i = proc_of (k_pst s) i.
Proof. unfold settled. rewrite k_pst_put. by destruct (k_pst s) as [[]]. Qed.
End Running.

Lemma k_getp {A} s i (f : proc -> A) : lift (getp i f) s = Ok (f (proc_of (k_pst s) i)) s.
Proof.
  assert (E : getp i f (k_pst s) = Ok (f (proc_of (k_pst s) i)) (k_pst s)) by done.
  etrans; [exact (lift_ok (getp i f) s _ _ E)|]. f_equal. apply k_put_pst.
Qed.

Lemma k_load64 s a : lift (S:=mm) (load64 a) s = Ok (ld64 (m_mem (p_mm (k_pst s))) a) s.
Proof.
  unfold lift, load64, gets. cbn [res_lift]. change (sub_get s) with (p_mm (k_pst s)). f_equal.
  by destruct s as [[[[[[]] ? ? ?] ?] ? ? ?]].
Qed.

Lemma argraw_ok s me n : running s me -> 0 <= n <= 5 -> argraw n s = Ok (sys_arg s me n) (settled s).
Proof.
  intros Hr Hn. unfold argraw. rewrite (bind_ok _ _ _ _ _ (k_cur s me Hr)).
  rewrite (proj2 (Z.leb_le 0 n)), (proj2 (Z.leb_le n 5)) by lia. cbn [andb]. unfold get_tf.
  rewrite (bind_ok _ _ _ _ _ (k_getp _ _ _)), k_load64. fold (sys_arg (settled s) me n). by rewrite settled_arg.
Qed.

Lemma argint_ok s me n : running s me -> 0 <= n <= 5 -> argint n s = Ok (s32 (sys_arg s me n)) (settled s).
Proof. intros Hr Hn. unfold argint. by rewrite (bind_ok _ _ _ _ _ (argraw_ok s me n Hr Hn)). Qed.

(** The open file of descriptor [fd], if there is one. *)
Definition open_fd (s : kst) (me : nat) (fd : Z) : option nat :=
  if (fd <? 0) || (Z.of_nat NOFILE <=? fd) then None else ofile_of (proc_of (k_pst s) me) (Z.to_nat fd).

Lemma argfd_ok s me n : running s me -> 0 <= n <= 5 ->
  argfd n s = Ok (pair (Z.to_nat (s32 (sys_arg s me n))) <$> open_fd s me (s32 (sys_arg s me n))) (settled s).
Proof.
  intros Hr Hn. unfold argfd, open_fd. rewrite (bind_ok _ _ _ _ _ (argint_ok s me n Hr Hn)).
  destruct (_ || _); [done|]. rewrite (bind_ok _ _ _ _ _ (k_cur _ _ (settled_running s me Hr))), settled_idem.
  rewrite (bind_ok _ _ _ _ _ (k_getp _ _ _)), settled_proc. by destruct (ofile_of _ _).
Qed.

(** A descriptor that is out of range or not open is refused: [read],
    [write], [close], [dup] and [fstat] return -1 for it, without blocking,
    without a panic and without any change to the kernel but the saved
    interrupt state that [myproc] leaves behind. *)
Theorem bad_descriptor_refused {LY : Layout} (fuel : nat) (s : kst) (me : nat) (Hr : running s me) :
  open_fd s me (s32 (sys_arg s me 0)) = None ->
  sys_read fuel s = Ok minus1 (settled s) /\ sys_write fuel s = Ok minus1 (settled s) /\
  sys_close fuel s = Ok minus1 (settled s) /\ sys_dup s = Ok minus1 (settled s) /\
  sys_fstat fuel s = Ok minus1 (settled s).
Proof.
  intros Hfd. pose proof (argfd_ok s me 0 Hr ltac:(lia)) as E0. rewrite Hfd in E0. cbn in E0.
  pose proof (settled_running s me Hr) as Hr1. pose proof (argfd_ok (settled s) me 0 Hr1 ltac:(lia)) as E1.
  assert (E1' : argfd 0 (settled s) = Ok None (settled s)).
  { rewrite E1, settled_arg, settled_idem. unfold open_fd in *. by rewrite settled_proc, Hfd. }
  pose proof (argraw_ok s me 1 Hr ltac:(lia)) as A1. pose proof (argint_ok (settled s) me 2 Hr1 ltac:(lia)) as A2.
  rewrite settled_idem in A2. unfold sys_read, sys_write, sys_close, sys_dup, sys_fstat, argaddr.
  rewrite !(bind_ok _ _ _ _ _ A1), !(bind_ok _ _ _ _ _ A2), !(bind_ok _ _ _ _ _ E0), !(bind_ok _ _ _ _ _ E1').
  done.
Qed.

(** ** New descriptors *)

(** The first descriptor from [fd] on that is not open. *)
Fixpoint first_closed (k : nat) (p : proc) (fd : nat) : option nat :=
  match k with
  | O => None
  | S k => match ofile_of p fd with None => Some fd | Some _ => first_closed k p (S fd) end
  end.

Lemma first_closed_least k p fd r :
  first_closed k p fd = Some r ->
  (fd <= r < fd + k)%nat /\ ofile_of p r = None /\ forall j, (fd <= j < r)%nat -> ofile_of p j <> None.
Proof.
  revert fd. induction k as [|k IH]; intros fd; [done|]. cbn [first_closed].
  destruct (ofile_of p fd) as [f|] eqn:E.
  - intros H. destruct (IH _ H) as (H1 & H2 & H3). split_and!; try lia; [done|]. intros j Hj.
    destruct (decide (j = fd)) as [->|]; [by rewrite E|]. apply H3. lia.
  - intros [= <-]. split_and!; try lia; done.
Qed.

Lemma first_closed_none k p fd j : first_closed k p fd = None -> (fd <= j < fd + k)%nat -> ofile_of p j <> None.
Proof.
  revert fd. induction k as [|k IH]; intros fd; [lia|]. cbn [first_closed].
  destruct (ofile_of p fd) as [f|] eqn:E; [|done]. intros H Hj.
  destruct (decide (j = fd)) as [->|]; [by rewrite E|]. apply (IH _ H). lia.
Qed.

Lemma fdalloc_loop_ok f me k : forall s fd,
  fdalloc_loop k me f fd s =
  match first_closed k (proc_of (k_pst s) me) fd with
  | None => Ok None s
  | Some r => (lift (updp me (set_fd r (Some f))) ;;; mret' (Some r)) s
  end.
Proof.
  induction k as [|k IH]; intros s fd; [done|]. cbn [fdalloc_loop first_closed].
  rewrite (bind_ok _ _ _ _ _ (k_getp _ _ _)). destruct (ofile_of _ fd); [|done]. apply IH.
Qed.

Lemma k_updp s me g :
  exists s', lift (updp me g) s = Ok tt s' /\
    forall q, proc_of (k_pst s') q = if decide (q = me) then g (proc_of (k_pst s) me) else proc_of (k_pst s) q.
Proof.
  eexists. split; [apply (lift_ok (updp me g) s tt _ eq_refl)|]. intros q. rewrite k_pst_put. unfold proc_of. cbn [procs set_procs].
  case_decide as E; [rewrite E; by rewrite lookup_insert_eq|by rewrite lookup_insert_ne].
Qed.

Lemma ofile_set_fd fd f p j :
  (fd < length (p_ofile p))%nat -> ofile_of (set_fd fd (Some f) p) j = if decide (j = fd) then Some f else ofile_of p j.
Proof.
  intros Hfd. unfold ofile_of, set_fd. cbn. case_decide as E; [rewrite E; by rewrite list_lookup_insert_eq|].
  by rewrite list_lookup_insert_ne by done.
Qed.

(** [fdalloc] gives a file the lowest descriptor that is not open and
    enters the file there, with every other descriptor of the process and
    every other process unchanged; when all descriptors are open it fails and
    changes nothing. *)
Theorem fdalloc_correct (s : kst) (me f : nat) (Hr : running s me)
    (Hlen : length (p_ofile (proc_of (k_pst s) me)) = NOFILE) :
  (exists fd s', fdalloc f s = Ok (Some fd) s' /\ (fd < NOFILE)%nat /\ open_fd s me (Z.of_nat fd) = None /\
     (forall j, (j < fd)%nat -> open_fd s me (Z.of_nat j) <> None) /\
     (forall j, open_fd s' me j = if decide (j = Z.of_nat fd) then Some f else open_fd s me j) /\
     (forall q, q <> me -> proc_of (k_pst s') q = proc_of (k_pst s) q)) \/
  (fdalloc f s = Ok None (settled s) /\ forall j, (j < NOFILE)%nat -> open_fd s me (Z.of_nat j) <> None).
Proof.
  assert (Hopen : forall j, (j < NOFILE)%nat -> open_fd s me (Z.of_nat j) = ofile_of (proc_of (k_pst s) me) j).
  { intros j Hj. unfold open_fd. rewrite (proj2 (Z.ltb_ge _ 0)), (proj2 (Z.leb_gt _ _)), Nat2Z.id by lia. done. }
  unfold fdalloc. rewrite (bind_ok _ _ _ _ _ (k_cur s me Hr)), fdalloc_loop_ok, settled_proc.
  destruct (first_closed NOFILE _ 0) as [fd|] eqn:E; [left|right].
  - destruct (first_closed_least _ _ _ _ E) as (H1 & H2 & H3).
    destruct (k_updp (settled s) me (set_fd fd (Some f))) as (s' & E' & Hp).
    exists fd, s'. rewrite (bind_ok _ _ _ _ _ E'). split_and!; [done|lia|by rewrite Hopen by lia| | |].
    + intros j Hj. rewrite Hopen by lia. apply H3. lia.
    + intros j. unfold open_fd. rewrite Hp, decide_True, settled_proc by done. rewrite ofile_set_fd by lia.
      destruct (Z.ltb_spec j 0), (Z.leb_spec (Z.of_nat NOFILE) j); cbn [orb]; repeat case_decide; try done; lia.
    + intros q Hq. by rewrite Hp, decide_False, settled_proc by done.
  - split; [done|]. intros j Hj. rewrite Hopen by done. apply (first_closed_none _ _ _ _ E). lia.
Qed.

(** ** Example: process 1 has descriptor 0 open, and descriptors 1 to 15 not *)

Definition kst1 (a0 : Z) : kst :=
  mkkst (mkfsst (mklst (mkbst (mkslst (mkpst (mkmm (mkhart 0 SSTATUS_SIE {[0%nat := mkcpu (Some 1%nat) 0 0]} locks1)
      (st64 ∅ (8192 + TF_a 0) a0) 0)
      {[1%nat := set_ofile (Some 4%nat :: replicate 15 None) (set_trapframe 8192 proc0)]} 2 None) ∅) ∅ ∅ [])
      (mklog 0 0 0 0 0 0 ∅)) (mksuperblock 0 0 0 0 0 0 0 0) ∅ [])
    ∅ ∅ (mkconss [] [] [] [] 0 0 0 [] 0 0 0 0) (mkvdisk 0 0 0 ∅ 0 ∅ 0 ∅ ∅ 0 ∅ ∅ [] (fun _ _ => 0))
    (mkcsrs 0 0 0 0 0 0 0) (mkplic [] []) ∅ 0 1 [].

Lemma kst1_running a0 : running (kst1 a0) 1.
Proof.
  constructor; [|reflexivity|].
  - split; [vm_compute; discriminate|intros H; exfalso; vm_compute in H; discriminate].
  - intros i Hi. destruct (hart2_free None i Hi) as [n H]. exists n. exact H.
Qed.

Lemma bad_descriptor_refused_witness :
  sys_write 0 (kst1 3) = Ok minus1 (settled (kst1 3)) /\ sys_dup (kst1 3) = Ok minus1 (settled (kst1 3)).
Proof.
  destruct (@bad_descriptor_refused small_layout 0 (kst1 3) 1 (kst1_running 3)) as (_ & H1 & _ & H4 & _).
  - vm_compute. reflexivity.
  - split; [exact H1|exact H4].
Defined.

Lemma fdalloc_correct_witness :
  exists s', fdalloc 7 (kst1 0) = Ok (Some 1%nat) s' /\ open_fd s' 1 1 = Some 7%nat /\ open_fd s' 1 0 = Some 4%nat.
Proof.
  destruct (fdalloc_correct (kst1 0) 1 7 (kst1_running 0)) as [(fd & s' & E & Hfd & Hfree & Hlow & Hs & _)|[_ Hall]].
  - reflexivity.
  - assert (fd = 1%nat) as ->.
    { destruct fd as [|[|fd]]; [vm_compute in Hfree; discriminate|done|]. destruct (Hlow 1%nat ltac:(lia)). reflexivity. }
    exists s'. split_and!; [exact E|by rewrite Hs|rewrite Hs; reflexivity].
  - destruct (Hall 1%nat); [unfold NOFILE; lia|reflexivity].
Defined.
