(* ===== verification/Trap.v ===== *)
(** * System call dispatch, traps and interrupts

    Models [syscall] of [src/xv6-os/kernel/syscall.c], [trap.c], [plic.c] and
    [forkret] of [proc.c]. [usertrapret] ends with the page table it hands to
    [userret]; the entry and exit code in assembly is in [Asm]. *)
From S2P Require Import Prelude CString Spinlock Layout Dll Blocks Printf Kalloc Vm Proc ProcSpec Quiet.
From S2P Require Import Console Pipe Sleeplock Bio Virtio Log Fs FsPath File ProcLife Exec Sysproc Sysfile.

(** ** Registers *)

Definition getr {A} (f : csrs -> A) : M kst A := gets (fun s => f (k_csrs s)).
Definition updr (f : csrs -> csrs) : M kst unit := modify (fun s => set_kcsrs (f (k_csrs s)) s).

Definition w_stvec (x : Z) : M kst unit :=
  updr (fun c => mkcsrs x (sepc c) (scause c) (stval c) (satp c) (time c) (stimecmp c)).
Definition w_sepc (x : Z) : M kst unit :=
  updr (fun c => mkcsrs (stvec c) x (scause c) (stval c) (satp c) (time c) (stimecmp c)).
Definition w_stimecmp (x : Z) : M kst unit :=
  updr (fun c => mkcsrs (stvec c) (sepc c) (scause c) (stval c) (satp c) (time c) x).
Definition r_sstatus : M kst Z := lift (gets sstatus).
Definition w_sstatus (x : Z) : M kst unit := lift (modify (set_sstatus x)).

(** ** The interrupt controller *)

Definition PLIC_SENABLE (hart : Z) : Z := PLIC + 0x2080 + hart * 0x100.
Definition PLIC_SPRIORITY (hart : Z) : Z := PLIC + 0x201000 + hart * 0x2000.
Definition PLIC_SCLAIM (hart : Z) : Z := PLIC + 0x201004 + hart * 0x2000.

Definition plic_write (a v : Z) : M kst unit :=
  modify (fun s => set_kplic (mkplic (plic_pending (k_plic s)) (plic_writes (k_plic s) ++ [(a, u32 v)])) s).

Definition plicinit : M kst unit :=
  plic_write (PLIC + UART0_IRQ * 4) 1 ;;;
  plic_write (PLIC + VIRTIO0_IRQ * 4) 1.

Definition plicinithart : M kst unit :=
  let! hart := lift cpuid in
  plic_write (PLIC_SENABLE (Z.of_nat hart)) (Z.lor (Z.shiftl 1 UART0_IRQ) (Z.shiftl 1 VIRTIO0_IRQ)) ;;;
  plic_write (PLIC_SPRIORITY (Z.of_nat hart)) 0.

(** A read of the claim register takes the next pending interrupt, 0 when
    there is none. *)
Definition plic_claim : M kst Z :=
  let! l := gets (fun s => plic_pending (k_plic s)) in
  modify (fun s => set_kplic (mkplic (tl l) (plic_writes (k_plic s))) s) ;;;
  mret' (s32 (hd 0 l)).

Definition plic_complete (irq : Z) : M kst unit :=
  let! hart := lift cpuid in
  plic_write (PLIC_SCLAIM (Z.of_nat hart)) irq.

(** ** Dispatch *)

Inductive sysno :=
| SYS_fork | SYS_exit | SYS_wait | SYS_pipe | SYS_read | SYS_kill | SYS_exec | SYS_fstat | SYS_chdir
| SYS_dup | SYS_getpid | SYS_sbrk | SYS_sleep | SYS_uptime | SYS_open | SYS_write | SYS_mknod
| SYS_unlink | SYS_link | SYS_mkdir | SYS_close.

(** The numbers of syscall.h, from 1 on. *)
Definition sysnos : list sysno :=
  [SYS_fork; SYS_exit; SYS_wait; SYS_pipe; SYS_read; SYS_kill; SYS_exec; SYS_fstat; SYS_chdir;
   SYS_dup; SYS_getpid; SYS_sbrk; SYS_sleep; SYS_uptime; SYS_open; SYS_write; SYS_mknod;
   SYS_unlink; SYS_link; SYS_mkdir; SYS_close].

Definition sysno_of (num : Z) : option sysno :=
  if 0 <? num then sysnos !! Z.to_nat (num - 1) else None.

Section Trap.
Context {LY : Layout} {SY : Symbols} (fuel : nat).

(** The table [syscalls]. *)
Definition syscalls (n : sysno) : M kst Z :=
  match n with
  | SYS_fork => sys_fork
  | SYS_exit => sys_exit fuel
  | SYS_wait => sys_wait fuel
  | SYS_pipe => sys_pipe fuel
  | SYS_read => sys_read fuel
  | SYS_kill => sys_kill
  | SYS_exec => sys_exec fuel
  | SYS_fstat => sys_fstat fuel
  | SYS_chdir => sys_chdir fuel
  | SYS_dup => sys_dup
  | SYS_getpid => sys_getpid
  | SYS_sbrk => sys_sbrk
  | SYS_sleep => sys_sleep fuel
  | SYS_uptime => sys_uptime
  | SYS_open => sys_open fuel
  | SYS_write => sys_write fuel
  | SYS_mknod => sys_mknod fuel
  | SYS_unlink => sys_unlink fuel
  | SYS_link => sys_link fuel
  | SYS_mkdir => sys_mkdir fuel
  | SYS_close => sys_close fuel
  end.

Definition syscall : M kst unit :=
  let! p := lift cur in
  let! a7 := get_tf p (TF_a 7) in
  let num := s32 a7 in
  match sysno_of num with
  | Some n =>
      let! r := syscalls n in
      set_tf p (TF_a 0) r
  | None =>
      let! pid := lift (getp p p_pid) in
      let! name := lift (getp p p_name) in
      lift (printf (str "%d %s: unknown sys call %d" ++ [newline]) [PNum pid; PStr (Some name); PNum num]) ;;;
      set_tf p (TF_a 0) minus1
  end.

(** ** Interrupts *)

Definition trapinit : M kst unit := lift (initlock tickslock "time").

Definition trapinithart : M kst unit := w_stvec kernelvec.

Definition clockintr : M kst unit :=
  let! id := lift cpuid in
  (if (Z.of_nat id =? 0) then
     lift (acquire tickslock) ;;;
     modify (fun s => set_ticks (u32 (ticks s + 1)) s) ;;;
     lift (wakeup ticks_chan) ;;;
     lift (release tickslock)
   else mret' tt) ;;;
  let! t := getr time in
  w_stimecmp (u64 (t + 1000000)).

(** The result: 2 for the timer, 1 for a device, 0 for neither. *)
Definition devintr : M kst Z :=
  let! cause := getr scause in
  if cause =? 0x8000000000000009 then
    let! irq := plic_claim in
    (if irq =? UART0_IRQ then lift (S:=cst) uartintr
     else if irq =? VIRTIO0_IRQ then lift (S:=vst) virtio_disk_intr
     else if negb (irq =? 0) then
       lift (printf (str "unexpected interrupt irq=%d" ++ [newline]) [PNum irq])
     else mret' tt) ;;;
    (if negb (irq =? 0) then plic_complete irq else mret' tt) ;;;
    mret' 1
  else if cause =? 0x8000000000000005 then
    clockintr ;;;
    mret' 2
  else mret' 0.

(** ** From and to user space *)

Definition usertrapret : M kst Z :=
  let! p := lift cur in
  lift intr_off ;;;
  w_stvec (TRAMPOLINE + (uservec - trampoline)) ;;;
  let! ksatp := getr satp in
  set_tf p TF_kernel_satp ksatp ;;;
  let! ks := lift (getp p p_kstack) in
  set_tf p TF_kernel_sp (ks + PGSIZE) ;;;
  set_tf p TF_kernel_trap usertrap_addr ;;;
  let! id := lift cpuid in
  set_tf p TF_kernel_hartid (Z.of_nat id) ;;;
  let! x := r_sstatus in
  w_sstatus (Z.lor (Z.land x (u64 (Z.lnot SSTATUS_SPP))) SSTATUS_SPIE) ;;;
  let! epc := get_tf p TF_epc in
  w_sepc epc ;;;
  let! pt := lift (getp p p_pagetable) in
  mret' (MAKE_SATP pt).

Definition usertrap_unexpected (p : nat) : M kst unit :=
  let! cause := getr scause in
  let! pid := lift (getp p p_pid) in
  lift (printf (str "usertrap(): unexpected scause 0x%lx pid=%d" ++ [newline]) [PNum cause; PNum pid]) ;;;
  let! pc := getr sepc in
  let! val := getr stval in
  lift (printf (str "            sepc=0x%lx stval=0x%lx" ++ [newline]) [PNum pc; PNum val]) ;;;
  lift (setkilled p).

Definition usertrap : M kst Z :=
  let! x := r_sstatus in
  if negb (Z.land x SSTATUS_SPP =? 0) then panic "usertrap: not from user mode"
  else
    w_stvec kernelvec ;;;
    let! p := lift cur in
    let! pc := getr sepc in
    set_tf p TF_epc pc ;;;
    let! cause := getr scause in
    let! which_dev :=
      (if cause =? 8 then
         let! k := lift (killed p) in
         (if negb (k =? 0) then exit fuel (-1) else mret' tt) ;;;
         let! epc := get_tf p TF_epc in
         set_tf p TF_epc (u64 (epc + 4)) ;;;
         lift intr_on ;;;
         syscall ;;;
         mret' 0
       else
         let! d := devintr in
         if negb (d =? 0) then mret' d
         else
           usertrap_unexpected p ;;;
           mret' d) in
    let! k := lift (killed p) in
    (if negb (k =? 0) then exit fuel (-1) else mret' tt) ;;;
    (if which_dev =? 2 then lift yield else mret' tt) ;;;
    usertrapret.

Definition kerneltrap : M kst unit :=
  let! pc := getr sepc in
  let! st := r_sstatus in
  let! cause := getr scause in
  if Z.land st SSTATUS_SPP =? 0 then panic "kerneltrap: not from supervisor mode"
  else
    let! on := lift intr_get in
    if on then panic "kerneltrap: interrupts enabled"
    else
      let! which_dev := devintr in
      if which_dev =? 0 then
        let! pc' := getr sepc in
        let! val := getr stval in
        lift (printf (str "scause=0x%lx sepc=0x%lx stval=0x%lx" ++ [newline])
                [PNum cause; PNum pc'; PNum val]) ;;;
        panic "kerneltrap"
      else
        let! p := (if which_dev =? 2 then lift myproc else mret' None) in
        (match p with Some _ => lift yield | None => mret' tt end) ;;;
        w_sepc pc ;;;
        w_sstatus st.

Definition forkret : M kst Z :=
  let! p := lift cur in
  lift (release (proc_lock p)) ;;;
  let! first := gets forkret_first in
  (if negb (first =? 0) then
     lift (fsinit fuel ROOTDEV) ;;;
     modify (set_first 0)
   else mret' tt) ;;;
  usertrapret.
End Trap.
