(* ===== verification/Asm.v ===== *)
(** * The assembly code

    Models [trampoline.S], [swtch.S], [kernelvec.S] and [entry.S] of
    [src/xv6-os/kernel/], [initcode.S] and the stubs that [usys.pl] generates.
    A routine is the list of its instructions; a machine has the registers,
    the control registers the code uses and the physical memory. Loads and
    stores go through the page table that [satp] names. Instruction fetch is
    not modelled: the trampoline is mapped at the same address in every page
    table so that it goes on through a change of [satp]. *)
From S2P Require Import Prelude CString Spinlock Layout Blocks Printf Kalloc Vm VmTable Proc ProcLife Trap.

(** ** Registers and instructions *)

Inductive reg :=
| zero | ra | sp | gp | tp | t0 | t1 | t2 | s0 | s1 | a0 | a1 | a2 | a3 | a4 | a5 | a6 | a7
| s2 | s3 | s4 | s5 | s6 | s7 | s8 | s9 | s10 | s11 | t3 | t4 | t5 | t6.

#[export] Instance reg_eq_dec : EqDecision reg.
Proof. solve_decision. Defined.

Inductive csr :=
| Csscratch | Csatp | Cmhartid | Cmstatus | Cmepc | Csstatus | Csip | Csie | Cmie | Csepc | Cmedeleg | Cmideleg
| Cstvec | Cstimecmp | Cmenvcfg | Cpmpcfg0 | Cpmpaddr0 | Cscause | Cstval | Cmcounteren | Ctime.

#[export] Instance csr_eq_dec : EqDecision csr.
Proof. solve_decision. Defined.

Inductive instr :=
| sd (rs : reg) (off : Z) (rb : reg)
| ld (rd : reg) (off : Z) (rb : reg)
| csrw (c : csr) (rs : reg)
| csrr (rd : reg) (c : csr)
| li (rd : reg) (v : Z)
| addi (rd rs : reg) (v : Z)
| la (rd : reg) (a : Z)
| add (rd rs rs' : reg)
| mul (rd rs rs' : reg)
| sfence_vma
| jr (rs : reg)
| jal (target : Z)
| call (f : string)
| sret
| ecall.

Definition ret : instr := jr ra.

(** ** The machine *)

Record machine := mkmachine {
  mx : reg -> Z;
  mc : csr -> Z;
  mm_bytes : mem;
}.

Definition getx (m : machine) (r : reg) : Z := if decide (r = zero) then 0 else mx m r.
Definition setx (r : reg) (v : Z) (m : machine) : machine :=
  mkmachine (fun r' => if decide (r' = r) then v else mx m r') (mc m) (mm_bytes m).
Definition setc (c : csr) (v : Z) (m : machine) : machine :=
  mkmachine (mx m) (fun c' => if decide (c' = c) then v else mc m c') (mm_bytes m).
Definition setm (b : mem) (m : machine) : machine := mkmachine (mx m) (mc m) b.

(** The root of the page table that [satp] names. *)
Definition satp_root (satp : Z) : Z := Z.shiftl (satp mod 2 ^ 44) 12.

(** The physical address of a supervisor access of 8 bytes to [va] that needs
    permission [perm]; a page of the user is out of reach, and a misaligned
    access or one to a page that is not mapped faults. *)
Definition translate (b : mem) (satp va perm : Z) : option Z :=
  if negb (va mod 8 =? 0) then None
  else if Z.shiftr satp 60 =? 0 then Some va
  else
    let pte := pte_of b (satp_root satp) va in
    if negb (Z.land pte perm =? 0) && (Z.land pte PTE_U =? 0) then Some (PTE2PA pte + va mod 4096)
    else None.

(** Where control goes when it leaves the code. *)
Inductive way := Wjr (a : Z) | Wcall (f : string) | Wsret | Wecall | Wjal (target : Z).

Inductive stepped := Next (m : machine) | Leave (w : way) (m : machine) | Fault.

Definition step (i : instr) (m : machine) : stepped :=
  match i with
  | sd rs off rb =>
      match translate (mm_bytes m) (mc m Csatp) (u64 (getx m rb + off)) PTE_W with
      | Some pa => Next (setm (st64 (mm_bytes m) pa (getx m rs)) m)
      | None => Fault
      end
  | ld rd off rb =>
      match translate (mm_bytes m) (mc m Csatp) (u64 (getx m rb + off)) PTE_R with
      | Some pa => Next (setx rd (ld64 (mm_bytes m) pa) m)
      | None => Fault
      end
  | csrw c rs => Next (setc c (getx m rs) m)
  | csrr rd c => Next (setx rd (mc m c) m)
  | li rd v => Next (setx rd (u64 v) m)
  | addi rd rs v => Next (setx rd (u64 (getx m rs + v)) m)
  | la rd a => Next (setx rd (u64 a) m)
  | add rd rs rs' => Next (setx rd (u64 (getx m rs + getx m rs')) m)
  | mul rd rs rs' => Next (setx rd (u64 (getx m rs * getx m rs')) m)
  | sfence_vma => Next m
  | jr rs => Leave (Wjr (getx m rs)) m
  | jal a => Leave (Wjal a) m
  | call f => Leave (Wcall f) m
  | sret => Leave Wsret m
  | ecall => Leave Wecall m
  end.

(** The end of the code, the code that is left when control goes elsewhere,
    or a fault. *)
Inductive ran := End (m : machine) | Left (w : way) (rest : list instr) (m : machine) | Faulted.

Fixpoint run_code (l : list instr) (m : machine) : ran :=
  match l with
  | [] => End m
  | i :: l =>
      match step i m with
      | Next m => run_code l m
      | Leave w m => Left w l m
      | Fault => Faulted
      end
  end.

(** ** trampoline.S *)

(** The registers in [struct trapframe]. *)
Definition tf_off (r : reg) : Z :=
  match r with
  | zero => 0
  | ra => 40 | sp => 48 | gp => 56 | tp => 64 | t0 => 72 | t1 => 80 | t2 => 88 | s0 => 96 | s1 => 104
  | a0 => 112 | a1 => 120 | a2 => 128 | a3 => 136 | a4 => 144 | a5 => 152 | a6 => 160 | a7 => 168
  | s2 => 176 | s3 => 184 | s4 => 192 | s5 => 200 | s6 => 208 | s7 => 216 | s8 => 224 | s9 => 232
  | s10 => 240 | s11 => 248 | t3 => 256 | t4 => 264 | t5 => 272 | t6 => 280
  end.

(** Stores and loads at offsets of one register. *)
Definition saves (rb : reg) (l : list (reg * Z)) : list instr := map (fun p => sd p.1 p.2 rb) l.
Definition loads (rb : reg) (l : list (reg * Z)) : list instr := map (fun p => ld p.1 p.2 rb) l.

Definition trap_regs : list (reg * Z) :=
  [(ra, 40); (sp, 48); (gp, 56); (tp, 64); (t0, 72); (t1, 80); (t2, 88); (s0, 96); (s1, 104);
   (a1, 120); (a2, 128); (a3, 136); (a4, 144); (a5, 152); (a6, 160); (a7, 168);
   (s2, 176); (s3, 184); (s4, 192); (s5, 200); (s6, 208); (s7, 216); (s8, 224); (s9, 232);
   (s10, 240); (s11, 248); (t3, 256); (t4, 264); (t5, 272); (t6, 280)].

Definition uservec_S : list instr :=
  [csrw Csscratch a0; li a0 TRAPFRAME] ++
  saves a0 trap_regs ++
  [csrr t0 Csscratch; sd t0 112 a0;
   ld sp 8 a0;
   ld tp 32 a0;
   ld t0 16 a0;
   ld t1 0 a0;
   sfence_vma;
   csrw Csatp t1;
   sfence_vma;
   jr t0].

Definition userret_S : list instr :=
  [sfence_vma; csrw Csatp a0; sfence_vma;
   li a0 TRAPFRAME] ++
  loads a0 trap_regs ++
  [ld a0 112 a0;
   sret].

(** ** swtch.S *)

(** The registers in [struct context] of proc.h. *)
Definition context_off (r : reg) : option Z :=
  match r with
  | ra => Some 0 | sp => Some 8
  | s0 => Some 16 | s1 => Some 24 | s2 => Some 32 | s3 => Some 40 | s4 => Some 48 | s5 => Some 56
  | s6 => Some 64 | s7 => Some 72 | s8 => Some 80 | s9 => Some 88 | s10 => Some 96 | s11 => Some 104
  | _ => None
  end.

Definition context_regs : list (reg * Z) :=
  [(ra, 0); (sp, 8); (s0, 16); (s1, 24); (s2, 32); (s3, 40); (s4, 48); (s5, 56); (s6, 64);
   (s7, 72); (s8, 80); (s9, 88); (s10, 96); (s11, 104)].

Definition swtch_S : list instr := saves a0 context_regs ++ loads a1 context_regs ++ [ret].

(** ** kernelvec.S *)

Definition frame_regs : list (reg * Z) :=
  [(t0, 32); (t1, 40); (t2, 48); (a0, 72); (a1, 80); (a2, 88); (a3, 96); (a4, 104); (a5, 112);
   (a6, 120); (a7, 128); (t3, 216); (t4, 224); (t5, 232); (t6, 240)].

Definition kernelvec_restore : list instr :=
  loads sp [(ra, 0); (sp, 8); (gp, 16)] ++ loads sp frame_regs ++ [addi sp sp 256; sret].

Definition kernelvec_S : list instr :=
  [addi sp sp (-256)] ++
  saves sp [(ra, 0); (sp, 8); (gp, 16); (tp, 24)] ++ saves sp frame_regs ++
  [call "kerneltrap"] ++
  kernelvec_restore.

(** ** entry.S *)

Definition entry_S (stack0 : Z) : list instr :=
  [la sp stack0;
   li a0 (1024 * 4);
   csrr a1 Cmhartid;
   addi a1 a1 1;
   mul a0 a0 a1;
   add sp sp a0;
   call "start"].

(** ** The stubs of usys.pl *)

Definition usys_entry (n : Z) : list instr := [li a7 n; ecall; ret].

#[export] Instance sysno_eq_dec : EqDecision sysno.
Proof. solve_decision. Defined.

(** The calls that have a stub, in the order of usys.pl, and the number that
    syscall.h gives to a call. *)
Definition usys : list sysno :=
  [SYS_fork; SYS_exit; SYS_wait; SYS_pipe; SYS_read; SYS_write; SYS_close; SYS_kill; SYS_exec; SYS_open;
   SYS_mknod; SYS_unlink; SYS_fstat; SYS_link; SYS_mkdir; SYS_chdir; SYS_dup; SYS_getpid; SYS_sbrk;
   SYS_sleep; SYS_uptime].

Definition sys_number (n : sysno) : Z :=
  match n with
  | SYS_fork => 1 | SYS_exit => 2 | SYS_wait => 3 | SYS_pipe => 4 | SYS_read => 5 | SYS_kill => 6
  | SYS_exec => 7 | SYS_fstat => 8 | SYS_chdir => 9 | SYS_dup => 10 | SYS_getpid => 11 | SYS_sbrk => 12
  | SYS_sleep => 13 | SYS_uptime => 14 | SYS_open => 15 | SYS_write => 16 | SYS_mknod => 17
  | SYS_unlink => 18 | SYS_link => 19 | SYS_mkdir => 20 | SYS_close => 21
  end.

(** ** initcode.S *)

Definition reg_num (r : reg) : Z :=
  match r with
  | zero => 0 | ra => 1 | sp => 2 | gp => 3 | tp => 4 | t0 => 5 | t1 => 6 | t2 => 7
  | s0 => 8 | s1 => 9 | a0 => 10 | a1 => 11 | a2 => 12 | a3 => 13 | a4 => 14 | a5 => 15
  | a6 => 16 | a7 => 17 | s2 => 18 | s3 => 19 | s4 => 20 | s5 => 21 | s6 => 22 | s7 => 23
  | s8 => 24 | s9 => 25 | s10 => 26 | s11 => 27 | t3 => 28 | t4 => 29 | t5 => 30 | t6 => 31
  end.

(** The machine words of the instructions that initcode.S uses: the I-type
    [addi], the U-type [auipc] and the J-type [jal]. *)
Definition addi_word (rd rs : reg) (v : Z) : Z :=
  Z.shiftl (v mod 2 ^ 12) 20 + Z.shiftl (reg_num rs) 15 + Z.shiftl (reg_num rd) 7 + 0x13.
Definition auipc_word (rd : reg) (v : Z) : Z := Z.shiftl (v mod 2 ^ 20) 12 + Z.shiftl (reg_num rd) 7 + 0x17.
Definition jal_word (rd : reg) (off : Z) : Z :=
  let v := off mod 2 ^ 21 in
  Z.shiftl (v / 2 ^ 20) 31 + Z.shiftl (v / 2 mod 2 ^ 10) 21 + Z.shiftl (v / 2 ^ 11 mod 2) 20 +
  Z.shiftl (v / 2 ^ 12 mod 2 ^ 8) 12 + Z.shiftl (reg_num rd) 7 + 0x6f.

(** The bytes of an instruction at [pc]; [la] is an [auipc] with an [addi]. *)
Definition encode_instr (pc : Z) (i : instr) : option (list Z) :=
  match i with
  | la rd a =>
      let d := a - pc in
      let lo := (d + 2 ^ 11) mod 2 ^ 12 - 2 ^ 11 in
      Some (le 4 (auipc_word rd ((d - lo) / 2 ^ 12)) ++ le 4 (addi_word rd rd lo))
  | li rd v => Some (le 4 (addi_word rd zero v))
  | jal a => Some (le 4 (jal_word ra (a - pc)))
  | ecall => Some (le 4 0x73)
  | _ => None
  end.

Fixpoint assemble (pc : Z) (l : list instr) : option (list Z) :=
  match l with
  | [] => Some []
  | i :: l =>
      match encode_instr pc i with
      | Some b => option_map (app b) (assemble (pc + zlen b) l)
      | None => None
      end
  end.

(** The labels of initcode.S: the code takes 36 bytes, the string 7. The
    directive [.p2align 2] adds nothing in a section of uncompressed
    instructions. *)
Definition ic_exit : Z := 24.
Definition ic_init : Z := 36.
Definition ic_argv : Z := 43.

Definition initcode_exit : list instr := [li a7 (sys_number SYS_exit); ecall; jal ic_exit].

Definition initcode_S : list instr :=
  [la a0 ic_init; la a1 ic_argv; li a7 (sys_number SYS_exec); ecall] ++ initcode_exit.

Definition initcode_data : list Z := str "/init" ++ [0; 0] ++ le 8 ic_init ++ le 8 0.
