(* ===== verification/AsmSpec.v ===== *)
(** * Switching between user, kernel and processes

    The trampoline saves and restores every register of the user, [swtch]
    every register that a C function must keep, and [kernelvec] every register
    of the interrupted kernel code. *)
From S2P Require Import Prelude CString Spinlock Layout Blocks Printf Kalloc Vm VmTable VmMap Proc ProcVm ProcLife Trap Asm.

Lemma initcode_bytes : option_map (fun b => b ++ initcode_data) (assemble 0 initcode_S) = Some (initcode ++ replicate 7 0).
Proof. reflexivity. Qed.

(** A decidable fact about the lists of registers. *)
Ltac by_compute := apply (bool_decide_unpack _); vm_compute; exact I.

Section Asm.
Context {LY : Layout} {LYok : LayoutOk}.

(** ** Memory through a page table *)

(** The [n] bytes from [va] on are mapped to [pa], for reading and writing,
    and no page of the tree [T] is among them. *)
Record window (b : mem) (root : Z) (T : gmap Z nat) (va pa n : Z) : Prop := {
  w_range : 0 <= va /\ va + n <= 2 ^ 64;
  w_read : forall o, 0 <= o < n -> o mod 8 = 0 -> translate b (MAKE_SATP root) (va + o) PTE_R = Some (pa + o);
  w_write : forall o, 0 <= o < n -> o mod 8 = 0 -> translate b (MAKE_SATP root) (va + o) PTE_W = Some (pa + o);
  w_apart : forall t L x, T !! t = Some L -> t <= x < t + 4096 -> ~ (pa <= x < pa + n);
}.

(** Two memories agree on the tables. *)
Definition same_tables (T : gmap Z nat) (b b' : mem) : Prop :=
  forall t L x, T !! t = Some L -> t <= x < t + 4096 -> rd b' x = rd b x.

Lemma MAKE_SATP_root root : valid_page root ->
  satp_root (MAKE_SATP root) = root /\ Z.shiftr (MAKE_SATP root) 60 = 8.
Proof.
  intros [Ha Hr]. destruct layout_order as (? & ? & ? & ?).
  assert (Hb : 0 <= root < 2 ^ 56) by (unfold PHYSTOP, KERNBASE in *; lia).
  unfold MAKE_SATP, satp_root, SATP_SV39. rewrite !Z.shiftr_div_pow2, !Z.shiftl_mul_pow2 by lia.
  assert (Hd : 0 <= root / 2 ^ 12 < 2 ^ 44) by divlia.
  rewrite (lor_add _ _ 60) by (done || lia). split.
  - replace (8 * 2 ^ 60 + root / 2 ^ 12) with (root / 2 ^ 12 + (8 * 2 ^ 16) * 2 ^ 44) by lia.
    rewrite Z.mod_add, Z.mod_small by lia. pose proof (Z.div_mod root (2 ^ 12)). change (2 ^ 12) with 4096 in *. lia.
  - rewrite Z.div_add_l, Z.div_small by lia. done.
Qed.

Lemma translate_ext b b' root T va perm :
  pt_wf b root T -> same_tables T b b' ->
  translate b' (MAKE_SATP root) va perm = translate b (MAKE_SATP root) va perm.
Proof.
  intros Hwf Hs. destruct (MAKE_SATP_root root) as [Hr _]; [by eapply wf_page, wf_root|].
  unfold translate. by rewrite Hr, (pte_of_ext b b' root T).
Qed.

Lemma window_ext b b' root T va pa n :
  pt_wf b root T -> same_tables T b b' -> window b root T va pa n -> window b' root T va pa n.
Proof.
  intros Hwf Hs [H1 H2 H3 H4]. constructor; [done|..|done];
    intros o Ho Hm; rewrite (translate_ext b b' root T) by done; auto.
Qed.

(** A page that the table maps is a window. *)
Lemma page_window b root T va pa :
  pt_wf b root T -> va mod 4096 = 0 -> 0 <= va < MAXVA -> valid_page pa -> T !! pa = None ->
  pte_of b root va = Z.lor (PA2PTE pa) (Z.lor (Z.lor PTE_R PTE_W) PTE_V) ->
  window b root T va pa 4096.
Proof.
  intros Hwf Ha Hv [Hpa Hp] HT Hpte. destruct layout_order as (? & ? & ? & ?).
  assert (Hb : 0 <= pa < 2 ^ 56) by (unfold PHYSTOP, KERNBASE in *; lia).
  destruct (MAKE_SATP_root root) as [Hr Hs]; [by eapply wf_page, wf_root|].
  assert (Ht : forall o perm, 0 <= o < 4096 -> o mod 8 = 0 -> perm = PTE_R \/ perm = PTE_W ->
    translate b (MAKE_SATP root) (va + o) perm = Some (pa + o)).
  { intros o perm Ho Hm Hperm. unfold translate. rewrite Hr, Hs.
    assert (Ep : (va + o) / 4096 = va / 4096) by divlia.
    rewrite (pte_of_same_page b root (va + o) va), Hpte by done.
    assert (E8 : (va + o) mod 8 = 0) by divlia. rewrite E8. cbn [Z.eqb negb].
    rewrite !pte_land, PTE2PA_PA2PTE by (done || (destruct Hperm as [-> | ->]; done)).
    assert ((va + o) mod 4096 = o) as -> by divlia.
    by destruct Hperm as [-> | ->]. }
  constructor; [change MAXVA with (2 ^ 38) in Hv; lia|auto..|].
  intros t L x HL Hx Hx'. assert (t = pa) as ->; [|congruence].
  pose proof (wf_page _ _ _ Hwf _ _ HL) as [Hta _]. divlia.
Qed.

(** ** Runs of stores and loads *)

Fixpoint save_mem (f : reg -> Z) (l : list (reg * Z)) (pa : Z) (b : mem) : mem :=
  match l with
  | [] => b
  | (r, o) :: l => save_mem f l pa (st64 b (pa + o) (f r))
  end.

Definition fits (n : Z) (l : list (reg * Z)) : Prop :=
  Forall (fun p => 0 <= p.2 /\ p.2 + 8 <= n /\ p.2 mod 8 = 0) l.

Lemma st64_tables T b root va pa n o v :
  window b root T va pa n -> 0 <= o -> o + 8 <= n -> same_tables T b (st64 b (pa + o) v).
Proof.
  intros W H1 H2 t L x HL Hx. apply rd_st64_ne.
  pose proof (w_apart _ _ _ _ _ _ W t L x HL Hx). lia.
Qed.

Lemma saves_run root T va pa n rb l k m :
  mc m Csatp = MAKE_SATP root -> pt_wf (mm_bytes m) root T -> window (mm_bytes m) root T va pa n ->
  getx m rb = va -> fits n l ->
  run_code (saves rb l ++ k) m = run_code k (setm (save_mem (getx m) l pa (mm_bytes m)) m).
Proof.
  intros Hs Hwf W Hb Hl. revert m Hs Hwf W Hb. induction Hl as [|[r o] l (H1 & H2 & H3) _ IH]; intros m Hs Hwf W Hb.
  - by destruct m.
  - cbn [saves map app run_code step fst snd save_mem]. cbn [fst snd] in *. destruct (w_range _ _ _ _ _ _ W).
    rewrite Hb, Hs, u64_small, (w_write _ _ _ _ _ _ W) by (done || lia).
    pose proof (st64_tables T _ root va pa n o (getx m r) W H1 H2) as Hst.
    rewrite (IH (setm _ m)); [done|done|by eapply pt_wf_ext|by eapply window_ext|done].
Qed.

(** Offsets that do not overlap. *)
Definition spaced (l : list (reg * Z)) : Prop := NoDup l.*2 /\ Forall (fun o => o mod 8 = 0) l.*2.

Lemma save_mem_rd f l pa b x :
  (forall r o, (r, o) ∈ l -> x < pa + o \/ pa + o + 8 <= x) -> rd (save_mem f l pa b) x = rd b x.
Proof.
  revert b. induction l as [|[r o] l IH]; intros b Hx; cbn [save_mem]; [done|].
  rewrite IH by (intros r' o' H; apply (Hx r' o'); by right). apply rd_st64_ne. apply (Hx r o). by left.
Qed.

Lemma save_mem_ld_other f l pa b a :
  (forall r o, (r, o) ∈ l -> a + 8 <= pa + o \/ pa + o + 8 <= a) -> ld64 (save_mem f l pa b) a = ld64 b a.
Proof.
  intros Ha. apply ld64_ext. intros i Hi. apply save_mem_rd. intros r o H. specialize (Ha r o H). lia.
Qed.

Lemma save_mem_ld f l pa b r o : spaced l -> (r, o) ∈ l -> ld64 (save_mem f l pa b) (pa + o) = u64 (f r).
Proof.
  intros [Hn Hm] Hin. revert b. induction l as [|[r' o'] l IH]; intros b; [by apply elem_of_nil in Hin|].
  cbn [fmap list_fmap snd save_mem] in *. apply NoDup_cons in Hn as [Hn1 Hn]. inversion_clear Hm as [|? ? H1 H2].
  apply elem_of_cons in Hin as [[= <- <-]|Hin]; [|by apply IH].
  rewrite save_mem_ld_other; [apply ld64_st64_eq|]. intros r' o' H.
  assert (Ho : o' ∈ l.*2) by (apply list_elem_of_fmap; by exists (r', o')).
  assert (o <> o') by congruence. rewrite Forall_forall in H2. specialize (H2 o' Ho). divlia.
Qed.

Lemma save_mem_tables T b root va pa n f l :
  window b root T va pa n -> fits n l -> same_tables T b (save_mem f l pa b).
Proof.
  intros W Hf t L x HL Hx. apply save_mem_rd. intros r o H.
  unfold fits in Hf. rewrite Forall_forall in Hf. specialize (Hf _ H). cbn in Hf.
  pose proof (w_apart _ _ _ _ _ _ W t L x HL Hx). lia.
Qed.

Fixpoint load_regs (l : list (reg * Z)) (pa : Z) (m : machine) : machine :=
  match l with
  | [] => m
  | (r, o) :: l => load_regs l pa (setx r (ld64 (mm_bytes m) (pa + o)) m)
  end.

Lemma load_regs_mem l pa m : mm_bytes (load_regs l pa m) = mm_bytes m.
Proof. revert m. induction l as [|[r o] l IH]; intros m; cbn [load_regs]; [done|]. by rewrite IH. Qed.

Lemma load_regs_mc l pa m : mc (load_regs l pa m) = mc m.
Proof. revert m. induction l as [|[r o] l IH]; intros m; cbn [load_regs]; [done|]. by rewrite IH. Qed.

Lemma getx_setx r v m r' : getx (setx r v m) r' = if decide (r' = r) then (if decide (r' = zero) then 0 else v) else getx m r'.
Proof. unfold getx, setx. cbn. by repeat case_decide. Qed.

Lemma load_regs_other l pa m r : r ∉ l.*1 -> getx (load_regs l pa m) r = getx m r.
Proof.
  revert m. induction l as [|[r' o] l IH]; intros m Hr; cbn [load_regs fmap list_fmap fst] in *; [done|].
  apply not_elem_of_cons in Hr as [H1 H2]. rewrite IH by done. rewrite getx_setx. by rewrite decide_False.
Qed.

Lemma load_regs_get l pa m r o :
  NoDup l.*1 -> (r, o) ∈ l -> r <> zero -> getx (load_regs l pa m) r = ld64 (mm_bytes m) (pa + o).
Proof.
  intros Hn Hin Hz. revert m. induction l as [|[r' o'] l IH]; intros m; [by apply elem_of_nil in Hin|].
  cbn [fmap list_fmap fst load_regs] in *. apply NoDup_cons in Hn as [Hn1 Hn].
  apply elem_of_cons in Hin as [[= <- <-]|Hin]; [|by rewrite IH].
  rewrite load_regs_other, getx_setx, decide_True, decide_False by done. done.
Qed.

Lemma loads_run root T va pa n rb l k m :
  mc m Csatp = MAKE_SATP root -> window (mm_bytes m) root T va pa n ->
  getx m rb = va -> fits n l -> rb ∉ l.*1 ->
  run_code (loads rb l ++ k) m = run_code k (load_regs l pa m).
Proof.
  intros Hs W Hb Hl. revert m Hs W Hb. induction Hl as [|[r o] l (H1 & H2 & H3) _ IH]; intros m Hs W Hb Hr; [done|].
  cbn [loads map app run_code step fst snd load_regs fmap list_fmap] in *. destruct (w_range _ _ _ _ _ _ W).
  apply not_elem_of_cons in Hr as [Hr1 Hr2].
  rewrite Hb, Hs, u64_small, (w_read _ _ _ _ _ _ W) by (done || lia).
  apply IH; [done|done| |done]. rewrite getx_setx. by rewrite decide_False.
Qed.

(** ** The trampoline *)

Lemma trap_regs_fit : fits 4096 trap_regs.
Proof. repeat constructor; done. Qed.

Lemma trap_regs_spaced : spaced trap_regs.
Proof. split; [by_compute|repeat constructor]. Qed.

Lemma trap_regs_tf r : r <> zero -> r = a0 \/ (r, tf_off r) ∈ trap_regs.
Proof.
  intros Hz. destruct (decide (r = a0)) as [|Ha]; [by left|right].
  apply (bool_decide_unpack _). by destruct r.
Qed.

Lemma trap_regs_range r o : (r, o) ∈ trap_regs -> 40 <= o /\ o + 8 <= 288 /\ r <> a0 /\ o <> 112 /\ o mod 8 = 0.
Proof.
  assert (H : Forall (fun p => 40 <= p.2 /\ p.2 + 8 <= 288 /\ p.1 <> a0 /\ p.2 <> 112 /\ p.2 mod 8 = 0) trap_regs)
    by (repeat constructor; done).
  rewrite Forall_forall in H. intros Hin. apply (H _ Hin).
Qed.

(** The state in which a trap leaves user space: the page table of the user
    maps the trapframe at TRAPFRAME. *)
Record user_mode (m : machine) (root : Z) (T : gmap Z nat) (tf : Z) : Prop := {
  um_satp : mc m Csatp = MAKE_SATP root;
  um_wf : pt_wf (mm_bytes m) root T;
  um_page : valid_page tf;
  um_apart : T !! tf = None;
  um_tf : pte_of (mm_bytes m) root TRAPFRAME = Z.lor (PA2PTE tf) (Z.lor (Z.lor PTE_R PTE_W) PTE_V);
}.

(** The page table that [proc_pagetable] makes is such a table. *)
Lemma proc_user_mode m mm' root T l l' tf :
  vm_inv mm' root T l' -> accounted l T l' ->
  (forall x, 0 <= x < MAXVA -> pte_of (m_mem mm') root x = proc_pte tf x) ->
  valid_page tf -> tf ∉ l -> mc m Csatp = MAKE_SATP root -> mm_bytes m = m_mem mm' ->
  user_mode m root T tf.
Proof.
  intros Hs Ha Hp Hv Hn Hc Hb. constructor; rewrite ?Hb; [done|apply Hs|done|..].
  - destruct (T !! tf) eqn:E; [|done]. exfalso. apply Hn, Ha. right. by rewrite E.
  - rewrite Hp by done. unfold proc_pte. rewrite decide_True by done. symmetry. apply Z.lor_assoc.
Qed.

Lemma user_window b root T tf :
  pt_wf b root T -> valid_page tf -> T !! tf = None ->
  pte_of b root TRAPFRAME = Z.lor (PA2PTE tf) (Z.lor (Z.lor PTE_R PTE_W) PTE_V) ->
  window b root T TRAPFRAME tf 4096.
Proof. intros. by apply page_window. Qed.

Lemma uservec_run m root T tf :
  user_mode m root T tf -> (forall r, 0 <= getx m r < 2 ^ 64) ->
  exists m', run_code uservec_S m = Left (Wjr (ld64 (mm_bytes m) (tf + TF_kernel_trap))) [] m' /\
    (forall r, r <> zero -> ld64 (mm_bytes m') (tf + tf_off r) = getx m r) /\
    (forall x, x < tf + 40 \/ tf + 288 <= x -> rd (mm_bytes m') x = rd (mm_bytes m) x) /\
    getx m' sp = ld64 (mm_bytes m) (tf + TF_kernel_sp) /\
    getx m' tp = ld64 (mm_bytes m) (tf + TF_kernel_hartid) /\
    mc m' Csatp = ld64 (mm_bytes m) (tf + TF_kernel_satp).
Proof.
  intros [Hs Hwf Hp Ha Htf] Hx. pose proof (user_window _ _ _ _ Hwf Hp Ha Htf) as W.
  set (m1 := setx a0 TRAPFRAME (setc Csscratch (getx m a0) m)).
  set (rest := [sfence_vma; csrw Csatp t1; sfence_vma; jr t0]).
  set (kregs := [(sp, 8); (tp, 32); (t0, 16); (t1, 0)]).
  change (run_code uservec_S m) with
    (run_code (saves a0 trap_regs ++ [csrr t0 Csscratch] ++ saves a0 [(t0, 112)] ++ loads a0 kregs ++ rest) m1).
  rewrite (saves_run root T TRAPFRAME tf 4096) by (done || apply trap_regs_fit).
  set (b1 := save_mem (getx m1) trap_regs tf (mm_bytes m1)).
  assert (S1 : same_tables T (mm_bytes m) b1) by (by eapply save_mem_tables; [exact W|apply trap_regs_fit]).
  set (m2 := setx t0 (getx m a0) (setm b1 m1)).
  change (run_code ([csrr t0 Csscratch] ++ ?k) (setm b1 m1)) with (run_code k m2).
  rewrite (saves_run root T TRAPFRAME tf 4096); [|done|by eapply pt_wf_ext|by eapply window_ext|done|by repeat constructor].
  set (b2 := save_mem (getx m2) [(t0, 112)] tf (mm_bytes m2)). set (m3 := setm b2 m2).
  assert (S2 : same_tables T (mm_bytes m) b2).
  { intros t L x HL Hx'. rewrite <- (S1 t L x HL Hx'). apply save_mem_rd. intros r o [= _ ->]%list_elem_of_singleton.
    pose proof (w_apart _ _ _ _ _ _ W t L x HL Hx'). lia. }
  rewrite (loads_run root T TRAPFRAME tf 4096); [|done|by eapply window_ext|done|by repeat constructor|].
  2: by_compute.
  assert (Hk : forall o, 0 <= o <= 32 -> ld64 b2 (tf + o) = ld64 (mm_bytes m) (tf + o)).
  { intros o Ho. transitivity (ld64 b1 (tf + o)); apply save_mem_ld_other.
    - intros r o' [= _ ->]%list_elem_of_singleton. lia.
    - intros r o' H%trap_regs_range. lia. }
  set (m4 := load_regs kregs tf m3).
  assert (K : forall r o, (r, o) ∈ kregs -> r <> zero -> 0 <= o <= 32 -> getx m4 r = ld64 (mm_bytes m) (tf + o)).
  { intros r o H Hz Ho. unfold m4. rewrite (load_regs_get kregs tf m3 r o); [by apply Hk| |done|done].
    by_compute. }
  exists (setc Csatp (getx m4 t1) m4). split_and!.
  - unfold rest. cbn [run_code step]. do 2 f_equal. unfold TF_kernel_trap. rewrite <- (K t0 16); [done|set_solver|done|lia].
  - intros r Hr. cbn [mm_bytes setc]. unfold m4. rewrite load_regs_mem. cbn [mm_bytes m3 setm].
    destruct (trap_regs_tf r Hr) as [->|Hin].
    + change (tf_off a0) with 112. unfold b2. rewrite (save_mem_ld _ _ _ _ t0); [apply u64_small, (Hx a0)|split; [by_compute|by repeat constructor]|set_solver].
    + destruct (trap_regs_range _ _ Hin) as (? & ? & Hna & ? & ?). transitivity (ld64 b1 (tf + tf_off r)).
      * apply save_mem_ld_other. intros r' o' [= _ ->]%list_elem_of_singleton. divlia.
      * unfold b1. rewrite (save_mem_ld _ _ _ _ r) by (done || apply trap_regs_spaced).
        unfold m1. rewrite getx_setx, decide_False by done. apply u64_small, (Hx r).
  - intros x Hx'. cbn [mm_bytes setc]. unfold m4. rewrite load_regs_mem. cbn [mm_bytes m3 setm].
    transitivity (rd b1 x); apply save_mem_rd.
    + intros r o [= _ ->]%list_elem_of_singleton. lia.
    + intros r o H%trap_regs_range. lia.
  - apply (K sp 8); [set_solver|done|lia].
  - apply (K tp 32); [set_solver|done|lia].
  - apply (K t1 0); [set_solver|done|lia].
Qed.

Lemma userret_run m root T tf :
  getx m a0 = MAKE_SATP root -> window (mm_bytes m) root T TRAPFRAME tf 4096 ->
  exists m', run_code userret_S m = Left Wsret [] m' /\
    (forall r, r <> zero -> getx m' r = ld64 (mm_bytes m) (tf + tf_off r)) /\
    mc m' Csatp = MAKE_SATP root /\ mm_bytes m' = mm_bytes m.
Proof.
  intros Ha W. set (m1 := setx a0 TRAPFRAME (setc Csatp (getx m a0) m)).
  change (run_code userret_S m) with (run_code (loads a0 trap_regs ++ [ld a0 112 a0; sret]) m1).
  rewrite (loads_run root T TRAPFRAME tf 4096); [|exact Ha|done|done|apply trap_regs_fit|by_compute].
  set (m2 := load_regs trap_regs tf m1).
  assert (Ha2 : getx m2 a0 = TRAPFRAME) by (unfold m2; rewrite load_regs_other by by_compute; done).
  assert (Hs2 : mc m2 Csatp = MAKE_SATP root) by (unfold m2; rewrite load_regs_mc; exact Ha).
  assert (Hb2 : mm_bytes m2 = mm_bytes m) by (unfold m2; by rewrite load_regs_mem).
  exists (setx a0 (ld64 (mm_bytes m) (tf + 112)) m2). split_and!; [|..|exact Hs2|exact Hb2].
  - cbn [run_code step]. rewrite Ha2, Hs2, Hb2. change (u64 (TRAPFRAME + 112)) with (TRAPFRAME + 112).
    by rewrite (w_read _ _ _ _ _ _ W 112 ltac:(lia) eq_refl).
  - intros r Hr. rewrite getx_setx. destruct (decide (r = a0)) as [->|Hn]; [reflexivity|].
    destruct (trap_regs_tf r Hr) as [|Hin]; [contradiction|]. unfold m2.
    rewrite (load_regs_get trap_regs tf m1 r (tf_off r)); [reflexivity|by_compute|exact Hin|exact Hr].
Qed.

(** C5. A trap and the return from it. [uservec] stores every register of the
    user in the trapframe and enters [usertrap] on the kernel stack, with the
    kernel's hart id and page table from the trapframe. Whatever the kernel
    then does, if it leaves the trapframe mapped and calls [userret] with the
    user's page table, the user runs on with that page table, and every
    register whose slot of the trapframe the kernel left alone has the value
    it had at the trap. *)
Theorem trap_roundtrip (m : machine) (root : Z) (T : gmap Z nat) (tf : Z) :
  user_mode m root T tf -> (forall r, 0 <= getx m r < 2 ^ 64) ->
  exists m1, run_code uservec_S m = Left (Wjr (ld64 (mm_bytes m) (tf + TF_kernel_trap))) [] m1 /\
    getx m1 sp = ld64 (mm_bytes m) (tf + TF_kernel_sp) /\
    getx m1 tp = ld64 (mm_bytes m) (tf + TF_kernel_hartid) /\
    mc m1 Csatp = ld64 (mm_bytes m) (tf + TF_kernel_satp) /\
    (forall x, x < tf + 40 \/ tf + 288 <= x -> rd (mm_bytes m1) x = rd (mm_bytes m) x) /\
    forall mk T', user_mode (setc Csatp (getx mk a0) mk) root T' tf ->
      exists m2, run_code userret_S mk = Left Wsret [] m2 /\
        mc m2 Csatp = MAKE_SATP root /\ mm_bytes m2 = mm_bytes mk /\
        forall r, ld64 (mm_bytes mk) (tf + tf_off r) = ld64 (mm_bytes m1) (tf + tf_off r) ->
          getx m2 r = getx m r.
Proof.
  intros Hu Hx. destruct (uservec_run m root T tf Hu Hx) as (m1 & E & Hr & Ho & Hsp & Htp & Hsa).
  exists m1. split_and!; [done..|]. intros mk T' [Hs Hwf Hp Ha Htf].
  destruct (userret_run mk root T' tf) as (m2 & E2 & Hr2 & Hs2 & Hb2);
    [exact Hs|exact (user_window _ _ _ _ Hwf Hp Ha Htf)|].
  exists m2. split_and!; [done..|]. intros r Hk. destruct (decide (r = zero)) as [->|Hz]; [done|].
  by rewrite Hr2, Hk, Hr.
Qed.

(** ** Context switches *)

Lemma context_fit : fits 112 context_regs.
Proof. repeat constructor; done. Qed.

Lemma context_range r o : (r, o) ∈ context_regs -> 0 <= o /\ o + 8 <= 112 /\ r <> zero.
Proof.
  assert (H : Forall (fun p => 0 <= p.2 /\ p.2 + 8 <= 112 /\ p.1 <> zero) context_regs) by (repeat constructor; done).
  rewrite Forall_forall in H. intros Hin. apply (H _ Hin).
Qed.

(** swtch.S saves what the struct has. *)
Lemma context_off_saved r o : context_off r = Some o -> (r, o) ∈ context_regs.
Proof. intros H. destruct r; cbn in H; try discriminate H; injection H as <-; by_compute. Qed.

Lemma context_spaced : spaced context_regs.
Proof. split; [by_compute|repeat constructor]. Qed.

Lemma save_other f c b a :
  a + 8 <= c \/ c + 112 <= a -> ld64 (save_mem f context_regs c b) a = ld64 b a.
Proof. intros Ha. apply save_mem_ld_other. intros r o H%context_range. lia. Qed.

(** A kernel that can reach the context at [c]. *)
Definition has_context (m : machine) (root : Z) (T : gmap Z nat) (c : Z) : Prop :=
  window (mm_bytes m) root T c c 112.

Lemma swtch_run m root T old new :
  mc m Csatp = MAKE_SATP root -> pt_wf (mm_bytes m) root T ->
  getx m a0 = old -> getx m a1 = new -> has_context m root T old -> has_context m root T new ->
  exists m', run_code swtch_S m = Left (Wjr (ld64 (mm_bytes m') new)) [] m' /\
    mm_bytes m' = save_mem (getx m) context_regs old (mm_bytes m) /\ mc m' = mc m /\
    (forall r o, (r, o) ∈ context_regs -> getx m' r = ld64 (mm_bytes m') (new + o)) /\
    (forall r, r ∉ context_regs.*1 -> getx m' r = getx m r).
Proof.
  intros Hs Hwf Ha0 Ha1 Wo Wn. unfold swtch_S.
  rewrite (saves_run root T old old 112) by (done || apply context_fit).
  set (b1 := save_mem _ _ _ _). assert (S1 : same_tables T (mm_bytes m) b1).
  { by eapply save_mem_tables; [exact Wo|apply context_fit]. }
  rewrite (loads_run root T new new 112); [|done|by eapply window_ext|exact Ha1|apply context_fit|by_compute].
  set (m' := load_regs context_regs new (setm b1 m)).
  assert (Hb : mm_bytes m' = b1) by (unfold m'; by rewrite load_regs_mem).
  assert (Hg : forall r o, (r, o) ∈ context_regs -> getx m' r = ld64 (mm_bytes m') (new + o)).
  { intros r o Hin. destruct (context_range r o Hin) as (_ & _ & Hz). rewrite Hb. unfold m'.
    rewrite (load_regs_get context_regs new (setm b1 m) r o); [reflexivity|by_compute|exact Hin|exact Hz]. }
  exists m'. split_and!; [|exact Hb|exact (load_regs_mc _ _ _)|exact Hg|].
  - cbn [run_code step ret]. rewrite (Hg ra 0) by (by left). by rewrite Z.add_0_r.
  - intros r Hr. unfold m'. by rewrite load_regs_other.
Qed.

(** C21. [swtch] goes on where the new context was saved, with its stack and the
    registers that a C function must keep, and a later [swtch] to the old
    context, if nothing wrote to it, returns from this call as if nothing had
    happened. *)
Theorem swtch_resumes (m : machine) (root : Z) (T : gmap Z nat) (old new : Z) :
  mc m Csatp = MAKE_SATP root -> pt_wf (mm_bytes m) root T ->
  getx m a0 = old -> getx m a1 = new -> has_context m root T old -> has_context m root T new ->
  112 <= Z.abs (old - new) -> (forall r, 0 <= getx m r < 2 ^ 64) ->
  exists m1, run_code swtch_S m = Left (Wjr (ld64 (mm_bytes m) new)) [] m1 /\ mc m1 = mc m /\
    (forall r o, context_off r = Some o -> getx m1 r = ld64 (mm_bytes m) (new + o)) /\
    (forall x, x < old \/ old + 112 <= x -> rd (mm_bytes m1) x = rd (mm_bytes m) x) /\
    forall mk root' T' other,
      mc mk Csatp = MAKE_SATP root' -> pt_wf (mm_bytes mk) root' T' ->
      getx mk a0 = other -> getx mk a1 = old -> has_context mk root' T' other -> has_context mk root' T' old ->
      112 <= Z.abs (other - old) ->
      (forall x, old <= x < old + 112 -> rd (mm_bytes mk) x = rd (mm_bytes m1) x) ->
      exists m2, run_code swtch_S mk = Left (Wjr (getx m ra)) [] m2 /\
        forall r, is_Some (context_off r) -> getx m2 r = getx m r.
Proof.
  intros Hs Hwf Ha0 Ha1 Wo Wn Hd Hx. destruct (swtch_run m root T old new) as (m1 & E & Hb & Hc & Hg & _); [done..|].
  exists m1. rewrite Hb in E, Hg. split_and!; [|exact Hc|..].
  - rewrite E. do 2 f_equal. apply save_other. lia.
  - intros r o Hin%context_off_saved. rewrite (Hg r o Hin). apply save_other. pose proof (context_range r o Hin). lia.
  - intros x Hx'. rewrite Hb. apply save_mem_rd. intros r o H%context_range. lia.
  - intros mk root' T' other Hs' Hwf' H0 H1 Wo' Wn' Hd' Hk.
    destruct (swtch_run mk root' T' other old) as (m2 & E2 & Hb2 & _ & Hg2 & _); [done..|].
    assert (V : forall r o, (r, o) ∈ context_regs -> ld64 (mm_bytes m2) (old + o) = getx m r).
    { intros r o Hin. destruct (context_range r o Hin). rewrite Hb2, save_other by lia.
      rewrite (ld64_ext _ (mm_bytes m1)) by (intros; apply Hk; lia).
      rewrite Hb, (save_mem_ld _ _ _ _ r o) by (done || apply context_spaced). apply u64_small, Hx. }
    exists m2. split.
    + rewrite E2. do 2 f_equal. rewrite <- (V ra 0) by (by left). by rewrite Z.add_0_r.
    + intros r [o Hin%context_off_saved]. rewrite (Hg2 r o Hin). by apply V.
Qed.

(** ** Traps in the kernel *)

Definition frame_saved : list (reg * Z) := [(ra, 0); (sp, 8); (gp, 16); (tp, 24)] ++ frame_regs.

Lemma frame_fit : fits 256 frame_saved.
Proof. repeat constructor; done. Qed.

Lemma frame_spaced : spaced frame_saved.
Proof. split; [by_compute|repeat constructor]. Qed.

Lemma frame_range r o : (r, o) ∈ frame_saved -> 0 <= o /\ o + 8 <= 256.
Proof.
  assert (H : Forall (fun p => 0 <= p.2 /\ p.2 + 8 <= 256) frame_saved) by (repeat constructor; done).
  rewrite Forall_forall in H. intros Hin. apply (H _ Hin).
Qed.

Lemma frame_rest r o : (r, o) ∈ (gp, 16) :: frame_regs -> (r, o) ∈ frame_saved /\ r <> sp.
Proof.
  intros Hin. split.
  - apply elem_of_cons in Hin as [->|Hin]; [by_compute|]. unfold frame_saved. rewrite elem_of_app. by right.
  - assert (H : Forall (fun p => p.1 <> sp) ((gp, 16) :: frame_regs)) by (repeat constructor; done).
    rewrite Forall_forall in H. apply (H _ Hin).
Qed.

Definition callee_saved : list reg := [s0; s1; s2; s3; s4; s5; s6; s7; s8; s9; s10; s11].

(** The registers that the frame, the callee or nobody keeps. *)
Lemma frame_cases r :
  r = zero \/ r = tp \/ r = sp \/ r ∈ callee_saved \/ r = ra \/ r ∈ ((gp, 16) :: frame_regs).*1.
Proof. destruct r; by_compute. Qed.

Lemma restore_run mk root T f pa :
  mc mk Csatp = MAKE_SATP root -> window (mm_bytes mk) root T f pa 256 ->
  getx mk sp = f -> ld64 (mm_bytes mk) (pa + 8) = f -> f + 256 < 2 ^ 64 ->
  exists m2, run_code kernelvec_restore mk = Left Wsret [] m2 /\ mm_bytes m2 = mm_bytes mk /\
    getx m2 sp = f + 256 /\ getx m2 ra = ld64 (mm_bytes mk) pa /\
    (forall r o, (r, o) ∈ (gp, 16) :: frame_regs -> getx m2 r = ld64 (mm_bytes mk) (pa + o)) /\
    (forall r, r = tp \/ r ∈ callee_saved -> getx m2 r = getx mk r).
Proof.
  intros Hs W Hsp H8 Hf. set (mr := load_regs [(ra, 0)] pa mk). set (ms := setx sp f mr).
  destruct (w_range _ _ _ _ _ _ W) as [Hf0 _].
  change kernelvec_restore with
    (loads sp [(ra, 0)] ++ [ld sp 8 sp] ++ loads sp ((gp, 16) :: frame_regs) ++ [addi sp sp 256; sret]).
  rewrite (loads_run root T f pa 256); [|done|done|done|by repeat constructor|by_compute].
  fold mr. assert (E : step (ld sp 8 sp) mr = Next ms).
  { cbn [step]. replace (getx mr sp) with f by (symmetry; exact Hsp).
    change (mc mr Csatp) with (mc mk Csatp). rewrite Hs, u64_small by lia.
    change (mm_bytes mr) with (mm_bytes mk). rewrite (w_read _ _ _ _ _ _ W 8 ltac:(lia) eq_refl), H8. reflexivity. }
  cbn [app run_code]. rewrite E. set (l := (gp, 16) :: frame_regs).
  rewrite (loads_run root T f pa 256); [|exact Hs|exact W|reflexivity|repeat constructor; done|by_compute].
  set (m2 := load_regs l pa ms). assert (Hsp2 : getx m2 sp = f) by (unfold m2; by rewrite load_regs_other by by_compute).
  exists (setx sp (u64 (getx m2 sp + 256)) m2). split_and!.
  - reflexivity.
  - cbn [mm_bytes setx]. unfold m2. by rewrite load_regs_mem.
  - rewrite getx_setx, Hsp2. cbn. apply u64_small. lia.
  - rewrite getx_setx, decide_False by done. unfold m2. rewrite load_regs_other by by_compute.
    change (getx ms ra) with (ld64 (mm_bytes mk) (pa + 0)). by rewrite Z.add_0_r.
  - intros r o Hin. assert (Hrs : r <> sp /\ r <> zero).
    { assert (H : Forall (fun p => p.1 <> sp /\ p.1 <> zero) l) by (repeat constructor; done).
      rewrite Forall_forall in H. apply (H _ Hin). }
    rewrite getx_setx, decide_False by apply Hrs. unfold m2.
    rewrite (load_regs_get l pa ms r o); [reflexivity|by_compute|exact Hin|apply Hrs].
  - intros r Hr. assert (H : r <> sp /\ r <> ra /\ r ∉ l.*1).
    { destruct Hr as [->|Hr]; [split_and!; [done..|by_compute]|].
      assert (H : Forall (fun r => r <> sp /\ r <> ra /\ r ∉ l.*1) callee_saved)
        by (repeat constructor; try discriminate; by_compute).
      rewrite Forall_forall in H. by apply H. }
    destruct H as (H1 & H2 & H3). rewrite getx_setx, decide_False by done. unfold m2.
    rewrite load_regs_other by done. unfold ms. rewrite getx_setx, decide_False by done.
    unfold mr. cbn [load_regs]. by rewrite getx_setx, decide_False.
Qed.

(** C24. An interrupt of kernel code. [kernelvec] calls [kerneltrap] on a frame
    below the stack of the interrupted code. If [kerneltrap] returns as a C
    function does, with the stack pointer and the callee-saved registers it
    was called with, and the frame is as it was, then the interrupted code
    goes on with all its registers, but for [tp], which has the hart it now
    runs on. *)
Theorem kernelvec_transparent (m : machine) (root : Z) (T : gmap Z nat) (pa : Z) :
  mc m Csatp = MAKE_SATP root -> pt_wf (mm_bytes m) root T ->
  256 <= getx m sp -> window (mm_bytes m) root T (getx m sp - 256) pa 256 ->
  (forall r, 0 <= getx m r < 2 ^ 64) ->
  exists m1, run_code kernelvec_S m = Left (Wcall "kerneltrap") kernelvec_restore m1 /\
    getx m1 sp = getx m sp - 256 /\ (forall r, r <> sp -> getx m1 r = getx m r) /\
    (forall x, x < pa \/ pa + 256 <= x -> rd (mm_bytes m1) x = rd (mm_bytes m) x) /\
    forall mk root' T',
      mc mk Csatp = MAKE_SATP root' -> window (mm_bytes mk) root' T' (getx m sp - 256) pa 256 ->
      getx mk sp = getx m1 sp -> (forall r, r ∈ callee_saved -> getx mk r = getx m1 r) ->
      (forall x, pa <= x < pa + 256 -> rd (mm_bytes mk) x = rd (mm_bytes m1) x) ->
      exists m2, run_code kernelvec_restore mk = Left Wsret [] m2 /\ mm_bytes m2 = mm_bytes mk /\
        getx m2 tp = getx mk tp /\ forall r, r <> tp -> getx m2 r = getx m r.
Proof.
  intros Hs Hwf Hsp W Hx. pose proof (Hx sp) as Hsp'. set (f := getx m sp - 256) in *. set (m0 := setx sp f m).
  assert (E0 : u64 (getx m sp + -256) = f) by (rewrite u64_small by lia; reflexivity).
  assert (E : run_code kernelvec_S m = run_code (saves sp frame_saved ++ call "kerneltrap" :: kernelvec_restore) m0).
  { unfold kernelvec_S. cbn [app run_code step]. rewrite E0. reflexivity. }
  rewrite (saves_run root T f pa 256) in E; [|done|done|done|reflexivity|apply frame_fit].
  set (b := save_mem (getx m0) frame_saved pa (mm_bytes m0)) in E.
  assert (Hm0 : forall r, r <> sp -> getx (setm b m0) r = getx m r).
  { intros r Hr. change (getx (setm b m0) r) with (getx m0 r). unfold m0. by rewrite getx_setx, decide_False. }
  assert (Hb : forall r o, (r, o) ∈ frame_saved -> ld64 b (pa + o) = getx m0 r).
  { intros r o Hin. unfold b. rewrite (save_mem_ld _ _ _ _ r o) by (done || apply frame_spaced).
    apply u64_small. unfold m0. rewrite getx_setx. repeat case_decide; try lia; apply Hx. }
  exists (setm b m0). split_and!; [exact E|reflexivity|exact Hm0|..].
  - intros x Hx'. apply save_mem_rd. intros r o H%frame_range. lia.
  - intros mk root' T' Hs' W' Hsk Hcs Hk.
    assert (Hv : forall r o, (r, o) ∈ frame_saved -> ld64 (mm_bytes mk) (pa + o) = getx m0 r).
    { intros r o Hin. rewrite <- (Hb r o Hin). pose proof (frame_range r o Hin). apply ld64_ext. intros. apply Hk. lia. }
    destruct (restore_run mk root' T' f pa) as (m2 & E2 & Hb2 & Hs2 & Hra & Hfr & Hck);
      [done|done|exact Hsk|exact (Hv sp 8 ltac:(by_compute))|lia|].
    exists m2. split_and!; [exact E2|exact Hb2|apply Hck; by left|]. intros r Hr.
    destruct (frame_cases r) as [->|[->|[->|[Hc|[->|Hc]]]]]; [done|done|..].
    + rewrite Hs2. unfold f. lia.
    + rewrite Hck by (by right). rewrite (Hcs r Hc). apply Hm0. intros ->. revert Hc. by_compute.
    + rewrite Hra. rewrite <- (Z.add_0_r pa). rewrite (Hv ra 0 ltac:(by_compute)). by apply Hm0.
    + apply list_elem_of_fmap in Hc as ([r' o] & -> & Hin). cbn [fst]. rewrite (Hfr r' o Hin).
      destruct (frame_rest r' o Hin) as [Hin' Hn]. rewrite (Hv r' o Hin'). by apply Hm0.
Qed.

End Asm.

(** ** Booting *)

(** Each hart enters [start] with the top of its own page of [stack0]. *)
Lemma entry_run stack0 m :
  0 <= stack0 -> 0 <= mc m Cmhartid -> stack0 + 4096 * (mc m Cmhartid + 1) < 2 ^ 64 ->
  exists m', run_code (entry_S stack0) m = Left (Wcall "start") [] m' /\
    getx m' sp = stack0 + 4096 * (mc m Cmhartid + 1) /\ mm_bytes m' = mm_bytes m /\ mc m' = mc m.
Proof.
  intros H0 Hh Hb. eexists. split_and!; [reflexivity| |reflexivity|reflexivity].
  match goal with |- ?x = _ => change x with (u64 (u64 stack0 + u64 (u64 4096 * u64 (mc m Cmhartid + 1)))) end.
  rewrite (u64_small stack0), (u64_small (mc m Cmhartid + 1)) by lia. change (u64 4096) with 4096.
  rewrite (u64_small (4096 * _)), u64_small by lia. lia.
Qed.

(** The image of the first process: what is in its first page. *)
Definition first_image : list Z := initcode ++ replicate 7 0.

(** initcode.S assembles to the bytes that proc.c has in [initcode], up to
    zeroes at the end, which the page has anyway. Run at address 0, it calls
    [exec] with the string "/init" and the arguments that consist of this
    string; if [exec] returns, it calls [exit] again and again. *)
Theorem initcode_correct (m : machine) :
  option_map (fun b => b ++ initcode_data) (assemble 0 initcode_S) = Some first_image /\
  (exists m1, run_code initcode_S m = Left Wecall initcode_exit m1 /\
     sysno_of (getx m1 a7) = Some SYS_exec /\
     take 6 (drop (Z.to_nat (getx m1 a0)) first_image) = str "/init" ++ [0] /\
     getn 8 first_image (getx m1 a1) = getx m1 a0 /\ getn 8 first_image (getx m1 a1 + 8) = 0) /\
  exists m2, run_code initcode_exit m = Left Wecall [jal ic_exit] m2 /\
    sysno_of (getx m2 a7) = Some SYS_exit /\
    run_code [jal ic_exit] m2 = Left (Wjal ic_exit) [] m2 /\
    assemble ic_exit initcode_exit = Some (take 12 (drop (Z.to_nat ic_exit) initcode)).
Proof.
  split; [reflexivity|]. split.
  - eexists. split; [reflexivity|]. split_and!; reflexivity.
  - eexists. split; [reflexivity|]. split_and!; reflexivity.
Qed.

(** Every call of the table of the kernel has a stub, which enters the kernel
    with the number that the table has for it, and returns after it. *)
Lemma usys_calls (n : sysno) (m : machine) :
  n ∈ usys /\ exists m1, run_code (usys_entry (sys_number n)) m = Left Wecall [ret] m1 /\
    sysno_of (getx m1 a7) = Some n /\ run_code [ret] m1 = Left (Wjr (getx m ra)) [] m1.
Proof.
  split; [destruct n; by_compute|].
  eexists. split; [reflexivity|]. split; [by destruct n|reflexivity].
Qed.

(** ** Example: a process with a trapframe *)

#[local] Existing Instances kernel_layout kernel_layout_ok.

(** The registers of the user: register [r] has the value [reg_num r]. *)
Definition trap_machine (b : mem) (satp : Z) : machine :=
  mkmachine reg_num (fun c => match c with Csatp => satp | _ => 0 end) b.

(** A page table that maps [va] to the page [vp 5], as [proc_pagetable] maps
    the trapframe. *)
Definition map_vp5 (va : Z) : res mm Z := mappages_loop 1 (vp 0) va (va + 0 * 4096) (vp 5) (Z.lor PTE_R PTE_W) mm2.

Lemma table_with va :
  0 <= va -> va mod 4096 = 0 -> va + 4096 <= MAXVA -> match map_vp5 va with Ok r _ => r | _ => 7 end = 0 ->
  exists b T, pt_wf b (vp 0) T /\ T !! vp 5 = None /\
    pte_of b (vp 0) va = Z.lor (PA2PTE (vp 5)) (Z.lor (Z.lor PTE_R PTE_W) PTE_V).
Proof.
  intros H0 Ha Hm Hok.
  destruct (mappages_loop_spec (vp 0) (Z.lor PTE_R PTE_W) 0 va (vp 5) mm2 {[vp 0 := 2%nat]} [vp 1; vp 2]) as
    (r & s & T & l & k & H1 & H2 & H3 & H4 & H5);
    [split; [discriminate|reflexivity]|done|done|lia|discriminate|discriminate|apply mm2_inv|intros; apply mm2_unmapped|].
  unfold map_vp5 in Hok. change (Z.of_nat 0) with 0 in H1. rewrite H1 in Hok. subst r.
  destruct H5 as [[_ ->]|[H5 _]]; [|discriminate].
  exists (m_mem s), T. split_and!; [apply H2| |].
  - destruct (T !! vp 5) eqn:E; [|done]. exfalso.
    assert (vp 5 ∈ [vp 1; vp 2]) as H by (apply (vg_new _ _ _ _ _ _ H3); [by rewrite E|reflexivity]).
    revert H. by_compute.
  - rewrite (H4 va) by lia. rewrite decide_True by lia. unfold run_pte. rewrite <- Z.lor_assoc.
    replace (vp 5 + (va / 4096 * 4096 - va)) with (vp 5) by divlia. done.
Qed.

Lemma trap_machine_range b satp r : 0 <= getx (trap_machine b satp) r < 2 ^ 64.
Proof. destruct r; (split; [discriminate|reflexivity]). Qed.

Lemma trap_roundtrip_witness : exists b tf m1 m2,
  run_code uservec_S (trap_machine b (MAKE_SATP (vp 0))) = Left (Wjr (ld64 b (tf + TF_kernel_trap))) [] m1 /\
  run_code userret_S (setx a0 (MAKE_SATP (vp 0)) m1) = Left Wsret [] m2 /\
  forall r, getx m2 r = reg_num r.
Proof.
  destruct (table_with TRAPFRAME) as (b & T & Hwf & HT & Hp); [discriminate|reflexivity|discriminate|vm_compute; reflexivity|].
  assert (Hv : valid_page (vp 5)) by (apply vp_valid; lia).
  destruct (trap_roundtrip (trap_machine b (MAKE_SATP (vp 0))) (vp 0) T (vp 5)) as (m1 & E & _ & _ & _ & Ho & Hk);
    [by constructor|apply trap_machine_range|].
  assert (St : same_tables T b (mm_bytes m1)).
  { intros t L x HL Hx. apply Ho. pose proof (wf_page _ _ _ Hwf _ _ HL) as [Ha _].
    assert (t <> vp 5) by congruence. destruct Hv as [Hv _]. divlia. }
  destruct (Hk (setx a0 (MAKE_SATP (vp 0)) m1) T) as (m2 & E2 & _ & _ & Hr).
  { constructor; [reflexivity|by apply (pt_wf_ext b)|exact Hv|exact HT|]. cbn [mm_bytes setc setx].
    by rewrite (pte_of_ext b _ (vp 0) T). }
  exists b, (vp 5), m1, m2. split_and!; [exact E|exact E2|]. intros r. rewrite Hr by reflexivity. by destruct r.
Defined.

(** A part of a mapped page. *)
Lemma window_part b root T va pa d n :
  window b root T va pa 4096 -> 0 <= d -> 0 <= n -> d + n <= 4096 -> d mod 8 = 0 ->
  window b root T (va + d) (pa + d) n.
Proof.
  intros [[H0 H1] H2 H3 H4] Hd Hn Hdn Hm.
  constructor; [lia|..|intros t L x HL Hx; specialize (H4 t L x HL Hx); lia];
    intros o Ho Ho8; rewrite <- !Z.add_assoc; [apply H2|apply H3]; divlia.
Qed.

(** A kernel page table that maps the page [vp 5] to itself. *)
Lemma kernel_page : exists b T, pt_wf b (vp 0) T /\ window b (vp 0) T (vp 5) (vp 5) 4096.
Proof.
  destruct (table_with (vp 5)) as (b & T & Hwf & HT & Hp); [discriminate|reflexivity|discriminate|vm_compute; reflexivity|].
  exists b, T. split; [exact Hwf|].
  apply page_window; [exact Hwf|reflexivity|split; [discriminate|reflexivity]|apply vp_valid; lia|exact HT|exact Hp].
Qed.

(** The example machine with other values in two registers. *)
Definition switch_machine (b : mem) (x0 x1 : Z) : machine :=
  setx a0 x0 (setx a1 x1 (trap_machine b (MAKE_SATP (vp 0)))).

Lemma switch_machine_range b x0 x1 r :
  0 <= x0 < 2 ^ 64 -> 0 <= x1 < 2 ^ 64 -> 0 <= getx (switch_machine b x0 x1) r < 2 ^ 64.
Proof.
  intros H0 H1. unfold switch_machine. rewrite !getx_setx. repeat case_decide; try done; try lia.
  apply trap_machine_range.
Qed.

Lemma swtch_resumes_witness : exists b m1 m2,
  run_code swtch_S (switch_machine b (vp 5) (vp 5 + 112)) = Left (Wjr (ld64 b (vp 5 + 112))) [] m1 /\
  run_code swtch_S (setx a0 (vp 5 + 112) (setx a1 (vp 5) m1)) = Left (Wjr 1) [] m2 /\ getx m2 s7 = 23.
Proof.
  destruct kernel_page as (b & T & Hwf & W).
  assert (W0 : window b (vp 0) T (vp 5) (vp 5) 112).
  { rewrite <- (Z.add_0_r (vp 5)). apply window_part; done || lia. }
  assert (W1 : window b (vp 0) T (vp 5 + 112) (vp 5 + 112) 112) by (apply window_part; done || lia).
  assert (Hb : 0 <= vp 5 /\ vp 5 + 112 < 2 ^ 64) by (unfold vp, KERNBASE; lia).
  destruct (swtch_resumes (switch_machine b (vp 5) (vp 5 + 112)) (vp 0) T (vp 5) (vp 5 + 112))
    as (m1 & E & Hc & _ & Ho & Hk);
    [reflexivity|exact Hwf|reflexivity|reflexivity|exact W0|exact W1|lia|intros; apply switch_machine_range; lia|].
  assert (St : same_tables T b (mm_bytes m1)).
  { intros t L x HL Hx. apply Ho. pose proof (w_apart _ _ _ _ _ _ W0 t L x HL Hx). lia. }
  destruct (Hk (setx a0 (vp 5 + 112) (setx a1 (vp 5) m1)) (vp 0) T (vp 5 + 112)) as (m2 & E2 & Hr).
  - cbn [mc setx]. by rewrite Hc.
  - by apply (pt_wf_ext b).
  - reflexivity.
  - reflexivity.
  - by apply (window_ext b).
  - by apply (window_ext b).
  - lia.
  - reflexivity.
  - exists b, m1, m2. split_and!; [exact E|exact E2|]. rewrite Hr; [reflexivity|by eexists].
Defined.

Lemma kernelvec_transparent_witness : exists b m1 m2,
  run_code kernelvec_S (setx sp (vp 5 + 512) (trap_machine b (MAKE_SATP (vp 0)))) =
    Left (Wcall "kerneltrap") kernelvec_restore m1 /\
  run_code kernelvec_restore (setc Csatp (MAKE_SATP (vp 0)) (setx a0 99 m1)) = Left Wsret [] m2 /\
  getx m2 a0 = 10 /\ getx m2 sp = vp 5 + 512.
Proof.
  destruct kernel_page as (b & T & Hwf & W). set (m := setx sp (vp 5 + 512) (trap_machine b (MAKE_SATP (vp 0)))).
  assert (Hb : 0 <= vp 5 /\ vp 5 + 512 < 2 ^ 64) by (unfold vp, KERNBASE; lia).
  assert (Hf : getx m sp - 256 = vp 5 + 256) by (change (getx m sp) with (vp 5 + 512); lia).
  assert (W0 : window b (vp 0) T (vp 5 + 256) (vp 5 + 256) 256) by (apply window_part; done || lia).
  destruct (kernelvec_transparent m (vp 0) T (vp 5 + 256)) as (m1 & E & Hs & Hr & Ho & Hk);
    [reflexivity|exact Hwf|change (getx m sp) with (vp 5 + 512); lia|rewrite Hf; exact W0|..].
  - intros r. unfold m. rewrite getx_setx. repeat case_decide; try lia. apply trap_machine_range.
  - assert (St : same_tables T b (mm_bytes m1)).
    { intros t L x HL Hx. apply Ho. pose proof (w_apart _ _ _ _ _ _ W0 t L x HL Hx). lia. }
    destruct (Hk (setc Csatp (MAKE_SATP (vp 0)) (setx a0 99 m1)) (vp 0) T) as (m2 & E2 & _ & _ & Hr2);
      [reflexivity|rewrite Hf; by apply (window_ext b)|reflexivity| |reflexivity|].
    + intros r Hc. change (getx (setx a0 99 m1) r = getx m1 r). rewrite getx_setx, decide_False; [reflexivity|].
      intros ->. revert Hc. by_compute.
    + exists b, m1, m2. split_and!; [exact E|exact E2|by apply Hr2|by apply Hr2].
Defined.
