(* ===== verification/Riscv.v ===== *)
(** * Inline assembly and machine mode

    The inline functions of [src/xv6-os/kernel/riscv.h], as the instructions
    that they insert, and [start.c], which runs on them. [x] is the register
    that the compiler picks for the operand of an [asm] statement. The control
    registers are apart from each other: that the hardware shows bits of
    [mstatus] in [sstatus] and of [mie] in [sie] is not used. *)
From S2P Require Import Prelude CString Spinlock Layout Blocks Printf Kalloc Vm VmTable Proc ProcLife Trap Asm AsmSpec.

(** [mv rd, rs] is [addi rd, rs, 0]. *)
Definition mv (rd rs : reg) : instr := addi rd rs 0.

(** Each function with its instruction; [x] is its result or its argument. *)
Definition riscv_csrs1 : list (string * (reg -> instr)) := [
  ("r_mhartid", fun x => csrr x Cmhartid);
  ("r_mstatus", fun x => csrr x Cmstatus);
  ("w_mstatus", fun x => csrw Cmstatus x);
  ("w_mepc", fun x => csrw Cmepc x);
  ("r_sstatus", fun x => csrr x Csstatus);
  ("w_sstatus", fun x => csrw Csstatus x);
  ("r_sip", fun x => csrr x Csip);
  ("w_sip", fun x => csrw Csip x);
  ("r_sie", fun x => csrr x Csie);
  ("w_sie", fun x => csrw Csie x);
  ("r_mie", fun x => csrr x Cmie);
  ("w_mie", fun x => csrw Cmie x);
  ("w_sepc", fun x => csrw Csepc x);
  ("r_sepc", fun x => csrr x Csepc);
  ("r_medeleg", fun x => csrr x Cmedeleg);
  ("w_medeleg", fun x => csrw Cmedeleg x);
  ("r_mideleg", fun x => csrr x Cmideleg)]%string.

Definition riscv_csrs2 : list (string * (reg -> instr)) := [
  ("w_mideleg", fun x => csrw Cmideleg x);
  ("w_stvec", fun x => csrw Cstvec x);
  ("r_stvec", fun x => csrr x Cstvec);
  ("r_stimecmp", fun x => csrr x Cstimecmp);
  ("w_stimecmp", fun x => csrw Cstimecmp x);
  ("r_menvcfg", fun x => csrr x Cmenvcfg);
  ("w_menvcfg", fun x => csrw Cmenvcfg x);
  ("w_pmpcfg0", fun x => csrw Cpmpcfg0 x);
  ("w_pmpaddr0", fun x => csrw Cpmpaddr0 x);
  ("w_satp", fun x => csrw Csatp x);
  ("r_satp", fun x => csrr x Csatp);
  ("r_scause", fun x => csrr x Cscause);
  ("r_stval", fun x => csrr x Cstval);
  ("w_mcounteren", fun x => csrw Cmcounteren x);
  ("r_mcounteren", fun x => csrr x Cmcounteren);
  ("r_time", fun x => csrr x Ctime)]%string.

Definition riscv_regs : list (string * (reg -> instr)) := [
  ("r_sp", fun x => mv x sp);
  ("r_tp", fun x => mv x tp);
  ("w_tp", fun x => mv tp x);
  ("r_ra", fun x => mv x ra);
  ("sfence_vma", fun _ => sfence_vma)]%string.

Definition inline (name : string) : reg -> instr :=
  match List.find (fun p => String.eqb p.1 name) (riscv_csrs1 ++ riscv_csrs2 ++ riscv_regs) with
  | Some (_, i) => i
  | None => fun _ => ecall
  end.

Section Inline.
Context (x : reg).

(** A call of a function that returns the register, and of one that gets its
    argument there. *)
Definition asm_r (name : string) : M machine Z := fun m =>
  match step (inline name x) m with
  | Next m' => Ok (getx m' x) m'
  | _ => Panic "fault"
  end.

Definition asm_w (name : string) (v : Z) : M machine unit := fun m =>
  match step (inline name x) (setx x (u64 v) m) with
  | Next m' => Ok tt m'
  | _ => Panic "fault"
  end.

Definition hw_intr_on : M machine unit :=
  let! s := asm_r "r_sstatus" in
  asm_w "w_sstatus" (Z.lor s SSTATUS_SIE).

Definition hw_intr_off : M machine unit :=
  let! s := asm_r "r_sstatus" in
  asm_w "w_sstatus" (Z.land s (Z.lnot SSTATUS_SIE)).

Definition hw_intr_get : M machine bool :=
  let! s := asm_r "r_sstatus" in
  mret' (negb (Z.land s SSTATUS_SIE =? 0)).
End Inline.

(** ** start.c *)

Definition MSTATUS_MPP_MASK : Z := Z.shiftl 3 11.
Definition MSTATUS_MPP_S : Z := Z.shiftl 1 11.
Definition SIE_SEIE : Z := Z.shiftl 1 9.
Definition SIE_STIE : Z := Z.shiftl 1 5.
Definition SIE_SSIE : Z := Z.shiftl 1 1.
Definition MIE_STIE : Z := Z.shiftl 1 5.

Section Start.
Context (x : reg).

Definition timerinit : M machine unit :=
  let! v := asm_r x "r_mie" in
  asm_w x "w_mie" (Z.lor v MIE_STIE) ;;;
  let! v := asm_r x "r_menvcfg" in
  asm_w x "w_menvcfg" (Z.lor v (Z.shiftl 1 63)) ;;;
  let! v := asm_r x "r_mcounteren" in
  asm_w x "w_mcounteren" (Z.lor v 2) ;;;
  let! v := asm_r x "r_time" in
  asm_w x "w_stimecmp" (v + 1000000).

(** [main_addr] is the address of [main]. The [mret] at the end goes there, in
    the mode that [mstatus] has. *)
Definition start (main_addr : Z) : M machine unit :=
  let! v := asm_r x "r_mstatus" in
  let v := Z.land v (Z.lnot MSTATUS_MPP_MASK) in
  let v := Z.lor v MSTATUS_MPP_S in
  asm_w x "w_mstatus" v ;;;
  asm_w x "w_mepc" main_addr ;;;
  asm_w x "w_satp" 0 ;;;
  asm_w x "w_medeleg" 0xffff ;;;
  asm_w x "w_mideleg" 0xffff ;;;
  let! v := asm_r x "r_sie" in
  asm_w x "w_sie" (Z.lor (Z.lor (Z.lor v SIE_SEIE) SIE_STIE) SIE_SSIE) ;;;
  asm_w x "w_pmpaddr0" 0x3fffffffffffff ;;;
  asm_w x "w_pmpcfg0" 0xf ;;;
  timerinit ;;;
  let! id := asm_r x "r_mhartid" in
  asm_w x "w_tp" (s32 id).
End Start.

(** ** Their effect *)

Section Effect.
Context (x : reg) (Hx : x <> zero).

Lemma getx_set r v m r' :
  getx (setx r v m) r' = if decide (r' = zero) then 0 else if decide (r' = r) then v else getx m r'.
Proof. unfold getx, setx. cbn. by repeat case_decide. Qed.

(** Reading and writing a control register. *)
Lemma asm_r_csr {A} name c (k : Z -> M machine A) m :
  inline name x = csrr x c -> mbind' (asm_r x name) k m = k (mc m c) (setx x (mc m c) m).
Proof.
  intros E. unfold mbind', asm_r. rewrite E. cbn [step res_bind]. rewrite getx_set.
  by rewrite decide_False, decide_True by done.
Qed.

Lemma asm_w_csr {A} name c v (k : unit -> M machine A) m :
  inline name x = csrw c x -> mbind' (asm_w x name v) k m = k tt (setc c (u64 v) (setx x (u64 v) m)).
Proof.
  intros E. unfold mbind', asm_w. rewrite E. cbn [step res_bind]. rewrite getx_set.
  by rewrite decide_False, decide_True by done.
Qed.

Lemma asm_w_tp v m :
  asm_w x "w_tp" v m = Ok tt (setx tp (u64 v) (setx x (u64 v) m)).
Proof.
  unfold asm_w. cbn [step inline]. change (inline "w_tp" x) with (mv tp x). cbn [step mv].
  rewrite getx_set, decide_False, decide_True, Z.add_0_r by done. by rewrite (u64_small (u64 v)) by apply u64_range.
Qed.

(** ** The interrupt-enable routines *)

(** The machine has the [sstatus] and the [tp] of the hart. *)
Definition shows (m : machine) (h : hart) : Prop :=
  mc m Csstatus = sstatus h /\ getx m tp = Z.of_nat (Spinlock.tp h) /\ 0 <= sstatus h < 2 ^ 64.

Definition refines {A} (hw : M machine A) (op : M hart A) : Prop :=
  forall m h, shows m h ->
    exists r m' h', hw m = Ok r m' /\ op h = Ok r h' /\ shows m' h' /\ mm_bytes m' = mm_bytes m.

Context (Hx' : x <> tp).

Lemma shows_set m h v w :
  shows m h -> 0 <= w < 2 ^ 64 ->
  shows (setc Csstatus w (setx x v m)) (set_sstatus w h).
Proof.
  intros (_ & Htp & _) Hw. split_and!; [done| |cbn; lia..].
  transitivity (getx (setx x v m) tp); [done|]. by rewrite getx_set, decide_False, decide_False by done.
Qed.

Lemma land_range s y : 0 <= s < 2 ^ 64 -> 0 <= Z.land s y < 2 ^ 64.
Proof.
  intros Hs. rewrite <- (Z.mod_small s (2 ^ 64)) by done.
  rewrite <- Z.land_ones, <- Z.land_assoc, (Z.land_comm _ y), Z.land_assoc, Z.land_ones by done.
  apply Z.mod_pos_bound. lia.
Qed.

Lemma shows_write m h v :
  shows m h -> 0 <= v < 2 ^ 64 ->
  exists m', asm_w x "w_sstatus" v m = Ok tt m' /\ shows m' (set_sstatus v h) /\ mm_bytes m' = mm_bytes m.
Proof.
  intros Hs Hv. pose proof (asm_w_csr "w_sstatus" Csstatus v mret' m eq_refl) as E.
  rewrite u64_small in E by done. exists (setc Csstatus v (setx x v m)).
  split_and!; [|by apply shows_set|done]. revert E. unfold mbind'. by destruct (asm_w x "w_sstatus" v m) as [[]| | | |].
Qed.

Lemma shows_read m h :
  shows m h -> asm_r x "r_sstatus" m = Ok (sstatus h) (setx x (sstatus h) m) /\ shows (setx x (sstatus h) m) h.
Proof.
  intros Hs. pose proof Hs as (Es & Htp & Hr).
  pose proof (asm_r_csr "r_sstatus" Csstatus mret' m eq_refl) as E. rewrite Es in E. split.
  - revert E. unfold mbind'. by destruct (asm_r x "r_sstatus" m).
  - split_and!; [done| |lia..]. by rewrite getx_set, decide_False, decide_False by done.
Qed.

(** [intr_on], [intr_off] and [intr_get] of the model of a hart do what the
    instructions do. *)
Lemma hw_intr_on_refines : refines (hw_intr_on x) intr_on.
Proof.
  intros m h Hs. pose proof Hs as (_ & _ & Hr). destruct (shows_read m h Hs) as [Er Hs1].
  destruct (shows_write _ h (Z.lor (sstatus h) SSTATUS_SIE) Hs1) as (m' & Ew & Hs' & Hm).
  { by apply lor_range. }
  eexists tt, m', _. unfold hw_intr_on. by rewrite (bind_ok _ _ _ _ _ Er), Ew.
Qed.

Lemma hw_intr_off_refines : refines (hw_intr_off x) intr_off.
Proof.
  intros m h Hs. pose proof Hs as (_ & _ & Hr). destruct (shows_read m h Hs) as [Er Hs1].
  destruct (shows_write _ h (Z.land (sstatus h) (Z.lnot SSTATUS_SIE)) Hs1) as (m' & Ew & Hs' & Hm).
  { by apply land_range. }
  eexists tt, m', _. unfold hw_intr_off. by rewrite (bind_ok _ _ _ _ _ Er), Ew.
Qed.

Lemma hw_intr_get_refines : refines (hw_intr_get x) intr_get.
Proof.
  intros m h Hs. destruct (shows_read m h Hs) as [Er Hs1].
  eexists _, _, h. unfold hw_intr_get. rewrite (bind_ok _ _ _ _ _ Er). done.
Qed.
End Effect.

(** ** Booting *)

(** [m'] is ready for the [mret] that ends [start], where the hart was in
    [m]: it goes to [main] in supervisor mode without paging; traps come to
    supervisor mode and its three kinds of interrupts are enabled; the first
    tick is due; [tp] has the hart's number. *)
Record booted (main_addr : Z) (m m' : machine) : Prop := {
  boot_mode : Z.land (mc m' Cmstatus) MSTATUS_MPP_MASK = MSTATUS_MPP_S;
  boot_status k : 0 <= k -> k <> 11 -> k <> 12 ->
    Z.testbit (mc m' Cmstatus) k = Z.testbit (mc m Cmstatus) k;
  boot_pc : mc m' Cmepc = main_addr;
  boot_paging : mc m' Csatp = 0;
  boot_delegated : mc m' Cmedeleg = 0xffff /\ mc m' Cmideleg = 0xffff;
  boot_enabled k : 0 <= k ->
    Z.testbit (mc m' Csie) k = (k =? 9) || (k =? 5) || (k =? 1) || Z.testbit (mc m Csie) k;
  boot_tick : Z.testbit (mc m' Cmie) 5 = true /\ Z.testbit (mc m' Cmenvcfg) 63 = true /\
    Z.testbit (mc m' Cmcounteren) 1 = true /\ mc m' Cstimecmp = u64 (mc m Ctime + 1000000);
  boot_hart : getx m' tp = mc m Cmhartid;
  boot_memory : mm_bytes m' = mm_bytes m }.

Lemma mc_setx r v m : mc (setx r v m) = mc m.
Proof. done. Qed.
Lemma mc_setc c v m c' : mc (setc c v m) c' = if decide (c' = c) then v else mc m c'.
Proof. done. Qed.
Lemma bytes_setx r v m : mm_bytes (setx r v m) = mm_bytes m.
Proof. done. Qed.
Lemma bytes_setc c v m : mm_bytes (setc c v m) = mm_bytes m.
Proof. done. Qed.
#[local] Opaque setx setc.

(** Looks up the control registers after some writes. *)
Ltac csrs := repeat first
  [ rewrite mc_setx | rewrite bytes_setx | rewrite bytes_setc
  | rewrite mc_setc; first [rewrite decide_True by reflexivity|rewrite decide_False by discriminate] ].

Section Boot.
Context (x : reg) (Hx : x <> zero).

Lemma start_run main_addr m :
  exists m', start x main_addr m = Ok tt m' /\
    mc m' Cmstatus = u64 (Z.lor (Z.land (mc m Cmstatus) (Z.lnot MSTATUS_MPP_MASK)) MSTATUS_MPP_S) /\
    mc m' Cmepc = u64 main_addr /\ mc m' Csatp = 0 /\ mc m' Cmedeleg = 0xffff /\ mc m' Cmideleg = 0xffff /\
    mc m' Csie = u64 (Z.lor (Z.lor (Z.lor (mc m Csie) SIE_SEIE) SIE_STIE) SIE_SSIE) /\
    mc m' Cmie = u64 (Z.lor (mc m Cmie) MIE_STIE) /\
    mc m' Cmenvcfg = u64 (Z.lor (mc m Cmenvcfg) (Z.shiftl 1 63)) /\
    mc m' Cmcounteren = u64 (Z.lor (mc m Cmcounteren) 2) /\
    mc m' Cstimecmp = u64 (mc m Ctime + 1000000) /\
    getx m' tp = u64 (s32 (mc m Cmhartid)) /\ mm_bytes m' = mm_bytes m.
Proof.
  unfold start, timerinit.
  rewrite (asm_r_csr x Hx _ Cmstatus), (asm_w_csr x Hx _ Cmstatus), (asm_w_csr x Hx _ Cmepc),
    (asm_w_csr x Hx _ Csatp), (asm_w_csr x Hx _ Cmedeleg), (asm_w_csr x Hx _ Cmideleg),
    (asm_r_csr x Hx _ Csie), (asm_w_csr x Hx _ Csie), (asm_w_csr x Hx _ Cpmpaddr0),
    (asm_w_csr x Hx _ Cpmpcfg0) by reflexivity. csrs.
  rewrite bind_assoc, (asm_r_csr x Hx _ Cmie), bind_assoc, (asm_w_csr x Hx _ Cmie) by reflexivity. csrs.
  rewrite bind_assoc, (asm_r_csr x Hx _ Cmenvcfg), bind_assoc, (asm_w_csr x Hx _ Cmenvcfg) by reflexivity. csrs.
  rewrite bind_assoc, (asm_r_csr x Hx _ Cmcounteren), bind_assoc, (asm_w_csr x Hx _ Cmcounteren) by reflexivity.
  csrs. rewrite bind_assoc, (asm_r_csr x Hx _ Ctime), (asm_w_csr x Hx _ Cstimecmp),
    (asm_r_csr x Hx _ Cmhartid), (asm_w_tp x Hx) by reflexivity. csrs.
  eexists. split; [reflexivity|]. rewrite getx_set, decide_False, decide_True by done. csrs.
  split_and!; reflexivity.
Qed.

Lemma testbit_bit n k : 0 <= n -> 0 <= k -> Z.testbit (Z.shiftl 1 n) k = (k =? n).
Proof.
  intros Hn Hk. rewrite Z.shiftl_1_l. destruct (Z.eqb_spec k n) as [->|].
  - by apply Z.pow2_bits_true.
  - apply Z.pow2_bits_false. lia.
Qed.

Lemma bit_range n : 0 <= n < 64 -> 0 <= Z.shiftl 1 n < 2 ^ 64.
Proof.
  intros Hn. rewrite Z.shiftl_1_l. split; [lia|]. apply Z.pow_lt_mono_r; lia.
Qed.

(** The previous mode becomes supervisor mode and nothing else changes. *)
Lemma mpp_bits s k :
  0 <= k ->
  Z.testbit (Z.lor (Z.land s (Z.lnot MSTATUS_MPP_MASK)) MSTATUS_MPP_S) k =
    (if decide (k = 11) then true else if decide (k = 12) then false else Z.testbit s k).
Proof.
  intros Hk. unfold MSTATUS_MPP_MASK, MSTATUS_MPP_S.
  change (Z.shiftl 3 11) with (Z.lor (Z.shiftl 1 11) (Z.shiftl 1 12)).
  rewrite Z.lor_spec, Z.land_spec, Z.lnot_spec, Z.lor_spec, !testbit_bit by lia.
  destruct (decide (k = 11)) as [->|]; [apply orb_true_r|].
  destruct (decide (k = 12)) as [->|]; [by rewrite andb_false_r|].
  by rewrite (proj2 (Z.eqb_neq k 11)), (proj2 (Z.eqb_neq k 12)), andb_true_r, orb_false_r by done.
Qed.

Lemma start_booted main_addr m :
  (forall c, 0 <= mc m c < 2 ^ 64) -> mc m Cmhartid < 2 ^ 31 -> 0 <= main_addr < 2 ^ 64 ->
  exists m', start x main_addr m = Ok tt m' /\ booted main_addr m m'.
Proof.
  intros Hc Hh Ha. destruct (start_run main_addr m)
    as (m' & Er & Est & Epc & Esatp & Emd & Eid & Esie & Emie & Eenv & Ecnt & Ecmp & Etp & Em).
  exists m'. split; [done|].
  assert (Hlor : forall c n, 0 <= n < 64 -> 0 <= Z.lor (mc m c) (Z.shiftl 1 n) < 2 ^ 64)
    by (intros; apply lor_range; [lia|apply Hc|by apply bit_range]).
  rewrite u64_small in Est by (apply lor_range; [lia|apply land_range, Hc|apply bit_range; lia]).
  rewrite u64_small in Esie by (do 2 (apply lor_range; [lia| |apply bit_range; lia]); apply Hlor; lia).
  split.
  - rewrite Est. apply Z.bits_inj'. intros k Hk. rewrite Z.land_spec, mpp_bits by done.
    unfold MSTATUS_MPP_MASK, MSTATUS_MPP_S.
    change (Z.shiftl 3 11) with (Z.lor (Z.shiftl 1 11) (Z.shiftl 1 12)).
    rewrite Z.lor_spec, !testbit_bit by lia.
    destruct (decide (k = 11)) as [->|]; [reflexivity|]. destruct (decide (k = 12)) as [->|]; [reflexivity|].
    rewrite (proj2 (Z.eqb_neq k 11)), (proj2 (Z.eqb_neq k 12)) by assumption. apply andb_false_r.
  - intros k Hk H1 H2. by rewrite Est, mpp_bits, !decide_False by done.
  - rewrite Epc. by apply u64_small.
  - exact Esatp.
  - exact (conj Emd Eid).
  - intros k Hk. rewrite Esie, !Z.lor_spec. unfold SIE_SEIE, SIE_STIE, SIE_SSIE.
    rewrite !testbit_bit by lia. by destruct (k =? 9), (k =? 5), (k =? 1), (Z.testbit (mc m Csie) k).
  - rewrite Emie, Eenv, Ecnt, Ecmp. change (Z.lor (mc m Cmcounteren) 2) with (Z.lor (mc m Cmcounteren) (Z.shiftl 1 1)).
    unfold MIE_STIE. rewrite !u64_small by (apply Hlor; lia).
    rewrite !Z.lor_spec, !testbit_bit, !orb_true_r by lia. auto.
  - rewrite Etp, s32_small, u64_small by (specialize (Hc Cmhartid); lia). reflexivity.
  - exact Em.
Qed.

(** C25. A hart boots as [entry.S] and [start] mean it to: it enters [start] with
    the top of its own page of [stack0] as the stack pointer, and what [start]
    does to the registers makes [mret] go to [main] in supervisor mode, with
    paging off, traps delegated, interrupts of the supervisor enabled, the
    first tick one million cycles ahead and the number of the hart in [tp].
    Memory stays as it is. *)
Theorem boot_correct stack0 main_addr m :
  (forall c, 0 <= mc m c < 2 ^ 64) -> mc m Cmhartid < 2 ^ 31 -> 0 <= main_addr < 2 ^ 64 ->
  0 <= stack0 -> stack0 + 4096 * (mc m Cmhartid + 1) < 2 ^ 64 ->
  exists m1 m2, run_code (entry_S stack0) m = Left (Wcall "start") [] m1 /\
    getx m1 sp = stack0 + 4096 * (mc m Cmhartid + 1) /\
    start x main_addr m1 = Ok tt m2 /\ booted main_addr m m2.
Proof.
  intros Hc Hh Ha Hs Hb. destruct (entry_run stack0 m) as (m1 & Er & Esp & Em & Ec); [done|apply Hc|done|].
  destruct (start_booted main_addr m1) as (m2 & Est & Hm2); [rewrite Ec; done..|done|].
  exists m1, m2. split_and!; [done..|].
  destruct Hm2. rewrite Ec, Em in *. by constructor.
Qed.
End Boot.

(** Hart 2 after a reset, in machine mode. *)
Definition hart2 : machine :=
  mkmachine (fun _ => 0)
    (fun c => match c with Cmhartid => 2 | Cmstatus => 0x1800 | Ctime => 77 | _ => 0 end) empty.

Lemma boot_correct_witness :
  exists m1 m2, run_code (entry_S 0x8000a000) hart2 = Left (Wcall "start") [] m1 /\
    getx m1 sp = 0x8000d000 /\
    start a5 0x80000ee0 m1 = Ok tt m2 /\ booted 0x80000ee0 hart2 m2.
Proof.
  apply (boot_correct a5 ltac:(discriminate) 0x8000a000 0x80000ee0 hart2).
  - by intros [].
  - reflexivity.
  - done.
  - done.
  - reflexivity.
Defined.
