(* ===== verification/Main.v ===== *)
(** * Booting

    Models [src/xv6-os/kernel/main.c] and [kvminit] and [kvminithart] of
    [vm.c]. The scheduler at the end of [main] is the one of
    [Proc.v]; [run] is what a process does between two switches. *)
From S2P Require Import Prelude CString Spinlock Layout Dll Blocks Printf Kalloc Vm Proc ProcSpec Quiet.
From S2P Require Import Console Pipe Sleeplock Bio Virtio Log Fs FsPath File ProcLife Exec Sysproc Sysfile Trap.

(** ** Supervisor mode *)

(** The kernel's state with the two variables that only booting uses. *)
Record boot := mkboot {
  bt_k : kst;
  kernel_pagetable : Z;
  started : Z;
}.

#[export] Instance sub_kst_boot : Sub kst boot := {|
  sub_get := bt_k;
  sub_put x s := mkboot x (kernel_pagetable s) (started s);
|}.

Section Main.
Context {LY : Layout} {SY : Symbols} (fuel : nat).

Definition kvminit : M boot unit :=
  let! pt := lift (S:=kst) (lift (S:=mm) kvmmake) in
  modify (fun s => mkboot (bt_k s) pt (started s)).

Definition w_satp (x : Z) : M kst unit :=
  updr (fun c => mkcsrs (stvec c) (sepc c) (scause c) (stval c) x (time c) (stimecmp c)).

Definition kvminithart : M boot unit :=
  let! pt := gets kernel_pagetable in
  lift (w_satp (MAKE_SATP pt)).

Definition main_hart0 : M boot unit :=
  lift consoleinit ;;;
  lift (S:=kst) (lift printfinit) ;;;
  lift (S:=kst) (lift (printf [newline] [])) ;;;
  lift (S:=kst) (lift (printf (str "xv6 kernel is booting" ++ [newline]) [])) ;;;
  lift (S:=kst) (lift (printf [newline] [])) ;;;
  lift (S:=kst) (lift (S:=mm) kinit) ;;;
  kvminit ;;;
  kvminithart ;;;
  lift (S:=kst) (lift procinit) ;;;
  lift trapinit ;;;
  lift trapinithart ;;;
  lift plicinit ;;;
  lift plicinithart ;;;
  lift (S:=kst) (lift (S:=vst) (lift (S:=bst) binit)) ;;;
  lift (S:=kst) (lift (S:=fsst) iinit) ;;;
  lift fileinit ;;;
  lift (S:=kst) (lift (S:=vst) virtio_disk_init) ;;;
  lift (S:=kst) (userinit fuel) ;;;
  modify (fun s => mkboot (bt_k s) (kernel_pagetable s) 1).

(** The other harts spin until [started] is set. *)
Definition main_hart : M boot unit :=
  let! st := gets started in
  if st =? 0 then spin
  else
    let! id := lift (S:=kst) (lift cpuid) in
    lift (S:=kst) (lift (printf (str "hart %d starting" ++ [newline]) [PNum (Z.of_nat id)])) ;;;
    kvminithart ;;;
    lift trapinithart ;;;
    lift plicinithart.

Definition main (run : nat -> M pst unit) (rounds : nat) : M boot unit :=
  let! id := lift (S:=kst) (lift cpuid) in
  (if Z.of_nat id =? 0 then main_hart0 else main_hart) ;;;
  lift (S:=kst) (lift (scheduler run rounds)).
End Main.
