(* ===== verification/Utils.v ===== *)
(** * Small user programs

    Models [cat.c], [wc.c], [ls.c], [echo.c], [rm.c], [mkdir.c], [ln.c],
    [kill.c], [zombie.c] and [init.c] of [src/xv6-os/user/]. The list [argv]
    includes the name of the program. *)
From S2P Require Import Prelude CString Blocks Printf User Fs FsPath Sysfile Grep.

Definition nlmsg (s : string) : list Z := str s ++ [nl].

(** ** cat *)

Definition CAT_BUF : Z := 512.

Fixpoint cat (fuel : nat) (fd : Z) : prog unit :=
  match fuel with
  | O => NoFuel
  | S fuel =>
      do r <- call (Sread fd CAT_BUF);
      if 0 <? r.1 then
        do w <- call (Swrite 1 r.2);
        if negb (w =? r.1) then
          u_fprintf 2 (nlmsg "cat: write error") [] ,,
          Exit 1
        else cat fuel fd
      else if r.1 <? 0 then
        u_fprintf 2 (nlmsg "cat: read error") [] ,,
        Exit 1
      else Ret tt
  end.

Fixpoint cat_files (fuel : nat) (files : list (list Z)) : prog unit :=
  match files with
  | [] => Exit 0
  | f :: files =>
      do fd <- call (Sopen f O_RDONLY);
      if fd <? 0 then
        u_fprintf 2 (nlmsg "cat: cannot open %s") [PStr (Some f)] ,,
        Exit 1
      else
        cat fuel fd ,,
        call (Sclose fd) ,,
        cat_files fuel files
  end.

Definition cat_main (fuel : nat) (argv : list (list Z)) : prog unit :=
  match argv with
  | [] | [_] => cat fuel 0 ,, Exit 0
  | _ :: files => cat_files fuel files
  end.

(** ** wc *)

Definition WC_BUF : Z := 512.

(** The counters [l], [w], [c] and [inword]. *)
Record wcs := mkwcs { wc_l : Z; wc_w : Z; wc_c : Z; wc_inword : bool }.

(** [strchr] finds no NUL. *)
Definition wc_space (c : Z) : bool :=
  (c =? 32) || (c =? 13) || (c =? 9) || (c =? 10) || (c =? 11).

Definition wc_char (st : wcs) (b : Z) : wcs :=
  let c := s32 (wc_c st + 1) in
  let l := if b =? nl then s32 (wc_l st + 1) else wc_l st in
  if wc_space b then mkwcs l (wc_w st) c false
  else if negb (wc_inword st) then mkwcs l (s32 (wc_w st + 1)) c true
  else mkwcs l (wc_w st) c (wc_inword st).

Fixpoint wc_loop (fuel : nat) (fd : Z) (st : wcs) : prog (Z * wcs) :=
  match fuel with
  | O => NoFuel
  | S fuel =>
      do r <- call (Sread fd WC_BUF);
      if 0 <? r.1 then wc_loop fuel fd (foldl wc_char st r.2)
      else Ret (r.1, st)
  end.

Definition wc (fuel : nat) (fd : Z) (name : list Z) : prog unit :=
  do r <- wc_loop fuel fd (mkwcs 0 0 0 false);
  if r.1 <? 0 then
    u_printf (nlmsg "wc: read error") [] ,,
    Exit 1
  else
    u_printf (nlmsg "%d %d %d %s") [PNum (wc_l r.2); PNum (wc_w r.2); PNum (wc_c r.2); PStr (Some name)].

Fixpoint wc_files (fuel : nat) (files : list (list Z)) : prog unit :=
  match files with
  | [] => Exit 0
  | f :: files =>
      do fd <- call (Sopen f O_RDONLY);
      if fd <? 0 then
        u_printf (nlmsg "wc: cannot open %s") [PStr (Some f)] ,,
        Exit 1
      else
        wc fuel fd f ,,
        call (Sclose fd) ,,
        wc_files fuel files
  end.

Definition wc_main (fuel : nat) (argv : list (list Z)) : prog unit :=
  match argv with
  | [] | [_] => wc fuel 0 [] ,, Exit 0
  | _ :: files => wc_files fuel files
  end.

(** ** ls *)

(** The part of the path after the last slash. *)
Fixpoint after_slash (path last : list Z) : list Z :=
  match path with
  | [] => last
  | c :: path => after_slash path (if c =? slash then path else last)
  end.

(** [buf] is the static buffer: [DIRSIZ] bytes and a NUL that stays. *)
Definition fmtname (path : list Z) : list Z :=
  let p := after_slash path path in
  if DIRSIZ <=? zlen p then p else p ++ replicate (Z.to_nat (DIRSIZ - zlen p)) 32.

Definition LS_BUF : Z := 512.

Definition ls_line (name : list Z) (st : ustat) : prog unit :=
  u_printf (nlmsg "%s %d %d %d")
    [PStr (Some (fmtname name)); PNum (us_type st); PNum (us_ino st); PNum (s32 (us_size st))].

(** The bytes of an array up to a NUL. *)
Fixpoint upto_nul (l : list Z) : list Z :=
  match l with
  | [] => []
  | c :: l => if c =? 0 then [] else c :: upto_nul l
  end.

(** The entries of a directory. *)
Fixpoint ls_dir (fuel : nat) (fd : Z) (path : list Z) : prog unit :=
  match fuel with
  | O => NoFuel
  | S fuel =>
      do r <- call (Sread fd sizeof_dirent);
      if negb (r.1 =? sizeof_dirent) then Ret tt
      else if de_inum r.2 =? 0 then ls_dir fuel fd path
      else
        let buf := path ++ [slash] ++ upto_nul (de_name r.2) in
        do s <- u_stat buf;
        (if s.1 <? 0 then u_printf (nlmsg "ls: cannot stat %s") [PStr (Some buf)]
         else ls_line buf s.2) ,,
        ls_dir fuel fd path
  end.

Definition ls (fuel : nat) (path : list Z) : prog unit :=
  do fd <- call (Sopen path O_RDONLY);
  if fd <? 0 then u_fprintf 2 (nlmsg "ls: cannot open %s") [PStr (Some path)]
  else
    do r <- call (Sfstat fd);
    if r.1 <? 0 then
      u_fprintf 2 (nlmsg "ls: cannot stat %s") [PStr (Some path)] ,,
      call (Sclose fd) ,,
      Ret tt
    else
      let st := r.2 in
      (if (us_type st =? T_DEVICE) || (us_type st =? T_FILE) then ls_line path st
       else if us_type st =? T_DIR then
         if LS_BUF <? zlen path + 1 + DIRSIZ + 1 then u_printf (nlmsg "ls: path too long") []
         else ls_dir fuel fd path
       else Ret tt) ,,
      call (Sclose fd) ,,
      Ret tt.

Fixpoint ls_args (fuel : nat) (l : list (list Z)) : prog unit :=
  match l with
  | [] => Exit 0
  | p :: l => ls fuel p ,, ls_args fuel l
  end.

Definition ls_main (fuel : nat) (argv : list (list Z)) : prog unit :=
  match argv with
  | [] | [_] => ls fuel (str ".") ,, Exit 0
  | _ :: l => ls_args fuel l
  end.

(** ** The others *)

Fixpoint echo_args (l : list (list Z)) : prog unit :=
  match l with
  | [] => Exit 0
  | a :: l =>
      call (Swrite 1 a) ,,
      call (Swrite 1 (match l with [] => [nl] | _ => str " " end)) ,,
      echo_args l
  end.

Definition echo_main (argv : list (list Z)) : prog unit := echo_args (tl argv).

Fixpoint each_arg (f : list Z -> sys Z) (msg : list Z) (l : list (list Z)) : prog unit :=
  match l with
  | [] => Exit 0
  | a :: l =>
      do r <- call (f a);
      if r <? 0 then
        u_fprintf 2 msg [PStr (Some a)] ,,
        Exit 0
      else each_arg f msg l
  end.

Definition rm_main (argv : list (list Z)) : prog unit :=
  match argv with
  | [] | [_] => u_fprintf 2 (nlmsg "Usage: rm files...") [] ,, Exit 1
  | _ :: l => each_arg Sunlink (nlmsg "rm: %s failed to delete") l
  end.

Definition mkdir_main (argv : list (list Z)) : prog unit :=
  match argv with
  | [] | [_] => u_fprintf 2 (nlmsg "Usage: mkdir files...") [] ,, Exit 1
  | _ :: l => each_arg Smkdir (nlmsg "mkdir: %s failed to create") l
  end.

Definition ln_main (argv : list (list Z)) : prog unit :=
  match argv with
  | [_; old; new] =>
      do r <- call (Slink old new);
      (if r <? 0 then u_fprintf 2 (nlmsg "link %s %s: failed") [PStr (Some old); PStr (Some new)]
       else Ret tt) ,,
      Exit 0
  | _ => u_fprintf 2 (nlmsg "Usage: ln old new") [] ,, Exit 1
  end.

(** [atoi] on a string. *)
Fixpoint atoi_list (s : list Z) (n : Z) : Z :=
  match s with
  | c :: s => if (48 <=? c) && (c <=? 57) then atoi_list s (s32 (n * 10 + c - 48)) else n
  | [] => n
  end.

Fixpoint kill_args (l : list (list Z)) : prog unit :=
  match l with
  | [] => Exit 0
  | a :: l =>
      call (Skill (atoi_list a 0)) ,,
      kill_args l
  end.

Definition kill_main (argv : list (list Z)) : prog unit :=
  match argv with
  | [] | [_] => u_fprintf 2 (nlmsg "usage: kill pid...") [] ,, Exit 1
  | _ :: l => kill_args l
  end.

Definition zombie_main : prog unit :=
  do pid <- call Sfork;
  (if 0 <? pid then call (Ssleep 5) ,, Ret tt else Ret tt) ,,
  Exit 0.

(** ** init *)

Definition CONSOLE_MAJOR : Z := 1.

(** The inner loop, until the shell exits. *)
Fixpoint init_wait (fuel : nat) (pid : Z) : prog unit :=
  match fuel with
  | O => NoFuel
  | S fuel =>
      do wpid <- call Swait;
      if wpid =? pid then Ret tt
      else if wpid <? 0 then
        u_printf (nlmsg "init: wait returned an error") [] ,,
        Exit 1
      else init_wait fuel pid
  end.

Fixpoint init_loop (fuel : nat) : prog unit :=
  match fuel with
  | O => NoFuel
  | S fuel =>
      u_printf (nlmsg "init: starting sh") [] ,,
      do pid <- call Sfork;
      if pid <? 0 then
        u_printf (nlmsg "init: fork failed") [] ,,
        Exit 1
      else if pid =? 0 then
        call (Sexec (str "sh") [str "sh"]) ,,
        u_printf (nlmsg "init: exec sh failed") [] ,,
        Exit 1
      else
        init_wait fuel pid ,,
        init_loop fuel
  end.

Definition init_main (fuel : nat) : prog unit :=
  do fd <- call (Sopen (str "console") O_RDWR);
  (if fd <? 0 then
     call (Smknod (str "console") CONSOLE_MAJOR 0) ,,
     call (Sopen (str "console") O_RDWR) ,,
     Ret tt
   else Ret tt) ,,
  call (Sdup 0) ,,
  call (Sdup 0) ,,
  init_loop fuel.
