(* ===== verification/UtilsSpec.v ===== *)
(** * Correctness of cat and wc *)
From S2P Require Import Prelude CString Blocks Printf User Grep Utils.

(** ** cat *)

(** What was written to descriptor 1. *)
Definition written (l : list (Z * list Z)) : list Z := concat (map snd l).

(** cat copies its input: whatever the pieces are in which the input
    arrives, it ends, all its writes go to descriptor 1, and together they are
    the input, to the last byte. *)
Theorem cat_correct (fd : Z) (fuel : nat) (s : stream) :
  (length (st_in s) < fuel)%nat ->
  exists s' out, run stream_handler (cat fuel fd) s = (Returned tt, s') /\
    st_in s' = [] /\ st_out s' = st_out s ++ out /\
    Forall (fun w => w.1 = 1) out /\ written out = st_in s.
Proof.
  revert s. induction fuel as [|fuel IH]; intros s Hf; [lia|].
  cbn [cat]. rewrite run_call. cbn [stream_handler fst snd].
  pose proof (read_size_bounds s CAT_BUF) as [Hm1 Hm2]. set (m := read_size s CAT_BUF) in *.
  destruct (decide (st_in s = [])) as [Hin|Hin].
  - assert (Hm0 : m = 0) by (rewrite Hin in Hm1; unfold zlen in Hm1; cbn in Hm1; lia).
    rewrite Hm0. cbn. eexists _, []. rewrite Hin. split_and!; [done|done|by rewrite app_nil_r|done..].
  - pose proof (read_size_pos s CAT_BUF ltac:(done) Hin) as Hpos. fold m in Hpos.
    replace (0 <? m) with true by lia. rewrite run_call. cbn [stream_handler fst snd].
    assert (Hz : zlen (take (Z.to_nat m) (st_in s)) = m) by apply zlen_take_read.
    rewrite Hz, Z.eqb_refl. cbn [negb].
    edestruct (IH (mkstream (drop (Z.to_nat m) (st_in s)) (tl (st_sizes s))
        (st_out s ++ [(1, take (Z.to_nat m) (st_in s))]))) as (s' & out & Hrun & Hin' & Hout & Hfd & Hw).
    { cbn. rewrite length_drop. unfold zlen in *; lia. }
    exists s', ((1, take (Z.to_nat m) (st_in s)) :: out). cbn [st_in st_out] in *. split_and!.
    + exact Hrun.
    + exact Hin'.
    + by rewrite Hout, <-app_assoc.
    + by constructor.
    + unfold written in *. cbn. rewrite Hw. apply take_drop.
Qed.

Definition cat_example : stream := mkstream (str "hello") [2; 1; 5] [].

Lemma cat_correct_witness :
  exists s' out, run stream_handler (cat 10 0) cat_example = (Returned tt, s') /\
    st_in s' = [] /\ st_out s' = st_out cat_example ++ out /\
    Forall (fun w => w.1 = 1) out /\ written out = str "hello".
Proof. apply (cat_correct 0 10 cat_example). vm_compute. lia. Defined.

(** ** wc *)

(** The number of words, the maximal runs of characters that are not spaces;
    [inword] is whether the text goes on in the middle of one. *)
Fixpoint words (inword : bool) (l : list Z) : Z :=
  match l with
  | [] => 0
  | c :: l => (if negb (wc_space c) && negb inword then 1 else 0) + words (negb (wc_space c)) l
  end.

Definition newlines (l : list Z) : Z := zlen (List.filter (Z.eqb nl) l).

Lemma words_bounds b l : 0 <= words b l <= zlen l.
Proof.
  unfold zlen. revert b. induction l as [|c l IH]; intros b; cbn [words length]; [lia|].
  specialize (IH (negb (wc_space c))). destruct (negb (wc_space c) && negb b); lia.
Qed.

Lemma newlines_bounds l : 0 <= newlines l <= zlen l.
Proof.
  unfold newlines, zlen. induction l as [|c l IH]; cbn [List.filter length]; [lia|].
  destruct (nl =? c); cbn [length]; lia.
Qed.

Lemma newlines_cons c l : newlines (c :: l) = (if c =? nl then 1 else 0) + newlines l.
Proof.
  unfold newlines, zlen. cbn [List.filter]. rewrite (Z.eqb_sym nl c).
  destruct (c =? nl); cbn [length]; lia.
Qed.

Lemma wc_chars st l :
  0 <= wc_l st -> 0 <= wc_w st -> 0 <= wc_c st ->
  wc_l st + zlen l < 2 ^ 31 -> wc_w st + zlen l < 2 ^ 31 -> wc_c st + zlen l < 2 ^ 31 ->
  let st' := foldl wc_char st l in
  wc_l st' = wc_l st + newlines l /\ wc_w st' = wc_w st + words (wc_inword st) l /\
  wc_c st' = wc_c st + zlen l /\ forall k, words (wc_inword st) (l ++ k) = words (wc_inword st) l + words (wc_inword st') k.
Proof.
  revert st. induction l as [|c l IH]; intros st H1 H2 H3 H4 H5 H6; cbn zeta.
  - cbn. unfold newlines, zlen. cbn. split_and!; lia.
  - assert (Hz : zlen (c :: l) = 1 + zlen l) by (unfold zlen; cbn [length]; lia).
    assert (Hz0 : 0 <= zlen l) by (unfold zlen; lia).
    change (foldl wc_char st (c :: l)) with (foldl wc_char (wc_char st c) l).
    assert (Hc : wc_c (wc_char st c) = wc_c st + 1 /\
      wc_l (wc_char st c) = wc_l st + (if c =? nl then 1 else 0) /\
      wc_w (wc_char st c) = wc_w st + (if negb (wc_space c) && negb (wc_inword st) then 1 else 0) /\
      wc_inword (wc_char st c) = negb (wc_space c)).
    { unfold wc_char. destruct (wc_space c), (wc_inword st) eqn:Hi, (c =? nl); cbn;
        rewrite ?(s32_small (wc_c st + 1)), ?(s32_small (wc_l st + 1)), ?(s32_small (wc_w st + 1)) by lia;
        split_and!; first [lia|done]. }
    destruct Hc as (Hc1 & Hc2 & Hc3 & Hc4).
    destruct (IH (wc_char st c)) as (I1 & I2 & I3 & I4);
      try (rewrite ?Hc1, ?Hc2, ?Hc3; destruct (c =? nl), (negb (wc_space c) && negb (wc_inword st)); lia).
    rewrite Hc4 in I2, I4. rewrite newlines_cons. cbn [words app]. split_and!; [lia..|].
    intros k. rewrite (I4 k). lia.
Qed.

Lemma wc_loop_spec fuel fd st s :
  0 <= wc_l st -> 0 <= wc_w st -> 0 <= wc_c st ->
  wc_l st + zlen (st_in s) < 2 ^ 31 -> wc_w st + zlen (st_in s) < 2 ^ 31 ->
  wc_c st + zlen (st_in s) < 2 ^ 31 -> (length (st_in s) < fuel)%nat ->
  exists s' b, run stream_handler (wc_loop fuel fd st) s =
    (Returned (0, mkwcs (wc_l st + newlines (st_in s)) (wc_w st + words (wc_inword st) (st_in s))
                    (wc_c st + zlen (st_in s)) b), s') /\
    st_in s' = [] /\ st_out s' = st_out s.
Proof.
  revert st s. induction fuel as [|fuel IH]; intros st s H1 H2 H3 H4 H5 H6 Hf; [lia|].
  cbn [wc_loop]. rewrite run_call. cbn [stream_handler fst snd].
  pose proof (read_size_bounds s WC_BUF) as [Hm1 Hm2]. set (m := read_size s WC_BUF) in *.
  destruct (decide (st_in s = [])) as [Hin|Hin].
  - assert (Hm0 : m = 0) by (rewrite Hin in Hm1; unfold zlen in Hm1; cbn in Hm1; lia).
    rewrite Hm0, Hin. unfold newlines, zlen. cbn. rewrite !Z.add_0_r.
    eexists _, (wc_inword st). split_and!; [by destruct st|done..].
  - pose proof (read_size_pos s WC_BUF ltac:(done) Hin) as Hpos. fold m in Hpos.
    replace (0 <? m) with true by lia.
    set (a := take (Z.to_nat m) (st_in s)). set (b := drop (Z.to_nat m) (st_in s)).
    assert (Hab : st_in s = a ++ b) by (symmetry; apply take_drop).
    assert (Hlen : zlen (st_in s) = zlen a + zlen b) by (rewrite Hab; unfold zlen; rewrite length_app; lia).
    assert (0 <= zlen b) by (unfold zlen; lia).
    assert (Hza : zlen a = m) by apply zlen_take_read.
    destruct (wc_chars st a) as (I1 & I2 & I3 & I4); [lia..|].
    pose proof (words_bounds (wc_inword st) a). pose proof (newlines_bounds a).
    edestruct (IH (foldl wc_char st a) (mkstream b (tl (st_sizes s)) (st_out s))) as (s' & b' & Hrun & Hi & Ho);
      cbn [st_in]; try lia.
    { subst b. rewrite length_drop. unfold zlen in *. lia. }
    exists s', b'. cbn [st_in st_out] in *. split_and!; [|done..].
    assert (Hn : newlines (st_in s) = newlines a + newlines b).
    { rewrite Hab. unfold newlines, zlen. rewrite List.filter_app, length_app. lia. }
    assert (Hw : words (wc_inword st) (st_in s) =
      words (wc_inword st) a + words (wc_inword (foldl wc_char st a)) b) by (rewrite Hab at 1; apply I4).
    by rewrite Hrun, I1, I2, I3, Hn, Hw, Hlen, !Z.add_assoc.
Qed.

Definition wc_format : list Z := nlmsg "%d %d %d %s".

(** wc counts right: for an input shorter than [2 ^ 31] bytes, in
    whatever pieces it arrives, it reads all of it and prints the number of its
    newlines, of its words (the maximal runs of characters that are not
    spaces, also across pieces) and of its bytes. *)
Theorem wc_correct (fuel : nat) (fd : Z) (name : list Z) (s : stream) :
  zlen (st_in s) < 2 ^ 31 -> (length (st_in s) < fuel)%nat ->
  exists s', st_in s' = [] /\ st_out s' = st_out s /\
    run stream_handler (wc fuel fd name) s =
    run stream_handler (u_printf wc_format
      [PNum (newlines (st_in s)); PNum (words false (st_in s)); PNum (zlen (st_in s));
       PStr (Some name)]) s'.
Proof.
  intros Hlen Hf.
  destruct (wc_loop_spec fuel fd (mkwcs 0 0 0 false) s) as (s' & b & Hrun & Hi & Ho); cbn; try lia.
  exists s'. split_and!; [done..|]. unfold wc. rewrite run_bind, Hrun. done.
Qed.

Definition wc_example : stream := mkstream (str "ab c" ++ [nl] ++ str " d") [1; 3] [].

Lemma wc_correct_witness :
  exists s', st_in s' = [] /\ st_out s' = st_out wc_example /\
    run stream_handler (wc 10 0 (str "f")) wc_example =
    run stream_handler (u_printf wc_format [PNum 1; PNum 3; PNum 7; PStr (Some (str "f"))]) s'.
Proof. apply (wc_correct 10 0 (str "f") wc_example); vm_compute; lia || done. Defined.
