(* ===== verification/Grind.v ===== *)
(** * The random system calls of grind

    Models [src/xv6-os/user/grind.c]: the random number generator, the loop of
    random system calls that two processes run, and the programs around it.
    The loops [while(1)] run on fuel. *)
From S2P Require Import Prelude CString Blocks Printf User Fs FsPath Sysfile Grep Utils.

(** ** The generator *)

(** The result, an [int], and the new [*ctx], an [unsigned long]. *)
Definition do_rand (ctx : Z) : Z * Z :=
  let x := ctx mod 0x7ffffffe + 1 in
  let hi := Z.quot x 127773 in
  let lo := Z.rem x 127773 in
  let x := 16807 * lo - 2836 * hi in
  let x := if x <? 0 then x + 0x7fffffff else x in
  let x := x - 1 in
  (s32 x, u64 x).

Definition rand_next0 : Z := 1.

(** ** The calls of a round *)

(** The variables of [go]: [fd], the static [buf] and the global
    [rand_next]. *)
Record gst := mkgst { g_fd : Z; g_buf : list Z; g_rand : Z }.

Definition set_g_fd (fd : Z) (g : gst) : gst := mkgst fd (g_buf g) (g_rand g).
Definition set_g_buf (b : list Z) (g : gst) : gst := mkgst (g_fd g) b (g_rand g).

Definition O_CRW : Z := Z.lor O_CREATE O_RDWR.

Definition close_open (path : list Z) : prog unit :=
  do fd <- call (Sopen path O_CRW);
  call (Sclose fd) ,,
  Ret tt.

Definition chdir_grindir : prog unit :=
  do r <- call (Schdir (str "grindir"));
  if negb (r =? 0) then
    u_printf (nlmsg "grind: chdir grindir failed") [] ,,
    Exit 1
  else Ret tt.

(** What is read overwrites the start of the buffer. *)
Definition overwrite (bs buf : list Z) : list Z := bs ++ drop (length bs) buf.

(** Rounds 1 to 12: files and directories. *)
Definition go_files (what : Z) (g : gst) : prog gst :=
  if what =? 1 then close_open (str "grindir/../a") ,, Ret g
  else if what =? 2 then close_open (str "grindir/../grindir/../b") ,, Ret g
  else if what =? 3 then call (Sunlink (str "grindir/../a")) ,, Ret g
  else if what =? 4 then
    chdir_grindir ,,
    call (Sunlink (str "../b")) ,,
    call (Schdir (str "/")) ,,
    Ret g
  else if what =? 5 then
    call (Sclose (g_fd g)) ,,
    do fd <- call (Sopen (str "/grindir/../a") O_CRW);
    Ret (set_g_fd fd g)
  else if what =? 6 then
    call (Sclose (g_fd g)) ,,
    do fd <- call (Sopen (str "/./grindir/./../b") O_CRW);
    Ret (set_g_fd fd g)
  else if what =? 7 then call (Swrite (g_fd g) (g_buf g)) ,, Ret g
  else if what =? 8 then
    do r <- call (Sread (g_fd g) 999);
    Ret (set_g_buf (overwrite r.2 (g_buf g)) g)
  else if what =? 9 then
    call (Smkdir (str "grindir/../a")) ,,
    close_open (str "a/../a/./a") ,,
    call (Sunlink (str "a/a")) ,,
    Ret g
  else if what =? 10 then
    call (Smkdir (str "/../b")) ,,
    close_open (str "grindir/../b/b") ,,
    call (Sunlink (str "b/b")) ,,
    Ret g
  else if what =? 11 then
    call (Sunlink (str "b")) ,,
    call (Slink (str "../grindir/./../a") (str "../b")) ,,
    Ret g
  else
    call (Sunlink (str "../grindir/../a")) ,,
    call (Slink (str ".././b") (str "/grindir/../a")) ,,
    Ret g.

(** A child that runs [child]; the parent goes on with its pid. *)
Definition fork_child (child : prog unit) : prog Z :=
  do pid <- call Sfork;
  if pid =? 0 then child ,, Exit 0
  else if pid <? 0 then
    u_printf (nlmsg "grind: fork failed") [] ,,
    Exit 1
  else Ret pid.

(** Rounds 13 to 20: processes, memory and pipes. *)
Definition go_procs (what break0 : Z) (g : gst) : prog gst :=
  if what =? 13 then
    fork_child (Ret tt) ,,
    call Swait ,,
    Ret g
  else if what =? 14 then
    fork_child (call Sfork ,, call Sfork ,, Ret tt) ,,
    call Swait ,,
    Ret g
  else if what =? 15 then call (Ssbrk 6011) ,, Ret g
  else if what =? 16 then
    do a <- call (Ssbrk 0);
    if u64 break0 <? u64 a then
      do a <- call (Ssbrk 0);
      call (Ssbrk (s32 (- (a - break0)))) ,,
      Ret g
    else Ret g
  else if what =? 17 then
    do pid <- fork_child (close_open (str "a"));
    do r <- call (Schdir (str "../grindir/.."));
    if negb (r =? 0) then
      u_printf (nlmsg "grind: chdir failed") [] ,,
      Exit 1
    else
      call (Skill pid) ,,
      call Swait ,,
      Ret g
  else if what =? 18 then
    fork_child (do pid <- call Sgetpid; call (Skill pid) ,, Ret tt) ,,
    call Swait ,,
    Ret g
  else if what =? 19 then
    do p <- call Spipe;
    let '(r, (fd0, fd1)) := p in
    if r <? 0 then
      u_printf (nlmsg "grind: pipe failed") [] ,,
      Exit 1
    else
      fork_child
        (call Sfork ,,
         call Sfork ,,
         do w <- call (Swrite fd1 (str "x"));
         (if negb (w =? 1) then u_printf (nlmsg "grind: pipe write failed") [] else Ret tt) ,,
         do c <- call (Sread fd0 1);
         (if negb (c.1 =? 1) then u_printf (nlmsg "grind: pipe read failed") [] else Ret tt)) ,,
      call (Sclose fd0) ,,
      call (Sclose fd1) ,,
      call Swait ,,
      Ret g
  else
    fork_child
      (call (Sunlink (str "a")) ,,
       call (Smkdir (str "a")) ,,
       call (Schdir (str "a")) ,,
       call (Sunlink (str "../a")) ,,
       call (Sopen (str "x") O_CRW) ,,
       call (Sunlink (str "x")) ,,
       Ret tt) ,,
    call Swait ,,
    Ret g.

Definition fail (msg : list Z) (args : list parg) : prog unit :=
  u_printf msg args ,,
  Exit 1.

(** Round 21: a file of one byte. *)
Definition go_check : prog unit :=
  call (Sunlink (str "c")) ,,
  do fd1 <- call (Sopen (str "c") O_CRW);
  (if fd1 <? 0 then fail (nlmsg "grind: create c failed") [] else Ret tt) ,,
  do w <- call (Swrite fd1 (str "x"));
  (if negb (w =? 1) then fail (nlmsg "grind: write c failed") [] else Ret tt) ,,
  do r <- call (Sfstat fd1);
  (if negb (r.1 =? 0) then fail (nlmsg "grind: fstat failed") [] else Ret tt) ,,
  let st := r.2 in
  (if negb (us_size st =? 1)
   then fail (nlmsg "grind: fstat reports wrong size %d") [PNum (s32 (us_size st))] else Ret tt) ,,
  (if 200 <? us_ino st
   then fail (nlmsg "grind: fstat reports crazy i-number %d") [PNum (us_ino st)] else Ret tt) ,,
  call (Sclose fd1) ,,
  call (Sunlink (str "c")) ,,
  Ret tt.

(** Round 22: [echo hi | cat]. *)
Definition efail (msg : list Z) (st : Z) : prog unit :=
  u_fprintf 2 msg [] ,,
  Exit st.

(** [dup(fd)] must give [want]. *)
Definition dup_to (fd want st : Z) : prog unit :=
  do d <- call (Sdup fd);
  if negb (d =? want) then efail (nlmsg "grind: dup failed") st else Ret tt.

Definition pipe_ends : prog (Z * Z) :=
  do p <- call Spipe;
  (if p.1 <? 0 then efail (nlmsg "grind: pipe failed") 1 else Ret tt) ,,
  Ret p.2.

Definition go_echo (aa bb : Z * Z) : prog unit :=
  call (Sclose bb.1) ,,
  call (Sclose bb.2) ,,
  call (Sclose aa.1) ,,
  call (Sclose 1) ,,
  dup_to aa.2 1 1 ,,
  call (Sclose aa.2) ,,
  call (Sexec (str "grindir/../echo") [str "echo"; str "hi"]) ,,
  efail (nlmsg "grind: echo: not found") 2.

Definition go_cat (aa bb : Z * Z) : prog unit :=
  call (Sclose aa.2) ,,
  call (Sclose bb.1) ,,
  call (Sclose 0) ,,
  dup_to aa.1 0 4 ,,
  call (Sclose aa.1) ,,
  call (Sclose 1) ,,
  dup_to bb.2 1 5 ,,
  call (Sclose bb.2) ,,
  call (Sexec (str "/cat") [str "cat"]) ,,
  efail (nlmsg "grind: cat: not found") 6.

Definition go_pipeline : prog unit :=
  do aa <- pipe_ends;
  do bb <- pipe_ends;
  do pid1 <- call Sfork;
  (if pid1 =? 0 then go_echo aa bb
   else if pid1 <? 0 then efail (nlmsg "grind: fork failed") 3
   else Ret tt) ,,
  do pid2 <- call Sfork;
  (if pid2 =? 0 then go_cat aa bb
   else if pid2 <? 0 then efail (nlmsg "grind: fork failed") 7
   else Ret tt) ,,
  call (Sclose aa.1) ,,
  call (Sclose aa.2) ,,
  call (Sclose bb.2) ,,
  let buf := [0; 0; 0; 0] in
  do r <- call (Sread bb.1 1);
  let buf := overwrite r.2 buf in
  do r <- call (Sread bb.1 1);
  let buf := take 1 buf ++ overwrite r.2 (drop 1 buf) in
  do r <- call (Sread bb.1 1);
  let buf := take 2 buf ++ overwrite r.2 (drop 2 buf) in
  call (Sclose bb.1) ,,
  do w1 <- call Swaitst;
  do w2 <- call Swaitst;
  if negb (w1.2 =? 0) || negb (w2.2 =? 0) || negb (bool_decide (upto_nul buf = nlmsg "hi"))
  then fail (str "grind: exec pipeline failed %d %d " ++ [34] ++ str "%s" ++ [34; nl])
         [PNum w1.2; PNum w2.2; PStr (Some (upto_nul buf))]
  else Ret tt.

(** ** The program *)

(** The rounds of [go]; [iters] counts them. *)
Fixpoint go_loop (fuel : nat) (which_child break0 iters : Z) (g : gst) : prog unit :=
  match fuel with
  | O => NoFuel
  | S fuel =>
      let iters := u64 (iters + 1) in
      (if iters mod 500 =? 0
       then call (Swrite 1 (if negb (which_child =? 0) then str "B" else str "A")) ,, Ret tt
       else Ret tt) ,,
      let r := do_rand (g_rand g) in
      let g := mkgst (g_fd g) (g_buf g) r.2 in
      let what := Z.rem r.1 23 in
      do g <- (if (1 <=? what) && (what <=? 12) then go_files what g
               else if (13 <=? what) && (what <=? 20) then go_procs what break0 g
               else if what =? 21 then go_check ,, Ret g
               else if what =? 22 then go_pipeline ,, Ret g
               else Ret g);
      go_loop fuel which_child break0 iters g
  end.

Definition go (fuel : nat) (which_child rand_next : Z) : prog unit :=
  do break0 <- call (Ssbrk 0);
  call (Smkdir (str "grindir")) ,,
  chdir_grindir ,,
  call (Schdir (str "/")) ,,
  go_loop fuel which_child break0 0 (mkgst (-1) (replicate 999 0) rand_next).

Definition grind_iter (fuel : nat) (rand_next : Z) : prog unit :=
  call (Sunlink (str "a")) ,,
  call (Sunlink (str "b")) ,,
  do pid1 <- call Sfork;
  if pid1 <? 0 then fail (nlmsg "grind: fork failed") []
  else if pid1 =? 0 then go fuel 0 (Z.lxor rand_next 31) ,, Exit 0
  else
    do pid2 <- call Sfork;
    if pid2 <? 0 then fail (nlmsg "grind: fork failed") []
    else if pid2 =? 0 then go fuel 1 (Z.lxor rand_next 7177) ,, Exit 0
    else
      do w1 <- call Swaitst;
      (if negb (w1.2 =? 0) then
         call (Skill pid1) ,,
         call (Skill pid2) ,,
         Ret tt
       else Ret tt) ,,
      call Swaitst ,,
      Exit 0.

Fixpoint grind_main (fuel : nat) (rand_next : Z) : prog unit :=
  match fuel with
  | O => NoFuel
  | S fuel =>
      do pid <- call Sfork;
      if pid =? 0 then grind_iter fuel rand_next ,, Exit 0
      else
        (if 0 <? pid then call Swait ,, Ret tt else Ret tt) ,,
        call (Ssleep 20) ,,
        grind_main fuel (u64 (rand_next + 1))
  end.
