(* ===== verification/GrindSpec.v ===== *)
(** * The random numbers of grind

    [do_rand] of src/xv6-os/user/grind.c is the generator of Park and Miller:
    it computes [16807 * x mod (2^31 - 1)] without overflow, and its states
    form one cycle of all 2^31 - 2 values. *)
From S2P Require Import Prelude CString Blocks Printf User Fs FsPath Sysfile Grep Utils Grind.
From Stdlib Require Import Znumtheory Zpow_facts.

Definition rand_mod : Z := 2147483647.

(** The state of the generator after a call. *)
Definition rand_step (ctx : Z) : Z := (do_rand ctx).2.

(** Schrage's decomposition computes the product without overflow. *)
Lemma schrage x :
  1 <= x < rand_mod ->
  let y := 16807 * Z.rem x 127773 - 2836 * Z.quot x 127773 in
  - rand_mod < y < rand_mod /\
  (if y <? 0 then y + rand_mod else y) = (16807 * x) mod rand_mod.
Proof.
  unfold rand_mod. intros Hx. rewrite Z.rem_mod_nonneg, Z.quot_div_nonneg by lia. cbv zeta.
  pose proof (Z.div_mod x 127773 ltac:(lia)) as E. pose proof (Z.mod_pos_bound x 127773 ltac:(lia)).
  set (hi := x / 127773) in *. set (lo := x mod 127773) in *. clearbody hi lo.
  assert (0 <= hi <= 16807) by lia. split; [lia|].
  destruct (Z.ltb_spec (16807 * lo - 2836 * hi) 0).
  - apply (Z.mod_unique _ _ (hi - 1)); lia.
  - apply (Z.mod_unique _ _ hi); lia.
Qed.

(** ** Primes by trial division *)

Fixpoint no_divisor (k : nat) (d m : Z) : bool :=
  match k with
  | O => true
  | S k => (negb (m mod d =? 0) || (m <=? d)) && no_divisor k (d + 1) m
  end.

Lemma no_divisor_spec k d m x :
  no_divisor k d m = true -> d <= x < d + Z.of_nat k -> x < m -> 0 < d -> ~ (x | m).
Proof.
  revert d. induction k as [|k IH]; intros d; cbn [no_divisor]; [lia|].
  intros [H1 H2]%andb_true_iff Hx Hm Hd. destruct (decide (x = d)) as [->|]; [|apply (IH (d + 1)); (done || lia)].
  rewrite orb_true_iff, negb_true_iff, Z.eqb_neq, Z.leb_le in H1. intros Hdiv.
  destruct H1 as [H1|]; [|lia]. by apply H1, Z.mod_divide; [lia|].
Qed.

Lemma prime_check k m :
  1 < m < (Z.of_nat k + 2) * (Z.of_nat k + 2) -> no_divisor k 2 m = true -> prime m.
Proof.
  intros Hm H. destruct (prime_dec m) as [|Hnp]; [done|]. exfalso.
  destruct (not_prime_divide m ltac:(lia) Hnp) as (n & Hn & [j Hj]).
  destruct (decide (n < Z.of_nat k + 2)).
  - apply (no_divisor_spec k 2 m n); [done|lia..|by exists j].
  - apply (no_divisor_spec k 2 m j); [done|nia|nia|lia|exists n; lia].
Qed.

Lemma prime_rand_mod : prime rand_mod.
Proof.
  apply (prime_check (Z.to_nat 46339)); [unfold rand_mod; lia|]. vm_compute. reflexivity.
Qed.

(** ** The order of 16807 *)

Definition rand_mul : Z := 16807.

Definition unit_exp (n : Z) : Prop := rand_mul ^ n mod rand_mod = 1.

Lemma unit_exp_check n : 0 <= n -> Zpow_mod rand_mul n rand_mod = 1 -> unit_exp n.
Proof. intros Hn H. unfold unit_exp. rewrite <- Zpow_mod_correct; [done|unfold rand_mod; lia]. Qed.

Lemma unit_exp_mul x k : 0 <= x -> 0 <= k -> unit_exp x -> unit_exp (x * k).
Proof.
  unfold unit_exp. intros Hx Hk H. rewrite Z.pow_mul_r by done.
  rewrite Zpower_mod by (unfold rand_mod; lia). rewrite H, Z.pow_1_l by done. done.
Qed.

Lemma unit_exp_mod x y : 0 <= x -> 0 < y -> unit_exp x -> unit_exp y -> unit_exp (x mod y).
Proof.
  intros Hx Hy H1 H2. pose proof (Z.mod_pos_bound x y Hy).
  pose proof (unit_exp_mul y (x / y) ltac:(lia) (Z.div_pos _ _ Hx Hy) H2) as H3.
  pose proof (Z.mul_div_le x y Hy). pose proof (Z.div_pos x y Hx Hy).
  unfold unit_exp in *. rewrite (Z.div_mod x y) in H1 by lia.
  rewrite Z.pow_add_r, Z.mul_mod, H3, Z.mul_1_l, Z.mod_mod in H1 by (unfold rand_mod; lia). done.
Qed.

Lemma unit_exp_gcd x y : 0 <= x -> 0 <= y -> unit_exp x -> unit_exp y -> unit_exp (Z.gcd x y).
Proof.
  intros Hx Hy. revert x Hx. pattern y. apply Z_lt_induction; [|done]. clear y Hy.
  intros y IH x Hx H1 H2. destruct (decide (y <= 0)).
  - destruct (decide (y = 0)) as [->|]; [by rewrite Z.gcd_0_r, Z.abs_eq|].
    unfold unit_exp in H2. rewrite Z.pow_neg_r in H2 by lia. done.
  - rewrite Z.gcd_comm, <- Z.gcd_mod, Z.gcd_comm by lia.
    pose proof (Z.mod_pos_bound x y ltac:(lia)).
    apply IH; [lia|lia|done|]. apply unit_exp_mod; (done || lia).
Qed.

(** The prime factors of [rand_mod - 1]. *)
Definition rand_factors : list Z := [2; 3; 7; 11; 31; 151; 331].

Lemma rand_factors_prime : Forall prime rand_factors.
Proof.
  unfold rand_factors. repeat (apply Forall_cons; split); [..|apply Forall_nil_2];
    (apply (prime_check 30); [lia|vm_compute; reflexivity]).
Qed.

#[local] Instance divide_decision q k : Decision (q | k) := Zdivide_dec q k.

(** A divisor other than 1 has one of the factors. *)
Lemma factor_divides k : 1 < k -> (k | rand_mod - 1) -> exists q, q ∈ rand_factors /\ (q | k).
Proof.
  intros Hk Hdiv. destruct (decide (Exists (fun q => (q | k)) rand_factors)) as [H|H].
  { apply Exists_exists in H. exact H. }
  exfalso. assert (Hr : forall q, q ∈ rand_factors -> rel_prime k q).
  { intros q Hq. apply rel_prime_sym, prime_rel_prime.
    - pose proof rand_factors_prime as Hp. rewrite Forall_forall in Hp. by apply Hp.
    - intros Hd. apply H, Exists_exists. eauto. }
  assert (Hall : rel_prime k (rand_mod - 1)).
  { replace (rand_mod - 1) with (2 * (3 * (3 * (7 * (11 * (31 * (151 * 331))))))) by reflexivity.
    repeat apply rel_prime_mult; apply Hr; unfold rand_factors; set_solver. }
  destruct Hall as [_ _ Hg]. specialize (Hg k (Z.divide_refl k) Hdiv).
  apply Z.divide_1_r_nonneg in Hg; lia.
Qed.

Lemma rand_order n : 0 <= n -> unit_exp n -> (rand_mod - 1 | n).
Proof.
  intros Hn Hu.
  assert (HN : unit_exp (rand_mod - 1)) by (apply unit_exp_check; [unfold rand_mod; lia|vm_compute; reflexivity]).
  assert (H0 : 0 < rand_mod - 1) by (unfold rand_mod; lia).
  pose proof (unit_exp_gcd n (rand_mod - 1) Hn ltac:(lia) Hu HN) as Hd.
  set (d := Z.gcd n (rand_mod - 1)) in *. pose proof (Z.gcd_nonneg n (rand_mod - 1)).
  destruct (Z.gcd_divide_r n (rand_mod - 1)) as [k Hk]. fold d in Hk.
  destruct (decide (k = 1)) as [->|]; [rewrite Hk, Z.mul_1_l; apply Z.gcd_divide_l|]. exfalso.
  destruct (factor_divides k) as (q & Hq & [j Hj]); [nia|by exists d; lia|].
  pose proof rand_factors_prime as Hpr. rewrite Forall_forall in Hpr.
  pose proof (prime_ge_2 q (Hpr q Hq)) as Hq0. clear Hpr.
  assert (Hbad : unit_exp ((rand_mod - 1) / q)).
  { replace ((rand_mod - 1) / q) with (d * j); [apply unit_exp_mul; [done|nia|done]|].
    rewrite Hk, Hj. replace (j * q * d) with (d * j * q) by ring. by rewrite Z.div_mul by lia. }
  unfold unit_exp in Hbad. rewrite <- Zpow_mod_correct in Hbad by (unfold rand_mod; lia).
  unfold rand_factors in Hq. rewrite !elem_of_cons, elem_of_nil in Hq.
  destruct Hq as [->|[->|[->|[->|[->|[->|[->|[]]]]]]]]; vm_compute in Hbad; discriminate Hbad.
Qed.

(** ** The sequence of states *)

Lemma rand_product_pos y : 1 <= y < rand_mod -> 1 <= (rand_mul * y) mod rand_mod.
Proof.
  intros Hy. pose proof (Z.mod_pos_bound (rand_mul * y) rand_mod ltac:(unfold rand_mod; lia)).
  destruct (decide ((rand_mul * y) mod rand_mod = 0)) as [E|]; [|lia]. exfalso.
  apply Z.mod_divide in E; [|unfold rand_mod; lia].
  apply prime_mult in E as [E|E]; [| |apply prime_rand_mod]; apply Z.divide_pos_le in E;
    unfold rand_mod, rand_mul in *; lia.
Qed.

Lemma do_rand_eq ctx :
  let v := (rand_mul * (ctx mod (rand_mod - 1) + 1)) mod rand_mod in
  do_rand ctx = (v - 1, v - 1) /\ 0 <= v - 1 < rand_mod - 1.
Proof.
  intros v. pose proof (Z.mod_pos_bound ctx (rand_mod - 1) ltac:(unfold rand_mod; lia)).
  set (y := ctx mod (rand_mod - 1) + 1) in *.
  destruct (schrage y) as [_ E]; [lia|]. pose proof (rand_product_pos y ltac:(lia)). fold v in H0.
  pose proof (Z.mod_pos_bound (rand_mul * y) rand_mod ltac:(unfold rand_mod; lia)). fold v in H1.
  split; [|lia]. unfold do_rand. change 0x7ffffffe with (rand_mod - 1). change 0x7fffffff with rand_mod.
  fold y. change 16807 with rand_mul in *. rewrite E. fold v.
  unfold rand_mod in *. rewrite s32_small, u64_small by lia. done.
Qed.

Lemma rand_iter n ctx :
  0 <= ctx < rand_mod - 1 ->
  0 <= Nat.iter n rand_step ctx < rand_mod - 1 /\
  Nat.iter n rand_step ctx + 1 = (rand_mul ^ Z.of_nat n * (ctx + 1)) mod rand_mod.
Proof.
  intros Hc. induction n as [|n [IH1 IH2]].
  - cbn [Nat.iter]. rewrite Z.pow_0_r, Z.mul_1_l, Z.mod_small by lia. done.
  - rewrite Nat.iter_succ. set (x := Nat.iter n rand_step ctx) in *. unfold rand_step.
    destruct (do_rand_eq x) as [-> Hr]. rewrite (Z.mod_small x) in * by lia. cbn [snd].
    split; [done|]. rewrite Z.sub_add, IH2, Z.mul_mod_idemp_r by (unfold rand_mod; lia).
    rewrite Nat2Z.inj_succ, Z.pow_succ_r by lia. f_equal. ring.
Qed.

(** C38. [do_rand] of grind is the minimal standard generator: from a state
    [ctx] the [n]-th call leaves the state [16807^n (ctx + 1) mod (2^31 - 1) - 1]
    and returns it, always between 0 and 2^31 - 3 although the code never
    leaves 32-bit intermediate values; and the state comes back exactly after
    every 2^31 - 2 calls, so every number of the range is drawn once in a
    period, whatever the seed. *)
Theorem rand_full_period (ctx : Z) (n : nat) (Hc : 0 <= ctx < 2147483646) :
  let st := Nat.iter n rand_step ctx in
  0 <= st < 2147483646 /\
  st = (16807 ^ Z.of_nat n * (ctx + 1)) mod 2147483647 - 1 /\
  (do_rand st).1 = rand_step st /\
  (st = ctx <-> (2147483646 | Z.of_nat n)).
Proof.
  destruct (rand_iter n ctx Hc) as [H1 H2]. change (rand_mod - 1) with 2147483646 in H1. cbv zeta.
  split_and!; [lia..|unfold rand_mod, rand_mul in H2; lia| |].
  { unfold rand_step at 2. destruct (do_rand_eq (Nat.iter n rand_step ctx)) as [-> _]. done. }
  assert (Hp : 0 < rand_mod) by (unfold rand_mod; lia). split.
  - intros E. rewrite E in H2. apply (rand_order (Z.of_nat n)); [lia|]. unfold unit_exp.
    assert (Hd : (rand_mod | (rand_mul ^ Z.of_nat n - 1) * (ctx + 1))).
    { apply Z.mod_divide; [lia|].
      rewrite Z.mul_sub_distr_r, Zminus_mod, <- H2, Z.mul_1_l, (Z.mod_small (ctx + 1)), Z.sub_diag
        by (unfold rand_mod; lia). done. }
    apply prime_mult in Hd as [Hd|Hd]; [| |apply prime_rand_mod].
    + apply Z.mod_divide in Hd; [|lia]. rewrite Zminus_mod in Hd.
      pose proof (Z.mod_pos_bound (rand_mul ^ Z.of_nat n) rand_mod Hp).
      change (1 mod rand_mod) with 1 in Hd.
      destruct (decide (rand_mul ^ Z.of_nat n mod rand_mod = 0)) as [E0|].
      * rewrite E0 in Hd. vm_compute in Hd. discriminate.
      * rewrite Z.mod_small in Hd by lia. lia.
    + apply Z.divide_pos_le in Hd; unfold rand_mod in *; lia.
  - intros [k Hk]. rewrite Hk in H2. assert (Hu : unit_exp (k * 2147483646)).
    { rewrite Z.mul_comm. apply unit_exp_mul; [lia|lia|].
      apply unit_exp_check; [lia|vm_compute; reflexivity]. }
    unfold unit_exp in Hu. rewrite Z.mul_mod, Hu, Z.mul_1_l, Z.mod_mod, Z.mod_small in H2
      by (unfold rand_mod; lia). lia.
Qed.

Lemma rand_full_period_witness :
  0 <= rand_next0 < 2147483646 /\ Nat.iter 2 rand_step rand_next0 <> rand_next0.
Proof.
  split; [unfold rand_next0; lia|]. intros E.
  destruct (rand_full_period rand_next0 2) as (_ & _ & _ & [H _]); [unfold rand_next0; lia|].
  apply H in E. apply Z.divide_pos_le in E; lia.
Defined.
