(* ===== verification/Tests.v ===== *)
(** * Test programs

    Models [forktest.c], [stressfs.c], [alloctest.c], [cowtest.c]
    and [lazytests.c] of [src/xv6-os/user/].
    The loops [while(1)] run on fuel; the others on their own bounds. *)
From S2P Require Import Prelude CString Layout Blocks Printf User Umalloc Fs FsPath Sysfile Grep Utils Grind.

(** ** forktest *)

Definition FORKTEST_N : Z := 1000.

Definition print (s : list Z) : prog unit :=
  call (Swrite 1 s) ,,
  Ret tt.

(** The first loop; the value of [n] after it. *)
Fixpoint forktest_forks (k : nat) (n : Z) : prog Z :=
  match k with
  | O => Ret n
  | S k =>
      do pid <- call Sfork;
      if pid <? 0 then Ret n
      else if pid =? 0 then Exit 0
      else forktest_forks k (n + 1)
  end.

Fixpoint forktest_waits (n : nat) : prog unit :=
  match n with
  | O => Ret tt
  | S n =>
      do r <- call Swait;
      if r <? 0 then
        print (nlmsg "wait stopped early") ,,
        Exit 1
      else forktest_waits n
  end.

Definition forktest : prog unit :=
  print (nlmsg "fork test") ,,
  do n <- forktest_forks (Z.to_nat FORKTEST_N) 0;
  if n =? FORKTEST_N then
    print (nlmsg "fork claimed to work N times!") ,,
    Exit 1
  else
    forktest_waits (Z.to_nat n) ,,
    do r <- call Swait;
    if negb (r =? -1) then
      print (nlmsg "wait got too many") ,,
      Exit 1
    else print (nlmsg "fork test OK").

Definition forktest_main : prog unit :=
  forktest ,,
  Exit 0.

(** ** stressfs *)

(** The loop of forks; the value of [i] after it. *)
Fixpoint stressfs_forks (k : nat) (i : Z) : prog Z :=
  match k with
  | O => Ret i
  | S k =>
      do r <- call Sfork;
      if 0 <? r then Ret i else stressfs_forks k (i + 1)
  end.

Fixpoint times (k : nat) (body : prog unit) : prog unit :=
  match k with
  | O => Ret tt
  | S k => body ,, times k body
  end.

Definition stressfs_main : prog unit :=
  u_printf (nlmsg "stressfs starting") [] ,,
  let data := replicate 512 (ch "a") in
  do i <- stressfs_forks 4 0;
  u_printf (nlmsg "write %d") [PNum i] ,,
  let path := str "stressfs" ++ [u8 (ch "0" + i)] in
  do fd <- call (Sopen path O_CRW);
  times 20 (call (Swrite fd data) ,, Ret tt) ,,
  call (Sclose fd) ,,
  u_printf (nlmsg "read") [] ,,
  do fd <- call (Sopen path O_RDONLY);
  times 20 (call (Sread fd 512) ,, Ret tt) ,,
  call (Sclose fd) ,,
  call Swait ,,
  Exit 0.

(** ** alloctest *)

Definition NCHILD : Z := 50.
Definition NFD : Z := 10.

Definition test0_child : prog unit :=
  times (Z.to_nat NFD)
    (do fd <- call (Sopen (str "README") O_RDONLY);
     if fd <? 0 then Exit 1 else Ret tt) ,,
  call (Ssleep 10) ,,
  Exit 0.

(** The loop that waits; [all_ok] after it. *)
Fixpoint test0_waits (k : nat) (all_ok : bool) : prog bool :=
  match k with
  | O => Ret all_ok
  | S k =>
      do w <- call Swaitst;
      if negb (w.2 =? 0) then
        (if all_ok then u_printf (nlmsg "filetest: FAILED") [] else Ret tt) ,,
        test0_waits k false
      else test0_waits k all_ok
  end.

Definition alloc_test0 : prog unit :=
  u_printf (nlmsg "filetest: start") [] ,,
  if NCHILD * NFD <? Z.of_nat NFILE then
    u_printf (nlmsg "test setup is wrong") [] ,,
    Exit 1
  else
    times (Z.to_nat NCHILD)
      (do pid <- call Sfork;
       if pid <? 0 then
         u_printf (str "fork failed") [] ,,
         Exit 1
       else if pid =? 0 then test0_child
       else Ret tt) ,,
    do all_ok <- test0_waits (Z.to_nat NCHILD) true;
    if all_ok then u_printf (nlmsg "filetest: OK") [] else Ret tt.

(** The child of [test1]: allocate, touch and report each page. *)
Fixpoint test1_child (fuel : nat) (fd1 : Z) : prog unit :=
  match fuel with
  | O => NoFuel
  | S fuel =>
      do a <- call (Ssbrk PGSIZE);
      if a =? -1 then Exit 0
      else
        call (Sstore (a + 4) 4 1) ,,
        do w <- call (Swrite fd1 (str "x"));
        if negb (w =? 1) then
          u_printf (str "write failed") [] ,,
          Exit 1
        else test1_child fuel fd1
  end.

(** The loop that counts; [tot] after it. *)
Fixpoint test1_count (fuel : nat) (fd0 tot : Z) : prog Z :=
  match fuel with
  | O => NoFuel
  | S fuel =>
      do r <- call (Sread fd0 1);
      if negb (r.1 =? 1) then Ret tot else test1_count fuel fd0 (s32 (tot + 1))
  end.

Definition alloc_test1 (fuel : nat) : prog unit :=
  u_printf (nlmsg "memtest: start") [] ,,
  do p <- call Spipe;
  let '(r, (fd0, fd1)) := p in
  if negb (r =? 0) then
    u_printf (nlmsg "pipe() failed") [] ,,
    Exit 1
  else
    do pid <- call Sfork;
    if pid <? 0 then
      u_printf (str "fork failed") [] ,,
      Exit 1
    else
      (if pid =? 0 then
         call (Sclose fd0) ,,
         test1_child fuel fd1
       else Ret tt) ,,
      call (Sclose fd1) ,,
      do tot <- test1_count fuel fd0 0;
      if tot <? 31950 then
        u_printf (nlmsg "expected to allocate at least 31950, only got %d") [PNum tot] ,,
        u_printf (nlmsg "memtest: FAILED") []
      else u_printf (nlmsg "memtest: OK") [].

Definition alloctest_main (fuel : nat) : prog unit :=
  alloc_test0 ,,
  alloc_test1 fuel ,,
  Exit 0.

(** ** cowtest *)

(** [for(q = ...; q < stop; q += step)]; [k] rounds are enough when
    [stop <= q + k * step]. *)
Fixpoint for_ptr (k : nat) (q stop step : Z) (body : Z -> prog unit) : prog unit :=
  if q <? stop then
    match k with
    | O => NoFuel
    | S k => body q ,, for_ptr k (q + step) stop step body
    end
  else Ret tt.

Definition for_range (q stop step : Z) (body : Z -> prog unit) : prog unit :=
  for_ptr (Z.to_nat ((stop - q + step - 1) / step)) q stop step body.

(** Exit status -1, as the [int] that [exit] takes. *)
Definition die (msg : list Z) (args : list parg) : prog unit :=
  u_printf msg args ,,
  Exit (-1).

Definition store_pid (q : Z) : prog unit :=
  do pid <- call Sgetpid;
  call (Sstore q 4 pid).

Definition check_pid (q : Z) : prog unit :=
  do v <- call (Sload q 4);
  do pid <- call Sgetpid;
  if negb (s32 v =? pid) then die (nlmsg "wrong content") [] else Ret tt.

Definition phys_size : Z := PHYSTOP - KERNBASE.

Definition simpletest : prog unit :=
  let sz := s32 (phys_size / 3 * 2) in
  u_printf (str "simple: ") [] ,,
  do p <- call (Ssbrk sz);
  if p =? -1 then die (nlmsg "sbrk(%d) failed") [PNum sz]
  else
    for_range p (p + sz) 4096 store_pid ,,
    do pid <- call Sfork;
    if pid <? 0 then die (nlmsg "fork() failed") []
    else if pid =? 0 then Exit 0
    else
      call Swait ,,
      do r <- call (Ssbrk (- sz));
      if r =? -1 then die (nlmsg "sbrk(-%d) failed") [PNum sz]
      else u_printf (nlmsg "ok") [].

(** The first child of [threetest], which has a child itself. *)
Definition threetest_child (p sz : Z) : prog unit :=
  do pid2 <- call Sfork;
  if pid2 <? 0 then die (str "fork failed") []
  else if pid2 =? 0 then
    for_range p (p + Z.quot sz 5 * 4) 4096 store_pid ,,
    for_range p (p + Z.quot sz 5 * 4) 4096 check_pid ,,
    Exit (-1)
  else
    for_range p (p + Z.quot sz 2) 4096 (fun q => call (Sstore q 4 9999)) ,,
    Exit 0.

Definition threetest : prog unit :=
  let sz := s32 (phys_size / 4) in
  u_printf (str "three: ") [] ,,
  do p <- call (Ssbrk sz);
  if p =? -1 then die (nlmsg "sbrk(%d) failed") [PNum sz]
  else
    do pid1 <- call Sfork;
    if pid1 <? 0 then die (nlmsg "fork failed") []
    else if pid1 =? 0 then threetest_child p sz
    else
      for_range p (p + sz) 4096 store_pid ,,
      call Swait ,,
      call (Ssleep 2) ,,
      for_range p (p + sz) 4096 check_pid ,,
      do r <- call (Ssbrk (- sz));
      if r =? -1 then die (nlmsg "sbrk(-%d) failed") [PNum sz]
      else u_printf (nlmsg "ok") [].

(** The child of round [i], with the start of the global [buf]. *)
Definition filetest_child (buf : list Z) (fd0 i : Z) : prog unit :=
  call (Ssleep 10) ,,
  do r <- call (Sread fd0 4);
  if negb (r.1 =? 4) then
    u_printf (nlmsg "error: read failed, rad: %d") [PNum r.1] ,,
    Exit 1
  else
    call (Ssleep 10) ,,
    let j := s32 (get32 (overwrite r.2 buf) 0) in
    if negb (j =? i) then
      u_printf (nlmsg "error: read the wrong value %d != %d") [PNum j; PNum i] ,,
      Exit 1
    else Exit 0.

Fixpoint filetest_rounds (k : nat) (buf : list Z) (i : Z) : prog unit :=
  match k with
  | O => Ret tt
  | S k =>
      do p <- call Spipe;
      let '(r, (fd0, fd1)) := p in
      (if negb (r =? 0) then die (nlmsg "pipe() failed") [] else Ret tt) ,,
      do pid <- call Sfork;
      (if pid <? 0 then die (nlmsg "fork failed") []
       else if pid =? 0 then filetest_child buf fd0 i
       else Ret tt) ,,
      do w <- call (Swrite fd1 (le 4 i));
      (if negb (w =? 4) then die (nlmsg "error: write failed") [] else Ret tt) ,,
      filetest_rounds k buf (i + 1)
  end.

(** The children read into copies of [buf]. *)
Definition filetest : prog unit :=
  u_printf (str "file: ") [] ,,
  let buf := [99; 0; 0; 0] in
  filetest_rounds 5 buf 0 ,,
  times 4 (do w <- call Swaitst; if negb (w.2 =? 0) then Exit 1 else Ret tt) ,,
  if negb (get8 buf 0 =? 99) then
    u_printf (nlmsg "error: child overwrote parent") [] ,,
    Exit 1
  else u_printf (nlmsg "ok") [].

Definition cowtest_main : prog unit :=
  simpletest ,,
  simpletest ,,
  threetest ,,
  threetest ,,
  threetest ,,
  filetest ,,
  u_printf (nlmsg "ALL COW TESTS PASSED") [] ,,
  Exit 0.

(** ** lazytests *)

Definition REGION_SZ : Z := 1024 * 1024 * 1024.

(** A store of the pointer [i] at [i] itself. *)
Definition store_self (i : Z) : prog unit := call (Sstore i 8 i).

Definition check_self (i : Z) : prog unit :=
  do v <- call (Sload i 8);
  if negb (v =? i) then
    u_printf (nlmsg "failed to read value from memory") [] ,,
    Exit 1
  else Ret tt.

Definition sbrk_region : prog Z :=
  do prev_end <- call (Ssbrk REGION_SZ);
  (if prev_end =? -1 then
     u_printf (nlmsg "sbrk() failed") [] ,,
     Exit 1
   else Ret tt) ,,
  Ret prev_end.

Definition sparse_memory : prog unit :=
  do prev_end <- sbrk_region;
  let new_end := prev_end + REGION_SZ in
  for_range (prev_end + PGSIZE) new_end (64 * PGSIZE) store_self ,,
  for_range (prev_end + PGSIZE) new_end (64 * PGSIZE) check_self ,,
  Exit 0.

Definition unmap_round (i : Z) : prog unit :=
  do pid <- call Sfork;
  if pid <? 0 then
    u_printf (nlmsg "error forking") [] ,,
    Exit 1
  else if pid =? 0 then
    call (Ssbrk (-1 * REGION_SZ)) ,,
    store_self i ,,
    Exit 0
  else
    do w <- call Swaitst;
    if w.2 =? 0 then
      u_printf (nlmsg "memory not unmapped") [] ,,
      Exit 1
    else Ret tt.

Definition sparse_memory_unmap : prog unit :=
  do prev_end <- sbrk_region;
  let new_end := prev_end + REGION_SZ in
  for_range (prev_end + PGSIZE) new_end (PGSIZE * PGSIZE) store_self ,,
  for_range (prev_end + PGSIZE) new_end (PGSIZE * PGSIZE) unmap_round ,,
  Exit 0.

(** The child of [oom] links the blocks it gets into a list. *)
Fixpoint oom_child (fuel : nat) (base_addr : Z) (h : heap) (m1 : Z) : prog unit :=
  match fuel with
  | O => NoFuel
  | S fuel =>
      do r <- u_malloc fuel base_addr h (4096 * 4096);
      let '(m2, h) := r in
      if m2 =? 0 then Exit 0
      else oom_child fuel base_addr (mkheap (st64 (h_mem h) m2 m1) (freep h)) m2
  end.

Definition oom (fuel : nat) (base_addr : Z) : prog unit :=
  do pid <- call Sfork;
  if pid =? 0 then oom_child fuel base_addr (mkheap ∅ 0) 0
  else
    do w <- call Swaitst;
    Exit (b2z (w.2 =? 0)).

(** Whether the test passed. *)
Definition lazy_run (f : prog unit) (s : list Z) : prog bool :=
  u_printf (nlmsg "running test %s") [PStr (Some s)] ,,
  do pid <- call Sfork;
  if pid <? 0 then
    u_printf (nlmsg "runtest: fork error") [] ,,
    Exit 1
  else if pid =? 0 then
    f ,,
    Exit 0
  else
    do w <- call Swaitst;
    (if negb (w.2 =? 0) then u_printf (nlmsg "test %s: FAILED") [PStr (Some s)]
     else u_printf (nlmsg "test %s: OK") [PStr (Some s)]) ,,
    Ret (w.2 =? 0).

Definition lazy_tests (fuel : nat) (base_addr : Z) : list (prog unit * list Z) :=
  [(sparse_memory, str "lazy alloc"); (sparse_memory_unmap, str "lazy unmap");
   (oom fuel base_addr, str "out of memory")].

(** The loop over the table; [n] is the name that was asked for. *)
Fixpoint lazy_loop (tests : list (prog unit * list Z)) (n : option (list Z)) (fail : bool)
    : prog bool :=
  match tests with
  | [] => Ret fail
  | (f, s) :: tests =>
      if match n with None => true | Some n => bool_decide (s = n) end then
        do ok <- lazy_run f s;
        lazy_loop tests n (fail || negb ok)
      else lazy_loop tests n fail
  end.

Definition lazytests_main (fuel : nat) (base_addr : Z) (argv : list (list Z)) : prog unit :=
  let n := match argv with _ :: n :: _ => Some n | _ => None end in
  u_printf (nlmsg "lazytests starting") [] ,,
  do fail <- lazy_loop (lazy_tests fuel base_addr) n false;
  (if negb fail then u_printf (nlmsg "ALL TESTS PASSED") []
   else u_printf (nlmsg "SOME TESTS FAILED") []) ,,
  Exit 1.

(** ** forktest in a system with few processes *)

(** The children that were not waited for, and what was written. *)
Record forkw := mkforkw { fw_children : Z; fw_out : list (list Z) }.

(** A kernel with room for [limit] children: [fork] fails when it is used
    up and [wait] when there is no child. *)
Definition fork_handler (limit : Z) : handler forkw := fun X e =>
  match e in sys Y return forkw -> Y * forkw with
  | Sfork => fun w =>
      if fw_children w <? limit then (fw_children w + 2, mkforkw (fw_children w + 1) (fw_out w))
      else (-1, w)
  | Swait => fun w =>
      if 0 <? fw_children w then (fw_children w + 1, mkforkw (fw_children w - 1) (fw_out w))
      else (-1, w)
  | Swrite _ l => fun w => (zlen l, mkforkw (fw_children w) (fw_out w ++ [l]))
  | e => fun w => (refused e, w)
  end.

Lemma print_run limit s w :
  run (fork_handler limit) (print s) w = (Returned tt, mkforkw (fw_children w) (fw_out w ++ [s])).
Proof. reflexivity. Qed.

Lemma forktest_forks_run limit k n out :
  0 <= n <= limit -> limit < n + Z.of_nat k ->
  run (fork_handler limit) (forktest_forks k n) (mkforkw n out) = (Returned limit, mkforkw limit out).
Proof.
  revert n. induction k as [|k IH]; intros n Hn Hk; [lia|]. cbn [forktest_forks].
  rewrite run_call. cbn [fork_handler fw_children fw_out].
  destruct (Z.ltb_spec n limit); cbn [fst snd].
  - destruct (Z.ltb_spec (n + 2) 0); [lia|]. destruct (Z.eqb_spec (n + 2) 0); [lia|].
    apply IH; lia.
  - assert (n = limit) as -> by lia. done.
Qed.

Lemma forktest_waits_run limit n out :
  run (fork_handler limit) (forktest_waits n) (mkforkw (Z.of_nat n) out) =
  (Returned tt, mkforkw 0 out).
Proof.
  induction n as [|n IH]; [done|]. cbn [forktest_waits]. rewrite run_call.
  cbn [fork_handler fw_children fw_out].
  destruct (Z.ltb_spec 0 (Z.of_nat (S n))); [|lia]. cbn [fst snd].
  destruct (Z.ltb_spec (Z.of_nat (S n) + 1) 0); [lia|].
  replace (Z.of_nat (S n) - 1) with (Z.of_nat n) by lia. exact IH.
Qed.

(** forktest passes on every kernel with fewer than 1000 processes: it forks
    until [fork] fails, waits for exactly the children it made, prints its
    verdict and exits with 0. *)
Theorem forktest_passes (limit : Z) (Hl : 0 <= limit < FORKTEST_N) :
  run (fork_handler limit) forktest_main (mkforkw 0 []) =
  (Exited 0, mkforkw 0 [nlmsg "fork test"; nlmsg "fork test OK"]).
Proof.
  unfold forktest_main, forktest, FORKTEST_N in *. rewrite run_bind.
  rewrite run_bind, print_run, run_bind. cbn [fw_children fw_out app].
  rewrite (forktest_forks_run limit (Z.to_nat 1000) 0) by lia.
  destruct (Z.eqb_spec limit 1000); [lia|]. rewrite run_bind.
  replace (mkforkw limit _) with (mkforkw (Z.of_nat (Z.to_nat limit)) [nlmsg "fork test"])
    by (rewrite Z2Nat.id by lia; reflexivity).
  rewrite forktest_waits_run, run_call. cbn [fork_handler fst snd fw_children Z.ltb Z.compare].
  change (negb (-1 =? -1)) with false. cbv iota. rewrite print_run. reflexivity.
Qed.

Lemma forktest_passes_witness :
  run (fork_handler 60) forktest_main (mkforkw 0 []) =
  (Exited 0, mkforkw 0 [nlmsg "fork test"; nlmsg "fork test OK"]).
Proof. apply (forktest_passes 60). unfold FORKTEST_N. lia. Defined.
