(* ===== verification/DumpTests.v ===== *)
(** * The tests of the register dump

    Models [dumptests.c], [dumptests.S], [dump2tests.c] and [dump2tests.S] of
    [src/xv6-os/user/]. [kernel/syscall.h] defines neither [SYS_dump] nor
    [SYS_dump2]; the numbers are parameters, and [None] is a system without the
    call. What the kernel does at the [ecall] is a parameter too: it sees the
    registers of the caller. *)
From S2P Require Import Prelude CString Spinlock Layout Blocks Printf Kalloc Vm VmTable Proc ProcLife Trap Asm Riscv.
From S2P Require Import User Umalloc Fs FsPath Sysfile Grep Utils Grind Tests.

Definition prints (l : list string) : prog unit :=
  foldr (fun s p => u_printf (nlmsg s) [] ,, p) (Ret tt) l.

(** [#ifdef]: the instructions for a call, if there is one. *)
Definition ifdef_ecall (n : option Z) : list instr :=
  match n with Some n => [li a7 n; ecall] | None => [] end.

(** A call of a routine that returns, with the answer of the kernel to the
    [ecall] it may have. *)
Definition asm_call {A} (syscall : machine -> prog A) (none : A) (code : list instr) (m : machine) : prog A :=
  match run_code code m with
  | Left Wecall [jr ra] m' => syscall m'
  | Left (Wjr _) [] _ => Ret none
  | _ => Undef
  end.

(** The registers at a call with these arguments. *)
Definition with_args (x y z : Z) (m : machine) : machine :=
  setx a2 (u64 z) (setx a1 (u64 y) (setx a0 (u64 x) m)).

(** ** dumptests *)

Section Dump.
Context (SYS_dump : option Z).

Definition dump_test2_asm : list instr :=
  [li s2 2; li s3 3; li s4 4; li s5 5; li s6 6;
   li s7 7; li s8 8; li s9 9; li s10 10; li s11 11] ++
  ifdef_ecall SYS_dump ++ [ret].

Definition dump_test3_asm : list instr :=
  [li s2 1; li s3 (-12); li s4 123; li s5 (-1234); li s6 12345;
   li s7 (-123456); li s8 1234567; li s9 (-12345678); li s10 123456789; li s11 (-1234567890)] ++
  ifdef_ecall SYS_dump ++ [ret].

Definition dump_test4_asm : list instr :=
  [li s2 2147483647; li s3 (-2147483648); li s4 1337; li s5 2020; li s6 3234;
   li s7 3235; li s8 3236; li s9 3237; li s10 3238; li s11 3239] ++
  ifdef_ecall SYS_dump ++ [ret].

(** [m] has the registers of the caller. *)
Context (sys_dump : machine -> prog unit) (m : machine).

Definition dump_test1 (n : Z) : prog unit :=
  prints [
    "#####################";
    "#                   #";
    "#   initial state   #";
    "#                   #";
    "#####################"] ,,
  asm_call sys_dump tt (usys_entry n) m.

Definition dump_expected2 : list string := [
  "#####################";
  "#                   #";
  "#       test 1      #";
  "#                   #";
  "#####################";
  "#                   #";
  "#  expected values  #";
  "#                   #";
  "#####################";
  "# s2  = 2           #";
  "# s3  = 3           #";
  "# s4  = 4           #";
  "# s5  = 5           #";
  "# s6  = 6           #";
  "# s7  = 7           #";
  "# s8  = 8           #";
  "# s9  = 9           #";
  "# s10 = 10          #";
  "# s11 = 11          #";
  "#####################"].

Definition dump_test2 : prog unit :=
  prints dump_expected2 ,,
  asm_call sys_dump tt dump_test2_asm m.

Definition dump_expected3 : list string := [
  "#####################";
  "#                   #";
  "#      test 2       #";
  "#                   #";
  "#####################";
  "#                   #";
  "#  expected values  #";
  "#                   #";
  "#####################";
  "# s2 = 1            #";
  "# s3 = -12          #";
  "# s4 = 123          #";
  "# s5 = -1234        #";
  "# s6 = 12345        #";
  "# s7 = -123456      #";
  "# s8 = 1234567      #";
  "# s9 = -12345678    #";
  "# s10 = 123456789   #";
  "# s11 = -1234567890 #";
  "#####################"].

Definition dump_test3 : prog unit :=
  prints dump_expected3 ,,
  asm_call sys_dump tt dump_test3_asm m.

Definition dump_expected4 : list string := [
  "#####################";
  "#                   #";
  "#      test 3       #";
  "#                   #";
  "#####################";
  "#                   #";
  "#  expected values  #";
  "#                   #";
  "#####################";
  "# s2 = 2147483647   #";
  "# s3 = -2147483648  #";
  "# s4 = 1337         #";
  "# s5 = 2020         #";
  "# s6 = 3234         #";
  "# s7 = 3235         #";
  "# s8 = 3236         #";
  "# s9 = 3237         #";
  "# s10 = 3238        #";
  "# s11 = 3239        #";
  "#####################"].

Definition dump_test4 : prog unit :=
  prints dump_expected4 ,,
  asm_call sys_dump tt dump_test4_asm m.

Definition dumptests_main : prog unit :=
  u_printf (nlmsg "dump tests started") [] ,,
  match SYS_dump with
  | None => u_printf (nlmsg "no dump syscall found. Stop testing") []
  | Some n =>
      u_printf (nlmsg "dump syscall found. Start testing") [] ,,
      dump_test1 n ,,
      dump_test2 ,,
      dump_test3 ,,
      dump_test4 ,,
      u_printf (nlmsg "4 tests were ran") []
  end ,,
  Exit 0.
End Dump.

(** ** dump2tests *)

Section Dump2.
Context (SYS_dump2 : option Z) (loop : Z).

(** [j loop] is the [jal] that keeps no return address; at [loop] the process
    stays for ever. *)
Definition dump2_test1_asm : list instr :=
  [li s2 2; li s3 3; li s4 4; li s5 5; li s6 6;
   li s7 7; li s8 8; li s9 9; li s10 10; li s11 11;
   li a7 (sys_number SYS_write); ecall; jal loop].

Definition dump2_test2_asm : list instr :=
  [li s2 4; li s3 9; li s4 16; li s5 25; li s6 36;
   li s7 49; li s8 64; li s9 81; li s10 100; li s11 121;
   li a7 (sys_number SYS_write); ecall; jal loop].

Definition dump2_test3_asm : list instr :=
  [li s2 1337; mv a2 a1; li a1 2] ++ ifdef_ecall SYS_dump2 ++ [ret].

(** [sys_dump2] gives the result of the call and what the 8 bytes at the
    address in [a2] have after it; [m] has the registers of the caller, and
    [addr] is the address of the local variable. *)
Context (sys_dump2 : machine -> prog (Z * Z)) (m : machine) (addr : Z).

Definition dump2 (pid i a : Z) : prog (Z * Z) :=
  match SYS_dump2 with
  | Some n => asm_call sys_dump2 (0, 0) (usys_entry n) (with_args pid i a m)
  | None => Undef
  end.

(** A call of a routine that writes [a] to the pipe and stays in its loop. *)
Definition write_loop (code : list instr) (fd : Z) (a : list Z) : prog unit :=
  match run_code code (with_args fd addr (zlen a) m) with
  | Left Wecall [jal _] m' =>
      if getx m' a7 =? sys_number SYS_write then
        call (Swrite (s32 (getx m' a0)) (take (Z.to_nat (getx m' a2)) a)) ,,
        NoFuel
      else Undef
  | _ => Undef
  end.

(** The loops of tests 1 and 2 from [i] on; whether they end without
    [goto failed]. *)
Fixpoint test1_loop (k : nat) (child_proc i : Z) : prog bool :=
  match k with
  | O => Ret true
  | S k =>
      do (error, value) <- dump2 child_proc i addr;
      if negb (error =? 0) then
        u_printf (nlmsg "[ERROR] dump2 returned unexpected error %d") [PNum error] ,,
        Ret false
      else if negb (s32 value =? i) then
        u_printf (nlmsg "[ERROR] expected: %d, found: %ld") [PNum i; PNum value] ,,
        Ret false
      else test1_loop k child_proc (i + 1)
  end.

Fixpoint test2_loop (k : nat) (child_proc i : Z) : prog bool :=
  match k with
  | O => Ret true
  | S k =>
      do (error, value) <- dump2 child_proc i addr;
      if negb (error =? 0) then
        u_printf (nlmsg "[ERROR] dump2 returned unexpected error %d") [PNum error] ,,
        Ret false
      else if negb (value =? u64 (i * i)) then
        u_printf (nlmsg "[ERROR] expected: %d, found %ld") [PNum (i * i); PNum value] ,,
        Ret false
      else test2_loop k child_proc (i + 1)
  end.

(** The tests give [success] after them. *)
Definition dump2_test1 (success : Z) : prog Z :=
  u_printf (nlmsg "test 1 started") [] ,,
  do (_, pipefd) <- call Spipe;
  do child_proc <- call Sfork;
  do ok <- (if child_proc =? 0 then write_loop dump2_test1_asm pipefd.2 (le 8 34381) ,, Ret true
            else call (Sread pipefd.1 8) ,, test1_loop 10 child_proc 2);
  do success <- (if (ok : bool) then u_printf (nlmsg "[SUCCESS] test 1 passed") [] ,, Ret (success + 1)
                 else Ret success);
  (if 0 <? child_proc then call (Skill child_proc) ,, Ret tt else Ret tt) ,,
  u_printf (nlmsg "test 1 finished") [] ,,
  Ret success.

Definition dump2_test2 (success : Z) : prog Z :=
  u_printf (nlmsg "test 2 started") [] ,,
  do (_, pipefd) <- call Spipe;
  do child_proc <- call Sfork;
  do ok <- (if child_proc =? 0 then write_loop dump2_test2_asm pipefd.2 (le 8 34381) ,, Ret true
            else call (Sread pipefd.1 8) ,, test2_loop 10 child_proc 2);
  do success <- (if (ok : bool) then u_printf (nlmsg "[SUCCESS] test 2 passed") [] ,, Ret (success + 1)
                 else Ret success);
  (if 0 <? child_proc then call (Skill child_proc) ,, Ret tt else Ret tt) ,,
  u_printf (nlmsg "test 2 finished") [] ,,
  Ret success.

(** Without the call, [dump2_test3_asm] returns its first argument in [a0]. *)
Definition dump2_test3 (success : Z) : prog Z :=
  u_printf (nlmsg "test 3 started") [] ,,
  do pid <- call Sgetpid;
  do (result, value) <- asm_call sys_dump2 (pid, 0) dump2_test3_asm (setx a1 (u64 addr) (setx a0 (u64 pid) m));
  do success <-
    (if negb (result =? 0) then
       u_printf (nlmsg "[ERROR] dump2 returned unexpected error %d") [PNum result] ,,
       Ret success
     else if negb (value =? 1337) then
       u_printf (str "[ERROR] expected: 1337, found: %ld") [PNum value] ,,
       Ret success
     else
       u_printf (nlmsg "[SUCCESS] test 3 passed") [] ,,
       Ret (success + 1));
  u_printf (nlmsg "test 3 finished") [] ,,
  Ret success.

(** The rest of a test unless it went to [failed]. *)
Definition and_then (m : prog bool) (k : prog bool) : prog bool :=
  do ok <- m;
  if (ok : bool) then k else Ret false.

(** The message [err] if the result is not the one of the test, and [failed];
    otherwise the message [msg]. *)
Definition expect (want error : Z) (err msg : string) : prog bool :=
  if negb (error =? want) then
    u_printf (nlmsg err) [PNum error] ,,
    Ret false
  else
    u_printf (nlmsg msg) [] ,,
    Ret true.

(** The value of the [int] that the bytes were read into. *)
Definition read_int (old : Z) (bytes : list Z) : Z := s32 (get32 (overwrite bytes (le 4 old)) 0).

Definition dump2_test4 (success : Z) : prog Z :=
  u_printf (nlmsg "test 4 started") [] ,,
  u_printf (nlmsg "[INFO] testing nonexisting proccess") [] ,,
  do (error, _) <- dump2 2147483647 10 addr;
  do ok <- and_then
    (expect (-2) error "[ERROR] dump2 returned unexpected value %d, expected -2" "[OK] nonexisting proccess")
    (u_printf (nlmsg "[INFO] testing illegal access to registers") [] ,,
     do (_, pipefd) <- call Spipe;
     do parent_pid <- call Sgetpid;
     do child_proc <- call Sfork;
     if child_proc =? 0 then
       do (error, _) <- dump2 parent_pid 10 addr;
       call (Swrite pipefd.2 (le 4 error)) ,,
       Exit 0
     else
       do (_, bytes) <- call (Sread pipefd.1 4);
       let error := read_int error bytes in
       and_then
         (expect (-1) error "[ERROR] dump2 returned unexpected value %d, expected -1"
            "[OK] illegal access to registers")
         (u_printf (nlmsg "[INFO] testing incorrect number of register") [] ,,
          do (error, _) <- dump2 parent_pid 1337 addr;
          and_then
            (expect (-3) error "[ERROR] dump2 returned unexpected value %d, expected -3"
               "[OK] incorrect number of register")
            (u_printf (nlmsg "[INFO] testing invalid memory address") [] ,,
             do (error, _) <- dump2 parent_pid 10 (addr + 8 * 123456789);
             expect (-4) error "[ERROR] dump2 returned unexpected value %d, expected -4"
               "[OK] invalid memory address")));
  do success <- (if (ok : bool) then u_printf (nlmsg "[SUCCESS] test 4 passed") [] ,, Ret (success + 1)
                 else Ret success);
  u_printf (nlmsg "test 4 finished") [] ,,
  Ret success.

Definition dump2tests_main : prog unit :=
  u_printf (nlmsg "dump2 tests started") [] ,,
  match SYS_dump2 with
  | None => u_printf (nlmsg "no dump2 syscall found. Stop testing") []
  | Some _ =>
      u_printf (nlmsg "dump2 syscall found. Start testing") [] ,,
      do success <- dump2_test1 0;
      do success <- dump2_test2 success;
      do success <- dump2_test3 success;
      do success <- dump2_test4 success;
      u_printf (nlmsg "4 tests were run. %d tests passed") [PNum success]
  end ,,
  Exit 0.
End Dump2.

(** ** What the tests see *)

(** The register with number [i] of the group that the tests set. *)
Definition saved (i : Z) : option reg :=
  match i with
  | 2 => Some s2 | 3 => Some s3 | 4 => Some s4 | 5 => Some s5 | 6 => Some s6
  | 7 => Some s7 | 8 => Some s8 | 9 => Some s9 | 10 => Some s10 | 11 => Some s11
  | _ => None
  end.

(** A line [# s<i> = <v> #]: the number of the register and its value. *)
Definition digits (l : list Z) : Z := foldl (fun n c => 10 * n + (c - 48)) 0 l.
Definition number (l : list Z) : Z :=
  match l with
  | c :: l' => if c =? 45 then - digits l' else digits l
  | [] => 0
  end.
Definition word (l : list Z) : list Z * list Z :=
  let blank := fix go l := match l with 32 :: l => go l | _ => l end in
  let letters := fix go l :=
    match l with [] => [] | c :: l => if c =? 32 then [] else c :: go l end in
  let w := letters (blank l) in
  (w, drop (length w) (blank l)).
Definition announced (line : string) : option (Z * Z) :=
  let '(w0, l) := word (str line) in
  let '(w1, l) := word l in
  let '(w2, l) := word l in
  let '(w3, l) := word l in
  if bool_decide (w2 = str "=") then Some (digits (tl w1), number w3) else None.

(** The values that the lines announce are those of the registers, as signed
    numbers. *)
Definition announces (lines : list string) (m : machine) : bool :=
  forallb (fun line => match announced line with
    | Some (i, v) => match saved i with Some r => s32 (getx m r) =? v | None => false end
    | None => true end) lines.

Lemma announced_count :
  map (fun l => length (filter (fun o => bool_decide (o <> None)) (map announced l)))
    [dump_expected2; dump_expected3; dump_expected4] = [10; 10; 10]%nat.
Proof. vm_compute. reflexivity. Qed.

(** Each test calls [dump] when the registers have what it announces. *)
Lemma dump_tests_announce n m code lines :
  (code, lines) ∈ [(dump_test2_asm (Some n), dump_expected2); (dump_test3_asm (Some n), dump_expected3);
                   (dump_test4_asm (Some n), dump_expected4)] ->
  exists m', run_code code m = Left Wecall [ret] m' /\ getx m' a7 = u64 n /\ announces lines m' = true.
Proof.
  rewrite !elem_of_cons, elem_of_nil. intros [[= -> ->]|[[= -> ->]|[[= -> ->]|[]]]];
    (eexists; split_and!; [reflexivity|reflexivity|vm_compute; reflexivity]).
Qed.

(** When the child of test 1 or 2 writes to the pipe its registers have the
    values that the parent expects. *)
Lemma dump2_child_regs loop fd addr n m :
  exists m1 m2,
    run_code (dump2_test1_asm loop) (with_args fd addr n m) = Left Wecall [jal loop] m1 /\
    run_code (dump2_test2_asm loop) (with_args fd addr n m) = Left Wecall [jal loop] m2 /\
    forall i r, saved i = Some r -> getx m1 r = i /\ getx m2 r = i * i.
Proof.
  eexists _, _. split_and!; [reflexivity..|]. intros i r Hi.
  assert (Hin : i ∈ [2; 3; 4; 5; 6; 7; 8; 9; 10; 11]).
  { destruct (decide (2 <= i <= 11)).
    - rewrite !elem_of_cons. lia.
    - exfalso. revert Hi. unfold saved. repeat (case_match; try lia; try discriminate). }
  rewrite !elem_of_cons, elem_of_nil in Hin.
  destruct_or! Hin; subst; try contradiction; injection Hi as <-; split; reflexivity.
Qed.

(** A kernel with the call: process 3 runs the tests, 4 and 5 are the children
    of tests 1 and 2, and the memory of a process ends at [limit]. *)
Definition dump2_kernel (limit : Z) (m : machine) : prog (Z * Z) :=
  let regs pid :=
    match (if pid =? 3 then End m
           else if pid =? 4 then run_code (dump2_test1_asm 0) m
           else if pid =? 5 then run_code (dump2_test2_asm 0) m
           else Faulted) with
    | End m' | Left _ _ m' => Some m'
    | Faulted => None
    end in
  Ret match regs (s32 (getx m a0)), saved (s32 (getx m a1)) with
      | None, _ => (-2, 0)
      | Some _, None => (-3, 0)
      | Some m', Some r => if limit <? getx m a2 + 8 then (-4, 0) else (0, getx m' r)
      end.

(** The number of the next child, and the bytes that were written. *)
Definition dump2_handler : handler (Z * list Z) := fun X e =>
  match e in sys Y return Z * list Z -> Y * (Z * list Z) with
  | Swrite _ l => fun w => (zlen l, (w.1, w.2 ++ l))
  | Spipe => fun w => ((0, (3, 4)), w)
  | Sfork => fun w => (w.1, (w.1 + 1, w.2))
  | Sgetpid => fun w => (3, w)
  | Sread _ n => fun w => ((n, le (Z.to_nat n) (if n =? 4 then -1 else 34381)), w)
  | Skill _ => fun w => (0, w)
  | e => fun w => (refused e, w)
  end.

(** All four tests pass there, and without the call none is run. *)
Lemma dump2tests_pass :
  let m := mkmachine (fun _ => 0) (fun _ => 0) ∅ in
  let r := run dump2_handler (dump2tests_main (Some 23) 0 (dump2_kernel 0x4000) m 0x3fc0) (4, []) in
  r.1 = Exited 0 /\ r.2.1 = 7 /\ drop (length r.2.2 - 33) r.2.2 = nlmsg "4 tests were run. 4 tests passed".
Proof. vm_compute. split_and!; reflexivity. Qed.

Lemma dump2tests_skip m k :
  (run dump2_handler (dump2tests_main None 0 k m 0) (4, [])).2.2 =
  nlmsg "dump2 tests started" ++ nlmsg "no dump2 syscall found. Stop testing".
Proof. vm_compute. reflexivity. Qed.
