(* ===== verification/UsertestsMem.v ===== *)
(** * usertests: pointers, memory and exec arguments

    Models the functions of [src/xv6-os/user/usertests.c] that give the
    system calls wild pointers, grow and shrink the process with [sbrk], touch
    forbidden memory, or call [exec] with bad arguments. [s] is the name of
    the test, with which its messages start. Endless loops, loops that end
    when the memory does and strings in raw memory run on fuel. *)
From S2P Require Import Prelude CString Layout Blocks Printf User Umalloc Bio Fs FsPath Sysfile Utils Grind Tests.

(** ** The common shape of a test *)

(** [if(c){ printf(...); exit(1); }] *)
Definition fail_if (c : bool) (msg : list Z) (args : list parg) : prog unit :=
  if c then fail msg args else Ret tt.

Definition named (s : list Z) : parg := PStr (Some s).

Fixpoint each {A} (l : list A) (body : A -> prog unit) : prog unit :=
  match l with
  | [] => Ret tt
  | x :: l => body x ,, each l body
  end.

(** The child runs [child]; the parent gets its pid. *)
Definition fork_or (child : prog unit) (msg : list Z) (args : list parg) : prog Z :=
  do pid <- call Sfork;
  fail_if (pid <? 0) msg args ,,
  (if pid =? 0 then child else Ret tt) ,,
  Ret pid.

Definition O_CW : Z := Z.lor O_CREATE O_WRONLY.

(** The characters of the string at [a], as [%s] prints them. *)
Fixpoint u_puts_at (fuel : nat) (a : Z) : prog unit :=
  match fuel with
  | O => NoFuel
  | S fuel =>
      do c <- call (Sload a 1);
      if c =? 0 then Ret tt else u_putc 1 c ,, u_puts_at fuel (a + 1)
  end.

(** ** Wild pointers *)

Definition wild_addrs : list Z :=
  [0x80000000; 0x3fffffe000; 0x3ffffff000; 0x4000000000; 0xffffffffffffffff].

Definition ut_copyin (s : list Z) : prog unit :=
  each wild_addrs (fun addr =>
    do fd <- call (Sopen (str "copyin1") O_CW);
    fail_if (fd <? 0) (nlmsg "open(copyin1) failed") [] ,,
    do n <- call (Swrite_at fd addr 8192);
    fail_if (0 <=? n) (nlmsg "write(fd, %p, 8192) returned %d, not -1") [PNum addr; PNum n] ,,
    call (Sclose fd) ,,
    call (Sunlink (str "copyin1")) ,,
    do n <- call (Swrite_at 1 addr 8192);
    fail_if (0 <? n) (nlmsg "write(1, %p, 8192) returned %d, not -1 or 0") [PNum addr; PNum n] ,,
    do p <- call Spipe;
    let '(r, (fds0, fds1)) := p in
    fail_if (r <? 0) (nlmsg "pipe() failed") [] ,,
    do n <- call (Swrite_at fds1 addr 8192);
    fail_if (0 <? n) (nlmsg "write(pipe, %p, 8192) returned %d, not -1 or 0") [PNum addr; PNum n] ,,
    call (Sclose fds0) ,,
    call (Sclose fds1) ,,
    Ret tt).

Definition ut_copyout (s : list Z) : prog unit :=
  each (0 :: wild_addrs) (fun addr =>
    do fd <- call (Sopen (str "README") 0);
    fail_if (fd <? 0) (nlmsg "open(README) failed") [] ,,
    do n <- call (Sread_at fd addr 8192);
    fail_if (0 <? n) (nlmsg "read(fd, %p, 8192) returned %d, not -1 or 0") [PNum addr; PNum n] ,,
    call (Sclose fd) ,,
    do p <- call Spipe;
    let '(r, (fds0, fds1)) := p in
    fail_if (r <? 0) (nlmsg "pipe() failed") [] ,,
    do n <- call (Swrite fds1 (str "x"));
    fail_if (negb (n =? 1)) (nlmsg "pipe write failed") [] ,,
    do n <- call (Sread_at fds0 addr 8192);
    fail_if (0 <? n) (nlmsg "read(pipe, %p, 8192) returned %d, not -1 or 0") [PNum addr; PNum n] ,,
    call (Sclose fds0) ,,
    call (Sclose fds1) ,,
    Ret tt).

Definition copyinstr1 (s : list Z) : prog unit :=
  each wild_addrs (fun addr =>
    do fd <- call (Sopen_at addr O_CW);
    fail_if (0 <=? fd) (nlmsg "open(%p) returned %d, not -1") [PNum addr; PNum fd]).

(** The child of [copyinstr2]; [fd] is the parent's. *)
Definition copyinstr2_child (fd : Z) : prog unit :=
  let big := replicate (Z.to_nat PGSIZE) (ch "x") in
  do ret <- call (Sexec (str "echo") [big; big; big]);
  fail_if (negb (ret =? -1)) (nlmsg "exec(echo, BIG) returned %d, not -1") [PNum fd] ,,
  Exit 747.

Definition copyinstr2 (s : list Z) : prog unit :=
  let b := replicate (Z.to_nat MAXPATH) (ch "x") in
  do ret <- call (Sunlink b);
  fail_if (negb (ret =? -1)) (nlmsg "unlink(%s) returned %d, not -1") [PStr (Some b); PNum ret] ,,
  do fd <- call (Sopen b O_CW);
  fail_if (negb (fd =? -1)) (nlmsg "open(%s) returned %d, not -1") [PStr (Some b); PNum fd] ,,
  do ret <- call (Slink b b);
  fail_if (negb (ret =? -1)) (nlmsg "link(%s, %s) returned %d, not -1")
    [PStr (Some b); PStr (Some b); PNum ret] ,,
  do ret <- call (Sexec b [str "xx"]);
  fail_if (negb (ret =? -1)) (nlmsg "exec(%s) returned %d, not -1") [PStr (Some b); PNum fd] ,,
  fork_or (copyinstr2_child fd) (nlmsg "fork failed") [] ,,
  do w <- call Swaitst;
  fail_if (negb (w.2 =? 747)) (nlmsg "exec(echo, BIG) succeeded, should have failed") [].

(** A message that prints the string at [b] between two parts. *)
Definition fail_at (fuel : nat) (c : bool) (msg : list Z) (b : Z) (msg' : list Z) (args : list parg) : prog unit :=
  if c then
    u_printf msg [] ,,
    u_puts_at fuel b ,,
    fail msg' args
  else Ret tt.

Definition copyinstr3 (fuel : nat) (s : list Z) : prog unit :=
  call (Ssbrk 8192) ,,
  do top <- call (Ssbrk 0);
  let top := u64 top in
  (if negb (top mod PGSIZE =? 0) then call (Ssbrk (PGSIZE - top mod PGSIZE)) ,, Ret tt else Ret tt) ,,
  do top <- call (Ssbrk 0);
  let top := u64 top in
  fail_if (negb (top mod PGSIZE =? 0)) (nlmsg "oops") [] ,,
  let b := u64 (top - 1) in
  call (Sstore b 1 (ch "x")) ,,
  do ret <- call (Sunlink_at b);
  fail_at fuel (negb (ret =? -1)) (str "unlink(") b (nlmsg ") returned %d, not -1") [PNum ret] ,,
  do fd <- call (Sopen_at b O_CW);
  fail_at fuel (negb (fd =? -1)) (str "open(") b (nlmsg ") returned %d, not -1") [PNum fd] ,,
  do ret <- call (Slink_at (inr b) (inr b));
  (if negb (ret =? -1) then
     u_printf (str "link(") [] ,,
     u_puts_at fuel b ,,
     fail_at fuel true (str ", ") b (nlmsg ") returned %d, not -1") [PNum ret]
   else Ret tt) ,,
  do ret <- call (Sexec_at (inr b) [inl (str "xx")]);
  fail_at fuel (negb (ret =? -1)) (str "exec(") b (nlmsg ") returned %d, not -1") [PNum fd].

Definition rwsbrk (s : list Z) : prog unit :=
  do a <- call (Ssbrk 8192);
  fail_if (a =? -1) (nlmsg "sbrk(rwsbrk) failed") [] ,,
  do r <- call (Ssbrk (-8192));
  fail_if (r =? -1) (nlmsg "sbrk(rwsbrk) shrink failed") [] ,,
  do fd <- call (Sopen (str "rwsbrk") O_CW);
  fail_if (fd <? 0) (nlmsg "open(rwsbrk) failed") [] ,,
  do n <- call (Swrite_at fd (a + 4096) 1024);
  fail_if (0 <=? n) (nlmsg "write(fd, %p, 1024) returned %d, not -1") [PNum (a + 4096); PNum n] ,,
  call (Sclose fd) ,,
  call (Sunlink (str "rwsbrk")) ,,
  do fd <- call (Sopen (str "README") O_RDONLY);
  fail_if (fd <? 0) (nlmsg "open(rwsbrk) failed") [] ,,
  do n <- call (Sread_at fd (a + 4096) 10);
  fail_if (0 <=? n) (nlmsg "read(fd, %p, 10) returned %d, not -1") [PNum (a + 4096); PNum n] ,,
  call (Sclose fd) ,,
  Exit 0.

Definition validatetest (s : list Z) : prog unit :=
  for_range 0 (1100 * 1024 + 1) PGSIZE (fun p =>
    do r <- call (Slink_at (inl (str "nosuchfile")) (inr p));
    fail_if (negb (r =? -1)) (nlmsg "%s: link should not succeed") [named s]).

Definition argptest (s : list Z) : prog unit :=
  do fd <- call (Sopen (str "init") O_RDONLY);
  fail_if (fd <? 0) (nlmsg "%s: open failed") [named s] ,,
  do a <- call (Ssbrk 0);
  call (Sread_at fd (u64 (a - 1)) (-1)) ,,
  call (Sclose fd) ,,
  Ret tt.

Definition pgbug (s : list Z) : prog unit :=
  let big := 0xeaeb0b5b00002f5e in
  call (Sexec_at (inr big) []) ,,
  call (Spipe_at big) ,,
  Exit 0.

Definition badarg (s : list Z) : prog unit :=
  times (Z.to_nat 50000) (call (Sexec_at (inl (str "echo")) [inr 0xffffffff]) ,, Ret tt) ,,
  Exit 0.

(** ** Growing and shrinking *)

(** The loop that grows byte by byte; [a] after it. *)
Fixpoint sbrk_bytes (k : nat) (s : list Z) (i a : Z) : prog Z :=
  match k with
  | O => Ret a
  | S k =>
      do b <- call (Ssbrk 1);
      fail_if (negb (b =? a)) (nlmsg "%s: sbrk test failed %d %p %p") [named s; PNum i; PNum a; PNum b] ,,
      call (Sstore b 1 1) ,,
      sbrk_bytes k s (i + 1) (b + 1)
  end.

Definition TOOMUCH : Z := 1024 * 1024 * 1024.

Definition sbrkbasic_child : prog unit :=
  do a <- call (Ssbrk TOOMUCH);
  if a =? -1 then Exit 0
  else
    for_range a (a + TOOMUCH) 4096 (fun b => call (Sstore b 1 99)) ,,
    Exit 1.

Definition sbrkbasic (s : list Z) : prog unit :=
  fork_or sbrkbasic_child (nlmsg "fork failed in sbrkbasic") [] ,,
  do w <- call Swaitst;
  fail_if (w.2 =? 1) (nlmsg "%s: too much memory allocated!") [named s] ,,
  do a <- call (Ssbrk 0);
  do a <- sbrk_bytes (Z.to_nat 5000) s 0 a;
  do pid <- call Sfork;
  fail_if (pid <? 0) (nlmsg "%s: sbrk test fork failed") [named s] ,,
  call (Ssbrk 1) ,,
  do c <- call (Ssbrk 1);
  fail_if (negb (c =? a + 1)) (nlmsg "%s: sbrk test failed post-fork") [named s] ,,
  if pid =? 0 then Exit 0
  else
    do w <- call Swaitst;
    Exit w.2.

Definition BIG : Z := 100 * 1024 * 1024.

Definition sbrkmuch (s : list Z) : prog unit :=
  do oldbrk <- call (Ssbrk 0);
  do a <- call (Ssbrk 0);
  let amt := u64 (BIG - a) in
  do p <- call (Ssbrk (s32 amt));
  fail_if (negb (p =? a)) (nlmsg "%s: sbrk test failed to grow big address space; enough phys mem?") [named s] ,,
  do eee <- call (Ssbrk 0);
  for_range a eee 4096 (fun pp => call (Sstore pp 1 1)) ,,
  let lastaddr := BIG - 1 in
  call (Sstore lastaddr 1 99) ,,
  do a <- call (Ssbrk 0);
  do c <- call (Ssbrk (- PGSIZE));
  fail_if (c =? -1) (nlmsg "%s: sbrk could not deallocate") [named s] ,,
  do c <- call (Ssbrk 0);
  fail_if (negb (c =? a - PGSIZE))
    (nlmsg "%s: sbrk deallocation produced wrong address, a %p c %p") [named s; PNum a; PNum c] ,,
  do a <- call (Ssbrk 0);
  do c <- call (Ssbrk PGSIZE);
  do bad <- (if negb (c =? a) then Ret true else do b <- call (Ssbrk 0); Ret (negb (b =? a + PGSIZE)));
  fail_if bad (nlmsg "%s: sbrk re-allocation failed, a %p c %p") [named s; PNum a; PNum c] ,,
  do last <- call (Sload lastaddr 1);
  fail_if (last =? 99) (nlmsg "%s: sbrk de-allocation didn't really deallocate") [named s] ,,
  do a <- call (Ssbrk 0);
  do b <- call (Ssbrk 0);
  do c <- call (Ssbrk (s32 (- (b - oldbrk))));
  fail_if (negb (c =? a)) (nlmsg "%s: sbrk downsize failed, a %p c %p") [named s; PNum a; PNum c].

(** The parent of a child that the kernel must kill. *)
Definition must_be_killed : prog unit :=
  do w <- call Swaitst;
  if negb (w.2 =? -1) then Exit 1 else Ret tt.

Definition kernmem (s : list Z) : prog unit :=
  for_range KERNBASE (KERNBASE + 2000000) 50000 (fun a =>
    fork_or
      (do v <- call (Sload a 1);
       fail (nlmsg "%s: oops could read %p = %x") [named s; PNum a; PNum v])
      (nlmsg "%s: fork failed") [named s] ,,
    must_be_killed).

(** From [MAXVA] on 26 shifts make [a] zero. *)
Fixpoint MAXVAplus_loop (fuel : nat) (s : list Z) (a : Z) : prog unit :=
  if a =? 0 then Ret tt
  else
    match fuel with
    | O => NoFuel
    | S fuel =>
        fork_or
          (call (Sstore a 1 99) ,,
           fail (nlmsg "%s: oops wrote %p") [named s; PNum a])
          (nlmsg "%s: fork failed") [named s] ,,
        must_be_killed ,,
        MAXVAplus_loop fuel s (u64 (Z.shiftl a 1))
    end.

Definition MAXVAplus (s : list Z) : prog unit := MAXVAplus_loop 26 s MAXVA.

(** [for(;;) sleep(1000);] *)
Fixpoint sleep_forever (fuel : nat) : prog unit :=
  match fuel with
  | O => NoFuel
  | S fuel => call (Ssleep 1000) ,, sleep_forever fuel
  end.

(** The children of [sbrkfail]; their pids. *)
Fixpoint sbrkfail_forks (k fuel : nat) (fds0 fds1 : Z) : prog (list Z) :=
  match k with
  | O => Ret []
  | S k =>
      do pid <- call Sfork;
      (if pid =? 0 then
         do a <- call (Ssbrk 0);
         call (Ssbrk (s32 (u64 (BIG - u64 a)))) ,,
         call (Swrite fds1 (str "x")) ,,
         sleep_forever fuel
       else Ret tt) ,,
      (if negb (pid =? -1) then call (Sread fds0 1) ,, Ret tt else Ret tt) ,,
      do pids <- sbrkfail_forks k fuel fds0 fds1;
      Ret (pid :: pids)
  end.

(** The loop that reads a byte of each page; [n] after it. *)
Fixpoint sum_pages (k : nat) (a i n : Z) : prog Z :=
  match k with
  | O => Ret n
  | S k =>
      do v <- call (Sload (a + i) 1);
      sum_pages k a (i + PGSIZE) (s32 (n + v))
  end.

Definition sbrkfail_child (s : list Z) : prog unit :=
  do a <- call (Ssbrk 0);
  call (Ssbrk (10 * BIG)) ,,
  do n <- sum_pages (Z.to_nat (10 * BIG / PGSIZE)) a 0 0;
  fail (nlmsg "%s: allocate a lot of memory succeeded %d") [named s; PNum n].

Definition sbrkfail (fuel : nat) (s : list Z) : prog unit :=
  do p <- call Spipe;
  let '(r, (fds0, fds1)) := p in
  fail_if (negb (r =? 0)) (nlmsg "%s: pipe() failed") [named s] ,,
  do pids <- sbrkfail_forks 10 fuel fds0 fds1;
  do c <- call (Ssbrk PGSIZE);
  each pids (fun pid =>
    if pid =? -1 then Ret tt
    else call (Skill pid) ,, call Swait ,, Ret tt) ,,
  fail_if (c =? -1) (nlmsg "%s: failed sbrk leaked memory") [named s] ,,
  fork_or (sbrkfail_child s) (nlmsg "%s: fork failed") [named s] ,,
  do w <- call Swaitst;
  if negb (w.2 =? -1) && negb (w.2 =? 2) then Exit 1 else Ret tt.

Definition sbrkarg (s : list Z) : prog unit :=
  do a <- call (Ssbrk PGSIZE);
  do fd <- call (Sopen (str "sbrk") O_CW);
  call (Sunlink (str "sbrk")) ,,
  fail_if (fd <? 0) (nlmsg "%s: open sbrk failed") [named s] ,,
  do n <- call (Swrite_at fd a PGSIZE);
  fail_if (n <? 0) (nlmsg "%s: write sbrk failed") [named s] ,,
  call (Sclose fd) ,,
  do a <- call (Ssbrk PGSIZE);
  do r <- call (Spipe_at a);
  fail_if (negb (r =? 0)) (nlmsg "%s: pipe() failed") [named s].

Definition bsstest (s : list Z) : prog unit :=
  do uninit <- call (Sarray "uninit" 10000);
  each (seq 0 (Z.to_nat 10000)) (fun i =>
    fail_if (negb (get8 uninit (Z.of_nat i) =? 0)) (nlmsg "%s: bss test failed") [named s]).

Definition stacktest (s : list Z) : prog unit :=
  do pid <- call Sfork;
  (if pid =? 0 then
     do sp <- call Ssp;
     do v <- call (Sload (u64 (sp - USERSTACK * PGSIZE)) 1);
     fail (nlmsg "%s: stacktest: read below stack %d") [named s; PNum v]
   else fail_if (pid <? 0) (nlmsg "%s: fork failed") [named s]) ,,
  do w <- call Swaitst;
  if w.2 =? -1 then Exit 0 else Exit w.2.

Definition nowrite (s : list Z) : prog unit :=
  each (0 :: wild_addrs) (fun addr =>
    do pid <- call Sfork;
    (if pid =? 0 then
       call (Sstore addr 4 10) ,,
       u_printf (nlmsg "%s: write to %p did not fail!") [named s; PNum addr] ,,
       Exit 0
     else fail_if (pid <? 0) (nlmsg "%s: fork failed") [named s]) ,,
    do w <- call Swaitst;
    if w.2 =? 0 then Exit 1 else Ret tt) ,,
  Exit 0.

(** One of the three parts of [sbrkbugs]; the child shrinks itself. *)
Definition sbrkbugs_part (child : prog unit) : prog unit :=
  fork_or (child ,, Exit 0) (nlmsg "fork failed") [] ,,
  call Swait ,,
  Ret tt.

Definition sbrkbugs (s : list Z) : prog unit :=
  sbrkbugs_part
    (do a <- call (Ssbrk 0);
     let sz := s32 a in
     call (Ssbrk (s32 (- sz))) ,, Ret tt) ,,
  sbrkbugs_part
    (do a <- call (Ssbrk 0);
     let sz := s32 a in
     call (Ssbrk (s32 (- (sz - 3500)))) ,, Ret tt) ,,
  sbrkbugs_part
    (do a <- call (Ssbrk 0);
     call (Ssbrk (s32 (u64 (10 * 4096 + 2048 - u64 a)))) ,,
     call (Ssbrk (-10)) ,,
     Ret tt) ,,
  Exit 0.

Definition sbrklast (s : list Z) : prog unit :=
  do top <- call (Ssbrk 0);
  let top := u64 top in
  (if negb (top mod 4096 =? 0) then call (Ssbrk (4096 - top mod 4096)) ,, Ret tt else Ret tt) ,,
  call (Ssbrk 4096) ,,
  call (Ssbrk 10) ,,
  call (Ssbrk (-20)) ,,
  do top <- call (Ssbrk 0);
  let p := u64 (top - 64) in
  call (Sstore p 1 (ch "x")) ,,
  call (Sstore (p + 1) 1 0) ,,
  do fd <- call (Sopen_at p O_CRW);
  call (Swrite_at fd p 1) ,,
  call (Sclose fd) ,,
  do fd <- call (Sopen_at p O_RDWR);
  call (Sstore p 1 0) ,,
  call (Sread_at fd p 1) ,,
  do c <- call (Sload p 1);
  if negb (c =? ch "x") then Exit 1 else Ret tt.

Definition sbrk8000 (s : list Z) : prog unit :=
  call (Ssbrk (s32 0x80000004)) ,,
  do top <- call (Ssbrk 0);
  do v <- call (Sload (u64 (top - 1)) 1);
  call (Sstore (u64 (top - 1)) 1 (u8 (v + 1))).

(** ** exec without memory, and with large arguments *)

(** [while(1)]: take pages until there are none. *)
Fixpoint take_memory (fuel : nat) : prog unit :=
  match fuel with
  | O => NoFuel
  | S fuel =>
      do a <- call (Ssbrk 4096);
      if a =? -1 then Ret tt
      else call (Sstore (a + 4096 - 1) 1 1) ,, take_memory fuel
  end.

Definition execout_child (fuel : nat) (avail : Z) : prog unit :=
  take_memory fuel ,,
  times (Z.to_nat avail) (call (Ssbrk (-4096)) ,, Ret tt) ,,
  call (Sclose 1) ,,
  call (Sexec (str "echo") [str "echo"; str "x"]) ,,
  Exit 0.

Definition execout (fuel : nat) (s : list Z) : prog unit :=
  for_range 0 15 1 (fun avail =>
    fork_or (execout_child fuel avail) (nlmsg "fork failed") [] ,,
    call Swait ,,
    Ret tt) ,,
  Exit 0.

Definition bigargtest_child : prog unit :=
  let big := replicate (Z.to_nat 399) (ch " ") in
  call (Sexec (str "echo") (replicate (MAXARG - 1) big)) ,,
  do fd <- call (Sopen (str "bigarg-ok") O_CREATE);
  call (Sclose fd) ,,
  Exit 0.

Definition bigargtest (s : list Z) : prog unit :=
  call (Sunlink (str "bigarg-ok")) ,,
  do pid <- call Sfork;
  (if pid =? 0 then bigargtest_child
   else fail_if (pid <? 0) (nlmsg "%s: bigargtest: fork failed") [named s]) ,,
  do w <- call Swaitst;
  (if negb (w.2 =? 0) then Exit w.2 else Ret tt) ,,
  do fd <- call (Sopen (str "bigarg-ok") 0);
  fail_if (fd <? 0) (nlmsg "%s: bigarg test failed!") [named s] ,,
  call (Sclose fd) ,,
  Ret tt.
