(* ===== verification/UsertestsFs.v ===== *)
(** * usertests: files and directories

    Models the functions of [src/xv6-os/user/usertests.c] that create, write,
    link, truncate and remove files and directories, alone and from several
    processes. The global [buf] is zero when a test starts; what it has later
    is written out where the code looks at it. Loops that end with the file or
    the disk run on fuel. *)
From S2P Require Import Prelude CString Layout Blocks Printf User Umalloc Bio Fs FsPath Sysfile Utils Grind Tests UsertestsMem.

Definition BUFSZ : Z := (MAXOPBLOCKS + 2) * BSIZE.

Definition O_CWT : Z := Z.lor O_CW O_TRUNC.
Definition O_CRWT : Z := Z.lor O_CRW O_TRUNC.

(** [open] must give a descriptor. *)
Definition open_or (path : list Z) (mode : Z) (msg : list Z) (args : list parg) : prog Z :=
  do fd <- call (Sopen path mode);
  fail_if (fd <? 0) msg args ,,
  Ret fd.

(** The result of a call must not be the one that is given. *)
Definition want (e : sys Z) (bad : Z -> bool) (msg : list Z) (s : list Z) : prog unit :=
  do r <- call e;
  fail_if (bad r) msg [named s].

Definition neg (r : Z) : bool := r <? 0.
Definition nonneg (r : Z) : bool := 0 <=? r.
Definition zero (r : Z) : bool := r =? 0.
Definition nonzero (r : Z) : bool := negb (r =? 0).

(** ** Truncation *)

(** [n = read(fd, buf, 32)] must give [k] bytes. *)
Definition read_want (s : list Z) (fd k : Z) (before : prog unit) (msg : list Z) : prog unit :=
  do r <- call (Sread fd 32);
  if negb (r.1 =? k) then before ,, fail msg [named s; PNum r.1] else Ret tt.

Definition truncate1 (s : list Z) : prog unit :=
  let truncfile := str "truncfile" in
  call (Sunlink truncfile) ,,
  do fd1 <- call (Sopen truncfile O_CWT);
  call (Swrite fd1 (str "abcd")) ,,
  call (Sclose fd1) ,,
  do fd2 <- call (Sopen truncfile O_RDONLY);
  read_want s fd2 4 (Ret tt) (nlmsg "%s: read %d bytes, wanted 4") ,,
  do fd1 <- call (Sopen truncfile (Z.lor O_WRONLY O_TRUNC));
  do fd3 <- call (Sopen truncfile O_RDONLY);
  read_want s fd3 0 (u_printf (nlmsg "aaa fd3=%d") [PNum fd3]) (nlmsg "%s: read %d bytes, wanted 0") ,,
  read_want s fd2 0 (u_printf (nlmsg "bbb fd2=%d") [PNum fd2]) (nlmsg "%s: read %d bytes, wanted 0") ,,
  call (Swrite fd1 (str "abcdef")) ,,
  read_want s fd3 6 (Ret tt) (nlmsg "%s: read %d bytes, wanted 6") ,,
  read_want s fd2 2 (Ret tt) (nlmsg "%s: read %d bytes, wanted 2") ,,
  call (Sunlink truncfile) ,,
  call (Sclose fd1) ,,
  call (Sclose fd2) ,,
  call (Sclose fd3) ,,
  Ret tt.

Definition truncate2 (s : list Z) : prog unit :=
  let truncfile := str "truncfile" in
  call (Sunlink truncfile) ,,
  do fd1 <- call (Sopen truncfile O_CWT);
  call (Swrite fd1 (str "abcd")) ,,
  do fd2 <- call (Sopen truncfile (Z.lor O_TRUNC O_WRONLY));
  do n <- call (Swrite fd1 (str "x"));
  fail_if (negb (n =? -1)) (nlmsg "%s: write returned %d, expected -1") [named s; PNum n] ,,
  call (Sunlink truncfile) ,,
  call (Sclose fd1) ,,
  call (Sclose fd2) ,,
  Ret tt.

Definition truncate3_child (s : list Z) : prog unit :=
  times 100
    (do fd <- open_or (str "truncfile") O_WRONLY (nlmsg "%s: open failed") [named s];
     do n <- call (Swrite fd (str "1234567890"));
     fail_if (negb (n =? 10)) (nlmsg "%s: write got %d, expected 10") [named s; PNum n] ,,
     call (Sclose fd) ,,
     do fd <- call (Sopen (str "truncfile") O_RDONLY);
     call (Sread fd 32) ,,
     call (Sclose fd) ,,
     Ret tt) ,,
  Exit 0.

Definition truncate3 (s : list Z) : prog unit :=
  do fd <- call (Sopen (str "truncfile") O_CWT);
  call (Sclose fd) ,,
  fork_or (truncate3_child s) (nlmsg "%s: fork failed") [named s] ,,
  times 150
    (do fd <- open_or (str "truncfile") O_CWT (nlmsg "%s: open failed") [named s];
     do n <- call (Swrite fd (str "xxx"));
     fail_if (negb (n =? 3)) (nlmsg "%s: write got %d, expected 3") [named s; PNum n] ,,
     call (Sclose fd) ,,
     Ret tt) ,,
  do w <- call Swaitst;
  call (Sunlink (str "truncfile")) ,,
  Exit w.2.

(** ** References to directories *)

Definition iputtest (s : list Z) : prog unit :=
  want (Smkdir (str "iputdir")) neg (nlmsg "%s: mkdir failed") s ,,
  want (Schdir (str "iputdir")) neg (nlmsg "%s: chdir iputdir failed") s ,,
  want (Sunlink (str "../iputdir")) neg (nlmsg "%s: unlink ../iputdir failed") s ,,
  want (Schdir (str "/")) neg (nlmsg "%s: chdir / failed") s.

Definition exitiputtest (s : list Z) : prog unit :=
  fork_or
    (want (Smkdir (str "iputdir")) neg (nlmsg "%s: mkdir failed") s ,,
     want (Schdir (str "iputdir")) neg (nlmsg "%s: child chdir failed") s ,,
     want (Sunlink (str "../iputdir")) neg (nlmsg "%s: unlink ../iputdir failed") s ,,
     Exit 0)
    (nlmsg "%s: fork failed") [named s] ,,
  do w <- call Swaitst;
  Exit w.2.

Definition openiputtest (s : list Z) : prog unit :=
  want (Smkdir (str "oidir")) neg (nlmsg "%s: mkdir oidir failed") s ,,
  fork_or
    (want (Sopen (str "oidir") O_RDWR) nonneg (nlmsg "%s: open directory for write succeeded") s ,,
     Exit 0)
    (nlmsg "%s: fork failed") [named s] ,,
  call (Ssleep 1) ,,
  want (Sunlink (str "oidir")) nonzero (nlmsg "%s: unlink failed") s ,,
  do w <- call Swaitst;
  Exit w.2.

(** ** Small and large files *)

Definition opentest (s : list Z) : prog unit :=
  do fd <- open_or (str "echo") 0 (nlmsg "%s: open echo failed!") [named s];
  call (Sclose fd) ,,
  want (Sopen (str "doesnotexist") 0) nonneg (nlmsg "%s: open doesnotexist succeeded!") s.

Definition writetest (s : list Z) : prog unit :=
  let N := 100 in
  let SZ := 10 in
  do fd <- open_or (str "small") O_CRW (nlmsg "%s: error: creat small failed!") [named s];
  for_range 0 N 1 (fun i =>
    do w <- call (Swrite fd (str "aaaaaaaaaa"));
    fail_if (negb (w =? SZ)) (nlmsg "%s: error: write aa %d new file failed") [named s; PNum i] ,,
    do w <- call (Swrite fd (str "bbbbbbbbbb"));
    fail_if (negb (w =? SZ)) (nlmsg "%s: error: write bb %d new file failed") [named s; PNum i]) ,,
  call (Sclose fd) ,,
  do fd <- open_or (str "small") O_RDONLY (nlmsg "%s: error: open small failed!") [named s];
  do r <- call (Sread fd (N * SZ * 2));
  fail_if (negb (r.1 =? N * SZ * 2)) (nlmsg "%s: read failed") [named s] ,,
  call (Sclose fd) ,,
  want (Sunlink (str "small")) neg (nlmsg "%s: unlink small failed") s.

(** The loop of [writebig] that reads; [buf] has what was read so far. *)
Fixpoint writebig_reads (fuel : nat) (s : list Z) (fd n : Z) (buf : list Z) : prog unit :=
  match fuel with
  | O => NoFuel
  | S fuel =>
      do r <- call (Sread fd BSIZE);
      let i := r.1 in
      let buf := overwrite r.2 buf in
      if i =? 0 then
        fail_if (negb (n =? MAXFILE)) (str "%s: read only %d blocks from big") [named s; PNum n]
      else
        fail_if (negb (i =? BSIZE)) (nlmsg "%s: read failed %d") [named s; PNum i] ,,
        let x := s32 (get32 buf 0) in
        fail_if (negb (x =? n)) (nlmsg "%s: read content of block %d is %d") [named s; PNum n; PNum x] ,,
        writebig_reads fuel s fd (n + 1) buf
  end.

(** The first block of [buf] in round [i] of [writebig]. *)
Definition writebig_buf (i : Z) : list Z := le 4 i ++ replicate (Z.to_nat (BSIZE - 4)) 0.

Definition writebig (fuel : nat) (s : list Z) : prog unit :=
  do fd <- open_or (str "big") O_CRW (nlmsg "%s: error: creat big failed!") [named s];
  for_range 0 MAXFILE 1 (fun i =>
    do w <- call (Swrite fd (writebig_buf i));
    fail_if (negb (w =? BSIZE)) (nlmsg "%s: error: write big file failed i=%d") [named s; PNum i]) ,,
  call (Sclose fd) ,,
  do fd <- open_or (str "big") O_RDONLY (nlmsg "%s: error: open big failed!") [named s];
  writebig_reads fuel s fd 0 (writebig_buf (MAXFILE - 1)) ,,
  call (Sclose fd) ,,
  want (Sunlink (str "big")) neg (nlmsg "%s: unlink big failed") s.

Definition createtest (s : list Z) : prog unit :=
  let name i := [ch "a"; ch "0" + i] in
  for_range 0 52 1 (fun i =>
    do fd <- call (Sopen (name i) O_CRW);
    call (Sclose fd) ,,
    Ret tt) ,,
  for_range 0 52 1 (fun i => call (Sunlink (name i)) ,, Ret tt).

Definition dirtest (s : list Z) : prog unit :=
  want (Smkdir (str "dir0")) neg (nlmsg "%s: mkdir failed") s ,,
  want (Schdir (str "dir0")) neg (nlmsg "%s: chdir dir0 failed") s ,,
  want (Schdir (str "..")) neg (nlmsg "%s: chdir .. failed") s ,,
  want (Sunlink (str "dir0")) neg (nlmsg "%s: unlink dir0 failed") s.

(** ** Several processes *)

(** The loop of [sharedfd] that counts, over all of its [buf] each time. *)
Fixpoint sharedfd_count (fuel : nat) (fd : Z) (buf : list Z) (nc np : Z) : prog (Z * Z) :=
  match fuel with
  | O => NoFuel
  | S fuel =>
      do r <- call (Sread fd 10);
      let buf := overwrite r.2 buf in
      if 0 <? r.1 then
        sharedfd_count fuel fd buf
          (nc + Z.of_nat (count_occ Z.eq_dec (take 10 buf) (ch "c")))
          (np + Z.of_nat (count_occ Z.eq_dec (take 10 buf) (ch "p")))
      else Ret (nc, np)
  end.

Definition sharedfd (fuel : nat) (s : list Z) : prog unit :=
  let N := 1000 in
  let SZ := 10 in
  call (Sunlink (str "sharedfd")) ,,
  do fd <- open_or (str "sharedfd") O_CRW (str "%s: cannot open sharedfd for writing") [named s];
  do pid <- call Sfork;
  let buf := replicate (Z.to_nat SZ) (if pid =? 0 then ch "c" else ch "p") in
  times (Z.to_nat N)
    (do w <- call (Swrite fd buf);
     fail_if (negb (w =? SZ)) (nlmsg "%s: write sharedfd failed") [named s]) ,,
  (if pid =? 0 then Exit 0
   else
     do w <- call Swaitst;
     if negb (w.2 =? 0) then Exit w.2 else Ret tt) ,,
  call (Sclose fd) ,,
  do fd <- open_or (str "sharedfd") 0 (nlmsg "%s: cannot open sharedfd for reading") [named s];
  do c <- sharedfd_count fuel fd buf 0 0;
  let '(nc, np) := c in
  call (Sclose fd) ,,
  call (Sunlink (str "sharedfd")) ,,
  if (nc =? N * SZ) && (np =? N * SZ) then Exit 0
  else fail (nlmsg "%s: nc/np test fails") [named s].

Definition fourfiles_name (pi : Z) : list Z := [ch "f"; ch "0" + pi].

Definition fourfiles_child (s : list Z) (pi : Z) : prog unit :=
  do fd <- open_or (fourfiles_name pi) O_CRW (nlmsg "%s: create failed") [named s];
  times 12
    (do n <- call (Swrite fd (replicate 500 (ch "0" + pi)));
     fail_if (negb (n =? 500)) (nlmsg "write failed %d") [PNum n]) ,,
  Exit 0.

(** The loop that reads file [i]; [total] and [buf] after it. *)
Fixpoint fourfiles_read (fuel : nat) (s : list Z) (fd i total : Z) (buf : list Z) : prog (Z * list Z) :=
  match fuel with
  | O => NoFuel
  | S fuel =>
      do r <- call (Sread fd BUFSZ);
      let n := r.1 in
      let buf := overwrite r.2 buf in
      if 0 <? n then
        each (take (Z.to_nat n) buf) (fun c =>
          fail_if (negb (c =? ch "0" + i)) (nlmsg "%s: wrong char") [named s]) ,,
        fourfiles_read fuel s fd i (total + n) buf
      else Ret (total, buf)
  end.

Fixpoint fourfiles_check (k fuel : nat) (s : list Z) (i : Z) (buf : list Z) : prog unit :=
  match k with
  | O => Ret tt
  | S k =>
      do fd <- call (Sopen (fourfiles_name i) 0);
      do r <- fourfiles_read fuel s fd i 0 buf;
      let '(total, buf) := r in
      call (Sclose fd) ,,
      fail_if (negb (total =? 12 * 500)) (nlmsg "wrong length %d") [PNum total] ,,
      call (Sunlink (fourfiles_name i)) ,,
      fourfiles_check k fuel s (i + 1) buf
  end.

Definition fourfiles (fuel : nat) (s : list Z) : prog unit :=
  for_range 0 4 1 (fun pi =>
    call (Sunlink (fourfiles_name pi)) ,,
    fork_or (fourfiles_child s pi) (nlmsg "%s: fork failed") [named s] ,,
    Ret tt) ,,
  times 4 (do w <- call Swaitst; if negb (w.2 =? 0) then Exit w.2 else Ret tt) ,,
  fourfiles_check 4 fuel s 0 (replicate (Z.to_nat BUFSZ) 0).

Definition createdelete_name (pi i : Z) : list Z := [ch "p" + pi; ch "0" + i].

Definition createdelete_child (s : list Z) (pi : Z) : prog unit :=
  for_range 0 20 1 (fun i =>
    do fd <- open_or (createdelete_name pi i) O_CRW (nlmsg "%s: create failed") [named s];
    call (Sclose fd) ,,
    if (0 <? i) && (i mod 2 =? 0) then
      want (Sunlink (createdelete_name pi (i / 2))) neg (nlmsg "%s: unlink failed") s
    else Ret tt) ,,
  Exit 0.

Definition createdelete_check (s : list Z) (i pi : Z) : prog unit :=
  let name := createdelete_name pi i in
  do fd <- call (Sopen name 0);
  (if ((i =? 0) || (10 <=? i)) && (fd <? 0) then
     fail (nlmsg "%s: oops createdelete %s didn't exist") [named s; PStr (Some name)]
   else if ((1 <=? i) && (i <? 10)) && (0 <=? fd) then
     fail (nlmsg "%s: oops createdelete %s did exist") [named s; PStr (Some name)]
   else Ret tt) ,,
  if 0 <=? fd then call (Sclose fd) ,, Ret tt else Ret tt.

Definition createdelete (s : list Z) : prog unit :=
  for_range 0 4 1 (fun pi =>
    fork_or (createdelete_child s pi) (nlmsg "%s: fork failed") [named s] ,,
    Ret tt) ,,
  times 4 (do w <- call Swaitst; if negb (w.2 =? 0) then Exit 1 else Ret tt) ,,
  for_range 0 20 1 (fun i => for_range 0 4 1 (fun pi => createdelete_check s i pi)) ,,
  for_range 0 20 1 (fun i => for_range 0 4 1 (fun pi => call (Sunlink (createdelete_name pi i)) ,, Ret tt)).

(** ** Links *)

Definition unlinkread (s : list Z) : prog unit :=
  let f := str "unlinkread" in
  do fd <- open_or f O_CRW (nlmsg "%s: create unlinkread failed") [named s];
  call (Swrite fd (str "hello")) ,,
  call (Sclose fd) ,,
  do fd <- open_or f O_RDWR (nlmsg "%s: open unlinkread failed") [named s];
  want (Sunlink f) nonzero (nlmsg "%s: unlink unlinkread failed") s ,,
  do fd1 <- call (Sopen f O_CRW);
  call (Swrite fd1 (str "yyy")) ,,
  call (Sclose fd1) ,,
  do r <- call (Sread fd BUFSZ);
  fail_if (negb (r.1 =? 5)) (str "%s: unlinkread read failed") [named s] ,,
  let buf := overwrite r.2 (replicate (Z.to_nat BUFSZ) 0) in
  fail_if (negb (get8 buf 0 =? ch "h")) (nlmsg "%s: unlinkread wrong data") [named s] ,,
  do w <- call (Swrite fd (take 10 buf));
  fail_if (negb (w =? 10)) (nlmsg "%s: unlinkread write failed") [named s] ,,
  call (Sclose fd) ,,
  call (Sunlink f) ,,
  Ret tt.

Definition linktest (s : list Z) : prog unit :=
  let lf1 := str "lf1" in
  let lf2 := str "lf2" in
  call (Sunlink lf1) ,,
  call (Sunlink lf2) ,,
  do fd <- open_or lf1 O_CRW (nlmsg "%s: create lf1 failed") [named s];
  do w <- call (Swrite fd (str "hello"));
  fail_if (negb (w =? 5)) (nlmsg "%s: write lf1 failed") [named s] ,,
  call (Sclose fd) ,,
  want (Slink lf1 lf2) neg (nlmsg "%s: link lf1 lf2 failed") s ,,
  call (Sunlink lf1) ,,
  want (Sopen lf1 0) nonneg (nlmsg "%s: unlinked lf1 but it is still there!") s ,,
  do fd <- open_or lf2 0 (nlmsg "%s: open lf2 failed") [named s];
  do r <- call (Sread fd BUFSZ);
  fail_if (negb (r.1 =? 5)) (nlmsg "%s: read lf2 failed") [named s] ,,
  call (Sclose fd) ,,
  want (Slink lf2 lf2) nonneg (nlmsg "%s: link lf2 lf2 succeeded! oops") s ,,
  call (Sunlink lf2) ,,
  want (Slink lf2 lf1) nonneg (nlmsg "%s: link non-existent succeeded! oops") s ,,
  want (Slink (str ".") lf1) nonneg (nlmsg "%s: link . lf1 succeeded! oops") s.

Definition concreate_name (i : Z) : list Z := [ch "C"; ch "0" + i].

(** Round [i] of the first loop of [concreate]. *)
Definition concreate_make (i : Z) : prog unit :=
  let file := concreate_name i in
  call (Sunlink file) ,,
  do pid <- call Sfork;
  (if negb (pid =? 0) && (i mod 3 =? 1) then call (Slink (str "C0") file) ,, Ret tt
   else if (pid =? 0) && (i mod 5 =? 1) then call (Slink (str "C0") file) ,, Ret tt
   else
     do fd <- open_or file O_CRW (nlmsg "concreate create %s failed") [PStr (Some file)];
     call (Sclose fd) ,,
     Ret tt) ,,
  if pid =? 0 then Exit 0
  else
    do w <- call Swaitst;
    if negb (w.2 =? 0) then Exit 1 else Ret tt.

(** The loop over the directory: [de] is the last entry, [fa] the names
    seen; the number [n] of names. *)
Fixpoint concreate_list (fuel : nat) (s : list Z) (fd : Z) (de fa : list Z) (n : Z) : prog Z :=
  match fuel with
  | O => NoFuel
  | S fuel =>
      do r <- call (Sread fd 16);
      let de := overwrite r.2 de in
      if negb (0 <? r.1) then Ret n
      else if getn 2 de 0 =? 0 then concreate_list fuel s fd de fa n
      else
        let name := drop 2 de in
        if (get8 name 0 =? ch "C") && (get8 name 2 =? 0) then
          let i := get8 name 1 - ch "0" in
          fail_if ((i <? 0) || (40 <=? i)) (nlmsg "%s: concreate weird file %s")
            [named s; PStr (Some (upto_nul name))] ,,
          fail_if (negb (get8 fa i =? 0)) (nlmsg "%s: concreate duplicate file %s")
            [named s; PStr (Some (upto_nul name))] ,,
          concreate_list fuel s fd de (<[Z.to_nat i := 1]> fa) (n + 1)
        else concreate_list fuel s fd de fa n
  end.

(** Round [i] of the last loop of [concreate]. *)
Definition concreate_race (s : list Z) (i : Z) : prog unit :=
  let file := concreate_name i in
  do pid <- call Sfork;
  fail_if (pid <? 0) (nlmsg "%s: fork failed") [named s] ,,
  (if ((i mod 3 =? 0) && (pid =? 0)) || ((i mod 3 =? 1) && negb (pid =? 0)) then
     times 6 (do fd <- call (Sopen file 0); call (Sclose fd) ,, Ret tt)
   else times 6 (call (Sunlink file) ,, Ret tt)) ,,
  if pid =? 0 then Exit 0 else call Swait ,, Ret tt.

Definition concreate (fuel : nat) (s : list Z) : prog unit :=
  for_range 0 40 1 concreate_make ,,
  do fd <- call (Sopen (str ".") 0);
  do de <- call (Sarray "de" 16);
  do n <- concreate_list fuel s fd de (replicate 40 0) 0;
  call (Sclose fd) ,,
  fail_if (negb (n =? 40)) (nlmsg "%s: concreate not enough files in directory listing") [named s] ,,
  for_range 0 40 1 (concreate_race s).

Fixpoint linkunlink_loop (k : nat) (x : Z) : prog unit :=
  match k with
  | O => Ret tt
  | S k =>
      let x := u32 (x * 1103515245 + 12345) in
      (if x mod 3 =? 0 then
         do fd <- call (Sopen (str "x") O_CRW);
         call (Sclose fd) ,,
         Ret tt
       else if x mod 3 =? 1 then call (Slink (str "cat") (str "x")) ,, Ret tt
       else call (Sunlink (str "x")) ,, Ret tt) ,,
      linkunlink_loop k x
  end.

Definition linkunlink (s : list Z) : prog unit :=
  call (Sunlink (str "x")) ,,
  do pid <- call Sfork;
  fail_if (pid <? 0) (nlmsg "%s: fork failed") [named s] ,,
  linkunlink_loop 100 (if negb (pid =? 0) then 1 else 97) ,,
  if negb (pid =? 0) then call Swait ,, Ret tt else Exit 0.

(** ** Subdirectories *)

(** [subdir] in three parts: making the files, walking the directories, and
    the calls that must fail with the clean-up. *)
Definition subdir_make (s : list Z) : prog unit :=
  call (Sunlink (str "ff")) ,,
  want (Smkdir (str "dd")) nonzero (nlmsg "%s: mkdir dd failed") s ,,
  do fd <- open_or (str "dd/ff") O_CRW (nlmsg "%s: create dd/ff failed") [named s];
  call (Swrite fd (str "ff")) ,,
  call (Sclose fd) ,,
  want (Sunlink (str "dd")) nonneg (nlmsg "%s: unlink dd (non-empty dir) succeeded!") s ,,
  want (Smkdir (str "/dd/dd")) nonzero (nlmsg "%s: subdir mkdir dd/dd failed") s ,,
  do fd <- open_or (str "dd/dd/ff") O_CRW (nlmsg "%s: create dd/dd/ff failed") [named s];
  call (Swrite fd (str "FF")) ,,
  call (Sclose fd) ,,
  do fd <- open_or (str "dd/dd/../ff") 0 (nlmsg "%s: open dd/dd/../ff failed") [named s];
  do r <- call (Sread fd BUFSZ);
  fail_if (negb (r.1 =? 2) || negb (get8 (overwrite r.2 [0]) 0 =? ch "f"))
    (nlmsg "%s: dd/dd/../ff wrong content") [named s] ,,
  call (Sclose fd) ,,
  want (Slink (str "dd/dd/ff") (str "dd/dd/ffff")) nonzero (nlmsg "%s: link dd/dd/ff dd/dd/ffff failed") s.

Definition subdir_walk (s : list Z) : prog unit :=
  want (Sunlink (str "dd/dd/ff")) nonzero (nlmsg "%s: unlink dd/dd/ff failed") s ,,
  want (Sopen (str "dd/dd/ff") O_RDONLY) nonneg (nlmsg "%s: open (unlinked) dd/dd/ff succeeded") s ,,
  want (Schdir (str "dd")) nonzero (nlmsg "%s: chdir dd failed") s ,,
  want (Schdir (str "dd/../../dd")) nonzero (nlmsg "%s: chdir dd/../../dd failed") s ,,
  want (Schdir (str "dd/../../../dd")) nonzero (nlmsg "%s: chdir dd/../../../dd failed") s ,,
  want (Schdir (str "./..")) nonzero (nlmsg "%s: chdir ./.. failed") s ,,
  do fd <- open_or (str "dd/dd/ffff") 0 (nlmsg "%s: open dd/dd/ffff failed") [named s];
  do r <- call (Sread fd BUFSZ);
  fail_if (negb (r.1 =? 2)) (nlmsg "%s: read dd/dd/ffff wrong len") [named s] ,,
  call (Sclose fd) ,,
  want (Sopen (str "dd/dd/ff") O_RDONLY) nonneg (nlmsg "%s: open (unlinked) dd/dd/ff succeeded!") s.

Definition subdir_refused (s : list Z) : prog unit :=
  want (Sopen (str "dd/ff/ff") O_CRW) nonneg (nlmsg "%s: create dd/ff/ff succeeded!") s ,,
  want (Sopen (str "dd/xx/ff") O_CRW) nonneg (nlmsg "%s: create dd/xx/ff succeeded!") s ,,
  want (Sopen (str "dd") O_CREATE) nonneg (nlmsg "%s: create dd succeeded!") s ,,
  want (Sopen (str "dd") O_RDWR) nonneg (nlmsg "%s: open dd rdwr succeeded!") s ,,
  want (Sopen (str "dd") O_WRONLY) nonneg (nlmsg "%s: open dd wronly succeeded!") s ,,
  want (Slink (str "dd/ff/ff") (str "dd/dd/xx")) zero (nlmsg "%s: link dd/ff/ff dd/dd/xx succeeded!") s ,,
  want (Slink (str "dd/xx/ff") (str "dd/dd/xx")) zero (nlmsg "%s: link dd/xx/ff dd/dd/xx succeeded!") s ,,
  want (Slink (str "dd/ff") (str "dd/dd/ffff")) zero (nlmsg "%s: link dd/ff dd/dd/ffff succeeded!") s ,,
  want (Smkdir (str "dd/ff/ff")) zero (nlmsg "%s: mkdir dd/ff/ff succeeded!") s ,,
  want (Smkdir (str "dd/xx/ff")) zero (nlmsg "%s: mkdir dd/xx/ff succeeded!") s ,,
  want (Smkdir (str "dd/dd/ffff")) zero (nlmsg "%s: mkdir dd/dd/ffff succeeded!") s ,,
  want (Sunlink (str "dd/xx/ff")) zero (nlmsg "%s: unlink dd/xx/ff succeeded!") s ,,
  want (Sunlink (str "dd/ff/ff")) zero (nlmsg "%s: unlink dd/ff/ff succeeded!") s ,,
  want (Schdir (str "dd/ff")) zero (nlmsg "%s: chdir dd/ff succeeded!") s ,,
  want (Schdir (str "dd/xx")) zero (nlmsg "%s: chdir dd/xx succeeded!") s.

Definition subdir (s : list Z) : prog unit :=
  subdir_make s ,,
  subdir_walk s ,,
  subdir_refused s ,,
  want (Sunlink (str "dd/dd/ffff")) nonzero (nlmsg "%s: unlink dd/dd/ff failed") s ,,
  want (Sunlink (str "dd/ff")) nonzero (nlmsg "%s: unlink dd/ff failed") s ,,
  want (Sunlink (str "dd")) zero (nlmsg "%s: unlink non-empty dd succeeded!") s ,,
  want (Sunlink (str "dd/dd")) neg (nlmsg "%s: unlink dd/dd failed") s ,,
  want (Sunlink (str "dd")) neg (nlmsg "%s: unlink dd failed") s.

Definition fourteen (s : list Z) : prog unit :=
  want (Smkdir (str "12345678901234")) nonzero (nlmsg "%s: mkdir 12345678901234 failed") s ,,
  want (Smkdir (str "12345678901234/123456789012345")) nonzero
    (nlmsg "%s: mkdir 12345678901234/123456789012345 failed") s ,,
  do fd <- open_or (str "123456789012345/123456789012345/123456789012345") O_CREATE
    (nlmsg "%s: create 123456789012345/123456789012345/123456789012345 failed") [named s];
  call (Sclose fd) ,,
  do fd <- open_or (str "12345678901234/12345678901234/12345678901234") 0
    (nlmsg "%s: open 12345678901234/12345678901234/12345678901234 failed") [named s];
  call (Sclose fd) ,,
  want (Smkdir (str "12345678901234/12345678901234")) zero
    (nlmsg "%s: mkdir 12345678901234/12345678901234 succeeded!") s ,,
  want (Smkdir (str "123456789012345/12345678901234")) zero
    (nlmsg "%s: mkdir 12345678901234/123456789012345 succeeded!") s ,,
  each [str "123456789012345/12345678901234"; str "12345678901234/12345678901234";
        str "12345678901234/12345678901234/12345678901234";
        str "123456789012345/123456789012345/123456789012345";
        str "12345678901234/123456789012345"; str "12345678901234"]
    (fun path => call (Sunlink path) ,, Ret tt).

Definition rmdot (s : list Z) : prog unit :=
  want (Smkdir (str "dots")) nonzero (nlmsg "%s: mkdir dots failed") s ,,
  want (Schdir (str "dots")) nonzero (nlmsg "%s: chdir dots failed") s ,,
  want (Sunlink (str ".")) zero (nlmsg "%s: rm . worked!") s ,,
  want (Sunlink (str "..")) zero (nlmsg "%s: rm .. worked!") s ,,
  want (Schdir (str "/")) nonzero (nlmsg "%s: chdir / failed") s ,,
  want (Sunlink (str "dots/.")) zero (nlmsg "%s: unlink dots/. worked!") s ,,
  want (Sunlink (str "dots/..")) zero (nlmsg "%s: unlink dots/.. worked!") s ,,
  want (Sunlink (str "dots")) nonzero (nlmsg "%s: unlink dots failed!") s.

Definition dirfile (s : list Z) : prog unit :=
  let xx := str "dirfile/xx" in
  do fd <- open_or (str "dirfile") O_CREATE (nlmsg "%s: create dirfile failed") [named s];
  call (Sclose fd) ,,
  want (Schdir (str "dirfile")) zero (nlmsg "%s: chdir dirfile succeeded!") s ,,
  want (Sopen xx 0) nonneg (nlmsg "%s: create dirfile/xx succeeded!") s ,,
  want (Sopen xx O_CREATE) nonneg (nlmsg "%s: create dirfile/xx succeeded!") s ,,
  want (Smkdir xx) zero (nlmsg "%s: mkdir dirfile/xx succeeded!") s ,,
  want (Sunlink xx) zero (nlmsg "%s: unlink dirfile/xx succeeded!") s ,,
  want (Slink (str "README") xx) zero (nlmsg "%s: link to dirfile/xx succeeded!") s ,,
  want (Sunlink (str "dirfile")) nonzero (nlmsg "%s: unlink dirfile failed!") s ,,
  want (Sopen (str ".") O_RDWR) nonneg (nlmsg "%s: open . for writing succeeded!") s ,,
  do fd <- call (Sopen (str ".") 0);
  want (Swrite fd (str "x")) (Z.ltb 0) (nlmsg "%s: write . succeeded!") s ,,
  call (Sclose fd) ,,
  Ret tt.

(** [fd = open(path, O_CREATE); if(fd >= 0) close(fd);] *)
Definition create_close (path : list Z) : prog unit :=
  do fd <- call (Sopen path O_CREATE);
  if 0 <=? fd then call (Sclose fd) ,, Ret tt else Ret tt.

Definition iref (s : list Z) : prog unit :=
  times (NINODE + 1)
    (want (Smkdir (str "irefd")) nonzero (nlmsg "%s: mkdir irefd failed") s ,,
     want (Schdir (str "irefd")) nonzero (nlmsg "%s: chdir irefd failed") s ,,
     call (Smkdir []) ,,
     call (Slink (str "README") []) ,,
     create_close [] ,,
     create_close (str "xx") ,,
     call (Sunlink (str "xx")) ,,
     Ret tt) ,,
  times (NINODE + 1)
    (call (Schdir (str "..")) ,,
     call (Sunlink (str "irefd")) ,,
     Ret tt) ,,
  call (Schdir (str "/")) ,,
  Ret tt.

(** ** Large writes, and running out of space *)

Definition bigwrite (s : list Z) : prog unit :=
  call (Sunlink (str "bigwrite")) ,,
  for_range 499 ((MAXOPBLOCKS + 2) * BSIZE) 471 (fun sz =>
    do fd <- open_or (str "bigwrite") O_CRW (nlmsg "%s: cannot create bigwrite") [named s];
    times 2
      (do cc <- call (Swrite fd (replicate (Z.to_nat sz) 0));
       fail_if (negb (cc =? sz)) (nlmsg "%s: write(%d) ret %d") [named s; PNum sz; PNum cc]) ,,
    call (Sclose fd) ,,
    call (Sunlink (str "bigwrite")) ,,
    Ret tt).

(** The loop of [bigfile] that reads; [total] after it. *)
Fixpoint bigfile_reads (fuel : nat) (s : list Z) (fd i total : Z) (buf : list Z) : prog Z :=
  match fuel with
  | O => NoFuel
  | S fuel =>
      do r <- call (Sread fd 300);
      let cc := r.1 in
      let buf := overwrite r.2 buf in
      fail_if (cc <? 0) (nlmsg "%s: read bigfile failed") [named s] ,,
      if cc =? 0 then Ret total
      else
        fail_if (negb (cc =? 300)) (nlmsg "%s: short read bigfile") [named s] ,,
        fail_if (negb (get8 buf 0 =? i / 2) || negb (get8 buf 299 =? i / 2))
          (nlmsg "%s: read bigfile wrong data") [named s] ,,
        bigfile_reads fuel s fd (i + 1) (total + cc) buf
  end.

Definition bigfile (fuel : nat) (s : list Z) : prog unit :=
  let f := str "bigfile.dat" in
  call (Sunlink f) ,,
  do fd <- open_or f O_CRW (str "%s: cannot create bigfile") [named s];
  for_range 0 20 1 (fun i =>
    do w <- call (Swrite fd (replicate 600 i));
    fail_if (negb (w =? 600)) (nlmsg "%s: write bigfile failed") [named s]) ,,
  call (Sclose fd) ,,
  do fd <- open_or f 0 (nlmsg "%s: cannot open bigfile") [named s];
  do total <- bigfile_reads fuel s fd 0 0 (replicate 600 19);
  call (Sclose fd) ,,
  fail_if (negb (total =? 20 * 600)) (nlmsg "%s: read bigfile wrong total") [named s] ,,
  call (Sunlink f) ,,
  Ret tt.

Definition fsfull_name (nfiles : Z) : list Z :=
  [ch "f"; u8 (ch "0" + nfiles / 1000); ch "0" + (nfiles mod 1000) / 100;
   ch "0" + (nfiles mod 100) / 10; ch "0" + nfiles mod 10].

(** [while(1)]: write blocks until one does not fit; [total] after it. *)
Fixpoint fsfull_write (fuel : nat) (fd total : Z) : prog Z :=
  match fuel with
  | O => NoFuel
  | S fuel =>
      do cc <- call (Swrite fd (replicate (Z.to_nat BSIZE) 0));
      if cc <? BSIZE then Ret total else fsfull_write fuel fd (total + cc)
  end.

(** The first loop of [fsfull]; [nfiles] after it. *)
Fixpoint fsfull_fill (fuel : nat) (nfiles : Z) : prog Z :=
  match fuel with
  | O => NoFuel
  | S fuel =>
      let name := fsfull_name nfiles in
      u_printf (nlmsg "writing %s") [PStr (Some (upto_nul name))] ,,
      do fd <- call (Sopen (upto_nul name) O_CRW);
      if fd <? 0 then
        u_printf (nlmsg "open %s failed") [PStr (Some (upto_nul name))] ,,
        Ret nfiles
      else
        do total <- fsfull_write fuel fd 0;
        u_printf (nlmsg "wrote %d bytes") [PNum total] ,,
        call (Sclose fd) ,,
        if total =? 0 then Ret nfiles else fsfull_fill fuel (nfiles + 1)
  end.

(** [while(nfiles >= 0)], [k] is [nfiles + 1]. *)
Fixpoint fsfull_remove (k : nat) : prog unit :=
  match k with
  | O => Ret tt
  | S k => call (Sunlink (upto_nul (fsfull_name (Z.of_nat k)))) ,, fsfull_remove k
  end.

Definition fsfull (fuel : nat) : prog unit :=
  u_printf (nlmsg "fsfull test") [] ,,
  do nfiles <- fsfull_fill fuel 0;
  fsfull_remove (S (Z.to_nat nfiles)) ,,
  u_printf (nlmsg "fsfull test finished") [].

(** ** The slow tests *)

Definition bigdir_name (i : Z) : list Z := [ch "x"; ch "0" + i / 64; ch "0" + i mod 64].

Definition bigdir (s : list Z) : prog unit :=
  let bd := str "bd" in
  call (Sunlink bd) ,,
  do fd <- open_or bd O_CREATE (nlmsg "%s: bigdir create failed") [named s];
  call (Sclose fd) ,,
  for_range 0 500 1 (fun i =>
    do r <- call (Slink bd (bigdir_name i));
    fail_if (negb (r =? 0)) (nlmsg "%s: bigdir i=%d link(bd, %s) failed")
      [named s; PNum i; PStr (Some (bigdir_name i))]) ,,
  call (Sunlink bd) ,,
  for_range 0 500 1 (fun i => want (Sunlink (bigdir_name i)) nonzero (str "%s: bigdir unlink failed") s).

Definition manywrites_child (s : list Z) (ci : Z) : prog unit :=
  let name := [ch "b"; ch "a" + ci] in
  call (Sunlink name) ,,
  times 30
    (times (Z.to_nat (ci + 1))
       (do fd <- open_or name O_CRW (nlmsg "%s: cannot create %s") [named s; PStr (Some name)];
        do cc <- call (Swrite fd (replicate (Z.to_nat BUFSZ) 0));
        fail_if (negb (cc =? BUFSZ)) (nlmsg "%s: write(%d) ret %d") [named s; PNum BUFSZ; PNum cc] ,,
        call (Sclose fd) ,,
        Ret tt) ,,
     call (Sunlink name) ,,
     Ret tt) ,,
  call (Sunlink name) ,,
  Exit 0.

Definition manywrites (s : list Z) : prog unit :=
  for_range 0 4 1 (fun ci =>
    fork_or (manywrites_child s ci) (nlmsg "fork failed") [] ,,
    Ret tt) ,,
  times 4 (do w <- call Swaitst; if negb (w.2 =? 0) then Exit w.2 else Ret tt) ,,
  Exit 0.

Definition badwrite (s : list Z) : prog unit :=
  let junk := str "junk" in
  call (Sunlink junk) ,,
  times 600
    (do fd <- open_or junk O_CW (nlmsg "open junk failed") [];
     call (Swrite_at fd 0xffffffffff 1) ,,
     call (Sclose fd) ,,
     call (Sunlink junk) ,,
     Ret tt) ,,
  do fd <- open_or junk O_CW (nlmsg "open junk failed") [];
  do w <- call (Swrite fd (str "x"));
  fail_if (negb (w =? 1)) (nlmsg "write failed") [] ,,
  call (Sclose fd) ,,
  call (Sunlink junk) ,,
  Exit 0.

Definition diskfull_name (fi : Z) : list Z := str "big" ++ [ch "0" + fi].
Definition zz_name (i : Z) : list Z := str "zz" ++ [ch "0" + i / 32; ch "0" + i mod 32].

(** The loop over the blocks of a file; whether a write failed. *)
Fixpoint diskfull_write (k : nat) (fd : Z) : prog bool :=
  match k with
  | O => Ret false
  | S k =>
      do buf <- call (Sarray "buf" BSIZE);
      do w <- call (Swrite fd buf);
      if negb (w =? BSIZE) then call (Sclose fd) ,, Ret true
      else diskfull_write k fd
  end.

(** The first loop, with [k] files left. *)
Fixpoint diskfull_fill (k : nat) (s : list Z) (fi : Z) : prog unit :=
  match k with
  | O => Ret tt
  | S k =>
      let name := diskfull_name fi in
      call (Sunlink name) ,,
      do fd <- call (Sopen name O_CRWT);
      if fd <? 0 then u_printf (nlmsg "%s: could not create file %s") [named s; PStr (Some name)]
      else
        do done <- diskfull_write (Z.to_nat MAXFILE) fd;
        call (Sclose fd) ,,
        if done : bool then Ret tt else diskfull_fill k s (fi + 1)
  end.

(** Create files [zz..] until [open] fails, at most [k]. *)
Fixpoint zz_create (k : nat) (i : Z) : prog unit :=
  match k with
  | O => Ret tt
  | S k =>
      call (Sunlink (zz_name i)) ,,
      do fd <- call (Sopen (zz_name i) O_CRWT);
      if fd <? 0 then Ret tt else call (Sclose fd) ,, zz_create k (i + 1)
  end.

Definition zz_remove (nzz : Z) : prog unit :=
  for_range 0 nzz 1 (fun i => call (Sunlink (zz_name i)) ,, Ret tt).

Definition diskfull (s : list Z) : prog unit :=
  let dir := str "diskfulldir" in
  call (Sunlink dir) ,,
  diskfull_fill (Z.to_nat (127 - ch "0")) s 0 ,,
  zz_create 128 0 ,,
  do r <- call (Smkdir dir);
  (if r =? 0 then u_printf (nlmsg "%s: mkdir(diskfulldir) unexpectedly succeeded!") [named s] else Ret tt) ,,
  call (Sunlink dir) ,,
  zz_remove 128 ,,
  for_range 0 (127 - ch "0") 1 (fun i => call (Sunlink (diskfull_name i)) ,, Ret tt).

Definition outofinodes (s : list Z) : prog unit :=
  let nzz := 32 * 32 in
  zz_create (Z.to_nat nzz) 0 ,,
  zz_remove nzz.
