(* ===== verification/Usertests.v ===== *)
(** * usertests: processes, pipes and the driver

    Models the functions of [src/xv6-os/user/usertests.c] about [fork],
    [wait], [exit], [kill], [exec] and pipes, and the tables of tests, [run],
    [runtests], [countfree], [drivetests] and [main]. Endless loops run on
    fuel; a loop [for(;;);] without calls never ends and is [NoFuel]. *)
From S2P Require Import Prelude CString Layout Blocks Printf User Umalloc Bio Fs FsPath Sysfile Utils Grind Tests UsertestsMem UsertestsFs.

(** ** exec *)

Definition exectest_child (s : list Z) : prog unit :=
  call (Sclose 1) ,,
  do fd <- open_or (str "echo-ok") O_CW (nlmsg "%s: create failed") [named s];
  fail_if (negb (fd =? 1)) (nlmsg "%s: wrong fd") [named s] ,,
  want (Sexec (str "echo") [str "echo"; str "OK"]) neg (nlmsg "%s: exec echo failed") s.

Definition exectest (s : list Z) : prog unit :=
  call (Sunlink (str "echo-ok")) ,,
  do pid <- fork_or (exectest_child s) (nlmsg "%s: fork failed") [named s];
  do w <- call Swaitst;
  (if negb (w.1 =? pid) then u_printf (nlmsg "%s: wait failed!") [named s] else Ret tt) ,,
  (if negb (w.2 =? 0) then Exit w.2 else Ret tt) ,,
  do fd <- open_or (str "echo-ok") O_RDONLY (nlmsg "%s: open failed") [named s];
  do r <- call (Sread fd 2);
  fail_if (negb (r.1 =? 2)) (nlmsg "%s: read failed") [named s] ,,
  call (Sunlink (str "echo-ok")) ,,
  do buf <- call (Sarray "buf" 3);
  let buf := overwrite r.2 buf in
  if (get8 buf 0 =? ch "O") && (get8 buf 1 =? ch "K") then Exit 0
  else fail (nlmsg "%s: wrong output") [named s].

(** ** Pipes *)

(** The writer; [seq] counts the bytes. *)
Fixpoint pipe1_writes (k : nat) (s : list Z) (fds1 seq : Z) : prog unit :=
  match k with
  | O => Exit 0
  | S k =>
      do w <- call (Swrite fds1 (map (fun i => u8 (seq + Z.of_nat i)) (List.seq 0 (Z.to_nat 1033))));
      fail_if (negb (w =? 1033)) (nlmsg "%s: pipe1 oops 1") [named s] ,,
      pipe1_writes k s fds1 (seq + 1033)
  end.

(** Whether the bytes are those from [seq] on. *)
Fixpoint pipe1_check (l : list Z) (seq : Z) : bool :=
  match l with
  | [] => true
  | c :: l => (Z.land c 0xff =? Z.land seq 0xff) && pipe1_check l (seq + 1)
  end.

(** The reader; [None] when it found a wrong byte, else [total]. *)
Fixpoint pipe1_reads (fuel : nat) (fds0 seq total cc : Z) (buf : list Z) : prog (option Z) :=
  match fuel with
  | O => NoFuel
  | S fuel =>
      do r <- call (Sread fds0 cc);
      let n := r.1 in
      let buf := overwrite r.2 buf in
      if 0 <? n then
        if negb (pipe1_check (take (Z.to_nat n) buf) seq) then Ret None
        else
          let cc := cc * 2 in
          pipe1_reads fuel fds0 (seq + n) (total + n) (if BUFSZ <? cc then BUFSZ else cc) buf
      else Ret (Some total)
  end.

Definition ut_pipe1 (fuel : nat) (s : list Z) : prog unit :=
  do p <- call Spipe;
  let '(r, (fds0, fds1)) := p in
  fail_if (negb (r =? 0)) (nlmsg "%s: pipe() failed") [named s] ,,
  do pid <- call Sfork;
  if pid =? 0 then
    call (Sclose fds0) ,,
    pipe1_writes 5 s fds1 0
  else if 0 <? pid then
    call (Sclose fds1) ,,
    do t <- pipe1_reads fuel fds0 0 0 1 (replicate (Z.to_nat BUFSZ) 0);
    match t with
    | None => u_printf (nlmsg "%s: pipe1 oops 2") [named s]
    | Some total =>
        fail_if (negb (total =? 5 * 1033)) (nlmsg "%s: pipe1 oops 3 total %d") [named s; PNum total] ,,
        call (Sclose fds0) ,,
        do w <- call Swaitst;
        Exit w.2
    end
  else fail (nlmsg "%s: fork() failed") [named s].

(** ** kill *)

(** [while(1) getpid();] *)
Fixpoint getpid_forever (fuel : nat) : prog unit :=
  match fuel with
  | O => NoFuel
  | S fuel => call Sgetpid ,, getpid_forever fuel
  end.

Definition killstatus (fuel : nat) (s : list Z) : prog unit :=
  times 100
    (do pid1 <- fork_or (getpid_forever fuel) (nlmsg "%s: fork failed") [named s];
     call (Ssleep 1) ,,
     call (Skill pid1) ,,
     do w <- call Swaitst;
     fail_if (negb (w.2 =? -1)) (nlmsg "%s: status should be -1") [named s]) ,,
  Exit 0.

Definition preempt_writer (s : list Z) (pfds0 pfds1 : Z) : prog unit :=
  call (Sclose pfds0) ,,
  do w <- call (Swrite pfds1 (str "x"));
  (if negb (w =? 1) then u_printf (str "%s: preempt write error") [named s] else Ret tt) ,,
  call (Sclose pfds1) ,,
  NoFuel.

Definition preempt (s : list Z) : prog unit :=
  do pid1 <- fork_or NoFuel (str "%s: fork failed") [named s];
  do pid2 <- fork_or NoFuel (nlmsg "%s: fork failed") [named s];
  do p <- call Spipe;
  let '(_, (pfds0, pfds1)) := p in
  do pid3 <- fork_or (preempt_writer s pfds0 pfds1) (nlmsg "%s: fork failed") [named s];
  call (Sclose pfds1) ,,
  do r <- call (Sread pfds0 BUFSZ);
  if negb (r.1 =? 1) then u_printf (str "%s: preempt read error") [named s]
  else
    call (Sclose pfds0) ,,
    u_printf (str "kill... ") [] ,,
    call (Skill pid1) ,,
    call (Skill pid2) ,,
    call (Skill pid3) ,,
    u_printf (str "wait... ") [] ,,
    call Swait ,,
    call Swait ,,
    call Swait ,,
    Ret tt.

(** ** fork, exit and wait *)

Definition exitwait (s : list Z) : prog unit :=
  for_range 0 100 1 (fun i =>
    do pid <- call Sfork;
    fail_if (pid <? 0) (nlmsg "%s: fork failed") [named s] ,,
    if negb (pid =? 0) then
      do w <- call Swaitst;
      fail_if (negb (w.1 =? pid)) (nlmsg "%s: wait wrong pid") [named s] ,,
      fail_if (negb (i =? w.2)) (nlmsg "%s: wait wrong exit status") [named s]
    else Exit i).

Definition reparent_child (master_pid : Z) : prog unit :=
  do pid2 <- call Sfork;
  if pid2 <? 0 then call (Skill master_pid) ,, Exit 1 else Exit 0.

Definition ut_reparent (s : list Z) : prog unit :=
  do master_pid <- call Sgetpid;
  times 200
    (do pid <- fork_or (reparent_child master_pid) (nlmsg "%s: fork failed") [named s];
     want Swait (fun r => negb (r =? pid)) (nlmsg "%s: wait wrong pid") s) ,,
  Exit 0.

Definition twochildren (s : list Z) : prog unit :=
  times (Z.to_nat 1000)
    (fork_or (Exit 0) (nlmsg "%s: fork failed") [named s] ,,
     fork_or (Exit 0) (nlmsg "%s: fork failed") [named s] ,,
     call Swait ,,
     call Swait ,,
     Ret tt).

Definition forkfork_child : prog unit :=
  times 200
    (do pid1 <- call Sfork;
     if pid1 <? 0 then Exit 1
     else if pid1 =? 0 then Exit 0
     else call Swait ,, Ret tt) ,,
  Exit 0.

Definition forkfork (s : list Z) : prog unit :=
  times 2 (fork_or forkfork_child (str "%s: fork failed") [named s] ,, Ret tt) ,,
  times 2
    (do w <- call Swaitst;
     fail_if (negb (w.2 =? 0)) (str "%s: fork in child failed") [named s]).

Definition make_stopforking : prog unit := close_open (str "stopforking").

Fixpoint forkforkfork_child (fuel : nat) : prog unit :=
  match fuel with
  | O => NoFuel
  | S fuel =>
      do fd <- call (Sopen (str "stopforking") 0);
      if 0 <=? fd then Exit 0
      else
        do r <- call Sfork;
        (if r <? 0 then make_stopforking else Ret tt) ,,
        forkforkfork_child fuel
  end.

Definition forkforkfork (fuel : nat) (s : list Z) : prog unit :=
  call (Sunlink (str "stopforking")) ,,
  fork_or (forkforkfork_child fuel) (str "%s: fork failed") [named s] ,,
  call (Ssleep 20) ,,
  make_stopforking ,,
  call Swait ,,
  call (Ssleep 10) ,,
  Ret tt.

Definition reparent2 (s : list Z) : prog unit :=
  times (Z.to_nat 800)
    (fork_or (call Sfork ,, call Sfork ,, Exit 0) (nlmsg "fork failed") [] ,,
     call Swait ,,
     Ret tt) ,,
  Exit 0.

(** The loop of forks is that of the program forktest. *)
Definition ut_forktest (s : list Z) : prog unit :=
  do n <- forktest_forks (Z.to_nat 1000) 0;
  fail_if (n =? 0) (nlmsg "%s: no fork at all!") [named s] ,,
  fail_if (n =? 1000) (nlmsg "%s: fork claimed to work 1000 times!") [named s] ,,
  times (Z.to_nat n) (want Swait neg (nlmsg "%s: wait stopped early") s) ,,
  want Swait (fun r => negb (r =? -1)) (nlmsg "%s: wait got too many") s.

(** ** malloc until there is no memory *)

(** Blocks linked into a list through their first word; the last one. *)
Fixpoint mem_take (fuel : nat) (base_addr : Z) (h : heap) (m1 : Z) : prog (Z * heap) :=
  match fuel with
  | O => NoFuel
  | S fuel =>
      do r <- u_malloc fuel base_addr h 10001;
      let '(m2, h) := r in
      if negb (m2 =? 0) then mem_take fuel base_addr (mkheap (st64 (h_mem h) m2 m1) (freep h)) m2
      else Ret (m1, h)
  end.

Fixpoint mem_free (fuel : nat) (h : heap) (m1 : Z) : prog heap :=
  match fuel with
  | O => NoFuel
  | S fuel =>
      if m1 =? 0 then Ret h
      else
        let m2 := ld64 (h_mem h) m1 in
        match u_free fuel h m1 with
        | None => NoFuel
        | Some h => mem_free fuel h m2
        end
  end.

Definition mem_child (fuel : nat) (base_addr : Z) (s : list Z) : prog unit :=
  do r <- mem_take fuel base_addr (mkheap ∅ 0) 0;
  let '(m1, h) := r in
  do h <- mem_free fuel h m1;
  do r <- u_malloc fuel base_addr h (1024 * 20);
  let '(m1, h) := r in
  fail_if (m1 =? 0) (nlmsg "%s: couldn't allocate mem?!!") [named s] ,,
  match u_free fuel h m1 with
  | None => NoFuel
  | Some _ => Exit 0
  end.

Definition ut_mem (fuel : nat) (base_addr : Z) (s : list Z) : prog unit :=
  do pid <- call Sfork;
  if pid =? 0 then mem_child fuel base_addr s
  else
    do w <- call Swaitst;
    if w.2 =? -1 then Exit 0 else Exit w.2.

(** ** The tables and the driver *)

(** ** The tables *)

(** [struct test]; the entry [{0, 0}] that ends a table is the end of the
    list. *)
Record test := mktest {
  t_f : list Z -> prog unit;
  t_s : list Z;
}.

Definition quicktests (fuel : nat) (base_addr : Z) : list test :=
  [mktest ut_copyin (str "copyin"); mktest ut_copyout (str "copyout");
   mktest copyinstr1 (str "copyinstr1"); mktest copyinstr2 (str "copyinstr2");
   mktest (copyinstr3 fuel) (str "copyinstr3"); mktest rwsbrk (str "rwsbrk");
   mktest truncate1 (str "truncate1"); mktest truncate2 (str "truncate2");
   mktest truncate3 (str "truncate3"); mktest openiputtest (str "openiput");
   mktest exitiputtest (str "exitiput"); mktest iputtest (str "iput");
   mktest opentest (str "opentest"); mktest writetest (str "writetest");
   mktest (writebig fuel) (str "writebig"); mktest createtest (str "createtest");
   mktest dirtest (str "dirtest"); mktest exectest (str "exectest");
   mktest (ut_pipe1 fuel) (str "pipe1"); mktest (killstatus fuel) (str "killstatus");
   mktest preempt (str "preempt"); mktest exitwait (str "exitwait"); mktest ut_reparent (str "reparent");
   mktest twochildren (str "twochildren"); mktest forkfork (str "forkfork");
   mktest (forkforkfork fuel) (str "forkforkfork"); mktest reparent2 (str "reparent2");
   mktest (ut_mem fuel base_addr) (str "mem"); mktest (sharedfd fuel) (str "sharedfd");
   mktest (fourfiles fuel) (str "fourfiles"); mktest createdelete (str "createdelete");
   mktest unlinkread (str "unlinkread"); mktest linktest (str "linktest");
   mktest (concreate fuel) (str "concreate"); mktest linkunlink (str "linkunlink");
   mktest subdir (str "subdir"); mktest bigwrite (str "bigwrite");
   mktest (bigfile fuel) (str "bigfile"); mktest fourteen (str "fourteen");
   mktest rmdot (str "rmdot"); mktest dirfile (str "dirfile"); mktest iref (str "iref");
   mktest ut_forktest (str "forktest"); mktest sbrkbasic (str "sbrkbasic");
   mktest sbrkmuch (str "sbrkmuch"); mktest kernmem (str "kernmem");
   mktest MAXVAplus (str "MAXVAplus"); mktest (sbrkfail fuel) (str "sbrkfail");
   mktest sbrkarg (str "sbrkarg"); mktest validatetest (str "validatetest");
   mktest bsstest (str "bsstest"); mktest bigargtest (str "bigargtest");
   mktest argptest (str "argptest"); mktest stacktest (str "stacktest");
   mktest nowrite (str "nowrite"); mktest pgbug (str "pgbug"); mktest sbrkbugs (str "sbrkbugs");
   mktest sbrklast (str "sbrklast"); mktest sbrk8000 (str "sbrk8000"); mktest badarg (str "badarg")].

Definition slowtests (fuel : nat) : list test :=
  [mktest bigdir (str "bigdir"); mktest manywrites (str "manywrites");
   mktest badwrite (str "badwrite"); mktest (execout fuel) (str "execout");
   mktest diskfull (str "diskfull"); mktest outofinodes (str "outofinodes")].

(** ** The driver *)

(** Whether the child exited with 0. *)
Definition ut_run (f : list Z -> prog unit) (s : list Z) : prog bool :=
  u_printf (str "test %s: ") [PStr (Some s)] ,,
  do pid <- call Sfork;
  fail_if (pid <? 0) (nlmsg "runtest: fork error") [] ,,
  if pid =? 0 then
    f s ,,
    Exit 0
  else
    do w <- call Swaitst;
    (if negb (w.2 =? 0) then u_printf (nlmsg "FAILED") [] else u_printf (nlmsg "OK") []) ,,
    Ret (w.2 =? 0).

(** Whether a test is asked for. *)
Definition selected (justone : option (list Z)) (t : test) : bool :=
  match justone with None => true | Some n => bool_decide (t_s t = n) end.

Fixpoint runtests (tests : list test) (justone : option (list Z)) (continuous : Z) : prog Z :=
  match tests with
  | [] => Ret 0
  | t :: tests =>
      if selected justone t then
        do ok <- ut_run (t_f t) (t_s t);
        if negb ok && negb (continuous =? 2) then
          u_printf (nlmsg "SOME TESTS FAILED") [] ,,
          Ret 1
        else runtests tests justone continuous
      else runtests tests justone continuous
  end.

(** The child of [countfree]: take and report pages until there are none. *)
Fixpoint countfree_child (fuel : nat) (fds1 : Z) : prog unit :=
  match fuel with
  | O => NoFuel
  | S fuel =>
      do a <- call (Ssbrk 4096);
      if a =? -1 then Exit 0
      else
        call (Sstore (a + 4096 - 1) 1 1) ,,
        do w <- call (Swrite fds1 (str "x"));
        fail_if (negb (w =? 1)) (nlmsg "write() failed in countfree()") [] ,,
        countfree_child fuel fds1
  end.

(** The loop that counts; [n] after it. *)
Fixpoint countfree_count (fuel : nat) (fds0 n : Z) : prog Z :=
  match fuel with
  | O => NoFuel
  | S fuel =>
      do r <- call (Sread fds0 1);
      fail_if (r.1 <? 0) (nlmsg "read() failed in countfree()") [] ,,
      if r.1 =? 0 then Ret n else countfree_count fuel fds0 (s32 (n + 1))
  end.

Definition countfree (fuel : nat) : prog Z :=
  do p <- call Spipe;
  let '(r, (fds0, fds1)) := p in
  fail_if (r <? 0) (nlmsg "pipe() failed in countfree()") [] ,,
  fork_or (call (Sclose fds0) ,, countfree_child fuel fds1) (nlmsg "fork failed in countfree()") [] ,,
  call (Sclose fds1) ,,
  do n <- countfree_count fuel fds0 0;
  call (Sclose fds0) ,,
  call Swait ,,
  Ret n.

(** One round of [drivetests]: 1 when it returns from the middle. *)
Definition drive_round (fuel : nat) (base_addr : Z) (quick : bool) (continuous : Z) (justone : option (list Z))
    : prog Z :=
  u_printf (nlmsg "usertests starting") [] ,,
  do free0 <- countfree fuel;
  do r <- runtests (quicktests fuel base_addr) justone continuous;
  if negb (r =? 0) && negb (continuous =? 2) then Ret 1
  else
    do r <-
      (if negb quick then
         (if bool_decide (justone = None) then u_printf (nlmsg "usertests slow tests starting") [] else Ret tt) ,,
         runtests (slowtests fuel) justone continuous
       else Ret 0);
    if negb (r =? 0) && negb (continuous =? 2) then Ret 1
    else
      do free1 <- countfree fuel;
      if free1 <? free0 then
        u_printf (nlmsg "FAILED -- lost some free pages %d (out of %d)") [PNum free1; PNum free0] ,,
        if negb (continuous =? 2) then Ret 1 else Ret 0
      else Ret 0.

Fixpoint drivetests (rounds fuel : nat) (base_addr : Z) (quick : bool) (continuous : Z)
    (justone : option (list Z)) : prog Z :=
  match rounds with
  | O => NoFuel
  | S rounds =>
      do r <- drive_round fuel base_addr quick continuous justone;
      if negb (r =? 0) then Ret 1
      else if negb (continuous =? 0) then drivetests rounds fuel base_addr quick continuous justone
      else Ret 0
  end.

(** The rest of [main], after the arguments. *)
Definition usertests (rounds fuel : nat) (base_addr : Z) (quick : bool) (continuous : Z)
    (justone : option (list Z)) : prog unit :=
  do r <- drivetests rounds fuel base_addr quick continuous justone;
  (if negb (r =? 0) then Exit 1 else Ret tt) ,,
  u_printf (nlmsg "ALL TESTS PASSED") [] ,,
  Exit 0.

Definition usertests_main (rounds fuel : nat) (base_addr : Z) (argv : list (list Z)) : prog unit :=
  let go := usertests rounds fuel base_addr in
  match argv with
  | [_; arg] =>
      if bool_decide (arg = str "-q") then go true 0 None
      else if bool_decide (arg = str "-c") then go false 1 None
      else if bool_decide (arg = str "-C") then go false 2 None
      else if negb (hd 0 arg =? ch "-") then go false 0 (Some arg)
      else fail (nlmsg "Usage: usertests [-c] [-C] [-q] [testname]") []
  | _ :: _ :: _ => fail (nlmsg "Usage: usertests [-c] [-C] [-q] [testname]") []
  | _ => go false 0 None
  end.
