(* ===== verification/UsertestsSpec.v ===== *)
(** * usertests: what its verdicts mean

    The reader of the pipe test accepts exactly the bytes that the writer
    sends, however the pipe cuts them into pieces. The driver passes exactly
    when every test that was asked for exits with 0 and no free page is lost. *)
From S2P Require Import Prelude CString Layout Blocks Printf User Umalloc Bio Fs FsPath Sysfile Utils Grind Tests UsertestsMem UsertestsFs Usertests.

(** ** The pipe test *)

(** [n] bytes of the sequence, from [seq] on. *)
Definition pipe1_data (n : nat) (seq : Z) : list Z := map (fun i => u8 (seq + Z.of_nat i)) (List.seq 0 n).

Lemma pipe1_data_S n seq : pipe1_data (S n) seq = u8 seq :: pipe1_data n (seq + 1).
Proof.
  unfold pipe1_data. cbn [List.seq map]. f_equal; [f_equal; lia|].
  rewrite <- seq_shift, map_map. apply map_ext. intros i. f_equal. lia.
Qed.

Lemma pipe1_data_length n seq : length (pipe1_data n seq) = n.
Proof. unfold pipe1_data. by rewrite length_map, length_seq. Qed.

Lemma pipe1_check_app l l' seq :
  pipe1_check (l ++ l') seq = pipe1_check l seq && pipe1_check l' (seq + zlen l).
Proof.
  revert seq. induction l as [|c l IH]; intros seq; cbn [app pipe1_check].
  - change (zlen []) with 0. by rewrite Z.add_0_r.
  - rewrite IH, <- andb_assoc. do 2 f_equal. unfold zlen. cbn [length]. f_equal; lia.
Qed.

Lemma pipe1_check_iff l seq : Forall (fun c => 0 <= c < 256) l -> pipe1_check l seq = true <-> l = pipe1_data (length l) seq.
Proof.
  intros Hb. revert seq. induction Hb as [|c l Hc _ IH]; intros seq; [done|].
  cbn [pipe1_check length]. rewrite pipe1_data_S, andb_true_iff, IH, Z.eqb_eq.
  change 0xff with (Z.ones 8). rewrite !Z.land_ones by lia. cbn beta in Hc.
  rewrite (Z.mod_small c) by (change (2 ^ 8) with 256; lia). unfold u8.
  split; [intros [-> <-]; done|intros [= -> ?]; done].
Qed.

(** The reader, from any point of the sequence on. *)
Lemma pipe1_reads_run fuel fd seq total cc buf data sizes out :
  (length data < fuel)%nat -> 0 < cc ->
  (run stream_handler (pipe1_reads fuel fd seq total cc buf) (mkstream data sizes out)).1 =
  Returned (if pipe1_check data seq then Some (total + zlen data) else None).
Proof.
  revert seq total cc buf data sizes. induction fuel as [|fuel IH]; intros seq total cc buf data sizes Hf Hcc; [lia|].
  cbn [pipe1_reads]. rewrite run_call. cbn [stream_handler fst snd st_in st_sizes st_out].
  set (s := mkstream data sizes out). pose proof (read_size_bounds s cc) as [Hb _].
  pose proof (zlen_take_read s cc) as Hl. set (m := read_size s cc) in *. cbn [st_in s] in *.
  destruct (Z.ltb_spec 0 m) as [Hm|Hm].
  - set (l := take (Z.to_nat m) data) in *. assert (Hn : Z.to_nat m = length l) by (unfold zlen in Hl; lia).
    assert (Hd : data = l ++ drop (Z.to_nat m) data) by (symmetry; apply take_drop).
    unfold overwrite at 1. rewrite Hn, take_app_length, <- Hn.
    assert (Ec : pipe1_check data seq = pipe1_check l seq && pipe1_check (drop (Z.to_nat m) data) (seq + m))
      by (rewrite Hd at 1; by rewrite pipe1_check_app, Hl).
    rewrite Ec. destruct (pipe1_check l seq); cbn [negb andb]; [|done].
    rewrite IH; [|rewrite length_drop; unfold zlen in *; lia|unfold BUFSZ; destruct (_ <? _); [done|lia]].
    destruct (pipe1_check (drop _ data) (seq + m)); [|done]. do 2 f_equal.
    unfold zlen in *. rewrite length_drop. lia.
  - assert (data = []) as ->.
    { destruct data; [done|]. pose proof (read_size_pos s cc Hcc ltac:(done)). lia. }
    cbn [run pipe1_check fst]. change (zlen []) with 0. by rewrite Z.add_0_r.
Qed.

(** What the writer sends. *)
Definition pipe1_sent (s : list Z) (fd : Z) : list Z :=
  concat (map snd (st_out (run stream_handler (pipe1_writes 5 s fd 0) (mkstream [] [] [])).2)).

Lemma pipe1_sent_data s fd : pipe1_sent s fd = pipe1_data (5 * 1033) 0.
Proof. vm_compute. reflexivity. Qed.

(** In the pipe test of usertests, the reader finds what it expects exactly
    when the pipe delivers the bytes that the writer sent: in order, all of
    them and no more, in whatever pieces they arrive. *)
Theorem pipe1_reader_correct (fuel : nat) (fd fd1 : Z) (s data sizes : list Z) :
  Forall (fun c => 0 <= c < 256) data -> (length data < fuel)%nat ->
  (run stream_handler (pipe1_reads fuel fd 0 0 1 (replicate (Z.to_nat BUFSZ) 0)) (mkstream data sizes [])).1 =
    Returned (Some (5 * 1033)) <->
  data = pipe1_sent s fd1.
Proof.
  intros Hb Hf. rewrite pipe1_reads_run by lia. rewrite pipe1_sent_data.
  destruct (pipe1_check data 0) eqn:E.
  - apply pipe1_check_iff in E; [|done]. split.
    + intros [= H]. rewrite E. f_equal. unfold zlen in H. lia.
    + intros Ed. unfold zlen. by rewrite Ed, pipe1_data_length.
  - split; [done|]. intros Ed. rewrite (proj2 (pipe1_check_iff data 0 Hb)) in E; [done|].
    rewrite Ed at 2. by rewrite pipe1_data_length.
Qed.

Lemma pipe1_reader_correct_witness :
  (run stream_handler (pipe1_reads (Z.to_nat 6000) 3 0 0 1 (replicate (Z.to_nat BUFSZ) 0))
     (mkstream (pipe1_sent (str "pipe1") 4) [7; 512; 100; 512] [])).1 = Returned (Some (5 * 1033)).
Proof.
  apply (pipe1_reader_correct (Z.to_nat 6000) 3 4 (str "pipe1")); [| |done].
  - rewrite pipe1_sent_data. apply List.Forall_forall. intros c [i [<- _]]%in_map_iff. apply Z.mod_pos_bound. lia.
  - rewrite pipe1_sent_data, pipe1_data_length. lia.
Defined.

(** ** The driver *)

(** What the driver sees of the system: the exit statuses of the next
    children, the numbers of free pages that the next counts find, what is
    left in the pipe of a count, and what was printed. *)
Record drvw := mkdrvw {
  d_status : list Z;
  d_free : list Z;
  d_pipe : Z;
  d_out : list Z;
}.

Definition add_out (w : drvw) (l : list Z) : drvw :=
  mkdrvw (d_status w) (d_free w) (d_pipe w) (d_out w ++ l).

Definition driver_handler : handler drvw := fun X e =>
  match e in sys Y return drvw -> Y * drvw with
  | Sfork => fun w => (7, w)
  | Swaitst => fun w => ((7, hd 0 (d_status w)), mkdrvw (tl (d_status w)) (d_free w) (d_pipe w) (d_out w))
  | Spipe => fun w => ((0, (3, 4)), mkdrvw (d_status w) (tl (d_free w)) (hd 0 (d_free w)) (d_out w))
  | Sread _ _ => fun w =>
      if 0 <? d_pipe w
      then ((1, [120]), mkdrvw (d_status w) (d_free w) (d_pipe w - 1) (d_out w))
      else ((0, []), w)
  | Swrite _ l => fun w => (zlen l, add_out w l)
  | e => fun w => (refused e, w)
  end.

Notation drive := (run driver_handler).

Lemma puts_run fd l w : drive (u_puts fd l) w = (Returned tt, add_out w (map u8 l)).
Proof.
  revert w. induction l as [|c l IH]; intros w.
  - destruct w. unfold add_out. cbn. by rewrite app_nil_r.
  - cbn [u_puts]. unfold u_putc at 1. cbn [pbind call run driver_handler fst snd]. rewrite IH.
    unfold add_out. cbn. by rewrite <- app_assoc.
Qed.

(** The part of a format before a conversion. *)
Lemma printf_plain k fd pre rest args w :
  Forall (fun c => c <> ch "%") pre ->
  drive (u_vprintf_loop (length pre + k) fd (pre ++ rest) false args) w =
  drive (u_vprintf_loop k fd rest false args) (add_out w (map u8 pre)).
Proof.
  revert w. induction pre as [|c pre IH]; intros w Hp; inversion_clear Hp; subst.
  - destruct w. unfold add_out. cbn. by rewrite app_nil_r.
  - cbn [length Nat.add app u_vprintf_loop negb]. rewrite (proj2 (Z.eqb_neq c (ch "%"))) by done.
    unfold u_putc at 1. cbn [pbind call run driver_handler fst snd]. rewrite IH by done.
    unfold add_out. cbn. by rewrite <- app_assoc.
Qed.

Lemma say fmt w : forallb (fun c => negb (c =? ch "%")) fmt = true ->
  drive (u_printf fmt []) w = (Returned tt, add_out w (map u8 fmt)).
Proof.
  intros Hf. unfold u_printf, u_vprintf.
  replace (S (length fmt)) with (length fmt + 1)%nat by lia.
  rewrite <- (app_nil_r fmt) at 2. rewrite printf_plain; [done|].
  apply List.Forall_forall. intros c Hc. rewrite forallb_forall in Hf. specialize (Hf c Hc).
  by apply negb_true_iff, Z.eqb_neq in Hf.
Qed.

(** The conversions the driver uses. *)
Lemma printf_s k fd s rest args w :
  drive (u_vprintf_loop (S (S k)) fd (ch "%" :: ch "s" :: rest) false (PStr (Some s) :: args)) w =
  drive (u_vprintf_loop k fd rest false args) (add_out w (map u8 s)).
Proof.
  change (u_vprintf_loop (S (S k)) fd (ch "%" :: ch "s" :: rest) false (PStr (Some s) :: args)) with
    (do r <- (u_puts fd s ,, Ret (args, 0%nat)); u_vprintf_loop k fd (drop r.2 rest) false r.1).
  by rewrite !run_bind, puts_run.
Qed.

Lemma printf_d k fd x rest args w : exists l,
  drive (u_vprintf_loop (S (S k)) fd (ch "%" :: ch "d" :: rest) false (PNum x :: args)) w =
  drive (u_vprintf_loop k fd rest false args) (add_out w l).
Proof.
  change (u_vprintf_loop (S (S k)) fd (ch "%" :: ch "d" :: rest) false (PNum x :: args)) with
    (do r <- (u_printint fd (s32 x) 10 true ,, Ret (args, 0%nat)); u_vprintf_loop k fd (drop r.2 rest) false r.1).
  unfold u_printint. rewrite !run_bind, puts_run. by eexists.
Qed.

Lemma add_out_app w l l' : add_out (add_out w l) l' = add_out w (l ++ l').
Proof. unfold add_out. cbn. by rewrite app_assoc. Qed.

Ltac plain := repeat constructor; discriminate.

Lemma say_test s w : exists l, drive (u_printf (str "test %s: ") [PStr (Some s)]) w = (Returned tt, add_out w l).
Proof.
  unfold u_printf, u_vprintf. rewrite (printf_plain 5 1 (str "test ") (str "%s: ")) by plain.
  change (str "%s: ") with (ch "%" :: ch "s" :: str ": "). rewrite printf_s, (printf_plain 1 1 (str ": ") []) by plain.
  rewrite !add_out_app. by eexists.
Qed.

Lemma say_lost x y w : exists l,
  drive (u_printf (nlmsg "FAILED -- lost some free pages %d (out of %d)") [PNum x; PNum y]) w =
  (Returned tt, add_out w l).
Proof.
  unfold u_printf, u_vprintf.
  rewrite (printf_plain 16 1 (str "FAILED -- lost some free pages ") (nlmsg "%d (out of %d)")) by plain.
  change (nlmsg "%d (out of %d)") with (ch "%" :: ch "d" :: str " (out of " ++ nlmsg "%d)").
  destruct (printf_d 14 1 x (str " (out of " ++ nlmsg "%d)") [PNum y] (add_out w (map u8 (str "FAILED -- lost some free pages "))))
    as [l1 ->].
  rewrite (printf_plain 5 1 (str " (out of ") (nlmsg "%d)")) by plain.
  change (nlmsg "%d)") with (ch "%" :: ch "d" :: nlmsg ")").
  match goal with |- context [drive _ ?w] => destruct (printf_d 3 1 y (nlmsg ")") [] w) as [l2 ->] end.
  rewrite (printf_plain 1 1 (nlmsg ")") []) by plain. rewrite !add_out_app. by eexists.
Qed.

(** [countfree] counts the bytes that come through the pipe. *)
Lemma countfree_count_run fuel fds0 n w :
  0 <= n -> 0 <= d_pipe w < Z.of_nat fuel -> n + d_pipe w < 2 ^ 31 ->
  drive (countfree_count fuel fds0 n) w =
  (Returned (n + d_pipe w), mkdrvw (d_status w) (d_free w) 0 (d_out w)).
Proof.
  revert n w. induction fuel as [|fuel IH]; intros n [st fr p out] Hn Hp Hb; cbn [d_pipe d_status d_free d_out] in *; [lia|].
  cbn [countfree_count]. rewrite run_call. cbn [driver_handler d_pipe d_status d_free d_out].
  destruct (Z.ltb_spec 0 p) as [H|H]; cbn [fst snd fail_if Z.ltb Z.eqb Z.compare pbind].
  - rewrite s32_small by lia. rewrite IH by (cbn; lia). cbn. do 2 f_equal. lia.
  - assert (p = 0) as -> by lia. cbn. by rewrite Z.add_0_r.
Qed.

Lemma countfree_run fuel w :
  0 <= hd 0 (d_free w) < Z.of_nat fuel -> hd 0 (d_free w) < 2 ^ 31 ->
  drive (countfree fuel) w = (Returned (hd 0 (d_free w)), mkdrvw (d_status w) (tl (d_free w)) 0 (d_out w)).
Proof.
  intros Hf Hb. unfold countfree. rewrite run_call. cbn [driver_handler fst snd fail_if Z.ltb Z.compare pbind].
  unfold fork_or. cbn [driver_handler fst snd fail_if Z.ltb Z.eqb Z.compare pbind call run].
  rewrite run_bind, countfree_count_run by (cbn; lia). cbn. reflexivity.
Qed.

(** A test that ended with status [st]. *)
Lemma ut_run_run f s w : exists l,
  drive (ut_run f s) w =
  (Returned (hd 0 (d_status w) =? 0), mkdrvw (tl (d_status w)) (d_free w) (d_pipe w) (d_out w ++ l)).
Proof.
  unfold ut_run. rewrite run_bind. destruct (say_test s w) as [l ->]. rewrite run_call.
  cbn [driver_handler fst snd fail_if Z.ltb Z.eqb Z.compare pbind add_out d_status d_free d_pipe d_out].
  rewrite run_call. cbn [driver_handler fst snd]. change (d_status (add_out w l)) with (d_status w).
  destruct (Z.eqb_spec (hd 0 (d_status w)) 0) as [E|E]; cbn [negb]; rewrite run_bind, say by reflexivity;
    unfold add_out; cbn [d_status d_free d_pipe d_out run]; rewrite <- app_assoc; by eexists.
Qed.

(** How many of the tests are asked for. *)
Definition asked (justone : option (list Z)) (tests : list test) : nat :=
  length (List.filter (selected justone) tests).

Definition all_zero (l : list Z) : bool := forallb (Z.eqb 0) l.

Lemma runtests_run tests justone w :
  exists w', drive (runtests tests justone 0) w =
    (Returned (if all_zero (take (asked justone tests) (d_status w)) then 0 else 1), w') /\
    d_free w' = d_free w /\
    (all_zero (take (asked justone tests) (d_status w)) = true ->
       d_status w' = drop (asked justone tests) (d_status w)).
Proof.
  revert w. induction tests as [|t tests IH]; intros w; [exists w; by rewrite ?take_0, ?drop_0|].
  unfold asked. cbn [runtests List.filter]. destruct (selected justone t); [|exact (IH w)].
  rewrite run_bind. destruct (ut_run_run (t_f t) (t_s t) w) as [l ->].
  set (n := length (List.filter (selected justone) tests)). fold (asked justone tests) in n.
  rewrite andb_true_r. change (take (length (t :: List.filter (selected justone) tests))) with (@take Z (S n)).
  change (drop (length (t :: List.filter (selected justone) tests))) with (@drop Z (S n)).
  set (w1 := mkdrvw _ _ _ _). destruct (IH w1) as (w' & E & Hf & Hs). fold n in E, Hs.
  destruct (d_status w) as [|st sts] eqn:Es; cbn [hd tl] in *; subst w1; cbn [d_status d_free] in *.
  - cbn [Z.eqb negb]. rewrite E, !take_nil in *. exists w'. split_and!; [done..|]. intros _. by rewrite Hs, !drop_nil.
  - cbn [take drop all_zero forallb]. rewrite (Z.eqb_sym 0 st). destruct (st =? 0); cbn [negb andb].
    + rewrite E. by exists w'.
    + rewrite run_bind, say by reflexivity. cbn [run]. eexists. split; [reflexivity|done].
Qed.

Lemma asked_app justone ts ts' : asked justone (ts ++ ts') = (asked justone ts + asked justone ts')%nat.
Proof. unfold asked. by rewrite List.filter_app, length_app. Qed.

Lemma all_zero_take a b l :
  all_zero (take (a + b) l) = all_zero (take a l) && all_zero (take b (drop a l)).
Proof.
  unfold all_zero. rewrite <- forallb_app. f_equal. revert l.
  induction a as [|a IH]; intros [|x l]; cbn; rewrite ?take_nil; [done..|]. by rewrite IH.
Qed.

(** The tests of a round; the world has the count before it. *)
Lemma round_tests_run fuel (quick : bool) justone w :
  exists w' r, drive
      (if negb quick then
         (if bool_decide (justone = None) then u_printf (nlmsg "usertests slow tests starting") [] else Ret tt) ,,
         runtests (slowtests fuel) justone 0
       else Ret 0) w = (Returned r, w') /\
    r = (if all_zero (take (asked justone (if quick then [] else slowtests fuel)) (d_status w)) then 0 else 1) /\
    d_free w' = d_free w.
Proof.
  destruct quick; cbn [negb]; [exists w, 0; by rewrite take_0|].
  rewrite run_bind. destruct (bool_decide _); [rewrite say by reflexivity|cbn [run]].
  - destruct (runtests_run (slowtests fuel) justone (add_out w (map u8 (nlmsg "usertests slow tests starting"))))
      as (w' & -> & Hf & _). by eexists w', _.
  - destruct (runtests_run (slowtests fuel) justone w) as (w' & -> & Hf & _). by eexists w', _.
Qed.

Lemma drive_round_run fuel base_addr (quick : bool) justone statuses free0 free1 :
  0 <= free0 < Z.of_nat fuel -> 0 <= free1 < Z.of_nat fuel -> free0 < 2 ^ 31 -> free1 < 2 ^ 31 ->
  let n := asked justone (quicktests fuel base_addr ++ if quick then [] else slowtests fuel) in
  exists w', drive (drive_round fuel base_addr quick 0 justone) (mkdrvw statuses [free0; free1] 0 []) =
    (Returned (if all_zero (take n statuses) && (free0 <=? free1) then 0 else 1), w').
Proof.
  intros Hf0 Hf1 Hb0 Hb1 n. unfold n. rewrite asked_app, all_zero_take.
  unfold drive_round. rewrite run_bind, say by reflexivity. rewrite run_bind, countfree_run by (cbn; lia).
  cbn [add_out d_status d_free d_pipe d_out hd tl].
  rewrite run_bind. match goal with |- context [drive (runtests _ _ _) ?w] =>
    destruct (runtests_run (quicktests fuel base_addr) justone w) as (w1 & -> & Hf & Hs) end.
  cbn [d_status d_free] in Hf, Hs. cbn [d_status]. destruct (all_zero (take (asked justone (quicktests fuel base_addr)) statuses)); [|by exists w1].
  specialize (Hs eq_refl). cbn [Z.eqb negb andb]. rewrite run_bind.
  destruct (round_tests_run fuel quick justone w1) as (w2 & r & -> & -> & Hf2). rewrite Hs.
  destruct (all_zero (take _ (drop _ _))); [|by exists w2]. cbn [Z.eqb negb andb].
  rewrite run_bind, countfree_run by (rewrite Hf2, Hf; cbn; lia). rewrite Hf2, Hf. cbn [hd].
  destruct (Z.ltb_spec free1 free0), (Z.leb_spec free0 free1); try lia; [|by eexists].
  rewrite run_bind. match goal with |- context [drive (u_printf _ _) ?w] => destruct (say_lost free1 free0 w) as [l ->] end.
  by eexists.
Qed.

(** On a system whose counts find [free0] pages before and [free1] pages
    after, and whose children end with [statuses], usertests exits with 0
    exactly when the tests that were asked for all ended with 0 and no page
    was lost; it then says so. In particular it passes when no test has the
    name it was given. *)
Theorem usertests_verdict (rounds fuel : nat) (base_addr : Z) (quick : bool) (justone : option (list Z))
    (statuses : list Z) (free0 free1 : Z) :
  0 <= free0 < Z.of_nat fuel -> 0 <= free1 < Z.of_nat fuel -> free0 < 2 ^ 31 -> free1 < 2 ^ 31 ->
  let n := asked justone (quicktests fuel base_addr ++ if quick then [] else slowtests fuel) in
  let pass := all_zero (take n statuses) && (free0 <=? free1) in
  exists w', run driver_handler (usertests (S rounds) fuel base_addr quick 0 justone)
      (mkdrvw statuses [free0; free1] 0 []) = (Exited (if pass then 0 else 1), w') /\
    (pass = true -> exists out, d_out w' = out ++ nlmsg "ALL TESTS PASSED").
Proof.
  intros Hf0 Hf1 Hb0 Hb1 n pass. unfold usertests. cbn [drivetests].
  destruct (drive_round_run fuel base_addr quick justone statuses free0 free1 Hf0 Hf1 Hb0 Hb1) as (w & E).
  fold n pass in E. rewrite !run_bind, E. destruct pass; cbn [Z.eqb negb run pbind].
  - rewrite run_bind, say by reflexivity. eexists. split; [reflexivity|]. intros _. by eexists.
  - by exists w.
Qed.

Lemma usertests_verdict_witness :
  exists w', run driver_handler (usertests 1 (Z.to_nat 40000) 0 true 0 (Some (str "pipe1")))
    (mkdrvw [0] [31950; 31950] 0 []) = (Exited 0, w') /\
    exists out, d_out w' = out ++ nlmsg "ALL TESTS PASSED".
Proof.
  destruct (usertests_verdict 0 (Z.to_nat 40000) 0 true (Some (str "pipe1")) [0] 31950 31950)
    as (w' & E & Hout); [lia..|].
  exists w'. split; [exact E|apply Hout; reflexivity].
Defined.
