(* ===== verification/Mkfs.v ===== *)
(** * Making a file system

    Models [src/xv6-os/mkfs/mkfs.c], which runs on the host: the image is an
    array of blocks, and each access to the image file can fail. The host is
    little-endian. A host file that goes into the image is the list of the
    pieces that [read] returns for it, or [None] when it cannot be opened. *)
From S2P Require Import Prelude CString Layout Blocks Printf Bio Fs FsPath.

Definition NINODES : Z := 200.
Definition nbitmap : Z := FSSIZE / BPB + 1.
Definition ninodeblocks : Z := NINODES / IPB + 1.
Definition nlog : Z := LOGSIZE.

(** The variables of the program; [io] tells which of the coming accesses to
    the image file succeed (those after the end of the list do). *)
Record mkst := mkmkst {
  img : gmap Z (list Z);
  mk_sb : superblock;
  freeinode : Z;
  freeblock : Z;
  io : list bool;
}.

Definition set_img x s := mkmkst x (mk_sb s) (freeinode s) (freeblock s) (io s).
Definition set_mksb x s := mkmkst (img s) x (freeinode s) (freeblock s) (io s).
Definition set_freeinode x s := mkmkst (img s) (mk_sb s) x (freeblock s) (io s).
Definition set_freeblock x s := mkmkst (img s) (mk_sb s) (freeinode s) x (io s).
Definition set_io x s := mkmkst (img s) (mk_sb s) (freeinode s) (freeblock s) x.

(** [die] and a failed [assert] end the program. *)
Definition die {A} (msg : string) : M mkst A := panic msg.
Definition assert (b : bool) : M mkst unit := if b then mret' tt else panic "assert".

(** The bytes in the order of the target, read back in the order of the host. *)
Definition xshort (x : Z) : Z := get16 [u8 x; u8 (Z.shiftr (u16 x) 8)] 0.
Definition xint (x : Z) : Z :=
  get32 [u8 x; u8 (Z.shiftr (u32 x) 8); u8 (Z.shiftr (u32 x) 16); u8 (Z.shiftr (u32 x) 24)] 0.

Definition access (msg : string) : M mkst unit :=
  let! l := gets io in
  modify (set_io (tl l)) ;;;
  if hd true l then mret' tt else die msg.

Definition wsect (sec : Z) (buf : list Z) : M mkst unit :=
  access "lseek" ;;;
  access "write" ;;;
  modify (fun s => set_img (<[sec := buf]> (img s)) s).

Definition rsect (sec : Z) : M mkst (list Z) :=
  access "lseek" ;;;
  access "read" ;;;
  gets (fun s => default zero_block (img s !! sec)).

(** A [struct dinode] is its 64 bytes. *)
Definition winode (inum : Z) (din : list Z) : M mkst unit :=
  let! sb := gets mk_sb in
  let bn := IBLOCK inum sb in
  let! buf := rsect bn in
  wsect bn (patch buf (dinode_off inum) din).

Definition rinode (inum : Z) : M mkst (list Z) :=
  let! sb := gets mk_sb in
  let bn := IBLOCK inum sb in
  let! buf := rsect bn in
  mret' (slice buf (dinode_off inum) sizeof_dinode).

Definition zero_dinode : list Z := replicate (Z.to_nat sizeof_dinode) 0.

Definition mk_ialloc (type : Z) : M mkst Z :=
  let! inum := gets freeinode in
  modify (set_freeinode (u32 (inum + 1))) ;;;
  let din := put16 zero_dinode 0 (xshort type) in
  let din := put16 din 6 (xshort 1) in
  let din := put32 din 8 (xint 0) in
  winode inum din ;;;
  mret' inum.

(** The bitmap with the first [used] bits set. *)
Fixpoint used_bits (k : nat) (buf : list Z) (i : Z) : list Z :=
  match k with
  | O => buf
  | S k => used_bits k (patch buf (i / 8) [Z.lor (get8 buf (i / 8)) (u8 (Z.shiftl 1 (i mod 8)))]) (i + 1)
  end.

Definition mk_balloc (used : Z) : M mkst unit :=
  assert (used <? BPB) ;;;
  let! sb := gets mk_sb in
  wsect (sb_bmapstart sb) (used_bits (Z.to_nat used) zero_block 0).

Definition next_block : M mkst Z :=
  let! b := gets freeblock in
  modify (set_freeblock (u32 (b + 1))) ;;;
  mret' b.

Definition din_addr (din : list Z) (k : Z) : Z := get32 din (12 + 4 * k).
Definition set_din_addr (din : list Z) (k x : Z) : list Z := put32 din (12 + 4 * k) x.

(** The block of the image for block [fbn] of the file, allocated when it is
    missing, and the inode. *)
Definition iappend_block (din : list Z) (fbn : Z) : M mkst (Z * list Z) :=
  if fbn <? NDIRECT then
    let! din :=
      (if xint (din_addr din fbn) =? 0 then
         let! b := next_block in
         mret' (set_din_addr din fbn (xint b))
       else mret' din) in
    mret' (xint (din_addr din fbn), din)
  else
    let! din :=
      (if xint (din_addr din NDIRECT) =? 0 then
         let! b := next_block in
         mret' (set_din_addr din NDIRECT (xint b))
       else mret' din) in
    let! ind := rsect (xint (din_addr din NDIRECT)) in
    let o := 4 * (fbn - NDIRECT) in
    let! ind :=
      (if get32 ind o =? 0 then
         let! b := next_block in
         let ind := put32 ind o (xint b) in
         wsect (xint (din_addr din NDIRECT)) ind ;;;
         mret' ind
       else mret' ind) in
    mret' (xint (get32 ind o), din).

(** The loop over the bytes [p]. Each round takes at least one. *)
Fixpoint iappend_loop (k : nat) (din p : list Z) (off : Z) : M mkst (list Z * Z) :=
  match k, p with
  | _, [] => mret' (din, off)
  | O, _ => out_of_fuel
  | S k, _ =>
      let fbn := off / BSIZE in
      assert (fbn <? MAXFILE) ;;;
      let! r := iappend_block din fbn in
      let '(x, din) := r in
      let n1 := Z.min (zlen p) ((fbn + 1) * BSIZE - off) in
      let! buf := rsect x in
      wsect x (patch buf (off - fbn * BSIZE) (slice p 0 n1)) ;;;
      iappend_loop k din (drop (Z.to_nat n1) p) (off + n1)
  end.

Definition iappend (inum : Z) (p : list Z) : M mkst unit :=
  let! din := rinode inum in
  let off := xint (get32 din 8) in
  let! r := iappend_loop (length p) din p off in
  winode inum (put32 r.1 8 (xint r.2)).

(** [struct dirent] *)
Definition dirent (inum : Z) (name : list Z) : list Z :=
  patch (put16 (replicate (Z.to_nat sizeof_dirent) 0) 0 (xshort inum)) 2 name.

Fixpoint iappend_all (inum : Z) (l : list (list Z)) : M mkst unit :=
  match l with
  | [] => mret' tt
  | p :: l =>
      iappend inum p ;;;
      iappend_all inum l
  end.

(** The name without the directory and the underscore. *)
Definition strip_user (name : list Z) : list Z :=
  if bool_decide (take 5 name = str "user/") then drop 5 name else name.
Definition strip_underscore (name : list Z) : list Z :=
  if hd 0 name =? ch "_" then tl name else name.

Fixpoint mkfs_files (rootino : Z) (files : list (list Z * option (list (list Z)))) : M mkst unit :=
  match files with
  | [] => mret' tt
  | (name, content) :: files =>
      let shortname := strip_user name in
      assert (negb (existsb (Z.eqb slash) shortname)) ;;;
      match content with
      | None => die "open"
      | Some content =>
          let shortname := strip_underscore shortname in
          assert (zlen shortname <=? DIRSIZ) ;;;
          let! inum := mk_ialloc T_FILE in
          iappend rootino (dirent inum (strncpy_list (Z.to_nat DIRSIZ) shortname)) ;;;
          iappend_all inum content ;;;
          mkfs_files rootino files
      end
  end.

Definition nmeta : Z := 2 + nlog + ninodeblocks + nbitmap.
Definition nblocks : Z := FSSIZE - nmeta.

Definition mkfs_sb : superblock :=
  mksuperblock FSMAGIC (xint FSSIZE) (xint nblocks) (xint NINODES) (xint nlog) (xint 2)
    (xint (2 + nlog)) (xint (2 + nlog + ninodeblocks)).

Definition sb_bytes (sb : superblock) : list Z :=
  le 4 (sb_magic sb) ++ le 4 (sb_size sb) ++ le 4 (sb_nblocks sb) ++ le 4 (sb_ninodes sb) ++
  le 4 (sb_nlog sb) ++ le 4 (sb_logstart sb) ++ le 4 (sb_inodestart sb) ++ le 4 (sb_bmapstart sb).

Fixpoint zero_image (k : nat) (i : Z) : M mkst unit :=
  match k with
  | O => mret' tt
  | S k =>
      wsect i zero_block ;;;
      zero_image k (i + 1)
  end.

(** [main] once the image file is open; [opened] is whether it could be. *)
Definition mkfs_main (opened : bool) (files : list (list Z * option (list (list Z)))) : M mkst unit :=
  (if opened then mret' tt else die "open") ;;;
  modify (set_mksb mkfs_sb) ;;;
  modify (set_freeblock nmeta) ;;;
  zero_image (Z.to_nat FSSIZE) 0 ;;;
  wsect 1 (patch zero_block 0 (sb_bytes mkfs_sb)) ;;;
  let! rootino := mk_ialloc T_DIR in
  assert (rootino =? ROOTINO) ;;;
  iappend rootino (dirent rootino (str ".")) ;;;
  iappend rootino (dirent rootino (str "..")) ;;;
  mkfs_files rootino files ;;;
  let! din := rinode rootino in
  let off := xint (get32 din 8) in
  let off := (off / BSIZE + 1) * BSIZE in
  winode rootino (put32 din 8 (xint off)) ;;;
  let! b := gets freeblock in
  mk_balloc (s32 b).
