(* ===== verification/LogSpace.v ===== *)
(** * Transactions of several processes

    Processes enter an operation with [begin_op], log blocks and leave with
    [end_op], in any order and as often as they like; a process that sleeps in
    one of these routines goes on later, when others have used the log. A
    configuration has the log and the point at which each process is. All the
    rest of the kernel's state is arbitrary at every step, so that nothing is
    assumed about buffers, locks or the scheduler. An operation logs at most
    [limit] different blocks. *)
From S2P Require Import Prelude Keeps CString Spinlock Layout Dll Blocks Kalloc Vm Proc ProcSpec Quiet.
From S2P Require Import Sleeplock Bio BioSpec Log LogDisk LogSpec LogOps Mkfs.

(** ** Messages *)

(** The panics of [begin_op], [log_write] and [end_op] themselves. *)
Definition log_panics : list string :=
  ["too big a transaction"; "log_write outside of trans"; "log.committing"]%string.

Definition other_msg (msg : string) : Prop := existsb (String.eqb msg) log_panics = false.

Lemma says_push_off Y : says other_msg Y push_off.
Proof. unfold push_off, intr_get, intr_off, mycpu, set_mycpu. says_run. Qed.
Lemma says_pop_off Y : says other_msg Y pop_off.
Proof. unfold pop_off, intr_get, intr_on, mycpu, set_mycpu. says_run. Qed.
Lemma says_holding Y l : says other_msg Y (holding l).
Proof. unfold holding, cpuid. says_run. Qed.
#[export] Hint Resolve says_push_off says_pop_off says_holding : says.
Lemma says_acquire Y l : says other_msg Y (acquire l).
Proof. unfold acquire, acquire_enter, test_and_set, record_holder, set_lock, cpuid. says_run. Qed.
Lemma says_release Y l : says other_msg Y (release l).
Proof. unfold release, release_enter, clear_holder, lock_release, set_lock, cpuid. says_run. Qed.
Lemma says_myproc Y : says other_msg Y myproc.
Proof. unfold myproc, mycpu. says_run. Qed.
#[export] Hint Resolve says_acquire says_release says_myproc : says.

Lemma says_getp {A} Y i (f : proc -> A) : says other_msg Y (getp i f).
Proof. unfold getp. says_run. Qed.
Lemma says_updp Y i f : says other_msg Y (updp i f).
Proof. unfold updp. says_run. Qed.
Lemma says_cur Y : says other_msg Y cur.
Proof. unfold cur, deref. says_run. Qed.
#[export] Hint Resolve says_getp says_updp says_cur : says.
Lemma says_wakeup Y ch : says other_msg Y (wakeup ch).
Proof.
  unfold wakeup. generalize 0%nat. induction NPROC as [|k IH]; intros p; cbn [wakeup_loop]; says_run; auto.
Qed.
Lemma says_sleep ch lk : says other_msg True (sleep ch lk).
Proof.
  unfold sleep, sched, mycpu, intr_get, set_mycpu. says_run. by apply says_yield.
Qed.
#[export] Hint Resolve says_wakeup says_sleep : says.

Lemma says_acquiresleep fuel l : says other_msg True (acquiresleep fuel l).
Proof.
  unfold acquiresleep, set_slock.
  assert (H : says other_msg True (acquiresleep_wait fuel l)); [|says_run].
  induction fuel as [|f IH]; cbn [acquiresleep_wait]; says_run.
Qed.
Lemma says_releasesleep Y l : says other_msg Y (releasesleep l).
Proof. unfold releasesleep, set_slock. says_run. Qed.
Lemma says_holdingsleep Y l : says other_msg Y (holdingsleep l).
Proof. unfold holdingsleep. says_run. Qed.
#[export] Hint Resolve says_acquiresleep says_releasesleep says_holdingsleep : says.

Lemma says_getb {A} Y b (f : buf -> A) : says other_msg Y (getb b f).
Proof. unfold getb. says_run. Qed.
Lemma says_updb Y b f : says other_msg Y (updb b f).
Proof. unfold updb. says_run. Qed.
#[export] Hint Resolve says_getb says_updb : says.
Lemma says_disk_rw Y b w : says other_msg Y (disk_rw b w).
Proof. unfold disk_rw. says_run. Qed.
Lemma says_bget_cached Y k b dev n : says other_msg Y (bget_cached k b dev n).
Proof. revert b. induction k; intros b; cbn [bget_cached]; says_run; auto. Qed.
Lemma says_bget_unused Y k b : says other_msg Y (bget_unused k b).
Proof. revert b. induction k; intros b; cbn [bget_unused]; says_run; auto. Qed.
#[export] Hint Resolve says_disk_rw says_bget_cached says_bget_unused : says.
Lemma says_bread fuel dev n : says other_msg True (bread fuel dev n).
Proof. unfold bread, bget. says_run. Qed.
Lemma says_bwrite Y b : says other_msg Y (bwrite b).
Proof. unfold bwrite. says_run. Qed.
Lemma says_brelse Y b : says other_msg Y (brelse b).
Proof. unfold brelse, bpush. says_run. Qed.
Lemma says_bpin Y b : says other_msg Y (bpin b).
Proof. unfold bpin. says_run. Qed.
Lemma says_bunpin Y b : says other_msg Y (bunpin b).
Proof. unfold bunpin. says_run. Qed.
Lemma says_bcopy Y b1 b2 : says other_msg Y (bcopy b1 b2).
Proof. unfold bcopy. says_run. Qed.
#[export] Hint Resolve says_bread says_bwrite says_brelse says_bpin says_bunpin says_bcopy : says.

(** ** What the routines do to the log *)

(** The log is [L]; the log is as at the start of the stretch. *)
Definition log_is (L : log) (_ s : lst) : Prop := l_log s = L.
Definition log_same (s0 s : lst) : Prop := l_log s = l_log s0.

(** The test of [begin_op]. *)
Definition admits (L : log) : Prop :=
  l_committing L = 0 /\ lh_n L + (l_outstanding L + 1) * MAXOPBLOCKS <= LOGSIZE.

(** A log that a process is committing. *)
Definition busy (z : Z) (L : log) : Prop :=
  l_committing L = 1 /\ l_outstanding L = 0 /\ l_size L = z /\ 0 <= lh_n L <= LOGSIZE.

(** A log with no operation and nothing to commit. *)
Definition idle (z : Z) (L : log) : Prop :=
  l_committing L = 0 /\ l_outstanding L = 0 /\ l_size L = z /\ lh_n L = 0.

(** Anything may happen to the log while a process sleeps in [begin_op]. *)
Definition anything (_ _ : lst) : Prop := True.

Definition entered (s0 : lst) (_ : unit) (s : lst) : Prop :=
  admits (l_log s0) /\ l_log s = set_outstanding (l_outstanding (l_log s0) + 1) (l_log s0).

Lemma begin_op_loop_runs f : runs anything log_same other_msg log_same (begin_op_loop f) entered.
Proof.
  induction f as [|f IH]; cbn [begin_op_loop];
    (eapply runs_bind with (Q := fun s0 l s => l = l_log s0 /\ l_log s = l_log s0);
       [apply runs_gets; intros s0 s H; by rewrite H|intros l]);
    apply runs_if; intros E; [apply runs_fuel| | |].
  2: { apply (runs_pre _ _ _ log_same); [intros s0 s H; apply H|].
       apply (runs_bind _ _ _ _ (fun s0 _ => log_same s0)); [|intros []; exact IH].
       apply (runs_lift _ _ _ True); [apply says_sleep|done..]. }
  all: eapply runs_bind with (Q := entered).
  2,4: intros []; apply runs_call; [apply says_release|done..].
  all: apply runs_modify; intros s0 s [-> H]; split; [|cbn; by rewrite H].
  all: apply orb_false_iff in E as [E1 E2]; apply negb_false_iff, Z.eqb_eq in E1; apply Z.ltb_ge in E2; by split.
Qed.

(** [begin_op] enters when the test holds, and leaves the log alone until then. *)
Lemma begin_op_runs fuel : runs anything log_same other_msg log_same (begin_op fuel) entered.
Proof.
  unfold begin_op. apply (runs_bind _ _ _ _ (fun s0 _ => log_same s0)); [|intros []; apply begin_op_loop_runs].
  apply runs_call; [apply says_acquire|done..].
Qed.

(** The header after block [n] is logged. *)
Definition log_add (n : Z) (L : log) : log :=
  let i := log_find (Z.to_nat (lh_n L)) 0 n L in
  if i =? lh_n L then set_lhn (lh_n L + 1) (set_block i (s32 n) L) else set_block i (s32 n) L.

(** A log with room for one more block. *)
Definition has_room (L : log) : Prop := lh_n L < LOGSIZE /\ lh_n L < l_size L - 1 /\ 1 <= l_outstanding L.

Definition nothing (_ _ : lst) : Prop := False.

Lemma log_write_runs u :
  runs nothing nothing other_msg (fun s0 s => s = s0 /\ has_room (l_log s0)) (log_write u)
    (fun s0 _ s => l_log s = log_add (b_blockno (buf_of (l_b s0) u)) (l_log s0)).
Proof.
  unfold log_write.
  eapply runs_bind with (Q := fun s0 _ s => has_room (l_log s0) /\ l_log s = l_log s0 /\ bufs (l_b s) = bufs (l_b s0)).
  { apply (runs_pre _ _ _ (fun s0 s => has_room (l_log s0) /\ l_log s = l_log s0 /\ bufs (l_b s) = bufs (l_b s0)));
      [by intros s0 s [-> H]|]. apply runs_call; [apply says_acquire|done..]. }
  intros []. eapply runs_bind with (Q := fun s0 l s => l = l_log s0 /\ has_room l /\ l_log s = l /\ bufs (l_b s) = bufs (l_b s0)).
  { apply runs_gets. intros s0 s (H1 & H2 & H3). by rewrite H2. }
  intros l. apply runs_if; intros E1.
  { intros s0 s (-> & [H1 [H2 _]] & _). exfalso. apply orb_true_iff in E1 as [E%Z.leb_le|E%Z.leb_le]; lia. }
  apply runs_if; intros E2.
  { intros s0 s (-> & [_ [_ H]] & _). exfalso. apply Z.ltb_lt in E2. lia. }
  eapply runs_bind with (Q := fun s0 n s => l = l_log s0 /\ l_log s = l /\ n = b_blockno (buf_of (l_b s0) u)).
  { intros s0 s (-> & _ & H2 & H3). split_and!; [done..|].
    change (b_blockno (buf_of (l_b s) u) = b_blockno (buf_of (l_b s0) u)). unfold buf_of. by rewrite H3. }
  intros n. eapply runs_bind with
    (Q := fun s0 _ s => l = l_log s0 /\ n = b_blockno (buf_of (l_b s0) u) /\
       l_log s = set_block (log_find (Z.to_nat (lh_n l)) 0 n l) (s32 n) l).
  { apply runs_modify. intros s0 s (-> & H2 & ->). cbn. by rewrite H2. }
  intros []. eapply runs_bind with (Q := fun s0 _ s => l_log s = log_add (b_blockno (buf_of (l_b s0) u)) (l_log s0));
    [|intros []; apply runs_call; [apply says_release|done..]].
  apply runs_if; intros E3.
  - eapply runs_bind; [apply (runs_lift _ _ _ False); [apply says_bpin|done..]|].
    intros []. apply runs_modify. intros s0 s (-> & -> & H3). unfold log_add. rewrite E3. cbn [l_log]. by rewrite H3.
  - apply runs_ret. intros s0 s (-> & -> & H3). unfold log_add. by rewrite E3.
Qed.

(** Reads and updates of a known log. *)
Lemma runs_getl {A B} R G Pm L (f : log -> A) (k : A -> M lst B) Q :
  runs R G Pm (log_is L) (k (f L)) Q -> runs R G Pm (log_is L) (mbind' (getl f) k) Q.
Proof. intros H s0 s Hs. unfold mbind', getl, gets. cbn. rewrite Hs. by apply H. Qed.

Lemma runs_updl {B} R G Pm L f (k : unit -> M lst B) Q :
  runs R G Pm (log_is (f L)) (k tt) Q -> runs R G Pm (log_is L) (mbind' (updl f) k) Q.
Proof. intros H s0 s Hs. unfold mbind', updl, modify. cbn. apply H. unfold log_is. cbn. by rewrite Hs. Qed.

(** Calls that do not sleep. *)
Lemma runs_quick {S A B} `{Sub S lst} R G L (m : M S A) (k : A -> M lst B) Q :
  says other_msg False m -> (forall t x, l_log (sub_put x t) = l_log t) ->
  (forall a, runs R G other_msg (log_is L) (k a) Q) -> runs R G other_msg (log_is L) (mbind' (lift m) k) Q.
Proof.
  intros Hm Hput Hk. eapply runs_bind; [|exact Hk]. apply (runs_lift _ _ _ False); [exact Hm| |done..].
  intros s0 t x Ht. unfold log_is. by rewrite Hput.
Qed.

(** While a process commits, the others leave the log alone, and it is busy
    whenever the process sleeps. *)
Section Commit.
Context (z : Z) (fuel : nat).

Definition stays_busy (_ s : lst) : Prop := busy z (l_log s).
Definition to_log (L : log) (_ : lst) (_ : unit) (s : lst) : Prop := l_log s = L.

Notation commits L m Q := (runs log_same stays_busy other_msg (log_is L) m Q).

Lemma commits_call {A B} L (m : M bst A) (k : A -> M lst B) Q :
  says other_msg True m -> busy z L -> (forall a, commits L (k a) Q) -> commits L (mbind' (lift m) k) Q.
Proof.
  intros Hm Hb Hk. eapply runs_bind; [|exact Hk]. eapply (runs_lift _ _ _ True); [exact Hm|done|..].
  - intros _ s0 t Ht. unfold stays_busy. by rewrite Ht.
  - intros _ s0 t t' Ht Ht'. unfold log_is. by rewrite Ht'.
Qed.

Lemma commits_last L (m : M bst unit) :
  says other_msg True m -> busy z L -> commits L (lift m) (to_log L).
Proof.
  intros Hm Hb. eapply runs_post; [apply (runs_lift _ _ _ True); [exact Hm|done|..]|].
  - intros _ s0 t Ht. unfold stays_busy. by rewrite Ht.
  - intros _ s0 t t' Ht Ht'. unfold log_is. by rewrite Ht'.
  - intros s0 [] s Hs. exact Hs.
Qed.

Lemma commits_seq L L' (m : M lst unit) k (Q : lst -> unit -> lst -> Prop) :
  commits L m (to_log L') -> commits L' k Q -> commits L (m ;;; k) Q.
Proof. intros Hm Hk. eapply runs_bind; [exact Hm|]. intros []. exact Hk. Qed.

Lemma commits_ret L : commits L (mret' tt) (to_log L).
Proof. by apply runs_ret. Qed.

Ltac commits_run :=
  repeat match goal with
  | |- runs _ _ _ _ (mbind' (getl _) _) _ => apply runs_getl
  | |- runs _ _ _ _ (mbind' (updl _) _) _ => apply runs_updl
  | |- runs _ _ _ _ (mbind' (lift _) _) _ => apply commits_call; [eauto with says nocore|done|intros ?]
  | |- runs _ _ _ _ (lift _) _ => apply commits_last; [eauto with says nocore|done]
  | |- runs _ _ _ _ (mret' tt) _ => apply commits_ret
  end.

Lemma write_log_loop_commits L k : forall tail, busy z L -> commits L (write_log_loop fuel k tail) (to_log L).
Proof. induction k as [|k IH]; intros tail Hb; cbn [write_log_loop]; commits_run. by apply IH. Qed.

Lemma install_loop_commits L k : forall tail, busy z L -> commits L (install_loop fuel k tail false) (to_log L).
Proof. induction k as [|k IH]; intros tail Hb; cbn [install_loop negb]; commits_run. by apply IH. Qed.

Lemma write_head_loop_commits L k : forall i b, busy z L -> commits L (write_head_loop k i b) (to_log L).
Proof. induction k as [|k IH]; intros i b Hb; cbn [write_head_loop]; commits_run. by apply IH. Qed.

Lemma write_head_commits L : busy z L -> commits L (write_head fuel) (to_log L).
Proof.
  intros Hb. unfold write_head. commits_run.
  eapply commits_seq; [by apply write_head_loop_commits|]. commits_run.
Qed.

(** A commit ends with an empty header. *)
Lemma commit_commits L : busy z L ->
  commits L (commit fuel) (fun _ _ s => l_log s = set_lhn 0 L).
Proof.
  intros Hb. unfold commit. destruct Hb as (H1 & H2 & H3 & H4) eqn:Eb; clear Eb. apply runs_getl. apply runs_if; intros E.
  - eapply commits_seq. { unfold write_log. commits_run. by apply write_log_loop_commits. }
    eapply commits_seq; [by apply write_head_commits|].
    eapply commits_seq. { unfold install_trans. commits_run. by apply install_loop_commits. }
    apply runs_updl. apply (write_head_commits (set_lhn 0 L)). unfold busy. cbn. split_and!; (done || unfold LOGSIZE, MAXOPBLOCKS; lia).
  - apply runs_ret. intros s0 s ->. apply Z.ltb_ge in E. assert (lh_n L = 0) as H by lia.
    unfold set_lhn. rewrite <- H. by destruct L.
Qed.
End Commit.

(** [end_op] of an operation that is not the last one only leaves. *)
Lemma end_op_leaves fuel L : l_committing L = 0 -> l_outstanding L <> 1 ->
  runs nothing nothing other_msg (log_is L) (end_op fuel) (to_log (set_outstanding (l_outstanding L - 1) L)).
Proof.
  intros Hc Ho. unfold end_op. apply runs_quick; [apply says_acquire|done|intros []].
  apply runs_getl, runs_updl, runs_getl. cbn [l_committing set_outstanding]. rewrite Hc. cbn [Z.eqb negb].
  apply runs_getl. cbn [l_outstanding set_outstanding].
  rewrite (proj2 (Z.eqb_neq (l_outstanding L - 1) 0)) by lia.
  eapply (runs_bind _ _ _ _ (fun s0 (d : bool) s => d = false /\ log_is (set_outstanding (l_outstanding L - 1) L) s0 s)).
  { apply runs_quick; [apply says_wakeup|done|intros []]. by apply runs_ret. }
  intros d s0 s [-> Hs]. revert s0 s Hs. apply runs_quick; [apply says_release|done|intros []]. by apply runs_ret.
Qed.

(** The last one commits and leaves an idle log. *)
Lemma end_op_commits fuel L : l_committing L = 0 -> l_outstanding L = 1 -> 0 <= lh_n L <= LOGSIZE ->
  runs log_same (stays_busy (l_size L)) other_msg (log_is L) (end_op fuel) (fun _ _ s => idle (l_size L) (l_log s)).
Proof.
  intros Hc Ho Hn. unfold end_op. apply runs_quick; [apply says_acquire|done|intros []].
  apply runs_getl, runs_updl, runs_getl. cbn [l_committing set_outstanding]. rewrite Hc. cbn [Z.eqb negb].
  apply runs_getl. cbn [l_outstanding set_outstanding]. rewrite Ho. cbn [Z.sub Z.add Z.opp Z.pos_sub Z.eqb].
  set (L1 := set_committing 1 (set_outstanding 0 L)).
  eapply (runs_bind _ _ _ _ (fun s0 (d : bool) s => d = true /\ log_is L1 s0 s)).
  { apply runs_updl. by apply runs_ret. }
  intros d s0 s [-> Hs]. revert s0 s Hs. apply runs_quick; [apply says_release|done|intros []].
  eapply commits_seq; [by apply commit_commits|].
  apply runs_quick; [apply says_acquire|done|intros []]. apply runs_updl.
  apply runs_quick; [apply says_wakeup|done|intros []]. apply runs_call; [apply says_release| |].
  - intros s0 t x Ht. exact Ht.
  - intros s0 [] s ->. by split_and!.
Qed.

(** ** Processes *)

(** Where a process is: outside of an operation, in a stretch of [begin_op],
    in an operation that has logged the blocks [W], or in a stretch of
    [log_write] or [end_op]. *)
Inductive place :=
| Out
| Entering (k : lst -> res lst unit)
| Inside (W : gset Z)
| Writing (k : lst -> res lst unit)
| Leaving (k : lst -> res lst unit).

Inductive conf := Running (L : log) (ps : list place) | Panicked (msg : string).

(** Process [i] after a stretch of a routine: it is at [fin] if the routine
    has returned. A stretch that never ends has no successor. *)
Definition outcome (ps : list place) (i : nat) (fin : place) (susp : (lst -> res lst unit) -> place)
    (r : res lst unit) : option conf :=
  match r with
  | Ok _ s => Some (Running (l_log s) (<[i := fin]> ps))
  | Yield s k => Some (Running (l_log s) (<[i := susp k]> ps))
  | Panic msg => Some (Panicked msg)
  | Spin | OutOfFuel => None
  end.

(** The next stretch of process [i], with the rest of the kernel in state [b]:
    it goes on with its routine; outside it calls [begin_op]; inside it logs
    buffer [u], or calls [end_op]. *)
Inductive act := Go (i : nat) (b : bst) | Write (i : nat) (b : bst) (u : Z).

Section Steps.
Context (fuel limit : nat).

Definition do_act (a : act) (c : conf) : option conf :=
  match c with
  | Panicked _ => None
  | Running L ps =>
      match a with
      | Go i b =>
          match ps !! i with
          | Some Out => outcome ps i (Inside ∅) Entering (begin_op fuel (mklst b L))
          | Some (Entering k) => outcome ps i (Inside ∅) Entering (k (mklst b L))
          | Some (Inside _) => outcome ps i Out Leaving (end_op fuel (mklst b L))
          | Some (Leaving k) => outcome ps i Out Leaving (k (mklst b L))
          | Some (Writing _) | None => None
          end
      | Write i b u =>
          let n := b_blockno (buf_of b u) in
          match ps !! i with
          | Some (Inside W) =>
              if (0 <=? n) && (n <? 2 ^ 32) && bool_decide (size ({[n]} ∪ W) <= limit)%nat
              then outcome ps i (Inside ({[n]} ∪ W)) Writing (log_write u (mklst b L))
              else None
          | _ => None
          end
      end
  end.

Definition lstep (c c' : conf) : Prop := exists a, do_act a c = Some c'.
End Steps.

(** ** The invariant *)

(** The sum of [f] over the processes. *)
Fixpoint tally (f : place -> Z) (ps : list place) : Z :=
  match ps with
  | [] => 0
  | p :: ps => f p + tally f ps
  end.

Lemma tally_insert f ps i p q : ps !! i = Some p -> tally f (<[i := q]> ps) = tally f ps - f p + f q.
Proof.
  revert i. induction ps as [|x ps IH]; intros i H; [done|].
  destruct i as [|i]; [injection H as ->; cbn; lia|].
  change (f x + tally f (<[i := q]> ps) = f x + tally f ps - f p + f q). rewrite (IH i H). lia.
Qed.

Lemma tally_ge f ps : (forall i p, ps !! i = Some p -> 0 <= f p) ->
  0 <= tally f ps /\ forall i p, ps !! i = Some p -> f p <= tally f ps.
Proof.
  intros Hf. induction ps as [|x ps IH]; cbn; [split; [lia|done]|]. pose proof (Hf 0%nat x eq_refl).
  destruct IH as [IH0 IH]; [intros i p; exact (Hf (S i) p)|]. split; [lia|].
  intros [|i] p H'; cbn in H'; [injection H' as ->; lia|]. specialize (IH i p H'). lia.
Qed.

Lemma tally_le f g c ps : (forall i p, ps !! i = Some p -> f p <= c * g p) -> tally f ps <= c * tally g ps.
Proof.
  intros Hf. induction ps as [|x ps IH]; cbn; [lia|]. pose proof (Hf 0%nat x eq_refl).
  specialize (IH (fun i p => Hf (S i) p)). lia.
Qed.

Definition inside (p : place) : Z := match p with Inside _ => 1 | _ => 0 end.
Definition leaving (p : place) : Z := match p with Leaving _ => 1 | _ => 0 end.

(** Block [n] is in the header. *)
Definition in_log (L : log) (n : Z) : Prop := exists j, 0 <= j < lh_n L /\ u32 (block_at L j) = n.

(** [log_add] finds a block that is in the header and appends another one. *)
Lemma log_add_spec n L : 0 <= lh_n L -> 0 <= n < 2 ^ 32 ->
  l_size (log_add n L) = l_size L /\ l_outstanding (log_add n L) = l_outstanding L /\
  l_committing (log_add n L) = l_committing L /\
  (in_log L n /\ lh_n (log_add n L) = lh_n L \/ ~ in_log L n /\ lh_n (log_add n L) = lh_n L + 1) /\
  (forall m, in_log L m -> in_log (log_add n L) m) /\ in_log (log_add n L) n.
Proof.
  intros H0 Hn. assert (Hu : u32 (s32 n) = n) by (unfold u32, s32; divlia).
  unfold log_add. destruct (log_find_spec L n (Z.to_nat (lh_n L)) 0) as [(j & Hj & Ej & Eu)|[Ej Hno]].
  - rewrite Ej. destruct (Z.eqb_spec j (lh_n L)); [lia|]. split_and!; try reflexivity.
    + left. split; [|done]. exists j. split; [lia|done].
    + intros m (i & Hi & Em). exists i. split; [done|]. rewrite set_block_at. case_decide as Hd; [by rewrite Hu, <- Em, Hd, Eu|done].
    + exists j. split; [cbn; lia|]. rewrite set_block_at. by rewrite decide_True.
  - rewrite Ej. destruct (Z.eqb_spec (0 + Z.of_nat (Z.to_nat (lh_n L))) (lh_n L)) as [E|]; [|lia]. rewrite E.
    split_and!; try reflexivity.
    + right. split; [|done]. intros (i & Hi & Em). apply (Hno i); [lia|done].
    + intros m (i & Hi & Em). exists i. split; [cbn; lia|].
      change (u32 (block_at (set_block (lh_n L) (s32 n) L) i) = m). rewrite set_block_at. case_decide; [lia|done].
    + exists (lh_n L). split; [cbn; lia|].
      change (u32 (block_at (set_block (lh_n L) (s32 n) L) (lh_n L)) = n). rewrite set_block_at. by rewrite decide_True.
Qed.

Section Invariant.
Context (limit : nat).

(** The blocks that an operation may still add. *)
Definition left_to (p : place) : Z := match p with Inside W => Z.of_nat limit - Z.of_nat (size W) | _ => 0 end.

(** The largest header: two operations enter when the header already has
    [LOGSIZE - 2 * MAXOPBLOCKS] blocks. *)
Definition peak : Z := LOGSIZE - 2 * MAXOPBLOCKS + 2 * Z.of_nat limit.

Definition place_ok (L : log) (p : place) : Prop :=
  match p with
  | Out => True
  | Entering k => forall s, res_runs anything log_same other_msg entered s (k s)
  | Inside W => (size W <= limit)%nat /\ forall n, n ∈ W -> in_log L n
  | Writing _ => False
  | Leaving k => forall s, l_log s = L ->
      res_runs log_same (stays_busy (l_size L)) other_msg (fun _ _ s => idle (l_size L) (l_log s)) s (k s)
  end.

Record log_inv (L : log) (ps : list place) : Prop := {
  iv_size : peak < l_size L - 1;
  iv_inside : l_outstanding L = tally inside ps;
  iv_leaving : l_committing L = tally leaving ps;
  iv_alone : l_committing L = 0 \/ l_committing L = 1 /\ l_outstanding L = 0;
  iv_n : 0 <= lh_n L <= LOGSIZE;
  iv_room : l_committing L = 0 -> lh_n L + tally left_to ps <= peak;
  iv_idle : l_committing L = 0 -> l_outstanding L = 0 -> lh_n L = 0;
  iv_places : forall i p, ps !! i = Some p -> place_ok L p;
}.

Definition conf_ok (c : conf) : Prop :=
  match c with
  | Running L ps => log_inv L ps
  | Panicked msg => other_msg msg
  end.

Lemma inside_free ps i p : tally inside ps = 0 -> ps !! i = Some p -> inside p = 0.
Proof.
  intros H0 H. destruct (tally_ge inside ps) as [_ Hp]; [intros ? []; cbn; lia|].
  specialize (Hp i p H). destruct p; cbn in *; lia.
Qed.

Lemma leaving_free ps i p : tally leaving ps = 0 -> ps !! i = Some p -> leaving p = 0.
Proof.
  intros H0 H. destruct (tally_ge leaving ps) as [_ Hp]; [intros ? []; cbn; lia|].
  specialize (Hp i p H). destruct p; cbn in *; lia.
Qed.

(** The other processes when the log changes: none of them commits, and the
    header keeps the blocks of the operations. *)
Lemma place_mono L L' p :
  leaving p = 0 -> (inside p = 0 \/ forall n, in_log L n -> in_log L' n) -> place_ok L p -> place_ok L' p.
Proof.
  destruct p; cbn; try done. intros _ [H|H]; [lia|]. intros [H1 H2]. split; [done|]. auto.
Qed.

Lemma places_insert L (ps : list place) i q :
  (forall j p, <[i := Out]> ps !! j = Some p -> place_ok L p) -> place_ok L q ->
  forall j p, <[i := q]> ps !! j = Some p -> place_ok L p.
Proof.
  intros H Hq j p [(_ & <- & _)|(Hne & Hj)]%list_lookup_insert_Some; [done|].
  apply (H j). by rewrite list_lookup_insert_ne.
Qed.

(** What a stretch that [runs] leads to. *)
Lemma outcome_cases R G (Q : lst -> unit -> lst -> Prop) s0 ps i fin susp r c :
  outcome ps i fin susp r = Some c -> res_runs R G other_msg Q s0 r ->
  (exists s, Q s0 tt s /\ c = Running (l_log s) (<[i := fin]> ps)) \/
  (exists s k, G s0 s /\ (forall s', R s s' -> res_runs R G other_msg Q s' (k s')) /\
     c = Running (l_log s) (<[i := susp k]> ps)) \/
  (exists msg, other_msg msg /\ c = Panicked msg).
Proof.
  destruct r as [[] s|msg| | |s k]; cbn; intros H Hr; try done; injection H as <-; [left; eauto|right; right; eauto|].
  right; left. destruct Hr. eauto.
Qed.

Context (Hlimit : Z.of_nat limit < MAXOPBLOCKS).

Lemma left_bounds L ps : log_inv L ps ->
  0 <= tally left_to ps /\ (forall i p, ps !! i = Some p -> left_to p <= tally left_to ps) /\
  tally left_to ps <= Z.of_nat limit * tally inside ps.
Proof.
  intros Hi. assert (H : forall i p, ps !! i = Some p -> 0 <= left_to p <= Z.of_nat limit * inside p).
  { intros i p Hp. apply (iv_places _ _ Hi) in Hp. destruct p; cbn in *; lia. }
  destruct (tally_ge left_to ps) as [H1 H2]; [intros i p Hp; apply (H i p Hp)|].
  split_and!; [done..|]. apply tally_le. intros i p Hp. apply (H i p Hp).
Qed.

(** The others stay as they are when nobody commits. *)
Lemma others_mono L L' ps i p :
  log_inv L ps -> ps !! i = Some p -> l_committing L = 0 -> (forall n, in_log L n -> in_log L' n) ->
  forall j p', <[i := Out]> ps !! j = Some p' -> place_ok L' p'.
Proof.
  intros Hi Hp Hc Hl j p' [(_ & <- & _)|(Hne & Hj)]%list_lookup_insert_Some; [done|].
  apply (place_mono L); [|by right|by apply (iv_places _ _ Hi j)].
  apply (leaving_free ps j); [|done]. by rewrite <- (iv_leaving _ _ Hi).
Qed.

(** A stretch of [begin_op]. *)
Lemma enter_ok L ps i p s r c :
  log_inv L ps -> ps !! i = Some p -> inside p = 0 -> leaving p = 0 -> l_log s = L ->
  res_runs anything log_same other_msg entered s r -> outcome ps i (Inside ∅) Entering r = Some c -> conf_ok c.
Proof.
  intros Hi Hp H0 H1 <- Hr Ho. pose proof (left_bounds _ _ Hi) as (B0 & _ & B1).
  assert (Hl : left_to p = 0) by (destruct p; done).
  destruct (outcome_cases _ _ _ _ _ _ _ _ _ _ Ho Hr) as [(s' & [[A1 A2] E] & ->)|[(s' & k & E & Hk & ->)|(msg & Hm & ->)]];
    [| |exact Hm].
  - cbn [conf_ok]. rewrite E. destruct Hi as [I1 I2 I3 I4 I5 I6 I7 I8] eqn:EI; clear EI.
    constructor; cbn [l_size l_outstanding l_committing lh_n set_outstanding]; rewrite ?(tally_insert _ _ _ _ _ Hp).
    + done.
    + cbn. lia.
    + cbn. lia.
    + by left.
    + done.
    + intros _. rewrite Hl. cbn [left_to]. rewrite size_empty. specialize (I6 A1). specialize (I7 A1).
      unfold peak, LOGSIZE, MAXOPBLOCKS in *. rewrite <- I2 in B1.
      assert (0 <= tally inside ps) by (apply tally_ge; intros ? []; cbn; lia).
      destruct (decide (l_outstanding (l_log s) = 0)) as [E0|];
        [specialize (I7 E0)|destruct (decide (l_outstanding (l_log s) = 1)) as [E1|]]; nia.
    + assert (0 <= tally inside ps) by (apply tally_ge; intros ? []; cbn; lia). lia.
    + apply places_insert; [|split; [rewrite size_empty; lia|set_solver]].
      by eapply (others_mono (l_log s)).
  - cbn [conf_ok]. rewrite E. destruct Hi as [I1 I2 I3 I4 I5 I6 I7 I8]. constructor; rewrite ?(tally_insert _ _ _ _ _ Hp).
    + done.
    + cbn. lia.
    + cbn. lia.
    + done.
    + done.
    + intros Hc. specialize (I6 Hc). cbn [left_to]. lia.
    + done.
    + intros j p' [(_ & <- & _)|(Hne & Hj)]%list_lookup_insert_Some; [|by apply (I8 j)].
      intros s1. by apply Hk.
Qed.

(** A call of [log_write]. *)
Lemma write_ok L ps i W u b c :
  log_inv L ps -> ps !! i = Some (Inside W) -> 0 <= b_blockno (buf_of b u) < 2 ^ 32 ->
  (size ({[b_blockno (buf_of b u)]} ∪ W) <= limit)%nat ->
  outcome ps i (Inside ({[b_blockno (buf_of b u)]} ∪ W)) Writing (log_write u (mklst b L)) = Some c -> conf_ok c.
Proof.
  intros Hi Hp Hn Hw Ho. set (n := b_blockno (buf_of b u)) in *.
  pose proof (left_bounds _ _ Hi) as (B0 & B1 & _). specialize (B1 i _ Hp).
  destruct (iv_places _ _ Hi i _ Hp) as [Hs Hl]. destruct Hi as [I1 I2 I3 I4 I5 I6 I7 I8] eqn:EI; clear EI.
  assert (Hout : 1 <= tally inside ps).
  { destruct (tally_ge inside ps) as [_ H]; [intros ? []; cbn; lia|]. exact (H i _ Hp). }
  assert (Hc : l_committing L = 0) by (destruct I4 as [|[_ H]]; [done|lia]). specialize (I6 Hc).
  assert (Hroom : has_room L).
  { unfold has_room, peak, LOGSIZE, MAXOPBLOCKS in *. lia. }
  destruct (outcome_cases _ _ _ (mklst b L) _ _ _ _ _ _ Ho (log_write_runs u (mklst b L) (mklst b L) (conj eq_refl Hroom)))
    as [(s' & E & ->)|[(s' & k & [] & _)|(msg & Hm & ->)]]; [|exact Hm].
  cbn [conf_ok]. cbn [l_log l_b] in E. fold n in E. rewrite E.
  destruct (log_add_spec n L (proj1 I5) Hn) as (F1 & F2 & F3 & F4 & F5 & F6).
  assert (Hgrow : lh_n (log_add n L) + Z.of_nat (size W) <= lh_n L + Z.of_nat (size ({[n]} ∪ W))).
  { destruct F4 as [[F F']|[F F']]; rewrite F'.
    - assert (size W <= size ({[n]} ∪ W))%nat by (apply subseteq_size; set_solver). lia.
    - rewrite size_union, size_singleton by (intros x ->%elem_of_singleton Hx; by apply F, Hl). lia. }
  assert (Hroom' : lh_n (log_add n L) + tally left_to (<[i := Inside ({[n]} ∪ W)]> ps) <= peak).
  { rewrite (tally_insert _ _ _ _ _ Hp). cbn [left_to] in *. lia. }
  constructor; rewrite ?F1, ?F2, ?F3, ?(tally_insert inside _ _ _ _ Hp), ?(tally_insert leaving _ _ _ _ Hp).
  - done.
  - cbn. lia.
  - cbn. lia.
  - done.
  - unfold has_room in Hroom. lia.
  - intros _. exact Hroom'.
  - lia.
  - apply places_insert; [by eapply others_mono|]. split; [done|].
    intros m [->%elem_of_singleton|Hm]%elem_of_union; [done|]. by apply F5, Hl.
Qed.

(** A stretch of the commit of process [i], which is alone with the log. *)
Lemma commit_ok L ps i p z s r c :
  log_inv L ps -> ps !! i = Some p -> tally inside (<[i := Out]> ps) = 0 -> tally leaving (<[i := Out]> ps) = 0 ->
  l_size L = z ->
  res_runs log_same (stays_busy z) other_msg (fun _ _ s => idle z (l_log s)) s r ->
  outcome ps i Out Leaving r = Some c -> conf_ok c.
Proof.
  intros Hi Hp Hin Hle <- Hr Ho.
  assert (Hothers : forall L' j q, <[i := Out]> ps !! j = Some q -> place_ok L' q).
  { intros L' j q Hj. apply (place_mono L); [by eapply leaving_free|left; by eapply inside_free|].
    apply list_lookup_insert_Some in Hj as [(_ & <- & _)|(_ & Hj)]; [done|]. by apply (iv_places _ _ Hi j). }
  assert (Hleft : tally left_to (<[i := Out]> ps) = 0).
  { assert (H : forall j q, <[i := Out]> ps !! j = Some q -> 0 <= left_to q <= 0).
    { intros j q Hj. pose proof (inside_free _ _ _ Hin Hj). destruct q; cbn in *; lia. }
    pose proof (tally_le left_to (fun _ => 0) 0 (<[i := Out]> ps)) as H1.
    destruct (tally_ge left_to (<[i := Out]> ps)) as [H2 _]; [intros j q Hj; apply (H j q Hj)|].
    specialize (H1 (fun j q Hj => proj2 (H j q Hj))). lia. }
  assert (Hpeak : 0 <= peak) by (unfold peak, LOGSIZE, MAXOPBLOCKS; lia).
  destruct (outcome_cases _ _ _ _ _ _ _ _ _ _ Ho Hr) as [(s' & (E1 & E2 & E3 & E4) & ->)|[(s' & k & (E1 & E2 & E3 & E4) & Hk & ->)|(msg & Hm & ->)]];
    [| |exact Hm]; cbn [conf_ok]; constructor; rewrite ?E1, ?E2, ?E3; try lia.
  - apply Hi.
  - unfold LOGSIZE, MAXOPBLOCKS. lia.
  - apply Hothers.
  - apply Hi.
  - rewrite (tally_insert _ _ _ _ Out Hp) in Hin. rewrite (tally_insert _ _ _ _ _ Hp). cbn in *. lia.
  - rewrite (tally_insert _ _ _ _ Out Hp) in Hle. rewrite (tally_insert _ _ _ _ _ Hp). cbn in *. lia.
  - apply places_insert; [apply Hothers|]. intros s1 Hs1. rewrite E3. by apply Hk.
Qed.

(** A call of [end_op]. *)
Lemma end_ok fuel L ps i W b c :
  log_inv L ps -> ps !! i = Some (Inside W) ->
  outcome ps i Out Leaving (end_op fuel (mklst b L)) = Some c -> conf_ok c.
Proof.
  intros Hi Hp Ho. destruct (tally_ge inside ps) as [_ H1]; [intros ? []; cbn; lia|]. specialize (H1 i _ Hp).
  cbn [inside] in H1. pose proof (iv_inside _ _ Hi) as Hout. pose proof (iv_leaving _ _ Hi) as Hlv.
  assert (Hc : l_committing L = 0) by (destruct (iv_alone _ _ Hi) as [|[_ H]]; [done|lia]).
  destruct (decide (l_outstanding L = 1)) as [E1|E1].
  - apply (commit_ok L ps i (Inside W) (l_size L) (mklst b L) (end_op fuel (mklst b L))); try done.
    + rewrite (tally_insert _ _ _ _ _ Hp). cbn. lia.
    + rewrite (tally_insert _ _ _ _ _ Hp). cbn. lia.
    + apply end_op_commits; [done|done|apply Hi|done].
  - destruct (outcome_cases _ _ _ (mklst b L) _ _ _ _ _ _ Ho (end_op_leaves fuel L Hc E1 (mklst b L) (mklst b L) eq_refl))
      as [(s' & E & ->)|[(s' & k & [] & _)|(msg & Hm & ->)]]; [|exact Hm].
    cbn [conf_ok]. rewrite E. destruct (iv_places _ _ Hi i _ Hp) as [Hs _]. destruct Hi as [I1 I2 I3 I4 I5 I6 I7 I8] eqn:EI; clear EI.
    constructor; cbn [l_size l_outstanding l_committing lh_n set_outstanding]; rewrite ?(tally_insert _ _ _ _ _ Hp); try done.
    + cbn. lia.
    + cbn. lia.
    + by left.
    + intros _. specialize (I6 Hc). cbn [left_to]. lia.
    + lia.
    + by eapply others_mono.
Qed.

(** Every step keeps the invariant. *)
Lemma lstep_ok fuel c c' : lstep fuel limit c c' -> conf_ok c -> conf_ok c'.
Proof.
  intros [a H] Hc. destruct c as [L ps|msg]; [|done]. cbn in Hc. destruct a as [i b|i b u]; cbn [do_act] in H.
  - destruct (ps !! i) as [[|k|W|k|k]|] eqn:Hp; try done.
    + by eapply (enter_ok L ps i Out (mklst b L)); [..|apply begin_op_runs|].
    + eapply (enter_ok L ps i (Entering k) (mklst b L)); try done. apply (iv_places _ _ Hc i _ Hp).
    + by eapply end_ok.
    + pose proof (iv_places _ _ Hc i _ Hp) as Hk. destruct (tally_ge leaving ps) as [_ H1]; [intros ? []; cbn; lia|].
      specialize (H1 i _ Hp). cbn [leaving] in H1.
      destruct (iv_alone _ _ Hc) as [E|[E1 E2]]; [rewrite (iv_leaving _ _ Hc) in E; lia|].
      eapply (commit_ok L ps i (Leaving k) (l_size L) (mklst b L)); try done.
      * rewrite (tally_insert _ _ _ _ _ Hp), <- (iv_inside _ _ Hc). cbn. lia.
      * rewrite (tally_insert _ _ _ _ _ Hp), <- (iv_leaving _ _ Hc). cbn. lia.
      * by apply Hk.
  - destruct (ps !! i) as [[|k|W|k|k]|] eqn:Hp; try done.
    case_match eqn:E; [|done]. apply andb_true_iff in E as [[E1%Z.leb_le E2%Z.ltb_lt]%andb_true_iff E3%bool_decide_eq_true].
    eapply write_ok; done.
Qed.
End Invariant.

(** ** Runs of the system *)

Fixpoint run_acts (fuel limit : nat) (l : list act) (c : conf) : option conf :=
  match l with
  | [] => Some c
  | a :: l => match do_act fuel limit a c with Some c' => run_acts fuel limit l c' | None => None end
  end.

Lemma run_acts_rtc fuel limit l : forall c c', run_acts fuel limit l c = Some c' -> rtc (lstep fuel limit) c c'.
Proof.
  induction l as [|a l IH]; cbn; intros c c' H; [injection H as ->; apply rtc_refl|].
  destruct (do_act fuel limit a c) as [c1|] eqn:E; [|done]. eapply rtc_l; [by exists a|]. by apply IH.
Qed.

Lemma tally_out f n : f Out = 0 -> tally f (replicate n Out) = 0.
Proof. intros Hf. induction n as [|n IH]; cbn; [done|]. by rewrite Hf, IH. Qed.

Lemma other_msg_spec msg : other_msg msg -> msg ∉ log_panics.
Proof.
  unfold other_msg. intros H Hin. assert (existsb (String.eqb msg) log_panics = true); [|congruence].
  apply existsb_exists. exists msg. split; [by apply list_elem_of_In|apply String.eqb_refl].
Qed.

(** The kernel with a buffer for block [n], all locks free. *)
Definition bst_for (n : Z) : bst :=
  mkbst (mkslst pst_log ∅) {[0 := mkbuf 1 0 ROOTDEV n 1 0 0 zero_block]} ∅ [].

(** The log of a new disk, with room for [mkfs]'s [nlog] blocks. *)
Definition log_new : log := mklog 2 nlog 0 0 ROOTDEV 0 ∅.

Definition writes (i : nat) (from : Z) (n : nat) : list act :=
  map (fun k => Write i (bst_for (from + Z.of_nat k)) 0) (seq 0 n).

(** C2. However many processes use the log and however their routines are
    interleaved, if every operation logs at most [limit] blocks, fewer than
    [MAXOPBLOCKS], and the log has more than [peak limit] + 1 blocks (with 9
    blocks for each operation, the 30 that mkfs makes are enough), then
    none of [begin_op], [log_write] and [end_op] panics over the log. At every
    moment the header fits into the log, [outstanding] counts the operations,
    no operation is going on during a commit, and all blocks an operation has
    logged are in the header, so that one commit writes them all. *)
Theorem log_reservation (fuel limit procs : nat) (L0 : log) (c : conf) :
  Z.of_nat limit < MAXOPBLOCKS -> peak limit < l_size L0 - 1 -> idle (l_size L0) L0 ->
  rtc (lstep fuel limit) (Running L0 (replicate procs Out)) c ->
  match c with
  | Panicked msg => msg ∉ log_panics
  | Running L ps =>
      0 <= lh_n L <= LOGSIZE /\ l_outstanding L = tally inside ps /\
      (l_committing L <> 0 -> forall i W, ps !! i <> Some (Inside W)) /\
      (forall i W n, ps !! i = Some (Inside W) -> n ∈ W -> in_log L n)
  end.
Proof.
  intros Hl Hz (H1 & H2 & _ & H4) Hr.
  assert (H0 : conf_ok limit (Running L0 (replicate procs Out))).
  { constructor; rewrite ?tally_out by done; try lia.
    - unfold LOGSIZE, MAXOPBLOCKS. lia.
    - unfold peak, LOGSIZE, MAXOPBLOCKS in *. lia.
    - intros i p [-> _]%lookup_replicate. exact I. }
  assert (Hc : conf_ok limit c).
  { clear -Hl Hr H0. induction Hr as [|x y w Hxy _ IH]; [done|]. apply IH. by eapply lstep_ok. }
  destruct c as [L ps|msg]; [|by apply other_msg_spec]. cbn in Hc. split_and!; [apply Hc..| |].
  - intros Hn i W Hp. destruct (iv_alone _ _ _ Hc) as [|[_ E]]; [done|]. rewrite (iv_inside _ _ _ Hc) in E.
    by specialize (inside_free _ _ _ E Hp).
  - intros i W n Hp. apply (iv_places _ _ _ Hc i _ Hp).
Qed.

(** Two operations, one of which has logged two blocks. *)
Lemma log_reservation_witness :
  exists L, run_acts 0 9 ([Go 0 (bst_for 0); Go 1 (bst_for 0)] ++ writes 0 100 2) (Running log_new [Out; Out]) =
    Some (Running L [Inside {[100; 101]}; Inside ∅]) /\ 0 <= lh_n L <= LOGSIZE /\ in_log L 100.
Proof.
  eexists. split; [vm_compute; reflexivity|].
  match goal with |- context [lh_n ?l] => set (L := l) end.
  destruct (log_reservation 0 9 2 log_new (Running L [Inside {[100; 101]}; Inside ∅])) as (H1 & _ & _ & H4).
  - reflexivity.
  - reflexivity.
  - by vm_compute.
  - eapply run_acts_rtc with (l := [Go 0 (bst_for 0); Go 1 (bst_for 0)] ++ writes 0 100 2). vm_compute. reflexivity.
  - split; [exact H1|]. apply (H4 0%nat {[100; 101]}); [reflexivity|]. set_solver.
Defined.

